(* ===== verification/_CoqProject ===== *)
-Q . S2P
Prelude.v
GoStrings.v
Digraph.v
GoPath.v
GoValue.v
Float64.v
Marker.v
Refs.v
Secrets.v
Hash.v
Db.v
OpStore.v
OpTime.v
ManifestStore.v
Kahn.v
Graph.v
CrossOp.v
Registry.v
Auth.v
Dispatcher.v
Disk.v
Drift.v
Wire.v
Views.v
ChildGraph.v
Handlers.v
Reconciler.v
ClusterSpec.v
ClusterPlan.v
ClusterDiff.v
ClusterConverge.v
NodeOps.v
NodeAgent.v
Upgrade.v
VMCompare.v
VMConfig.v
Effects.v
Json.v
ProxmoxClient.v
ProxmoxHandler.v
ProxmoxProvider.v
ProxmoxDisks.v
ProxmoxSystem.v
Config.v
Startup.v
Plugin.v
K3sInstall.v
K3sHandler.v
K3sCli.v
PluginProto.v
PluginConn.v
JsonCode.v
External.v
Cloudflare.v
CloudflareRoutes.v
CloudflareDns.v
Git.v
GitOps.v
Gateway.v
TfTypes.v
TfSchema.v
TfHost.v
K8s.v
K8sCluster.v
