(* ===== verification/Prelude.v ===== *)
(** The openctl controller: a verification library.

    openctl is a controller for infrastructure resources. A client submits a
    manifest; the controller records an operation, resolves what the manifest
    refers to, has a provider apply it, and keeps the manifest as the desired
    state of the resource. This library models the controller's own logic, all
    of it Go code under src/, as executable functions on explicit state, and
    proves what makes it correct. Third-party systems (a Proxmox endpoint, YAML, git,
    the file system, HTTP, ssh) are parameters.

    * Files, in dependency order

    Shared theory:
    - Prelude: the [result] type of fallible functions with its monad, laws of
      lists, association lists (Go maps) and sorting, tactics and the hint
      database [openctl].
    - GoStrings, GoPath: package strings, and the lexical part of
      path/filepath, with what keeps a joined path below a root.
    - GoValue: [any] as JSON and YAML decode it, [protocol.Resource]
      (pkg/protocol/resource.go), equality up to map order ([veq]) and what a
      JSON round trip does to a value ([json_read]). Float64: rounding to a float64.
    - Digraph, Kahn: acyclicity, and Kahn's algorithm with one invariant for the
      three places where the code spells it out.

    Components:
    - Marker: the recursive walk that packages refs and secrets share, generic
      in how a marker is recognised and resolved; the class [MarkerLaws] is the
      interface between the walk and its two users.
    - Refs (internal/controller/refs/refs.go), Secrets
      (internal/controller/secrets/): the two users.
    - Hash (internal/controller/manifests/hash.go): the document a manifest is
      hashed as.
    - Db: the tables of internal/controller/storage/migrations as one record.
    - OpStore (internal/controller/operations/operations.go): the operations
      table; [op_step] has a constructor per method. OpTime: its timestamps.
    - ManifestStore (internal/controller/manifests/store.go, source.go,
      migration.go, internal/controller/providerstate/store.go): desired state
      and its hand-over between controllers; [store_step] adds the constructors
      of these methods to those of [op_step].
    - Graph (operations/graph.go): [RunGraph]. The goroutines report on a
      channel, so a run is a sequence of events picked by the environment.
    - CrossOp (operations/crossop.go, refgraph.go, internal/plan/plan.go):
      dependency edges from [$ref]s; the batch, composite and offline plans.
    - Registry (internal/controller/providers/provider.go): providers as records
      of functions; routing, ownership and action gates.
    - Auth (internal/controller/auth/, server/session.go): roles, token files,
      users, sessions, the claims of an identity provider and the interceptor.
    - Dispatcher (operations/dispatcher.go): claim, cache, resolve, apply,
      persist, complete, and the batch drain.
    - Disk (manifests/disk.go, migration_disk.go, reconcile.go, watcher.go,
      prune.go): the mirror of the desired state as files, and back.
    - Drift (server/drift.go, reconciler/compare.go), Reconciler
      (reconciler/reconciler.go): detection and remediation of drift.
    - Wire (server/authz.go and the conversions of server/resource.go), Views (its
      reading RPCs and server/watch.go), ChildGraph (its GetChildrenGraph),
      Handlers (its mutating RPCs, server/operation.go, server/migration.go and
      the submissions wired in cmd/openctl-controller/main.go): the service. A
      handler is one step on the state that the stores, the dispatcher and the
      registry share.
    - ClusterSpec (pkg/k3s/resources/cluster.go), ClusterPlan
      (providers/k3s/cluster_plan.go, cluster_apply_plan.go): a K3s cluster as
      children, and the graph they are installed in.
    - ClusterDiff (providers/k3s/diff.go, respec.go, dryrun.go): what an apply of an
      existing cluster would change. ClusterConverge (provider.go, countup_plan.go,
      respec_plan.go, k8scleanup.go, clusterstate.go): carrying it out, in a state
      and error monad with a log of the calls that leave the provider, and the
      state files. Two program logics, [emits] and [runs], prove what is called and
      what is left behind.
    - NodeOps (providers/k3s/node_ops.go, agent_ops.go, vm_ready.go): installing k3s
      and the agent on a node, with a log of the commands that are run.
    - NodeAgent (pkg/k3s/agent/upgrade.go): swapping the k3s binary of a node, with
      every state of its files. Upgrade (providers/k3s/cluster_upgrade.go and its
      wiring, cluster_node_ops.go): the rolling upgrade, proved against the class
      [nodeUpgrader], which the agents' client implements; [node_upgrade] connects
      it to NodeAgent.
    - VMCompare (pkg/proxmox/resources/vm_compare.go): the managed fields of a
      declared and an observed machine, and disk sizes. VMConfig
      (pkg/proxmox/resources/vm.go, vm_observation.go): a machine's parameters,
      written and read back.
    - Effects: conversations with a system that is not modelled. [prog] is the free
      monad of requests and answers; [behaves] is what a program can do whatever is
      answered, [run] what it does against a given system; [safe] and [asks] are
      the rules by which a theorem about all conversations is proved. Json: what
      encoding/json makes of an answer.
    - ProxmoxClient (pkg/proxmox/client/): the REST client, a program per method.
      ProxmoxHandler (pkg/proxmox/handler/handler.go, resize.go): machines, templates
      and nodes of one endpoint. ProxmoxProvider (providers/proxmox/provider.go,
      migration.go): several endpoints and their index, as a provider of Registry.
      ProxmoxDisks: sizes, options and storages. ProxmoxSystem: the provider behind
      the dispatcher.
    - Config (internal/config/, server/config.go): the configuration file, what a
      provider resolves to and the RPCs that edit it. Startup
      (cmd/openctl-controller/main.go): what the controller builds from it.
    - Plugin (pkg/protocol/request.go, response.go, dispatch.go, internal/state/,
      internal/plugin/): the command line's plugins, the dispatcher that carries out
      what one plugin asks of the others, and its state files.
    - K3sInstall (pkg/k3s/cluster/): installing a cluster over ssh. K3sHandler
      (pkg/k3s/handler/handler.go): the k3s plugin. K3sCli: the plugin as a process,
      in conversation with the dispatcher of Plugin.
    - PluginProto (pkg/pluginproto/): the messages of the second protocol, as JSON
      written and read, the server's dispatch to a [Handler] and the client's methods
      on a round trip. PluginConn (client.go): many calls on one connection, a step
      relation with a constructor per critical section, turn or failure. External
      (providers/external/): the adapter that makes a plugin a provider and keeps its
      state in the table of ManifestStore. It is not an instance of Registry's record
      of functions, whose reads do not change the controller's state: its Get does.
    - Cloudflare (plugins/cloudflare/): a plugin of that protocol, as a [Handler] that
      runs programs of Effects. CloudflareRoutes and CloudflareDns prove it against
      the classes [ConfigStoreLaws] and [RecordStoreLaws], what the API promises;
      JsonCode has the texts that their witnesses answer.
    - Git (manifests/git.go, githook.go, server/repo.go): the repository of the mirror,
      a program of Effects per method, asking for the lock, for git's subcommands and for
      a reconciliation. GitOps proves them against the class [GitLaws], what git
      promises, with the requests of other methods and of other people in between
      ([among]).
    - Gateway (server/http.go, oidc_http.go, webhook_http.go): cookies, single sign-on
      on the sessions of Auth, and the push webhook.
    - TfTypes (providers/tfhost/schema.go, values.go): a Terraform schema as a type, a
      spec as a value of it and back. TfSchema (schema_cue.go): the CUE text of a kind.
      TfHost (provider.go, client_v5.go): a Terraform process, a record of functions on a
      state of its own, as a provider with its state in the table of ManifestStore; [local]
      is the protocol written down without the adapter.
    - K8s (plugins/k8s/): the Kubernetes plugin, another [Handler] that runs programs of
      Effects; client-go and Helm answer them. K8sCluster proves, with the rules of [wp], what
      it asks of a server that answers as it likes and writes everything down ([logged]).

    * What the theorems show

    - Ordering: whatever finishes when, the graph engine starts a task only after
      its dependencies succeeded, within its concurrency, and stops on failure
      (RunGraph_safety, RunGraph_terminates, RunGraph_result); the graphs it is
      given are the ones the manifests ask for (crossOpEdges_spec,
      crossOpAcyclic_iff, Build_spec, drainScheduled_complete,
      cluster_install_order).
    - State: one top-level operation in flight per resource, the life of a row,
      retention, claiming (OpStore); a resource is never both managed and
      released, a release fences it and can be retried (ManifestStore).
    - Pipeline: every claimed operation ends with a terminal status
      (execute_terminal), unless a provider answers a reference with neither a resource nor
      an error (nil_answer_panics); a cache hit is exactly an unchanged manifest and
      changes nothing (apply_cache); nothing that is stored depends on a secret
      (secrets_never_stored), except the result that the provider returns
      (result_holds_secret).
    - References and secrets: resolution is complete and independent of map
      order, nothing unresolved is handed on, the file provider stays below its
      root (Refs, Secrets).
    - Mirror: paths stay below the root, what the mirror writes is not applied again
      (mirror_loop_safe), though what it removes is deleted again (removal_echoes),
      startup restores without destroying, pruning is conservative (Disk).
    - Drift: the comparison reports exactly the fields that differ; remediation
      is opt-in and backs off exponentially (Drift, Reconciler).
    - Access: a credential is recognised only as the user that it was issued to, with no
      role that was not given to him (auth_no_escalation),
      and what a viewer can do to the state (viewer_can_only_cancel).
    - Service: what an apply checks before it is accepted (Apply_admission), that a
      list, a read and a watch show the same resources (List_Get_parity,
      Watch_in_sync), that the graph of children is finite, closed and rooted
      (GetChildrenGraph_rooted, GetChildrenGraph_terminates), and that handing a
      resource from one controller to another leaves it managed by one of them
      (migration_handover).
    - Clusters: names, addresses, placement and expansion (ClusterSpec,
      ClusterPlan); what a change asks for is what its preview says
      (dry_run_gates, for a cluster that is past its installation), it makes exactly the calls of its plan, in order
      (applyExisting_script), joins new nodes to a member that stays
      (applyExisting_joins), and a second apply finds nothing to do
      (applyExisting_converges).
    - Nodes: a spec that parses is one that can be installed
      (parseK3sNodeSpec_wf), a node that joins by reference joins that cluster
      (join_by_ref_end_to_end), an install is recorded when it succeeded and is not
      repeated (applyK3sNode_once); a binary is replaced by verified bytes or not at
      all, wherever the agent dies (runUpgrade_verified); an upgrade goes node by
      node, control planes first, and stops at the first that does not answer
      (rollingUpgrade_serial), but cannot be resumed safely
      (failed_node_is_skipped).
    - Machines: sizes are compared as exact numbers of bytes
      (binaryDiskSize_canonical), a machine that is as declared does not drift
      (ComparableVMSpecs_declared), whatever else is observed and in whatever order
      (ComparableVMSpecs_observation), and what is written is what is read back
      (configuration_roundtrip). For every endpoint, whatever it answers: a machine is
      made only after a complete look that did not show it
      (apply_creates_only_missing), an existing one is only grown
      (apply_updates_in_place), a pinned image is verified before it is cloned
      (pinned_image_verified), an identity is one machine's
      (MigrationIdentity_sound). Looking a machine up does not depend on the index
      (locate_refines), a deletion that succeeds found it or was told that there is
      none (Delete_honest); a node that does not answer defeats both
      (unreachable_node_duplicates, unreachable_node_forgotten).
    - Configuration: an edit of a provider is saved whole or not at all, keeps a secret
      that it does not replace, and leaves the others alone (UpsertProvider_effect); no
      list shows a secret (ListProviders_hides_secrets); the tunables that are shown
      are in force after the next start (UpdateControllerConfig_in_force); the
      registry does not depend on the order of the file (buildRegistry_any_order),
      unless a plugin takes a name that is taken (plugin_name_stops_startup).
    - Command line: a cluster is installed in order and a success means all of it
      (InstallK3s_order); every conversation with the k3s plugin ends
      (create_terminates), every request gets its result (executeDispatches_ids), but
      a cluster that was created cannot be deleted (create_then_delete_leaks).
    - Plugins: every message is read as it was written (dec_resource_enc and the
      lemmas of PluginProto); calls that share a connection get their own answers
      (call_correlation) and return (waiting_call_returns); a stateful plugin behind
      the pipe is a provider that remembers (external_refines), except that a read
      loses the private blob (refresh_drops_private). The routes of a tunnel are a map
      that many resources share (routes_refine), until the Tunnel itself is applied
      (tunnel_apply_drops_routes); a DNSRecord is one record (record_lifecycle), until
      its zone changes (zone_change_leaks); deleting what is gone fails for a route
      only (deletions_of_the_gone).
    - Git: a pull that moves the branch is reconciled, once, whatever runs at the same
      time (reconcile_iff_advance), but a fresh controller never pulls from a remote that
      has commits (fresh_controller_never_pulls); a hook fails only when its commit does
      (hook_fails_only_at_commit), and nothing that a client sends becomes an option of
      git (no_injected_option).
    - Front end: single sign-on opens a session only for the browser that started it, and
      the session is the user of the claims until it expires (sso_end_to_end); the cookie
      of a login is its token (login_cookie); who can start a reconciliation
      (webhook_triggers_iff).
    - Terraform: a spec becomes a value of the type of its schema and reads back as it was
      (goToValue_faithful); a process is handed exactly the state that its last successful
      call returned (tf_refines), so what it made before it failed is lost
      (failed_creation_leaks). A number that is no number ends the process (nan_panics).
    - Clusters' objects: a Manifest or Kustomize asks only for changes of objects that it
      names, and of those has patched the ones of its last manifest last and deleted the
      others (objects_lifecycle), unless an object is renamed in version
      (new_version_deletes) or an apply fails (failed_apply_leaks); a kubeconfig is shown
      nowhere (apply_hides_kubeconfig).

    Theorems whose comment starts with C and a number are the library's
    properties. Some state a defect of the code, named in their comment.

    * Conventions and bounds

    A Go map is an association list without repeated keys that stands for one
    iteration order; results are stated up to [veq] or shown independent of the
    order. A Go [int] is a [Z], wrapped where it can overflow; float64 is
    [spec_float]. A string is a byte sequence, assumed to be valid UTF-8 where it
    passes through JSON. Error values are constructors of one inductive type per
    component, keeping the order of the code's checks. Loops over finite data
    are structural; where the code loops on a worklist or a channel, fuel is the
    number of nodes or of pending rows, and a theorem shows it to be enough
    (Kahn's [worklist_enough], RunGraph_terminates, drainScheduled_complete,
    Build_spec; GetChildrenGraph_terminates for the children graph). Where the code
    waits for a deadline, the number of polls is an argument, and the theorems hold
    for every one; the rounds of a plugin's conversation are shown to be at most 61
    (create_terminates).

    Calls that leave the modelled code (children applied and deleted, commands run
    on nodes, upgrades of nodes) are kept in a log in the order in which they are
    made, whatever they return; what they return is chosen by the environment.
    ASCII is assumed where the code changes case or trims blanks.

    An RPC handler, a database statement and a transaction are one atomic step each
    that succeeds: disk failures are not modelled, and rows that ORDER BY leaves tied
    come in table order. JSON columns hold the decoded value. sha256, the JSON text
    of a value, YAML, providers, the environment, clocks and random ids are arguments;
    hypotheses about them (decoding inverts encoding, providers do not write to
    the controller's tables) are stated where they are used.

    * Not modelled

    Input and output: the routes and the listener of the HTTP front end, its static
    files, the exchange with an identity provider, git itself, file system
    notification and its timers, the poll loop and shutdown of the dispatcher and the ticker of the reconciler, the HTTP secret providers,
    the launch, transport and encodings of Terraform's processes, client-go, Helm and
    kustomize behind the Kubernetes plugin, the
    start and end of plugin processes, ssh, certificates and the agent's installer,
    the command line's arguments and output, CUE schemas, templates and generated
    protocol code. A request to a plugin is delivered whole and in order; identifiers
    of calls do not wrap around (2^64 calls). *)
From stdpp Require Export prelude strings gmap list sorting relations pretty.
From Stdlib Require Export ZArith Lia.

#[export] Set Default Goal Selector "!".
#[export] Set Warnings "-register-all,-clear-no-such-hyp,-cannot-remove-as-expected".

Create HintDb openctl discriminated.
Create Rewrite HintDb openctl.

(** * Fallible code

    A Go function that returns [(T, error)] becomes a function into
    [result E T], where [E] lists the error returns of its component. *)

Inductive result (E A : Type) : Type :=
| Ok (a : A)
| Err (e : E).
Arguments Ok {E A} a.
Arguments Err {E A} e.

#[export] Instance result_ret E : MRet (result E) := λ A a, Ok a.
#[export] Instance result_bind E : MBind (result E) := λ A B f m,
  match m with Ok a => f a | Err e => Err e end.
#[export] Instance result_fmap E : FMap (result E) := λ A B f m,
  match m with Ok a => Ok (f a) | Err e => Err e end.

#[export] Instance result_eq_dec `{EqDecision E, EqDecision A} :
  EqDecision (result E A).
Proof. solve_decision. Defined.

Definition is_ok {E A} (r : result E A) : bool :=
  match r with Ok _ => true | Err _ => false end.

(** [fmt.Errorf("...: %w", err)]: wrap the error, keep a success. *)
Definition map_err {E F A} (f : E → F) (r : result E A) : result F A :=
  match r with Ok a => Ok a | Err e => Err (f e) end.

Definition ok_or {E A} (r : result E A) (x : A) : A := match r with Ok a => a | Err _ => x end.

Lemma ok_or_ok {E A} (r : result E A) (a : A) : is_ok r = true → r = Ok (ok_or r a).
Proof. by destruct r. Qed.

(** A run known to succeed, without naming what it returned. *)
Lemma run_ok {E A S} (x : result E A * S) (a : A) : is_ok x.1 = true → x = (Ok (ok_or x.1 a), x.2).
Proof. by destruct x as [[]]. Qed.

Lemma is_ok_true {E A} (r : result E A) : is_ok r = true ↔ ∃ a, r = Ok a.
Proof.
  split; [|by intros [a ->]]. destruct r as [a|e]; [|done]. by exists a.
Qed.

(** The loop [for _, x := range l { y, err := f(x); ... }] that stops at the
    first error. *)
Definition mapR {E A B} (f : A → result E B) : list A → result E (list B) :=
  fix go l :=
    match l with
    | [] => Ok []
    | x :: l' =>
        match f x with
        | Err e => Err e
        | Ok y => match go l' with Err e => Err e | Ok ys => Ok (y :: ys) end
        end
    end.

Lemma mapR_Ok {E A B} (f : A → result E B) l ys :
  mapR f l = Ok ys ↔ Forall2 (λ x y, f x = Ok y) l ys.
Proof.
  revert ys; induction l as [|x l IH]; intros ys; simpl.
  { split; [intros [= <-]; constructor|by inversion_clear 1]. }
  destruct (f x) as [y|e] eqn:Hx.
  - destruct (mapR f l) as [zs|e] eqn:Hl; split.
    + intros [= <-]. constructor; [done|]. by apply IH.
    + inversion_clear 1 as [|??? zs' ? Hr]. apply IH in Hr. congruence.
    + done.
    + inversion_clear 1 as [|??? zs' ? Hr]. apply IH in Hr. done.
  - split; [done|]. inversion_clear 1. congruence.
Qed.

(** The first error is the error of an element. *)
Lemma mapR_Err {E A B} (f : A → result E B) l e : mapR f l = Err e → ∃ x, x ∈ l ∧ f x = Err e.
Proof.
  induction l as [|x l IH]; simpl; [done|]. destruct (f x) as [y|e'] eqn:Hx.
  - destruct (mapR f l) as [ys|e']; [done|]. intros [= ->]. destruct IH as (z & Hz & Hf); [done|]. exists z. split; [by right|done].
  - intros [= ->]. exists x. split; [left|done].
Qed.

Lemma mapR_is_ok {E A B} (f : A → result E B) l :
  is_ok (mapR f l) = forallb (λ x, is_ok (f x)) l.
Proof.
  induction l as [|x l IH]; simpl; [done|].
  destruct (f x); simpl; [|done]. rewrite <-IH. by destruct (mapR f l).
Qed.

Lemma mapR_ext {E A B} (f g : A → result E B) l :
  Forall (λ x, f x = g x) l → mapR f l = mapR g l.
Proof. induction 1 as [|x l Hx _ IH]; simpl; [done|]. by rewrite Hx, IH. Qed.

Lemma mapR_id {E A} (f : A → result E A) l :
  Forall (λ x, f x = Ok x) l → mapR f l = Ok l.
Proof. induction 1 as [|x l Hx _ IH]; simpl; [done|]. by rewrite Hx, IH. Qed.

(** * Sorting *)

(** A stable sort does not look at what its order does not. *)
Section merge_sort_map.
Context {A B : Type} (f : A → B) (R : relation A) (R' : relation B) `{!RelDecision R} `{!RelDecision R'}.
Context (HR : ∀ x y, R x y ↔ R' (f x) (f y)).

Lemma list_merge_map l1 l2 : map f (list_merge R l1 l2) = list_merge R' (map f l1) (map f l2).
Proof.
  revert l2. induction l1 as [|x l1 IH]; intros l2; [by destruct l2|].
  induction l2 as [|y l2 IH2]; [done|]. simpl. simpl in IH2.
  destruct (decide (R x y)) as [Hr|Hr]; destruct (decide (R' (f x) (f y))) as [Hr'|Hr'].
  - simpl. by rewrite IH.
  - by apply HR in Hr.
  - by apply HR in Hr'.
  - simpl. f_equal. exact IH2.
Qed.
Lemma merge_sort_map l : map f (merge_sort R l) = merge_sort R' (map f l).
Proof.
  assert (∀ st, map f (merge_stack R st) = merge_stack R' (map (fmap (map f)) st)) as Hs.
  { induction st as [|[m|] st IH]; simpl; [done|by rewrite list_merge_map, IH|done]. }
  assert (∀ st m, map (fmap (map f)) (merge_list_to_stack R st m) = merge_list_to_stack R' (map (fmap (map f)) st) (map f m)) as Hm.
  { induction st as [|[m'|] st IH]; intros m; simpl; [done|by rewrite IH, list_merge_map|done]. }
  unfold merge_sort. assert (∀ st, map f (merge_sort_aux R st l) = merge_sort_aux R' (map (fmap (map f)) st) (map f l)) as H; [|apply (H [])].
  induction l as [|x l IH]; intros st; simpl; [apply Hs|]. by rewrite IH, Hm.
Qed.
End merge_sort_map.

(** * Sorted string slices ([sort.Strings]) *)

Definition sort_strings : list string → list string := merge_sort String.le.

Lemma sort_strings_perm l : sort_strings l ≡ₚ l.
Proof. apply merge_sort_Permutation. Qed.

Lemma sort_strings_sorted l : StronglySorted String.le (sort_strings l).
Proof. apply (StronglySorted_merge_sort String.le). Qed.

Lemma elem_of_sort_strings x l : x ∈ sort_strings l ↔ x ∈ l.
Proof. by rewrite sort_strings_perm. Qed.

Lemma NoDup_sort_strings l : NoDup (sort_strings l) ↔ NoDup l.
Proof. by rewrite sort_strings_perm. Qed.

Lemma length_sort_strings l : length (sort_strings l) = length l.
Proof. by rewrite sort_strings_perm. Qed.

(** The result of sorting depends on the elements only, so a slice collected by
    ranging over a Go map has one sorted form whatever the iteration order. *)
#[export] Instance sort_strings_proper :
  Proper ((≡ₚ) ==> (=)) sort_strings.
Proof.
  intros l1 l2 Hl.
  apply (StronglySorted_unique String.le); auto using sort_strings_sorted.
  by rewrite !sort_strings_perm.
Qed.

Lemma filter_none {A} (P : A → Prop) `{∀ x, Decision (P x)} l :
  Forall (λ x, ¬ P x) l → filter P l = [].
Proof. induction 1 as [|x l Hx _ IH]; [done|]. by rewrite filter_cons, decide_False. Qed.

Lemma elem_of_concat {A} (x : A) ls : x ∈ concat ls ↔ ∃ l, x ∈ l ∧ l ∈ ls.
Proof.
  induction ls as [|l ls IH]; simpl.
  - split; [by intros ?%elem_of_nil|]. by intros (? & _ & ?%elem_of_nil).
  - rewrite elem_of_app, IH. setoid_rewrite elem_of_cons. naive_solver.
Qed.

(** * Association lists: Go maps with string keys, in one iteration order *)

Section assoc.
Context {V : Type}.
Implicit Types (m : list (string * V)) (k : string) (v : V).

Fixpoint assoc k m : option V :=
  match m with
  | [] => None
  | (k', v) :: m' => if decide (k = k') then Some v else assoc k m'
  end.

(** [m[k] = v]: overwrite in place, or append. *)
Fixpoint assoc_set k v m : list (string * V) :=
  match m with
  | [] => [(k, v)]
  | (k', v') :: m' =>
      if decide (k = k') then (k, v) :: m' else (k', v') :: assoc_set k v m'
  end.

(** [delete(m, k)] *)
Definition assoc_del k m : list (string * V) :=
  filter (λ p, p.1 ≠ k) m.

Lemma assoc_elem k v m : assoc k m = Some v → (k, v) ∈ m.
Proof.
  induction m as [|[k' v'] m IH]; simpl; [done|].
  case_decide; intros; simplify_eq; [left|right]; auto.
Qed.

Lemma assoc_None k m : assoc k m = None ↔ k ∉ m.*1.
Proof.
  induction m as [|[k' v'] m IH]; simpl.
  - split; [intros _; apply not_elem_of_nil|done].
  - rewrite not_elem_of_cons. case_decide; naive_solver.
Qed.

Lemma elem_assoc k v m : NoDup m.*1 → (k, v) ∈ m → assoc k m = Some v.
Proof.
  induction m as [|[k' v'] m IH]; simpl; [by intros _ ?%elem_of_nil|].
  rewrite NoDup_cons, elem_of_cons.
  intros [Hk Hnd] [[= <- <-]|Hin]; [by rewrite decide_True|].
  case_decide as Heq; [|by apply IH]. subst.
  destruct Hk. apply (list_elem_of_fmap_2 fst) in Hin. done.
Qed.

Lemma assoc_Permutation k m1 m2 :
  NoDup m1.*1 → m1 ≡ₚ m2 → assoc k m1 = assoc k m2.
Proof.
  intros Hnd Hp.
  assert (NoDup m2.*1) as Hnd2 by (by rewrite <-Hp).
  destruct (assoc k m1) as [v|] eqn:H1.
  - symmetry. apply elem_assoc; [done|]. rewrite <-Hp. by apply assoc_elem.
  - symmetry. apply assoc_None. rewrite <-Hp. by apply assoc_None.
Qed.

Lemma assoc_set_eq k v m : assoc k (assoc_set k v m) = Some v.
Proof.
  induction m as [|[k' v'] m IH]; simpl; [by rewrite decide_True|].
  case_decide; simpl; [by rewrite decide_True|by rewrite decide_False].
Qed.

Lemma assoc_set_ne k k' v m :
  k ≠ k' → assoc k' (assoc_set k v m) = assoc k' m.
Proof.
  intros Hne. induction m as [|[k1 v1] m IH]; simpl.
  - by rewrite decide_False.
  - case_decide; simplify_eq/=; [|by rewrite IH].
    by rewrite !decide_False by done.
Qed.

Lemma assoc_del_eq k m : assoc k (assoc_del k m) = None.
Proof.
  apply assoc_None. unfold assoc_del. intros Hin.
  apply list_elem_of_fmap in Hin as ([k' v'] & -> & Hin).
  by apply list_elem_of_filter in Hin as [? _].
Qed.

Lemma assoc_del_ne k k' m : k ≠ k' → assoc k' (assoc_del k m) = assoc k' m.
Proof.
  intros Hne. unfold assoc_del.
  induction m as [|[k1 v1] m IH]; simpl; [done|].
  rewrite filter_cons; simpl. case_decide; simpl; [by rewrite IH|].
  rewrite IH. rewrite decide_False; [done|congruence].
Qed.
Lemma assoc_set_keys k v m x : x ∈ (assoc_set k v m).*1 ↔ x = k ∨ x ∈ m.*1.
Proof.
  induction m as [|[k' v'] m IH]; csimpl; [rewrite list_elem_of_singleton, elem_of_nil; tauto|].
  case_decide; csimpl; rewrite !elem_of_cons; [subst; tauto|]. rewrite IH. tauto.
Qed.

Lemma assoc_set_NoDup k v m : NoDup m.*1 → NoDup (assoc_set k v m).*1.
Proof.
  induction m as [|[k' v'] m IH]; csimpl; [intros _; apply NoDup_singleton|].
  intros [Hk Hm]%NoDup_cons. case_decide; csimpl; [subst; by constructor|].
  constructor; [|by apply IH]. rewrite assoc_set_keys. intros [?|?]; [congruence|done].
Qed.

Lemma assoc_set_elem k v m p : p ∈ assoc_set k v m → p = (k, v) ∨ p ∈ m.
Proof.
  induction m as [|[k' v'] m IH]; simpl; [intros ->%list_elem_of_singleton; by left|].
  case_decide; rewrite !elem_of_cons; tauto.
Qed.

Lemma assoc_set_fresh k v m : assoc k m = None → assoc_set k v m = m ++ [(k, v)].
Proof.
  induction m as [|[k' v'] m IH]; simpl; [done|]. case_decide as Hd; [done|]. intros H. by rewrite IH.
Qed.

(** Maps without repeated keys that agree are permutations. *)
Lemma assoc_ext_Permutation m1 m2 :
  NoDup m1.*1 → NoDup m2.*1 → (∀ k, assoc k m1 = assoc k m2) → m1 ≡ₚ m2.
Proof.
  intros H1 H2 He. apply NoDup_Permutation; [by eapply NoDup_fmap_1|by eapply NoDup_fmap_1|]. intros [k v]. split; intros Hin.
  - apply assoc_elem. rewrite <- He. by apply elem_assoc.
  - apply assoc_elem. rewrite He. by apply elem_assoc.
Qed.
End assoc.

#[export] Hint Rewrite @assoc_set_eq @assoc_del_eq : openctl.

(** * Decidable tests written as booleans *)

Lemma bool_decide_str_refl (s : string) : bool_decide (s = s) = true.
Proof. by apply bool_decide_eq_true. Qed.

#[export] Hint Rewrite bool_decide_str_refl : openctl.

(** Split every boolean conjunction and turn [bool_decide] tests into
    propositions. *)
Ltac bool_to_prop :=
  repeat match goal with
  | H : _ && _ = true |- _ => apply andb_true_iff in H as [? ?]
  | H : _ || _ = false |- _ => apply orb_false_iff in H as [? ?]
  | H : negb _ = true |- _ => apply negb_true_iff in H
  | H : negb _ = false |- _ => apply negb_false_iff in H
  | H : bool_decide _ = true |- _ => apply bool_decide_eq_true in H
  | H : bool_decide _ = false |- _ => apply bool_decide_eq_false in H
  end.

(** Case analysis on the scrutinee of the match in a hypothesis or the goal,
    with equations, discarding the impossible branches. *)
Ltac case_matches :=
  repeat (case_match; simplify_eq/=; try done).

(** Discharge a closed decidable proposition by evaluating its decision. *)
Ltac by_decide := refine (bool_decide_eq_true_1 _ _); vm_compute; reflexivity.
