(* ===== verification/GoStrings.v ===== *)
(** The functions of Go's [strings] package that the controller uses, on
    Rocq's byte strings, with the laws the components rely on. A Go string is a
    byte sequence and [strings.Compare], [<] and [sort.Strings] order it
    bytewise, which is [String.compare]. *)
From S2P Require Import Prelude.
From Stdlib Require Import Ascii.

(** [strings.HasPrefix(s, p)] *)
Definition has_prefix (p s : string) : bool := String.prefix p s.

(** [strings.CutPrefix(s, p)] *)
Fixpoint cut_prefix (p s : string) : option string :=
  match p, s with
  | EmptyString, _ => Some s
  | String a p', String b s' => if decide (a = b) then cut_prefix p' s' else None
  | String _ _, EmptyString => None
  end.

(** [strings.TrimPrefix(s, p)] *)
Definition trim_prefix (p s : string) : string := default s (cut_prefix p s).

(** [strings.CutSuffix(s, suf)] *)
Fixpoint cut_suffix (suf s : string) : option string :=
  if decide (s = suf) then Some ""
  else match s with
       | EmptyString => None
       | String a s' => String a <$> cut_suffix suf s'
       end.

Definition has_suffix (suf s : string) : bool :=
  bool_decide (is_Some (cut_suffix suf s)).

(** [strings.TrimSuffix(s, suf)] *)
Definition trim_suffix (suf s : string) : string := default s (cut_suffix suf s).

(** [strings.TrimRight(s, string(c))] *)
Fixpoint trim_right (c : ascii) (s : string) : string :=
  match s with
  | EmptyString => EmptyString
  | String a s' =>
      let t := trim_right c s' in
      if decide (a = c ∧ t = "") then EmptyString else String a t
  end.

(** [strings.IndexByte(s, c)]; [None] is Go's -1. *)
Fixpoint index_byte (c : ascii) (s : string) : option nat :=
  match s with
  | EmptyString => None
  | String a s' => if decide (a = c) then Some 0 else S <$> index_byte c s'
  end.

(** [strings.LastIndex(s, string(c))] *)
Fixpoint last_index_byte (c : ascii) (s : string) : option nat :=
  match s with
  | EmptyString => None
  | String a s' =>
      match last_index_byte c s' with
      | Some i => Some (S i)
      | None => if decide (a = c) then Some 0 else None
      end
  end.

(** [s[:n]] *)
Fixpoint str_take (n : nat) (s : string) : string :=
  match n, s with
  | S n', String a s' => String a (str_take n' s')
  | _, _ => EmptyString
  end.

(** [strings.Split(s, string(c))]: always at least one piece. *)
Fixpoint split_on (c : ascii) (s : string) : list string :=
  match s with
  | EmptyString => [EmptyString]
  | String a s' =>
      if decide (a = c) then EmptyString :: split_on c s'
      else match split_on c s' with
           | [] => [String a EmptyString]
           | p :: ps => String a p :: ps
           end
  end.

(** [strings.Cut(s, string(c))]; [None] when [c] does not occur. *)
Fixpoint cut_byte (c : ascii) (s : string) : option (string * string) :=
  match s with
  | EmptyString => None
  | String a s' =>
      if decide (a = c) then Some (EmptyString, s')
      else match cut_byte c s' with
           | Some (x, y) => Some (String a x, y)
           | None => None
           end
  end.

(** [strings.Join(l, sep)] *)
Definition join (sep : string) (l : list string) : string := String.concat sep l.

(** [strings.TrimSpace] on ASCII text. *)
Definition is_space (c : ascii) : bool :=
  let n := nat_of_ascii c in ((9 <=? n) && (n <=? 13)) || (n =? 32).

Fixpoint trim_left_space (s : string) : string :=
  match s with
  | String c s' => if is_space c then trim_left_space s' else s
  | EmptyString => s
  end.

Fixpoint trim_right_space (s : string) : string :=
  match s with
  | EmptyString => EmptyString
  | String c s' =>
      match trim_right_space s' with
      | EmptyString => if is_space c then EmptyString else String c EmptyString
      | t => String c t
      end
  end.

Definition trim_space (s : string) : string := trim_right_space (trim_left_space s).

(** [strings.ToLower] and [strings.ToUpper] on ASCII text *)
Definition shift_byte (lo hi : nat) (to : nat → nat) (c : ascii) : ascii :=
  let n := nat_of_ascii c in if (lo <=? n) && (n <=? hi) then ascii_of_nat (to n) else c.

Fixpoint map_bytes (f : ascii → ascii) (s : string) : string :=
  match s with
  | EmptyString => EmptyString
  | String c s' => String (f c) (map_bytes f s')
  end.

Definition ToLower : string → string := map_bytes (shift_byte 65 90 (λ n, n + 32)).
Definition ToUpper : string → string := map_bytes (shift_byte 97 122 (λ n, n - 32)).

(** [strings.Contains(s, sub)] *)
Fixpoint contains (sub s : string) : bool :=
  has_prefix sub s || match s with String _ s' => contains sub s' | EmptyString => false end.

(** [strings.ReplaceAll(s, old, new)] for a non-empty [old]; [skip] bytes of the
    last match are still to be passed over. *)
Fixpoint replace_from (skip : nat) (old new s : string) : string :=
  match s with
  | EmptyString => EmptyString
  | String c s' =>
      match skip with
      | S skip' => replace_from skip' old new s'
      | 0 =>
          if has_prefix old s then new +:+ replace_from (String.length old - 1) old new s'
          else String c (replace_from 0 old new s')
      end
  end.

Definition replace_all (old new s : string) : string := replace_from 0 old new s.

(** [c] does not occur in [s]. *)
Fixpoint no_byte (c : ascii) (s : string) : Prop :=
  match s with
  | EmptyString => True
  | String a s' => a ≠ c ∧ no_byte c s'
  end.

#[export] Instance no_byte_dec c s : Decision (no_byte c s).
Proof. induction s; simpl; apply _. Defined.

(** ** Concatenation *)

Lemma str_app_assoc (a b c : string) : (a +:+ b) +:+ c = a +:+ (b +:+ c).
Proof. induction a as [|x a IH]; [done|]. unfold String.append in *. simpl. by f_equal. Qed.

Lemma str_app_nil_r (a : string) : a +:+ "" = a.
Proof. induction a as [|x a IH]; [done|]. unfold String.append in *. simpl. by f_equal. Qed.

Lemma str_app_cons x (a b : string) : String x a +:+ b = String x (a +:+ b).
Proof. done. Qed.

Lemma str_length_app (a b : string) :
  String.length (a +:+ b) = String.length a + String.length b.
Proof. induction a as [|x a IH]; [done|]. rewrite str_app_cons; simpl. by rewrite IH. Qed.

Lemma str_app_inj_r (a b c : string) : a +:+ c = b +:+ c → a = b.
Proof.
  revert b; induction a as [|x a IH]; intros [|y b] H; [done| | |].
  - apply (f_equal String.length) in H.
    rewrite !str_length_app in H; simpl in H; lia.
  - apply (f_equal String.length) in H.
    rewrite !str_length_app in H; simpl in H; lia.
  - rewrite !str_app_cons in H. injection H as -> H. by rewrite (IH b).
Qed.

Lemma no_byte_app c (a b : string) : no_byte c (a +:+ b) ↔ no_byte c a ∧ no_byte c b.
Proof.
  induction a as [|x a IH].
  { change ("" +:+ b) with b. simpl. tauto. }
  rewrite str_app_cons. simpl. rewrite IH. tauto.
Qed.

(** ** Prefixes and suffixes *)

Lemma cut_prefix_Some p s r : cut_prefix p s = Some r ↔ s = p +:+ r.
Proof.
  revert s; induction p as [|a p IH]; intros s; simpl.
  { split; [by intros [= ->]|by intros ->]. }
  destruct s as [|b s]; [done|]. rewrite str_app_cons.
  case_decide as Hab; [subst; rewrite IH|]; naive_solver.
Qed.

Lemma cut_suffix_Some suf s r : cut_suffix suf s = Some r ↔ s = r +:+ suf.
Proof.
  revert r; induction s as [|a s IH]; intros r; simpl; case_decide as Hs.
  - subst suf. split; [by intros [= <-]|].
    intros H. destruct r; [done|]. done.
  - split; [done|]. intros H. destruct r; [|done]. by destruct Hs.
  - subst suf. split; [by intros [= <-]|].
    intros H%(f_equal String.length). rewrite str_length_app in H; simpl in H.
    destruct r; [done|]. simpl in H; lia.
  - rewrite fmap_Some. split.
    + intros (r' & Hr & ->). apply IH in Hr as ->. done.
    + destruct r as [|b r]; [intros H; by destruct Hs|].
      rewrite str_app_cons. intros [= -> ->]. exists r. by rewrite IH.
Qed.

Lemma trim_suffix_app suf s : trim_suffix suf (s +:+ suf) = s.
Proof. unfold trim_suffix. by rewrite (proj2 (cut_suffix_Some suf _ s) eq_refl). Qed.

Lemma trim_prefix_app p s : trim_prefix p (p +:+ s) = s.
Proof. unfold trim_prefix. by rewrite (proj2 (cut_prefix_Some p _ s) eq_refl). Qed.

Lemma has_prefix_cut p s : has_prefix p s = bool_decide (is_Some (cut_prefix p s)).
Proof.
  unfold has_prefix. revert s; induction p as [|a p IH]; intros s; simpl.
  { by destruct s. }
  destruct s as [|b s]; simpl; [done|].
  destruct (Ascii.ascii_dec a b) as [->|Hne].
  - by rewrite decide_True by done.
  - rewrite decide_False by done. done.
Qed.

Lemma has_prefix_true p s : has_prefix p s = true ↔ ∃ r, s = p +:+ r.
Proof.
  rewrite has_prefix_cut, bool_decide_eq_true. unfold is_Some.
  by setoid_rewrite cut_prefix_Some.
Qed.

Lemma has_prefix_app p s : has_prefix p (p +:+ s) = true.
Proof. apply has_prefix_true. eauto. Qed.

Lemma has_suffix_true suf s : has_suffix suf s = true ↔ ∃ r, s = r +:+ suf.
Proof.
  unfold has_suffix. rewrite bool_decide_eq_true. unfold is_Some.
  by setoid_rewrite cut_suffix_Some.
Qed.

(** ** Splitting *)

Lemma split_on_ne_nil c s : split_on c s ≠ [].
Proof. destruct s as [|a s]; simpl; [done|]. case_decide; [done|]. by destruct (split_on c s). Qed.

Lemma split_on_no_byte c s : no_byte c s → split_on c s = [s].
Proof.
  induction s as [|a s IH]; simpl; [done|]. intros [Hac Hs].
  rewrite decide_False by done. by rewrite IH.
Qed.

Lemma split_on_app c a b :
  no_byte c a → split_on c (a +:+ String c b) = a :: split_on c b.
Proof.
  induction a as [|x a IH]; simpl; intros Hc.
  { change ("" +:+ String c b) with (String c b). simpl. by rewrite decide_True. }
  destruct Hc as [Hx Ha].
  change (split_on c (String x (a +:+ String c b)) = String x a :: split_on c b).
  simpl. rewrite decide_False by done. by rewrite IH.
Qed.

(** The pieces of a split hold no separator, and joining them gives the string
    back. *)
Lemma split_on_pieces c s : Forall (no_byte c) (split_on c s).
Proof.
  induction s as [|a s IH]; simpl; [by repeat constructor|].
  case_decide; [by constructor|].
  destruct (split_on c s) as [|p ps]; [by repeat constructor|].
  inversion_clear IH. by constructor.
Qed.

(** Joining with one byte and splitting at it. *)
Lemma split_on_join c l : l ≠ [] → Forall (no_byte c) l → split_on c (join (String c "") l) = l.
Proof.
  intros Hne Hl. induction l as [|a [|b l] IH]; [done| |].
  - inversion_clear Hl. by apply split_on_no_byte.
  - inversion_clear Hl as [|? ? Ha Hl']. change (join (String c "") (a :: b :: l)) with (a +:+ String c (join (String c "") (b :: l))).
    rewrite split_on_app by done. by rewrite IH.
Qed.

Lemma cut_byte_app c a b : no_byte c a → cut_byte c (a +:+ String c b) = Some (a, b).
Proof.
  induction a as [|x a IH]; intros Hc.
  { change ("" +:+ String c b) with (String c b). simpl. by rewrite decide_True. }
  destruct Hc as [Hx Ha].
  change (cut_byte c (String x (a +:+ String c b)) = Some (String x a, b)). simpl.
  rewrite decide_False by done. by rewrite IH.
Qed.

Lemma cut_byte_None c s : cut_byte c s = None ↔ no_byte c s.
Proof.
  induction s as [|a s IH]; simpl; [done|].
  case_decide; [split; [done|by intros []]|].
  destruct (cut_byte c s) as [[]|]; naive_solver.
Qed.

Lemma cut_byte_Some c s a b : cut_byte c s = Some (a, b) → no_byte c a ∧ s = a +:+ String c b.
Proof.
  revert a; induction s as [|x s IH]; intros a; simpl; [done|].
  case_decide as Hx; [by intros [= <- ->]; subst|].
  destruct (cut_byte c s) as [[a' b']|] eqn:E; [|done]. intros [= <- ->].
  destruct (IH _ eq_refl) as [? ->]. done.
Qed.

(** ** Last separator *)

Lemma last_index_byte_None c s : last_index_byte c s = None ↔ no_byte c s.
Proof.
  induction s as [|a s IH]; simpl; [done|].
  destruct (last_index_byte c s) eqn:E.
  - split; [done|]. intros [_ H]. by apply IH in H.
  - case_decide; [naive_solver|]. naive_solver.
Qed.

Lemma last_index_byte_app c a b :
  no_byte c b → last_index_byte c (a +:+ String c b) = Some (String.length a).
Proof.
  intros Hb. induction a as [|x a IH].
  - change ("" +:+ String c b) with (String c b). simpl.
    rewrite (proj2 (last_index_byte_None c b) Hb). by rewrite decide_True.
  - rewrite str_app_cons; simpl. by rewrite IH.
Qed.

Lemma str_take_app a b : str_take (String.length a) (a +:+ b) = a.
Proof. induction a as [|x a IH]; [by destruct b|]. rewrite str_app_cons; simpl. by rewrite IH. Qed.

(** Two strings cut at the same last separator agree on both sides. *)
Lemma last_sep_inj c a1 b1 a2 b2 :
  no_byte c b1 → no_byte c b2 →
  a1 +:+ String c b1 = a2 +:+ String c b2 → a1 = a2 ∧ b1 = b2.
Proof.
  intros H1 H2 Heq.
  pose proof (last_index_byte_app c a1 b1 H1) as L1.
  pose proof (last_index_byte_app c a2 b2 H2) as L2.
  rewrite Heq, L2 in L1. injection L1 as L1.
  assert (a1 = a2) as <-.
  { rewrite <-(str_take_app a1 (String c b1)), <-(str_take_app a2 (String c b2)).
    by rewrite Heq, L1. }
  split; [done|]. apply (inj (String.append a1)) in Heq. by simplify_eq.
Qed.

(** [fmt.Sprintf("%d", i)] of a non-negative integer holds only digits, so no
    dash, dot or slash. *)
Definition is_digit (a : ascii) : bool := bool_decide (is_Some (Ascii.is_nat a)).

Fixpoint all_digits (s : string) : bool :=
  match s with
  | EmptyString => true
  | String a s' => is_digit a && all_digits s'
  end.

Lemma all_digits_no_byte c s : is_digit c = false → all_digits s = true → no_byte c s.
Proof.
  intros Hc. induction s as [|a s IH]; simpl; [done|].
  intros [Ha Hs]%andb_true_iff. split; [by intros ->; rewrite Hc in Ha|by apply IH].
Qed.

Lemma pretty_N_go_digits x s : all_digits s = true → all_digits (pretty_N_go x s) = true.
Proof.
  revert s. induction (N.lt_wf_0 x) as [x _ IH]; intros s Hs.
  destruct (decide (0 < x)%N) as [Hx|Hx].
  - rewrite pretty_N_go_step by done. apply IH; [by apply N.div_lt|].
    simpl. rewrite Hs, andb_true_r. unfold pretty_N_char. by repeat case_match.
  - replace x with 0%N by lia. done.
Qed.

Lemma pretty_N_digits (n : N) : all_digits (pretty n) = true.
Proof. unfold pretty, pretty_N. case_decide; [done|]. by apply pretty_N_go_digits. Qed.

Lemma pretty_nat_digits (n : nat) : all_digits (pretty n) = true.
Proof. apply pretty_N_digits. Qed.

#[export] Hint Resolve pretty_N_digits pretty_nat_digits has_prefix_app : openctl.
#[export] Hint Rewrite trim_suffix_app trim_prefix_app : openctl.

(** ** Three-way comparison functions, as [slices.SortFunc] takes them *)

Class GoodCompare {A} (cmp : A → A → comparison) : Prop := {
  cmp_eq x y : cmp x y = Eq → x = y;
  cmp_antisym x y : cmp x y = CompOpp (cmp y x);
  cmp_trans x y z : cmp x y ≠ Gt → cmp y z ≠ Gt → cmp x z ≠ Gt;
}.

Definition cmp_le {A} (cmp : A → A → comparison) (x y : A) : Prop := cmp x y ≠ Gt.

#[export] Instance cmp_le_dec {A} (cmp : A → A → comparison) : RelDecision (cmp_le cmp).
Proof. intros x y. unfold cmp_le. apply _. Defined.

(** [slices.SortFunc]; with a good comparison equal elements are identical, so
    that the sort is not stable does not show. *)
Definition sort_func {A} (cmp : A → A → comparison) : list A → list A := merge_sort (cmp_le cmp).

Section good_compare.
Context {A : Type} (cmp : A → A → comparison) `{!GoodCompare cmp}.

#[export] Instance cmp_le_trans : Transitive (cmp_le cmp).
Proof. intros x y z. apply cmp_trans. Qed.

#[export] Instance cmp_le_total : Total (cmp_le cmp).
Proof. intros x y. unfold cmp_le. rewrite (cmp_antisym x y). destruct (cmp y x); simpl; auto. Qed.

Lemma cmp_le_antisym x y : cmp_le cmp x y → cmp_le cmp y x → x = y.
Proof.
  unfold cmp_le. intros H1 H2. apply cmp_eq.
  rewrite (cmp_antisym x y) in *. by destruct (cmp y x).
Qed.

Lemma sort_func_perm l : sort_func cmp l ≡ₚ l.
Proof. apply merge_sort_Permutation. Qed.

Lemma sort_func_proper l1 l2 : l1 ≡ₚ l2 → sort_func cmp l1 = sort_func cmp l2.
Proof.
  intros Hl. apply (StronglySorted_unique_strong (cmp_le cmp)).
  - intros x y _ _. apply cmp_le_antisym.
  - apply (StronglySorted_merge_sort (cmp_le cmp)).
  - apply (StronglySorted_merge_sort (cmp_le cmp)).
  - by rewrite !sort_func_perm.
Qed.
End good_compare.

#[export] Instance string_compare_good : GoodCompare String.compare.
Proof.
  assert (∀ x y, String.compare x y ≠ Gt ↔ String.le x y) as Hle.
  { intros x y. unfold String.le, String.leb. by destruct (String.compare x y). }
  split.
  - apply String.compare_eq_iff.
  - apply String.compare_antisym.
  - intros x y z. rewrite !Hle. apply transitivity.
Qed.

(** Compare by one key, then by another. *)
Definition cmp_then (c d : comparison) : comparison := match c with Eq => d | _ => c end.

Definition pair_compare {A B} (cA : A → A → comparison) (cB : B → B → comparison)
    (p q : A * B) : comparison := cmp_then (cA p.1 q.1) (cB p.2 q.2).

Lemma good_compare_refl {A} (cmp : A → A → comparison) `{!GoodCompare cmp} x : cmp x x = Eq.
Proof. pose proof (cmp_antisym (cmp := cmp) x x) as H. by destruct (cmp x x). Qed.

#[export] Instance pair_compare_good {A B} (cA : A → A → comparison) (cB : B → B → comparison) :
  GoodCompare cA → GoodCompare cB → GoodCompare (pair_compare cA cB).
Proof.
  intros HA HB. unfold pair_compare, cmp_then. split.
  - intros [a b] [a' b']; simpl. destruct (cA a a') eqn:Ha; try done.
    intros Hb%cmp_eq. apply cmp_eq in Ha. congruence.
  - intros [a b] [a' b']; simpl. rewrite (cmp_antisym (cmp := cA) a a'), (cmp_antisym (cmp := cB) b b').
    by destruct (cA a' a).
  - intros [a b] [a' b'] [a'' b'']; simpl. intros H1 H2.
    assert (cA a a'' ≠ Gt) as H3.
    { eapply (cmp_trans (cmp := cA) a a' a''); [by destruct (cA a a')|by destruct (cA a' a'')]. }
    destruct (cA a a'') eqn:E; [|done|done]. apply cmp_eq in E as <-.
    rewrite (cmp_antisym (cmp := cA) a a') in H1.
    destruct (cA a' a) eqn:E'; simpl in *; [|done|done].
    by eapply (cmp_trans (cmp := cB) b b' b'').
Qed.

(** A comparison read off an injective key. *)
Lemma key_compare_good {A K} (key : A → K) (cK : K → K → comparison) `{!GoodCompare cK} :
  Inj (=) (=) key → GoodCompare (λ x y, cK (key x) (key y)).
Proof.
  intros Hinj. split.
  - intros x y H%cmp_eq. by apply Hinj.
  - intros x y. apply cmp_antisym.
  - intros x y z. apply cmp_trans.
Qed.

(** ** [strconv.Atoi] *)

Definition digit_val (c : ascii) : option Z :=
  let n := Z.of_nat (nat_of_ascii c) in
  if (48 <=? n)%Z && (n <=? 57)%Z then Some (n - 48)%Z else None.

Fixpoint digits_value (acc : Z) (s : string) : option Z :=
  match s with
  | EmptyString => Some acc
  | String c s' =>
      match digit_val c with
      | Some d => digits_value (10 * acc + d)%Z s'
      | None => None
      end
  end.

(** Decimal, an optional sign, at least one digit, within 64 bits. *)
Definition atoi (s : string) : option Z :=
  let parse sign ds :=
    match ds with
    | EmptyString => None
    | _ =>
        match digits_value 0 ds with
        | Some v =>
            let z := (sign * v)%Z in
            if (-9223372036854775808 <=? z)%Z && (z <=? 9223372036854775807)%Z then Some z else None
        | None => None
        end
    end in
  match s with
  | String c s' =>
      if decide (c = "-"%char) then parse (-1)%Z s'
      else if decide (c = "+"%char) then parse 1%Z s'
      else parse 1%Z s
  | EmptyString => None
  end.
