(* ===== verification/Digraph.v ===== *)
(** Dependency graphs: acyclicity, and the two facts every scheduling argument
    of the development rests on. *)
From S2P Require Import Prelude.

Section digraph.
Context {A : Type} (R : relation A).

(** [R x y]: [x] depends on [y]. *)
Definition acyclic : Prop := ∀ x, ¬ tc R x x.

Lemma tc_mono (R' : relation A) x y :
  (∀ a b, R' a b → R a b) → tc R' x y → tc R x y.
Proof.
  intros Hsub. induction 1 as [a b Hab|a b c Hab _ IH].
  - by apply tc_once, Hsub.
  - eapply tc_l; [by apply Hsub|done].
Qed.

(** A graph with a rank that decreases along every edge has no cycle. *)
Lemma ranked_acyclic (rank : A → nat) :
  (∀ x y, R x y → rank y < rank x) → acyclic.
Proof.
  intros Hrank x Htc.
  cut (∀ a b, tc R a b → rank b < rank a).
  { intros H. specialize (H x x Htc). lia. }
  induction 1 as [a b Hab|a b c Hab _ IH]; [by apply Hrank|].
  apply Hrank in Hab. lia.
Qed.

Lemma tc_in_S (S : list A) x y : tc (λ a b, b ∈ S ∧ R a b) x y → y ∈ S.
Proof. induction 1; naive_solver. Qed.

(** A non-empty finite set in which everything depends on something of the
    set holds a cycle: what Kahn's algorithm relies on when it stops. *)
Lemma acyclic_sink (S : list A) :
  acyclic → S ≠ [] → ¬ ∀ x, x ∈ S → ∃ y, y ∈ S ∧ R x y.
Proof.
  intros Hac Hne Hall.
  destruct S as [|x0 S'] eqn:HS; [done|]. rewrite <-HS in *.
  assert (sn (λ a b, b ∈ S ∧ R a b) x0) as Hsn.
  { apply tc_finite_sn.
    - intros x Hx. apply (Hac x). revert Hx. apply tc_mono. by intros ?? [].
    - exists S. intros y Hy. apply (tc_in_S _ _ _ Hy). }
  assert (x0 ∈ S) as Hin by (rewrite HS; left). clear HS Hne. revert Hin.
  induction Hsn as [x _ IH]. intros Hx.
  destruct (Hall x Hx) as (y & Hy & HR). by apply (IH y).
Qed.

Lemma acyclic_minimal `{!RelDecision R} (S : list A) :
  acyclic → S ≠ [] → ∃ x, x ∈ S ∧ ∀ y, y ∈ S → ¬ R x y.
Proof.
  intros Hac Hne.
  destruct (decide (Exists (λ x, Forall (λ y, ¬ R x y) S) S)) as [H|H].
  { apply Exists_exists in H as (x & Hx & Hy). exists x. split; [done|].
    by apply Forall_forall. }
  destruct (acyclic_sink S Hac Hne). intros x Hx.
  destruct (decide (Exists (R x) S)) as [Hy|Hy].
  { apply Exists_exists in Hy. naive_solver. }
  destruct H. apply Exists_exists. exists x. split; [done|].
  apply Forall_forall. intros y Hys HR. apply Hy, Exists_exists. by exists y.
Qed.
End digraph.
