(* ===== verification/GoPath.v ===== *)
(** The lexical path functions of Go's [path/filepath] on Unix, and what the
    controller relies on to keep files below a root directory: cleaning a rooted
    path leaves no component that could climb. *)
From S2P Require Import Prelude GoStrings.

Definition slash : Ascii.ascii := Ascii.Ascii true true true true false true false false.

(** [filepath.IsAbs] *)
Definition is_abs (p : string) : bool :=
  match p with String c _ => bool_decide (c = slash) | EmptyString => false end.

(** One component of [filepath.Clean]; the stack holds the kept components, the
    last one first. *)
Definition clean_step (rooted : bool) (stack : list string) (c : string) : list string :=
  if decide (c = "" ∨ c = ".") then stack
  else if decide (c = "..") then
    match stack with
    | top :: rest => if decide (top = "..") then c :: stack else rest
    | [] => if rooted then [] else [c]
    end
  else c :: stack.

Definition clean_comps (rooted : bool) (cs : list string) : list string :=
  rev (fold_left (clean_step rooted) cs []).

(** [filepath.Clean] *)
Definition Clean (p : string) : string :=
  let rooted := is_abs p in
  let out := join "/" (clean_comps rooted (split_on slash p)) in
  if rooted then String slash out else if decide (out = "") then "." else out.

(** [filepath.Join]: leading empty elements are skipped. *)
Fixpoint Join (elems : list string) : string :=
  match elems with
  | [] => ""
  | e :: elems' => if decide (e = "") then Join elems' else Clean (join "/" elems)
  end.

(** A component that names an entry of its directory. *)
Definition proper (c : string) : Prop :=
  c ≠ "" ∧ c ≠ "." ∧ c ≠ ".." ∧ no_byte slash c.

#[export] Instance proper_dec c : Decision (proper c).
Proof. unfold proper. apply _. Defined.

(** The components of a rooted path, as the kernel walks them. *)
Definition comps (p : string) : list string := clean_comps true (split_on slash p).

Lemma clean_step_proper stack c :
  Forall proper stack → no_byte slash c → Forall proper (clean_step true stack c).
Proof.
  intros Hs Hc. unfold clean_step. case_decide as H1; [done|]. case_decide as H2.
  - destruct Hs as [|top rest Ht Hr]; [done|]. case_decide; [|done].
    subst. destruct Ht as (_&_&?&_). done.
  - constructor; [|done]. repeat split; tauto.
Qed.

Lemma fold_clean_proper cs stack :
  Forall proper stack → Forall (no_byte slash) cs →
  Forall proper (fold_left (clean_step true) cs stack).
Proof.
  intros Hs Hcs. revert stack Hs.
  induction Hcs as [|c cs Hc _ IH]; intros stack Hs; simpl; [done|].
  apply IH. by apply clean_step_proper.
Qed.

Lemma comps_proper p : Forall proper (comps p).
Proof.
  unfold comps, clean_comps. apply Forall_rev.
  apply fold_clean_proper; [done|apply split_on_pieces].
Qed.

Lemma fold_clean_keep cs stack :
  Forall proper cs → fold_left (clean_step true) cs stack = rev cs ++ stack.
Proof.
  intros Hcs. revert stack.
  induction Hcs as [|c cs (?&?&?&?) _ IH]; intros stack; simpl; [done|].
  unfold clean_step at 2. rewrite decide_False by tauto. rewrite decide_False by done.
  rewrite IH. by rewrite <-(assoc_L (++)).
Qed.

Lemma clean_comps_app cs ds :
  Forall proper ds → clean_comps true (cs ++ ds) = clean_comps true cs ++ ds.
Proof.
  intros Hds. unfold clean_comps. rewrite fold_left_app, fold_clean_keep by done.
  by rewrite rev_app_distr, rev_involutive.
Qed.

Lemma join_cons2 sep a b l : join sep (a :: b :: l) = a +:+ sep +:+ join sep (b :: l).
Proof. done. Qed.

Lemma split_join l : l ≠ [] → Forall (no_byte slash) l → split_on slash (join "/" l) = l.
Proof. apply split_on_join. Qed.

Lemma is_abs_cons p : is_abs p = true → ∃ q, p = String slash q.
Proof. destruct p as [|c q]; [done|]. simpl. intros ->%bool_decide_eq_true. eauto. Qed.

Lemma split_on_slash q : split_on slash (String slash q) = "" :: split_on slash q.
Proof. done. Qed.

Lemma comps_slash q : comps (String slash q) = comps q.
Proof. unfold comps. by rewrite split_on_slash. Qed.

Lemma proper_no_slash cs : Forall proper cs → Forall (no_byte slash) cs.
Proof. intros H. eapply Forall_impl; [exact H|]. by intros c (_&_&_&?). Qed.

(** Joining kept components and reading them back. *)
Lemma comps_join cs : Forall proper cs → comps (join "/" cs) = cs.
Proof.
  intros Hcs. unfold comps. destruct cs as [|c cs]; [done|].
  rewrite split_join by (done || by apply proper_no_slash).
  exact (clean_comps_app [] (c :: cs) Hcs).
Qed.

(** [Clean] keeps a rooted path's components. *)
Lemma Clean_abs p : is_abs p = true → Clean p = String slash (join "/" (comps p)).
Proof. unfold Clean. by intros ->. Qed.

Lemma comps_Clean p : is_abs p = true → comps (Clean p) = comps p.
Proof. intros H. rewrite Clean_abs, comps_slash by done. apply comps_join, comps_proper. Qed.

Lemma Clean_is_abs p : is_abs p = true → is_abs (Clean p) = true.
Proof. intros H. by rewrite Clean_abs. Qed.

Lemma split_on_slash_app p b :
  split_on slash (p +:+ String slash b) = split_on slash p ++ split_on slash b.
Proof.
  induction p as [|c p IH].
  - change ("" +:+ String slash b) with (String slash b). done.
  - change (String c p +:+ String slash b) with (String c (p +:+ String slash b)). simpl.
    rewrite IH. case_decide; [done|].
    by destruct (split_on slash p) as [|x xs] eqn:E; [by apply split_on_ne_nil in E|].
Qed.

(** A cleaned path that extends another cleaned path lies below it. *)
Lemma Clean_prefix p q r :
  is_abs p = true → is_abs q = true → comps p ≠ [] →
  Clean q = Clean p +:+ "/" +:+ r →
  comps q = comps p ++ split_on slash r.
Proof.
  intros Hp Hq Hne. rewrite !Clean_abs by done. intros H.
  change (String slash (join "/" (comps q)) =
    String slash (join "/" (comps p) +:+ String slash r)) in H.
  injection H as H. apply (f_equal (split_on slash)) in H.
  rewrite split_on_slash_app, (split_join (comps p)) in H
    by (done || apply proper_no_slash, comps_proper).
  destruct (comps q) as [|c cs] eqn:E.
  { simpl in H. destruct (comps p) as [|x [|]]; [done| |done]; simpl in H.
    injection H as _ H. symmetry in H. by apply split_on_ne_nil in H. }
  rewrite split_join in H; [done|done|]. apply proper_no_slash. rewrite <-E. apply comps_proper.
Qed.

Lemma comps_app p cs :
  Forall proper cs → cs ≠ [] → comps (p +:+ "/" +:+ join "/" cs) = comps p ++ cs.
Proof.
  intros Hcs Hne. unfold comps.
  change (p +:+ "/" +:+ join "/" cs) with (p +:+ String slash (join "/" cs)).
  rewrite split_on_slash_app, split_join by (done || by apply proper_no_slash).
  by apply clean_comps_app.
Qed.

(** Two rooted paths with the same components are the same cleaned path. *)
Lemma Clean_comps_inj p q :
  is_abs p = true → is_abs q = true → comps p = comps q → Clean p = Clean q.
Proof. intros Hp Hq H. by rewrite !Clean_abs, H by done. Qed.
