(* ===== verification/GoValue.v ===== *)
(** Dynamically typed Go values ([any] as [json.Unmarshal] and the YAML decoder
    build them) and the [protocol.Resource] every component passes around
    (pkg/protocol/resource.go).

    A Go map is an association list that stands for one iteration order; the
    code's results must not depend on that order, so two values are the same
    manifest when their canonical forms ([canon]: every map sorted by key) are
    equal. *)
From S2P Require Import Prelude.
From Corelib Require Import Floats.SpecFloat.

(** ** Numbers *)

(** IEEE binary64. *)
Definition f64_prec : Z := 53.
Definition f64_emax : Z := 1024.

(** [float64(i)]: round to nearest, ties to even. *)
Definition f64_of_Z (z : Z) : spec_float := binary_normalize f64_prec f64_emax z 0 false.

(** [a == b] on float64 ([NaN != NaN], [-0 == 0]). *)
Definition f64_eqb : spec_float → spec_float → bool := SFeqb.

Definition int64_min : Z := -9223372036854775808.
Definition int64_max : Z := 9223372036854775807.

(** Signed 64-bit wrap-around. *)
Definition wrap64 (z : Z) : Z := ((z - int64_min) mod 18446744073709551616 + int64_min)%Z.

(** [int(f)] on amd64: truncation toward zero, the minimal integer for NaN,
    infinities and values out of range. *)
Definition Z_of_f64 (f : spec_float) : Z :=
  let clamp z := if (int64_min <=? z)%Z && (z <=? int64_max)%Z then z else int64_min in
  match f with
  | S754_zero _ => 0
  | S754_infinity _ | S754_nan => int64_min
  | S754_finite s m e =>
      let mag := if (0 <=? e)%Z then (Z.pos m * 2 ^ e)%Z else (Z.pos m / 2 ^ (- e))%Z in
      clamp (if s then (- mag)%Z else mag)
  end.

#[export] Instance spec_float_eq_dec : EqDecision spec_float.
Proof. solve_decision. Defined.

(** ** Values *)

Inductive value : Type :=
| VNull
| VBool (b : bool)
| VInt (z : Z)
| VFloat (f : spec_float)
| VStr (s : string)
| VList (l : list value)
| VMap (m : list (string * value)).

Abbreviation gomap := (list (string * value)).

Section value_ind.
Context (P : value → Prop).
Context (Hnull : P VNull) (Hbool : ∀ b, P (VBool b)) (Hint : ∀ z, P (VInt z)).
Context (Hfloat : ∀ f, P (VFloat f)) (Hstr : ∀ s, P (VStr s)).
Context (Hlist : ∀ l, Forall P l → P (VList l)).
Context (Hmap : ∀ m, Forall (λ p, P p.2) m → P (VMap m)).

(** Induction through the nested lists. *)
Fixpoint value_ind' (v : value) : P v :=
  match v with
  | VNull => Hnull
  | VBool b => Hbool b
  | VInt z => Hint z
  | VFloat f => Hfloat f
  | VStr s => Hstr s
  | VList l =>
      Hlist l ((fix go l : Forall P l :=
        match l with
        | [] => Forall_nil_2 P
        | x :: l' => Forall_cons_2 P x l' (value_ind' x) (go l')
        end) l)
  | VMap m =>
      Hmap m ((fix go m : Forall (λ p : string * value, P p.2) m :=
        match m with
        | [] => Forall_nil_2 _
        | p :: m' => Forall_cons_2 _ p m' (value_ind' p.2) (go m')
        end) m)
  end.
End value_ind.

Fixpoint value_eqb (v w : value) : bool :=
  match v, w with
  | VNull, VNull => true
  | VBool a, VBool b => bool_decide (a = b)
  | VInt a, VInt b => bool_decide (a = b)
  | VFloat a, VFloat b => bool_decide (a = b)
  | VStr a, VStr b => bool_decide (a = b)
  | VList l1, VList l2 =>
      (fix go l1 l2 :=
         match l1, l2 with
         | [], [] => true
         | x :: l1, y :: l2 => value_eqb x y && go l1 l2
         | _, _ => false
         end) l1 l2
  | VMap m1, VMap m2 =>
      (fix go (m1 m2 : list (string * value)) :=
         match m1, m2 with
         | [], [] => true
         | (k1, x) :: m1, (k2, y) :: m2 => bool_decide (k1 = k2) && value_eqb x y && go m1 m2
         | _, _ => false
         end) m1 m2
  | _, _ => false
  end.

Lemma value_eqb_eq v w : value_eqb v w = true ↔ v = w.
Proof.
  revert w; induction v as [ |b|z|f|s|l IH|m IH] using value_ind';
    intros w; destruct w as [ |b'|z'|f'|s'|l'|m']; simpl;
    rewrite ?bool_decide_eq_true; try (split; congruence).
  - revert l'; induction IH as [|x l Hx _ IHl]; intros [|y l']; try (split; congruence).
    rewrite andb_true_iff, Hx, IHl. split; [by intros [-> [= ->]]|by intros [= -> ->]].
  - revert m'; induction IH as [|[k x] m Hx _ IHm]; intros [|[k' y] m']; try (split; congruence).
    simpl in Hx. rewrite !andb_true_iff, Hx, IHm, bool_decide_eq_true.
    split; [by intros [[-> ->] [= ->]]|by intros [= -> -> ->]].
Qed.

#[export] Instance value_eq_dec : EqDecision value.
Proof.
  refine (λ v w, match value_eqb v w as b return value_eqb v w = b → Decision (v = w) with
                 | true => λ H, left (proj1 (value_eqb_eq v w) H)
                 | false => λ H, right (λ Heq, _)
                 end eq_refl).
  apply value_eqb_eq in Heq. congruence.
Defined.

(** [obj[key].(string)], with the zero value when the assertion fails. *)
Definition as_str (v : option value) : option string :=
  match v with Some (VStr s) => Some s | _ => None end.

Definition str_field (key : string) (obj : gomap) : string :=
  default "" (as_str (assoc key obj)).

(** [v.(map[string]any)] and [v.([]any)] *)
Definition as_map (v : option value) : option gomap :=
  match v with Some (VMap m) => Some m | _ => None end.
Definition as_list (v : option value) : option (list value) :=
  match v with Some (VList l) => Some l | _ => None end.
Definition as_bool (v : option value) : option bool :=
  match v with Some (VBool b) => Some b | _ => None end.

(** ** Well-formed values: a Go map has one value per key. *)
Fixpoint wfb (v : value) : bool :=
  match v with
  | VList l => forallb wfb l
  | VMap m => bool_decide (NoDup m.*1) && forallb (λ p, wfb p.2) m
  | _ => true
  end.

Definition wf (v : value) : Prop := wfb v = true.

Lemma forallb_Forall_true {A} (f : A → bool) l : forallb f l = true ↔ Forall (λ x, f x = true) l.
Proof.
  induction l as [|x l IH]; simpl; [by split|].
  by rewrite andb_true_iff, IH, Forall_cons.
Qed.

Lemma wf_list l : wf (VList l) ↔ Forall wf l.
Proof. apply forallb_Forall_true. Qed.

Lemma wf_map m : wf (VMap m) ↔ NoDup m.*1 ∧ Forall (λ p, wf p.2) m.
Proof.
  unfold wf; simpl. by rewrite andb_true_iff, bool_decide_eq_true, forallb_Forall_true.
Qed.

Lemma wf_assoc k m v : wf (VMap m) → assoc k m = Some v → wf v.
Proof.
  intros [_ Hm]%wf_map Hk%assoc_elem. rewrite Forall_forall in Hm.
  by apply (Hm (k, v)).
Qed.

(** ** Canonical form: maps sorted by key, what [json.Marshal] prints. *)

Definition key_le {V} (p q : string * V) : Prop := String.le p.1 q.1.
#[export] Instance key_le_dec {V} : RelDecision (@key_le V).
Proof. intros p q. unfold key_le. apply _. Defined.
#[export] Instance key_le_trans {V} : Transitive (@key_le V).
Proof. intros p q r. unfold key_le. apply transitivity. Qed.
#[export] Instance key_le_total {V} : Total (@key_le V).
Proof. intros p q. unfold key_le. apply (total String.le). Qed.

Definition sort_entries {V} : list (string * V) → list (string * V) := merge_sort key_le.

Lemma sort_entries_perm {V} (m : list (string * V)) : sort_entries m ≡ₚ m.
Proof. apply merge_sort_Permutation. Qed.

Lemma sort_entries_unique {V} (m1 m2 : list (string * V)) :
  NoDup m1.*1 → m1 ≡ₚ m2 → sort_entries m1 = sort_entries m2.
Proof.
  intros Hnd Hp.
  apply (StronglySorted_unique_strong key_le);
    [|apply (StronglySorted_merge_sort key_le)..|by rewrite !sort_entries_perm].
  intros [k1 v1] [k2 v2] H1 H2 Hle1 Hle2. unfold key_le in *; simpl in *.
  rewrite sort_entries_perm in H1. rewrite sort_entries_perm, <-Hp in H2.
  assert (k1 = k2) as <- by by apply (anti_symm String.le).
  apply elem_assoc in H1, H2; [|done..]. congruence.
Qed.

Fixpoint canon (v : value) : value :=
  match v with
  | VList l => VList (map canon l)
  | VMap m => VMap (sort_entries (map (λ p, (p.1, canon p.2)) m))
  | _ => v
  end.

(** Two values are the same manifest fragment. *)
Definition veq (v w : value) : Prop := canon v = canon w.

#[export] Instance veq_equiv : Equivalence veq.
Proof. unfold veq. split; [by intros ?|by intros ?? ->|by intros ??? -> ->]. Qed.

#[export] Instance veq_dec : RelDecision veq.
Proof. intros v w. exact (value_eq_dec (canon v) (canon w)). Defined.

Lemma map_canon_keys (m : gomap) : (map (λ p, (p.1, canon p.2)) m).*1 = m.*1.
Proof. induction m; simpl; by f_equal. Qed.

Lemma canon_wf v : wf v → wf (canon v).
Proof.
  induction v as [ |b|z|f|s|l IH|m IH] using value_ind'; try done; simpl.
  - rewrite !wf_list. induction IH; inversion_clear 1; constructor; auto.
  - rewrite !wf_map. intros [Hnd Hm]. split.
    + rewrite sort_entries_perm. by rewrite map_canon_keys.
    + rewrite sort_entries_perm. clear Hnd.
      induction IH; inversion_clear Hm; constructor; simpl; auto.
Qed.

(** Only the order of a map's entries is forgotten. *)
Lemma veq_map_perm (m1 m2 : gomap) : NoDup m1.*1 → m1 ≡ₚ m2 → veq (VMap m1) (VMap m2).
Proof.
  intros Hnd Hp. unfold veq; simpl. f_equal. apply sort_entries_unique.
  - by rewrite map_canon_keys.
  - by rewrite Hp.
Qed.

Lemma canon_assoc k (m : gomap) :
  NoDup m.*1 →
  assoc k (sort_entries (map (λ p, (p.1, canon p.2)) m)) = canon <$> assoc k m.
Proof.
  intros Hnd.
  rewrite (assoc_Permutation _ _ (map (λ p, (p.1, canon p.2)) m));
    [|by rewrite sort_entries_perm, map_canon_keys|apply sort_entries_perm].
  clear Hnd. induction m as [|[k' v] m IH]; simpl; [done|]. by case_decide.
Qed.

(** ** [protocol.Resource] *)

(** [protocol.ResourceMetadata]. *)
Record resource_metadata : Type := ResourceMetadata {
  md_name : string;
  md_namespace : string;
  md_labels : list (string * string);
  md_annotations : list (string * string);
  md_uid : string;
  md_created_at : string;
}.

(** [protocol.Resource]; a nil [Spec] or [Status] is [None]. *)
Record resource : Type := Resource {
  r_apiVersion : string;
  r_kind : string;
  r_metadata : resource_metadata;
  r_spec : option gomap;
  r_status : option gomap;
}.

#[export] Instance resource_metadata_eq_dec : EqDecision resource_metadata.
Proof. solve_decision. Defined.
#[export] Instance resource_eq_dec : EqDecision resource.
Proof. solve_decision. Defined.

Definition r_name (r : resource) : string := md_name (r_metadata r).
Definition r_labels (r : resource) : list (string * string) := md_labels (r_metadata r).
Definition r_annotations (r : resource) : list (string * string) := md_annotations (r_metadata r).

Definition with_spec (r : resource) (spec : option gomap) : resource :=
  Resource (r_apiVersion r) (r_kind r) (r_metadata r) spec (r_status r).
Definition with_status (r : resource) (st : option gomap) : resource :=
  Resource (r_apiVersion r) (r_kind r) (r_metadata r) (r_spec r) st.
Definition with_metadata (r : resource) (md : resource_metadata) : resource :=
  Resource (r_apiVersion r) (r_kind r) md (r_spec r) (r_status r).

(** [r.Metadata.Labels[k]] (Go yields the zero value for an absent key). *)
Definition label (k : string) (r : resource) : string := default "" (assoc k (r_labels r)).
Definition annotation (k : string) (r : resource) : string := default "" (assoc k (r_annotations r)).

(** Reading a map that may be nil. *)
Definition fields (m : option gomap) : gomap := default [] m.

(** ** JSON round trips *)

(** [json.Marshal] refuses NaN and the infinities. *)
Fixpoint json_ok (v : value) : bool :=
  match v with
  | VFloat (S754_nan | S754_infinity _) => false
  | VList l => forallb json_ok l
  | VMap m => forallb (λ p, json_ok p.2) m
  | _ => true
  end.

(** What [json.Unmarshal] into an [any] reads back from the text of a value:
    every number is a float64. *)
Fixpoint json_read (v : value) : value :=
  match v with
  | VInt z => VFloat (f64_of_Z z)
  | VList l => VList (map json_read l)
  | VMap m => VMap (map (λ p, (p.1, json_read p.2)) m)
  | _ => v
  end.

Definition json_read_map (m : gomap) : gomap := map (λ p, (p.1, json_read p.2)) m.

(** [omitempty] on a map: an empty one is left out, and reads back as nil. *)
Definition omit_empty (m : option gomap) : option gomap :=
  match m with Some (_ :: _) => m | _ => None end.

(** A resource through [json.Marshal] and [json.Unmarshal]. *)
Definition json_resource (r : resource) : option resource :=
  if json_ok (VMap (fields (r_spec r))) && json_ok (VMap (fields (r_status r)))
  then Some (with_status (with_spec r (json_read_map <$> omit_empty (r_spec r))) (json_read_map <$> omit_empty (r_status r)))
  else None.

(** Reading back a second time changes nothing. *)
Lemma json_read_idemp v : json_read (json_read v) = json_read v.
Proof.
  induction v as [ |b|z|f|s|l IH|m IH] using value_ind'; simpl; try done; f_equal.
  - induction IH; simpl; by f_equal.
  - induction IH as [|[k v] m Hv _ IHm]; simpl in *; [done|]. by rewrite Hv, IHm.
Qed.
