(* ===== verification/Float64.v ===== *)
(** Float64: rounding an integer (GoValue) gives a float64, and rounding a float64 gives
    it back. *)
From Corelib Require Import Floats.SpecFloat.
From S2P Require Import Prelude GoValue.

(** The numbers of Go's type: canonical, and in range. *)
Definition is_f64 (f : spec_float) : Prop := valid_binary f64_prec f64_emax f = true.

#[local] Open Scope Z_scope.
#[local] Abbreviation fexp := (SpecFloat.fexp f64_prec f64_emax).
#[local] Abbreviation digits p := (Z.pos (digits2_pos p)).

Lemma fexp_spec x : fexp x = Z.max (x - 53) (-1074).
Proof. done. Qed.

(** ** Digits under shifts *)

Lemma digits_shl p d : digits (Pos.iter xO p d) = digits p + Z.pos d.
Proof.
  induction d as [|d IH] using Pos.peano_ind; [simpl; lia|]. rewrite Pos.iter_succ. cbn [digits2_pos]. rewrite !Pos2Z.inj_succ, IH. lia.
Qed.
Lemma digits_succ p : digits (Pos.succ p) = digits p ∨ digits (Pos.succ p) = digits p + 1.
Proof. induction p as [p IH|p IH|]; simpl; lia. Qed.
Lemma shr_1_digits r : 0 ≤ shr_m r → 0 ≤ shr_m (shr_1 r) ∧ Zdigits2 (shr_m (shr_1 r)) = Z.max 0 (Zdigits2 (shr_m r) - 1).
Proof. destruct r as [[|[p|p|]|p] g s]; simpl; try done; lia. Qed.
Lemma shr_iter_digits n : ∀ r, 0 ≤ shr_m r →
  0 ≤ shr_m (SpecFloat.iter_pos shr_1 n r) ∧ Zdigits2 (shr_m (SpecFloat.iter_pos shr_1 n r)) = Z.max 0 (Zdigits2 (shr_m r) - Z.pos n).
Proof.
  induction n as [n IH|n IH|]; intros r Hr; cbn [SpecFloat.iter_pos].
  - destruct (shr_1_digits r Hr) as [H0 D0], (IH _ H0) as [H1 D1], (IH _ H1) as [H2 D2]. split; [done|]. rewrite D2, D1, D0. lia.
  - destruct (IH _ Hr) as [H1 D1], (IH _ H1) as [H2 D2]. split; [done|]. rewrite D2, D1. lia.
  - by apply shr_1_digits.
Qed.
Lemma shr_digits r e n : 0 ≤ shr_m r → 0 ≤ n →
  let '(r', e') := shr r e n in 0 ≤ shr_m r' ∧ Zdigits2 (shr_m r') = Z.max 0 (Zdigits2 (shr_m r) - n) ∧ e' = e + n.
Proof.
  intros Hr Hn. destruct n as [|n|n]; simpl; [|by destruct (shr_iter_digits n r Hr)|lia].
  split; [done|]. destruct (shr_m r); simpl; lia.
Qed.

(** ** Rounding *)

Lemma nearest_digits m l : 0 < m →
  0 < round_nearest_even m l ∧ (Zdigits2 (round_nearest_even m l) = Zdigits2 m ∨ Zdigits2 (round_nearest_even m l) = Zdigits2 m + 1).
Proof.
  intros Hm. destruct m as [|p|p]; [lia| |lia].
  assert (0 < Z.pos p + 1 ∧ (Zdigits2 (Z.pos p + 1) = digits p ∨ Zdigits2 (Z.pos p + 1) = digits p + 1)) as H.
  { split; [lia|]. replace (Z.pos p + 1) with (Z.pos (Pos.succ p)) by lia. apply digits_succ. }
  destruct l as [|[]]; simpl; [auto| |auto|exact H]. destruct (match p with xO _ => true | _ => false end); auto.
Qed.

Lemma round_aux_valid s m e : e ≤ fexp (digits m + e) → -1000 ≤ digits m + e →
  let f := binary_round_aux f64_prec f64_emax s (Z.pos m) e loc_Exact in is_f64 f ∧ f ≠ S754_nan.
Proof.
  intros He Hd. cbv zeta. unfold binary_round_aux, shr_fexp. cbn [Zdigits2 shr_record_of_loc]. rewrite fexp_spec in He |- *.
  pose proof (shr_digits (Build_shr_record (Z.pos m) false false) e (Z.max (digits m + e - 53) (-1074) - e)) as H1.
  destruct (shr _ _ _) as [r1 e1]. destruct H1 as (P1 & D1 & E1); [done|lia|]. cbn [shr_m Zdigits2] in *.
  assert (0 < shr_m r1) as P1' by (destruct (shr_m r1); simpl in D1; lia).
  destruct (nearest_digits (shr_m r1) (loc_of_shr_record r1) P1') as [P2 D2].
  set (n := round_nearest_even _ _) in *. rewrite fexp_spec.
  pose proof (shr_digits (Build_shr_record n false false) e1 (Z.max (Zdigits2 n + e1 - 53) (-1074) - e1)) as H3.
  destruct (shr _ _ _) as [r2 e2]. cbn [shr_m] in H3. destruct H3 as (P3 & D3 & E3); [lia..|].
  destruct (shr_m r2) as [|p|p]; [done| |lia]. simpl in D3.
  destruct (e2 <=? f64_emax - f64_prec) eqn:Hmax; [|done]. split; [|done]. unfold is_f64, valid_binary, bounded, canonical_mantissa.
  rewrite Hmax, andb_true_r, fexp_spec. apply Z.eqb_eq. lia.
Qed.

Lemma round_valid s m : is_f64 (binary_round f64_prec f64_emax s m 0) ∧ binary_round f64_prec f64_emax s m 0 ≠ S754_nan.
Proof.
  unfold binary_round, shl_align. rewrite fexp_spec, Z.add_0_r, Z.sub_0_r.
  destruct (Z.max (digits m - 53) (-1074)) as [|d|d] eqn:Hd; apply round_aux_valid; rewrite ?fexp_spec, ?digits_shl; lia.
Qed.

(** Every integer rounds to a float64, and to a number. *)
Lemma f64_of_Z_valid z : is_f64 (f64_of_Z z).
Proof. destruct z; [done|apply round_valid..]. Qed.
Lemma f64_of_Z_number z : f64_of_Z z ≠ S754_nan.
Proof. destruct z; [done|apply round_valid..]. Qed.

(** A float64 is not changed by rounding. *)
Lemma round_is_f64 s m e : is_f64 (S754_finite s m e) →
  binary_normalize f64_prec f64_emax (if s then Z.neg m else Z.pos m) e s = S754_finite s m e.
Proof.
  unfold is_f64, valid_binary, bounded, canonical_mantissa. intros [He%Z.eqb_eq Hmax]%andb_true_iff.
  assert (binary_round f64_prec f64_emax s m e = S754_finite s m e) as H; [|by destruct s].
  assert (∀ l, shr_fexp f64_prec f64_emax (Z.pos m) e l = (shr_record_of_loc (Z.pos m) l, e)) as Hs.
  { intros l. unfold shr_fexp. cbn [Zdigits2]. by rewrite He, Z.sub_diag. }
  unfold binary_round, shl_align. rewrite He, Z.sub_diag. unfold binary_round_aux.
  rewrite Hs. cbn [shr_record_of_loc shr_m loc_of_shr_record round_nearest_even]. rewrite Hs.
  cbn [shr_record_of_loc shr_m]. by rewrite Hmax.
Qed.
