(* ===== verification/Marker.v ===== *)
(** The recursive spec walk that the [refs] and [secrets] packages share: a
    value tree in which a map holding a marker key stands for a value to be
    looked up. The walk is generic in how a marker is recognised ([extract])
    and what it is replaced by ([resolve]); the two components instantiate it.

    The class [MarkerLaws] is what the walk asks of a component: recognising a
    marker does not depend on the order in which Go iterates over a map. *)
From S2P Require Import Prelude GoStrings GoValue.

(** Rebuilding a map entry by entry keeps its keys. *)
Lemma mapR_keys {E} (f : value → result E value) (m ys : gomap) :
  mapR (λ p, r ← f p.2; mret (p.1, r)) m = Ok ys → ys.*1 = m.*1.
Proof.
  intros H%mapR_Ok. induction H as [|[k v] y l l' Hxy _ IH]; csimpl; [done|].
  f_equal; [|exact IH]. simpl in Hxy. destruct (f v); [|done]. by injection Hxy as <-.
Qed.

Section marker.
Context {E R : Type}.
Context (extract : gomap → result E (option R)) (resolve : R → result E value).
Context (err_top : E).

(** [walk]: substitute every marker, stop at the first error. *)
Fixpoint walk (v : value) : result E value :=
  match v with
  | VMap x =>
      match extract x with
      | Err e => Err e
      | Ok (Some ref) => resolve ref
      | Ok None =>
          VMap <$> mapR (λ p : string * value, r ← walk p.2; mret (p.1, r)) x
      end
  | VList x => VList <$> mapR walk x
  | _ => Ok v
  end.

(** [Resolve]: [nil] stays [nil], and a marker at the top must yield a map. *)
Definition resolve_spec (spec : option gomap) : result E (option gomap) :=
  match spec with
  | None => Ok None
  | Some m =>
      match walk (VMap m) with
      | Err e => Err e
      | Ok (VMap m') => Ok (Some m')
      | Ok _ => Err err_top
      end
  end.

(** The markers of a tree in visiting order; below a well-formed marker
    nothing is visited, a malformed one is skipped. *)
Fixpoint markers (v : value) : list R :=
  match v with
  | VMap x =>
      match extract x with
      | Ok (Some ref) => [ref]
      | _ => concat (map (λ p, markers p.2) x)
      end
  | VList x => concat (map markers x)
  | _ => []
  end.

(** No malformed marker is met by the walk. *)
Fixpoint no_malformed (v : value) : bool :=
  match v with
  | VMap x =>
      match extract x with
      | Err _ => false
      | Ok (Some _) => true
      | Ok None => forallb (λ p, no_malformed p.2) x
      end
  | VList x => forallb no_malformed x
  | _ => true
  end.

Definition all_resolve (rs : list R) : bool := forallb (λ r, is_ok (resolve r)) rs.

Lemma all_resolve_concat {A} (f : A → list R) l :
  all_resolve (concat (map f l)) = forallb (λ x, all_resolve (f x)) l.
Proof.
  induction l as [|x l IH]; simpl; [done|].
  unfold all_resolve in *. by rewrite forallb_app, IH.
Qed.

Lemma is_ok_fmap {A B} (f : A → B) (r : result E A) : is_ok (f <$> r) = is_ok r.
Proof. by destruct r. Qed.

Lemma is_ok_bind_ret {A B} (f : A → B) (r : result E A) :
  is_ok (x ← r; mret (f x)) = is_ok r.
Proof. by destruct r. Qed.

Lemma forallb_and {A} (f g : A → bool) l :
  forallb (λ x, f x && g x) l = forallb f l && forallb g l.
Proof.
  induction l as [|x l IH]; simpl; [done|]. rewrite IH.
  by destruct (f x), (g x); simpl; rewrite ?andb_false_r.
Qed.

Lemma forallb_ext_Forall {A} (f g : A → bool) l :
  Forall (λ x, f x = g x) l → forallb f l = forallb g l.
Proof. induction 1 as [|x l Hx _ IH]; simpl; [done|]. by rewrite Hx, IH. Qed.

(** The walk succeeds exactly when no marker is malformed and every marker
    resolves. *)
Lemma walk_is_ok v : is_ok (walk v) = no_malformed v && all_resolve (markers v).
Proof.
  induction v as [ |b|z|f|s|l IH|m IH] using value_ind'; simpl; try done.
  - rewrite is_ok_fmap, mapR_is_ok, all_resolve_concat, <-forallb_and.
    by apply forallb_ext_Forall.
  - destruct (extract m) as [[ref|]|e]; simpl; [by destruct (resolve ref)| |done].
    rewrite is_ok_fmap, mapR_is_ok, all_resolve_concat, <-forallb_and.
    apply forallb_ext_Forall. eapply Forall_impl; [exact IH|].
    intros [k v] <-; simpl. by rewrite is_ok_bind_ret.
Qed.

(** An error is that of a malformed marker or of looking one up. *)
Lemma walk_error v e : walk v = Err e → (∃ x, extract x = Err e) ∨ ∃ r, r ∈ markers v ∧ resolve r = Err e.
Proof.
  induction v as [ |b|z|f|s|l IH|m IH] using value_ind'; simpl; try done; rewrite Forall_forall in IH.
  - destruct (mapR walk l) as [ys|e'] eqn:Hm; [done|]. intros [= ->]. apply mapR_Err in Hm as (x & Hx & Hw).
    destruct (IH x Hx Hw) as [?|(r & Hr & ?)]; [by left|]. right. exists r. split; [|done]. apply list_elem_of_In, in_concat.
    exists (markers x). split; [apply in_map|]; by apply list_elem_of_In.
  - destruct (extract m) as [[ref|]|e'] eqn:Hx; [|clear Hx|].
    + intros Hr. right. exists ref. split; [left|done].
    + match goal with |- VMap <$> ?r = _ → _ => destruct r as [ys|e'] eqn:Hm; [done|] end. intros [= ->].
      apply mapR_Err in Hm as ([k x] & Hx & Hw). simpl in Hw. destruct (walk x) as [y|e'] eqn:Hwx; [done|]. injection Hw as ->.
      destruct (IH (k, x) Hx Hwx) as [?|(r & Hr & ?)]; [by left|]. right. exists r. split; [|done]. apply list_elem_of_In, in_concat.
      exists (markers x). split; [apply (in_map (λ p, markers p.2) _ (k, x))|]; by apply list_elem_of_In.
    + intros [= ->]. left. by exists m.
Qed.

Lemma resolve_spec_is_ok m :
  extract m = Ok None →
  is_ok (resolve_spec (Some m)) = no_malformed (VMap m) && all_resolve (markers (VMap m)).
Proof.
  intros Hm. rewrite <-(walk_is_ok (VMap m)). unfold resolve_spec. simpl. rewrite Hm.
  by destruct (mapR _ m).
Qed.

(** A tree without markers is returned unchanged. *)
Lemma walk_id v : no_malformed v = true → markers v = [] → walk v = Ok v.
Proof.
  induction v as [ |b|z|f|s|l IH|m IH] using value_ind'; simpl; try done.
  - rewrite forallb_Forall_true. intros Hw Hn.
    rewrite mapR_id; [done|]. clear -IH Hw Hn.
    induction IH as [|x l Hx _ IHl]; simpl in *; constructor.
    + inversion_clear Hw. apply app_eq_nil in Hn as [? _]. auto.
    + inversion_clear Hw. apply app_eq_nil in Hn as [_ ?]. auto.
  - destruct (extract m) as [[ref|]|e]; simpl; [done| |done].
    rewrite forallb_Forall_true. intros Hw Hn.
    rewrite mapR_id; [done|]. clear -IH Hw Hn.
    induction IH as [|[k v] l Hx _ IHl]; simpl in *; constructor.
    + inversion_clear Hw. apply app_eq_nil in Hn as [? _]. simpl; rewrite Hx; auto.
    + inversion_clear Hw. apply app_eq_nil in Hn as [_ ?]. auto.
Qed.
End marker.

(** What the walk asks of a marker component. *)
Class MarkerLaws {E R} (extract : gomap → result E (option R)) : Prop := {
  extract_canon m :
    wf (VMap m) →
    extract (sort_entries (map (λ p, (p.1, canon p.2)) m)) = extract m;
}.

Section marker_order.
Context {E R : Type} (extract : gomap → result E (option R)) `{!MarkerLaws extract}.
Context (resolve : R → result E value) (err_top : E).

Abbreviation walk := (walk extract resolve).
Abbreviation markers := (markers extract).

Lemma concat_map_perm {A B} (f : A → list B) l1 l2 :
  l1 ≡ₚ l2 → concat (map f l1) ≡ₚ concat (map f l2).
Proof.
  induction 1 as [|x l1 l2 _ IH|x y l|l1 l2 l3 _ IH1 _ IH2]; simpl.
  - done.
  - by rewrite IH.
  - by rewrite !(assoc_L (++)), (comm (++) (f y)).
  - by etrans.
Qed.

Lemma concat_map_canon {A B} (f : A → list B) g l :
  Forall (λ x, f (g x) ≡ₚ f x) l → concat (map f (map g l)) ≡ₚ concat (map f l).
Proof. induction 1 as [|x l Hx _ IH]; simpl; [done|]. by rewrite Hx, IH. Qed.

Lemma markers_canon v : wf v → markers (canon v) ≡ₚ markers v.
Proof.
  induction v as [ |b|z|f|s|l IH|m IH] using value_ind'; simpl; try done.
  - intros Hl%wf_list. apply concat_map_canon.
    induction IH; inversion_clear Hl; constructor; auto.
  - intros Hwf. rewrite extract_canon by done.
    apply wf_map in Hwf as [_ Hm].
    assert (concat (map (λ p, markers p.2) (sort_entries (map (λ p, (p.1, canon p.2)) m)))
            ≡ₚ concat (map (λ p, markers p.2) m)) as Hp.
    { rewrite concat_map_perm by apply sort_entries_perm.
      apply concat_map_canon. induction IH; inversion_clear Hm; constructor; simpl; auto. }
    by destruct (extract m) as [[ref|]|e].
Qed.

(** Equal manifests hold the same markers. *)
Lemma markers_veq v w : wf v → wf w → veq v w → markers v ≡ₚ markers w.
Proof.
  intros Hv Hw Heq. rewrite <-(markers_canon v), <-(markers_canon w) by done.
  by rewrite Heq.
Qed.

(** Two runs agree: both fail, or both succeed with equal values. *)
Definition same_with {A B} (Q : A → B → Prop) (r1 : result E A) (r2 : result E B) : Prop :=
  match r1, r2 with
  | Ok v, Ok w => Q v w
  | Err _, Err _ => True
  | _, _ => False
  end.
Abbreviation same_result := (same_with veq).

Lemma mapR_perm {A B} (f : A → result E B) l1 l2 :
  l1 ≡ₚ l2 → same_with (≡ₚ) (mapR f l1) (mapR f l2).
Proof.
  unfold same_with. induction 1 as [|x l1 l2 _ IH|x y l|l1 l2 l3 _ IH1 _ IH2]; simpl.
  - done.
  - destruct (f x); [|done]. destruct (mapR f l1), (mapR f l2); try done. by rewrite IH.
  - destruct (f x), (f y), (mapR f l); try done. apply perm_swap.
  - destruct (mapR f l1), (mapR f l2), (mapR f l3); try done. by etrans.
Qed.

Lemma same_result_refl r : same_result r r.
Proof. by destruct r; simpl. Qed.

Lemma mapR_same {A B} (f g : A → result E B) (Q : B → B → Prop) l :
  Forall (λ x, same_with Q (f x) (g x)) l →
  same_with (Forall2 Q) (mapR f l) (mapR g l).
Proof.
  unfold same_with. induction 1 as [|x l Hx _ IH]; simpl; [constructor|].
  destruct (f x), (g x); try done.
  destruct (mapR f l), (mapR g l); try done. by constructor.
Qed.

Lemma mapR_map {A B C} (h : A → B) (f : B → result E C) l :
  mapR f (map h l) = mapR (λ x, f (h x)) l.
Proof. induction l as [|x l IH]; simpl; [done|]. by rewrite IH. Qed.

(** Entries produced from the entries of a Go map, in some order. *)
Lemma canon_entries ys ys' (zs : gomap) :
  NoDup zs.*1 → ys ≡ₚ ys' →
  Forall2 (λ p q : string * value, p.1 = q.1 ∧ veq p.2 q.2) ys' zs →
  veq (VMap ys) (VMap zs).
Proof.
  intros Hnd Hp Hf. unfold veq; simpl. f_equal.
  assert (map (λ p, (p.1, canon p.2)) ys' = map (λ p, (p.1, canon p.2)) zs) as Heq.
  { clear Hnd Hp. induction Hf as [|[] [] ?? [? Hv] ? IH]; simpl in *; [done|].
    rewrite IH. unfold veq in Hv. congruence. }
  symmetry. apply sort_entries_unique; [by rewrite map_canon_keys|].
  by rewrite <-Heq, Hp.
Qed.


Lemma walk_canon v : wf v → same_result (walk (canon v)) (walk v).
Proof.
  induction v as [ |b|z|f|s|l IH|m IH] using value_ind'; simpl; try done.
  - intros Hl%wf_list. rewrite mapR_map.
    assert (Forall (λ x, same_with veq (walk (canon x)) (walk x)) l) as Hs.
    { induction IH; inversion_clear Hl; constructor; by auto. }
    apply mapR_same in Hs. destruct (mapR (λ x, walk (canon x)) l), (mapR walk l); simpl; try done.
    unfold veq; simpl. f_equal. clear -Hs. induction Hs; simpl; by f_equal.
  - intros Hwf. rewrite extract_canon by done.
    destruct (extract m) as [[ref|]|e]; [apply same_result_refl| |done].
    apply wf_map in Hwf as [Hnd Hm].
    set (F := λ p : string * value, r ← walk p.2; mret (p.1, r)).
    pose proof (mapR_perm F _ _ (sort_entries_perm (map (λ p, (p.1, canon p.2)) m))) as Hp.
    rewrite mapR_map in Hp.
    assert (Forall (λ p, same_with (λ p q, p.1 = q.1 ∧ veq p.2 q.2) (F (p.1, canon p.2)) (F p)) m)
      as Hs.
    { clear Hp Hnd. induction IH as [|[k v] l Hv _ IHl]; inversion_clear Hm; constructor; [|auto].
      unfold F. simpl in *.
      assert (same_result (walk (canon v)) (walk v)) as Hs by auto.
      destruct (walk (canon v)), (walk v); simpl in *; done. }
    apply mapR_same in Hs.
    destruct (mapR F (sort_entries _)), (mapR (λ p, F (p.1, canon p.2)) m);
      try done; destruct (mapR F m) as [zs|] eqn:Hzs; simpl; try done.
    eapply canon_entries; [|exact Hp|exact Hs].
    rewrite (mapR_keys walk m zs Hzs). done.
Qed.

(** Equal manifests are resolved alike. *)
Lemma walk_veq v w : wf v → wf w → veq v w → same_result (walk v) (walk w).
Proof.
  intros Hv Hw Heq.
  pose proof (walk_canon v Hv) as H1. pose proof (walk_canon w Hw) as H2.
  rewrite Heq in H1.
  destruct (walk v), (walk w), (walk (canon w)); simpl in *; try done.
  unfold veq in *. congruence.
Qed.

(** Field lookups of a map do not depend on the iteration order. *)
Lemma assoc_canon_marker k (m : gomap) :
  wf (VMap m) →
  assoc k (sort_entries (map (λ p, (p.1, canon p.2)) m)) = canon <$> assoc k m.
Proof. intros [Hnd _]%wf_map. by apply canon_assoc. Qed.
End marker_order.

Lemma as_str_canon v : as_str (canon <$> v) = as_str v.
Proof. by destruct v as [[]|]. Qed.

Lemma str_field_canon k (m : gomap) :
  wf (VMap m) →
  str_field k (sort_entries (map (λ p, (p.1, canon p.2)) m)) = str_field k m.
Proof. intros [Hnd _]%wf_map. unfold str_field. by rewrite canon_assoc, as_str_canon. Qed.
