(* ===== verification/Refs.v ===== *)
(** [ResourceRef]s: src/internal/controller/refs/refs.go. A map with the key
    [$ref] names another resource and optionally a dotted path into its spec or
    status; [Resolve] substitutes it before Apply, [Collect] lists the refs of a
    spec for the graph endpoints and the cross-operation scheduler. *)
From S2P Require Import Prelude GoStrings GoValue Marker.

Definition RefMarker : string := "$ref".

Record Ref : Type := MkRef {
  APIVersion : string;
  Kind : string;
  Name : string;
  Field : string;
}.

#[export] Instance Ref_eq_dec : EqDecision Ref.
Proof. solve_decision. Defined.

Inductive path_error : Type :=
| ErrNoStatus
| ErrNoSpec
| ErrBadRoot (root : string)
| ErrNotTraversable (seg : string)
| ErrMissing (seg : string).

(** The error returns of [Resolve]; [G] is the error type of the getter. *)
Inductive ref_error (G : Type) : Type :=
| ErrMarkerNotObject
| ErrRefRequired (r : Ref)
| ErrNoGetter
| ErrGet (r : Ref) (e : G)
| ErrField (r : Ref) (e : path_error)
| ErrTopNotMap.
Arguments ErrMarkerNotObject {G}.
Arguments ErrRefRequired {G} r.
Arguments ErrNoGetter {G}.
Arguments ErrGet {G} r e.
Arguments ErrField {G} r e.
Arguments ErrTopNotMap {G}.

(** [extractRef]: [Ok None] is "not a ref", an error is a malformed one. *)
Definition extractRef {G} (m : gomap) : result (ref_error G) (option Ref) :=
  match assoc RefMarker m with
  | None => Ok None
  | Some (VMap obj) =>
      let ref := MkRef (str_field "apiVersion" obj) (str_field "kind" obj)
                       (str_field "name" obj) (str_field "field" obj) in
      if decide (APIVersion ref = "" ∨ Kind ref = "" ∨ Name ref = "")
      then Err (ErrRefRequired ref) else Ok (Some ref)
  | Some _ => Err ErrMarkerNotObject
  end.

(** The loop of [walkPath] over the segments after the root. *)
Fixpoint walkSegs (current : value) (segs : list string) : result path_error value :=
  match segs with
  | [] => Ok current
  | seg :: segs' =>
      match current with
      | VMap obj =>
          match assoc seg obj with
          | Some v => walkSegs v segs'
          | None => Err (ErrMissing seg)
          end
      | _ => Err (ErrNotTraversable seg)
      end
  end.

Definition dot : Ascii.ascii := Ascii.Ascii false true true true false true false false.

Definition walkPath (r : resource) (path : string) : result path_error value :=
  match split_on dot path with
  | [] => Err (ErrBadRoot "")
  | root :: segs =>
      if decide (root = "status") then
        match r_status r with
        | None => Err ErrNoStatus
        | Some m => walkSegs (VMap m) segs
        end
      else if decide (root = "spec") then
        match r_spec r with
        | None => Err ErrNoSpec
        | Some m => walkSegs (VMap m) segs
        end
      else Err (ErrBadRoot root)
  end.

(** The whole-resource substitution of [resolveRef]. A missing spec or status is a nil map
    of Go, which is read as an empty one, but written by JSON as null. *)
Definition whole_resource (r : resource) : value :=
  VMap [("apiVersion", VStr (r_apiVersion r));
        ("kind", VStr (r_kind r));
        ("metadata", VMap [("name", VStr (r_name r))]);
        ("spec", VMap (fields (r_spec r)));
        ("status", VMap (fields (r_status r)))].

(** The comparison [Collect] sorts by: kind, name, field, apiVersion. *)
Definition ref_compare (a b : Ref) : comparison :=
  match String.compare (Kind a) (Kind b) with
  | Eq =>
      match String.compare (Name a) (Name b) with
      | Eq =>
          match String.compare (Field a) (Field b) with
          | Eq => String.compare (APIVersion a) (APIVersion b)
          | c => c
          end
      | c => c
      end
  | c => c
  end.

Section refs.
(** [Getter.Get], or [None] for a resolver built with a nil getter. *)
Context {G : Type} (get : option (string → string → string → result G resource)).

Definition resolveRef (ref : Ref) : result (ref_error G) value :=
  match get with
  | None => Err ErrNoGetter
  | Some g =>
      match g (APIVersion ref) (Kind ref) (Name ref) with
      | Err e => Err (ErrGet ref e)
      | Ok r =>
          if decide (Field ref = "") then Ok (whole_resource r)
          else map_err (ErrField ref) (walkPath r (Field ref))
      end
  end.

Definition walk_refs : value → result (ref_error G) value := walk extractRef resolveRef.

Definition Resolve (spec : option gomap) : result (ref_error G) (option gomap) :=
  resolve_spec extractRef resolveRef ErrTopNotMap spec.
End refs.

(** [Collect]; the error type of [extractRef] plays no role. *)
Definition Collect (spec : option gomap) : list Ref :=
  match spec with
  | None => []
  | Some m => sort_func ref_compare (markers (extractRef (G := unit)) (VMap m))
  end.

(** ** Laws *)

Definition ref_key (r : Ref) : string * (string * (string * string)) :=
  (Kind r, (Name r, (Field r, APIVersion r))).

#[export] Instance ref_key_inj : Inj (=) (=) ref_key.
Proof. intros [] [] [= -> -> -> ->]. done. Qed.

#[export] Instance ref_compare_good : GoodCompare ref_compare.
Proof.
  pose proof (key_compare_good ref_key
    (pair_compare String.compare
      (pair_compare String.compare (pair_compare String.compare String.compare))) _) as H.
  assert (∀ a b, ref_compare a b = pair_compare String.compare
      (pair_compare String.compare (pair_compare String.compare String.compare))
      (ref_key a) (ref_key b)) as Heq.
  { intros a b. unfold ref_compare, pair_compare, cmp_then; simpl. by repeat case_match. }
  split; intros *; rewrite !Heq; apply H.
Qed.

#[export] Instance extractRef_laws {G} : MarkerLaws (extractRef (G := G)).
Proof.
  split. intros m Hwf. unfold extractRef.
  rewrite assoc_canon_marker by done.
  destruct (assoc RefMarker m) as [[]|] eqn:Hm; simpl; try done.
  pose proof (wf_assoc _ _ _ Hwf Hm) as Hobj. by rewrite !str_field_canon.
Qed.

Lemma markers_error_type {G} v : markers (extractRef (G := G)) v = markers (extractRef (G := unit)) v.
Proof.
  induction v as [ |b|z|f|s|l IH|m IH] using value_ind'; simpl; try done.
  - f_equal. induction IH as [|x l Hx _ IHl]; simpl; [done|]. by rewrite Hx, IHl.
  - assert (map (λ p, markers (extractRef (G := G)) p.2) m
      = map (λ p, markers (extractRef (G := unit)) p.2) m) as Heq.
    { induction IH as [|x l Hx _ IHl]; simpl; [done|]. by rewrite Hx, IHl. }
    rewrite Heq. unfold extractRef. destruct (assoc RefMarker m) as [[]|]; try done.
    by case_decide.
Qed.

Lemma elem_of_Collect {G} r m :
  r ∈ Collect (Some m) ↔ r ∈ markers (extractRef (G := G)) (VMap m).
Proof. unfold Collect. rewrite sort_func_perm. by rewrite <-(markers_error_type (G := G)). Qed.

Lemma Collect_nil {G} m : Collect (Some m) = [] → markers (extractRef (G := G)) (VMap m) = [].
Proof.
  unfold Collect. rewrite (markers_error_type (G := G)). intros H.
  pose proof (sort_func_perm ref_compare (markers (extractRef (G := unit)) (VMap m))) as Hp.
  rewrite H in Hp. by apply Permutation_nil.
Qed.

(** No [$ref] of the spec is malformed. *)
Definition refs_well_formed (m : gomap) : bool :=
  no_malformed (extractRef (G := unit)) (VMap m).

Lemma no_malformed_error_type {G} v :
  no_malformed (extractRef (G := G)) v = no_malformed (extractRef (G := unit)) v.
Proof.
  induction v as [ |b|z|f|s|l IH|m IH] using value_ind'; simpl; try done.
  - by apply forallb_ext_Forall.
  - assert (forallb (λ p, no_malformed (extractRef (G := G)) p.2) m
      = forallb (λ p, no_malformed (extractRef (G := unit)) p.2) m) as Heq
      by by apply forallb_ext_Forall.
    rewrite Heq. unfold extractRef. destruct (assoc RefMarker m) as [[]|]; try done.
    by case_decide.
Qed.

(** Following a path: [path_at v segs w] says that [w] is found below [v]. *)
Inductive path_at : value → list string → value → Prop :=
| path_here v : path_at v [] v
| path_below m k v segs w :
    assoc k m = Some v → path_at v segs w → path_at (VMap m) (k :: segs) w.

Lemma walkSegs_path v segs w : walkSegs v segs = Ok w ↔ path_at v segs w.
Proof.
  split.
  - revert v; induction segs as [|k segs IH]; intros v; simpl; [intros [= ->]; constructor|].
    destruct v; try done. destruct (assoc k m) as [v'|] eqn:Hk; [|done].
    intros H. econstructor; [done|by apply IH].
  - induction 1 as [v|m k v segs w Hk _ IH]; simpl; [done|]. by rewrite Hk.
Qed.

Lemma extractRef_None {G} m : assoc RefMarker m = None → extractRef (G := G) m = Ok None.
Proof. unfold extractRef. by intros ->. Qed.

Lemma resolve_spec_veq {E R} (extract : gomap → result E (option R)) `{!MarkerLaws extract}
    resolve err_top m1 m2 :
  wf (VMap m1) → wf (VMap m2) → veq (VMap m1) (VMap m2) →
  same_with (λ a b, veq (VMap (fields a)) (VMap (fields b)))
    (resolve_spec extract resolve err_top (Some m1))
    (resolve_spec extract resolve err_top (Some m2)).
Proof.
  intros H1 H2 Heq. pose proof (walk_veq extract resolve _ _ H1 H2 Heq) as Hs.
  unfold resolve_spec.
  destruct (walk extract resolve (VMap m1)) as [a|],
    (walk extract resolve (VMap m2)) as [b|]; simpl in Hs; try done.
  destruct a, b; simpl; try done; unfold veq in Hs; simpl in Hs; congruence.
Qed.

(** ** Properties *)

(** C21: Resolving a spec (that is no ref itself) succeeds exactly when no [$ref] in it is malformed and
    every ref that [Collect] reports resolves by itself; so the graph view of
    the refs (best effort, no getter) and the Apply path agree on what a
    manifest depends on, and a missing target is never silently dropped. *)
Theorem Resolve_ok_iff {G} (get : option (string → string → string → result G resource)) m :
  assoc RefMarker m = None →
  is_ok (Resolve get (Some m)) = true ↔
  refs_well_formed m = true ∧
  ∀ ref, ref ∈ Collect (Some m) → is_ok (resolveRef get ref) = true.
Proof.
  intros Hm. unfold Resolve. rewrite resolve_spec_is_ok by by apply extractRef_None.
  rewrite andb_true_iff, no_malformed_error_type.
  unfold all_resolve. rewrite forallb_Forall_true, Forall_forall.
  setoid_rewrite (elem_of_Collect (G := G)). done.
Qed.

Definition example_getter : option (string → string → string → result string resource) :=
  Some (λ api kind name,
    if decide (kind = "K3sNode" ∧ name = "cp-0") then
      Ok (Resource api kind (ResourceMetadata name "" [] [] "" "") None
            (Some [("nodeToken", VStr "K10"); ("ip", VMap [("v4", VStr "10.0.0.2")])]))
    else Err "not found").

Definition example_ref (field : string) : value :=
  VMap [(RefMarker, VMap [("apiVersion", VStr "k3s.openctl.io/v1"); ("kind", VStr "K3sNode");
                          ("name", VStr "cp-0"); ("field", VStr field)])].

Definition example_spec : gomap :=
  [("role", VStr "worker"); ("join", VMap [("token", example_ref "status.nodeToken")]);
   ("hosts", VList [example_ref "status.ip.v4"; VInt 3])].

Lemma Resolve_ok_iff_witness :
  assoc RefMarker example_spec = None ∧
  (refs_well_formed example_spec = true ∧
   ∀ ref, ref ∈ Collect (Some example_spec) → is_ok (resolveRef example_getter ref) = true) ∧
  Resolve example_getter (Some example_spec) =
    Ok (Some [("role", VStr "worker"); ("join", VMap [("token", VStr "K10")]);
              ("hosts", VList [VStr "10.0.0.2"; VInt 3])]).
Proof.
  split; [reflexivity|]. split; [|vm_compute; reflexivity].
  apply (Resolve_ok_iff example_getter example_spec eq_refl). vm_compute. reflexivity.
Defined.

(** Neither the resolved manifest nor the collected refs depend on the
    order in which Go iterates over the spec's maps: for two presentations of
    the same manifest both resolutions fail or both succeed with the same
    manifest, and [Collect] returns the same slice. *)
Theorem Resolve_order_independent {G}
    (get : option (string → string → string → result G resource)) m1 m2 :
  wf (VMap m1) → wf (VMap m2) → veq (VMap m1) (VMap m2) →
  same_with (λ a b, veq (VMap (fields a)) (VMap (fields b)))
    (Resolve get (Some m1)) (Resolve get (Some m2)) ∧
  Collect (Some m1) = Collect (Some m2).
Proof.
  intros H1 H2 Heq. split.
  - by apply (resolve_spec_veq extractRef).
  - apply (sort_func_proper ref_compare). apply (markers_veq (extractRef (G := unit)) _ _ H1 H2 Heq).
Qed.

Definition example_spec' : gomap :=
  [("hosts", VList [example_ref "status.ip.v4"; VInt 3]); ("role", VStr "worker");
   ("join", VMap [("token", example_ref "status.nodeToken")])].

Lemma Resolve_order_independent_witness :
  example_spec ≠ example_spec' ∧
  Collect (Some example_spec) = Collect (Some example_spec') ∧
  length (Collect (Some example_spec)) = 2.
Proof.
  split; [by vm_compute|]. split; [|vm_compute; reflexivity].
  apply (Resolve_order_independent example_getter example_spec example_spec');
    [vm_compute; reflexivity..].
Defined.

(** A ref's dotted field yields a value exactly when its first segment
    names the target's status or spec, that part is present, and the value is
    reached from it by following the remaining segments through maps. *)
Theorem walkPath_spec r path v :
  walkPath r path = Ok v ↔
  ∃ root segs m,
    split_on dot path = root :: segs ∧
    (root = "status" ∧ r_status r = Some m ∨ root = "spec" ∧ r_spec r = Some m) ∧
    path_at (VMap m) segs v.
Proof.
  unfold walkPath. setoid_rewrite <-walkSegs_path. split.
  - destruct (split_on dot path) as [|root segs]; [intros [=]|].
    intros H. exists root, segs.
    destruct (decide (root = "status")) as [->|_].
    { destruct (r_status r) as [m|]; [|done]. exists m. eauto. }
    destruct (decide (root = "spec")) as [->|_]; [|done].
    destruct (r_spec r) as [m|]; [|done]. exists m. eauto.
  - intros (root & segs & m & -> & [[-> ->]|[-> ->]] & H); simpl; by rewrite H.
Qed.

(** A spec that holds no [$ref] is applied as it is written. *)
Lemma Resolve_ref_free {G} (get : option (string → string → string → result G resource)) m :
  refs_well_formed m = true → Collect (Some m) = [] → Resolve get (Some m) = Ok (Some m).
Proof.
  intros Hw Hc. unfold Resolve, resolve_spec. rewrite walk_id; [done| |].
  - by rewrite no_malformed_error_type.
  - by apply Collect_nil.
Qed.
