(* ===== verification/Secrets.v ===== *)
(** [$secret] markers: src/internal/controller/secrets/ (secrets.go, builtin.go,
    action.go, and the response decoding of vault.go). Markers are resolved into
    a transient copy of the spec just before Apply. *)
From S2P Require Import Prelude GoStrings GoPath GoValue Marker.

Definition SecretMarker : string := "$secret".
Definition builtinFileProvider : string := "file".
Definition builtinEnvProvider : string := "env".

Record SecretRef : Type := MkSecretRef { Provider : string; Key : string }.

#[export] Instance SecretRef_eq_dec : EqDecision SecretRef.
Proof. solve_decision. Defined.

Inductive secret_error (G : Type) : Type :=
| ErrSecretNotObject
| ErrSecretShape
| ErrNoRegistry
| ErrUnknownProvider (name : string)
| ErrProvider (r : SecretRef) (e : G)
| ErrSecretTopNotMap.
Arguments ErrSecretNotObject {G}.
Arguments ErrSecretShape {G}.
Arguments ErrNoRegistry {G}.
Arguments ErrUnknownProvider {G} name.
Arguments ErrProvider {G} r e.
Arguments ErrSecretTopNotMap {G}.

(** [stringField] *)
Definition stringField (obj : gomap) (key : string) : option string :=
  match as_str (assoc key obj) with
  | Some v => if decide (v = "") then None else Some v
  | None => None
  end.

(** [extractSecret]: canonical form, or the [file]/[env] sugar. *)
Definition extractSecret {G} (m : gomap) : result (secret_error G) (option SecretRef) :=
  match assoc SecretMarker m with
  | None => Ok None
  | Some (VMap obj) =>
      match stringField obj builtinFileProvider with
      | Some v => Ok (Some (MkSecretRef builtinFileProvider v))
      | None =>
          match stringField obj builtinEnvProvider with
          | Some v => Ok (Some (MkSecretRef builtinEnvProvider v))
          | None =>
              let ref := MkSecretRef (str_field "provider" obj) (str_field "key" obj) in
              if decide (Provider ref = "" ∨ Key ref = "")
              then Err ErrSecretShape else Ok (Some ref)
          end
      end
  | Some _ => Err ErrSecretNotObject
  end.

(** [HasSecrets]: the marker key anywhere, well formed or not. *)
Fixpoint has_secrets (v : value) : bool :=
  match v with
  | VMap x => bool_decide (is_Some (assoc SecretMarker x)) || existsb (λ p, has_secrets p.2) x
  | VList x => existsb has_secrets x
  | _ => false
  end.

Definition HasSecrets (spec : option gomap) : bool := has_secrets (VMap (fields spec)).

Section secrets.
Context {G : Type}.

(** [SecretProvider], and the [Registry] of providers by name. *)
Record SecretProvider : Type := MkSecretProvider {
  sp_name : string;
  sp_resolve : string → result G string;
}.
Definition Registry : Type := gmap string SecretProvider.

Definition Register (p : SecretProvider) (reg : Registry) : Registry := <[sp_name p := p]> reg.
Definition lookup_provider (reg : Registry) (name : string) : option SecretProvider := reg !! name.

(** A resolver is built with a registry, possibly nil. *)
Context (reg : option Registry).

Definition resolveSecret (ref : SecretRef) : result (secret_error G) value :=
  match reg with
  | None => Err ErrNoRegistry
  | Some rg =>
      match lookup_provider rg (Provider ref) with
      | None => Err (ErrUnknownProvider (Provider ref))
      | Some p => VStr <$> map_err (ErrProvider ref) (sp_resolve p (Key ref))
      end
  end.

Definition walk_secrets : value → result (secret_error G) value := walk extractSecret resolveSecret.

Definition ResolveSecrets (spec : option gomap) : result (secret_error G) (option gomap) :=
  resolve_spec extractSecret resolveSecret ErrSecretTopNotMap spec.
End secrets.
Arguments SecretProvider : clear implicits.
Arguments Registry : clear implicits.

(** ** Built-in providers *)

Inductive builtin_error : Type :=
| ErrEmptyKey
| ErrAbsKey
| ErrEscapes
| ErrNotFound
| ErrRead
| ErrEnvUnset.

Definition newline : Ascii.ascii := Ascii.Ascii false true false true false false false false.

Inductive file_read : Type := FileContents (s : string) | FileMissing | FileError.

Section file_provider.
(** [os.ReadFile] and the process environment. *)
Context (read_file : string → file_read) (env : string → option string).

(** The file [FileProvider.Resolve] reads for a key. *)
Definition file_path (root key : string) : result builtin_error string :=
  if decide (key = "") then Err ErrEmptyKey
  else if is_abs key then Err ErrAbsKey
  else
    let clean := Clean (Join [root; key]) in
    let rootClean := Clean root in
    if decide (clean = rootClean) then Ok clean
    else if has_prefix (rootClean +:+ "/") clean then Ok clean else Err ErrEscapes.

Definition FileProvider_Resolve (root key : string) : result builtin_error string :=
  match file_path root key with
  | Err e => Err e
  | Ok clean =>
      match read_file clean with
      | FileContents b => Ok (trim_right newline b)
      | FileMissing => Err ErrNotFound
      | FileError => Err ErrRead
      end
  end.

Definition EnvProvider_Resolve (key : string) : result builtin_error string :=
  if decide (key = "") then Err ErrEmptyKey
  else match env key with None => Err ErrEnvUnset | Some v => Ok v end.

Definition FileProvider (root : string) : SecretProvider builtin_error :=
  MkSecretProvider builtinFileProvider (FileProvider_Resolve root).
Definition EnvProvider : SecretProvider builtin_error :=
  MkSecretProvider builtinEnvProvider EnvProvider_Resolve.

Definition RegisterBuiltins (secretsDir : string) (reg : Registry builtin_error) :
    Registry builtin_error :=
  Register EnvProvider (Register (FileProvider secretsDir) reg).
End file_provider.

(** ** Action outputs as secrets *)

Definition ActionProviderName : string := "action".

Record ActionOutput : Type := MkActionOutput {
  DownloadContent : string; Message : string; URL : string }.

Inductive action_error (G : Type) : Type :=
| ErrNoHash
| ErrRefSegments
| ErrNoAction
| ErrNotWired
| ErrInvoke (e : G)
| ErrNoResult
| ErrUnknownField (f : string)
| ErrEmptyField (f : string).
Arguments ErrNoHash {G}.
Arguments ErrRefSegments {G}.
Arguments ErrNoAction {G}.
Arguments ErrNotWired {G}.
Arguments ErrInvoke {G} e.
Arguments ErrNoResult {G}.
Arguments ErrUnknownField {G} f.
Arguments ErrEmptyField {G} f.

Definition hash_byte : Ascii.ascii := Ascii.Ascii true true false false false true false false.
Definition colon : Ascii.ascii := Ascii.Ascii false true false true true true false false.

Record action_key : Type := ActionKey {
  ak_apiVersion : string; ak_kind : string; ak_name : string;
  ak_action : string; ak_field : string }.

(** [parseActionKey] *)
Definition parseActionKey {G} (key : string) : result (action_error G) action_key :=
  match cut_byte hash_byte key with
  | None => Err ErrNoHash
  | Some (ref, actionPart) =>
      match split_on slash ref with
      | [s0; s1; s2; s3] =>
          if decide (s0 = "" ∨ s1 = "" ∨ s2 = "" ∨ s3 = "") then Err ErrRefSegments
          else
            let '(action, field) := default (actionPart, "") (cut_byte colon actionPart) in
            if decide (action = "") then Err ErrNoAction
            else Ok (ActionKey (s0 +:+ "/" +:+ s1) s2 s3 action field)
      | _ => Err ErrRefSegments
      end
  end.

Definition fieldOrDefault (field : string) : string :=
  if decide (field = "") then "download" else field.

Section action_provider.
Context {G : Type}.
(** [ActionInvoker]; [Ok None] is a nil result without an error. *)
Context (invoke : option (string → string → string → string → result G (option ActionOutput))).

Definition ActionProvider_Resolve (key : string) : result (action_error G) string :=
  k ← parseActionKey key;
  match invoke with
  | None => Err ErrNotWired
  | Some f =>
      match f (ak_apiVersion k) (ak_kind k) (ak_name k) (ak_action k) with
      | Err e => Err (ErrInvoke e)
      | Ok None => Err ErrNoResult
      | Ok (Some out) =>
          let field := ak_field k in
          let val :=
            if decide (field = "" ∨ field = "download") then Some (DownloadContent out)
            else if decide (field = "message") then Some (Message out)
            else if decide (field = "url") then Some (URL out)
            else None in
          match val with
          | None => Err (ErrUnknownField field)
          | Some v => if decide (v = "") then Err (ErrEmptyField (fieldOrDefault field)) else Ok v
          end
      end
  end.
End action_provider.

(** ** Laws *)

#[export] Instance extractSecret_laws {G} : MarkerLaws (extractSecret (G := G)).
Proof.
  split. intros m Hwf. unfold extractSecret.
  rewrite assoc_canon_marker by done.
  destruct (assoc SecretMarker m) as [[ | | | | | |obj]|] eqn:Hm; simpl; try done.
  pose proof (wf_assoc _ _ _ Hwf Hm) as Hobj. unfold stringField.
  rewrite !canon_assoc, !as_str_canon by by apply wf_map in Hobj as [].
  by rewrite !str_field_canon.
Qed.

Lemma extractSecret_None {G} m :
  extractSecret (G := G) m = Ok None ↔ assoc SecretMarker m = None.
Proof.
  unfold extractSecret. destruct (assoc SecretMarker m) as [v|]; [|done].
  split; [|done]. destruct v; try done. by repeat case_match.
Qed.

Lemma has_secrets_map (x : gomap) :
  has_secrets (VMap x) = false ↔
  assoc SecretMarker x = None ∧ Forall (λ p, has_secrets p.2 = false) x.
Proof.
  simpl. rewrite orb_false_iff, bool_decide_eq_false, <-eq_None_not_Some.
  assert (existsb (λ p, has_secrets p.2) x = false ↔ Forall (λ p, has_secrets p.2 = false) x) as ->;
    [|done].
  induction x as [|p x IH]; simpl; [by split|]. by rewrite orb_false_iff, Forall_cons, IH.
Qed.

Lemma has_secrets_list (x : list value) :
  has_secrets (VList x) = false ↔ Forall (λ v, has_secrets v = false) x.
Proof.
  simpl. induction x as [|p x IH]; simpl; [by split|]. by rewrite orb_false_iff, Forall_cons, IH.
Qed.

(** The cheap pre-check sees a marker whenever the walk would. *)
Lemma secret_free_walk {G} v :
  has_secrets v = false →
  no_malformed (extractSecret (G := G)) v = true ∧ markers (extractSecret (G := G)) v = [].
Proof.
  induction v as [ |b|z|f|s|l IH|m IH] using value_ind'; try done.
  - rewrite has_secrets_list. intros Hl. simpl.
    induction IH as [|x l Hx _ IHl]; inversion_clear Hl; simpl; [done|].
    destruct Hx as [-> ->]; [done|]. by apply IHl.
  - rewrite has_secrets_map. intros [Hm Hl]. simpl.
    rewrite (proj2 (extractSecret_None m) Hm). clear Hm.
    induction IH as [|x l Hx _ IHl]; inversion_clear Hl; simpl; [done|].
    destruct Hx as [-> ->]; [done|]. by apply IHl.
Qed.

Lemma walk_secrets_clean {G} (reg : option (Registry G)) v w :
  walk_secrets reg v = Ok w → has_secrets w = false.
Proof.
  unfold walk_secrets.
  revert w; induction v as [ |b|z|f|s|l IH|m IH] using value_ind'; intros w;
    simpl; try by intros [= <-].
  - destruct (mapR _ l) as [ys|] eqn:E; [|done]. intros [= <-].
    apply mapR_Ok in E. apply has_secrets_list.
    induction E; inversion_clear IH; constructor; eauto.
  - destruct (extractSecret m) as [[ref|]|e] eqn:Hm; [| |done].
    + unfold resolveSecret. destruct reg as [rg|]; [|done].
      destruct (lookup_provider rg (Provider ref)); [|done].
      destruct (sp_resolve _ _); simpl; [by intros [= <-]|done].
    + apply extractSecret_None in Hm.
      destruct (mapR _ m) as [ys|] eqn:E; [|done]. intros [= <-].
      pose proof (mapR_keys _ _ _ E) as Hk.
      apply mapR_Ok in E. apply has_secrets_map. split.
      { apply assoc_None. rewrite Hk. by apply assoc_None. }
      clear Hk Hm. induction E as [|[k v] y l l' Hy _ IHl]; inversion_clear IH; constructor; [|auto].
      simpl in *. destruct (walk extractSecret (resolveSecret reg) v) eqn:Hw; [|done].
      injection Hy as <-. simpl. eauto.
Qed.

(** ** Properties *)

(** C19: A spec the cheap [HasSecrets] pre-check passes over is resolved to
    itself, so skipping the resolve pass for it loses nothing; and whatever
    [ResolveSecrets] yields holds no [$secret] marker at any depth. *)
Theorem ResolveSecrets_complete {G} (reg : option (Registry G)) spec :
  (HasSecrets spec = false → ResolveSecrets reg spec = Ok spec) ∧
  (∀ out, ResolveSecrets reg spec = Ok out → HasSecrets out = false).
Proof.
  unfold ResolveSecrets, resolve_spec, HasSecrets. destruct spec as [m|]; simpl fields; split.
  - intros H. destruct (secret_free_walk (G := G) _ H) as [Hw Hn]. by rewrite walk_id.
  - intros out. destruct (walk extractSecret (resolveSecret reg) (VMap m)) as [w|] eqn:E; [|done].
    apply walk_secrets_clean in E. destruct w; try done. by intros [= <-].
  - done.
  - by intros out [= <-].
Qed.

(** The file secret provider reads only below its root: for an absolute
    root other than the file system's, every path it opens is the cleaned root
    itself or the root followed by components none of which is empty, [.] or
    [..]; an absolute key is always rejected. *)
Theorem FileProvider_confined root key p :
  is_abs root = true → comps root ≠ [] → file_path root key = Ok p →
  is_abs key = false ∧ ∃ below, Forall proper below ∧ is_abs p = true ∧ comps p = comps root ++ below.
Proof.
  intros Habs Hroot. unfold file_path.
  case_decide; [done|]. destruct (is_abs key) eqn:Hk; [done|].
  assert (Join [root; key] = Clean (root +:+ "/" +:+ key)) as ->.
  { unfold Join. by rewrite decide_False by by intros ->. }
  set (q := root +:+ "/" +:+ key).
  assert (is_abs q = true) as Hq by (destruct root; [done|exact Habs]).
  pose proof (Clean_is_abs _ Hq) as Hc.
  set (c := Clean (Clean q)).
  assert (c = Clean q) as ->.
  { unfold c. apply Clean_comps_inj; [by apply Clean_is_abs|done|by apply comps_Clean]. }
  case_decide as Heq.
  { intros [= <-]. split; [done|]. exists []. split; [constructor|]. split; [done|].
    rewrite app_nil_r. by rewrite Heq, comps_Clean. }
  destruct (has_prefix _ _) eqn:Hp; [|done]. intros [= <-]. split; [done|].
  apply has_prefix_true in Hp as [r Hr]. rewrite str_app_assoc in Hr.
  apply Clean_prefix in Hr; [|done..].
  exists (split_on slash r). rewrite comps_Clean by done. split; [|split; [done|exact Hr]].
  pose proof (comps_proper q) as Hall. rewrite Hr in Hall. by apply Forall_app in Hall as [_ ?].
Qed.

Lemma FileProvider_confined_witness :
  file_path "/var/lib/openctl/secrets" "../../etc/./shadow" = Err ErrEscapes ∧
  is_abs "db//../app/db.pw" = false ∧ ∃ below, Forall proper below ∧
  is_abs "/var/lib/openctl/secrets/app/db.pw" = true ∧
  comps "/var/lib/openctl/secrets/app/db.pw" = comps "/var/lib/openctl/secrets" ++ below.
Proof.
  split; [vm_compute; reflexivity|].
  apply (FileProvider_confined "/var/lib/openctl/secrets" "db//../app/db.pw");
    vm_compute; [reflexivity|intros [=]|reflexivity].
Defined.

(** The reference an action key is printed from. *)
Definition action_key_string (d v k n a f : string) : string :=
  join "/" [d; v; k; n] +:+ "#" +:+ a +:+ (if decide (f = "") then "" else ":" +:+ f).

(** Parsing an action key gives back the parts it was written from, for
    non-empty parts without the separators they are delimited by; in particular
    the API version is rebuilt from its two segments. *)
Theorem parseActionKey_roundtrip {G} d v k n a f :
  Forall (λ s, s ≠ "" ∧ no_byte slash s ∧ no_byte hash_byte s) [d; v; k; n] →
  a ≠ "" → no_byte colon a →
  parseActionKey (G := G) (action_key_string d v k n a f) =
    Ok (ActionKey (d +:+ "/" +:+ v) k n a f).
Proof.
  intros Hs Ha Hc. unfold parseActionKey, action_key_string.
  set (rest := a +:+ _).
  change (join "/" [d; v; k; n] +:+ "#" +:+ rest)
    with (join "/" [d; v; k; n] +:+ String hash_byte rest).
  assert (no_byte hash_byte (join "/" [d; v; k; n])) as Hh.
  { rewrite !Forall_cons in Hs. destruct Hs as ((_&_&?)&(_&_&?)&(_&_&?)&(_&_&?)&_).
    rewrite !join_cons2, !no_byte_app. by repeat split. }
  rewrite cut_byte_app by done. rewrite split_join; [|done|].
  2: { eapply Forall_impl; [exact Hs|]. by intros s (_&?&_). }
  rewrite !Forall_cons in Hs. destruct Hs as ((?&_)&(?&_)&(?&_)&(?&_)&_).
  rewrite decide_False by tauto.
  assert (default (rest, "") (cut_byte colon rest) = (a, f)) as ->; [|by rewrite decide_False].
  unfold rest. destruct (decide (f = "")) as [->|Hf].
  - rewrite str_app_nil_r. by rewrite (proj2 (cut_byte_None colon a) Hc).
  - change (a +:+ ":" +:+ f) with (a +:+ String colon f). by rewrite cut_byte_app.
Qed.

Lemma parseActionKey_roundtrip_witness :
  action_key_string "cloudflare.openctl.io" "v1" "Tunnel" "home" "get-token" "" =
    "cloudflare.openctl.io/v1/Tunnel/home#get-token" ∧
  parseActionKey (G := unit) "cloudflare.openctl.io/v1/Tunnel/home#get-token" =
    Ok (ActionKey "cloudflare.openctl.io/v1" "Tunnel" "home" "get-token" "").
Proof.
  split; [reflexivity|].
  apply (parseActionKey_roundtrip "cloudflare.openctl.io" "v1" "Tunnel" "home" "get-token" "");
    [|discriminate|vm_compute; repeat split; discriminate].
  repeat (constructor; [vm_compute; repeat split; discriminate|]). constructor.
Defined.
