(* ===== verification/Hash.v ===== *)
(** The verifying-trace input hash: src/internal/controller/manifests/hash.go.
    [Hash] is sha256 (a parameter) of the JSON text of a canonical document;
    what the code decides is which manifests share a document, and that is what
    is characterised here. *)
From S2P Require Import Prelude GoStrings GoValue.

(** [kv]: the wire shape of a normalized map entry. *)
Definition kv (k : string) (v : value) : value := VMap [("k", VStr k); ("v", v)].

Definition kv_entry (p : string * value) : value := kv p.1 p.2.

(** [normalize] *)
Fixpoint normalize (v : value) : value :=
  match v with
  | VMap x => VList (map kv_entry (sort_entries (map (λ p, (p.1, normalize p.2)) x)))
  | VList x => VList (map normalize x)
  | _ => v
  end.

(** The [map[string]string] case of [normalize]. *)
Definition normalize_labels (x : list (string * string)) : value :=
  VList (map (λ p, kv p.1 (VStr p.2)) (sort_entries x)).

(** The tree [canonical] hands to [json.Marshal]: the keys of the outer map in
    order; the inner slices of [kv] pass through the second [normalize]. *)
Definition hash_doc (r : resource) : value :=
  VList [kv "apiVersion" (VStr (r_apiVersion r)); kv "kind" (VStr (r_kind r));
         kv "labels" (normalize_labels (r_labels r)); kv "name" (VStr (r_name r));
         kv "spec" (normalize (VMap (fields (r_spec r))))].

(** [Hash]; [digest] is the hex sha256 of the JSON text. *)
Definition Hash (digest : value → string) (r : option resource) : string :=
  match r with None => "" | Some r => digest (hash_doc r) end.

(** ** What two values with one normal form have in common: they are equal up to
    the order of map entries and up to [{}] against [[]]. *)
Fixpoint hash_canon (v : value) : value :=
  match v with
  | VMap [] => VList []
  | VMap x => VMap (sort_entries (map (λ p, (p.1, hash_canon p.2)) x))
  | VList x => VList (map hash_canon x)
  | _ => v
  end.

Lemma hash_canon_map (x : gomap) :
  x ≠ [] → hash_canon (VMap x) = VMap (sort_entries (map (λ p, (p.1, hash_canon p.2)) x)).
Proof. by destruct x. Qed.

(** Sorting by key commutes with rewriting the values. *)
Lemma sort_entries_map {A B} (f : A → B) (x : list (string * A)) :
  NoDup x.*1 →
  sort_entries (map (λ p, (p.1, f p.2)) x) = map (λ p, (p.1, f p.2)) (sort_entries x).
Proof.
  intros Hnd.
  assert (∀ y : list (string * A), (map (λ p, (p.1, f p.2)) y).*1 = y.*1) as Hk.
  { induction y; simpl; by f_equal. }
  apply (StronglySorted_unique_strong key_le).
  - intros [k1 v1] [k2 v2] H1 H2 Hle1 Hle2. unfold key_le in *; simpl in *.
    assert (k1 = k2) as <- by by apply (anti_symm String.le).
    rewrite sort_entries_perm in H1. rewrite sort_entries_perm in H2.
    apply elem_assoc in H1, H2; [congruence|by rewrite Hk..].
  - apply (StronglySorted_merge_sort key_le).
  - pose proof (StronglySorted_merge_sort key_le x) as Hs. fold (sort_entries x) in Hs.
    induction Hs as [|p l Hs IH Hp]; simpl; [constructor|]. constructor; [done|].
    rewrite Forall_map. eapply Forall_impl; [exact Hp|]. by intros [k v].
  - by rewrite !sort_entries_perm.
Qed.

Lemma normalize_not_map v m : normalize v ≠ VMap m.
Proof. by destruct v. Qed.

Lemma map_kv_inj (l1 l2 : gomap) : map kv_entry l1 = map kv_entry l2 → l1 = l2.
Proof.
  revert l2; induction l1 as [|[k v] l1 IH]; intros [|[k' v'] l2]; simpl; try done.
  intros [= -> -> H]. f_equal. by apply IH.
Qed.

Lemma map_keys {A B} (f : A → B) (x : list (string * A)) : (map (λ p, (p.1, f p.2)) x).*1 = x.*1.
Proof. induction x; simpl; by f_equal. Qed.

(** Two sorted maps whose values agree under [f] agree under [g]. *)
Lemma map_entries_transfer {A B C} (f : A → B) (g : A → C) (l1 l2 : list (string * A)) :
  Forall (λ p, ∀ w, f p.2 = f w → g p.2 = g w) l1 →
  map (λ p, (p.1, f p.2)) l1 = map (λ p, (p.1, f p.2)) l2 →
  map (λ p, (p.1, g p.2)) l1 = map (λ p, (p.1, g p.2)) l2.
Proof.
  intros Hl. revert l2; induction Hl as [|[k v] l1 Hv _ IH]; intros [|[k' v'] l2]; simpl; try done.
  intros [= -> Hf H]. f_equal; [|by apply IH]. f_equal. by apply Hv.
Qed.

Lemma sort_entries_nil {A} (x : list (string * A)) : sort_entries x = [] ↔ x = [].
Proof.
  split; [|by intros ->]. intros H. apply Permutation_nil. by rewrite <-(sort_entries_perm x), H.
Qed.

Lemma normalize_empty v : normalize v = VList [] ↔ v = VList [] ∨ v = VMap [].
Proof.
  split; [|by intros [->| ->]]. destruct v; try done; simpl.
  - destruct l; [by left|done].
  - intros [= H]. right. f_equal. apply map_eq_nil in H. apply (proj1 (sort_entries_nil _)) in H.
    by apply map_eq_nil in H.
Qed.

Lemma Forall_sort_entries {A} (P : string * A → Prop) x : Forall P (sort_entries x) ↔ Forall P x.
Proof. by rewrite sort_entries_perm. Qed.

Lemma normalize_map_list m l :
  m ≠ [] → normalize (VMap m) = normalize (VList l) → False.
Proof.
  intros Hm. simpl. intros [= H].
  destruct (sort_entries _) as [|p q] eqn:E.
  { apply (proj1 (sort_entries_nil _)) in E. by apply map_eq_nil in E. }
  destruct l as [|v l]; simpl in H; [done|]. injection H as H _.
  symmetry in H. by apply normalize_not_map in H.
Qed.

Lemma hash_canon_normalize v w : wf v → wf w → normalize v = normalize w → hash_canon v = hash_canon w.
Proof.
  revert w; induction v as [ |b|z|f|s|l IH|m IH] using value_ind'; intros w Hv Hw.
  1-5: destruct w; simpl; congruence.
  - destruct w as [ | | | | |l'|m']; try done.
    + simpl. intros [= H]. f_equal. apply wf_list in Hv, Hw.
      revert l' Hw H; induction IH as [|v l Hx _ IHl]; intros [|w l'] Hw H; try done; simpl in *.
      injection H as H1 H2. inversion_clear Hv. inversion_clear Hw.
      f_equal; auto.
    + intros H. destruct m' as [|p m']; [|symmetry in H; by apply normalize_map_list in H].
      apply (proj1 (normalize_empty _)) in H as [[= ->]|[=]]. done.
  - destruct w as [ | | | | |l'|m']; try done.
    + intros H. destruct m as [|p m]; [|by apply normalize_map_list in H].
      symmetry in H. apply (proj1 (normalize_empty _)) in H as [[= ->]|[=]]. done.
    + destruct m as [|p m].
      { intros H. symmetry in H. apply (proj1 (normalize_empty _)) in H as [[=]|[= ->]]. done. }
      destruct m' as [|p' m'].
      { intros H. apply (proj1 (normalize_empty _)) in H as [[=]|[=]]. }
      assert (p :: m ≠ []) as Hnex by done. assert (p' :: m' ≠ []) as Hney by done.
      set (x := p :: m) in *. set (y := p' :: m') in *. clearbody x y.
      rewrite !hash_canon_map by done. simpl. intros [= H].
      apply map_kv_inj in H. apply wf_map in Hv as [Hnx Hx], Hw as [Hny Hy].
      rewrite !sort_entries_map in H by done. rewrite !sort_entries_map by done. f_equal.
      assert (Forall (λ p, ∀ w, wf w → normalize p.2 = normalize w → hash_canon p.2 = hash_canon w)
        (sort_entries x)) as HI.
      { rewrite Forall_sort_entries. clear -IH Hx.
        induction IH; inversion_clear Hx; constructor; auto. }
      apply Forall_sort_entries in Hy. revert HI Hy H.
      generalize (sort_entries x) (sort_entries y). clear.
      induction l as [|[k v] l IHl]; intros [|[k' w] l'] HI Hy; simpl; try done.
      intros [= -> H1 H2]. inversion_clear HI. inversion_clear Hy. f_equal; [|by apply IHl].
      f_equal. auto.
Qed.

Lemma normalize_hash_canon v : wf v → normalize (hash_canon v) = normalize v.
Proof.
  induction v as [ |b|z|f|s|l IH|m IH] using value_ind'; intros Hv; try done.
  - simpl. f_equal. apply wf_list in Hv.
    induction IH; inversion_clear Hv; simpl; f_equal; auto.
  - destruct m as [|p m]; [done|]. rewrite hash_canon_map by done.
    set (x := p :: m) in *. clearbody x. apply wf_map in Hv as [Hnd Hv]. simpl. f_equal. f_equal.
    assert (map (λ p, (p.1, normalize (hash_canon p.2))) x = map (λ p, (p.1, normalize p.2)) x) as Heq.
    { clear Hnd. induction IH; inversion_clear Hv; simpl; [done|]. f_equal; [f_equal|]; auto. }
    rewrite <-Heq. rewrite (sort_entries_map hash_canon), map_map by done. simpl.
    rewrite (sort_entries_map (λ v, normalize (hash_canon v)) x) by done.
    rewrite (sort_entries_map (λ v, normalize (hash_canon v)) (sort_entries x))
      by by rewrite sort_entries_perm.
    f_equal. apply sort_entries_unique; [by rewrite sort_entries_perm|apply sort_entries_perm].
Qed.

Lemma normalize_iff v w : wf v → wf w → normalize v = normalize w ↔ hash_canon v = hash_canon w.
Proof.
  intros Hv Hw. split; [by apply hash_canon_normalize|].
  intros H. by rewrite <-(normalize_hash_canon v), <-(normalize_hash_canon w), H.
Qed.

Lemma normalize_labels_iff l1 l2 :
  NoDup l1.*1 → normalize_labels l1 = normalize_labels l2 ↔ l1 ≡ₚ l2.
Proof.
  intros Hnd. unfold normalize_labels. split.
  - intros [= H]. rewrite <-(sort_entries_perm l1), <-(sort_entries_perm l2).
    revert H. generalize (sort_entries l1) (sort_entries l2).
    induction l as [|[k v] l IH]; intros [|[k' v'] l']; simpl; try done.
    intros [= -> -> H]. by rewrite (IH l').
  - intros Hp. by rewrite (sort_entries_unique l1 l2).
Qed.

(** A resource whose maps have distinct keys. *)
Definition wf_resource (r : resource) : Prop :=
  NoDup (r_labels r).*1 ∧ wf (VMap (fields (r_spec r))).

(** ** Properties *)

(** Two manifests have one hash document exactly when apiVersion, kind,
    name and labels agree and their specs agree up to the order of map entries
    and up to an empty object standing for an empty list; annotations, status
    and the map iteration order never show, and nothing else is ever confused. *)
Theorem hash_doc_iff r1 r2 :
  wf_resource r1 → wf_resource r2 →
  hash_doc r1 = hash_doc r2 ↔
  r_apiVersion r1 = r_apiVersion r2 ∧ r_kind r1 = r_kind r2 ∧ r_name r1 = r_name r2 ∧
  r_labels r1 ≡ₚ r_labels r2 ∧
  hash_canon (VMap (fields (r_spec r1))) = hash_canon (VMap (fields (r_spec r2))).
Proof.
  intros [Hl1 Hs1] [Hl2 Hs2]. unfold hash_doc.
  rewrite <-normalize_iff by done. rewrite <-normalize_labels_iff by done.
  split; [|by intros (-> & -> & -> & -> & ->)].
  intros H. unfold kv in H. injection H as H1 H2 H3 H4 H5.
  split_and!; try done; by apply (f_equal VList).
Qed.

Definition hash_example (annotations : list (string * string)) (spec : gomap) : resource :=
  Resource "proxmox.openctl.io/v1" "VirtualMachine"
    (ResourceMetadata "web" "" [("env", "prod"); ("app", "web")] annotations "" "")
    (Some spec) None.

Lemma hash_doc_iff_witness :
  let r1 := hash_example [("allow-destructive", "true")]
              [("cpu", VInt 4); ("disks", VMap [("b", VStr "y"); ("a", VStr "x")])] in
  let r2 := hash_example [] [("disks", VMap [("a", VStr "x"); ("b", VStr "y")]); ("cpu", VInt 4)] in
  hash_doc r1 = hash_doc r2.
Proof.
  intros r1 r2. apply (hash_doc_iff r1 r2).
  - split; [by_decide|vm_compute; reflexivity].
  - split; [by_decide|vm_compute; reflexivity].
  - split_and!; [reflexivity..|vm_compute; reflexivity].
Defined.

(** The one confusion: an empty object and an empty list hash alike. *)
Lemma hash_empty_object_is_empty_list digest :
  let r1 := hash_example [] [("disks", VMap [])] in
  let r2 := hash_example [] [("disks", VList [])] in
  Hash digest (Some r1) = Hash digest (Some r2) ∧ ¬ veq (VMap (fields (r_spec r1))) (VMap (fields (r_spec r2))).
Proof. by split. Qed.
