(* ===== verification/Db.v ===== *)
(** The controller's SQLite database: one record with a field per table
    (src/internal/controller/storage/migrations/). A statement is one atomic
    function on it, a transaction that returns an error leaves it as it was.
    Text columns that hold JSON are represented by what decoding them yields. *)
From S2P Require Import Prelude GoStrings GoValue.

(** (api_version, kind, name): the primary key of every resource table. *)
Abbreviation rkey := (string * string * string)%type.

Definition resource_key (r : resource) : rkey := (r_apiVersion r, r_kind r, r_name r).

(** ** operations *)

Inductive status : Type :=
| StatusPending
| StatusRunning
| StatusSucceeded
| StatusFailed
| StatusInterrupted
| StatusCancelled.

#[export] Instance status_eq_dec : EqDecision status.
Proof. solve_decision. Defined.

Definition TypeApply : string := "apply".
Definition TypeDelete : string := "delete".
Definition TypeStep : string := "step".

(** A nullable JSON column. *)
Inductive json_text (A : Type) : Type :=
| JEmpty
| JBad
| JText (a : A).
Arguments JEmpty {A}.
Arguments JBad {A}.
Arguments JText {A} a.

#[export] Instance json_text_eq_dec `{EqDecision A} : EqDecision (json_text A).
Proof. solve_decision. Defined.

(** [operations.Operation]; a NULL column reads as the empty string. *)
Record Operation : Type := MkOperation {
  o_id : string;
  o_parent : string;
  o_type : string;
  o_key : rkey;
  o_label : string;
  o_manifest : json_text resource;
  o_result : json_text resource;
  o_status : status;
  o_error : string;
  o_submitted : string;
  o_started : string;
  o_completed : string;
  o_source : string;
}.

#[export] Instance Operation_eq_dec : EqDecision Operation.
Proof. solve_decision. Defined.

Definition IsTerminal (o : Operation) : bool :=
  match o_status o with
  | StatusSucceeded | StatusFailed | StatusInterrupted | StatusCancelled => true
  | _ => false
  end.

(** pending or running *)
Definition in_flight (o : Operation) : bool :=
  match o_status o with StatusPending | StatusRunning => true | _ => false end.

Lemma in_flight_terminal o : in_flight o = negb (IsTerminal o).
Proof. unfold in_flight, IsTerminal. by destruct (o_status o). Qed.

Definition with_status_of (o : Operation) (st : status) (err : string) (res : json_text resource)
    (started completed : string) : Operation :=
  MkOperation (o_id o) (o_parent o) (o_type o) (o_key o) (o_label o) (o_manifest o) res st err
    (o_submitted o) started completed (o_source o).

(** ** applied_manifests, resource_releases, provider_state *)

Record manifest_row : Type := ManifestRow {
  mr_spec : json_text (option gomap);
  mr_meta : json_text resource_metadata;
  mr_applied_at : string;
  mr_input_hash : string;
  mr_refs_hash : string;
  mr_source : string;
}.

Record release_row : Type := ReleaseRow { rel_digest : string; rel_at : string }.

Record state_row : Type := StateRow {
  sr_state : option (list Byte.byte);
  sr_private : option (list Byte.byte);
  sr_version : Z;
  sr_updated_at : string;
}.

Record db : Type := MkDb {
  db_ops : list Operation;
  db_applied : gmap rkey manifest_row;
  db_releases : gmap rkey release_row;
  db_state : gmap rkey state_row;
  db_meta : gmap string string;
}.

Definition set_ops (d : db) (ops : list Operation) : db :=
  MkDb ops (db_applied d) (db_releases d) (db_state d) (db_meta d).
Definition set_applied (d : db) (m : gmap rkey manifest_row) : db :=
  MkDb (db_ops d) m (db_releases d) (db_state d) (db_meta d).
Definition set_releases (d : db) (m : gmap rkey release_row) : db :=
  MkDb (db_ops d) (db_applied d) m (db_state d) (db_meta d).
Definition set_state (d : db) (m : gmap rkey state_row) : db :=
  MkDb (db_ops d) (db_applied d) (db_releases d) m (db_meta d).
Definition set_meta (d : db) (m : gmap string string) : db :=
  MkDb (db_ops d) (db_applied d) (db_releases d) (db_state d) m.

(** [manifests.CheckNotForgotten]: is the resource fenced by a release? *)
Definition CheckNotForgotten (d : db) (k : rkey) : bool := bool_decide (db_releases d !! k = None).

Definition empty_db : db := MkDb [] ∅ ∅ ∅ ∅.
