(* ===== verification/OpStore.v ===== *)
(** The operations store: src/internal/controller/operations/operations.go.

    Every store method is one statement or one transaction of SQLite, so a run
    of the controller (RPC handlers, dispatcher workers, the startup sweep) is a
    sequence of atomic steps on the table; [op_step] has one constructor per
    method. Random ids and the clock are arguments. *)
From S2P Require Import Prelude GoStrings GoValue Db.

(** [Store.retainPerResource]. *)
Record Store : Type := MkStore { retainPerResource : nat }.

(** [New] *)
Definition New (retain : nat) : Store := MkStore retain.

Inductive submit_error : Type :=
| ErrRequired
| ForgottenError (k : rkey)
| ConflictError (inflight_id : string)
| ErrInsert.

Inductive complete_error : Type :=
| ErrBadStatus (st : status).

(** [ORDER BY submitted_at]: text comparison. *)
Definition submitted_le (a b : Operation) : Prop := String.le (o_submitted a) (o_submitted b).
#[export] Instance submitted_le_dec : RelDecision submitted_le.
Proof. intros a b. unfold submitted_le. apply _. Defined.
#[export] Instance submitted_le_trans : Transitive submitted_le.
Proof. intros a b c. unfold submitted_le. apply transitivity. Qed.
#[export] Instance submitted_le_total : Total submitted_le.
Proof. intros a b. unfold submitted_le. apply (total String.le). Qed.

Definition order_asc (l : list Operation) : list Operation := merge_sort submitted_le l.
Definition order_desc (l : list Operation) : list Operation := merge_sort (flip submitted_le) l.

Definition find_op (d : db) (id : string) : option Operation :=
  list_find (λ o, o_id o = id) (db_ops d) ≫= λ p, Some p.2.

(** [UPDATE operations ... WHERE id = ?] *)
Definition update_op (id : string) (f : Operation → Operation) (d : db) : db :=
  set_ops d (map (λ o, if decide (o_id o = id) then f o else o) (db_ops d)).

(** The statuses [gcResource] lists. *)
Definition gc_candidate (k : rkey) (o : Operation) : Prop :=
  o_key o = k ∧ (o_status o = StatusSucceeded ∨ o_status o = StatusFailed ∨ o_status o = StatusInterrupted).
#[export] Instance gc_candidate_dec k o : Decision (gc_candidate k o).
Proof. unfold gc_candidate. apply _. Defined.

(** [gcResource] *)
Definition gcResource (s : Store) (k : rkey) (d : db) : db :=
  if decide (retainPerResource s = 0) then d
  else
    let victims := map o_id (drop (retainPerResource s) (order_desc (filter (gc_candidate k) (db_ops d)))) in
    set_ops d (filter (λ o, o_id o ∉ victims) (db_ops d)).

(** [newOpID] and [nowUTC] yield [id] and [now]. *)
Definition pending_row (op : Operation) (id now : string) : Operation :=
  MkOperation id (o_parent op) (o_type op) (o_key op) (o_label op) (o_manifest op) JEmpty
    StatusPending "" now "" "" (o_source op).

(** [Submit] *)
Definition Submit (s : Store) (op : Operation) (id now : string) (d : db) :
    result submit_error (db * Operation) :=
  let '(av, kind, name) := o_key op in
  if decide (o_type op = "" ∨ av = "" ∨ kind = "" ∨ name = "") then Err ErrRequired
  else if negb (CheckNotForgotten d (o_key op)) then Err (ForgottenError (o_key op))
  else
    match list_find (λ o, o_key o = o_key op ∧ in_flight o = true) (db_ops d) with
    | Some (_, o) => Err (ConflictError (o_id o))
    | None =>
        if decide (id ∈ map o_id (db_ops d)) then Err ErrInsert
        else
          let row := pending_row op id now in
          Ok (gcResource s (o_key op) (set_ops d (db_ops d ++ [row])), row)
    end.

(** [Get]; [None] is [sql.ErrNoRows]. *)
Definition Get (d : db) (id : string) : option Operation := find_op d id.

Record ListFilter : Type := MkListFilter {
  lf_status : option status;
  lf_apiVersion : string;
  lf_kind : string;
  lf_name : string;
  lf_source : string;
  lf_since : string;
  lf_until : string;
  lf_limit : nat;
}.

Definition matches_filter (f : ListFilter) (o : Operation) : Prop :=
  match lf_status f with None => True | Some st => o_status o = st end ∧
  (lf_apiVersion f = "" ∨ (o_key o).1.1 = lf_apiVersion f) ∧
  (lf_kind f = "" ∨ (o_key o).1.2 = lf_kind f) ∧
  (lf_name f = "" ∨ (o_key o).2 = lf_name f) ∧
  (lf_source f = "" ∨ o_source o = lf_source f) ∧
  (lf_since f = "" ∨ String.le (lf_since f) (o_submitted o)) ∧
  (lf_until f = "" ∨ String.le (o_submitted o) (lf_until f)).
#[export] Instance matches_filter_dec f o : Decision (matches_filter f o).
Proof. unfold matches_filter. destruct (lf_status f); apply _. Defined.

(** [List] *)
Definition List_ops (f : ListFilter) (d : db) : list Operation :=
  let rows := order_desc (filter (matches_filter f) (db_ops d)) in
  if decide (lf_limit f = 0) then rows else take (lf_limit f) rows.

(** [ClaimNextPending]; [None] is [sql.ErrNoRows]. *)
Definition claim_row (now : string) (o : Operation) : Operation :=
  with_status_of o StatusRunning (o_error o) (o_result o) now (o_completed o).

Definition ClaimNextPending (now : string) (d : db) : option (db * Operation) :=
  match order_asc (filter (λ o, o_status o = StatusPending) (db_ops d)) with
  | [] => None
  | op :: _ => Some (update_op (o_id op) (claim_row now) d, claim_row now op)
  end.

(** [Complete] *)
Definition complete_row (st : status) (err : string) (res : json_text resource) (now : string)
    (o : Operation) : Operation :=
  with_status_of o st err res (o_started o) now.

Definition Complete (s : Store) (id : string) (st : status) (err : string)
    (res : json_text resource) (now : string) (d : db) : result complete_error db :=
  match st with
  | StatusSucceeded | StatusFailed | StatusCancelled =>
      let d' := update_op id (complete_row st err res now) d in
      if decide (retainPerResource s = 0) then Ok d'
      else match Get d' id with
           | None => Ok d'
           | Some op => Ok (gcResource s (o_key op) d')
           end
  | _ => Err (ErrBadStatus st)
  end.

(** [BeginChild]: no conflict check, the row starts out running. *)
Inductive child_error : Type := ErrParentRequired | ErrTypeRequired | ErrInsertChild.

Definition running_row (op : Operation) (parent id now : string) : Operation :=
  MkOperation id parent (o_type op) (o_key op) (o_label op) (o_manifest op) JEmpty
    StatusRunning "" now now "" "".

Definition BeginChild (parent : string) (op : Operation) (id now : string) (d : db) :
    result child_error (db * Operation) :=
  if decide (parent = "") then Err ErrParentRequired
  else if decide (o_type op = "") then Err ErrTypeRequired
  else if decide (id ∈ map o_id (db_ops d)) then Err ErrInsertChild
  else let row := running_row op parent id now in Ok (set_ops d (db_ops d ++ [row]), row).

(** [EndChild] *)
Definition EndChild (id : string) (st : status) (err : string) (res : json_text resource)
    (now : string) (d : db) : result complete_error db :=
  match st with
  | StatusSucceeded | StatusFailed => Ok (update_op id (complete_row st err res now) d)
  | _ => Err (ErrBadStatus st)
  end.

(** [ListChildren] *)
Definition ListChildren (parent : string) (d : db) : list Operation :=
  if decide (parent = "") then []
  else order_asc (filter (λ o, o_parent o = parent) (db_ops d)).

(** [SetLabel] *)
Definition SetLabel (id label : string) (d : db) : db :=
  update_op id (λ o,
    MkOperation (o_id o) (o_parent o) (o_type o) (o_key o) label (o_manifest o) (o_result o)
      (o_status o) (o_error o) (o_submitted o) (o_started o) (o_completed o) (o_source o)) d.

(** [CancelPending]; [None] is [sql.ErrNoRows]. *)
Inductive CancelResult : Type :=
| Cancelled
| Refused (st : status) (reason : string).

Definition cancel_message : string := "canceled by user before dispatcher claimed the op".

Definition CancelPending (id now : string) (d : db) : db * option CancelResult :=
  match find_op d id with
  | None => (d, None)
  | Some o =>
      if decide (o_status o = StatusPending) then
        (update_op id (λ o, with_status_of o StatusCancelled cancel_message (o_result o) (o_started o) now) d,
         Some Cancelled)
      else
        (d, Some (Refused (o_status o)
          (if decide (o_status o = StatusRunning)
           then "operation already running, cannot cancel (cooperative cancellation of running ops is not supported in v1)"
           else "operation already terminal, cannot cancel")))
  end.

(** [MarkRunningInterrupted] *)
Definition interrupt_row (now : string) (o : Operation) : Operation :=
  if decide (o_status o = StatusRunning) then
    with_status_of o StatusInterrupted
      "controller restarted while this operation was running; re-apply if needed"
      (o_result o) (o_started o) now
  else o.

Definition MarkRunningInterrupted (now : string) (d : db) : db * nat :=
  (set_ops d (map (interrupt_row now) (db_ops d)),
   length (filter (λ o, o_status o = StatusRunning) (db_ops d))).

(** One atomic step of the store. [step_other] is a statement on another
    table. *)
Inductive op_step (s : Store) (d : db) : db → Prop :=
| step_submit op id now d' o : Submit s op id now d = Ok (d', o) → op_step s d d'
| step_claim now d' o : ClaimNextPending now d = Some (d', o) → op_step s d d'
| step_complete id st err res now d' : Complete s id st err res now d = Ok d' → op_step s d d'
| step_begin parent op id now d' o : BeginChild parent op id now d = Ok (d', o) → op_step s d d'
| step_end id st err res now d' : EndChild id st err res now d = Ok d' → op_step s d d'
| step_label id label : op_step s d (SetLabel id label d)
| step_cancel id now : op_step s d (CancelPending id now d).1
| step_interrupt now : op_step s d (MarkRunningInterrupted now d).1
| step_other d' : db_ops d' = db_ops d → op_step s d d'.

(** ** Laws *)

Lemma filter_map_id (l : list Operation) (g : Operation → Operation) :
  (∀ o, o_id (g o) = o_id o) → map o_id (map g l) = map o_id l.
Proof. intros Hg. rewrite map_map. by apply map_ext. Qed.

(** What a rewrite of rows keeps. *)
Record row_update (o o' : Operation) : Prop := {
  ru_id : o_id o' = o_id o;
  ru_parent : o_parent o' = o_parent o;
  ru_type : o_type o' = o_type o;
  ru_key : o_key o' = o_key o;
  ru_manifest : o_manifest o' = o_manifest o;
  ru_submitted : o_submitted o' = o_submitted o;
}.

(** The status changes the store makes. *)
Inductive status_next : status → status → Prop :=
| next_same st : status_next st st
| next_claim : status_next StatusPending StatusRunning
| next_cancel : status_next StatusPending StatusCancelled
| next_interrupt : status_next StatusRunning StatusInterrupted
| next_done st st' :
    st' = StatusSucceeded ∨ st' = StatusFailed ∨ st' = StatusCancelled → status_next st st'.

Definition row_next (o o' : Operation) : Prop :=
  row_update o o' ∧ status_next (o_status o) (o_status o').

#[export] Instance row_next_refl : Reflexive row_next.
Proof. intros o. split; [by split|constructor]. Qed.

Lemma status_next_terminal o o' :
  status_next (o_status o) (o_status o') → IsTerminal o = true → IsTerminal o' = true.
Proof.
  unfold IsTerminal. intros H.
  destruct H as [st| | | |st st' [-> | [-> | ->]]]; done.
Qed.

Lemma status_next_in_flight o o' :
  status_next (o_status o) (o_status o') → in_flight o' = true → in_flight o = true.
Proof.
  rewrite !in_flight_terminal, !negb_true_iff. intros H Hf.
  apply not_true_iff_false. intros Ht%(status_next_terminal _ _ H). congruence.
Qed.

Lemma complete_row_next st err res now o :
  st = StatusSucceeded ∨ st = StatusFailed ∨ st = StatusCancelled →
  row_next o (complete_row st err res now o).
Proof. intros H. split; [by split|]. simpl. by apply next_done. Qed.


(** The table after a step: rows are rewritten in place, then some are dropped. *)
Definition rewrites (l l' : list Operation) : Prop :=
  ∃ g, l' = map g l ∧ Forall (λ o, row_next o (g o)) l.

Lemma rewrites_update id f d :
  Forall (λ o, o_id o = id → row_next o (f o)) (db_ops d) →
  rewrites (db_ops d) (db_ops (update_op id f d)).
Proof.
  intros H. eexists. split; [reflexivity|]. eapply Forall_impl; [exact H|].
  intros o Ho. simpl. case_decide; [auto|reflexivity].
Qed.

Lemma rewrites_refl l : rewrites l l.
Proof. exists id. split; [by rewrite map_id|]. by apply Forall_true. Qed.

Lemma rewrites_ids l l' : rewrites l l' → map o_id l' = map o_id l.
Proof.
  intros (g & -> & Hg). rewrite map_map. induction Hg as [|o l [[Hid _ _ _ _ _] _] _ IH]; simpl; [done|].
  by rewrite Hid, IH.
Qed.

(** The top-level operations that are in flight. *)
Definition top_in_flight (o : Operation) : Prop := in_flight o = true ∧ o_parent o = "".
#[export] Instance top_in_flight_dec o : Decision (top_in_flight o).
Proof. unfold top_in_flight. apply _. Defined.

Definition flight_keys (l : list Operation) : list rkey := map o_key (filter top_in_flight l).

Lemma rewrites_flight_keys l l' : rewrites l l' → flight_keys l' `sublist_of` flight_keys l.
Proof.
  intros (g & -> & Hg). unfold flight_keys. induction Hg as [|o l [[_ Hp _ Hk _ _] Hst] _ IH]; simpl; [done|].
  rewrite !filter_cons. destruct (decide (top_in_flight (g o))) as [[Hf Hpar]|Hn].
  - rewrite decide_True.
    + simpl. rewrite Hk. by apply sublist_skip.
    + split; [by eapply status_next_in_flight|congruence].
  - case_decide; simpl; [by apply sublist_cons|done].
Qed.

Lemma filter_flight_keys (P : Operation → Prop) `{∀ o, Decision (P o)} l :
  flight_keys (filter P l) `sublist_of` flight_keys l.
Proof.
  unfold flight_keys. induction l as [|o l IH]; simpl; [done|].
  rewrite (filter_cons P). case_decide; rewrite !filter_cons; case_decide; simpl;
    by (apply sublist_skip || apply sublist_cons || idtac).
Qed.

Lemma gc_sub s k d : ∃ victims : list string, db_ops (gcResource s k d) = filter (λ o, o_id o ∉ victims) (db_ops d).
Proof.
  unfold gcResource. case_decide; [|by eexists].
  exists []. symmetry. induction (db_ops d) as [|o l IH]; [done|].
  rewrite filter_cons. rewrite decide_True by apply not_elem_of_nil. by rewrite IH.
Qed.

(** Pruning does not look at what a rewrite leaves alone. *)
Lemma gc_update_op s k id f d :
  (∀ o, o_id (f o) = o_id o ∧ o_key (f o) = o_key o ∧ o_status (f o) = o_status o ∧ o_submitted (f o) = o_submitted o) →
  gcResource s k (update_op id f d) = update_op id f (gcResource s k d).
Proof.
  intros Hf. unfold gcResource. case_decide; [done|]. unfold update_op, set_ops. simpl.
  set (g := λ o, if decide (o_id o = id) then f o else o).
  assert (∀ o, o_id (g o) = o_id o ∧ o_key (g o) = o_key o ∧ o_status (g o) = o_status o ∧ o_submitted (g o) = o_submitted o) as Hg.
  { intros o. unfold g. by case_decide. }
  assert (∀ (P : Operation → Prop) `{∀ o, Decision (P o)} l, (∀ o, P (g o) ↔ P o) → filter P (map g l) = map g (filter P l)) as Hfm.
  { intros P ? l HP. induction l as [|o l IH]; [done|]. simpl. rewrite !filter_cons.
    specialize (HP o). repeat case_decide; (tauto || simpl; by rewrite IH). }
  rewrite (Hfm (gc_candidate k)) by (intros o; unfold gc_candidate; destruct (Hg o) as (_ & Hk & Hs & _); by rewrite Hk, Hs).
  unfold order_desc. rewrite <-(merge_sort_map g (flip submitted_le) (flip submitted_le))
    by (intros x y; unfold flip, submitted_le; by destruct (Hg x) as (_ & _ & _ & ->), (Hg y) as (_ & _ & _ & ->)).
  rewrite skipn_map, map_map, (map_ext (λ o, o_id (g o)) o_id) by (intros o; by destruct (Hg o)).
  f_equal. apply Hfm. intros o. by destruct (Hg o) as (-> & _).
Qed.

Lemma NoDup_ids_filter (P : Operation → Prop) `{∀ o, Decision (P o)} l :
  NoDup (map o_id l) → NoDup (map o_id (filter P l)).
Proof.
  induction l as [|o l IH]; simpl; [done|]. rewrite NoDup_cons. intros [Hn Hl].
  rewrite filter_cons. case_decide; simpl; [|by apply IH]. apply NoDup_cons. split; [|by apply IH].
  intros Hin. apply Hn. apply list_elem_of_fmap in Hin as (o' & -> & Hin).
  apply list_elem_of_filter in Hin as [_ Hin]. by apply list_elem_of_fmap_2.
Qed.

(** Ids are unique, and no resource has two top-level operations in flight. *)
Definition ops_inv (d : db) : Prop :=
  NoDup (map o_id (db_ops d)) ∧ NoDup (flight_keys (db_ops d)).

Lemma ops_inv_rewrites d l' : ops_inv d → rewrites (db_ops d) l' → ops_inv (set_ops d l').
Proof.
  intros [H1 H2] Hr. split; simpl; [by rewrite (rewrites_ids _ _ Hr)|].
  eapply sublist_NoDup; [exact H2|by apply rewrites_flight_keys].
Qed.

Lemma ops_inv_gc s k d : ops_inv d → ops_inv (gcResource s k d).
Proof.
  intros [H1 H2]. destruct (gc_sub s k d) as [vs Hvs]. unfold ops_inv. rewrite Hvs. split.
  - by apply NoDup_ids_filter.
  - eapply sublist_NoDup; [exact H2|apply filter_flight_keys].
Qed.

Lemma ops_inv_insert d row :
  ops_inv d → o_id row ∉ map o_id (db_ops d) →
  (top_in_flight row → o_key row ∉ flight_keys (db_ops d)) →
  ops_inv (set_ops d (db_ops d ++ [row])).
Proof.
  intros [H1 H2] Hid Hk. split; simpl.
  - rewrite map_app. apply NoDup_app. split; [done|]. split; [|apply NoDup_singleton].
    intros x Hx ->%list_elem_of_singleton. done.
  - unfold flight_keys. rewrite filter_app, map_app, filter_cons. apply NoDup_app. split; [done|].
    case_decide; [|split; [intros ? _ ?%elem_of_nil; done|constructor]].
    split; [|apply NoDup_singleton]. intros x Hx ->%list_elem_of_singleton. by apply Hk.
Qed.

(** The row a method finds by id is the only one. *)
Lemma id_unique (l : list Operation) o o' :
  NoDup (map o_id l) → o ∈ l → o' ∈ l → o_id o = o_id o' → o = o'.
Proof.
  intros Hnd Ho Ho' Hid. apply list_elem_of_lookup in Ho as [i Hi], Ho' as [j Hj].
  assert (i = j) as <-; [|congruence].
  eapply NoDup_lookup; [exact Hnd| |].
  - by rewrite list_lookup_fmap, Hi.
  - rewrite list_lookup_fmap, Hj. simpl. by f_equal.
Qed.

Lemma ops_inv_ext d d' : db_ops d' = db_ops d → ops_inv d → ops_inv d'.
Proof. unfold ops_inv. by intros ->. Qed.

Lemma order_asc_elem l o : o ∈ order_asc l ↔ o ∈ l.
Proof. unfold order_asc. by rewrite merge_sort_Permutation. Qed.

Lemma order_desc_perm l : order_desc l ≡ₚ l.
Proof. apply merge_sort_Permutation. Qed.

Lemma claim_Some now d d' o :
  ClaimNextPending now d = Some (d', o) →
  ∃ op, op ∈ db_ops d ∧ o_status op = StatusPending ∧
    d' = update_op (o_id op) (claim_row now) d ∧ o = claim_row now op.
Proof.
  unfold ClaimNextPending.
  destruct (order_asc _) as [|op l] eqn:E; [done|]. intros [= <- <-].
  assert (op ∈ order_asc (filter (λ o, o_status o = StatusPending) (db_ops d))) as Hop.
  { rewrite E. left. }
  apply order_asc_elem, list_elem_of_filter in Hop as [??]. by exists op.
Qed.

Lemma rewrites_pending d op f :
  ops_inv d → op ∈ db_ops d → o_status op = StatusPending →
  (∀ o, o_status o = StatusPending → row_next o (f o)) →
  rewrites (db_ops d) (db_ops (update_op (o_id op) f d)).
Proof.
  intros [Hnd _] Hop Hst Hf. apply rewrites_update. apply Forall_forall. intros o Ho Hid.
  apply Hf. by rewrite (id_unique _ _ _ Hnd Ho Hop Hid).
Qed.

Lemma find_op_Some d id o : find_op d id = Some o → o ∈ db_ops d ∧ o_id o = id.
Proof.
  unfold find_op. destruct (list_find _ _) as [[i p]|] eqn:E; [|done].
  intros [= <-]. apply list_find_Some in E as (Hi & Hid & _).
  split; [by eapply list_elem_of_lookup_2|done].
Qed.

Lemma find_op_None d id : find_op d id = None ↔ id ∉ map o_id (db_ops d).
Proof.
  unfold find_op. destruct (list_find _ _) as [[i p]|] eqn:E; simpl.
  - split; [done|]. intros Hn. apply list_find_Some in E as (Hi & <- & _).
    destruct Hn. apply list_elem_of_fmap_2. by eapply list_elem_of_lookup_2.
  - split; [|done]. intros _ Hin. apply list_find_None in E. rewrite Forall_forall in E.
    apply list_elem_of_fmap in Hin as (o & -> & Ho). by apply (E o).
Qed.

(** What an accepted submission went through and what it leaves. *)
Lemma Submit_Ok s op id now d d' row :
  Submit s op id now d = Ok (d', row) →
  row = pending_row op id now ∧ row ∈ db_ops d' ∧ o_type op ≠ "" ∧ db_releases d !! o_key op = None ∧
  (∀ o, o ∈ db_ops d → o_key o = o_key op → in_flight o = false) ∧ (id ∉ map o_id (db_ops d)) ∧
  db_applied d' = db_applied d ∧ db_releases d' = db_releases d ∧ db_state d' = db_state d ∧ db_meta d' = db_meta d.
Proof.
  unfold Submit. destruct (o_key op) as [[av kind] name] eqn:Hk. rewrite <-Hk.
  destruct (decide (_ ∨ _)) as [|Hne]; [done|].
  destruct (CheckNotForgotten d (o_key op)) eqn:Hf; [|done]. simpl.
  destruct (list_find _ _) as [[]|] eqn:E; [done|]. destruct (decide (id ∈ _)) as [|Hid]; [done|].
  intros [= <- <-]. apply bool_decide_eq_true in Hf. apply list_find_None in E. rewrite Forall_forall in E.
  split; [done|]. split; [|split_and!; [tauto|done| |done|..]].
  - unfold gcResource. case_decide; simpl; [apply elem_of_app; right; by left|].
    apply list_elem_of_filter. split; [|apply elem_of_app; right; by left].
    intros (o & Ho & Hin)%list_elem_of_fmap. apply subseteq_drop in Hin. unfold order_desc in Hin.
    rewrite merge_sort_Permutation in Hin. apply list_elem_of_filter in Hin as [[_ Hst] Hin].
    apply elem_of_app in Hin as [Hin|Hin%list_elem_of_singleton].
    + destruct Hid. change id with (o_id (pending_row op id now)). rewrite Ho. by apply list_elem_of_fmap_2.
    + subst o. simpl in Hst. naive_solver.
  - intros o Ho Hok. destruct (in_flight o) eqn:Ef; [|done]. by destruct (E o Ho).
  - unfold gcResource. by case_decide.
  - unfold gcResource. by case_decide.
  - unfold gcResource. by case_decide.
  - unfold gcResource. by case_decide.
Qed.

(** What a submission leaves alone: the other tables, and every row but old, finished ones
    of the same resource, which it may prune. *)
Lemma Submit_frame s op id now d d' row :
  Submit s op id now d = Ok (d', row) →
  d' = set_ops d (db_ops d') ∧ (∀ x, x ∈ db_ops d' → x = row ∨ x ∈ db_ops d) ∧
  (NoDup (map o_id (db_ops d)) → ∀ x, x ∈ db_ops d → x ∈ db_ops d' ∨ gc_candidate (o_key op) x).
Proof.
  intros H. pose proof (Submit_Ok _ _ _ _ _ _ _ H) as (-> & _ & _ & _ & _ & Hid & _).
  revert H. unfold Submit. destruct (o_key op) as [[av kind] name] eqn:Hk. rewrite <-Hk.
  destruct (decide (_ ∨ _)) as [|Hne]; [done|]. destruct (negb _); [done|].
  destruct (list_find _ _) as [[]|]; [done|]. destruct (decide (id ∈ _)); [done|]. intros [= <-].
  unfold gcResource. case_decide; simpl.
  { split; [done|]. split; [|intros _ x Hx; left; apply elem_of_app; by left].
    intros x [Hx|Hx%list_elem_of_singleton]%elem_of_app; auto. }
  split; [done|]. split.
  { intros x [_ [Hx|Hx%list_elem_of_singleton]%elem_of_app]%list_elem_of_filter; auto. }
  intros Hnd x Hx. match goal with |- x ∈ filter (λ o, o_id o ∉ ?vs) _ ∨ _ => destruct (decide (o_id x ∈ vs)) as [Hv|Hv] end.
  - right. apply list_elem_of_fmap in Hv as (y & Hy & Hin). apply subseteq_drop in Hin. unfold order_desc in Hin.
    rewrite merge_sort_Permutation in Hin. apply list_elem_of_filter in Hin as [Hc Hin].
    apply elem_of_app in Hin as [Hin|Hin%list_elem_of_singleton].
    + by rewrite (id_unique _ _ _ Hnd Hx Hin Hy).
    + subst y. destruct Hid. simpl in Hy. rewrite <-Hy. by apply list_elem_of_fmap_2.
  - left. apply list_elem_of_filter. split; [done|]. apply elem_of_app. by left.
Qed.

Lemma find_op_in d o : ops_inv d → o ∈ db_ops d → find_op d (o_id o) = Some o.
Proof.
  intros [Hnd _] Ho. destruct (find_op d (o_id o)) as [o'|] eqn:E.
  - apply find_op_Some in E as [Ho' Hid]. f_equal. by apply (id_unique _ _ _ Hnd).
  - apply find_op_None in E. destruct E. by apply list_elem_of_fmap_2.
Qed.

Lemma no_conflict_flight_keys d k :
  list_find (λ o, o_key o = k ∧ in_flight o = true) (db_ops d) = None → k ∉ flight_keys (db_ops d).
Proof.
  intros H Hk. apply list_find_None in H. rewrite Forall_forall in H.
  apply list_elem_of_fmap in Hk as (o & -> & Ho). apply list_elem_of_filter in Ho as [[Hf _] Ho].
  by apply (H o).
Qed.

(** The shape of every step: rows are rewritten along [status_next], at most
    one is appended, and then one resource may be pruned. *)
Lemma step_form s d d' :
  ops_inv d → op_step s d d' →
  ∃ l new d1, rewrites (db_ops d) l ∧ db_ops d1 = l ++ new ∧ ops_inv d1 ∧
    (db_ops d' = db_ops d1 ∨ ∃ k, db_ops d' = db_ops (gcResource s k d1)).
Proof.
  intros Hinv Hstep.
  assert (∀ d1, rewrites (db_ops d) (db_ops d1) → ops_inv d1) as Hr.
  { intros d1 H. eapply ops_inv_ext; [|by eapply (ops_inv_rewrites d)]. done. }
  assert (∀ d1, rewrites (db_ops d) (db_ops d1) →
    (db_ops d' = db_ops d1 ∨ ∃ k, db_ops d' = db_ops (gcResource s k d1)) →
    ∃ l new d1, rewrites (db_ops d) l ∧ db_ops d1 = l ++ new ∧ ops_inv d1 ∧
    (db_ops d' = db_ops d1 ∨ ∃ k, db_ops d' = db_ops (gcResource s k d1))) as Hplain.
  { intros d1 H1 H2. exists (db_ops d1), [], d1. rewrite app_nil_r. auto. }
  destruct Hstep as [op id now d' o H|now d' o H|id st err res now d' H|parent op id now d' o H
    |id st err res now d' H|id label|id now|now|d' H].
  - unfold Submit in H. destruct (o_key op) as [[av kind] name] eqn:Hk.
    case_decide; [done|]. destruct (CheckNotForgotten _ _); [|done]. simpl in H.
    destruct (list_find _ _) as [[??]|] eqn:E; [done|]. case_decide as Hid; [done|].
    injection H as <- <-.
    eexists (db_ops d), [pending_row op id now], (set_ops d (db_ops d ++ [pending_row op id now])).
    split; [apply rewrites_refl|]. split; [done|]. split; [|right; by eexists].
    apply ops_inv_insert; [done..|]. intros _. simpl. rewrite Hk. by apply no_conflict_flight_keys.
  - apply claim_Some in H as (op & Hop & Hst & -> & _). eapply Hplain; [|by left].
    apply rewrites_pending; [done..|]. intros o' Ho'. split; [by split|]. simpl. rewrite Ho'.
    constructor.
  - unfold Complete in H.
    assert (∃ Hst : st = StatusSucceeded ∨ st = StatusFailed ∨ st = StatusCancelled, True) as [Hst _].
    { destruct st; try done; eauto. }
    assert (rewrites (db_ops d) (db_ops (update_op id (complete_row st err res now) d))) as Hw.
    { apply rewrites_update, Forall_true. intros o _. by apply complete_row_next. }
    eapply Hplain; [exact Hw|].
    destruct st; try done; (case_decide; [injection H as <-; by left|]);
      (destruct (Get _ _); injection H as <-; [right; by eexists|by left]).
  - unfold BeginChild in H. case_decide as Hp; [done|]. case_decide; [done|]. case_decide as Hid; [done|].
    injection H as <- <-.
    eexists (db_ops d), [running_row op parent id now], (set_ops d (db_ops d ++ [running_row op parent id now])).
    split; [apply rewrites_refl|]. split; [done|]. split; [|by left].
    apply ops_inv_insert; [done..|]. by intros [_ ?].
  - unfold EndChild in H.
    assert (st = StatusSucceeded ∨ st = StatusFailed ∨ st = StatusCancelled) as Hst by (destruct st; try done; auto).
    eapply (Hplain d'); [|by left].
    assert (d' = update_op id (complete_row st err res now) d) as -> by (destruct st; congruence).
    apply rewrites_update, Forall_true. intros o _. by apply complete_row_next.
  - eapply Hplain; [|by left]. apply rewrites_update, Forall_true. intros o _.
    split; [by split|constructor].
  - eapply Hplain; [|by left]. unfold CancelPending.
    destruct (find_op d id) as [o|] eqn:E; [|apply rewrites_refl].
    case_decide as Hst; [|apply rewrites_refl]. simpl.
    apply find_op_Some in E as [Ho <-].
    apply rewrites_pending; [done..|]. intros o' Ho'. split; [by split|]. simpl. rewrite Ho'.
    constructor.
  - eapply Hplain; [|by left]. eexists. split; [reflexivity|]. apply Forall_true. intros o.
    unfold interrupt_row. case_decide as Hst; [|reflexivity]. split; [by split|]. simpl. rewrite Hst.
    constructor.
  - eapply (Hplain d); [apply rewrites_refl|by left].
Qed.

Lemma ops_inv_step s d d' : ops_inv d → op_step s d d' → ops_inv d'.
Proof.
  intros Hinv Hs. destruct (step_form _ _ _ Hinv Hs) as (l & new & d1 & _ & _ & H1 & [H|[k H]]).
  - by eapply ops_inv_ext.
  - eapply ops_inv_ext; [exact H|]. by apply ops_inv_gc.
Qed.

Lemma ops_inv_empty d : db_ops d = [] → ops_inv d.
Proof. unfold ops_inv, flight_keys. intros ->. split; constructor. Qed.

Lemma ops_inv_reachable s d d' : db_ops d = [] → rtc (op_step s) d d' → ops_inv d'.
Proof.
  intros H0%ops_inv_empty Hr. induction Hr as [|d d1 d' Hs _ IH]; [done|].
  apply IH. by eapply ops_inv_step.
Qed.

(** The rows pruning removes. *)
Lemma gc_dropped s k d o :
  ops_inv d → o ∈ db_ops d → o ∉ db_ops (gcResource s k d) → gc_candidate k o ∧ retainPerResource s ≠ 0.
Proof.
  intros [Hnd _] Ho. unfold gcResource. case_decide as Hr; [done|]. simpl.
  rewrite list_elem_of_filter. intros Hn. split; [|done].
  destruct (decide (o_id o ∈ map o_id (drop (retainPerResource s)
    (order_desc (filter (gc_candidate k) (db_ops d)))))) as [Hv|Hv]; [|tauto].
  apply list_elem_of_fmap in Hv as (o' & Hid & Ho').
  assert (o' ∈ filter (gc_candidate k) (db_ops d)) as Hin.
  { rewrite <-order_desc_perm. eapply subseteq_drop. exact Ho'. }
  apply list_elem_of_filter in Hin as [Hc Hin].
  by rewrite (id_unique _ _ _ Hnd Ho Hin Hid).
Qed.

(** The completed operations of a resource that pruning works on, newest first. *)
Definition candidates (k : rkey) (d : db) : list Operation :=
  order_desc (filter (gc_candidate k) (db_ops d)).

Lemma elem_of_candidates k d o : o ∈ candidates k d ↔ gc_candidate k o ∧ o ∈ db_ops d.
Proof. unfold candidates. by rewrite order_desc_perm, list_elem_of_filter. Qed.

Lemma candidates_sorted k d : StronglySorted (flip submitted_le) (candidates k d).
Proof.
  unfold candidates, order_desc.
  assert (Total (flip submitted_le)).
  { intros a b. unfold flip. destruct (total submitted_le a b); auto. }
  apply (StronglySorted_merge_sort (flip submitted_le)).
Qed.

Lemma gc_ops s k d :
  retainPerResource s ≠ 0 →
  db_ops (gcResource s k d) =
    filter (λ o, o_id o ∉ map o_id (drop (retainPerResource s) (candidates k d))) (db_ops d).
Proof. intros H. unfold gcResource. by rewrite decide_False. Qed.

Lemma gc_length s k d :
  ops_inv d → retainPerResource s ≠ 0 →
  length (filter (gc_candidate k) (db_ops (gcResource s k d))) ≤ retainPerResource s.
Proof.
  intros [Hnd _] Hr. rewrite gc_ops by done. set (n := retainPerResource s) in *.
  set (vs := map o_id (drop n (candidates k d))).
  rewrite list_filter_filter.
  assert (filter (λ o, gc_candidate k o ∧ o_id o ∉ vs) (db_ops d)
    ≡ₚ filter (λ o, o_id o ∉ vs) (candidates k d)) as ->.
  { unfold candidates. rewrite order_desc_perm, list_filter_filter.
    erewrite list_filter_iff; [reflexivity|]. intros o. simpl. tauto. }
  rewrite <-(take_drop n (candidates k d)), filter_app, length_app.
  assert (filter (λ o, o_id o ∉ vs) (drop n (candidates k d)) = []) as ->.
  { apply filter_none. apply Forall_forall. intros o Ho Hn. apply Hn.
    by apply list_elem_of_fmap_2. }
  simpl. etrans; [apply Nat.add_le_mono_r, length_filter|].
  rewrite length_take. simpl. lia.
Qed.

Lemma gc_newest s k d x y :
  ops_inv d → x ∈ db_ops (gcResource s k d) → gc_candidate k x →
  y ∈ db_ops d → y ∉ db_ops (gcResource s k d) → submitted_le y x.
Proof.
  intros Hinv Hx Hc Hy Hny. destruct (gc_dropped s k d y Hinv Hy Hny) as [Hcy Hr].
  destruct Hinv as [Hnd _]. rewrite gc_ops in Hx, Hny by done.
  set (n := retainPerResource s) in *. apply list_elem_of_filter in Hx as [Hxv Hx].
  assert (x ∈ candidates k d) as HxL by by apply elem_of_candidates.
  assert (y ∈ candidates k d) as HyL by by apply elem_of_candidates.
  pose proof (candidates_sorted k d) as Hs.
  rewrite <-(take_drop n (candidates k d)) in HxL, HyL, Hs.
  apply elem_of_app in HxL as [HxL|HxL].
  2: { destruct Hxv. by apply list_elem_of_fmap_2. }
  assert (y ∈ drop n (candidates k d)) as HyD.
  { destruct (decide (o_id y ∈ map o_id (drop n (candidates k d)))) as [Hv|Hv].
    - apply list_elem_of_fmap in Hv as (o & Hid & Ho).
      assert (o ∈ db_ops d) as Hod.
      { eapply elem_of_candidates. rewrite <-(take_drop n). apply elem_of_app. by right. }
      by rewrite (id_unique _ _ _ Hnd Hy Hod Hid).
    - destruct Hny. by apply list_elem_of_filter. }
  exact (StronglySorted_app_1_elem_of _ _ _ _ _ Hs HxL HyD).
Qed.

(** ** Properties *)

(** C2: In every state reachable from an empty operations table by any
    interleaving of the store's methods, operation ids are unique and no
    resource has two top-level operations that are pending or running: the
    fail-fast rule of [Submit], which children started by a provider bypass. *)
Theorem one_in_flight_per_resource s d d' :
  db_ops d = [] → rtc (op_step s) d d' →
  NoDup (map o_id (db_ops d')) ∧
  ∀ o1 o2, o1 ∈ db_ops d' → o2 ∈ db_ops d' →
    in_flight o1 = true → in_flight o2 = true → o_parent o1 = "" → o_parent o2 = "" →
    o_key o1 = o_key o2 → o1 = o2.
Proof.
  intros H0 Hr. destruct (ops_inv_reachable s d d' H0 Hr) as [Hid Hk]. split; [done|].
  intros o1 o2 Ho1 Ho2 Hf1 Hf2 Hp1 Hp2 Hkey.
  assert (o1 ∈ filter top_in_flight (db_ops d')) as H1 by by apply list_elem_of_filter.
  assert (o2 ∈ filter top_in_flight (db_ops d')) as H2 by by apply list_elem_of_filter.
  apply list_elem_of_lookup in H1 as [i Hi], H2 as [j Hj].
  assert (i = j) as <-; [|congruence]. unfold flight_keys in Hk.
  eapply NoDup_lookup; [exact Hk| |].
  - by rewrite list_lookup_fmap, Hi.
  - rewrite list_lookup_fmap, Hj. simpl. by f_equal.
Qed.

Definition example_op (name : string) : Operation :=
  MkOperation "" "" TypeApply ("proxmox.openctl.io/v1", "VirtualMachine", name) "" JEmpty JEmpty
    StatusPending "" "" "" "" "cli".

Definition example_store : Store := New 1.

(** Submit, claim, a refused second submit, complete. *)
Definition example_run : result submit_error db :=
  r1 ← Submit example_store (example_op "web") "op-1" "2026-01-01T00:00:00Z" empty_db;
  match ClaimNextPending "2026-01-01T00:00:01Z" r1.1 with
  | None => Ok r1.1
  | Some (d, _) => Ok d
  end.

Definition example_db : db := match example_run with Ok d => d | Err _ => empty_db end.

Lemma example_reachable : rtc (op_step example_store) empty_db example_db.
Proof.
  eapply rtc_l; [eapply (step_submit _ _ (example_op "web") "op-1" "2026-01-01T00:00:00Z"); reflexivity|].
  eapply rtc_l; [eapply (step_claim _ _ "2026-01-01T00:00:01Z"); reflexivity|].
  reflexivity.
Qed.

Lemma one_in_flight_per_resource_witness :
  is_ok (Submit example_store (example_op "web") "op-2" "2026-01-01T00:00:02Z" example_db) = false ∧
  NoDup (map o_id (db_ops example_db)) ∧
  ∀ o1 o2, o1 ∈ db_ops example_db → o2 ∈ db_ops example_db →
    in_flight o1 = true → in_flight o2 = true → o_parent o1 = "" → o_parent o2 = "" →
    o_key o1 = o_key o2 → o1 = o2.
Proof.
  split; [vm_compute; reflexivity|].
  apply (one_in_flight_per_resource example_store empty_db example_db);
    [reflexivity|exact example_reachable].
Defined.

(** The life of a row: a step leaves a row as it was, or moves its status
    along pending → running, pending → canceled, running → interrupted or
    anything → succeeded/failed/canceled, never touching its id, parent, type,
    resource, manifest or submission time; the only rows that disappear are
    finished ones (succeeded, failed or interrupted) pruned by the retention
    cap. So a finished operation never becomes pending or running again. *)
Theorem operation_lifecycle s d d' o :
  ops_inv d → op_step s d d' → o ∈ db_ops d →
  ∃ o', row_next o o' ∧
    (o' ∈ db_ops d' ∨
     retainPerResource s ≠ 0 ∧ gc_candidate (o_key o) o') ∧
    (IsTerminal o = true → IsTerminal o' = true).
Proof.
  intros Hinv Hstep Ho.
  destruct (step_form _ _ _ Hinv Hstep) as (l & new & d1 & (g & -> & Hg) & Hd1 & Hinv1 & Hd').
  rewrite Forall_forall in Hg. pose proof (Hg _ Ho) as Hn. exists (g o).
  split; [done|]. split; [|by apply status_next_terminal, Hn].
  assert (g o ∈ db_ops d1) as Hin.
  { rewrite Hd1. apply elem_of_app. left. by apply list_elem_of_fmap_2. }
  destruct Hd' as [-> |[k Hk]]; [by left|].
  destruct (decide (g o ∈ db_ops d')) as [|Hnot]; [by left|right].
  rewrite Hk in Hnot. destruct (gc_dropped s k d1 _ Hinv1 Hin Hnot) as [[Hkey Hst] Hr].
  split; [done|]. split; [|done]. destruct Hn as [Hu _]. by rewrite (ru_key _ _ Hu).
Qed.

Lemma operation_lifecycle_witness :
  let o := claim_row "2026-01-01T00:00:01Z" (pending_row (example_op "web") "op-1" "2026-01-01T00:00:00Z") in
  ∃ o', row_next o o' ∧
    (o' ∈ db_ops (MarkRunningInterrupted "2026-01-02T00:00:00Z" example_db).1 ∨
     retainPerResource example_store ≠ 0 ∧ gc_candidate (o_key o) o') ∧
    (IsTerminal o = true → IsTerminal o' = true).
Proof.
  intros o. apply (operation_lifecycle example_store example_db).
  - exact (ops_inv_reachable example_store empty_db example_db eq_refl example_reachable).
  - apply step_interrupt.
  - vm_compute. left.
Defined.

(** Recording a terminal status writes exactly that row, then prunes: of the
    resource's succeeded, failed and interrupted operations at most
    [retainPerResource] are left, none of those kept was submitted (as text)
    before one that was dropped, and every row that is not such a finished
    operation is still there. *)
Theorem Complete_retention s id st err res now d d' o :
  ops_inv d → retainPerResource s ≠ 0 → find_op d id = Some o →
  Complete s id st err res now d = Ok d' →
  let d1 := update_op id (complete_row st err res now) d in
  complete_row st err res now o ∈ db_ops d1 ∧
  length (filter (gc_candidate (o_key o)) (db_ops d')) ≤ retainPerResource s ∧
  (∀ x y, x ∈ db_ops d' → gc_candidate (o_key o) x → y ∈ db_ops d1 → y ∉ db_ops d' → submitted_le y x) ∧
  (∀ x, x ∈ db_ops d1 → ¬ gc_candidate (o_key o) x → x ∈ db_ops d').
Proof.
  intros Hinv Hr Hfind Hc d1. destruct (find_op_Some _ _ _ Hfind) as [Ho Hid].
  assert (st = StatusSucceeded ∨ st = StatusFailed ∨ st = StatusCancelled) as Hst.
  { unfold Complete in Hc. destruct st; try done; auto. }
  assert (complete_row st err res now o ∈ db_ops d1) as Hin.
  { unfold d1. simpl. apply list_elem_of_fmap. exists o. by rewrite decide_True. }
  assert (ops_inv d1) as Hinv1.
  { eapply ops_inv_ext; [|eapply (ops_inv_rewrites d (db_ops d1) Hinv)]; [done|].
    apply rewrites_update, Forall_true. intros x _. by apply complete_row_next. }
  assert (d' = gcResource s (o_key o) d1) as ->.
  { unfold Complete in Hc. rewrite decide_False in Hc by done. fold d1 in Hc.
    assert (Get d1 id = Some (complete_row st err res now o)) as Hg.
    { unfold Get. rewrite <-Hid. by apply (find_op_in d1 (complete_row st err res now o)). }
    rewrite Hg in Hc. by destruct st; simplify_eq. }
  split; [done|]. split; [by apply gc_length|]. split.
  - intros x y Hx Hcx Hy Hny. by eapply gc_newest.
  - intros x Hx Hnc. destruct (decide (x ∈ db_ops (gcResource s (o_key o) d1))) as [|Hn]; [done|].
    destruct Hnc. by eapply gc_dropped.
Qed.

Lemma Complete_retention_witness :
  let d1 := update_op "op-1" (complete_row StatusSucceeded "" JEmpty "2026-01-01T00:00:09Z") example_db in
  let d' := match Complete example_store "op-1" StatusSucceeded "" JEmpty "2026-01-01T00:00:09Z" example_db with
            | Ok d => d | Err _ => empty_db end in
  length (filter (gc_candidate (o_key (example_op "web"))) (db_ops d')) ≤ 1.
Proof.
  intros d1 d'.
  destruct (Complete_retention example_store "op-1" StatusSucceeded "" JEmpty "2026-01-01T00:00:09Z"
    example_db d'
    (claim_row "2026-01-01T00:00:01Z" (pending_row (example_op "web") "op-1" "2026-01-01T00:00:00Z")))
    as (_ & H & _ & _).
  - exact (ops_inv_reachable example_store empty_db example_db eq_refl example_reachable).
  - discriminate.
  - vm_compute. reflexivity.
  - vm_compute. reflexivity.
  - exact H.
Defined.

(** The cap does not bound canceled operations: no step prunes one that stays
    canceled. *)
Lemma canceled_never_pruned s k d o :
  ops_inv d → o ∈ db_ops d → o_status o = StatusCancelled → o ∈ db_ops (gcResource s k d).
Proof.
  intros Hinv Ho Hst. destruct (decide (o ∈ db_ops (gcResource s k d))) as [|Hn]; [done|].
  destruct (gc_dropped s k d o Hinv Ho Hn) as [[_ Hc] _]. rewrite Hst in Hc. naive_solver.
Qed.

(** Claiming takes a pending operation whose submission time is, as text,
    least among the pending ones, marks that row running and no other row, and
    finds nothing exactly when nothing is pending; a canceled operation is
    therefore never executed. *)
Theorem ClaimNextPending_spec now d :
  ops_inv d →
  match ClaimNextPending now d with
  | None => Forall (λ o, o_status o ≠ StatusPending) (db_ops d)
  | Some (d', o) =>
      ∃ op, op ∈ db_ops d ∧ o_status op = StatusPending ∧ o = claim_row now op ∧
        (∀ x, x ∈ db_ops d → o_status x = StatusPending → submitted_le op x) ∧
        db_ops d' = map (λ x, if decide (x = op) then o else x) (db_ops d)
  end.
Proof.
  intros [Hnd _]. unfold ClaimNextPending.
  destruct (order_asc _) as [|op l] eqn:E.
  - apply Forall_forall. intros o Ho Hst.
    assert (o ∈ order_asc (filter (λ o, o_status o = StatusPending) (db_ops d))) as Hin.
    { by apply order_asc_elem, list_elem_of_filter. }
    rewrite E in Hin. by apply elem_of_nil in Hin.
  - assert (∀ x, x ∈ op :: l ↔ o_status x = StatusPending ∧ x ∈ db_ops d) as Hin.
    { intros x. by rewrite <-E, order_asc_elem, list_elem_of_filter. }
    destruct (proj1 (Hin op) ltac:(left)) as [Hst Hop].
    exists op. split_and!; [done..| |].
    + intros x Hx Hxs.
      pose proof (StronglySorted_merge_sort submitted_le
        (filter (λ o, o_status o = StatusPending) (db_ops d))) as Hs.
      fold (order_asc (filter (λ o, o_status o = StatusPending) (db_ops d))) in Hs. rewrite E in Hs.
      apply StronglySorted_cons in Hs as [Hs _]. rewrite Forall_forall in Hs.
      pose proof (proj2 (Hin x) (conj Hxs Hx)) as Hm. apply elem_of_cons in Hm as [->|Hm].
      { unfold submitted_le. reflexivity. }
      by apply Hs.
    + simpl. apply map_ext_in. intros x Hx%list_elem_of_In.
      destruct (decide (o_id x = o_id op)) as [Hid|Hid].
      * rewrite (id_unique _ _ _ Hnd Hx Hop Hid). by rewrite decide_True.
      * rewrite decide_False; [done|]. by intros ->.
Qed.

Definition example_submitted : db :=
  match Submit example_store (example_op "web") "op-1" "2026-01-01T00:00:00Z" empty_db with
  | Ok (d, _) => d | Err _ => empty_db end.

Lemma ClaimNextPending_spec_witness :
  match ClaimNextPending "2026-01-01T00:00:02Z" example_submitted with
  | None => False
  | Some (_, o) => o_status o = StatusRunning ∧ submitted_le o o
  end.
Proof.
  assert (ops_inv example_submitted) as Hinv.
  { apply (ops_inv_reachable example_store empty_db); [reflexivity|].
    apply rtc_once, (step_submit _ _ (example_op "web") "op-1" "2026-01-01T00:00:00Z" _
      (pending_row (example_op "web") "op-1" "2026-01-01T00:00:00Z")). vm_compute. reflexivity. }
  pose proof (ClaimNextPending_spec "2026-01-01T00:00:02Z" example_submitted Hinv) as H.
  destruct (ClaimNextPending _ _) as [[d' o]|] eqn:E.
  - destruct H as (op & Hop & _ & -> & Hle & _). split; [reflexivity|].
    exact (Hle op Hop ltac:(vm_compute in E; vm_compute in Hop; inversion Hop; subst; [reflexivity|
      match goal with H : _ ∈ [] |- _ => inversion H end])).
  - vm_compute in E. discriminate.
Defined.
