(* ===== verification/OpTime.v ===== *)
(** Timestamps as text: [nowUTC] of src/internal/controller/operations/operations.go
    formats the clock with [time.RFC3339Nano], and every [ORDER BY submitted_at]
    and every [expires_at < now] compares the texts. The layout has fixed-width
    fields down to the second and drops trailing zeros of the fraction, so the
    text order is the order of time between different seconds and can fail
    inside one. *)
From S2P Require Import Prelude GoStrings.
From Stdlib Require Import Ascii.

(** The calendar fields of a UTC [time.Time]; their lexicographic order is the
    order of time. *)
Record civil : Type := Civil {
  year : N; month : N; day : N; hour : N; minute : N; second : N; nanos : N }.

Definition civil_ok (t : civil) : Prop :=
  (year t < 10000 ∧ month t < 100 ∧ day t < 100 ∧ hour t < 100 ∧ minute t < 100 ∧ second t < 100 ∧
   nanos t < 1000000000)%N.

Definition digit (n : N) : ascii := ascii_of_N (48 + n).

(** [%0wd] *)
Fixpoint dec (w : nat) (n : N) : string :=
  match w with
  | 0 => EmptyString
  | S w' => String (digit (n / 10 ^ N.of_nat w')) (dec w' (n mod 10 ^ N.of_nat w'))
  end.

Definition strip_zeros (s : string) : string :=
  (fix go s := match s with
               | EmptyString => EmptyString
               | String a s' =>
                   let t := go s' in
                   if decide (a = digit 0%N ∧ t = "") then EmptyString else String a t
               end) s.

(** The fraction of [RFC3339Nano]: nothing when zero, else no trailing zeros. *)
Definition fraction (n : N) : string :=
  if decide (n = 0%N) then "" else "." +:+ strip_zeros (dec 9 n).

Definition seconds_text (t : civil) (rest : string) : string :=
  dec 4 (year t) +:+ "-" +:+ dec 2 (month t) +:+ "-" +:+ dec 2 (day t) +:+ "T" +:+
  dec 2 (hour t) +:+ ":" +:+ dec 2 (minute t) +:+ ":" +:+ dec 2 (second t) +:+ rest.

(** [t.Format(time.RFC3339Nano)] in UTC. *)
Definition nowUTC (t : civil) : string := seconds_text t (fraction (nanos t) +:+ "Z").

(** The order of time, to the second and in full. *)
Definition seconds_compare (t u : civil) : comparison :=
  cmp_then (N.compare (year t) (year u))
  (cmp_then (N.compare (month t) (month u))
  (cmp_then (N.compare (day t) (day u))
  (cmp_then (N.compare (hour t) (hour u))
  (cmp_then (N.compare (minute t) (minute u)) (N.compare (second t) (second u)))))).

Definition time_compare (t u : civil) : comparison :=
  cmp_then (seconds_compare t u) (N.compare (nanos t) (nanos u)).

Lemma digit_compare a b : (a < 10)%N → (b < 10)%N → Ascii.compare (digit a) (digit b) = N.compare a b.
Proof.
  intros Ha Hb. unfold Ascii.compare, digit. rewrite !N_ascii_embedding by lia.
  destruct (N.compare_spec a b);
    [apply N.compare_eq_iff|apply N.compare_lt_iff|apply N.compare_gt_iff]; lia.
Qed.

Lemma str_compare_cons a s b t :
  String.compare (String a s) (String b t) = cmp_then (Ascii.compare a b) (String.compare s t).
Proof. simpl. by destruct (Ascii.compare a b). Qed.

Lemma N_compare_digits p a b :
  p ≠ 0%N →
  N.compare a b = cmp_then (N.compare (a / p) (b / p)) (N.compare (a mod p) (b mod p)).
Proof.
  intros Hp. pose proof (N.div_mod a p Hp) as Ha. pose proof (N.div_mod b p Hp) as Hb.
  pose proof (N.mod_upper_bound a p Hp) as Hma. pose proof (N.mod_upper_bound b p Hp) as Hmb.
  set (x := (a / p)%N) in *. set (y := (b / p)%N) in *.
  set (u := (a mod p)%N) in *. set (v := (b mod p)%N) in *.
  clearbody x y u v. destruct (N.compare_spec x y) as [Hxy|Hxy|Hxy]; simpl.
  - subst y. destruct (N.compare_spec u v);
      [apply N.compare_eq_iff|apply N.compare_lt_iff|apply N.compare_gt_iff]; lia.
  - apply N.compare_lt_iff. nia.
  - apply N.compare_gt_iff. nia.
Qed.

(** Fixed-width numbers compare as text like numbers. *)
Lemma dec_compare w a b s t :
  (a < 10 ^ N.of_nat w)%N → (b < 10 ^ N.of_nat w)%N →
  String.compare (dec w a +:+ s) (dec w b +:+ t) = cmp_then (N.compare a b) (String.compare s t).
Proof.
  revert a b; induction w as [|w IH]; intros a b Ha Hb.
  { simpl in Ha, Hb. replace a with 0%N by lia. by replace b with 0%N by lia. }
  set (p := (10 ^ N.of_nat w)%N) in *.
  assert (p ≠ 0%N) as Hp by (apply N.pow_nonzero; lia).
  rewrite Nat2N.inj_succ, N.pow_succ_r' in Ha, Hb. fold p in Ha, Hb.
  change (String.compare (String (digit (a / p)) (dec w (a mod p) +:+ s))
    (String (digit (b / p)) (dec w (b mod p) +:+ t)) = cmp_then (a ?= b)%N (String.compare s t)).
  rewrite str_compare_cons, digit_compare, IH.
  - rewrite (N_compare_digits p a b Hp). by destruct (N.compare (a / p) (b / p)).
  - by apply N.mod_upper_bound.
  - by apply N.mod_upper_bound.
  - apply N.Div0.div_lt_upper_bound. lia.
  - apply N.Div0.div_lt_upper_bound. lia.
Qed.

Lemma str_compare_same a s t : String.compare (String a s) (String a t) = String.compare s t.
Proof. rewrite str_compare_cons. unfold Ascii.compare. by rewrite N.compare_refl. Qed.

Lemma dec_sep_compare w a b c s t :
  (a < 10 ^ N.of_nat w)%N → (b < 10 ^ N.of_nat w)%N →
  String.compare (dec w a +:+ String c s) (dec w b +:+ String c t) =
    cmp_then (N.compare a b) (String.compare s t).
Proof. intros Ha Hb. by rewrite dec_compare, str_compare_same. Qed.

Lemma cmp_then_assoc a b c : cmp_then (cmp_then a b) c = cmp_then a (cmp_then b c).
Proof. by destruct a. Qed.

Lemma seconds_text_compare t u s r :
  civil_ok t → civil_ok u →
  String.compare (seconds_text t s) (seconds_text u r) =
    cmp_then (seconds_compare t u) (String.compare s r).
Proof.
  intros (?&?&?&?&?&?&_) (?&?&?&?&?&?&_). unfold seconds_text, seconds_compare.
  rewrite !cmp_then_assoc.
  etrans; [by apply (dec_sep_compare 4)|]. f_equal.
  etrans; [by apply (dec_sep_compare 2)|]. f_equal.
  etrans; [by apply (dec_sep_compare 2)|]. f_equal.
  etrans; [by apply (dec_sep_compare 2)|]. f_equal.
  etrans; [by apply (dec_sep_compare 2)|]. f_equal.
  by apply (dec_compare 2).
Qed.

(** ** Properties *)

(** Between two instants that differ in their second the order of the
    stored texts is the order of time: [ORDER BY submitted_at] and
    [expires_at < now] are right to the second. *)
Theorem nowUTC_order_across_seconds t u :
  civil_ok t → civil_ok u → seconds_compare t u ≠ Eq →
  String.compare (nowUTC t) (nowUTC u) = time_compare t u.
Proof.
  intros Ht Hu Hne. unfold nowUTC, time_compare.
  rewrite seconds_text_compare by done. by destruct (seconds_compare t u).
Qed.

Lemma nowUTC_order_across_seconds_witness :
  nowUTC (Civil 2026 1 2 3 4 5 120000000) = "2026-01-02T03:04:05.12Z" ∧
  String.compare (nowUTC (Civil 2026 1 2 3 4 5 120000000)) (nowUTC (Civil 2026 1 2 3 4 6 0)) = Lt.
Proof.
  split; [vm_compute; reflexivity|].
  apply (nowUTC_order_across_seconds (Civil 2026 1 2 3 4 5 120000000) (Civil 2026 1 2 3 4 6 0));
    [repeat split; vm_compute; reflexivity..|vm_compute; discriminate].
Defined.

(** Inside one second the text order can be the reverse of the order of
    time: an operation submitted half a second into the second sorts after one
    submitted twelve milliseconds later, because trailing zeros are dropped and
    [Z] sorts after the digits. So the oldest pending operation is not always
    claimed first and children are not always listed oldest first. *)
Theorem nowUTC_order_within_second :
  ∃ t u, civil_ok t ∧ civil_ok u ∧ time_compare t u = Lt ∧
    String.compare (nowUTC t) (nowUTC u) = Gt.
Proof.
  exists (Civil 2026 1 2 3 4 5 500000000), (Civil 2026 1 2 3 4 5 512000000).
  split_and!; try (repeat split; vm_compute; reflexivity).
Qed.
