(* ===== verification/ManifestStore.v ===== *)
(** The desired-state store: src/internal/controller/manifests/store.go and
    source.go, the ownership migration of migration.go, and the opaque provider
    state of src/internal/controller/providerstate/store.go.

    A successful apply saves the manifest, a delete removes it. [Forget] hands a
    resource to another controller: the manifest goes and a release row fences
    the resource until [Adopt] reclaims it. *)
From S2P Require Import Prelude GoStrings GoValue Refs Hash Db OpStore.

Definition SourceCLI : string := "cli".
Definition SourceUI : string := "ui".
Definition SourceAutoReconcile : string := "auto-reconcile".
Definition SourceGitOps : string := "gitops".

(** The source attached to a context; none is the empty string. *)
Definition WithSource (ctx source : string) : string := if decide (source = "") then ctx else source.
Definition SourceFromContext (ctx : string) : string := ctx.

Inductive store_error : Type :=
| ErrSaveRequired
| ErrSaveForgotten (k : rkey)
| ErrEncodeSpec
| ErrDecodeSpec.

Inductive migration_error : Type :=
| ErrMigrationBusy
| ErrMigrationConflict
| ErrMigrationUnsupported
| ErrMigrationNotFound
| ErrMigrationForgotten (k : rkey)
| ErrMigrationDecode
| ErrMigrationEncode.

Section store.
(** sha256 of the canonical JSON, and of the JSON of a whole resource ([None]:
    the resource cannot be encoded). *)
Context (digest : value → string) (json_digest : resource → option string).

Definition Hash_of (r : resource) : string := Hash digest (Some r).

(** [json.Marshal(r.Spec)] *)
Definition encode_spec (spec : option gomap) : result store_error (json_text (option gomap)) :=
  match spec with
  | None => Ok (JText None)
  | Some m => if json_ok (VMap m) then Ok (JText (Some (json_read_map m))) else Err ErrEncodeSpec
  end.

(** [saveManifest] *)
Definition saveManifest (r : resource) (refsHash source now : string) (d : db) : result store_error db :=
  spec ← encode_spec (r_spec r);
  mret (set_applied d
    (<[resource_key r := ManifestRow spec (JText (r_metadata r)) now (Hash_of r) refsHash source]>
      (db_applied d))).

(** [SaveWithRefsHash] *)
Definition SaveWithRefsHash (ctx : string) (r : option resource) (refsHash now : string) (d : db) :
    result store_error db :=
  match r with
  | None => Err ErrSaveRequired
  | Some r =>
      if decide (r_apiVersion r = "" ∨ r_kind r = "" ∨ r_name r = "") then Err ErrSaveRequired
      else if negb (CheckNotForgotten d (resource_key r)) then Err (ErrSaveForgotten (resource_key r))
      else saveManifest r refsHash (SourceFromContext ctx) now d
  end.

(** [Save] *)
Definition Save (ctx : string) (r : option resource) (now : string) (d : db) : result store_error db :=
  SaveWithRefsHash ctx r "" now d.

(** [LoadHashes], [LoadHash] *)
Definition LoadHashes (k : rkey) (d : db) : string * string :=
  match db_applied d !! k with
  | None => ("", "")
  | Some row => (mr_input_hash row, mr_refs_hash row)
  end.

Definition LoadHash (k : rkey) (d : db) : string := (LoadHashes k d).1.

(** [LoadWithTime]; the time is the stored text. *)
Definition LoadWithTime (k : rkey) (d : db) : result store_error (option (resource * string)) :=
  match db_applied d !! k with
  | None => Ok None
  | Some row =>
      match mr_spec row with
      | JBad => Err ErrDecodeSpec
      | _ =>
          let spec := match mr_spec row with JText s => s | _ => None end in
          let md := match mr_meta row with
                    | JText md => md
                    | _ => ResourceMetadata k.2 "" [] [] "" ""
                    end in
          Ok (Some (Resource k.1.1 k.1.2 md spec None, mr_applied_at row))
      end
  end.

Definition Load (k : rkey) (d : db) : result store_error (option resource) :=
  option_map fst <$> LoadWithTime k d.

(** [ListAll] *)
Record manifest_ref : Type := MkManifestRef {
  mref_key : rkey;
  mref_source : string;
}.

Definition applied_le (a b : rkey * manifest_row) : Prop := String.le (mr_applied_at a.2) (mr_applied_at b.2).
#[export] Instance applied_le_dec : RelDecision applied_le.
Proof. intros a b. unfold applied_le. apply _. Defined.

Definition ListAll (d : db) : list manifest_ref :=
  map (λ p, MkManifestRef p.1 (mr_source p.2)) (merge_sort applied_le (map_to_list (db_applied d))).

(** [ListNames] *)
Definition ListNames (apiVersion kind : string) (d : db) : gset string :=
  list_to_set (map (λ p : rkey * manifest_row, p.1.2)
    (filter (λ p, p.1.1 = (apiVersion, kind)) (map_to_list (db_applied d)))).

(** [Delete] *)
Definition Delete (k : rkey) (d : db) : db := set_applied d (delete k (db_applied d)).

(** [IsForgotten] *)
Definition IsForgotten (k : rkey) (d : db) : bool := negb (CheckNotForgotten d k).

(** ** Migration *)

(** [MigrationDigest]: the whole desired manifest, without the status. *)
Definition MigrationDigest (r : resource) : result migration_error string :=
  match json_digest (with_status r None) with
  | Some s => Ok s
  | None => Err ErrMigrationEncode
  end.

(** [validateMigrationResource] *)
Definition validateMigrationResource (r : resource) : result migration_error unit :=
  if decide (r_apiVersion r ≠ "proxmox.openctl.io/v1" ∨ r_kind r ≠ "VirtualMachine" ∨ r_name r = "")
  then Err ErrMigrationUnsupported
  else if decide (label "openctl.io/owner-kind" r ≠ "" ∨ label "openctl.io/owner-name" r ≠ "" ∨
                  label "openctl.io/cluster" r ≠ "" ∨ Collect (r_spec r) ≠ [])
  then Err ErrMigrationUnsupported
  else Ok tt.

(** [migrationIdle] *)
Definition migrationIdle (d : db) : result migration_error unit :=
  if existsb in_flight (db_ops d) then Err ErrMigrationBusy else Ok tt.

(** The checks [migrationStandalone] makes on another row. *)
Definition md_label (k : string) (md : resource_metadata) : string := default "" (assoc k (md_labels md)).

Definition standalone_row (r : resource) (p : rkey * manifest_row) : result migration_error unit :=
  if decide (p.1 = resource_key r) then Ok tt
  else
    match mr_spec p.2 with
    | JText spec =>
        if existsb (λ ref, bool_decide ((APIVersion ref, Kind ref, Name ref) = resource_key r)) (Collect spec)
        then Err ErrMigrationUnsupported
        else
          match mr_meta p.2 with
          | JEmpty => Ok tt
          | JBad => Err ErrMigrationDecode
          | JText md =>
              if decide (md_label "openctl.io/owner-kind" md = r_kind r ∧
                         md_label "openctl.io/owner-name" md = r_name r)
              then Err ErrMigrationUnsupported else Ok tt
          end
    | _ => Err ErrMigrationDecode
    end.

(** [migrationStandalone] *)
Definition migrationStandalone (r : resource) (d : db) : result migration_error unit :=
  _ ← validateMigrationResource r;
  if decide (is_Some (db_state d !! resource_key r)) then Err ErrMigrationUnsupported
  else _ ← mapR (standalone_row r) (map_to_list (db_applied d)); mret tt.

(** [loadMigrationManifest] *)
Definition loadMigrationManifest (k : rkey) (d : db) : result migration_error (option resource) :=
  match db_applied d !! k with
  | None => Ok None
  | Some row =>
      match mr_spec row, mr_meta row with
      | JText spec, JEmpty =>
          Ok (Some (Resource k.1.1 k.1.2 (ResourceMetadata k.2 "" [] [] "" "") spec None))
      | JText spec, JText md => Ok (Some (Resource k.1.1 k.1.2 md spec None))
      | _, _ => Err ErrMigrationDecode
      end
  end.

(** [migrationControllerID]: minted once; [fresh] is the random id. *)
Definition controller_id_key : string := "migration_controller_id".

Definition migrationControllerID (fresh : string) (d : db) : db * string :=
  match db_meta d !! controller_id_key with
  | Some id => (d, id)
  | None => (set_meta d (<[controller_id_key := fresh]> (db_meta d)), fresh)
  end.

Record MigrationSnapshot : Type := MkSnapshot {
  snap_controller : string; snap_digest : string; snap_resource : resource }.

(** [ExportMigration] *)
Definition ExportMigration (k : rkey) (fresh : string) (d : db) :
    result migration_error (db * MigrationSnapshot) :=
  _ ← migrationIdle d;
  if negb (CheckNotForgotten d k) then Err (ErrMigrationForgotten k)
  else
    o ← loadMigrationManifest k d;
    match o with
    | None => Err ErrMigrationNotFound
    | Some r =>
        _ ← migrationStandalone r d;
        let '(d', id) := migrationControllerID fresh d in
        dg ← MigrationDigest r;
        mret (d', MkSnapshot id dg r)
    end.

Definition store_to_migration {A} (x : result store_error A) : result migration_error A :=
  map_err (λ _, ErrMigrationEncode) x.

(** [Adopt] *)
Definition Adopt (r : resource) (now : string) (d : db) : result migration_error db :=
  _ ← validateMigrationResource r;
  _ ← migrationIdle d;
  _ ← migrationStandalone r d;
  old ← loadMigrationManifest (resource_key r) d;
  _ ← match old with
      | None => Ok tt
      | Some old =>
          oldDigest ← MigrationDigest old;
          newDigest ← MigrationDigest r;
          if decide (oldDigest = newDigest) then Ok tt else Err ErrMigrationConflict
      end;
  store_to_migration
    (saveManifest r "" SourceCLI now (set_releases d (delete (resource_key r) (db_releases d)))).

(** [Forget] *)
Definition Forget (r : resource) (controllerID dg fresh now : string) (d : db) :
    result migration_error db :=
  _ ← validateMigrationResource r;
  actual ← MigrationDigest r;
  if decide (controllerID = "" ∨ dg = "" ∨ dg ≠ actual) then Err ErrMigrationConflict
  else
    _ ← migrationIdle d;
    let '(d1, id) := migrationControllerID fresh d in
    if decide (id ≠ controllerID) then Err ErrMigrationConflict
    else
      old ← loadMigrationManifest (resource_key r) d1;
      match old with
      | None =>
          match db_releases d1 !! resource_key r with
          | None => Err ErrMigrationNotFound
          | Some rel => if decide (rel_digest rel = dg) then Ok d1 else Err ErrMigrationConflict
          end
      | Some old =>
          current ← MigrationDigest old;
          if decide (current = dg) then
            _ ← migrationStandalone old d1;
            mret (set_applied
              (set_releases d1 (<[resource_key r := ReleaseRow dg now]> (db_releases d1)))
              (delete (resource_key r) (db_applied d1)))
          else Err ErrMigrationConflict
      end.

(** ** Provider state *)

Definition nilIfEmpty (b : option (list Byte.byte)) : option (list Byte.byte) :=
  match b with Some [] => None | _ => b end.

(** [LoadState]: a miss is the zero state. *)
Definition LoadState (k : rkey) (d : db) : option (list Byte.byte) * option (list Byte.byte) * Z :=
  match db_state d !! k with
  | None => (None, None, 0%Z)
  | Some row => (sr_state row, sr_private row, sr_version row)
  end.

(** [SaveState]; [None] is the required-fields error. *)
Definition SaveState (k : rkey) (st pv : option (list Byte.byte)) (version : Z) (now : string) (d : db) :
    option db :=
  if decide (k.1.1 = "" ∨ k.1.2 = "" ∨ k.2 = "") then None
  else Some (set_state d (<[k := StateRow (nilIfEmpty st) (nilIfEmpty pv) version now]> (db_state d))).

(** [DeleteState] *)
Definition DeleteState (k : rkey) (d : db) : db := set_state d (delete k (db_state d)).

(** ** Steps *)

Inductive store_event : Type :=
| EvSave | EvDelete | EvExport | EvAdopt (k : rkey) | EvForget (k : rkey) | EvState | EvOps.

(** One transaction of any component that writes the database. *)
Inductive store_step (s : Store) (d : db) : store_event → db → Prop :=
| step_save ctx r rh now d' : SaveWithRefsHash ctx r rh now d = Ok d' → store_step s d EvSave d'
| step_delete k : store_step s d EvDelete (Delete k d)
| step_export k fresh d' snap :
    ExportMigration k fresh d = Ok (d', snap) → store_step s d EvExport d'
| step_adopt r now d' : Adopt r now d = Ok d' → store_step s d (EvAdopt (resource_key r)) d'
| step_forget r id dg fresh now d' :
    Forget r id dg fresh now d = Ok d' → store_step s d (EvForget (resource_key r)) d'
| step_save_state k st pv v now d' : SaveState k st pv v now d = Some d' → store_step s d EvState d'
| step_delete_state k : store_step s d EvState (DeleteState k d)
| step_ops ops : op_step s d (set_ops d ops) → store_step s d EvOps (set_ops d ops).
End store.

(** ** Laws *)

Lemma bind_Ok {E A B} (m : result E A) (f : A → result E B) b :
  (m ≫= f) = Ok b ↔ ∃ a, m = Ok a ∧ f a = Ok b.
Proof.
  destruct m as [a|e]; simpl; split; try done.
  - intros H. by exists a.
  - by intros (a' & [= ->] & H).
  - by intros (a' & [=] & _).
Qed.

Lemma CheckNotForgotten_true d k : CheckNotForgotten d k = true ↔ db_releases d !! k = None.
Proof. apply bool_decide_eq_true. Qed.

Section store_laws.
Context (digest : value → string) (json_digest : resource → option string).

Abbreviation saveManifest := (saveManifest digest).
Abbreviation store_step := (store_step digest json_digest).
Abbreviation Adopt := (Adopt digest json_digest).
Abbreviation Forget := (Forget json_digest).

Lemma saveManifest_Ok r rh src now d d' :
  saveManifest r rh src now d = Ok d' →
  ∃ spec, encode_spec (r_spec r) = Ok spec ∧
    d' = set_applied d (<[resource_key r :=
      ManifestRow spec (JText (r_metadata r)) now (Hash_of digest r) rh src]> (db_applied d)).
Proof. unfold saveManifest. rewrite bind_Ok. intros (spec & H & [= <-]). by exists spec. Qed.

(** What saving needs and does. *)
Lemma SaveWithRefsHash_Ok ctx r rh now d d' :
  SaveWithRefsHash digest ctx r rh now d = Ok d' →
  ∃ r', r = Some r' ∧ db_releases d !! resource_key r' = None ∧
    saveManifest r' rh (SourceFromContext ctx) now d = Ok d'.
Proof.
  unfold SaveWithRefsHash. destruct r as [r'|]; [|done]. case_decide; [done|].
  destruct (CheckNotForgotten d (resource_key r')) eqn:E; [|done].
  apply CheckNotForgotten_true in E. eauto.
Qed.

Lemma migrationControllerID_tables fresh d d' id :
  migrationControllerID fresh d = (d', id) →
  db_ops d' = db_ops d ∧ db_applied d' = db_applied d ∧ db_releases d' = db_releases d ∧
  db_state d' = db_state d ∧ db_meta d' !! controller_id_key = Some id.
Proof.
  unfold migrationControllerID. destruct (db_meta d !! _) eqn:E; intros [= <- <-]; split_and!; try done.
  simpl. by rewrite lookup_insert_eq.
Qed.

(** What a successful [Adopt] went through. *)
Lemma Adopt_Ok r now d d' :
  Adopt r now d = Ok d' →
  validateMigrationResource r = Ok tt ∧ migrationIdle d = Ok tt ∧ migrationStandalone r d = Ok tt ∧
  saveManifest r "" SourceCLI now (set_releases d (delete (resource_key r) (db_releases d))) = Ok d'.
Proof.
  unfold Adopt. rewrite bind_Ok. intros ([] & H1 & H). rewrite bind_Ok in H.
  destruct H as ([] & H2 & H). rewrite bind_Ok in H. destruct H as ([] & H3 & H).
  rewrite bind_Ok in H. destruct H as (old & H4 & H). rewrite bind_Ok in H.
  destruct H as ([] & H5 & H). split_and!; try done.
  unfold store_to_migration in H. by destruct (ManifestStore.saveManifest _ _ _ _ _ _); simplify_eq/=.
Qed.

(** What a successful [Forget] went through: either the same release is being
    retried, or the current manifest is the one that was exported. *)
Lemma Forget_Ok r cid dg fresh now d d' :
  Forget r cid dg fresh now d = Ok d' →
  ∃ d1, validateMigrationResource r = Ok tt ∧ MigrationDigest json_digest r = Ok dg ∧
    cid ≠ "" ∧ dg ≠ "" ∧ migrationIdle d = Ok tt ∧ migrationControllerID fresh d = (d1, cid) ∧
    ((db_applied d !! resource_key r = None ∧ d' = d1 ∧
      ∃ rel, db_releases d !! resource_key r = Some rel ∧ rel_digest rel = dg) ∨
     (∃ old, loadMigrationManifest (resource_key r) d1 = Ok (Some old) ∧
        MigrationDigest json_digest old = Ok dg ∧ migrationStandalone old d1 = Ok tt ∧
        d' = set_applied
              (set_releases d1 (<[resource_key r := ReleaseRow dg now]> (db_releases d1)))
              (delete (resource_key r) (db_applied d1)))).
Proof.
  unfold Forget. rewrite bind_Ok. intros ([] & H1 & H). rewrite bind_Ok in H.
  destruct H as (actual & H2 & H). case_decide as Hd; [done|].
  assert (cid ≠ "" ∧ dg ≠ "" ∧ dg = actual) as (Hc & Hdg & <-).
  { split_and!; [tauto|tauto|]. destruct (decide (dg = actual)); tauto. }
  rewrite bind_Ok in H. destruct H as ([] & H3 & H).
  destruct (migrationControllerID fresh d) as [d1 id] eqn:E.
  destruct (migrationControllerID_tables _ _ _ _ E) as (_ & Ha & Hr & _ & _).
  case_decide as Hid; [done|].
  assert (id = cid) as -> by (destruct (decide (id = cid)); tauto).
  rewrite bind_Ok in H. destruct H as (old & H4 & H). exists d1. split_and!; try done.
  destruct old as [old|].
  - right. exists old. rewrite bind_Ok in H. destruct H as (cur & H5 & H).
    case_decide; [subst cur|done]. rewrite bind_Ok in H. destruct H as ([] & H6 & [= <-]). done.
  - left. rewrite <-Hr, <-Ha. unfold loadMigrationManifest in H4.
    destruct (db_applied d1 !! resource_key r); [by repeat case_match|].
    split; [done|]. destruct (db_releases d1 !! resource_key r) as [rel|]; [|done].
    case_decide; [|done]. injection H as <-. eauto.
Qed.

(** No resource is both managed and released. *)
Definition fence_inv (d : db) : Prop := ∀ k, is_Some (db_applied d !! k) → db_releases d !! k = None.

Lemma fence_inv_save r rh src now d d' :
  fence_inv d → db_releases d !! resource_key r = None →
  saveManifest r rh src now d = Ok d' → fence_inv d'.
Proof.
  intros Hinv Hr (spec & _ & ->)%saveManifest_Ok k. simpl.
  destruct (decide (k = resource_key r)) as [->|Hne]; [done|].
  rewrite lookup_insert_ne by done. apply Hinv.
Qed.

Lemma Export_Ok k fresh d d' snap :
  ExportMigration json_digest k fresh d = Ok (d', snap) →
  ∃ id, migrationControllerID fresh d = (d', id).
Proof.
  unfold ExportMigration. rewrite bind_Ok. intros ([] & _ & H).
  destruct (CheckNotForgotten d k); [|done]. simpl in H. rewrite bind_Ok in H.
  destruct H as ([r|] & _ & H); [|done]. rewrite bind_Ok in H. destruct H as ([] & _ & H).
  destruct (migrationControllerID fresh d) as [d1 id]. rewrite bind_Ok in H.
  destruct H as (dg & _ & [= <- <-]). eauto.
Qed.

Lemma fence_inv_step s d ev d' : fence_inv d → store_step s d ev d' → fence_inv d'.
Proof.
  intros Hinv Hs.
  destruct Hs as [ctx r rh now d' H|k|k fresh d' snap H|r now d' H|r id dg fresh now d' H
    |k st pv v now d' H|k|ops H].
  - apply SaveWithRefsHash_Ok in H as (r' & -> & Hr & H). by eapply fence_inv_save.
  - intros k' [x Hx]. simpl in *. apply lookup_delete_Some in Hx as [_ Hx]. by apply Hinv.
  - apply Export_Ok in H as [id H]. apply migrationControllerID_tables in H as (_ & Ha & Hr & _).
    unfold fence_inv. by rewrite Ha, Hr.
  - apply Adopt_Ok in H as (_ & _ & _ & H). eapply fence_inv_save; [| |exact H].
    + intros k Hk. simpl in *. rewrite lookup_delete_None. right. by apply Hinv.
    + simpl. by rewrite lookup_delete_eq.
  - apply Forget_Ok in H as (d1 & _ & _ & _ & _ & _ & E & H).
    apply migrationControllerID_tables in E as (_ & Ha & Hr & _).
    destruct H as [(_ & -> & _)|(old & _ & _ & _ & ->)]; unfold fence_inv; simpl.
    + by rewrite Ha, Hr.
    + rewrite Ha, Hr. intros k [x Hx]. apply lookup_delete_Some in Hx as [Hne Hx].
      rewrite lookup_insert_ne by done. apply Hinv. eauto.
  - unfold SaveState in H. case_decide; [done|]. injection H as <-. exact Hinv.
  - exact Hinv.
  - exact Hinv.
Qed.

Lemma fence_inv_empty d : db_applied d = ∅ → fence_inv d.
Proof. intros H k [x Hx]. by rewrite H, lookup_empty in Hx. Qed.

(** A released resource stays released under every step but its adoption. *)
Lemma release_step s d ev d' k :
  store_step s d ev d' → ev ≠ EvAdopt k → is_Some (db_releases d !! k) → is_Some (db_releases d' !! k).
Proof.
  intros Hs Hev Hk.
  destruct Hs as [ctx r rh now d' H|k'|k' fresh d' snap H|r now d' H|r id dg fresh now d' H
    |k' st pv v now d' H|k'|ops H]; try done.
  - apply SaveWithRefsHash_Ok in H as (r' & -> & _ & H). by apply saveManifest_Ok in H as (spec & _ & ->).
  - apply Export_Ok in H as [id H]. apply migrationControllerID_tables in H as (_ & _ & Hr & _).
    by rewrite Hr.
  - apply Adopt_Ok in H as (_ & _ & _ & H). apply saveManifest_Ok in H as (spec & _ & ->).
    simpl. rewrite lookup_delete_ne; [done|]. congruence.
  - apply Forget_Ok in H as (d1 & _ & _ & _ & _ & _ & E & H).
    apply migrationControllerID_tables in E as (_ & Ha & Hr & _).
    destruct H as [(_ & -> & _)|(old & _ & _ & _ & ->)]; simpl; rewrite Hr; [done|].
    destruct (decide (k = resource_key r)) as [->|Hne];
      [rewrite lookup_insert_eq|rewrite lookup_insert_ne by done]; eauto.
  - unfold SaveState in H. case_decide; [done|]. by injection H as <-.
Qed.
End store_laws.

(** ** Properties *)

(** C3: No resource is ever both managed and released: in every state reached
    from a database without manifests by any interleaving of saves, deletes,
    exports, adoptions, releases, provider-state writes and operation steps, a
    resource with an applied manifest has no release row. *)
Theorem managed_xor_released digest json_digest s d d' :
  db_applied d = ∅ → rtc (λ a b, ∃ ev, store_step digest json_digest s a ev b) d d' →
  ∀ k, is_Some (db_applied d' !! k) → db_releases d' !! k = None.
Proof.
  intros H0 Hr. change (fence_inv d'). apply fence_inv_empty in H0.
  induction Hr as [|a b c [ev Hs] _ IH]; [done|]. apply IH. by eapply fence_inv_step.
Qed.

Definition ex_digest (v : value) : string := "sha256".
Definition ex_json_digest (r : resource) : option string := Some (r_name r +:+ "-digest").
Definition ex_vm : resource :=
  Resource "proxmox.openctl.io/v1" "VirtualMachine" (ResourceMetadata "web" "" [] [] "" "")
    (Some [("cpu", VInt 4)]) None.

Definition ex_saved : db := ok_or (SaveWithRefsHash ex_digest "cli" (Some ex_vm) "rh" "t0" empty_db) empty_db.
Definition ex_forgotten : db := ok_or (Forget ex_json_digest ex_vm "ctl-1" "web-digest" "ctl-1" "t1" ex_saved) empty_db.

Lemma ex_saved_step : store_step ex_digest ex_json_digest example_store empty_db EvSave ex_saved.
Proof. apply (step_save _ _ _ _ "cli" (Some ex_vm) "rh" "t0"), ok_or_ok. vm_compute. reflexivity. Qed.

Lemma ex_forget_ok : Forget ex_json_digest ex_vm "ctl-1" "web-digest" "ctl-1" "t1" ex_saved = Ok ex_forgotten.
Proof. apply ok_or_ok. vm_compute. reflexivity. Qed.

Lemma managed_xor_released_witness :
  is_Some (db_applied ex_saved !! resource_key ex_vm) ∧ db_releases ex_saved !! resource_key ex_vm = None.
Proof.
  assert (is_Some (db_applied ex_saved !! resource_key ex_vm)) as H by (eexists; vm_compute; reflexivity).
  split; [exact H|].
  apply (managed_xor_released ex_digest ex_json_digest example_store empty_db ex_saved);
    [reflexivity| |exact H].
  apply rtc_once. exists EvSave. exact ex_saved_step.
Defined.

(** C7: After a successful [Forget] the resource is fenced: until it is adopted
    again, whatever else happens, it has no applied manifest, every operation
    submitted for it is refused as forgotten and no manifest of it can be
    saved. *)
Theorem Forget_fences digest json_digest s r cid dg fresh now d d1 d2 :
  fence_inv d → Forget json_digest r cid dg fresh now d = Ok d1 →
  rtc (λ a b, ∃ ev, store_step digest json_digest s a ev b ∧ ev ≠ EvAdopt (resource_key r)) d1 d2 →
  db_applied d2 !! resource_key r = None ∧
  (∀ op id now', o_key op = resource_key r → o_type op ≠ "" →
     Submit s op id now' d2 = Err (ForgottenError (resource_key r))) ∧
  (∀ ctx r' rh now', resource_key r' = resource_key r →
     SaveWithRefsHash digest ctx (Some r') rh now' d2 = Err (ErrSaveForgotten (resource_key r))).
Proof.
  intros Hinv Hf Hr.
  assert (fence_inv d1) as Hinv1.
  { eapply (fence_inv_step digest json_digest s); [exact Hinv|]. by eapply step_forget. }
  pose proof (Forget_Ok json_digest _ _ _ _ _ _ _ Hf) as (d0 & Hv & _ & _ & _ & _ & E & Hcase).
  assert (is_Some (db_releases d1 !! resource_key r)) as Hrel.
  { destruct (migrationControllerID_tables _ _ _ _ E) as (_ & _ & Hrr & _).
    destruct Hcase as [(_ & -> & rel & Hrl & _)|(old & _ & _ & _ & ->)].
    - rewrite Hrr. eauto.
    - simpl. rewrite lookup_insert_eq. eauto. }
  assert (r_apiVersion r = "proxmox.openctl.io/v1" ∧ r_kind r = "VirtualMachine" ∧ r_name r ≠ "") as (Hav & Hk & Hn).
  { unfold validateMigrationResource in Hv. case_decide as Hd; [done|].
    destruct (decide (r_apiVersion r = "proxmox.openctl.io/v1")), (decide (r_kind r = "VirtualMachine")),
      (decide (r_name r = "")); tauto. }
  clear Hf Hcase Hinv E d0 Hv.
  assert (fence_inv d2 ∧ is_Some (db_releases d2 !! resource_key r)) as [Hinv2 Hrel2].
  { induction Hr as [|a b c (ev & Hs & Hev) _ IH]; [done|].
    apply IH; [by eapply fence_inv_step|by eapply release_step]. }
  assert (CheckNotForgotten d2 (resource_key r) = false) as Hc.
  { apply not_true_iff_false. rewrite CheckNotForgotten_true. by destruct Hrel2 as [x ->]. }
  split_and!.
  - destruct (db_applied d2 !! resource_key r) eqn:Ha; [|done].
    pose proof (Hinv2 (resource_key r) ltac:(eauto)). destruct Hrel2. congruence.
  - intros op id now' Hkey Htype. unfold Submit. rewrite Hkey. unfold resource_key at 1.
    rewrite decide_False; [by rewrite Hc|]. rewrite Hav, Hk. naive_solver.
  - intros ctx r' rh now' Hkey. unfold SaveWithRefsHash. rewrite decide_False; [by rewrite Hkey, Hc|].
    unfold resource_key in Hkey. injection Hkey as -> -> ->. rewrite Hav, Hk. naive_solver.
Qed.

Lemma fence_inv_ex_saved : fence_inv ex_saved.
Proof.
  eapply (fence_inv_step ex_digest ex_json_digest example_store); [|exact ex_saved_step].
  by apply fence_inv_empty.
Qed.

Lemma Forget_fences_witness :
  db_applied ex_forgotten !! resource_key ex_vm = None ∧
  Submit example_store (example_op "web") "op-1" "t2" ex_forgotten = Err (ForgottenError (resource_key ex_vm)).
Proof.
  destruct (Forget_fences ex_digest ex_json_digest example_store ex_vm "ctl-1" "web-digest" "ctl-1" "t1"
    ex_saved ex_forgotten ex_forgotten fence_inv_ex_saved ex_forget_ok) as (H1 & H2 & _).
  - apply rtc_refl.
  - split; [exact H1|]. apply H2; [reflexivity|discriminate].
Defined.

(** A release can be retried: repeating a [Forget] that succeeded succeeds
    again and changes nothing, so a caller that lost the answer may ask again;
    and it only ever drops a manifest whose digest is the exported one, so a
    stale bundle cannot relinquish newer intent. *)
Theorem Forget_retryable json_digest r cid dg fresh now fresh' now' d d1 :
  Forget json_digest r cid dg fresh now d = Ok d1 →
  Forget json_digest r cid dg fresh' now' d1 = Ok d1 ∧
  (∀ old, loadMigrationManifest (resource_key r) d = Ok (Some old) →
     MigrationDigest json_digest old = Ok dg).
Proof.
  intros (d0 & Hv & Hm & Hc & Hd & Hi & E & Hcase)%Forget_Ok.
  destruct (migrationControllerID_tables _ _ _ _ E) as (Ho & Ha & Hr & _ & Hid).
  assert (db_ops d1 = db_ops d ∧ db_meta d1 !! controller_id_key = Some cid ∧
    db_applied d1 !! resource_key r = None ∧
    ∃ rel, db_releases d1 !! resource_key r = Some rel ∧ rel_digest rel = dg) as (Ho1 & Hid1 & Ha1 & rel & Hr1 & Hrd).
  { destruct Hcase as [(Hn & -> & rel & Hrl & Hrd)|(old & _ & _ & _ & ->)].
    - split_and!; [done|done|by rewrite Ha|]. exists rel. by rewrite Hr.
    - simpl. rewrite lookup_delete_eq, lookup_insert_eq. split_and!; try done. eauto. }
  split.
  - unfold Forget. rewrite Hv. simpl. rewrite Hm. simpl. rewrite decide_False by tauto.
    unfold migrationIdle in *. rewrite Ho1. destruct (existsb in_flight (db_ops d)); [done|]. simpl.
    unfold migrationControllerID. rewrite Hid1. simpl. rewrite decide_False by tauto.
    unfold loadMigrationManifest. rewrite Ha1. simpl. rewrite Hr1. by rewrite decide_True.
  - intros old Hl. unfold loadMigrationManifest in Hl. rewrite <-Ha in Hl.
    destruct Hcase as [(Hn & _)|(old' & Hl' & Hdg & _)].
    + rewrite Ha, Hn in Hl. done.
    + unfold loadMigrationManifest in Hl'. rewrite Hl in Hl'. by injection Hl' as <-.
Qed.

Lemma Forget_retryable_witness :
  Forget ex_json_digest ex_vm "ctl-1" "web-digest" "ctl-9" "t9" ex_forgotten = Ok ex_forgotten ∧
  is_ok (Forget ex_json_digest ex_vm "ctl-1" "old-digest" "ctl-1" "t1" ex_saved) = false.
Proof.
  split; [|vm_compute; reflexivity].
  apply (Forget_retryable ex_json_digest ex_vm "ctl-1" "web-digest" "ctl-1" "t1" "ctl-9" "t9" ex_saved
    ex_forgotten ex_forget_ok).
Defined.

Lemma load_saved digest ctx r rh now d d' :
  SaveWithRefsHash digest ctx (Some r) rh now d = Ok d' →
  Load (resource_key r) d' =
    Ok (Some (Resource (r_apiVersion r) (r_kind r) (r_metadata r) (json_read_map <$> r_spec r) None)).
Proof.
  intros (r' & [= <-] & _ & H)%SaveWithRefsHash_Ok.
  apply saveManifest_Ok in H as (spec & Hs & ->).
  unfold Load, LoadWithTime. simpl. rewrite lookup_insert_eq. simpl.
  unfold encode_spec in Hs. destruct (r_spec r) as [m|]; [|by injection Hs as <-].
  destruct (json_ok (VMap m)); [|done]. by injection Hs as <-.
Qed.

(** What was saved is what is loaded: after a successful save the resource's
    row yields the manifest back with its metadata, its spec as JSON reads it
    (numbers as float64), no status, and both trace-cache hashes; every other
    resource's row is as before. *)
Theorem Save_Load digest ctx r rh now d d' :
  SaveWithRefsHash digest ctx (Some r) rh now d = Ok d' →
  Load (resource_key r) d' =
    Ok (Some (Resource (r_apiVersion r) (r_kind r) (r_metadata r) (json_read_map <$> r_spec r) None)) ∧
  LoadHashes (resource_key r) d' = (Hash digest (Some r), rh) ∧
  (∀ k, k ≠ resource_key r → Load k d' = Load k d ∧ LoadHashes k d' = LoadHashes k d).
Proof.
  intros Hsave. split; [exact (load_saved _ _ _ _ _ _ _ Hsave)|].
  apply SaveWithRefsHash_Ok in Hsave as (r' & [= <-] & _ & H).
  apply saveManifest_Ok in H as (spec & Hs & ->).
  unfold Load, LoadWithTime, LoadHashes. simpl. rewrite lookup_insert_eq. simpl. split.
  - done.
  - intros k Hk. by rewrite lookup_insert_ne by done.
Qed.

Lemma Save_Load_witness :
  Load (resource_key ex_vm) ex_saved =
    Ok (Some (Resource "proxmox.openctl.io/v1" "VirtualMachine" (r_metadata ex_vm)
      (Some [("cpu", VFloat (f64_of_Z 4))]) None)).
Proof.
  apply (Save_Load ex_digest "cli" ex_vm "rh" "t0" empty_db ex_saved), ok_or_ok.
  vm_compute. reflexivity.
Defined.
