(* ===== verification/Kahn.v ===== *)
(** Kahn's algorithm as the controller writes it three times (the task graph of
    an operation, the batch of pending operations, the offline plan): a map of
    unmet dependency counts, a map of dependents, and a worklist of nodes whose
    count has reached zero. The invariant [kahn_inv] and its step lemma are
    shared by the three. *)
From S2P Require Import Prelude Digraph.

(** A dependency graph: each node with the nodes it depends on, in order and
    with repetitions. *)
Abbreviation adj := (list (string * list string)).

Definition deps_of (g : adj) (x : string) : list string := default [] (assoc x g).

Definition dep_rel (g : adj) (x y : string) : Prop := y ∈ deps_of g x.

#[export] Instance dep_rel_dec g : RelDecision (dep_rel g).
Proof. intros x y. unfold dep_rel. apply _. Defined.

Definition occ (n : string) (l : list string) : nat := length (filter (λ y, y = n) l).

(** [dependents[n]]: every node once per dependency on [n]. *)
Definition dependents (g : adj) (n : string) : list string :=
  concat (map (λ p, repeat p.1 (occ n p.2)) g).

(** [indegree]: absent keys read as zero. *)
Abbreviation counts := (gmap string Z).
Definition count_of (m : counts) (x : string) : Z := default 0%Z (m !! x).

Definition init_counts (g : adj) : counts :=
  list_to_map (map (λ p, (p.1, Z.of_nat (length p.2))) g).

(** The loop [for _, d := range ds { indegree[d]--; if indegree[d] == 0 { append } }]. *)
Fixpoint decr_all (ds : list string) (m : counts) : counts * list string :=
  match ds with
  | [] => (m, [])
  | d :: ds' =>
      let c := (count_of m d - 1)%Z in
      let '(m', new) := decr_all ds' (<[d := c]> m) in
      (m', if decide (c = 0%Z) then d :: new else new)
  end.

Lemma occ_cons n d l : occ n (d :: l) = (if decide (d = n) then S (occ n l) else occ n l).
Proof. unfold occ. rewrite filter_cons. by case_decide. Qed.

Lemma occ_app n l1 l2 : occ n (l1 ++ l2) = occ n l1 + occ n l2.
Proof. unfold occ. by rewrite filter_app, length_app. Qed.

Lemma occ_zero n l : occ n l = 0 ↔ n ∉ l.
Proof.
  induction l as [|d l IH]; [split; [intros _; apply not_elem_of_nil|done]|].
  rewrite occ_cons, not_elem_of_cons. case_decide; naive_solver.
Qed.

Lemma occ_repeat n x k : occ n (repeat x k) = if decide (x = n) then k else 0.
Proof.
  induction k as [|k IH]; simpl; [by case_decide|]. rewrite occ_cons, IH. by case_decide.
Qed.

Lemma count_of_insert m d c x :
  count_of (<[d := c]> m) x = if decide (d = x) then c else count_of m x.
Proof.
  unfold count_of. case_decide; [subst; by rewrite lookup_insert_eq|by rewrite lookup_insert_ne].
Qed.

Lemma decr_all_spec ds m m' new :
  (∀ x, Z.of_nat (occ x ds) ≤ count_of m x ∨ x ∉ ds)%Z →
  decr_all ds m = (m', new) →
  (∀ x, count_of m' x = count_of m x - Z.of_nat (occ x ds))%Z ∧
  NoDup new ∧
  (∀ x, x ∈ new ↔ x ∈ ds ∧ count_of m x = Z.of_nat (occ x ds)).
Proof.
  revert m m' new; induction ds as [|d ds IH]; intros m m' new Hle; simpl.
  { intros [= <- <-]. split_and!; [intros x; simpl; unfold occ; simpl; lia|constructor|].
    intros x. split; [by intros ?%elem_of_nil|]. by intros [?%elem_of_nil _]. }
  destruct (decr_all ds _) as [m1 new1] eqn:E. intros [= <- <-].
  assert (Z.of_nat (occ d ds) + 1 ≤ count_of m d)%Z as Hd.
  { destruct (Hle d) as [H|H]; [|by destruct H; left].
    rewrite occ_cons, decide_True in H by done. lia. }
  apply IH in E as (Hc & Hnd & Hin).
  2: { intros x. rewrite count_of_insert. case_decide as Hx; [subst; left; lia|].
    destruct (Hle x) as [H|H]; [|apply not_elem_of_cons in H as [_ H]; by right].
    rewrite occ_cons, decide_False in H by done. by left. }
  assert (∀ x, count_of m1 x = count_of m x - Z.of_nat (occ x (d :: ds)))%Z as Hc'.
  { intros x. rewrite Hc, count_of_insert, occ_cons. case_decide; subst; lia. }
  assert (∀ x, x ∈ new1 ↔ x ∈ ds ∧ count_of m x = Z.of_nat (occ x (d :: ds))) as Hin'.
  { intros x. rewrite Hin, count_of_insert, occ_cons. case_decide; subst; [|done].
    split; (intros [? ?]; split; [done|]; lia). }
  split; [done|]. case_decide as Hz.
  - assert (d ∉ ds) as Hnot by (apply occ_zero; lia).
    assert (occ d ds = 0) as H0 by by apply occ_zero.
    split.
    + constructor; [|done]. rewrite Hin'. by intros [? _].
    + intros x. rewrite !elem_of_cons, Hin'. split; [|naive_solver].
      intros [->|[? ?]]; [|naive_solver]. split; [by left|].
      rewrite occ_cons, decide_True by done. lia.
  - split; [done|]. intros x. rewrite Hin', elem_of_cons. split; [naive_solver|].
    intros [[->|?] Hx]; [|done]. split; [|done].
    rewrite occ_cons, decide_True in Hx by done.
    destruct (decide (d ∈ ds)) as [Hi|Hi]; [done|]. apply occ_zero in Hi. lia.
Qed.

(** ** The invariant *)

Section kahn.
Context (g : adj).

(** Dependencies not among the processed nodes. *)
Definition unmet (done : list string) (x : string) : nat :=
  length (filter (λ y, y ∉ done) (deps_of g x)).

(** Node names are distinct and dependencies are nodes. *)
Definition adj_ok : Prop :=
  NoDup g.*1 ∧ ∀ x y, dep_rel g x y → y ∈ g.*1.

(** [pending]: on the worklist or being worked on. [processed], last first. *)
Record kahn_inv (m : counts) (pending processed : list string) : Prop := {
  ki_nodup : NoDup (pending ++ processed);
  ki_nodes : ∀ x, x ∈ pending ++ processed → x ∈ g.*1;
  ki_count : ∀ x, x ∈ g.*1 → count_of m x = Z.of_nat (unmet processed x);
  ki_ready : ∀ x, x ∈ g.*1 → unmet processed x = 0 ↔ x ∈ pending ++ processed;
  ki_order : ∀ l1 x l2, processed = l1 ++ x :: l2 → ∀ y, dep_rel g x y → y ∈ l2;
}.

Lemma unmet_zero done x : unmet done x = 0 ↔ ∀ y, dep_rel g x y → y ∈ done.
Proof.
  unfold unmet, dep_rel. rewrite length_zero_iff_nil. split.
  - intros H y Hy. destruct (decide (y ∈ done)) as [|Hn]; [done|].
    assert (y ∈ filter (λ y, y ∉ done) (deps_of g x)) as Hf by by apply list_elem_of_filter.
    rewrite H in Hf. by apply elem_of_nil in Hf.
  - intros H. apply filter_none, Forall_forall. intros y Hy Hn. by apply Hn, H.
Qed.

Lemma unmet_cons n done x :
  n ∉ done → unmet done x = unmet (n :: done) x + occ n (deps_of g x).
Proof.
  intros Hn. unfold unmet. induction (deps_of g x) as [|y l IH]; [done|].
  rewrite occ_cons, !filter_cons.
  destruct (decide (y = n)) as [->|Hne].
  - rewrite decide_True by done. rewrite decide_False by (rewrite not_elem_of_cons; tauto). simpl. lia.
  - destruct (decide (y ∉ done)) as [Hy|Hy].
    + rewrite decide_True by by apply not_elem_of_cons. simpl. lia.
    + rewrite decide_False by (rewrite not_elem_of_cons; tauto). done.
Qed.

Lemma occ_dependents n x : adj_ok → x ∈ g.*1 → occ x (dependents g n) = occ n (deps_of g x).
Proof.
  intros [Hnd _]. unfold dependents, deps_of. clear -Hnd.
  induction g as [|[k l] g' IH]; [by intros ?%elem_of_nil|].
  csimpl in *. apply NoDup_cons in Hnd as [Hk Hnd]. simpl. rewrite occ_app, occ_repeat.
  rewrite elem_of_cons. intros Hx. destruct (decide (x = k)) as [->|Hne].
  - rewrite decide_True by done. simpl.
    assert (occ k (concat (map (λ p, repeat p.1 (occ n p.2)) g')) = 0) as ->; [|lia].
    apply occ_zero. intros Hin. apply Hk.
    apply list_elem_of_In, in_concat in Hin as (l' & Hl & Hin).
    apply in_map_iff in Hl as ([k' l''] & <- & Hp). apply repeat_spec in Hin as ->.
    apply list_elem_of_fmap. exists (k', l''). split; [done|]. by apply list_elem_of_In.
  - rewrite decide_False by done. simpl. apply IH; [done|]. by destruct Hx.
Qed.

Lemma dependents_nodes n x : x ∈ dependents g n → x ∈ g.*1.
Proof.
  unfold dependents. intros Hin. apply list_elem_of_In, in_concat in Hin as (l & Hl & Hin).
  apply in_map_iff in Hl as ([k l'] & <- & Hp). apply list_elem_of_In in Hp.
  apply repeat_spec in Hin as ->. by apply (list_elem_of_fmap_2 fst) in Hp.
Qed.

(** [ds] lists the dependents of [n]: every node once per dependency on [n]. *)
Definition lists_dependents (ds : list string) (n : string) : Prop :=
  (∀ x, x ∈ ds → x ∈ g.*1) ∧ ∀ x, x ∈ g.*1 → occ x ds = occ n (deps_of g x).

Lemma dependents_list n : adj_ok → lists_dependents (dependents g n) n.
Proof. intros Hok. split; [apply dependents_nodes|]. intros x. by apply occ_dependents. Qed.

(** Processing a pending node. *)
Lemma kahn_step_gen ds m m' new n pending pending' processed :
  lists_dependents ds n → kahn_inv m pending processed → pending ≡ₚ n :: pending' →
  decr_all ds m = (m', new) →
  kahn_inv m' (pending' ++ new) (n :: processed).
Proof.
  intros [Hdsn Hdso] [Hnd Hnodes Hcount Hready Horder] Hp Hd.
  assert (n ∈ pending) as Hnp by (rewrite Hp; left).
  assert (n ∈ g.*1) as Hng by (apply Hnodes, elem_of_app; by left).
  assert (n ∉ processed) as Hnproc.
  { apply NoDup_app in Hnd as (_ & Hdisj & _). by apply Hdisj. }
  assert (∀ x, x ∈ g.*1 → unmet processed x = unmet (n :: processed) x + occ x (ds)) as Hun.
  { intros x Hx. rewrite Hdso by done. by apply unmet_cons. }
  apply decr_all_spec in Hd as (Hc & Hnn & Hin).
  2: { intros x. destruct (decide (x ∈ ds)) as [Hx|Hx]; [|by right]. left.
    apply Hdsn in Hx. rewrite Hcount, Hun by done. lia. }
  assert (∀ x, x ∈ new ↔ x ∈ g.*1 ∧ unmet (n :: processed) x = 0 ∧ x ∉ pending ++ processed) as Hnew.
  { intros x. rewrite Hin. split.
    - intros [Hx Hcx]. pose proof (Hdsn _ Hx) as Hg. pose proof (Hun x Hg) as Hux.
      rewrite Hcount in Hcx by done. split_and!; [done|lia|]. rewrite <-Hready by done.
      assert (occ x (ds) ≠ 0) by (by intros H0%occ_zero). lia.
    - intros (Hg & H0 & Hnot). pose proof (Hun x Hg) as Hux. rewrite <-Hready in Hnot by done.
      split; [|rewrite Hcount by done; lia].
      destruct (decide (x ∈ ds)) as [|Hx]; [done|]. apply occ_zero in Hx. lia. }
  assert (∀ x, x ∈ pending ++ processed ↔ x = n ∨ x ∈ pending' ∨ x ∈ processed) as Hpp.
  { intros x. rewrite elem_of_app, Hp, elem_of_cons. tauto. }
  split.
  - assert (pending' ++ n :: processed ≡ₚ pending ++ processed) as Hq.
    { rewrite Hp. simpl. by rewrite Permutation_middle. }
    rewrite <-(assoc_L (++)). rewrite (Permutation_app_swap_app pending' new), Hq.
    apply NoDup_app. split; [done|]. split; [|done]. intros x Hx. by apply Hnew.
  - intros x. rewrite !elem_of_app, elem_of_cons. intros [[Hx|Hx]|[->|Hx]]; [| |done|].
    + apply Hnodes, Hpp. auto.
    + by apply Hnew.
    + apply Hnodes, Hpp. auto.
  - intros x Hx. rewrite Hc, Hcount, Hun by done. lia.
  - intros x Hx. rewrite !elem_of_app, elem_of_cons. split.
    + intros H0. destruct (decide (x ∈ pending ++ processed)) as [Hi|Hi].
      * apply Hpp in Hi. tauto.
      * left. right. by apply Hnew.
    + intros H. destruct (decide (x ∈ pending ++ processed)) as [Hi|Hi].
      * apply Hready in Hi; [|done]. rewrite Hun in Hi by done. lia.
      * rewrite Hpp in Hi. assert (x ∈ new) as Hxn by tauto. by apply Hnew in Hxn as (_ & ? & _).
  - intros [|z l1] x l2; simpl; intros [= -> ->] y Hy.
    + apply (proj1 (unmet_zero l2 x)); [|done]. apply Hready; [done|]. apply elem_of_app. by left.
    + by eapply Horder.
Qed.

Lemma kahn_step m m' new n pending pending' processed :
  adj_ok → kahn_inv m pending processed → pending ≡ₚ n :: pending' →
  decr_all (dependents g n) m = (m', new) →
  kahn_inv m' (pending' ++ new) (n :: processed).
Proof. intros Hok. apply kahn_step_gen. by apply dependents_list. Qed.

Lemma kahn_inv_perm m p p' processed : p ≡ₚ p' → kahn_inv m p processed → kahn_inv m p' processed.
Proof.
  intros Hp [H1 H2 H3 H4 H5]. split; try done.
  - by rewrite <-Hp.
  - intros x. rewrite <-Hp. apply H2.
  - intros x Hx. rewrite <-Hp. by apply H4.
Qed.

(** The start: counts are the numbers of dependencies. *)
Lemma init_count x : adj_ok → x ∈ g.*1 → count_of (init_counts g) x = Z.of_nat (length (deps_of g x)).
Proof.
  intros [Hnd _]. unfold count_of, init_counts, deps_of.
  clear -Hnd. induction g as [|[k l] g' IH]; [by intros ?%elem_of_nil|].
  csimpl in *. apply NoDup_cons in Hnd as [Hk Hnd]. rewrite elem_of_cons. intros Hx.
  destruct (decide (x = k)) as [->|Hne].
  - by rewrite lookup_insert_eq.
  - rewrite lookup_insert_ne by done. apply IH; [done|]. by destruct Hx.
Qed.

Lemma kahn_init pending :
  adj_ok → NoDup pending → (∀ x, x ∈ pending ↔ x ∈ g.*1 ∧ deps_of g x = []) →
  kahn_inv (init_counts g) pending [].
Proof.
  intros Hok Hnd Hp. rewrite <-(app_nil_r pending) in Hnd.
  assert (∀ x, unmet [] x = length (deps_of g x)) as Hu.
  { intros x. unfold unmet. f_equal. induction (deps_of g x) as [|y l IH]; [done|].
    rewrite filter_cons, decide_True by apply not_elem_of_nil. by rewrite IH. }
  split; try done.
  - intros x. rewrite app_nil_r, Hp. by intros [? _].
  - intros x Hx. by rewrite Hu, init_count.
  - intros x Hx. rewrite Hu, app_nil_r, Hp. rewrite length_zero_iff_nil. tauto.
  - intros [|] ?? [=].
Qed.

(** When the worklist is empty: everything was processed exactly when the graph
    has no cycle. *)
Lemma kahn_end_acyclic m processed :
  adj_ok → kahn_inv m [] processed → acyclic (dep_rel g) → processed ≡ₚ g.*1.
Proof.
  intros Hok Hinv Hac. apply NoDup_Permutation; [apply (ki_nodup _ _ _ Hinv)|apply Hok|].
  intros x. split; [apply (ki_nodes _ _ _ Hinv)|]. intros Hx.
  destruct (decide (x ∈ processed)) as [|Hn]; [done|].
  destruct (acyclic_sink (dep_rel g) (filter (λ y, y ∉ processed) g.*1) Hac).
  - intros Hf. assert (x ∈ filter (λ y, y ∉ processed) g.*1) as Hin by by apply list_elem_of_filter.
    rewrite Hf in Hin. by apply elem_of_nil in Hin.
  - intros z [Hz Hzg]%list_elem_of_filter.
    assert (unmet processed z ≠ 0) as Hu.
    { intros H0. apply (ki_ready _ _ _ Hinv) in H0; [|done]. by apply Hz. }
    destruct (decide (Exists (λ y, y ∉ processed) (deps_of g z))) as [He|He].
    + apply Exists_exists in He as (y & Hy & Hyn). exists y. split; [|done].
      apply list_elem_of_filter. split; [done|]. by apply (proj2 Hok z).
    + destruct Hu. apply unmet_zero. intros y Hy.
      destruct (decide (y ∈ processed)) as [|Hyn]; [done|]. destruct He.
      apply Exists_exists. by exists y.
Qed.

(** The worklist loop, first in first out; [ds n] lists the dependents of [n]. *)
Fixpoint worklist (ds : string → list string) (fuel : nat) (m : counts)
    (queue processed : list string) : list string * list string :=
  match fuel, queue with
  | S fuel', n :: queue' =>
      let '(m', new) := decr_all (ds n) m in
      worklist ds fuel' m' (queue' ++ new) (n :: processed)
  | _, _ => (queue, processed)
  end.

Lemma kahn_processed_le m pending processed :
  kahn_inv m pending processed → length pending + length processed ≤ length g.
Proof.
  intros Hinv. rewrite <-length_app, <-(length_fmap fst g).
  apply submseteq_length, NoDup_submseteq; [apply (ki_nodup _ _ _ Hinv)|apply (ki_nodes _ _ _ Hinv)].
Qed.

(** One iteration per node is enough to empty the queue. *)
Lemma worklist_spec ds fuel m queue processed :
  (∀ n, lists_dependents (ds n) n) → kahn_inv m queue processed →
  length g ≤ fuel + length processed →
  ∃ m' processed', worklist ds fuel m queue processed = ([], processed') ∧ kahn_inv m' [] processed'.
Proof.
  intros Hds. revert m queue processed; induction fuel as [|fuel IH]; intros m queue processed Hinv Hle; simpl.
  - pose proof (kahn_processed_le _ _ _ Hinv) as H.
    destruct queue as [|n q]; [by exists m, processed|]. simpl in H. lia.
  - destruct queue as [|n q]; [by exists m, processed|].
    destruct (decr_all (ds n) m) as [m' new] eqn:Hd.
    apply IH; [|simpl; lia]. eapply kahn_step_gen; [apply Hds|exact Hinv|done|done].
Qed.

(** The position of a node in the processing order. *)
Fixpoint position (x : string) (l : list string) : nat :=
  match l with
  | [] => 0
  | y :: l' => if decide (x = y) then length l else position x l'
  end.

Lemma position_le x l : position x l ≤ length l.
Proof. induction l as [|y l IH]; simpl; [done|]. case_decide; lia. Qed.

Lemma topo_acyclic processed :
  adj_ok → NoDup processed → processed ≡ₚ g.*1 →
  (∀ l1 x l2, processed = l1 ++ x :: l2 → ∀ y, dep_rel g x y → y ∈ l2) →
  acyclic (dep_rel g).
Proof.
  intros Hok Hnd Hp Hord. apply (ranked_acyclic _ (λ x, position x processed)).
  intros x y Hxy.
  assert (x ∈ processed) as Hx.
  { rewrite Hp. destruct (decide (x ∈ g.*1)) as [|Hn]; [done|]. exfalso.
    unfold dep_rel, deps_of in Hxy. apply assoc_None in Hn. rewrite Hn in Hxy.
    by apply elem_of_nil in Hxy. }
  apply list_elem_of_split in Hx as (l1 & l2 & Heq).
  pose proof (Hord _ _ _ Heq _ Hxy) as Hy. rewrite Heq in *. clear Hord Hp Heq Hxy.
  apply NoDup_app in Hnd as (_ & Hdisj & [Hx Hnd]%NoDup_cons).
  assert (position x (l1 ++ x :: l2) = S (length l2)) as ->.
  { induction l1 as [|z l1 IH]; simpl; [by rewrite decide_True|].
    rewrite decide_False; [|intros ->; apply (Hdisj z); by left].
    apply IH. intros w Hw. apply Hdisj. by right. }
  assert (position y (l1 ++ x :: l2) = position y l2) as ->.
  { induction l1 as [|z l1 IH]; simpl; [rewrite decide_False; [done|by intros ->]|].
    rewrite decide_False; [|intros ->; apply (Hdisj z); [left|by right]].
    apply IH. intros w Hw. apply Hdisj. by right. }
  pose proof (position_le y l2). lia.
Qed.

Lemma kahn_end m processed :
  adj_ok → kahn_inv m [] processed → acyclic (dep_rel g) ↔ length processed = length g.
Proof.
  intros Hok Hinv. split.
  - intros Hac. rewrite (kahn_end_acyclic _ _ Hok Hinv Hac). by rewrite length_fmap.
  - intros Hlen. apply (topo_acyclic processed Hok).
    + apply (ki_nodup _ _ _ Hinv).
    + apply submseteq_length_Permutation.
      * apply NoDup_submseteq; [apply (ki_nodup _ _ _ Hinv)|apply (ki_nodes _ _ _ Hinv)].
      * rewrite length_fmap. lia.
    + apply (ki_order _ _ _ Hinv).
Qed.
End kahn.

(** ** Level by level *)

Lemma decr_all_app l1 l2 m :
  decr_all (l1 ++ l2) m =
    let '(m1, n1) := decr_all l1 m in let '(m2, n2) := decr_all l2 m1 in (m2, n1 ++ n2).
Proof.
  revert m; induction l1 as [|d l1 IH]; intros m; simpl; [by destruct (decr_all l2 m)|].
  rewrite IH. destruct (decr_all l1 _) as [m1 n1]. destruct (decr_all l2 m1) as [m2 n2].
  by case_decide.
Qed.

(** Processing a whole list of pending nodes. *)
Lemma kahn_steps g l rest m m' new processed :
  adj_ok g → kahn_inv g m (l ++ rest) processed →
  decr_all (concat (map (dependents g) l)) m = (m', new) →
  kahn_inv g m' (rest ++ new) (rev l ++ processed).
Proof.
  intros Hok. revert rest m m' new processed; induction l as [|n l IH]; intros rest m m' new processed; simpl.
  { intros Hinv [= <- <-]. by rewrite app_nil_r. }
  intros Hinv Hd. rewrite decr_all_app in Hd.
  destruct (decr_all (dependents g n) m) as [m1 n1] eqn:E1.
  destruct (decr_all (concat (map (dependents g) l)) m1) as [m2 n2] eqn:E2. injection Hd as <- <-.
  eapply kahn_step in Hinv; [|done|reflexivity|exact E1]. rewrite <-(assoc_L (++)) in Hinv.
  eapply IH in Hinv; [|exact E2]. by rewrite <-!(assoc_L (++)) in *.
Qed.

(** A partition into levels in which dependencies are in earlier levels. *)
Fixpoint levels_ok (g : adj) (before : list string) (levels : list (list string)) : Prop :=
  match levels with
  | [] => True
  | w :: ws => (∀ x y, x ∈ w → dep_rel g x y → y ∈ before) ∧ levels_ok g (before ++ w) ws
  end.

Lemma levels_ok_split g before ws1 w ws2 x y :
  levels_ok g before (ws1 ++ w :: ws2) → x ∈ w → dep_rel g x y → y ∈ before ++ concat ws1.
Proof.
  revert before; induction ws1 as [|w1 ws1 IH]; intros before; simpl.
  - intros [H _] Hx Hy. rewrite app_nil_r. by eapply H.
  - intros [_ H] Hx Hy. rewrite (assoc_L (++)). by eapply IH.
Qed.

Lemma levels_ok_perm g b1 b2 ws : (∀ x, x ∈ b1 → x ∈ b2) → levels_ok g b1 ws → levels_ok g b2 ws.
Proof.
  revert b1 b2; induction ws as [|w ws IH]; intros b1 b2 Hb; simpl; [done|].
  intros [H1 H2]. split; [intros x y Hx Hy; by eapply Hb, H1|].
  eapply IH; [|exact H2]. intros x. rewrite !elem_of_app. naive_solver.
Qed.
