(* ===== verification/Graph.v ===== *)
(** The task graph engine: [RunGraph] of
    src/internal/controller/operations/graph.go.

    The goroutines it starts report on a channel, so a run is a sequence of
    events chosen by the environment: which in-flight task finishes next, with
    what outcome, and whether the context is canceled when the loop looks. The
    scheduler's reaction to one event is [on_result]; [drain] is the receive
    loop over a sequence of events. *)
From S2P Require Import Prelude Digraph Kahn.

(** [Task]; what [Run] returns is decided by the events. *)
Record Task : Type := MkTask { ID : string; DependsOn : list string }.

Definition graph_of (tasks : list Task) : adj := map (λ t, (ID t, DependsOn t)) tasks.

Inductive graph_error (E : Type) : Type :=
| ErrDuplicate (id : string)
| ErrUnknownDep (id dep : string)
| ErrTask (id : string) (e : E)
| ErrCanceled
| ErrUnschedulable (n : nat) (stuck : list string).
Arguments ErrDuplicate {E} id.
Arguments ErrUnknownDep {E} id dep.
Arguments ErrTask {E} id e.
Arguments ErrCanceled {E}.
Arguments ErrUnschedulable {E} n stuck.

(** The first loop: a repeated id is refused. *)
Fixpoint first_dup (seen : list string) (ids : list string) : option string :=
  match ids with
  | [] => None
  | x :: ids' => if decide (x ∈ seen) then Some x else first_dup (x :: seen) ids'
  end.

(** The second loop: the first dependency on an unknown task. *)
Fixpoint first_unknown (ids : list string) (tasks : list Task) : option (string * string) :=
  match tasks with
  | [] => None
  | t :: tasks' =>
      match list_find (λ d, d ∉ ids) (DependsOn t) with
      | Some (_, d) => Some (ID t, d)
      | None => first_unknown ids tasks'
      end
  end.

Section graph.
Context {E : Type}.

(** The loop's variables; [g_done] lists the received results, last first, and
    the counter [completed] is its length. *)
Record gstate : Type := MkG {
  g_ready : list string;
  g_inflight : list string;
  g_done : list (string * option E);
  g_indegree : counts;
  g_stop : bool;
  g_err : option (string * E);
}.

(** A received result, and what [ctx.Err() != nil] then says. *)
Record gevent : Type := MkEv { ev_id : string; ev_err : option E; ev_canceled : bool }.

Context (concurrency : Z) (tasks : list Task).

Definition limit : nat := if (concurrency <? 1)%Z then 1 else Z.to_nat concurrency.

(** [fill] while [stopLaunch] is false. *)
Fixpoint fill (ready inflight : list string) : list string * list string :=
  match ready with
  | [] => ([], inflight)
  | id :: ready' =>
      if decide (length inflight < limit) then fill ready' (inflight ++ [id]) else (ready, inflight)
  end.

Definition setup : result (graph_error E) gstate :=
  match first_dup [] (map ID tasks) with
  | Some id => Err (ErrDuplicate id)
  | None =>
      match first_unknown (map ID tasks) tasks with
      | Some (id, dep) => Err (ErrUnknownDep id dep)
      | None =>
          let m := init_counts (graph_of tasks) in
          let ready := sort_strings (filter (λ id, count_of m id = 0%Z) (map ID tasks)) in
          Ok (MkG ready [] [] m false None)
      end
  end.

Definition launch_ready (st : gstate) : gstate :=
  let '(ready, inflight) := fill (g_ready st) (g_inflight st) in
  MkG ready inflight (g_done st) (g_indegree st) (g_stop st) (g_err st).

(** One iteration of the receive loop. *)
Definition on_result (ev : gevent) (st : gstate) : gstate :=
  let inflight := filter (λ x, x ≠ ev_id ev) (g_inflight st) in
  let dn := (ev_id ev, ev_err ev) :: g_done st in
  let err := match g_err st, ev_err ev with
             | None, Some e => Some (ev_id ev, e)
             | old, _ => old
             end in
  let stop := match ev_err ev with Some _ => true | None => g_stop st end in
  if stop || ev_canceled ev then MkG (g_ready st) inflight dn (g_indegree st) true err
  else
    let '(m, new) := decr_all (dependents (graph_of tasks) (ev_id ev)) (g_indegree st) in
    launch_ready (MkG (sort_strings (g_ready st ++ new)) inflight dn m false err).

(** The receive loop; [None]: the events are not a complete run. *)
Fixpoint drain (evs : list gevent) (st : gstate) : option gstate :=
  match g_inflight st, evs with
  | [], [] => Some st
  | _ :: _, ev :: evs' => if decide (ev_id ev ∈ g_inflight st) then drain evs' (on_result ev st) else None
  | _, _ => None
  end.

(** [stuckTasks] *)
Definition stuckTasks (m : counts) : list string :=
  sort_strings (filter (λ id, (0 < count_of m id)%Z) (map ID tasks)).

(** What is returned after the loop. *)
Definition verdict (st : gstate) (canceled : bool) : result (graph_error E) unit :=
  match g_err st with
  | Some (id, e) => Err (ErrTask id e)
  | None =>
      if canceled then Err ErrCanceled
      else if decide (length (g_done st) < length tasks)
      then Err (ErrUnschedulable (length tasks - length (g_done st)) (stuckTasks (g_indegree st)))
      else Ok tt
  end.

(** [RunGraph] against the context's state before the first launch, the events,
    and the context's state at the end. *)
Definition RunGraph (canceled0 : bool) (evs : list gevent) (canceled1 : bool) :
    option (result (graph_error E) unit) :=
  match setup with
  | Err e => Some (Err e)
  | Ok st =>
      if canceled0 then Some (Err ErrCanceled)
      else st' ← drain evs (launch_ready st); Some (verdict st' canceled1)
  end.

(** The states a run goes through. *)
Inductive g_reach : gstate → Prop :=
| reach_start st : setup = Ok st → g_reach (launch_ready st)
| reach_step st ev : g_reach st → ev_id ev ∈ g_inflight st → g_reach (on_result ev st).

(** The same states, with the events that led to them. *)
Inductive g_trace : list gevent → gstate → Prop :=
| trace_start st : setup = Ok st → g_trace [] (launch_ready st)
| trace_step evs st ev : g_trace evs st → ev_id ev ∈ g_inflight st → g_trace (evs ++ [ev]) (on_result ev st).
(** A task failed, or the context was seen canceled. *)
Definition disturbs (ev : gevent) : Prop := ev_err ev ≠ None ∨ ev_canceled ev = true.

(** ** Laws *)

Definition done_ids (st : gstate) : list string := map fst (g_done st).

Lemma first_dup_None seen ids : first_dup seen ids = None → NoDup ids ∧ ∀ x, x ∈ ids → x ∉ seen.
Proof.
  revert seen; induction ids as [|x ids IH]; intros seen; simpl.
  { split; [constructor|by intros ? ?%elem_of_nil]. }
  case_decide as Hx; [done|]. intros [Hnd Hn]%IH. split.
  - constructor; [|done]. intros Hin. apply (Hn x Hin). left.
  - intros y [->|Hy]%elem_of_cons; [done|]. intros Hs. apply (Hn y Hy). by right.
Qed.

Lemma first_unknown_None ids ts :
  first_unknown ids ts = None → Forall (λ t, Forall (λ d, d ∈ ids) (DependsOn t)) ts.
Proof.
  induction ts as [|t ts IH]; simpl; [constructor|].
  destruct (list_find _ _) as [[i d]|] eqn:F; [done|]. intros H. constructor; [|by apply IH].
  apply list_find_None in F. eapply Forall_impl; [exact F|]. intros d Hd.
  destruct (decide (d ∈ ids)) as [|Hn]; [done|by destruct (Hd Hn)].
Qed.

Lemma first_dup_NoDup seen ids :
  NoDup ids → (∀ x, x ∈ ids → x ∉ seen) → first_dup seen ids = None.
Proof.
  intros Hnd. revert seen; induction Hnd as [|x ids Hx _ IH]; intros seen Hs; simpl; [done|].
  rewrite decide_False by (apply Hs; left). apply IH. intros y Hy.
  rewrite not_elem_of_cons. split; [by intros ->|]. apply Hs. by right.
Qed.

Lemma first_unknown_closed ids ts :
  Forall (λ t, Forall (λ d, d ∈ ids) (DependsOn t)) ts → first_unknown ids ts = None.
Proof.
  induction 1 as [|t ts Ht _ IH]; simpl; [done|].
  assert (list_find (λ d, d ∉ ids) (DependsOn t) = None) as ->; [|done].
  apply list_find_None. eapply Forall_impl; [exact Ht|]. intros d Hd Hn. by apply Hn.
Qed.

Lemma graph_keys ts : (graph_of ts).*1 = map ID ts.
Proof. unfold graph_of. induction ts; simpl; by f_equal. Qed.

Lemma deps_of_graph ts x y :
  dep_rel (graph_of ts) x y → ∃ t, t ∈ ts ∧ ID t = x ∧ y ∈ DependsOn t.
Proof.
  unfold dep_rel, deps_of, graph_of. induction ts as [|t ts IH]; simpl; [by intros ?%elem_of_nil|].
  case_decide as Hx; simpl.
  - intros Hy. exists t. split; [left|done].
  - intros (t' & Ht & ?)%IH. exists t'. split; [by right|done].
Qed.

Lemma task_dep ts t y :
  NoDup (map ID ts) → t ∈ ts → y ∈ DependsOn t → dep_rel (graph_of ts) (ID t) y.
Proof.
  intros Hnd Ht Hy. unfold dep_rel, deps_of.
  rewrite (elem_assoc (ID t) (DependsOn t)); [done|by rewrite graph_keys|].
  unfold graph_of. apply list_elem_of_fmap. by exists t.
Qed.

Lemma setup_Ok st :
  setup = Ok st →
  adj_ok (graph_of tasks) ∧ g_inflight st = [] ∧ g_done st = [] ∧ g_stop st = false ∧ g_err st = None ∧
  kahn_inv (graph_of tasks) (g_indegree st) (g_ready st) [].
Proof.
  unfold setup. destruct (first_dup _ _) eqn:Hd; [done|].
  destruct (first_unknown _ _) as [[??]|] eqn:Hu; [done|]. intros [= <-].
  apply first_dup_None in Hd as [Hnd _]. apply first_unknown_None in Hu.
  assert (adj_ok (graph_of tasks)) as Hok.
  { split; [by rewrite graph_keys|]. intros x y (t & Ht & <- & Hy)%deps_of_graph.
    rewrite graph_keys. rewrite Forall_forall in Hu. specialize (Hu t Ht).
    rewrite Forall_forall in Hu. auto. }
  split_and!; try done. simpl. apply kahn_init; [done| |].
  - apply NoDup_sort_strings, NoDup_filter, Hnd.
  - intros x. rewrite elem_of_sort_strings, list_elem_of_filter, graph_keys. split.
    + intros [Hc Hx]. split; [done|]. rewrite init_count in Hc; [|done|by rewrite graph_keys].
      apply length_zero_iff_nil. lia.
    + intros [Hx Hd]. split; [|done]. rewrite init_count; [by rewrite Hd|done|by rewrite graph_keys].
Qed.

Lemma fill_spec ready inflight ready' inflight' :
  fill ready inflight = (ready', inflight') →
  (∃ launched, ready = launched ++ ready' ∧ inflight' = inflight ++ launched) ∧
  (length inflight ≤ limit → length inflight' ≤ limit) ∧
  (ready' = [] ∨ limit ≤ length inflight').
Proof.
  revert inflight; induction ready as [|id ready IH]; intros inflight; simpl.
  { intros [= <- <-]. split_and!; [exists []; split; [done|by rewrite app_nil_r]|done|by left]. }
  case_decide as Hl.
  - intros ((launched & -> & ->) & Hle & Hor)%IH. split_and!; [|intros _|done].
    + exists (id :: launched). by rewrite <-(assoc_L (++)).
    + apply Hle. rewrite length_app. simpl. lia.
  - intros [= <- <-]. split_and!; [exists []; split; [done|by rewrite app_nil_r]|done|right; lia].
Qed.

Lemma limit_pos : 0 < limit.
Proof. unfold limit. destruct (Z.ltb_spec concurrency 1); lia. Qed.

(** The invariant of the loop. *)
Record g_inv (st : gstate) : Prop := {
  gi_nodup : NoDup ((g_ready st ++ g_inflight st) ++ done_ids st);
  gi_tasks : ∀ x, x ∈ (g_ready st ++ g_inflight st) ++ done_ids st → x ∈ map ID tasks;
  gi_limit : length (g_inflight st) ≤ limit;
  gi_deps : ∀ x, x ∈ (g_ready st ++ g_inflight st) ++ done_ids st →
    ∀ y, dep_rel (graph_of tasks) x y → (y, None) ∈ g_done st;
  gi_running : g_stop st = false →
    kahn_inv (graph_of tasks) (g_indegree st) (g_ready st ++ g_inflight st) (done_ids st) ∧
    (g_ready st = [] ∨ limit ≤ length (g_inflight st));
  gi_ok : g_stop st = false → Forall (λ r, r.2 = None) (g_done st);
  gi_err : g_err st = None ↔ Forall (λ r, r.2 = None) (g_done st);
}.

Lemma launch_perm st :
  g_ready (launch_ready st) ++ g_inflight (launch_ready st) ≡ₚ g_ready st ++ g_inflight st.
Proof.
  unfold launch_ready. destruct (fill _ _) as [r i] eqn:F. simpl.
  apply fill_spec in F as ((l & Heq & Hi) & _ & _). rewrite Heq, Hi.
  rewrite (assoc_L (++)), (Permutation_app_comm _ l), (assoc_L (++)). done.
Qed.

Lemma launch_done st : g_done (launch_ready st) = g_done st.
Proof. unfold launch_ready. by destruct (fill _ _). Qed.

Lemma g_inv_launch st :
  adj_ok (graph_of tasks) → g_stop st = false → length (g_inflight st) ≤ limit →
  kahn_inv (graph_of tasks) (g_indegree st) (g_ready st ++ g_inflight st) (done_ids st) →
  Forall (λ r, r.2 = None) (g_done st) → g_err st = None → g_inv (launch_ready st).
Proof.
  intros Hadj Hs Hl Hk Hok He. pose proof (launch_perm st) as Hp.
  assert (∀ z, z ∈ done_ids st → (z, None) ∈ g_done st) as Hz.
  { intros z ([z' o] & -> & Hz)%list_elem_of_fmap. rewrite Forall_forall in Hok.
    pose proof (Hok _ Hz) as Ho. simpl in Ho. by subst. }
  assert (done_ids (launch_ready st) = done_ids st) as Hd by (unfold done_ids; by rewrite launch_done).
  split; rewrite ?Hd, ?launch_done.
  - rewrite Hp. apply (ki_nodup _ _ _ _ Hk).
  - intros x. rewrite Hp, <-graph_keys. apply (ki_nodes _ _ _ _ Hk).
  - unfold launch_ready. destruct (fill _ _) as [r i] eqn:F. simpl.
    apply fill_spec in F as (_ & Hle & _). auto.
  - intros x. rewrite Hp. intros Hx y Hy. apply Hz.
    pose proof (ki_nodes _ _ _ _ Hk x Hx) as Hg.
    apply (ki_ready _ _ _ _ Hk x Hg) in Hx. by apply (proj1 (unmet_zero _ _ _) Hx).
  - intros _. split.
    + eapply kahn_inv_perm; [symmetry; exact Hp|]. unfold launch_ready. by destruct (fill _ _).
    + unfold launch_ready. destruct (fill _ _) as [r i] eqn:F. simpl.
      by apply fill_spec in F as (_ & _ & ?).
  - done.
  - assert (g_err (launch_ready st) = None) as ->; [|done].
    unfold launch_ready. by destruct (fill _ _).
Qed.
Lemma filter_ne_perm (x : string) l : NoDup l → x ∈ l → x :: filter (λ y, y ≠ x) l ≡ₚ l.
Proof.
  induction l as [|z l IH]; [by intros _ ?%elem_of_nil|].
  intros [Hz Hnd]%NoDup_cons Hx. rewrite filter_cons. case_decide as Hzx.
  - rewrite (perm_swap z x). constructor. apply IH; [done|]. by apply elem_of_cons in Hx as [->|].
  - assert (z = x) as -> by (destruct (decide (z = x)); tauto). constructor.
    assert (filter (λ y, y ≠ x) l = l) as ->; [|done]. clear -Hz.
    induction l as [|w l IH]; [done|]. apply not_elem_of_cons in Hz as [Hwx Hz].
    rewrite filter_cons, decide_True by congruence. by rewrite IH.
Qed.

Lemma g_inv_nodup_inflight st : g_inv st → NoDup (g_inflight st).
Proof. intros H. pose proof (gi_nodup _ H) as Hn. by apply NoDup_app in Hn as [(_&_&?)%NoDup_app _]. Qed.

Lemma g_inv_start st : setup = Ok st → g_inv (launch_ready st).
Proof.
  intros (Hadj & Hi & Hd & Hs & He & Hk)%setup_Ok.
  apply g_inv_launch; rewrite ?Hi, ?Hd; simpl; try done; [lia|].
  rewrite app_nil_r. unfold done_ids. by rewrite Hd.
Qed.

Lemma g_inv_step ev st :
  adj_ok (graph_of tasks) → g_inv st → ev_id ev ∈ g_inflight st → g_inv (on_result ev st).
Proof.
  intros Hadj Hinv Hin.
  pose proof (filter_ne_perm (ev_id ev) (g_inflight st) (g_inv_nodup_inflight _ Hinv) Hin) as Hp.
  set (fl := filter (λ x, x ≠ ev_id ev) (g_inflight st)) in *.
  assert (length fl ≤ length (g_inflight st)) as Hfl by (rewrite <-Hp; simpl; lia).
  assert ((g_ready st ++ fl) ++ ev_id ev :: done_ids st ≡ₚ (g_ready st ++ g_inflight st) ++ done_ids st) as Hq.
  { rewrite <-!(assoc_L (++)). apply Permutation_app_head. rewrite <-Hp. simpl.
    by rewrite Permutation_middle. }
  destruct Hinv as [Hnd Hts Hlim Hdeps Hrun Hok Herr].
  unfold on_result. fold fl.
  set (stop := match ev_err ev with Some _ => true | None => g_stop st end).
  destruct (stop || ev_canceled ev) eqn:Hst.
  - split; unfold done_ids; simpl; fold (done_ids st); try done.
    + by rewrite Hq.
    + intros x. rewrite Hq. apply Hts.
    + lia.
    + intros x. rewrite Hq. intros Hx y Hy. apply elem_of_cons. right. by eapply Hdeps.
    + rewrite Forall_cons, <-Herr. simpl. destruct (g_err st), (ev_err ev); naive_solver.
  - apply orb_false_iff in Hst as [Hst Hcan]. unfold stop in Hst.
    destruct (ev_err ev) as [e|] eqn:Hev; [done|].
    destruct (Hrun Hst) as [Hk _]. specialize (Hok Hst).
    destruct (decr_all _ _) as [m new] eqn:Hd.
    assert (g_err st = None) as He by by apply Herr.
    eapply (kahn_step _ _ _ _ _ _ (g_ready st ++ fl)) in Hk; [|exact Hadj| |exact Hd].
    2: { rewrite <-Hp. by rewrite Permutation_middle. }
    apply g_inv_launch; simpl; try done.
    + lia.
    + eapply kahn_inv_perm; [|exact Hk]. rewrite sort_strings_perm, <-!(assoc_L (++)).
      apply Permutation_app_head, Permutation_app_comm.
    + by rewrite Forall_cons.
    + by rewrite He.
Qed.

Lemma setup_adj st : setup = Ok st → adj_ok (graph_of tasks).
Proof. by intros [? _]%setup_Ok. Qed.

Lemma g_reach_inv st : g_reach st → adj_ok (graph_of tasks) ∧ g_inv st.
Proof.
  induction 1 as [st H|st ev _ [Hadj IH] Hin].
  - split; [by eapply setup_adj|by apply g_inv_start].
  - split; [done|by apply g_inv_step].
Qed.

Lemma drain_reach evs st st' : g_reach st → drain evs st = Some st' → g_reach st' ∧ g_inflight st' = [].
Proof.
  revert st; induction evs as [|ev evs IH]; intros st Hr; simpl.
  - destruct (g_inflight st) eqn:EI; [|done]. by intros [= <-].
  - destruct (g_inflight st) eqn:EI; [done|]. rewrite <-EI. case_decide as Hcd; [|done].
    apply IH. by apply reach_step.
Qed.

(** Nothing is left to launch when the loop ends undisturbed. *)
Lemma g_inv_idle st : g_inv st → g_stop st = false → g_inflight st = [] → g_ready st = [].
Proof.
  intros Hinv Hs Hi. destruct (gi_running _ Hinv Hs) as [_ [?|Hl]]; [done|].
  rewrite Hi in Hl. simpl in Hl. pose proof limit_pos. lia.
Qed.

Lemma done_le st : g_inv st → length (g_ready st) + length (g_inflight st) + length (g_done st) ≤ length tasks.
Proof.
  intros Hinv.
  assert (length ((g_ready st ++ g_inflight st) ++ done_ids st) ≤ length (map ID tasks)) as H.
  { apply submseteq_length, NoDup_submseteq; [apply (gi_nodup _ Hinv)|apply (gi_tasks _ Hinv)]. }
  rewrite !length_app in H. unfold done_ids in H. by rewrite !length_map in H.
Qed.

Lemma on_result_done ev st : g_done (on_result ev st) = (ev_id ev, ev_err ev) :: g_done st.
Proof.
  unfold on_result. destruct (_ || _); [done|]. destruct (decr_all _ _). by rewrite launch_done.
Qed.

Lemma drain_done evs st st' : drain evs st = Some st' → length (g_done st') = length evs + length (g_done st).
Proof.
  revert st; induction evs as [|ev evs IH]; intros st; simpl.
  - destruct (g_inflight st); [by intros [= <-]|done].
  - destruct (g_inflight st) eqn:EI; [done|]. rewrite <-EI. case_decide as Hcd; [|done].
    intros H%IH. rewrite on_result_done in H. simpl in H. lia.
Qed.

(** The events as the environment makes them: [pick] chooses among what is in
    flight. *)
Fixpoint schedule (fuel : nat) (env : gstate → gevent) (st : gstate) : list gevent :=
  match fuel, g_inflight st with
  | S fuel', _ :: _ => let ev := env st in ev :: schedule fuel' env (on_result ev st)
  | _, _ => []
  end.

Lemma schedule_drains env st fuel :
  (∀ st, g_reach st → g_inflight st ≠ [] → ev_id (env st) ∈ g_inflight st) →
  g_reach st → length tasks ≤ fuel + length (g_done st) →
  ∃ st', drain (schedule fuel env st) st = Some st'.
Proof.
  intros Henv. revert st; induction fuel as [|fuel IH]; intros st Hr Hle; simpl.
  - pose proof (done_le st (proj2 (g_reach_inv _ Hr))) as H.
    destruct (g_inflight st) eqn:EI; [by exists st|]. simpl in H. lia.
  - destruct (g_inflight st) as [|x l] eqn:EI; [simpl; rewrite EI; by exists st|]. simpl. rewrite EI.
    assert (ev_id (env st) ∈ g_inflight st) as Hin by (apply Henv; [done|by rewrite EI]).
    rewrite <-EI, decide_True by done. apply IH; [by apply reach_step|].
    rewrite on_result_done. simpl. lia.
Qed.

(** Without failures and cancellation the loop never stops launching. *)
Lemma drain_undisturbed evs st st' :
  Forall (λ ev, ev_err ev = None ∧ ev_canceled ev = false) evs →
  g_stop st = false → drain evs st = Some st' → g_stop st' = false.
Proof.
  intros Hev. revert st; induction Hev as [|ev evs [H1 H2] _ IH]; intros st Hs; simpl.
  - destruct (g_inflight st); [by intros [= <-]|done].
  - destruct (g_inflight st) eqn:EI; [done|]. rewrite <-EI. case_decide as Hcd; [|done]. apply IH.
    unfold on_result. rewrite H1, H2, Hs. simpl. destruct (decr_all _ _) as [m new].
    unfold launch_ready. by destruct (fill _ _).
Qed.

Lemma launch_stop st : g_stop (launch_ready st) = g_stop st.
Proof. unfold launch_ready. by destruct (fill _ _). Qed.

Lemma g_trace_reach evs st : g_trace evs st → g_reach st.
Proof. induction 1; by constructor. Qed.
Lemma g_trace_done evs st : g_trace evs st → g_done st = reverse (map (λ ev, (ev_id ev, ev_err ev)) evs).
Proof.
  induction 1 as [st Hs|evs st ev _ IH _].
  - rewrite launch_done. by apply setup_Ok in Hs as (_ & _ & -> & _).
  - by rewrite on_result_done, IH, map_app, reverse_app.
Qed.
Lemma on_result_stop ev st : g_stop (on_result ev st) = true ↔ g_stop st = true ∨ disturbs ev.
Proof.
  unfold on_result, disturbs. destruct (ev_err ev) as [e|]; simpl; [by split; [right; left|]|].
  destruct (g_stop st), (ev_canceled ev); simpl; try naive_solver.
  destruct (decr_all _ _). rewrite launch_stop. simpl. naive_solver.
Qed.
Lemma g_trace_stop evs st : g_trace evs st → g_stop st = true ↔ Exists disturbs evs.
Proof.
  induction 1 as [st Hs|evs st ev _ IH _].
  - rewrite launch_stop. apply setup_Ok in Hs as (_ & _ & _ & -> & _). by rewrite Exists_nil.
  - rewrite on_result_stop, IH, Exists_app, Exists_cons, Exists_nil. tauto.
Qed.
Lemma stopped_launches_nothing ev st :
  g_stop st = true ∨ disturbs ev → g_inflight (on_result ev st) = filter (λ x, x ≠ ev_id ev) (g_inflight st).
Proof.
  unfold on_result, disturbs. intros Hd. destruct (ev_err ev) as [e|]; [done|]. simpl.
  destruct (g_stop st), (ev_canceled ev); naive_solver.
Qed.
End graph.
Arguments gstate : clear implicits.
Arguments gevent : clear implicits.

(** ** Properties *)

(** C1: At every moment of a run, whatever finishes when and with whatever
    outcome: at most [max 1 concurrency] tasks are running; no task is started
    twice; every running task's dependencies are among the tasks whose result was
    received without an error; and when a task fails or the context is seen
    canceled, nothing is started then or later: what is running can only finish. *)
Theorem RunGraph_safety {E} concurrency tasks evs (st : gstate E) :
  g_trace concurrency tasks evs st →
  (Z.of_nat (length (g_inflight st)) ≤ Z.max 1 concurrency)%Z ∧
  NoDup (g_inflight st ++ map ev_id evs) ∧
  (∀ t d, t ∈ tasks → ID t ∈ g_inflight st → d ∈ DependsOn t → ∃ ev, ev ∈ evs ∧ ev_id ev = d ∧ ev_err ev = None) ∧
  (∀ ev, ev_id ev ∈ g_inflight st → Exists disturbs (evs ++ [ev]) →
    g_inflight (on_result concurrency tasks ev st) = filter (λ x, x ≠ ev_id ev) (g_inflight st)).
Proof.
  intros Ht. pose proof (g_trace_done _ _ _ _ Ht) as Hd. destruct (g_reach_inv _ _ _ (g_trace_reach _ _ _ _ Ht)) as [Hadj Hinv]. split_and!.
  - pose proof (gi_limit _ _ _ Hinv) as Hl. unfold limit in Hl.
    destruct (Z.ltb_spec concurrency 1); lia.
  - pose proof (gi_nodup _ _ _ Hinv) as Hn. rewrite <-(assoc_L (++)) in Hn. apply NoDup_app in Hn as (_ & _ & Hn).
    unfold done_ids in Hn. rewrite Hd, <-fmap_reverse in Hn. eapply NoDup_Permutation_proper; [|exact Hn].
    apply Permutation_app_head. rewrite map_map. simpl. by rewrite reverse_Permutation.
  - intros t d Ht' Hi Hdep. assert ((d, None) ∈ g_done st) as Hin.
    { apply (gi_deps _ _ _ Hinv (ID t)); [rewrite !elem_of_app; auto|]. apply task_dep; [|done..]. rewrite <-graph_keys. apply Hadj. }
    rewrite Hd, elem_of_reverse in Hin. apply list_elem_of_fmap in Hin as (ev & [= -> He] & Hev). by exists ev.
  - intros ev _ Hx. apply stopped_launches_nothing. rewrite (g_trace_stop _ _ _ _ Ht).
    rewrite Exists_app, Exists_cons, Exists_nil in Hx. tauto.
Qed.

(** A diamond: c needs b1 and b2, which need a. *)
Definition ex_tasks : list Task :=
  [MkTask "c" ["b1"; "b2"]; MkTask "b2" ["a"]; MkTask "b1" ["a"]; MkTask "a" []].

Definition ex_start : gstate string :=
  match setup (E := string) ex_tasks with
  | Ok st => launch_ready 2 st | Err _ => MkG [] [] [] ∅ true None end.

Definition ex_events : list (gevent string) :=
  [MkEv "a" None false; MkEv "b2" None false; MkEv "b1" None false; MkEv "c" None false].

Definition ex_mid : gstate string := on_result 2 ex_tasks (MkEv "a" None false) ex_start.

Lemma ex_mid_trace : g_trace 2 ex_tasks [MkEv "a" None false] ex_mid.
Proof.
  apply (trace_step _ _ [] ex_start (MkEv "a" None false)); [|vm_compute; left].
  apply (trace_start 2 ex_tasks (match setup (E := string) ex_tasks with
    | Ok st => st | Err _ => MkG [] [] [] ∅ true None end)). vm_compute. reflexivity.
Qed.

Lemma RunGraph_safety_witness :
  g_inflight ex_mid = ["b1"; "b2"] ∧
  g_inflight (on_result 2 ex_tasks (MkEv "b2" (Some "boom") false) ex_mid) = ["b1"] ∧
  RunGraph 2 ex_tasks false ex_events false = Some (Ok tt) ∧
  RunGraph 2 ex_tasks false [MkEv "a" None false; MkEv "b2" (Some "boom") false; MkEv "b1" None false] false
    = Some (Err (ErrTask "b2" "boom")).
Proof.
  split; [vm_compute; reflexivity|]. split; [|split; vm_compute; reflexivity].
  destruct (RunGraph_safety 2 ex_tasks _ ex_mid ex_mid_trace) as (_ & _ & _ & H).
  rewrite (H (MkEv "b2" (Some "boom") false)); [vm_compute; reflexivity|vm_compute; right; left|].
  apply Exists_app. right. apply Exists_cons. by left; left.
Defined.

(** C24: A run always ends: whichever in-flight task the environment lets finish
    next, and however it answers, the receive loop is empty after at most one
    event per task. *)
Theorem RunGraph_terminates {E} concurrency tasks (st : gstate E) (env : gstate E → gevent E) :
  setup tasks = Ok st →
  (∀ s, g_reach concurrency tasks s → g_inflight s ≠ [] → ev_id (env s) ∈ g_inflight s) →
  let evs := schedule concurrency tasks (length tasks) env (launch_ready concurrency st) in
  length evs ≤ length tasks ∧
  ∃ st', drain concurrency tasks evs (launch_ready concurrency st) = Some st'.
Proof.
  intros Hset Henv evs.
  assert (g_done (launch_ready concurrency st) = []) as Hd.
  { rewrite launch_done. by apply setup_Ok in Hset as (_ & _ & -> & _). }
  destruct (schedule_drains concurrency tasks env (launch_ready concurrency st) (length tasks))
    as [st' H]; [done|by apply reach_start|lia|].
  split; [|by exists st']. pose proof (drain_done _ _ _ _ _ H) as Hl.
  destruct (drain_reach _ _ _ _ _ (reach_start _ _ _ Hset) H) as [Hr _].
  apply g_reach_inv in Hr as [_ Hinv]. apply done_le in Hinv. rewrite Hd in Hl. simpl in Hl.
  unfold evs. lia.
Qed.

Definition ex_env (s : gstate string) : gevent string :=
  MkEv (default "" (head (g_inflight s))) None false.

Lemma RunGraph_terminates_witness :
  ∃ st', drain 2 ex_tasks (schedule 2 ex_tasks 4 ex_env ex_start) ex_start = Some st' ∧
    done_ids st' = ["c"; "b2"; "b1"; "a"].
Proof.
  destruct (RunGraph_terminates 2 ex_tasks
    (match setup (E := string) ex_tasks with Ok st => st | Err _ => MkG [] [] [] ∅ true None end) ex_env)
    as [_ [st' H]].
  - vm_compute. reflexivity.
  - intros s _ Hs. unfold ex_env. simpl. destruct (g_inflight s); [done|left].
  - exists st'. split; [exact H|]. vm_compute in H. injection H as <-. vm_compute. reflexivity.
Defined.

Lemma run_verdict {E} concurrency tasks (st st' : gstate E) evs canceled1 :
  setup tasks = Ok st →
  drain concurrency tasks evs (launch_ready concurrency st) = Some st' →
  (verdict tasks st' canceled1 = Ok tt → ∀ t, t ∈ tasks → (ID t, None) ∈ g_done st') ∧
  (Forall (λ ev, ev_err ev = None ∧ ev_canceled ev = false) evs → canceled1 = false →
   (verdict tasks st' canceled1 = Ok tt ↔ acyclic (dep_rel (graph_of tasks))) ∧
   (verdict tasks st' canceled1 ≠ Ok tt →
    verdict tasks st' canceled1 =
      Err (ErrUnschedulable (length tasks - length (g_done st')) (stuckTasks tasks (g_indegree st'))))).
Proof.
  intros Hset Hdr.
  destruct (drain_reach _ _ _ _ _ (reach_start _ _ _ Hset) Hdr) as [Hr Hidle].
  apply g_reach_inv in Hr as [Hadj Hinv]. pose proof (done_le _ _ _ Hinv) as Hle.
  split.
  - unfold verdict. destruct (g_err st') as [[? ?]|] eqn:He; [done|].
    destruct canceled1; [done|]. case_decide as Hlt; [done|]. intros _ t Ht.
    assert (done_ids st' ≡ₚ map ID tasks) as Hp.
    { apply submseteq_length_Permutation.
      - apply NoDup_submseteq.
        + pose proof (gi_nodup _ _ _ Hinv) as Hn. by apply NoDup_app in Hn as (_ & _ & ?).
        + intros x Hx. apply (gi_tasks _ _ _ Hinv). apply elem_of_app. by right.
      - unfold done_ids. rewrite !length_map. lia. }
    assert (ID t ∈ done_ids st') as Hin by (rewrite Hp; by apply list_elem_of_fmap_2).
    apply list_elem_of_fmap in Hin as ([z o] & Hz & Hin). simpl in Hz. subst z.
    apply (gi_err _ _ _ Hinv) in He. rewrite Forall_forall in He.
    pose proof (He _ Hin) as Ho. simpl in Ho. by subst o.
  - intros Hev ->.
    assert (g_stop (launch_ready concurrency st) = false) as Hs0.
    { rewrite launch_stop. by apply setup_Ok in Hset as (_ & _ & _ & ? & _). }
    pose proof (drain_undisturbed _ _ _ _ _ Hev Hs0 Hdr) as Hs.
    pose proof (g_inv_idle _ _ _ Hinv Hs Hidle) as Hready.
    destruct (gi_running _ _ _ Hinv Hs) as [Hk _]. rewrite Hready, Hidle in Hk.
    assert (g_err st' = None) as He by (apply (gi_err _ _ _ Hinv), (gi_ok _ _ _ Hinv Hs)).
    unfold verdict. rewrite He.
    rewrite (kahn_end _ _ _ Hadj Hk). unfold done_ids, graph_of. rewrite !length_map.
    case_decide as Hlt; split; try done.
    + split; [done|]. lia.
    + split; [|done]. intros _. lia.
Qed.

(** What a complete run returns. Success means that every task completed
    and none failed. When no task fails and the context is never canceled, the
    run succeeds exactly when the dependencies have no cycle, and otherwise the
    error counts the tasks left over. *)
Theorem RunGraph_result {E} concurrency tasks (st st' : gstate E) evs canceled1 :
  setup tasks = Ok st →
  drain concurrency tasks evs (launch_ready concurrency st) = Some st' →
  (verdict tasks st' canceled1 = Ok tt → ∀ t, t ∈ tasks → (ID t, None) ∈ g_done st') ∧
  (Forall (λ ev, ev_err ev = None ∧ ev_canceled ev = false) evs → canceled1 = false →
   (verdict tasks st' canceled1 = Ok tt ↔ acyclic (dep_rel (graph_of tasks))) ∧
   (verdict tasks st' canceled1 ≠ Ok tt →
    verdict tasks st' canceled1 =
      Err (ErrUnschedulable (length tasks - length (g_done st')) (stuckTasks tasks (g_indegree st'))))).
Proof. apply run_verdict. Qed.

(** A cycle behind an independent task. *)
Definition ex_cyclic : list Task := [MkTask "a" []; MkTask "b" ["c"]; MkTask "c" ["b"]].

Lemma RunGraph_result_witness :
  acyclic (dep_rel (graph_of ex_tasks)) ∧
  RunGraph (E := string) 4 ex_cyclic false [MkEv "a" None false] false =
    Some (Err (ErrUnschedulable 2 ["b"; "c"])).
Proof.
  split; [|vm_compute; reflexivity].
  destruct (RunGraph_result 2 ex_tasks
    (match setup (E := string) ex_tasks with Ok st => st | Err _ => MkG [] [] [] ∅ true None end)
    (match drain 2 ex_tasks ex_events ex_start with Some st => st | None => ex_start end)
    ex_events false) as [_ H].
  - vm_compute. reflexivity.
  - vm_compute. reflexivity.
  - destruct (H ltac:(repeat constructor) eq_refl) as [Hok _]. apply Hok. vm_compute. reflexivity.
Defined.
