(* ===== verification/CrossOp.v ===== *)
(** Ordering work by its [$ref]s: the batch of pending operations
    (src/internal/controller/operations/crossop.go), the children of a composite
    (refgraph.go), and the offline plan of [openctl plan]
    (src/internal/plan/plan.go). *)
From S2P Require Import Prelude GoStrings GoValue Refs Digraph Kahn Db.

(** [os.Getenv] of the two variables; unset reads as the empty string. *)
Definition crossOpSchedulingEnabled (env : string) : bool :=
  negb (bool_decide (env ∈ ["0"; "false"; "FALSE"; "no"])).

Definition crossOpConcurrency (env : string) : Z :=
  match atoi env with
  | Some n => if (0 <? n)%Z then n else 4
  | None => 4
  end.

(** [resourceKey] and the [key] of the plan package. *)
Definition resourceKey (apiVersion kind name : string) : string :=
  apiVersion +:+ "|" +:+ kind +:+ "|" +:+ name.

Definition ref_target (r : Ref) : string := resourceKey (APIVersion r) (Kind r) (Name r).

Definition res_key (r : resource) : string := resourceKey (r_apiVersion r) (r_kind r) (r_name r).

(** The first loop of [crossOpEdges]: who applies what, and the specs. *)
Inductive edges_error : Type := ErrDecodeManifest (op_id : string).

Fixpoint collect_ops (ops : list Operation) (applier : list (string * string))
    (specs : list (string * gomap)) : result edges_error (list (string * string) * list (string * gomap)) :=
  match ops with
  | [] => Ok (applier, specs)
  | op :: ops' =>
      if decide (o_type op ≠ TypeApply) then collect_ops ops' applier specs
      else
        match o_manifest op with
        | JEmpty => collect_ops ops' applier specs
        | JBad => Err (ErrDecodeManifest (o_id op))
        | JText r =>
            collect_ops ops' (assoc_set (res_key r) (o_id op) applier)
              match r_spec r with
              | Some spec => assoc_set (o_id op) spec specs
              | None => specs
              end
        end
  end.

(** The inner loop over [refs.Collect(spec)]; [seen] as the code keeps it. *)
Fixpoint collect_deps (target : Ref → option string) (self : string) (seen : list string)
    (rs : list Ref) : list string :=
  match rs with
  | [] => []
  | r :: rs' =>
      match target r with
      | None => collect_deps target self seen rs'
      | Some dep =>
          if decide (dep = self ∨ dep ∈ seen) then collect_deps target self seen rs'
          else dep :: collect_deps target self (dep :: seen) rs'
      end
  end.

Definition sorted_deps (target : Ref → option string) (self : string) (spec : option gomap) : list string :=
  sort_strings (collect_deps target self [] (Collect spec)).

(** [crossOpEdges]; a Go map has no entry for an operation without
    dependencies. *)
Definition crossOpEdges (ops : list Operation) : result edges_error adj :=
  '(applier, specs) ← collect_ops ops [] [];
  mret (filter (λ p : string * list string, p.2 ≠ [])
    (map (λ p : string * gomap,
            (p.1, sorted_deps (λ r, assoc (ref_target r) applier) p.1 (Some p.2))) specs)).

(** [crossOpDependencyLabels] *)
Definition op_label_name (op : Operation) : string := (o_key op).1.2 +:+ "/" +:+ (o_key op).2.

Definition crossOpDependencyLabels (batch : list Operation) (edges : adj) : list (string * string) :=
  let desc := fold_left (λ m op, assoc_set (o_id op) (op_label_name op) m) batch [] in
  omap (λ p : string * list string,
    match omap (λ dep, assoc dep desc) p.2 with
    | [] => None
    | names => Some (p.1, "depends on " +:+ join ", " (sort_strings names))
    end) edges.

(** [crossOpAcyclic]: Kahn's algorithm, one iteration per id. *)
Definition crossOpAcyclic (ids : list string) (edges : adj) : bool :=
  let m := list_to_map (map (λ id, (id, Z.of_nat (length (deps_of edges id)))) ids) in
  let queue := filter (λ id, count_of m id = 0%Z) ids in
  let '(_, processed) := worklist (dependents edges) (length ids) m queue [] in
  bool_decide (length processed = length ids).

(** ** [refgraph.go] *)

Definition ChildKey (r : resource) : string := r_kind r +:+ "/" +:+ r_name r.

Definition RefChildEdges (children : list resource) : adj :=
  let present := map ChildKey children in
  fold_left (λ edges c,
    let key := ChildKey c in
    let target r := let dep := Kind r +:+ "/" +:+ Name r in
                    if decide (dep ∈ present) then Some dep else None in
    match sorted_deps target key (r_spec c) with
    | [] => edges
    | deps => assoc_set key deps edges
    end) children [].

(** ** [plan.go] *)

Record Node : Type := MkNode {
  n_resource : resource;
  n_deps : list string;
  n_external : list string;
}.

Definition Display (r : resource) : string := r_kind r +:+ "/" +:+ r_name r.

Inductive plan_error : Type :=
| ErrDuplicateResource (r : resource)
| ErrCycle (stuck : list string).

Definition Plan : Type := list (list Node).

(** [Count] *)
Definition Count (p : Plan) : nat := sum_list (map length p).

(** The first loop of [Build]: [nodes] and [order] are one list. *)
Fixpoint plan_nodes (resources : list (option resource)) (nodes : list (string * resource)) :
    result plan_error (list (string * resource)) :=
  match resources with
  | [] => Ok nodes
  | None :: rs => plan_nodes rs nodes
  | Some r :: rs =>
      match assoc (res_key r) nodes with
      | Some _ => Err (ErrDuplicateResource r)
      | None => plan_nodes rs (nodes ++ [(res_key r, r)])
      end
  end.

Section plan.
Context (nodes : list (string * resource)).

(** The keys a node depends on, and the labels of targets outside the set. *)
Definition dep_keys (k : string) (r : resource) : list string :=
  collect_deps (λ ref, if decide (ref_target ref ∈ nodes.*1) then Some (ref_target ref) else None)
    k [] (Collect (r_spec r)).

Fixpoint external_labels (k : string) (seen : list string) (rs : list Ref) : list string :=
  match rs with
  | [] => []
  | ref :: rs' =>
      if decide (ref_target ref = k ∨ ref_target ref ∈ nodes.*1) then external_labels k seen rs'
      else
        let disp := Kind ref +:+ "/" +:+ Name ref in
        if decide (disp ∈ seen) then external_labels k seen rs'
        else disp :: external_labels k (disp :: seen) rs'
  end.

Definition plan_graph : adj := map (λ p, (p.1, dep_keys p.1 p.2)) nodes.

Definition display_of (k : string) : string :=
  match assoc k nodes with Some r => Display r | None => "" end.

Definition node_of (k : string) : list Node :=
  match assoc k nodes with
  | Some r => [MkNode r (sort_strings (map display_of (dep_keys k r)))
                       (sort_strings (external_labels k [] (Collect (r_spec r))))]
  | None => []
  end.

Definition node_le (a b : Node) : Prop :=
  String.le (Display (n_resource a)) (Display (n_resource b)).
#[export] Instance node_le_dec : RelDecision node_le.
Proof. intros a b. unfold node_le. apply _. Defined.

(** The loop of [topoWaves]: one wave per iteration. The first frontier is in
    map iteration order; [sort.Strings] makes the next one independent of it. *)
Fixpoint waves_loop (fuel : nat) (m : counts) (frontier : list string) (remaining : nat) :
    list (list string) * counts * nat :=
  match fuel, frontier with
  | S fuel', _ :: _ =>
      let '(m', next) := decr_all (concat (map (dependents plan_graph) (sort_strings frontier))) m in
      let '(waves, m'', left_over) := waves_loop fuel' m' next (remaining - length frontier) in
      (frontier :: waves, m'', left_over)
  | _, _ => ([], m, remaining)
  end.

Definition wave_nodes (keys : list string) : list Node :=
  merge_sort node_le (concat (map node_of keys)).

(** [topoWaves] *)
Definition topoWaves : result plan_error Plan :=
  let m := init_counts plan_graph in
  let frontier := filter (λ k, count_of m k = 0%Z) (nodes.*1) in
  let '(waves, m', remaining) := waves_loop (length nodes) m frontier (length nodes) in
  if decide (0 < remaining)
  then Err (ErrCycle (sort_strings (map display_of (filter (λ k, (0 < count_of m' k)%Z) nodes.*1))))
  else Ok (map wave_nodes waves).
End plan.

(** [Build] *)
Definition Build (resources : list (option resource)) : result plan_error Plan :=
  nodes ← plan_nodes resources []; topoWaves nodes.

(** ** Laws *)

Lemma elem_of_collect_deps target self seen rs y :
  y ∈ collect_deps target self seen rs ↔ y ≠ self ∧ (y ∉ seen) ∧ ∃ r, r ∈ rs ∧ (target r) = Some y.
Proof.
  revert seen; induction rs as [|r rs IH]; intros seen; simpl.
  { split; [by intros ?%elem_of_nil|]. by intros (_ & _ & r & ?%elem_of_nil & _). }
  destruct (target r) as [dep|] eqn:Hr; [case_decide as Hd|]; rewrite ?elem_of_cons, IH.
  - split; intros (H1 & H2 & r' & H3 & H4); split_and!; try done.
    + exists r'. split; [by right|done].
    + apply elem_of_cons in H3 as [->|H3]; [|by exists r'].
      exfalso. rewrite Hr in H4. injection H4 as ->. tauto.
  - apply Decidable.not_or in Hd as [Hd1 Hd2]. split.
    + intros [->|(H1 & H2 & r' & H3 & H4)].
      * split_and!; [done..|]. exists r. split; [left|done].
      * rewrite not_elem_of_cons in H2. split_and!; [done|tauto|]. exists r'. split; [by right|done].
    + intros (H1 & H2 & r' & H3 & H4). destruct (decide (y = dep)) as [|Hne]; [by left|right].
      split_and!; [done|by apply not_elem_of_cons|].
      apply elem_of_cons in H3 as [->|H3]; [congruence|by exists r'].
  - split; intros (H1 & H2 & r' & H3 & H4); split_and!; try done.
    + exists r'. split; [by right|done].
    + apply elem_of_cons in H3 as [->|H3]; [congruence|by exists r'].
Qed.

Lemma NoDup_collect_deps target self seen rs : NoDup (collect_deps target self seen rs).
Proof.
  revert seen; induction rs as [|r rs IH]; intros seen; simpl; [constructor|].
  destruct (target r) as [dep|]; [|done]. case_decide; [done|]. constructor; [|done].
  rewrite elem_of_collect_deps. intros (_ & Hs & _). apply Hs. left.
Qed.

Lemma elem_of_sorted_deps target self spec y :
  y ∈ sorted_deps target self spec ↔ y ≠ self ∧ ∃ r, r ∈ Collect spec ∧ target r = Some y.
Proof.
  unfold sorted_deps. rewrite elem_of_sort_strings, elem_of_collect_deps.
  split; [by intros (? & _ & ?)|]. intros [? ?]. split_and!; try done. by apply not_elem_of_nil.
Qed.

(** The resource an operation applies, and its spec. *)
Definition op_applies (op : Operation) : option resource :=
  if decide (o_type op ≠ TypeApply) then None
  else match o_manifest op with JText r => Some r | _ => None end.

(** The last operation of the batch that applies the resource wins. *)
Fixpoint last_applier (ops : list Operation) (k : string) : option string :=
  match ops with
  | [] => None
  | op :: ops' =>
      match last_applier ops' k with
      | Some id => Some id
      | None => match op_applies op with
                | Some r => if decide (res_key r = k) then Some (o_id op) else None
                | None => None
                end
      end
  end.

Lemma last_applier_in ops k id : last_applier ops k = Some id → id ∈ map o_id ops.
Proof.
  induction ops as [|op ops IH]; simpl; [done|]. rewrite elem_of_cons.
  destruct (last_applier ops k) as [i|]; [intros [= ->]; auto|].
  destruct (op_applies op); [|done]. case_decide; [|done]. intros [= ->]. by left.
Qed.

Definition op_spec_of (op : Operation) : option gomap := r ← op_applies op; r_spec r.

Lemma collect_ops_applier ops applier specs applier' specs' :
  collect_ops ops applier specs = Ok (applier', specs') →
  ∀ k, assoc k applier' = match last_applier ops k with Some id => Some id | None => assoc k applier end.
Proof.
  revert applier specs; induction ops as [|op ops IH]; intros applier specs; simpl.
  { by intros [= -> ->]. }
  unfold op_applies. case_decide as Ht.
  - intros H k. rewrite (IH _ _ H). by destruct (last_applier ops k).
  - destruct (o_manifest op) as [| |r]; [| done|].
    + intros H k. rewrite (IH _ _ H). by destruct (last_applier ops k).
    + intros H k. rewrite (IH _ _ H). destruct (last_applier ops k); [done|].
      case_decide as Hk; [subst; by rewrite assoc_set_eq|by rewrite assoc_set_ne].
Qed.

Lemma collect_ops_specs ops applier specs applier' specs' :
  NoDup (map o_id ops) → (∀ x, x ∈ specs.*1 → x ∉ map o_id ops) → NoDup specs.*1 →
  collect_ops ops applier specs = Ok (applier', specs') →
  NoDup specs'.*1 ∧
  ∀ x spec, (x, spec) ∈ specs' ↔
    (x, spec) ∈ specs ∨ ∃ op, op ∈ ops ∧ o_id op = x ∧ op_spec_of op = Some spec.
Proof.
  revert applier specs; induction ops as [|op ops IH]; intros applier specs; simpl.
  { intros _ _ Hnd [= -> ->]. split; [done|]. intros x spec. split; [by left|].
    intros [?|(op & ?%elem_of_nil & _)]; done. }
  intros [Hop Hnd]%NoDup_cons Hsep Hspecs H.
  assert (∀ x, x ∈ specs.*1 → x ∉ map o_id ops) as Hsep'.
  { intros x Hx Hin. apply (Hsep x Hx). apply elem_of_cons. by right. }
  assert (op_spec_of op = None → collect_ops ops applier specs = Ok (applier', specs') ∨
      (∃ a, collect_ops ops a specs = Ok (applier', specs')) → NoDup specs'.*1 ∧
      ∀ x spec, (x, spec) ∈ specs' ↔ (x, spec) ∈ specs ∨
        ∃ op0, op0 ∈ op :: ops ∧ o_id op0 = x ∧ op_spec_of op0 = Some spec) as Hskip.
  { intros Hn Hc. assert (∃ a, collect_ops ops a specs = Ok (applier', specs')) as [a Ha].
    { destruct Hc as [?|?]; [by eexists|done]. }
    destruct (IH a specs Hnd Hsep' Hspecs Ha) as [H1 H2]. split; [done|].
    intros x spec. rewrite H2. split.
    - intros [?|(o & ? & ?)]; [by left|]. right. exists o. split; [by right|done].
    - intros [?|(o & Ho & Hid & Hs)]; [by left|]. right.
      apply elem_of_cons in Ho as [->|Ho]; [congruence|]. by exists o. }
  unfold op_spec_of, op_applies in Hskip. case_decide as Ht; [apply Hskip; auto|].
  destruct (o_manifest op) as [| |r] eqn:Hm; [apply Hskip; auto|done|]. simpl in Hskip.
  destruct (r_spec r) as [sp|] eqn:Hsp; [|apply Hskip; eauto]. clear Hskip.
  destruct (IH (assoc_set (res_key r) (o_id op) applier) (assoc_set (o_id op) sp specs) Hnd) as [H1 H2]; [| |exact H|].
  - intros x [->|Hx]%assoc_set_keys; [done|by apply Hsep'].
  - by apply assoc_set_NoDup.
  - split; [done|]. intros x spec. rewrite H2.
    assert (assoc (o_id op) specs = None) as Hnone.
    { apply assoc_None. intros Hin. apply (Hsep _ Hin). apply elem_of_cons. by left. }
    assert ((x, spec) ∈ assoc_set (o_id op) sp specs ↔ (x, spec) ∈ specs ∨ x = o_id op ∧ spec = sp) as ->.
    { clear -Hnone. induction specs as [|[k v] m IHm]; simpl in *.
      - rewrite list_elem_of_singleton, elem_of_nil. naive_solver.
      - case_decide; [done|]. rewrite !elem_of_cons, IHm by done. tauto. }
    assert (op_spec_of op = Some sp) as Hops.
    { unfold op_spec_of, op_applies. rewrite decide_False by tauto. by rewrite Hm. }
    split.
    + intros [[?|[-> ->]]|(o & ? & ?)]; [by left| |].
      * right. exists op. split; [left|done].
      * right. exists o. split; [by right|done].
    + intros [?|(o & Ho & Hid & Hs)]; [by left; left|].
      apply elem_of_cons in Ho as [->|Ho]; [left; right; split; congruence|].
      right. by exists o.
Qed.

(** A graph given by a list with distinct keys. *)
Lemma dep_rel_elem (g : adj) x y : NoDup g.*1 → dep_rel g x y ↔ ∃ deps, (x, deps) ∈ g ∧ y ∈ deps.
Proof.
  intros Hnd. unfold dep_rel, deps_of. split.
  - destruct (assoc x g) as [deps|] eqn:Hx; [|by intros ?%elem_of_nil].
    intros Hy. exists deps. split; [by apply assoc_elem|done].
  - intros (deps & Hx & Hy). by rewrite (elem_assoc x deps).
Qed.

Lemma filter_keys {V} (P : string * V → Prop) `{∀ p, Decision (P p)} (m : list (string * V)) :
  NoDup m.*1 → NoDup (filter P m).*1.
Proof.
  induction m as [|p m IH]; csimpl; [done|]. intros [Hp Hm]%NoDup_cons. rewrite filter_cons.
  case_decide; csimpl; [|by apply IH]. constructor; [|by apply IH].
  intros Hin. apply Hp. apply list_elem_of_fmap in Hin as (q & Heq & Hq).
  apply list_elem_of_filter in Hq as [_ Hq]. rewrite Heq. by apply list_elem_of_fmap_2.
Qed.

(** ** Properties *)

Lemma crossOpEdges_facts ops edges :
  NoDup (map o_id ops) → crossOpEdges ops = Ok edges →
  NoDup edges.*1 ∧
  (∀ x deps, (x, deps) ∈ edges →
     x ∈ map o_id ops ∧ deps ⊆ map o_id ops ∧ NoDup deps ∧ StronglySorted String.le deps) ∧
  (∀ x y, dep_rel edges x y ↔
     x ≠ y ∧ ∃ op spec ref, op ∈ ops ∧ o_id op = x ∧ op_spec_of op = Some spec ∧
       ref ∈ Collect (Some spec) ∧ last_applier ops (ref_target ref) = Some y).
Proof.
  intros Hnd. unfold crossOpEdges.
  destruct (collect_ops ops [] []) as [[applier specs]|] eqn:Hc; [|done]. intros [= <-].
  pose proof (collect_ops_applier _ _ _ _ _ Hc) as Happ.
  destruct (λ H1 H2, collect_ops_specs _ _ [] _ _ Hnd H1 H2 Hc) as [Hsn Hspecs].
  { by intros ? ?%elem_of_nil. }
  { constructor. }
  set (F := λ p : string * gomap, (p.1, sorted_deps (λ r, assoc (ref_target r) applier) p.1 (Some p.2))).
  assert (∀ r, assoc (ref_target r) applier = last_applier ops (ref_target r)) as Hl.
  { intros r. rewrite Happ. by destruct (last_applier ops (ref_target r)). }
  assert (∀ x deps, (x, deps) ∈ filter (λ p, p.2 ≠ []) (map F specs) ↔
    deps ≠ [] ∧ ∃ spec, (x, spec) ∈ specs ∧
      deps = sorted_deps (λ r, assoc (ref_target r) applier) x (Some spec)) as Hin.
  { intros x deps. rewrite list_elem_of_filter, list_elem_of_fmap. split.
    - intros [Hd ([z spec] & [= -> ->] & Hz)]. split; [done|]. by exists spec.
    - intros [Hd (spec & Hx & ->)]. split; [done|]. by exists (x, spec). }
  assert (NoDup (filter (λ p : string * list string, p.2 ≠ []) (map F specs)).*1) as Hkeys.
  { apply filter_keys. replace (map F specs).*1 with specs.*1; [done|].
    clear. induction specs; csimpl; by f_equal. }
  split_and!; [done| |].
  - intros x deps [_ (spec & Hx & ->)]%Hin.
    apply Hspecs in Hx as [?%elem_of_nil|(op & Hop & <- & _)]; [done|]. split_and!.
    + by apply list_elem_of_fmap_2.
    + intros y Hy. apply elem_of_sorted_deps in Hy as (_ & r & _ & Hr). rewrite Hl in Hr.
      by eapply last_applier_in.
    + apply NoDup_sort_strings, NoDup_collect_deps.
    + apply sort_strings_sorted.
  - intros x y. rewrite dep_rel_elem by done. split.
    + intros (deps & [_ (spec & Hx & ->)]%Hin & Hy).
      apply elem_of_sorted_deps in Hy as (Hne & r & Hr & Hrl).
      apply Hspecs in Hx as [?%elem_of_nil|(op & Hop & Hid & Hs)]; [done|].
      split; [done|]. exists op, spec, r. by rewrite <-Hl.
    + intros (Hne & op & spec & r & Hop & Hid & Hs & Hr & Hy).
      assert (y ∈ sorted_deps (λ r, assoc (ref_target r) applier) x (Some spec)) as Hys.
      { apply elem_of_sorted_deps. split; [done|]. exists r. by rewrite Hl. }
      eexists. split; [|exact Hys]. apply Hin. split; [by intros Heq; rewrite Heq in Hys; apply elem_of_nil in Hys|].
      exists spec. split; [|done]. apply Hspecs. right. by exists op.
Qed.

(** The edges derived from a batch: an operation depends on another exactly
    when its manifest holds a well-formed [$ref] to the resource the other one
    applies; never on itself and never on anything outside the batch. Each
    dependency list is sorted and without repetitions. *)
Theorem crossOpEdges_spec ops edges :
  NoDup (map o_id ops) → crossOpEdges ops = Ok edges →
  NoDup edges.*1 ∧
  (∀ x deps, (x, deps) ∈ edges →
     x ∈ map o_id ops ∧ deps ⊆ map o_id ops ∧ NoDup deps ∧ StronglySorted String.le deps) ∧
  (∀ x y, dep_rel edges x y ↔
     x ≠ y ∧ ∃ op spec ref, op ∈ ops ∧ o_id op = x ∧ op_spec_of op = Some spec ∧
       ref ∈ Collect (Some spec) ∧ last_applier ops (ref_target ref) = Some y).
Proof. apply crossOpEdges_facts. Qed.

Definition ex_ref_value (kind name : string) : value :=
  VMap [(RefMarker, VMap [("apiVersion", VStr "k3s.openctl.io/v1"); ("kind", VStr kind);
                          ("name", VStr name); ("field", VStr "status.ip")])].
Definition ex_resource (name : string) (spec : gomap) : resource :=
  Resource "k3s.openctl.io/v1" "K3sNode" (ResourceMetadata name "" [] [] "" "") (Some spec) None.
Definition ex_apply (id name : string) (spec : gomap) : Operation :=
  MkOperation id "" TypeApply ("k3s.openctl.io/v1", "K3sNode", name) "" (JText (ex_resource name spec))
    JEmpty StatusRunning "" "t" "" "" "cli".
Definition ex_batch : list Operation :=
  [ex_apply "op-w" "w-0" [("server", ex_ref_value "K3sNode" "cp-0"); ("other", ex_ref_value "K3sNode" "gone")];
   ex_apply "op-c" "cp-0" []].

Lemma crossOpEdges_spec_witness :
  crossOpEdges ex_batch = Ok [("op-w", ["op-c"])] ∧ dep_rel [("op-w", ["op-c"])] "op-w" "op-c" ∧
  "op-w" ≠ "op-c".
Proof.
  assert (crossOpEdges ex_batch = Ok [("op-w", ["op-c"])]) as H by (vm_compute; reflexivity).
  split; [exact H|].
  assert (dep_rel [("op-w", ["op-c"])] "op-w" "op-c") as Hd by (vm_compute; left).
  split; [exact Hd|].
  apply (crossOpEdges_spec ex_batch [("op-w", ["op-c"])]); [by_decide|exact H|exact Hd].
Defined.

(** ** Cycles *)

Definition batch_graph (ids : list string) (edges : adj) : adj := map (λ id, (id, deps_of edges id)) ids.

Lemma batch_graph_keys ids edges : (batch_graph ids edges).*1 = ids.
Proof. unfold batch_graph. induction ids; csimpl; by f_equal. Qed.

Lemma batch_graph_rel ids edges x y :
  (∀ x, x ∈ edges.*1 → x ∈ ids) → dep_rel (batch_graph ids edges) x y ↔ dep_rel edges x y.
Proof.
  intros Hk. unfold dep_rel, deps_of at 1.
  assert (assoc x (batch_graph ids edges) = if decide (x ∈ ids) then Some (deps_of edges x) else None) as ->.
  { clear Hk. induction ids as [|i ids IH]; simpl; [done|].
    destruct (decide (x = i)) as [->|Hne]; [by rewrite decide_True by left|].
    rewrite IH. destruct (decide (x ∈ ids)) as [Hi|Hi].
    - by rewrite decide_True by by right.
    - rewrite decide_False; [done|]. by apply not_elem_of_cons. }
  case_decide as Hx; [done|]. simpl. unfold deps_of.
  assert (assoc x edges = None) as ->; [|done]. apply assoc_None. intros Hin. by apply Hx, Hk.
Qed.

Lemma occ_dependents_all (edges : adj) n x :
  NoDup edges.*1 → occ x (dependents edges n) = occ n (deps_of edges x).
Proof.
  intros Hnd. destruct (decide (x ∈ edges.*1)) as [Hx|Hx].
  - revert Hnd Hx. unfold dependents, deps_of. induction edges as [|[k l] g' IH]; [by intros _ ?%elem_of_nil|].
    csimpl. intros [Hk Hnd]%NoDup_cons. rewrite occ_app, occ_repeat, elem_of_cons. intros Hx.
    destruct (decide (x = k)) as [->|Hne].
    + rewrite decide_True by done. simpl.
      assert (k ∉ dependents g' n) as H0%occ_zero by (intros Hin; apply Hk; by eapply dependents_nodes).
      unfold dependents in H0. lia.
    + rewrite decide_False by done. simpl. apply IH; [done|]. by destruct Hx.
  - assert (x ∉ dependents edges n) as H0%occ_zero by (intros Hin; apply Hx; by eapply dependents_nodes).
    rewrite H0. unfold deps_of. by rewrite (proj2 (assoc_None x edges) Hx).
Qed.

Lemma crossOpAcyclic_acyclic ids edges :
  NoDup ids → NoDup edges.*1 → (∀ x, x ∈ edges.*1 → x ∈ ids) →
  (∀ x y, dep_rel edges x y → y ∈ ids) →
  crossOpAcyclic ids edges = true ↔ acyclic (dep_rel edges).
Proof.
  intros Hids Hedges Hkeys Hdeps. set (g := batch_graph ids edges).
  assert (g.*1 = ids) as Hg by apply batch_graph_keys.
  assert (∀ x y, dep_rel g x y ↔ dep_rel edges x y) as Hrel by (intros x y; by apply batch_graph_rel).
  assert (adj_ok g) as Hok.
  { split; [by rewrite Hg|]. intros x y Hxy%Hrel. rewrite Hg. by eapply Hdeps. }
  assert (∀ x, x ∈ ids → deps_of g x = deps_of edges x) as Hd.
  { intros x Hx. unfold deps_of at 1. rewrite (elem_assoc x (deps_of edges x)); [done|by rewrite Hg|].
    unfold g, batch_graph. apply list_elem_of_fmap. by exists x. }
  assert (∀ n, lists_dependents g (dependents edges n) n) as Hds.
  { intros n. split.
    - intros x Hx%dependents_nodes. rewrite Hg. by apply Hkeys.
    - rewrite Hg. intros x Hx. rewrite Hd by done. by apply occ_dependents_all. }
  unfold crossOpAcyclic.
  assert (list_to_map (map (λ id, (id, Z.of_nat (length (deps_of edges id)))) ids) = init_counts g) as ->.
  { unfold init_counts, g, batch_graph. by rewrite map_map. }
  destruct (worklist_spec g (dependents edges) (length ids) (init_counts g)
    (filter (λ id, count_of (init_counts g) id = 0%Z) ids) []) as (m' & processed & -> & Hinv); [done| | |].
  - apply kahn_init; [done|by apply NoDup_filter|]. intros x. rewrite list_elem_of_filter, Hg.
    split; intros [H1 H2]; [split; [done|]|split; [|done]].
    + rewrite init_count in H1; [|done|by rewrite Hg]. apply length_zero_iff_nil. lia.
    + rewrite init_count; [by rewrite H2|done|by rewrite Hg].
  - unfold g, batch_graph. rewrite length_map. simpl. lia.
  - rewrite bool_decide_eq_true. pose proof (kahn_end g m' processed Hok Hinv) as He.
    assert (length g = length ids) as Hlen by (unfold g, batch_graph; by rewrite length_map).
    rewrite Hlen in He. rewrite <-He.
    split; intros Hac x Hx; apply (Hac x); revert Hx; apply tc_mono; intros a b; apply Hrel.
Qed.

(** C23: [crossOpAcyclic] decides the absence of dependency cycles, for a batch
    and edges among its operations, and one iteration per operation is enough;
    so the dispatcher falls back to unordered scheduling exactly for the batches
    whose [$ref]s form a cycle. *)
Theorem crossOpAcyclic_iff ids edges :
  NoDup ids → NoDup edges.*1 → (∀ x, x ∈ edges.*1 → x ∈ ids) →
  (∀ x y, dep_rel edges x y → y ∈ ids) →
  crossOpAcyclic ids edges = true ↔ acyclic (dep_rel edges).
Proof. apply crossOpAcyclic_acyclic. Qed.

Lemma crossOpAcyclic_iff_witness :
  acyclic (dep_rel [("op-w", ["op-c"])]) ∧
  crossOpAcyclic ["a"; "b"; "c"] [("a", ["b"]); ("b", ["c"]); ("c", ["a"])] = false.
Proof.
  split; [|vm_compute; reflexivity].
  apply (crossOpAcyclic_iff ["op-w"; "op-c"] [("op-w", ["op-c"])]); [by_decide|by_decide| | |].
  - intros x Hx. apply list_elem_of_singleton in Hx as ->. left.
  - intros x y Hxy. unfold dep_rel, deps_of in Hxy. simpl in Hxy. case_decide; simpl in Hxy.
    + apply list_elem_of_singleton in Hxy as ->. right. left.
    + by apply elem_of_nil in Hxy.
  - vm_compute. reflexivity.
Defined.

(** ** The offline plan *)

Lemma plan_nodes_Ok rs acc nodes :
  NoDup acc.*1 → plan_nodes rs acc = Ok nodes →
  NoDup nodes.*1 ∧ nodes = acc ++ map (λ r, (res_key r, r)) (omap id rs).
Proof.
  revert acc; induction rs as [|[r|] rs IH]; intros acc Hnd; simpl.
  - intros [= <-]. by rewrite app_nil_r.
  - destruct (assoc (res_key r) acc) eqn:Ha; [done|]. intros H.
    apply IH in H as [H1 ->].
    + split; [done|]. by rewrite <-(assoc_L (++)).
    + rewrite fmap_app. apply NoDup_app. split; [done|]. split; [|apply NoDup_singleton].
      intros x Hx ->%list_elem_of_singleton. by apply assoc_None in Ha.
  - by apply IH.
Qed.

Lemma plan_graph_keys nodes : (plan_graph nodes).*1 = nodes.*1.
Proof. unfold plan_graph. generalize (dep_keys nodes). intros f. induction nodes; csimpl; by f_equal. Qed.

Lemma plan_graph_rel nodes x y :
  NoDup nodes.*1 →
  dep_rel (plan_graph nodes) x y ↔
  ∃ r ref, assoc x nodes = Some r ∧ y ≠ x ∧ y ∈ nodes.*1 ∧ ref ∈ Collect (r_spec r) ∧ ref_target ref = y.
Proof.
  intros Hnd. rewrite dep_rel_elem by by rewrite plan_graph_keys. unfold plan_graph. split.
  - intros (deps & Hin & Hy). apply list_elem_of_fmap in Hin as ([k r] & [= -> ->] & Hin).
    simpl in Hy. unfold dep_keys in Hy. apply elem_of_collect_deps in Hy as (Hne & _ & ref & Hr & Ht).
    case_decide; [|done]. injection Ht as <-. exists r, ref. split_and!; try done. by apply elem_assoc.
  - intros (r & ref & Hx & Hne & Hy & Hr & <-). exists (dep_keys nodes x r). split.
    + apply list_elem_of_fmap. exists (x, r). split; [done|by apply assoc_elem].
    + apply elem_of_collect_deps. split_and!; [done|apply not_elem_of_nil|].
      exists ref. by rewrite decide_True.
Qed.

Lemma plan_graph_ok nodes : NoDup nodes.*1 → adj_ok (plan_graph nodes).
Proof.
  intros Hnd. split; [by rewrite plan_graph_keys|].
  intros x y (r & ref & _ & _ & Hy & _)%plan_graph_rel; [|done]. by rewrite plan_graph_keys.
Qed.

Lemma waves_loop_spec nodes fuel m frontier processed remaining waves m' left_over :
  adj_ok (plan_graph nodes) → kahn_inv (plan_graph nodes) m frontier processed →
  length nodes ≤ fuel + length processed →
  remaining = length nodes - length processed →
  waves_loop nodes fuel m frontier remaining = (waves, m', left_over) →
  ∃ processed', kahn_inv (plan_graph nodes) m' [] processed' ∧ processed' ≡ₚ concat waves ++ processed ∧
    left_over = length nodes - length processed' ∧ levels_ok (plan_graph nodes) processed waves.
Proof.
  intros Hok. revert m frontier processed remaining waves m' left_over;
    induction fuel as [|fuel IH]; intros m frontier processed remaining waves m' left_over Hinv Hf Hr; simpl.
  - pose proof (kahn_processed_le _ _ _ _ Hinv) as Hle. unfold plan_graph in Hle. rewrite length_map in Hle.
    intros [= <- <- <-]. destruct frontier; [|simpl in Hle; lia]. by exists processed.
  - destruct frontier as [|k fr]; [intros [= <- <- <-]; by exists processed|].
    set (front := k :: fr) in *.
    assert (0 < length front) as Hpos by (simpl; lia). clearbody front.
    destruct (decr_all _ m) as [m1 next] eqn:E1.
    destruct (waves_loop nodes fuel m1 next _) as [[ws m2] lo] eqn:E2. intros [= <- <- <-].
    assert (kahn_inv (plan_graph nodes) m1 ([] ++ next) (rev (sort_strings front) ++ processed)) as Hinv1.
    { eapply kahn_steps; [done| |exact E1]. rewrite app_nil_r.
      eapply kahn_inv_perm; [|exact Hinv]. by rewrite sort_strings_perm. }
    assert (rev (sort_strings front) ≡ₚ front) as Hp.
    { by rewrite <-Permutation_rev, sort_strings_perm. }
    assert (length (rev (sort_strings front) ++ processed) = length front + length processed) as Hl.
    { by rewrite length_app, Hp. }
    eapply IH in E2 as (pr & H1 & H2 & H3 & H4); [|exact Hinv1|lia|rewrite Hl; lia].
    exists pr. split_and!; [done| |done|].
    + rewrite H2, Hp. simpl. rewrite (assoc_L (++)), (Permutation_app_comm (concat ws) front). done.
    + simpl. split.
      * intros x y Hx Hy.
        assert (x ∈ front ++ processed) as Hin by (apply elem_of_app; by left).
        apply (ki_ready _ _ _ _ Hinv) in Hin; [|by apply (ki_nodes _ _ _ _ Hinv), elem_of_app; left].
        by apply (proj1 (unmet_zero _ _ _) Hin).
      * eapply levels_ok_perm; [|exact H4]. intros x. rewrite !elem_of_app, Hp. tauto.
Qed.

(** The keys of a node list and the nodes built from them. *)
Lemma node_of_resources nodes (keys : list string) :
  NoDup nodes.*1 → keys ⊆ nodes.*1 →
  map n_resource (concat (map (node_of nodes) keys)) = omap (λ k, assoc k nodes) keys.
Proof.
  intros Hnd Hk. induction keys as [|k keys IH]; simpl; [done|].
  destruct (assoc k nodes) as [r|] eqn:Hr.
  - unfold node_of at 1. rewrite Hr. simpl. f_equal. apply IH. intros x Hx. apply Hk. by right.
  - apply assoc_None in Hr. destruct Hr. apply Hk. left.
Qed.

Lemma omap_assoc_self {V} (nodes : list (string * V)) :
  NoDup nodes.*1 → omap (λ k, assoc k nodes) nodes.*1 = nodes.*2.
Proof.
  intros Hnd.
  assert (∀ l, (∀ p, p ∈ l → p ∈ nodes) → omap (λ k, assoc k nodes) l.*1 = l.*2) as H; [|by apply H].
  induction l as [|[k v] l IH]; csimpl; [done|]. intros Hl.
  rewrite (elem_assoc k v) by (done || apply Hl; left). f_equal. apply IH. intros p Hp. apply Hl. by right.
Qed.

Lemma topoWaves_spec nodes :
  NoDup nodes.*1 →
  ∃ waves, levels_ok (plan_graph nodes) [] waves ∧ concat waves ⊆ nodes.*1 ∧ NoDup (concat waves) ∧
    (topoWaves nodes = Ok (map (wave_nodes nodes) waves) ∧ concat waves ≡ₚ nodes.*1 ∧
       acyclic (dep_rel (plan_graph nodes)) ∨
     (∃ stuck, topoWaves nodes = Err (ErrCycle stuck)) ∧ ¬ acyclic (dep_rel (plan_graph nodes))).
Proof.
  intros Hnd. pose proof (plan_graph_ok nodes Hnd) as Hok. unfold topoWaves.
  destruct (waves_loop _ _ _ _ _) as [[waves m'] lo] eqn:E.
  eapply (waves_loop_spec _ _ _ _ []) in E as (pr & Hinv & Hp & Hlo & Hlev); [|done| |simpl; lia|simpl; lia].
  2: { apply kahn_init; [done|by apply NoDup_filter|]. intros x.
    rewrite list_elem_of_filter, plan_graph_keys. split; intros [H1 H2].
    - split; [done|]. rewrite init_count in H1; [|done|by rewrite plan_graph_keys].
      apply length_zero_iff_nil. lia.
    - split; [|done]. rewrite init_count; [by rewrite H2|done|by rewrite plan_graph_keys]. }
  rewrite app_nil_r in Hp. exists waves.
  pose proof (kahn_end _ _ _ Hok Hinv) as Hend.
  assert (length (plan_graph nodes) = length nodes) as Hlen by apply length_map. rewrite Hlen in Hend.
  assert (pr ⊆ nodes.*1) as Hsub.
  { intros x Hx. rewrite <-plan_graph_keys. by apply (ki_nodes _ _ _ _ Hinv). }
  pose proof (ki_nodup _ _ _ _ Hinv) as Hnp. simpl in Hnp.
  assert (length pr ≤ length nodes) as Hple.
  { rewrite <-Hlen. apply (kahn_processed_le _ _ _ _ Hinv). }
  assert (length pr = length nodes → concat waves ≡ₚ nodes.*1) as Hall.
  { intros Hl. rewrite <-Hp. apply submseteq_length_Permutation; [by apply NoDup_submseteq|].
    rewrite length_fmap. lia. }
  split_and!; [done| | |].
  - intros x. rewrite <-Hp. apply Hsub.
  - by rewrite <-Hp.
  - case_decide as Hd.
    + right. split; [by eexists|]. rewrite Hend. lia.
    + left. split; [done|]. rewrite Hend. split; [apply Hall|]; lia.
Qed.

(** A computed plan applies every given resource exactly once, in waves such
    that whatever a resource references among the others is in an earlier wave;
    and for resources with distinct identities a plan exists exactly when the
    references have no cycle. *)
Theorem Build_spec resources nodes :
  plan_nodes resources [] = Ok nodes →
  (acyclic (dep_rel (plan_graph nodes)) ↔ is_ok (Build resources) = true) ∧
  ∀ p, Build resources = Ok p →
    map n_resource (concat p) ≡ₚ omap id resources ∧
    ∀ ws1 w ws2 n ref, p = ws1 ++ w :: ws2 → n ∈ w → ref ∈ Collect (r_spec (n_resource n)) →
      ref_target ref ≠ res_key (n_resource n) → ref_target ref ∈ map res_key (omap id resources) →
      ∃ n', n' ∈ concat ws1 ∧ res_key (n_resource n') = ref_target ref.
Proof.
  intros Hn. destruct (plan_nodes_Ok _ [] _ NoDup_nil_2 Hn) as [Hnd Hnodes]. simpl in Hnodes.
  unfold Build. rewrite Hn. simpl.
  destruct (topoWaves_spec nodes Hnd) as (waves & Hlev & Hsub & Hnw & Hcase).
  assert (nodes.*2 = omap id resources) as H2.
  { rewrite Hnodes. generalize (omap id resources). induction l; csimpl; by f_equal. }
  assert (nodes.*1 = map res_key (omap id resources)) as H1.
  { rewrite Hnodes. generalize (omap id resources). induction l; csimpl; by f_equal. }
  assert (∀ k r, assoc k nodes = Some r → res_key r = k) as Hkey.
  { intros k r Hr%assoc_elem. rewrite Hnodes in Hr.
    by apply list_elem_of_fmap in Hr as (r' & [= -> ->] & _). }
  assert (∀ w n, n ∈ wave_nodes nodes w ↔ ∃ k, k ∈ w ∧ n ∈ node_of nodes k) as Hwn.
  { intros w n. unfold wave_nodes. rewrite merge_sort_Permutation.
    rewrite list_elem_of_In, in_concat. setoid_rewrite in_map_iff. setoid_rewrite <-list_elem_of_In.
    split; [intros (l & (k & <- & ?) & ?); eauto|intros (k & ? & ?); eauto]. }
  split.
  - destruct Hcase as [(-> & _ & Hac)|[[stuck ->] Hac]]; by split.
  - intros p Hp. destruct Hcase as [(Ht & Hall & _)|[[stuck Ht] _]]; [|congruence].
    rewrite Ht in Hp. injection Hp as <-. split.
    + rewrite <-H2, <-(omap_assoc_self nodes Hnd), <-Hall.
      rewrite <-node_of_resources by done. apply Permutation_map. clear.
      induction waves as [|w waves IH]; simpl; [done|].
      rewrite IH, map_app, concat_app. apply Permutation_app_tail. apply merge_sort_Permutation.
    + intros ws1 w ws2 n ref Hsplit Hnw' Href Hne Hin.
      apply map_eq_app in Hsplit as (l1 & l2 & -> & <- & Hl2).
      apply map_eq_cons in Hl2 as (wk & l3 & -> & <- & _).
      apply Hwn in Hnw' as (k & Hk & Hn').
      unfold node_of in Hn'. destruct (assoc k nodes) as [r|] eqn:Hr; [|by apply elem_of_nil in Hn'].
      apply list_elem_of_singleton in Hn' as ->. simpl in *.
      assert (dep_rel (plan_graph nodes) k (ref_target ref)) as Hdep.
      { apply plan_graph_rel; [done|]. exists r, ref. rewrite <-(Hkey k r Hr). split_and!; try done.
        - by rewrite (Hkey k r Hr).
        - by rewrite H1. }
      pose proof (levels_ok_split _ _ _ _ _ _ _ Hlev Hk Hdep) as Hbefore. simpl in Hbefore.
      assert (ref_target ref ∈ nodes.*1) as Htn by by rewrite H1.
      apply list_elem_of_fmap in Htn as ([k' r'] & Hk' & Hin'). simpl in Hk'. subst k'.
      assert (assoc (ref_target ref) nodes = Some r') as Hr' by by apply elem_assoc.
      exists (MkNode r' (sort_strings (map (display_of nodes) (dep_keys nodes (ref_target ref) r')))
        (sort_strings (external_labels nodes (ref_target ref) [] (Collect (r_spec r'))))).
      split; [|by apply Hkey].
      apply list_elem_of_In, in_concat in Hbefore as (wb & Hwb & Hb).
      apply list_elem_of_In, in_concat. exists (wave_nodes nodes wb). split; [by apply in_map|].
      apply list_elem_of_In, Hwn. exists (ref_target ref). split; [by apply list_elem_of_In|].
      unfold node_of. rewrite Hr'. left.
Qed.

Definition ex_plan_input : list (option resource) :=
  [Some (ex_resource "w-0" [("server", ex_ref_value "K3sNode" "cp-0")]); None; Some (ex_resource "cp-0" [])].

Definition ex_plan_nodes : list (string * resource) :=
  ok_or (plan_nodes ex_plan_input []) [].

Lemma Build_spec_witness :
  acyclic (dep_rel (plan_graph ex_plan_nodes)) ∧
  map (map (λ n, r_name (n_resource n))) (ok_or (Build ex_plan_input) []) = [["cp-0"]; ["w-0"]].
Proof.
  split; [|vm_compute; reflexivity].
  apply (Build_spec ex_plan_input ex_plan_nodes); vm_compute; reflexivity.
Defined.
