(* ===== verification/Registry.v ===== *)
(** The provider registry: src/internal/controller/providers/provider.go. A
    provider is third-party or vendor code behind an interface, so it is a
    record of functions on the state it may read and change; optional
    capabilities are optional fields. *)
From S2P Require Import Prelude GoStrings GoValue.
From Stdlib Require Import Ascii.

Definition GateAllowDestructive : string := "allow_destructive".
Definition GateIKnowThisBreaks : string := "i_know_this_breaks_the_cluster".
Definition LabelOwnerKind : string := "openctl.io/owner-kind".
Definition LabelOwnerName : string := "openctl.io/owner-name".

Record AdvancedKind : Type := MkAdvancedKind { ak_Kind : string; ak_OwnerKind : string; ak_Note : string }.

Record ResourceRef : Type := MkResourceRef { rr_APIVersion : string; rr_Kind : string; rr_Name : string }.

Record ActionParameter : Type := MkActionParameter {
  ap_Name : string; ap_Type : string; ap_Required : bool; ap_Description : string; ap_Default : string }.

Record ActionSpec : Type := MkActionSpec {
  as_Name : string; as_Description : string; as_Parameters : list ActionParameter }.

Record ActionResult : Type := MkActionResult {
  ar_Message : string; ar_URL : string; ar_DownloadContent : string; ar_DownloadFilename : string }.

Record ChildAction : Type := MkChildAction {
  ca_Verb : string; ca_Kind : string; ca_Name : string; ca_Detail : string }.

Record DryRunResult : Type := MkDryRunResult {
  dr_Children : list ChildAction; dr_RequiredGates : list string; dr_Summary : string }.

Section registry.
(** The state providers act on and the type of their errors. *)
Context {St PE : Type}.

Record Actioner : Type := MkActioner {
  act_Actions : string → list string;
  act_DoAction : string → string → string → St → result PE ActionResult * St;
  (** [ParameterizedActioner] *)
  act_DoActionWithParams :
    option (string → string → string → list (string * string) → St → result PE ActionResult * St);
  (** [ActionDescriber] *)
  act_ActionSpecs : option (string → list ActionSpec);
}.

(** [Provider] and its optional capabilities. *)
Record Provider : Type := MkProvider {
  p_Name : string;
  p_Kinds : list string;
  p_Apply : resource → St → result PE (option resource) * St;
  p_Get : string → string → St → result PE (option resource);
  p_List : string → St → result PE (list resource);
  p_Delete : string → string → St → result PE unit * St;
  p_DriftProjector : option (string → option gomap → option gomap → option gomap * option gomap);
  (** [Planner]: the children of a plan, [None] for a nil plan. *)
  p_Plan : option (resource → St → result PE (option (list resource)));
  (** [DryRunner] *)
  p_DryRun : option (resource → St → result PE (option DryRunResult));
  p_AdvancedKinds : option (list AdvancedKind);
  p_OwnerOf : option (string → string → option (string * string));
  p_ChildrenOf : option (string → string → list ResourceRef);
  p_Actioner : option Actioner;
  p_ObservedOnlyKinds : option (list string);
  (** [MigrationIdentityReader] (migration.go) *)
  p_MigrationIdentity : option (resource → St → result PE string);
}.

(** Whether [p.(Planner)] holds. *)
Definition p_Planner (p : Provider) : bool := match p_Plan p with Some _ => true | None => false end.

(** [DriftSpecs] *)
Definition DriftSpecs (p : Provider) (kind : string) (desired observed : option gomap) :
    option gomap * option gomap :=
  match p_DriftProjector p with
  | Some f => f kind desired observed
  | None => (desired, observed)
  end.

(** [Registry], in one iteration order of its map. *)
Abbreviation Registry := (list (string * Provider)).

Inductive registry_error : Type :=
| ErrInvalidAPIVersion (v : string)
| ErrNoProvider (v : string).

(** [Register]; [None] is the panic on a duplicate name. *)
Definition Register (p : Provider) (r : Registry) : option Registry :=
  match assoc (p_Name p) r with
  | Some _ => None
  | None => Some (assoc_set (p_Name p) p r)
  end.

(** [providerNameFromAPIVersion] *)
Definition providerNameFromAPIVersion (apiVersion : string) : string :=
  match index_byte "."%char apiVersion with
  | None | Some 0 => ""
  | Some dot => str_take dot apiVersion
  end.

(** [providerAPIVersion] *)
Definition providerAPIVersion (p : Provider) : string := p_Name p +:+ ".openctl.io/v1".

(** [For] *)
Definition For (apiVersion : string) (r : Registry) : result registry_error Provider :=
  let name := providerNameFromAPIVersion apiVersion in
  if decide (name = "") then Err (ErrInvalidAPIVersion apiVersion)
  else match assoc name r with
       | None => Err (ErrNoProvider apiVersion)
       | Some p => Ok p
       end.

(** [AdvancedKinds] *)
Definition AdvancedKinds (r : Registry) : list (string * AdvancedKind) :=
  fold_left (λ out np,
    fold_left (λ out ak, assoc_set (np.1 +:+ "/" +:+ ak_Kind ak) ak out)
      (default [] (p_AdvancedKinds np.2)) out) r [].

(** [OwnerOf]: the first hit of the iteration. *)
Fixpoint OwnerOf (kind name : string) (r : Registry) : option (string * string) :=
  match r with
  | [] => None
  | (_, p) :: r' =>
      match p_OwnerOf p with
      | Some checker =>
          match checker kind name with
          | Some o => Some o
          | None => OwnerOf kind name r'
          end
      | None => OwnerOf kind name r'
      end
  end.

(** [OwnerRefOf] *)
Fixpoint OwnerRefOf (kind name : string) (r : Registry) : option ResourceRef :=
  match r with
  | [] => None
  | (_, p) :: r' =>
      match p_OwnerOf p with
      | Some checker =>
          match checker kind name with
          | Some (k, n) => Some (MkResourceRef (providerAPIVersion p) k n)
          | None => OwnerRefOf kind name r'
          end
      | None => OwnerRefOf kind name r'
      end
  end.

(** [ChildrenOf] *)
Definition ChildrenOf (kind name : string) (r : Registry) : list ResourceRef :=
  concat (map (λ np, match p_ChildrenOf np.2 with Some f => f kind name | None => [] end) r).

(** [ActionsFor] *)
Definition ActionsFor (apiVersion kind : string) (r : Registry) : list string :=
  match For apiVersion r with
  | Err _ => []
  | Ok p => match p_Actioner p with Some a => act_Actions a kind | None => [] end
  end.

(** [ActionSpecsFor] *)
Definition ActionSpecsFor (apiVersion kind : string) (r : Registry) : list ActionSpec :=
  match For apiVersion r with
  | Err _ => []
  | Ok p =>
      match p_Actioner p with
      | None => []
      | Some a =>
          match act_ActionSpecs a with
          | Some f => f kind
          | None => map (λ n, MkActionSpec n "" []) (act_Actions a kind)
          end
      end
  end.

Inductive action_failure : Type :=
| ErrActionRegistry (e : registry_error)
| ErrNoActions (provider : string)
| ErrUnsupportedAction (action kind : string)
| ErrAction (e : PE).

(** [DoAction] *)
Definition DoAction (apiVersion kind name action : string) (params : list (string * string))
    (r : Registry) (st : St) : result action_failure ActionResult * St :=
  match For apiVersion r with
  | Err e => (Err (ErrActionRegistry e), st)
  | Ok p =>
      match p_Actioner p with
      | None => (Err (ErrNoActions (p_Name p)), st)
      | Some a =>
          if decide (action ∈ act_Actions a kind) then
            let '(res, st') :=
              match act_DoActionWithParams a with
              | Some f => f kind name action params st
              | None => act_DoAction a kind name action st
              end in (map_err ErrAction res, st')
          else (Err (ErrUnsupportedAction action kind), st)
      end
  end.

Inductive get_error : Type :=
| ErrGetRegistry (e : registry_error)
| ErrProviderGet (e : PE)
| ErrNilResource.

(** [Get]: what the [$ref] resolver calls. A provider that returns nil without an error
    makes the resolver panic; that is the error [ErrNilResource], which Dispatcher does
    not take for an ordinary one. *)
Definition Get (apiVersion kind name : string) (r : Registry) (st : St) : result get_error resource :=
  match For apiVersion r with
  | Err e => Err (ErrGetRegistry e)
  | Ok p =>
      match p_Get p kind name st with
      | Err e => Err (ErrProviderGet e)
      | Ok None => Err ErrNilResource
      | Ok (Some x) => Ok x
      end
  end.

(** [IsObservedOnly] *)
Definition IsObservedOnly (apiVersion kind : string) (r : Registry) : bool :=
  match For apiVersion r with
  | Err _ => false
  | Ok p => match p_ObservedOnlyKinds p with
            | None => false
            | Some kinds => bool_decide (kind ∈ kinds)
            end
  end.

(** ** Laws *)

Lemma index_byte_app c a b : no_byte c a → index_byte c (a +:+ String c b) = Some (String.length a).
Proof.
  induction a as [|x a IH]; intros Hc.
  { change ("" +:+ String c b) with (String c b). simpl. by rewrite decide_True. }
  destruct Hc as [Hx Ha].
  change (index_byte c (String x (a +:+ String c b)) = Some (S (String.length a))). simpl.
  rewrite decide_False by done. by rewrite IH.
Qed.

Lemma providerName_roundtrip name rest :
  name ≠ "" → no_byte "."%char name →
  providerNameFromAPIVersion (name +:+ String "."%char rest) = name.
Proof.
  intros Hne Hdot. unfold providerNameFromAPIVersion. rewrite index_byte_app by done.
  destruct name as [|c name]; [done|]. simpl String.length.
  by rewrite (str_take_app (String c name)).
Qed.

(** Registries built by [Register] hold every provider under its own name. *)
Definition registry_ok (r : Registry) : Prop :=
  NoDup r.*1 ∧ Forall (λ np, np.1 = p_Name np.2) r.

Lemma Register_ok p r r' : registry_ok r → Register p r = Some r' → registry_ok r'.
Proof.
  intros [Hnd Hn]. unfold Register. destruct (assoc (p_Name p) r) eqn:Ha; [done|]. intros [= <-].
  rewrite assoc_set_fresh by done. split.
  - rewrite fmap_app. apply NoDup_app. split; [done|]. split; [|apply NoDup_singleton].
    intros x Hx ->%list_elem_of_singleton. by apply assoc_None in Ha.
  - apply Forall_app. split; [done|]. by apply Forall_singleton.
Qed.
End registry.
Arguments Provider : clear implicits.
Arguments Actioner : clear implicits.

(** ** Properties *)

(** Routing by apiVersion is right: registering providers one after another
    (a repeated name is refused), the apiVersion derived from any registered
    provider whose name is non-empty and has no dot leads back to exactly that
    provider. *)
Theorem For_providerAPIVersion {St PE} (ps : list (Provider St PE)) r p :
  foldl (λ acc p, acc ≫= Register p) (Some []) ps = Some r →
  p ∈ ps → p_Name p ≠ "" → no_byte "."%char (p_Name p) →
  For (providerAPIVersion p) r = Ok p.
Proof.
  intros Hr Hp Hne Hdot.
  assert (∀ (ps : list (Provider St PE)) acc r, registry_ok acc →
    foldl (λ acc p, acc ≫= Register p) (Some acc) ps = Some r →
    registry_ok r ∧ ∀ q, q ∈ ps ∨ (p_Name q, q) ∈ acc → (p_Name q, q) ∈ r) as Hgen.
  { clear. induction ps as [|p ps IH]; intros acc r Hok; simpl.
    - intros [= <-]. split; [done|]. intros q [?%elem_of_nil|?]; done.
    - destruct (Register p acc) as [acc'|] eqn:E; simpl.
      + intros H. pose proof (Register_ok _ _ _ Hok E) as Hok'.
        destruct (IH _ _ Hok' H) as [H1 H2]. split; [done|]. intros q Hq. apply H2.
        unfold Register in E. destruct (assoc (p_Name p) acc) eqn:Ha; [done|]. injection E as <-.
        rewrite assoc_set_fresh by done. rewrite elem_of_cons in Hq.
        destruct Hq as [[->|?]|?]; [right|by left|right]; apply elem_of_app; [right|by left].
        by apply list_elem_of_singleton.
      + clear. intros H. exfalso. induction ps as [|p2 ps2 IH2]; simpl in H; [done|]. by apply IH2. }
  destruct (Hgen ps [] r) as [[Hnd _] H]; [|done|].
  { split; [constructor|done]. }
  unfold For, providerAPIVersion.
  change (p_Name p +:+ ".openctl.io/v1") with (p_Name p +:+ String "."%char "openctl.io/v1").
  rewrite providerName_roundtrip by done. rewrite decide_False by done.
  rewrite (elem_assoc _ p); [done|done|]. apply H. by left.
Qed.

Definition ex_provider {St} (name : string) : Provider St string :=
  MkProvider name ["VirtualMachine"] (λ r st, (Ok (Some r), st)) (λ _ _ _, Ok None) (λ _ _, Ok []) (λ _ _ st, (Ok tt, st))
    None None None None None None None None None.

Lemma For_providerAPIVersion_witness :
  providerAPIVersion (ex_provider (St := unit) "proxmox") = "proxmox.openctl.io/v1" ∧
  For (providerAPIVersion (ex_provider (St := unit) "proxmox"))
    [("k3s", ex_provider (St := unit) "k3s"); ("proxmox", ex_provider (St := unit) "proxmox")] = Ok (ex_provider (St := unit) "proxmox").
Proof.
  split; [reflexivity|].
  apply (For_providerAPIVersion [ex_provider (St := unit) "k3s"; ex_provider (St := unit) "proxmox"]).
  - vm_compute. reflexivity.
  - right. left.
  - discriminate.
  - by_decide.
Defined.
