(* ===== verification/Auth.v ===== *)
(** Who is calling and with what role: src/internal/controller/auth/
    (principal.go, auth.go, users.go, sessions.go, the claim mapping of oidc.go)
    and the session RPCs of src/internal/controller/server/session.go.

    Instants are nanoseconds. The clock, random tokens and ids, sha256, the
    layout [time.RFC3339Nano] and its parser are arguments; the OIDC exchange
    itself is a third-party library, so its verified claims are an argument. *)
From S2P Require Import Prelude GoStrings GoPath GoValue.
From Stdlib Require Import Ascii.

(** ** Roles: principal.go *)

Abbreviation Role := string (only parsing).
Definition RoleViewer : Role := "viewer".
Definition RoleEditor : Role := "editor".
Definition RoleAdmin : Role := "admin".

Definition rank (r : Role) : nat :=
  if decide (r = RoleViewer) then 1
  else if decide (r = RoleEditor) then 2
  else if decide (r = RoleAdmin) then 3
  else 0.

Definition AtLeast (r minRole : Role) : bool := (0 <? rank r) && (rank minRole <=? rank r).

Record Principal : Type := MkPrincipal { pr_UserID : string; pr_Role : Role; pr_Root : bool }.

#[export] Instance Principal_eq_dec : EqDecision Principal.
Proof. solve_decision. Defined.

Definition RootPrincipal : Principal := MkPrincipal "root" RoleAdmin true.

(** ** Token files: auth.go *)

Inductive token_error : Type :=
| ErrTokenEmpty (path : string)
| ErrTokenRead
| ErrTokenRandom
| ErrTokenWrite.

Definition newline_text : string := String (Ascii false true false true false false false false) EmptyString.

Section token_files.
(** Which reads fail for a reason other than absence, and which writes succeed. *)
Context (read_err write_ok : string → bool).

(** [LoadOrCreateToken]; [fresh] is what [GenerateToken] returns. *)
Definition LoadOrCreateToken (path : string) (fresh : option string) (fs : gmap string string) :
    result token_error string * gmap string string :=
  if read_err path then (Err ErrTokenRead, fs)
  else match fs !! path with
       | Some data =>
           let tok := trim_space data in
           if decide (tok = "") then (Err (ErrTokenEmpty path), fs) else (Ok tok, fs)
       | None =>
           match fresh with
           | None => (Err ErrTokenRandom, fs)
           | Some tok =>
               if write_ok path then (Ok tok, <[path := tok +:+ newline_text]> fs)
               else (Err ErrTokenWrite, fs)
           end
       end.

(** ** Named users: users.go *)

Record User : Type := MkUser { u_UserID : string; u_Role : Role; u_Token : string }.
Record userFileEntry : Type := MkUserEntry { e_Name : string; e_Role : string; e_TokenFile : string }.

(** Reading and decoding users.yaml. *)
Inductive users_read : Type :=
| UsersAbsent
| UsersUnreadable
| UsersUnparsable
| UsersFile (l : list userFileEntry).

Inductive users_error : Type :=
| ErrUsersRead
| ErrUsersParse
| ErrUserNoName (i : nat)
| ErrUserReserved
| ErrUserDuplicate (name : string)
| ErrUserRole (name role : string)
| ErrUserNoTokenFile (name : string)
| ErrUserToken (name : string) (e : token_error).

Definition token_path (dir tokenFile : string) : string :=
  if is_abs tokenFile then tokenFile else Join [dir; tokenFile].

(** The loop of [LoadUsers]; [i] is the index of the entry, [seen] the names so
    far. *)
Fixpoint load_entries (dir : string) (fresh : nat → option string) (i : nat) (seen : list string)
    (l : list userFileEntry) (out : list User) (fs : gmap string string) :
    result users_error (list User) * gmap string string :=
  match l with
  | [] => (Ok out, fs)
  | e :: l' =>
      if decide (e_Name e = "") then (Err (ErrUserNoName i), fs)
      else if decide (e_Name e = "root") then (Err ErrUserReserved, fs)
      else if decide (e_Name e ∈ seen) then (Err (ErrUserDuplicate (e_Name e)), fs)
      else if decide (rank (e_Role e) = 0) then (Err (ErrUserRole (e_Name e) (e_Role e)), fs)
      else if decide (e_TokenFile e = "") then (Err (ErrUserNoTokenFile (e_Name e)), fs)
      else
        let '(res, fs') := LoadOrCreateToken (token_path dir (e_TokenFile e)) (fresh i) fs in
        match res with
        | Err err => (Err (ErrUserToken (e_Name e) err), fs')
        | Ok tok =>
            load_entries dir fresh (S i) (e_Name e :: seen) l'
              (out ++ [MkUser (e_Name e) (e_Role e) tok]) fs'
        end
  end.

(** [LoadUsers] *)
Definition LoadUsers (dir : string) (file : users_read) (fresh : nat → option string)
    (fs : gmap string string) : result users_error (list User) * gmap string string :=
  match file with
  | UsersAbsent => (Ok [], fs)
  | UsersUnreadable => (Err ErrUsersRead, fs)
  | UsersUnparsable => (Err ErrUsersParse, fs)
  | UsersFile l => load_entries dir fresh 0 [] l [] fs
  end.
End token_files.

(** ** OIDC claims: oidc.go *)

Definition parseRole (s : string) : option Role :=
  if decide (s ∈ [RoleViewer; RoleEditor; RoleAdmin]) then Some s else None.

Record OIDCConfig : Type := MkOIDCConfig {
  oc_RoleClaim : string; oc_RoleMapping : list (string * string); oc_DefaultRole : string; oc_UsernameClaim : string }.

Record OIDCAuthenticator : Type := MkOIDC {
  oa_roleClaim : string; oa_roleMapping : list (string * Role); oa_defaultRole : Role; oa_usernameClaim : string }.

Inductive oidc_error : Type :=
| ErrRoleMapping (claim : string)
| ErrDefaultRole
| ErrOIDCDenied.

(** [NewOIDCAuthenticator], once discovery has succeeded. *)
Definition NewOIDCAuthenticator (cfg : OIDCConfig) : result oidc_error OIDCAuthenticator :=
  mapping ← mapR (λ p, match parseRole p.2 with Some r => Ok (p.1, r) | None => Err (ErrRoleMapping p.1) end)
              (oc_RoleMapping cfg);
  defaultRole ← (if decide (oc_DefaultRole cfg = "") then Ok ""
                 else match parseRole (oc_DefaultRole cfg) with Some r => Ok r | None => Err ErrDefaultRole end);
  mret (MkOIDC (if decide (oc_RoleClaim cfg = "") then "groups" else oc_RoleClaim cfg) mapping defaultRole
          (if decide (oc_UsernameClaim cfg = "") then "email" else oc_UsernameClaim cfg)).

(** [consider] *)
Definition consider (mapping : list (string * Role)) (best : Role) (v : string) : Role :=
  match assoc v mapping with
  | Some r => if rank best <? rank r then r else best
  | None => best
  end.

(** The strings of the role claim. *)
Definition role_values (v : option value) : list string :=
  match v with
  | Some (VStr s) => [s]
  | Some (VList l) => omap (λ x, as_str (Some x)) l
  | _ => []
  end.

Definition mapRole (a : OIDCAuthenticator) (claims : gomap) : Role :=
  fold_left (consider (oa_roleMapping a)) (role_values (assoc (oa_roleClaim a) claims)) (oa_defaultRole a).

(** [OIDCAuthenticator.Principal] *)
Definition OIDCPrincipal (a : OIDCAuthenticator) (claims : gomap) : result oidc_error (string * Role) :=
  let role := mapRole a claims in
  if decide (role = "") then Err ErrOIDCDenied else Ok (str_field (oa_usernameClaim a) claims, role).

(** ** Sessions: sessions.go *)

Definition DefaultUserID : string := "default".

(** Nanoseconds; 7 days. *)
Definition Second : Z := 1000000000.
Definition DefaultSessionTTL : Z := 7 * 24 * 60 * 60 * Second.

(** A row of the sessions table. *)
Record session_row : Type := MkSessionRow {
  s_id : string; s_user : string; s_hash : string; s_display : option string; s_role : Role;
  s_created : string; s_expires : string }.

Record Session : Type := MkSession {
  ss_ID : string; ss_UserID : string; ss_DisplayName : string; ss_CreatedAt : string; ss_ExpiresAt : string;
  ss_Role : Role; ss_Token : string }.

(** [Session.Principal] *)
Definition session_principal (s : Session) : Principal :=
  MkPrincipal (ss_UserID s) (if decide (rank (ss_Role s) = 0) then RoleAdmin else ss_Role s) false.

Inductive session_error : Type :=
| ErrSessionToken
| ErrSessionInsert.

(** [Validator]; [v_sessions = false] stands for a nil session store. *)
Record Validator : Type := MkValidator {
  v_expected : string;
  v_users : list (string * Principal);
  v_sessions : bool;
}.

(** [NewValidator], [WithUsers], [WithSessions] *)
Definition NewValidator (token : string) : Validator := MkValidator token [] false.
Definition WithUsers (users : list User) (v : Validator) : Validator :=
  MkValidator (v_expected v) (map (λ u, (u_Token u, MkPrincipal (u_UserID u) (u_Role u) false)) users) (v_sessions v).
Definition WithSessions (v : Validator) : Validator := MkValidator (v_expected v) (v_users v) true.

Inductive auth_error : Type :=
| ErrMissingMetadata
| ErrMissingHeader
| ErrNotBearer
| ErrInvalidToken.

Definition bearerPrefix : string := "Bearer ".

Section sessions.
Context (digest : string → string) (format_time : Z → string) (parse_time : string → option Z).

Abbreviation sessions := (list session_row).

(** [Create]; [fresh] is what [GenerateToken] returns, [id] what [newSessionID]
    returns. The columns id and token_hash are unique. *)
Definition Create (userID displayName : string) (role : Role) (ttl : Z) (fresh : option string) (id : string) (now : Z)
    (tbl : sessions) : result session_error (Session * sessions) :=
  let userID := if decide (userID = "") then DefaultUserID else userID in
  let role := if decide (rank role = 0) then RoleAdmin else role in
  let ttl := if (ttl <=? 0)%Z then DefaultSessionTTL else ttl in
  match fresh with
  | None => Err ErrSessionToken
  | Some token =>
      let created := format_time now in
      let expires := format_time (now + ttl)%Z in
      if decide (id ∈ map s_id tbl ∨ digest token ∈ map s_hash tbl) then Err ErrSessionInsert
      else Ok (MkSession id userID displayName created expires role token,
               tbl ++ [MkSessionRow id userID (digest token)
                         (if decide (displayName = "") then None else Some displayName) role created expires])
  end.

(** [Lookup]; an expiry that does not parse does not expire. *)
Definition Lookup (token : string) (now : Z) (tbl : sessions) : option Session :=
  if decide (token = "") then None
  else match snd <$> list_find (λ r, s_hash r = digest token) tbl with
       | None => None
       | Some r =>
           let sess := MkSession (s_id r) (s_user r) (default "" (s_display r)) (s_created r) (s_expires r) (s_role r) "" in
           match parse_time (s_expires r) with
           | Some expiry => if (expiry <? now)%Z then None else Some sess
           | None => Some sess
           end
       end.

(** [SessionStore.Delete], [DeleteByToken], [GCExpired] *)
Definition DeleteSession (id : string) (tbl : sessions) : sessions := filter (λ r, s_id r ≠ id) tbl.
Definition DeleteByToken (token : string) (tbl : sessions) : sessions :=
  if decide (token = "") then tbl else filter (λ r, s_hash r ≠ digest token) tbl.
Definition GCExpired (now : Z) (tbl : sessions) : sessions :=
  filter (λ r, String.le (format_time now) (s_expires r)) tbl.

(** ** The interceptor: auth.go *)

(** The bearer token of a request: [md] is its authorization metadata. *)
Definition bearer (md : option (list string)) : result auth_error string :=
  match md with
  | None => Err ErrMissingMetadata
  | Some [] => Err ErrMissingHeader
  | Some (h :: _) => match cut_prefix bearerPrefix h with Some tok => Ok tok | None => Err ErrNotBearer end
  end.

(** [Validator.check] *)
Definition check (v : Validator) (md : option (list string)) (now : Z) (tbl : sessions) :
    result auth_error Principal :=
  tok ← bearer md;
  if decide (tok = v_expected v) then Ok RootPrincipal
  else match list_find (λ u : string * Principal, tok = u.1) (v_users v) with
       | Some (_, u) => Ok u.2
       | None =>
           match (if v_sessions v then Lookup tok now tbl else None) with
           | Some sess => Ok (session_principal sess)
           | None => Err ErrInvalidToken
           end
       end.

(** ** Session RPCs: server/session.go *)

(** [bearerFromCtx] *)
Definition bearerFromCtx (md : option (list string)) : string := ok_or (bearer md) "".

(** [Login]; [p] is the principal the interceptor put on the context, if any. *)
Definition Login (p : option Principal) (displayName : string) (ttlSeconds : Z) (fresh : option string) (id : string)
    (now : Z) (tbl : sessions) : result session_error (Session * sessions) :=
  let ttl := wrap64 (ttlSeconds * Second) in
  let userID := match p with Some p => if pr_Root p then DefaultUserID else pr_UserID p | None => DefaultUserID end in
  let role := match p with Some p => pr_Role p | None => RoleAdmin end in
  Create userID displayName role ttl fresh id now tbl.

(** [Logout] *)
Definition Logout (md : option (list string)) (tbl : sessions) : sessions := DeleteByToken (bearerFromCtx md) tbl.

(** [WhoAmI]: user id, session id, role. *)
Definition WhoAmI (md : option (list string)) (p : option Principal) (now : Z) (tbl : sessions) :
    string * string * Role :=
  let tok := bearerFromCtx md in
  match (if decide (tok = "") then None else Lookup tok now tbl) with
  | Some sess => (ss_UserID sess, ss_ID sess, pr_Role (session_principal sess))
  | None =>
      match p with
      | Some p => (if pr_Root p then "" else pr_UserID p, "", pr_Role p)
      | None => ("", "", RoleAdmin)
      end
  end.

(** ** Runs: any interleaving of the requests that touch the sessions table, with
    the clock moving as it likes. *)

Inductive session_step (v : Validator) (oidc : option OIDCAuthenticator) : sessions → sessions → Prop :=
| StepLogin md p name ttl fresh id now s tbl tbl' :
    check v md now tbl = Ok p → Login (Some p) name ttl fresh id now tbl = Ok (s, tbl') →
    session_step v oidc tbl tbl'
| StepOIDC a claims user role fresh id now s tbl tbl' :
    oidc = Some a → OIDCPrincipal a claims = Ok (user, role) →
    Create user user role DefaultSessionTTL fresh id now tbl = Ok (s, tbl') →
    session_step v oidc tbl tbl'
| StepLogout md p now tbl : check v md now tbl = Ok p → session_step v oidc tbl (Logout md tbl)
| StepDelete id tbl : session_step v oidc tbl (DeleteSession id tbl)
| StepGC now tbl : session_step v oidc tbl (GCExpired now tbl).

(** The identities the configuration grants: the root token's sessions, the named
    users, and what the claim mapping may yield. *)
Definition granted (v : Validator) (oidc : option OIDCAuthenticator) (user : string) (role : Role) : Prop :=
  (user = DefaultUserID ∧ role = RoleAdmin) ∨
  (∃ tok p, (tok, p) ∈ v_users v ∧ user = pr_UserID p ∧ role = pr_Role p) ∨
  (∃ a claims u, oidc = Some a ∧ OIDCPrincipal a claims = Ok (u, role) ∧
     user = (if decide (u = "") then DefaultUserID else u)).

(** A request that opens the session [s] on a table: a login by whoever the interceptor
    took the request for, or an OIDC callback; with the identity and the role that the
    session is to have. *)
Inductive opening (v : Validator) (oidc : option OIDCAuthenticator) (tbl : sessions) (s : Session) : string → Role → Prop :=
| OpeningLogin md p name ttl fresh id now tbl' :
    check v md now tbl = Ok p → Login (Some p) name ttl fresh id now tbl = Ok (s, tbl') →
    opening v oidc tbl s (if pr_Root p then DefaultUserID else pr_UserID p) (pr_Role p)
| OpeningOIDC a claims user role fresh id now tbl' :
    oidc = Some a → OIDCPrincipal a claims = Ok (user, role) →
    Create user user role DefaultSessionTTL fresh id now tbl = Ok (s, tbl') →
    opening v oidc tbl s (if decide (user = "") then DefaultUserID else user) role.

(** A session that has not expired. *)
Definition live (now : Z) (r : session_row) : Prop := ∀ e, parse_time (s_expires r) = Some e → (now ≤ e)%Z.
End sessions.

(** ** Laws *)

Lemma rank_cases r : (r = RoleViewer ∧ rank r = 1) ∨ (r = RoleEditor ∧ rank r = 2) ∨ (r = RoleAdmin ∧ rank r = 3) ∨
  (r ≠ RoleViewer ∧ r ≠ RoleEditor ∧ r ≠ RoleAdmin ∧ rank r = 0).
Proof. unfold rank. repeat case_decide; naive_solver. Qed.

Lemma AtLeast_rank r m : AtLeast r m = true ↔ 0 < rank r ∧ rank m ≤ rank r.
Proof. unfold AtLeast. by rewrite andb_true_iff, Nat.ltb_lt, Nat.leb_le. Qed.

Lemma parseRole_Some s r : parseRole s = Some r → r = s ∧ 0 < rank r.
Proof.
  unfold parseRole. case_decide as H; [|done]. intros [= <-]. split; [done|].
  rewrite !elem_of_cons in H. destruct (rank_cases s) as [[_ ->]|[[_ ->]|[[_ ->]|H']]]; [lia..|].
  exfalso. destruct H as [?|[?|[?|?%elem_of_nil]]]; tauto.
Qed.

(** Named users as [LoadUsers] returns them. *)
Record users_ok (us : list User) : Prop := {
  uo_names : NoDup (map u_UserID us);
  uo_user : ∀ u, u ∈ us → u_UserID u ≠ "" ∧ u_UserID u ≠ "root" ∧ 0 < rank (u_Role u);
}.

Lemma users_ok_nil : users_ok [].
Proof. split; [constructor|]. intros u ?%elem_of_nil. done. Qed.

Lemma load_entries_ok read_err write_ok dir fresh l i seen out fs us fs' :
  users_ok out → seen ≡ₚ map u_UserID out →
  load_entries read_err write_ok dir fresh i seen l out fs = (Ok us, fs') →
  users_ok us ∧ map (λ u, (u_UserID u, u_Role u)) us =
                map (λ u, (u_UserID u, u_Role u)) out ++ map (λ e, (e_Name e, e_Role e)) l.
Proof.
  revert i seen out fs. induction l as [|e l IH]; intros i seen out fs Hok Hseen; simpl.
  { intros [= <- _]. split; [done|]. by rewrite app_nil_r. }
  case_decide as Hne; [done|]. case_decide as Hroot; [done|]. case_decide as Hdup; [done|].
  case_decide as Hrank; [done|]. case_decide as Htf; [done|].
  destruct (LoadOrCreateToken _ _ _ _ fs) as [[tok|err] fs1]; [|done].
  intros Hl. apply IH in Hl as [Hus ->].
  - split; [done|]. rewrite map_app. simpl. by rewrite <-app_assoc.
  - destruct Hok as [Hn Hu]. split.
    + rewrite map_app. apply NoDup_app. split; [done|]. split; [|apply NoDup_singleton].
      intros x Hx Hx'%list_elem_of_singleton. simpl in Hx'. subst x. apply Hdup. by rewrite Hseen.
    + intros u [Hu'|Hu'%list_elem_of_singleton]%elem_of_app; [by apply Hu|]. subst u. simpl. split_and!; [done..|lia].
  - rewrite map_app. simpl. rewrite Hseen. by rewrite Permutation_cons_append.
Qed.

Lemma LoadUsers_ok read_err write_ok dir file fresh fs us fs' :
  LoadUsers read_err write_ok dir file fresh fs = (Ok us, fs') → users_ok us.
Proof.
  destruct file as [| | |l]; simpl; [|done..|].
  - intros [= <- _]. apply users_ok_nil.
  - intros H. by apply load_entries_ok in H as [? _]; [|apply users_ok_nil|].
Qed.

(** An authenticator whose roles are all recognised, or "" for none. *)
Definition oidc_ok (a : OIDCAuthenticator) : Prop :=
  (∀ v r, assoc v (oa_roleMapping a) = Some r → 0 < rank r) ∧ (oa_defaultRole a = "" ∨ 0 < rank (oa_defaultRole a)).

Lemma NewOIDC_ok cfg a : NewOIDCAuthenticator cfg = Ok a → oidc_ok a.
Proof.
  unfold NewOIDCAuthenticator. destruct (mapR _ _) as [mapping|] eqn:Hm; [|done]. simpl.
  destruct (if decide (oc_DefaultRole cfg = "") then _ else _) as [dr|] eqn:Hd; [|done]. simpl. intros [= <-]. split; simpl.
  - intros v r Hr%assoc_elem. apply mapR_Ok in Hm. apply list_elem_of_lookup in Hr as [i Hi].
    destruct (Forall2_lookup_r _ _ _ _ _ Hm Hi) as (x & _ & Hx).
    destruct (parseRole x.2) as [r'|] eqn:E; [|done]. injection Hx as _ <-. by apply parseRole_Some in E as [_ ?].
  - case_decide; [injection Hd as <-; by left|]. destruct (parseRole _) eqn:E; [|done]. injection Hd as <-.
    right. by apply parseRole_Some in E as [_ ?].
Qed.

Lemma consider_rank mapping best v :
  (∀ v r, assoc v mapping = Some r → 0 < rank r) → best = "" ∨ 0 < rank best →
  consider mapping best v = "" ∨ 0 < rank (consider mapping best v).
Proof.
  intros Hm Hb. unfold consider. destruct (assoc v mapping) eqn:E; [|done].
  case_match; [right; by eapply Hm|done].
Qed.

Lemma mapRole_rank a claims : oidc_ok a → mapRole a claims = "" ∨ 0 < rank (mapRole a claims).
Proof.
  intros [Hm Hd]. unfold mapRole. generalize (oa_defaultRole a), Hd. clear Hd.
  induction (role_values _) as [|v l IH]; intros best Hb; simpl; [done|]. apply IH. by apply consider_rank.
Qed.

Lemma OIDCPrincipal_rank a claims u r : oidc_ok a → OIDCPrincipal a claims = Ok (u, r) → 0 < rank r.
Proof.
  intros Ha. unfold OIDCPrincipal. case_decide as Hr; [done|]. intros [= _ <-].
  by destruct (mapRole_rank a claims Ha).
Qed.

Section session_laws.
Context (digest : string → string) (format_time : Z → string) (parse_time : string → option Z).

Definition rows_granted (v : Validator) (oidc : option OIDCAuthenticator) (tbl : list session_row) : Prop :=
  ∀ r, r ∈ tbl → granted v oidc (s_user r) (s_role r) ∧ 0 < rank (s_role r).

Lemma rows_granted_subset v oidc tbl tbl' :
  (∀ r, r ∈ tbl' → r ∈ tbl) → rows_granted v oidc tbl → rows_granted v oidc tbl'.
Proof. intros Hsub H r Hr. by apply H, Hsub. Qed.

Lemma elem_of_filter_sub {A} (P : A → Prop) `{∀ x, Decision (P x)} (l : list A) x : x ∈ filter P l → x ∈ l.
Proof. by intros [_ ?]%list_elem_of_filter. Qed.

Lemma DeleteByToken_sub token tbl r : r ∈ DeleteByToken digest token tbl → r ∈ tbl.
Proof. unfold DeleteByToken. case_decide; [done|]. apply elem_of_filter_sub. Qed.

Lemma Lookup_row token now tbl s :
  Lookup digest parse_time token now tbl = Some s →
  ∃ r, r ∈ tbl ∧ s_hash r = digest token ∧ ss_UserID s = s_user r ∧ ss_Role s = s_role r.
Proof.
  unfold Lookup. case_decide; [done|]. destruct (list_find _ tbl) as [[i r]|] eqn:E; [|done]. simpl.
  apply list_find_Some in E as (Hi & Hh & _). apply list_elem_of_lookup_2 in Hi.
  destruct (parse_time _); [case_match; [done|]|]; intros [= <-]; by exists r.
Qed.

(** The three credentials that [check] accepts. *)
Lemma check_cases v md now tbl p :
  check digest parse_time v md now tbl = Ok p → ∃ tok, bearer md = Ok tok ∧
    (tok = v_expected v ∧ p = RootPrincipal ∨ (tok, p) ∈ v_users v ∨
     ∃ r, r ∈ tbl ∧ s_hash r = digest tok ∧ live parse_time now r ∧
       p = MkPrincipal (s_user r) (if decide (rank (s_role r) = 0) then RoleAdmin else s_role r) false).
Proof.
  unfold check. destruct (bearer md) as [tok|]; [|done]. simpl. intros H. exists tok. split; [done|].
  case_decide; [left; by injection H|]. right. destruct (list_find _ _) as [[i [t q]]|] eqn:E.
  - apply list_find_Some in E as (Hi & -> & _). injection H as <-. left. by eapply list_elem_of_lookup_2.
  - clear E. right. destruct (v_sessions v); [|done]. unfold Lookup in H. case_decide; [done|].
    destruct (list_find _ tbl) as [[i r]|] eqn:E; [|done]. simpl in H.
    apply list_find_Some in E as (Hi & Hh & _). apply list_elem_of_lookup_2 in Hi. exists r. unfold live.
    destruct (parse_time _) as [e|]; [destruct (Z.ltb_spec e now); [done|]|];
      (injection H as <-; split_and!; [done..| |done]); intros ? [= <-]; lia.
Qed.

Lemma Create_row user name role ttl fresh id now tbl s tbl' :
  Create digest format_time user name role ttl fresh id now tbl = Ok (s, tbl') →
  ∃ r, tbl' = tbl ++ [r] ∧ s_user r = (if decide (user = "") then DefaultUserID else user) ∧
    s_role r = (if decide (rank role = 0) then RoleAdmin else role) ∧ s_hash r = digest (ss_Token s).
Proof. unfold Create. destruct fresh; [|done]. destruct (decide (_ ∨ _)); [done|]. intros [= <- <-]. by eexists. Qed.

Lemma Create_rows v oidc user name role ttl fresh id now tbl s tbl' :
  granted v oidc (if decide (user = "") then DefaultUserID else user) role → 0 < rank role →
  rows_granted v oidc tbl → Create digest format_time user name role ttl fresh id now tbl = Ok (s, tbl') →
  rows_granted v oidc tbl'.
Proof.
  intros Hg Hr Ht. unfold Create. destruct fresh as [tok|]; [|done].
  destruct (decide (_ ∨ _)); [done|].
  intros [= _ <-] r [Hin|Hin%list_elem_of_singleton]%elem_of_app; [by apply Ht|]. subst r. cbn [s_user s_role].
  rewrite (decide_False (P := rank role = 0)) by lia. by split.
Qed.

(** What a validator built from a root token and loaded users accepts. *)
Lemma check_granted token us oidc md now tbl p :
  let v := WithSessions (WithUsers us (NewValidator token)) in
  users_ok us → rows_granted v oidc tbl → check digest parse_time v md now tbl = Ok p →
  (p = RootPrincipal ∧ bearer md = Ok token) ∨
  (pr_Root p = false ∧ granted v oidc (pr_UserID p) (pr_Role p) ∧ 0 < rank (pr_Role p) ∧ pr_UserID p ≠ "") ∨
  (pr_Root p = false ∧ ∃ r, r ∈ tbl ∧ pr_UserID p = s_user r ∧ pr_Role p = s_role r).
Proof.
  intros v [_ Hu] Ht. unfold check. destruct (bearer md) as [tok|] eqn:Hb; [|done]. simpl.
  case_decide as Htok; [intros [= <-]; left; by subst tok|].
  destruct (list_find _ _) as [[i [t q]]|] eqn:E.
  - apply list_find_Some in E as (Hi & _ & _). intros [= <-]. right; left.
    apply list_elem_of_lookup_2 in Hi. pose proof Hi as Hi'. apply list_elem_of_fmap in Hi as (u & [= -> ->] & Hin).
    destruct (Hu u Hin) as (Hne & _ & Hrk). simpl. split_and!; [done| |done..].
    right; left. by exists (u_Token u), (MkPrincipal (u_UserID u) (u_Role u) false).
  - destruct (Lookup _ _ _ _ _) as [s|] eqn:El; [|done]. intros [= <-]. right; right.
    apply Lookup_row in El as (r & Hin & _ & Hus & Hro). simpl. split; [done|]. exists r. split; [done|]. split; [done|].
    destruct (Ht r Hin) as [_ Hrk]. rewrite Hro. by rewrite decide_False by lia.
Qed.

Lemma session_step_granted token us oidc tbl tbl' :
  let v := WithSessions (WithUsers us (NewValidator token)) in
  users_ok us → (∀ a, oidc = Some a → oidc_ok a) →
  rows_granted v oidc tbl → (∀ r, r ∈ tbl → s_user r ≠ "") →
  session_step digest format_time parse_time v oidc tbl tbl' →
  rows_granted v oidc tbl' ∧ ∀ r, r ∈ tbl' → s_user r ≠ "".
Proof.
  intros v Hus Ho Ht Hne Hstep.
  assert (∀ user name role ttl fresh id now s tbl',
    Create digest format_time user name role ttl fresh id now tbl = Ok (s, tbl') → ∀ r, r ∈ tbl' → s_user r ≠ "") as Hcre.
  { intros user name role ttl fresh id now s t2. unfold Create. destruct fresh; [|done].
    destruct (decide (_ ∨ _)); [done|]. intros [= _ <-] r [Hin|Hin%list_elem_of_singleton]%elem_of_app; [by apply Hne|]. subst r. simpl. by case_decide. }
  destruct Hstep as [md p name ttl fresh id now s tbl tbl' Hc Hl|a claims user role fresh id now s tbl tbl' Ha Hp Hcr
    |md p now tbl Hc|id tbl|now tbl].
  - split; [|by eapply Hcre]. apply (check_granted token us oidc) in Hc; [|done..].
    unfold Login in Hl. eapply Create_rows; [..|exact Hl]; [| |done].
    + destruct Hc as [[-> _]|[(Hr & Hg & _ & Hn)|(Hr & r & Hin & Hu & Hro)]].
      * by left.
      * rewrite Hr. by rewrite decide_False.
      * rewrite Hr, Hu, Hro. rewrite decide_False by by apply Hne. by apply Ht.
    + destruct Hc as [[-> _]|[(Hr & Hg & ? & Hn)|(Hr & r & Hin & Hu & Hro)]]; [simpl; unfold rank; simpl; lia|done|].
      rewrite Hro. by apply Ht.
  - split; [|by eapply Hcre]. eapply Create_rows; [..|exact Hcr]; [| |done].
    + right; right. by exists a, claims, user.
    + eapply OIDCPrincipal_rank; [by apply Ho|exact Hp].
  - assert (∀ r, r ∈ Logout digest md tbl → r ∈ tbl) as Hsub by (intros r; apply DeleteByToken_sub).
    split; [by eapply rows_granted_subset|]. intros r Hr. by apply Hne, Hsub.
  - split; [|intros r Hr%elem_of_filter_sub; by apply Hne].
    eapply rows_granted_subset; [|exact Ht]. intros r. apply elem_of_filter_sub.
  - split; [|intros r Hr%elem_of_filter_sub; by apply Hne].
    eapply rows_granted_subset; [|exact Ht]. intros r. apply elem_of_filter_sub.
Qed.

Lemma session_reach_granted token us oidc tbl :
  let v := WithSessions (WithUsers us (NewValidator token)) in
  users_ok us → (∀ a, oidc = Some a → oidc_ok a) →
  rtc (session_step digest format_time parse_time v oidc) [] tbl →
  rows_granted v oidc tbl ∧ ∀ r, r ∈ tbl → s_user r ≠ "".
Proof.
  intros v Hus Ho Hr.
  apply (rtc_ind_r (λ t, rows_granted v oidc t ∧ ∀ r, r ∈ t → s_user r ≠ "")
    (R := session_step digest format_time parse_time v oidc) []); [| |exact Hr].
  - split; intros r ?%elem_of_nil; done.
  - intros t1 t2 _ Hs [H1 H2]. by eapply session_step_granted.
Qed.

(** Every row of a table that can be reached was put there by a request that opened it. *)
Lemma session_opened token us oidc tbl :
  let v := WithSessions (WithUsers us (NewValidator token)) in
  users_ok us → (∀ a, oidc = Some a → oidc_ok a) →
  rtc (session_step digest format_time parse_time v oidc) [] tbl →
  ∀ r, r ∈ tbl → ∃ tbl0 s, rtc (session_step digest format_time parse_time v oidc) [] tbl0 ∧
    opening digest format_time parse_time v oidc tbl0 s (s_user r) (s_role r) ∧ s_hash r = digest (ss_Token s).
Proof.
  intros v Hus Ho Hr.
  apply (rtc_ind_r (λ t, ∀ r, r ∈ t → ∃ tbl0 s, rtc (session_step digest format_time parse_time v oidc) [] tbl0 ∧
    opening digest format_time parse_time v oidc tbl0 s (s_user r) (s_role r) ∧ s_hash r = digest (ss_Token s))
    (R := session_step digest format_time parse_time v oidc) []); [intros r ?%elem_of_nil; done| |exact Hr].
  intros t1 t2 Hr1 Hs IH. destruct (session_reach_granted token us oidc t1 Hus Ho Hr1) as [Hg Hne].
  destruct Hs as [md p name ttl fresh id now s tb tb' Hc Hl|a claims user role fresh id now s tb tb' Ha Hp Hcr
    |md p now tb Hc|id tb|now tb].
  - pose proof Hl as Hl'. unfold Login in Hl. apply Create_row in Hl as (x & -> & Hu & Hro & Hh).
    intros r [Hin|Hin%list_elem_of_singleton]%elem_of_app; [by apply IH|]. subst r. exists tb, s. split; [done|]. split; [|done].
    apply (check_granted token us oidc) in Hc as Hc'; [|done..].
    assert ((pr_Root p = true ∨ pr_UserID p ≠ "") ∧ 0 < rank (pr_Role p)) as [Hid Hrk].
    { destruct Hc' as [[-> _]|[(_ & _ & ? & ?)|(_ & r & Hin & Hur & Hrr)]]; [split; [by left|unfold rank; simpl; lia]|auto|].
      rewrite Hur, Hrr. split; [right; by apply Hne|by apply Hg]. }
    rewrite Hu, Hro, (decide_False (P := rank (pr_Role p) = 0)) by lia.
    assert ((if decide ((if pr_Root p then DefaultUserID else pr_UserID p) = "") then DefaultUserID else
      if pr_Root p then DefaultUserID else pr_UserID p) = if pr_Root p then DefaultUserID else pr_UserID p) as ->.
    { destruct (pr_Root p); [done|]. rewrite decide_False; [done|]. by destruct Hid. }
    by eapply OpeningLogin.
  - pose proof Hcr as Hcr'. apply Create_row in Hcr as (x & -> & Hu & Hro & Hh).
    intros r [Hin|Hin%list_elem_of_singleton]%elem_of_app; [by apply IH|]. subst r. exists tb, s. split; [done|]. split; [|done].
    pose proof (OIDCPrincipal_rank _ _ _ _ (Ho _ Ha) Hp). rewrite Hu, Hro, (decide_False (P := rank role = 0)) by lia.
    by eapply OpeningOIDC.
  - intros r Hr'%DeleteByToken_sub. by apply IH.
  - intros r Hr'%elem_of_filter_sub. by apply IH.
  - intros r Hr'%elem_of_filter_sub. by apply IH.
Qed.
End session_laws.

Lemma recognised r : 0 < rank r → r ∈ [RoleViewer; RoleEditor; RoleAdmin].
Proof. rewrite !elem_of_cons. destruct (rank_cases r) as [[? _]|[[? _]|[[? _]|(_ & _ & _ & ->)]]]; [tauto..|lia]. Qed.

Lemma list_find_filter_weak {A} (P Q : A → Prop) `{∀ x, Decision (P x), ∀ x, Decision (Q x)} (l : list A) :
  (∀ x, P x → Q x) → snd <$> list_find P (filter Q l) = snd <$> list_find P l.
Proof.
  assert (∀ o : option (nat * A), snd <$> (prod_map S id <$> o) = snd <$> o) as Ho by by intros [[]|].
  intros HPQ. induction l as [|x l IH]; [done|]. rewrite filter_cons. destruct (decide (Q x)) as [Hq|Hq]; simpl.
  - destruct (decide (P x)); [done|]. by rewrite !Ho.
  - rewrite (decide_False (P := P x)) by naive_solver. by rewrite Ho.
Qed.

Lemma list_find_snoc {A} (P : A → Prop) `{∀ x, Decision (P x)} (l : list A) y :
  snd <$> list_find P (l ++ [y]) =
    match snd <$> list_find P l with Some x => Some x | None => if decide (P y) then Some y else None end.
Proof.
  assert (∀ o : option (nat * A), snd <$> (prod_map S id <$> o) = snd <$> o) as Ho by by intros [[]|].
  induction l as [|x l IH]; simpl; [by case_decide|].
  destruct (decide (P x)); [done|]. by rewrite !Ho.
Qed.

(** ** Properties *)

(** users.yaml is checked as a whole before anyone can use it: what
    [LoadUsers] returns has the file's entries in order, with distinct names that
    are neither empty nor root, and a recognised role each; and it never
    rewrites a token file that exists. *)
Theorem LoadUsers_wf read_err write_ok dir l fresh fs us fs' :
  LoadUsers read_err write_ok dir (UsersFile l) fresh fs = (Ok us, fs') →
  map (λ u, (u_UserID u, u_Role u)) us = map (λ e, (e_Name e, e_Role e)) l ∧
  NoDup (map u_UserID us) ∧
  (∀ u, u ∈ us → u_UserID u ≠ "" ∧ u_UserID u ≠ "root" ∧ u_Role u ∈ [RoleViewer; RoleEditor; RoleAdmin]) ∧
  fs ⊆ fs'.
Proof.
  intros H. pose proof (LoadUsers_ok _ _ _ _ _ _ _ _ H) as [Hn Hu]. simpl in H.
  pose proof (load_entries_ok _ _ _ _ _ _ _ _ _ _ _ users_ok_nil (Permutation_refl _) H) as [_ Hmap].
  split; [done|]. split; [done|]. split.
  - intros u Hin. destruct (Hu u Hin) as (? & ? & Hr). split_and!; [done..|]. rewrite !elem_of_cons.
    destruct (rank_cases (u_Role u)) as [[? _]|[[? _]|[[? _]|(_ & _ & _ & ?)]]]; [tauto..|lia].
  - clear Hn Hu Hmap. revert H. generalize 0, (@nil string), (@nil User). revert fs.
    induction l as [|e l IH]; intros fs i seen out; simpl; [by intros [= _ <-]|].
    repeat (case_decide; [done|]). destruct (LoadOrCreateToken _ _ _ _ fs) as [[tok|err] fs1] eqn:E; [|done].
    intros Hl%IH. etrans; [|exact Hl]. revert E. unfold LoadOrCreateToken.
    destruct (read_err _); [done|]. destruct (fs !! _) eqn:El; [case_decide; by intros [= _ <-]|].
    destruct (fresh i); [|done]. destruct (write_ok _); [|done]. intros [= _ <-]. by apply insert_subseteq.
Qed.

Definition ex_users : list userFileEntry :=
  [MkUserEntry "alice" "editor" "alice.token"; MkUserEntry "bob" "viewer" "/etc/bob.token"].
Definition ex_tokens : gmap string string := {[ "/etc/bob.token" := "  bob-secret  " ]}.
Definition ex_fresh (i : nat) : option string := Some ("fresh-" +:+ pretty i).

Lemma LoadUsers_wf_witness :
  let '(r, fs) := LoadUsers (λ _, false) (λ _, true) "/state" (UsersFile ex_users) ex_fresh ex_tokens in
  ok_or r [] = [MkUser "alice" "editor" "fresh-0"; MkUser "bob" "viewer" "bob-secret"] ∧ ex_tokens ⊆ fs.
Proof.
  destruct (LoadUsers _ _ _ _ _ _) as [r fs] eqn:E.
  destruct r as [us|e]; [|apply (f_equal fst) in E; vm_compute in E; discriminate E].
  pose proof (LoadUsers_wf _ _ _ _ _ _ _ _ E) as (_ & _ & _ & H). split; [|exact H].
  apply (f_equal fst) in E. vm_compute in E. injection E as <-. reflexivity.
Defined.

(** C9: No escalation. Take a controller whose validator was built from a root
    token and a loaded users.yaml, with or without OIDC, and any interleaving of
    logins, OIDC callbacks, logouts, deletions and sweeps from an empty sessions
    table. A request that is let through has presented a bearer token, and is taken for
    the owner of that token and for nobody else: for root if it is the root token; for a named user, with the role in the
    file, if it is that user's token; and else the token has the digest of one that an
    earlier request was handed when it opened a session, which is still in the table and has not
    expired, and the identity and role are those of the request that opened it (a login's
    own, the default user for root's, or what the claim mapping yields). In every case the
    role is a recognised one, so that the fallback to admin never applies. *)
Theorem auth_no_escalation digest format_time parse_time read_err write_ok dir file fresh fs us fs' token oidc tbl md now p :
  LoadUsers read_err write_ok dir file fresh fs = (Ok us, fs') →
  (∀ a, oidc = Some a → ∃ cfg, NewOIDCAuthenticator cfg = Ok a) →
  let v := WithSessions (WithUsers us (NewValidator token)) in
  let reachable := rtc (session_step digest format_time parse_time v oidc) [] in
  reachable tbl → check digest parse_time v md now tbl = Ok p →
  pr_Role p ∈ [RoleViewer; RoleEditor; RoleAdmin] ∧
  ∃ tok, bearer md = Ok tok ∧
    (tok = token ∧ p = RootPrincipal ∨
     (∃ u, u ∈ us ∧ tok = u_Token u ∧ p = MkPrincipal (u_UserID u) (u_Role u) false) ∨
     ∃ r tbl0 s, r ∈ tbl ∧ s_hash r = digest tok ∧ live parse_time now r ∧ p = MkPrincipal (s_user r) (s_role r) false ∧
       granted v oidc (s_user r) (s_role r) ∧
       reachable tbl0 ∧ opening digest format_time parse_time v oidc tbl0 s (s_user r) (s_role r) ∧
       digest (ss_Token s) = digest tok).
Proof.
  intros Hl Ho v reachable Hr Hc. apply LoadUsers_ok in Hl.
  assert (∀ a, oidc = Some a → oidc_ok a) as Ho' by (intros a Ha; destruct (Ho a Ha) as [cfg ?]; by eapply NewOIDC_ok).
  destruct (session_reach_granted _ _ _ token us oidc tbl Hl Ho' Hr) as [Ht _].
  pose proof (session_opened _ _ _ token us oidc tbl Hl Ho' Hr) as Hopen.
  apply check_cases in Hc as (tok & Hb & [[-> ->]|[Hu|(r & Hin & Hh & Hlive & ->)]]).
  - split; [by_decide|]. exists token. split; [done|]. by left.
  - apply list_elem_of_fmap in Hu as (u & [= -> ->] & Hin). destruct Hl as [_ Hu]. split; [apply recognised, (Hu u Hin)|].
    exists (u_Token u). split; [done|]. right; left. by exists u.
  - destruct (Ht r Hin) as [Hg Hrk]. rewrite decide_False by lia. split; [by apply recognised|].
    exists tok. split; [done|]. right; right. destruct (Hopen r Hin) as (tbl0 & s & Hr0 & Hop & Hd).
    exists r, tbl0, s. split_and!; (done || congruence).
Qed.

Definition ex_oidc_config : OIDCConfig := MkOIDCConfig "" [("ops", "editor"); ("staff", "viewer")] "" "".
Definition ex_claims : gomap := [("email", VStr "eve@x"); ("groups", VList [VStr "staff"; VStr "ops"])].

Definition ex_auth_v : Validator := WithSessions (WithUsers [] (NewValidator "root-token")).
Definition ex_sessions : list session_row :=
  match Create id pretty "eve@x" "eve@x" RoleEditor DefaultSessionTTL (Some "eve-token") "sess-1" 0 [] with
  | Ok (_, tbl) => tbl
  | Err _ => []
  end.

Lemma auth_no_escalation_witness :
  ∃ a p, NewOIDCAuthenticator ex_oidc_config = Ok a ∧
    check id atoi ex_auth_v (Some ["Bearer eve-token"]) 5 ex_sessions = Ok p ∧
    pr_Role p ∈ [RoleViewer; RoleEditor; RoleAdmin].
Proof.
  exists (ok_or (NewOIDCAuthenticator ex_oidc_config) (MkOIDC "" [] "" "")), (MkPrincipal "eve@x" RoleEditor false).
  split; [vm_compute; reflexivity|]. split; [vm_compute; reflexivity|].
  refine (proj1 (auth_no_escalation id pretty atoi (λ _, false) (λ _, true) "/state" UsersAbsent ex_fresh ∅ [] ∅ "root-token"
    (Some (ok_or (NewOIDCAuthenticator ex_oidc_config) (MkOIDC "" [] "" ""))) ex_sessions (Some ["Bearer eve-token"]) 5
    (MkPrincipal "eve@x" RoleEditor false) eq_refl _ _ _)).
  - intros a [= <-]. exists ex_oidc_config. vm_compute. reflexivity.
  - apply rtc_once. eapply (StepOIDC _ _ _ _ _ _ ex_claims "eve@x" RoleEditor (Some "eve-token") "sess-1" 0); [done| |].
    + vm_compute. reflexivity.
    + vm_compute. reflexivity.
  - vm_compute. reflexivity.
Defined.

(** The life of a session: from the moment it is created until its expiry, and
    no longer, its token finds it with the creator's identity and role; its
    creation and its logout leave every other token's session as it was; after
    the logout its token finds nothing. *)
Theorem session_lifetime digest format_time parse_time user name role ttl token id now tbl s tbl' :
  let expiry := (now + if (ttl <=? 0)%Z then DefaultSessionTTL else ttl)%Z in
  Create digest format_time user name role ttl (Some token) id now tbl = Ok (s, tbl') → token ≠ "" →
  parse_time (format_time expiry) = Some expiry →
  (∀ t, Lookup digest parse_time token t tbl' =
          if (expiry <? t)%Z then None
          else Some (MkSession id (if decide (user = "") then DefaultUserID else user) name (format_time now)
                       (format_time expiry) (if decide (rank role = 0) then RoleAdmin else role) "")) ∧
  (∀ t, Lookup digest parse_time token t (DeleteByToken digest token tbl') = None) ∧
  ∀ other t, digest other ≠ digest token →
    Lookup digest parse_time other t tbl' = Lookup digest parse_time other t tbl ∧
    Lookup digest parse_time other t (DeleteByToken digest token tbl') = Lookup digest parse_time other t tbl.
Proof.
  intros expiry Hc Htok Hp. unfold Create in Hc. destruct (decide (_ ∨ _)) as [|Hfresh]; [done|]. injection Hc as <- <-.
  fold expiry. set (row := MkSessionRow _ _ _ _ _ _ _).
  assert (snd <$> list_find (λ r, s_hash r = digest token) tbl = None) as Hnone.
  { destruct (list_find _ tbl) as [[i r]|] eqn:E; [|done]. exfalso. apply Hfresh. right.
    apply list_find_Some in E as (Hi & Hh & _). rewrite <-Hh. apply list_elem_of_fmap_2. by eapply list_elem_of_lookup_2. }
  assert (∀ other, digest other ≠ digest token →
    snd <$> list_find (λ r, s_hash r = digest other) (tbl ++ [row]) = snd <$> list_find (λ r, s_hash r = digest other) tbl) as Hother.
  { intros other Hne. rewrite list_find_snoc. rewrite decide_False by (intros H; exact (Hne (eq_sym H))). by case_match. }
  split_and!.
  - intros t. unfold Lookup. rewrite decide_False by done. rewrite list_find_snoc, Hnone, decide_True by done.
    cbn [row s_id s_user s_display s_role s_created s_expires]. rewrite Hp. case_match; [done|].
    destruct (decide (name = "")) as [E|]; [by rewrite E|done].
  - intros t. unfold Lookup, DeleteByToken. rewrite !decide_False by done.
    destruct (list_find _ (filter _ _)) as [[i r]|] eqn:E; [|done].
    apply list_find_Some in E as (Hi & Hh & _). apply list_elem_of_lookup_2, list_elem_of_filter in Hi as [Hi _]. by destruct Hi.
  - intros other t Hne. unfold DeleteByToken. rewrite (decide_False (P := token = "")) by done. unfold Lookup.
    rewrite list_find_filter_weak by (intros x -> ?; by apply Hne). by rewrite !Hother.
Qed.

Lemma session_lifetime_witness :
  ∃ s tbl, Create id pretty "bob" "laptop" RoleViewer 100 (Some "tok") "sess-1" 7 [] = Ok (s, tbl) ∧
    ss_UserID <$> Lookup id atoi "tok" 107 tbl = Some "bob" ∧ Lookup id atoi "tok" 108 tbl = None.
Proof.
  destruct (Create id pretty "bob" "laptop" RoleViewer 100 (Some "tok") "sess-1" 7 []) as [[s tbl]|] eqn:E.
  - exists s, tbl. split; [done|].
    destruct (session_lifetime id pretty atoi "bob" "laptop" RoleViewer 100 "tok" "sess-1" 7 [] s tbl E) as [H _].
    + discriminate.
    + vm_compute. reflexivity.
    + rewrite !H. by split; vm_compute.
  - vm_compute in E. discriminate E.
Defined.
