(* ===== verification/Dispatcher.v ===== *)
(** The dispatcher: src/internal/controller/operations/dispatcher.go. It claims
    pending operations, resolves [$ref]s and [$secret]s, serves unchanged
    manifests from the verifying-trace cache, calls the provider, persists the
    desired state and records a terminal status.

    A provider's Apply and Delete may change the database (composite providers
    apply children through the same dispatcher and record child operations) and
    the outside world, so the state they act on is the pair of both. *)
From S2P Require Import Prelude GoStrings GoValue Marker Refs Secrets Hash Db OpStore ManifestStore.
From S2P Require Import Registry Digraph Kahn Graph CrossOp.

Section dispatcher.
Context {W PE SE : Type}.
Abbreviation St := (db * W)%type.

(** Whether the stores are wired ([nil] in tests), the operations store, the
    provider registry, the secrets registry, sha256, and error texts. *)
Context (store : Store) (registry : list (string * Provider St PE)).
Context (sink : bool) (secrets : option (Secrets.Registry SE)).
Context (digest : value → string).

Inductive apply_error : Type :=
| ErrNoProviderFor (e : registry_error)
| ErrResolveRefs (e : ref_error (get_error (PE := PE)))
| ErrResolveSecrets (e : secret_error SE)
| ErrApply (e : PE)
| ErrDelete (e : PE)
| ErrDecodeManifest
| ErrUnknownOpType (t : string).

Context (err_text : apply_error → string).

(** Whether [resolveRef] looks into the resource it got: a field below another root than
    [status] and [spec] is an error before. *)
Definition looks_into (ref : Ref) : bool :=
  match split_on dot (Field ref) with
  | root :: _ => bool_decide (Field ref = "" ∨ root = "status" ∨ root = "spec")
  | [] => bool_decide (Field ref = "")
  end.

(** The error that stands for a panic: [resolveRef] dereferences the nil resource that a
    provider returned without an error (Registry.Get). Nothing recovers it, so that the
    process ends where it is. *)
Definition panics (e : apply_error) : bool :=
  match e with ErrResolveRefs (ErrGet ref ErrNilResource) => looks_into ref | _ => false end.

(** [refs.New(d.registry).Resolve] on the manifest's spec. *)
Definition resolve_refs (raw : resource) (st : St) : result apply_error resource :=
  match r_spec raw with
  | None => Ok raw
  | Some _ =>
      match Resolve (Some (λ a k n, Get a k n registry st)) (r_spec raw) with
      | Ok spec => Ok (with_spec raw spec)
      | Err e => Err (ErrResolveRefs e)
      end
  end.

Definition breaks_annotation : string := "openctl.io/i-know-this-breaks-the-cluster".

(** [tryCacheHitInline] *)
Definition tryCacheHitInline (p : Provider St PE) (raw resolved : resource) (st : St) : option resource :=
  if negb sink then None
  else if p_Planner p then None
  else if decide (annotation breaks_annotation raw = "true") then None
  else
    let '(storedInput, storedRefs) := LoadHashes (resource_key raw) st.1 in
    if decide (storedInput = "") then None
    else if decide (Hash digest (Some raw) ≠ storedInput) then None
    else if decide (storedRefs = "" ∨ Hash digest (Some resolved) ≠ storedRefs) then None
    else match p_Get p (r_kind resolved) (r_name resolved) st with
         | Ok (Some res) => Some res
         | _ => None
         end.

(** The secret step of [ApplyManifest]: without a registry, or without a marker,
    the manifest goes on as it is. *)
Definition resolve_secrets (resolved : resource) : result apply_error resource :=
  match secrets, r_spec resolved with
  | Some reg, Some spec =>
      if HasSecrets (Some spec) then
        match ResolveSecrets (Some reg) (Some spec) with
        | Ok spec' => Ok (with_spec resolved spec')
        | Err e => Err (ErrResolveSecrets e)
        end
      else Ok resolved
  | _, _ => Ok resolved
  end.

(** Persisting after a successful Apply; a failure is only logged. *)
Definition save_applied (ctx now : string) (raw resolved : resource) (d : db) : db :=
  if sink then ok_or (SaveWithRefsHash digest ctx (Some raw) (Hash digest (Some resolved)) now d) d
  else d.

(** [ApplyManifest] *)
Definition ApplyManifest (ctx now : string) (raw : resource) (st : St) :
    result apply_error (option resource) * St :=
  match For (r_apiVersion raw) registry with
  | Err e => (Err (ErrNoProviderFor e), st)
  | Ok p =>
      match resolve_refs raw st with
      | Err e => (Err e, st)
      | Ok resolved =>
          match tryCacheHitInline p raw resolved st with
          | Some cached => (Ok (Some cached), st)
          | None =>
              match resolve_secrets resolved with
              | Err e => (Err e, st)
              | Ok applyManifest =>
                  let '(res, st') := p_Apply p applyManifest st in
                  match res with
                  | Err e => (Err (ErrApply e), st')
                  | Ok r => (Ok r, (save_applied ctx now raw resolved st'.1, st'.2))
                  end
              end
          end
      end
  end.

(** [DeleteManifest] *)
Definition DeleteManifest (raw : resource) (st : St) : result apply_error unit * St :=
  match For (r_apiVersion raw) registry with
  | Err e => (Err (ErrNoProviderFor e), st)
  | Ok p =>
      let '(res, st') := p_Delete p (r_kind raw) (r_name raw) st in
      match res with
      | Err e => (Err (ErrDelete e), st')
      | Ok _ => (Ok tt, (if sink then Delete (resource_key raw) st'.1 else st'.1, st'.2))
      end
  end.

(** [d.running] and [d.userCancelled]. *)
Record control : Type := MkControl { running : gset string; userCancelled : gset string }.

(** [CancelRunning] *)
Definition CancelRunning (id : string) (c : control) : control * bool :=
  if decide (id ∈ running c) then (MkControl (running c) ({[id]} ∪ userCancelled c), true)
  else (c, false).

(** [terminalOutcome] *)
Definition terminalOutcome (c : control) (id : string) (e : apply_error) : status * string :=
  if decide (id ∈ userCancelled c) then (StatusCancelled, "canceled by user while running")
  else (StatusFailed, err_text e).

(** [json.Marshal] of the result; an error leaves no text. *)
Definition encode_result (r : option resource) : json_text resource :=
  match r with
  | None => JEmpty
  | Some r => match json_resource r with Some r' => JText r' | None => JEmpty end
  end.

(** [_ = d.store.Complete(...)] *)
Definition complete (id : string) (st : status) (msg : string) (res : json_text resource)
    (now : string) (d : db) : db := ok_or (Complete store id st msg res now d) d.

(** [execute] resolves the references itself before it looks at the cache; it drops an error
    of this resolution, but not a panic. *)
Definition panics_inline (raw : resource) (st : St) : bool :=
  match resolve_refs raw st with Err e => sink && panics e | Ok _ => false end.

(** The cache check [execute] makes itself, to label the operation. *)
Definition cached_inline (p : Provider St PE) (raw : resource) (st : St) : option resource :=
  if sink then
    match r_spec raw with
    | None => None
    | Some _ =>
        match resolve_refs raw st with
        | Ok resolved => tryCacheHitInline p raw resolved st
        | Err _ => None
        end
    end
  else None.

(** The source label [execute] puts on the context of an apply. *)
Definition op_source (op : Operation) : string := if sink then WithSource "" (o_source op) else "".

Definition cached_label : string := "cached: input+refs hashes unchanged since last apply".

(** [execute]; [control] is what the maps hold when the provider has returned. A panic
    leaves the state as it is, the operation running. *)
Definition execute (c : control) (now : string) (op : Operation) (st : St) : St :=
  let finish s msg res (st : St) := (complete (o_id op) s msg res now st.1, st.2) in
  match For (o_key op).1.1 registry with
  | Err e => finish StatusFailed (err_text (ErrNoProviderFor e)) JEmpty st
  | Ok p =>
      if decide (o_type op = TypeApply) then
        match o_manifest op with
        | JText raw =>
            if panics_inline raw st then st else
            match cached_inline p raw st with
            | Some cached =>
                finish StatusSucceeded "" (encode_result (Some cached)) (SetLabel (o_id op) cached_label st.1, st.2)
            | None =>
                let '(res, st') := ApplyManifest (op_source op) now raw st in
                match res with
                | Err e =>
                    if panics e then st'
                    else let '(s, msg) := terminalOutcome c (o_id op) e in finish s msg JEmpty st'
                | Ok r => finish StatusSucceeded "" (encode_result r) st'
                end
            end
        | _ => finish StatusFailed (err_text ErrDecodeManifest) JEmpty st
        end
      else if decide (o_type op = TypeDelete) then
        let '(res, st') := p_Delete p (o_key op).1.2 (o_key op).2 st in
        match res with
        | Err e => let '(s, msg) := terminalOutcome c (o_id op) (ErrDelete e) in finish s msg JEmpty st'
        | Ok _ => finish StatusSucceeded "" JEmpty (if sink then Delete (o_key op) st'.1 else st'.1, st'.2)
        end
      else finish StatusFailed (err_text (ErrUnknownOpType (o_type op))) JEmpty st
  end.

(** The claiming loop of [drainScheduled]; one claim per pending row. *)
Fixpoint claim_all (fuel : nat) (now : string) (d : db) : list Operation * db :=
  match fuel with
  | 0 => ([], d)
  | S fuel' =>
      match ClaimNextPending now d with
      | None => ([], d)
      | Some (d', op) => let '(ops, d'') := claim_all fuel' now d' in (op :: ops, d'')
      end
  end.

Definition claim_batch (now : string) (d : db) : list Operation * db :=
  claim_all (length (filter (λ o, o_status o = StatusPending) (db_ops d))) now d.

(** The edges [drainScheduled] schedules with: none when they cannot be derived
    or form a cycle. *)
Definition batch_edges (batch : list Operation) : adj :=
  match crossOpEdges batch with
  | Err _ => []
  | Ok edges => if crossOpAcyclic (map o_id batch) edges then edges else []
  end.

Definition batch_tasks (batch : list Operation) : list Task :=
  map (λ op, MkTask (o_id op) (deps_of (batch_edges batch) (o_id op))) batch.

Definition label_batch (batch : list Operation) (d : db) : db :=
  fold_left (λ d l, SetLabel l.1 l.2 d) (crossOpDependencyLabels batch (batch_edges batch)) d.
End dispatcher.

(** ** Laws *)

Lemma complete_terminal store id st msg res now d o :
  st = StatusSucceeded ∨ st = StatusFailed ∨ st = StatusCancelled →
  o ∈ db_ops (complete store id st msg res now d) → o_id o = id → IsTerminal o = true.
Proof.
  intros Hst Ho Hid. unfold complete in Ho.
  assert (∃ d', Complete store id st msg res now d = Ok d' ∧
    ∀ x, x ∈ db_ops d' → x ∈ db_ops (update_op id (complete_row st msg res now) d)) as (d' & Hc & Hsub).
  { set (d1 := update_op id (complete_row st msg res now) d).
    assert (Complete store id st msg res now d =
      if decide (retainPerResource store = 0) then Ok d1
      else match OpStore.Get d1 id with None => Ok d1 | Some op => Ok (gcResource store (o_key op) d1) end) as ->.
    { by destruct Hst as [-> |[-> | ->]]. }
    case_decide; [by eexists|]. destruct (OpStore.Get d1 id) as [op|]; [|by eexists].
    eexists. split; [done|]. intros x Hx. destruct (gc_sub store (o_key op) d1) as [vs Hvs].
    rewrite Hvs in Hx. by apply list_elem_of_filter in Hx as [_ ?]. }
  rewrite Hc in Ho. simpl in Ho. apply Hsub in Ho. simpl in Ho.
  apply list_elem_of_fmap in Ho as (x & Hx & _). destruct (decide (o_id x = id)) as [Hxi|Hxi].
  - rewrite Hx. unfold IsTerminal. simpl. by destruct Hst as [-> |[-> | ->]].
  - subst x. done.
Qed.

Lemma filter_map_le {A} (P : A → Prop) `{∀ x, Decision (P x)} (f : A → A) l :
  (∀ x, P (f x) → P x) → length (filter P (map f l)) ≤ length (filter P l).
Proof.
  intros Hf. induction l as [|x l IH]; simpl; [done|]. rewrite !filter_cons.
  destruct (decide (P (f x))) as [HP|HP].
  - rewrite decide_True by auto. simpl. lia.
  - case_decide; simpl; lia.
Qed.

Lemma filter_map_lt {A} (P : A → Prop) `{∀ x, Decision (P x)} (f : A → A) l y :
  (∀ x, P (f x) → P x) → y ∈ l → P y → ¬ P (f y) → length (filter P (map f l)) < length (filter P l).
Proof.
  intros Hf Hy Py Pfy. apply list_elem_of_split in Hy as (l1 & l2 & ->).
  rewrite map_app, !filter_app, !length_app. simpl. rewrite !filter_cons.
  rewrite decide_False by done. rewrite decide_True by done. simpl.
  pose proof (filter_map_le P f l1 Hf). pose proof (filter_map_le P f l2 Hf). lia.
Qed.

Definition pending (d : db) : list Operation := filter (λ o, o_status o = StatusPending) (db_ops d).

Lemma claim_None now d : ClaimNextPending now d = None → pending d = [].
Proof.
  unfold ClaimNextPending. fold (pending d).
  destruct (order_asc (pending d)) as [|op l] eqn:E; [|done]. intros _.
  apply Permutation_nil. rewrite <-E. unfold order_asc. by rewrite merge_sort_Permutation.
Qed.

Lemma claim_step now d d' o :
  ops_inv d → ClaimNextPending now d = Some (d', o) →
  ops_inv d' ∧ length (pending d') < length (pending d) ∧
  (∀ x, x ∈ pending d' ↔ x ∈ pending d ∧ o_id x ≠ o_id o) ∧ o_id o ∈ map o_id (pending d).
Proof.
  intros Hinv Hc. pose proof (ops_inv_step (MkStore 0) d d' Hinv (step_claim _ _ now d' o Hc)) as Hinv'.
  apply claim_Some in Hc as (op & Hop & Hst & -> & ->). split; [done|].
  assert (∀ x, o_status (if decide (o_id x = o_id op) then claim_row now x else x) = StatusPending →
    o_status x = StatusPending ∧ o_id x ≠ o_id op) as Hf.
  { intros x. case_decide; [done|]. auto. }
  split_and!.
  - unfold pending. simpl. eapply filter_map_lt; [|exact Hop|done|].
    + intros x Hx. by apply Hf.
    + by rewrite decide_True.
  - intros x. unfold pending. rewrite !list_elem_of_filter. simpl. rewrite list_elem_of_fmap. split.
    + intros [Hx (y & -> & Hy)]. pose proof (Hf y Hx) as [Hys Hyi].
      rewrite decide_False in Hx by done. rewrite decide_False by done. done.
    + intros [[Hx Hin] Hi]. split; [done|]. exists x. by rewrite decide_False.
  - simpl. apply list_elem_of_fmap. exists op. split; [done|]. by apply list_elem_of_filter.
Qed.

(** Claiming takes every pending operation once and leaves none. *)
Lemma claim_all_spec fuel now d ops d' :
  ops_inv d → length (pending d) ≤ fuel → claim_all fuel now d = (ops, d') →
  pending d' = [] ∧ NoDup (map o_id ops) ∧
  (∀ i, i ∈ map o_id ops ↔ i ∈ map o_id (pending d)).
Proof.
  revert d ops; induction fuel as [|fuel IH]; intros d ops Hinv Hle; simpl.
  - intros [= <- <-]. assert (pending d = []) as -> by (apply length_zero_iff_nil; lia).
    split_and!; [done|constructor|done].
  - destruct (ClaimNextPending now d) as [[d1 o]|] eqn:Hc.
    + destruct (claim_all fuel now d1) as [ops1 d2] eqn:E. intros [= <- <-].
      destruct (claim_step _ _ _ _ Hinv Hc) as (Hinv1 & Hlt & Hp & Ho).
      apply IH in E as (H1 & H2 & H3); [|done|lia]. split; [done|]. simpl.
      assert (∀ i, i ∈ map o_id (pending d1) ↔ i ∈ map o_id (pending d) ∧ i ≠ o_id o) as Hids.
      { intros i. rewrite !list_elem_of_fmap. split.
        - intros (x & -> & [Hx Hi]%Hp). split; [by exists x|done].
        - intros [(x & -> & Hx) Hi]. exists x. split; [done|]. by apply Hp. }
      split.
      * constructor; [|done]. rewrite H3, Hids. tauto.
      * intros i. rewrite elem_of_cons, H3, Hids.
        destruct (decide (i = o_id o)) as [->|]; tauto.
    + intros [= <- <-]. apply claim_None in Hc as ->. split_and!; [done|constructor|done].
Qed.

Lemma batch_edges_ok batch :
  NoDup (map o_id batch) →
  (∀ x, x ∈ (batch_edges batch).*1 → x ∈ map o_id batch) ∧
  (∀ x y, dep_rel (batch_edges batch) x y → y ∈ map o_id batch) ∧
  acyclic (dep_rel (batch_edges batch)).
Proof.
  intros Hnd. unfold batch_edges. destruct (crossOpEdges batch) as [edges|e] eqn:E.
  - destruct (crossOpEdges_facts _ _ Hnd E) as (Hk & Hin & _).
    assert (∀ x, x ∈ edges.*1 → x ∈ map o_id batch) as H1.
    { intros x Hx. apply list_elem_of_fmap in Hx as ([x' deps] & -> & Hx). by apply Hin in Hx as [? _]. }
    assert (∀ x y, dep_rel edges x y → y ∈ map o_id batch) as H2.
    { intros x y Hxy. apply dep_rel_elem in Hxy as (deps & Hx & Hy); [|done].
      apply Hin in Hx as (_ & Hd & _). by apply Hd. }
    destruct (crossOpAcyclic _ _) eqn:Ha.
    + split_and!; [done..|]. by apply (crossOpAcyclic_acyclic (map o_id batch)).
    + split_and!; [by intros ? ?%elem_of_nil|by intros ?? ?%elem_of_nil|].
      apply (ranked_acyclic _ (λ _, 0)). by intros ?? ?%elem_of_nil.
  - split_and!; [by intros ? ?%elem_of_nil|by intros ?? ?%elem_of_nil|].
    apply (ranked_acyclic _ (λ _, 0)). by intros ?? ?%elem_of_nil.
Qed.

Lemma batch_tasks_ids batch : map ID (batch_tasks batch) = map o_id batch.
Proof. unfold batch_tasks. rewrite map_map. done. Qed.

Lemma batch_tasks_graph batch :
  graph_of (batch_tasks batch) = batch_graph (map o_id batch) (batch_edges batch).
Proof. unfold graph_of, batch_tasks, batch_graph. by rewrite !map_map. Qed.

Lemma batch_setup {E} batch :
  NoDup (map o_id batch) →
  (∃ st, setup (E := E) (batch_tasks batch) = Ok st) ∧ acyclic (dep_rel (graph_of (batch_tasks batch))).
Proof.
  intros Hnd. destruct (batch_edges_ok batch Hnd) as (Hk & Hd & Hac). split.
  - unfold setup. rewrite batch_tasks_ids, first_dup_NoDup by (done || intros ? _; apply not_elem_of_nil).
    rewrite first_unknown_closed; [by eexists|]. apply Forall_forall. intros t Ht.
    apply list_elem_of_fmap in Ht as (op & -> & Hop). simpl. apply Forall_forall. intros y Hy. by eapply Hd.
  - intros x Hx. apply (Hac x). revert Hx. apply tc_mono. intros a b.
    rewrite batch_tasks_graph. by apply batch_graph_rel.
Qed.

Lemma For_apiVersion {St PE} a (r : list (string * Provider St PE)) p : For a r = Ok p → a ≠ "".
Proof. by intros H ->. Qed.

(** What the hash of a manifest and of its resolution are after an apply. *)
Lemma save_applied_hashes digest ctx now raw resolved d :
  r_apiVersion raw ≠ "" → r_kind raw ≠ "" → r_name raw ≠ "" →
  db_releases d !! resource_key raw = None → is_ok (encode_spec (r_spec raw)) = true →
  LoadHashes (resource_key raw) (save_applied true digest ctx now raw resolved d) =
    (Hash digest (Some raw), Hash digest (Some resolved)).
Proof.
  intros Ha Hk Hn Hrel Henc. unfold save_applied, SaveWithRefsHash.
  rewrite decide_False by naive_solver. rewrite (proj2 (CheckNotForgotten_true _ _)) by done. simpl.
  unfold saveManifest. destruct (encode_spec (r_spec raw)) as [spec|e]; [|done]. simpl.
  unfold LoadHashes. simpl. by rewrite lookup_insert_eq.
Qed.
(** A reference of a manifest that its provider answers with nil and no error. *)
Definition nil_ref {W PE} (registry : list (string * Provider (db * W) PE)) (raw : resource) (ref : Ref) (st : db * W) : Prop :=
  ∃ spec p, r_spec raw = Some spec ∧ ref ∈ markers (extractRef (G := get_error (PE := PE))) (VMap spec) ∧
    For (APIVersion ref) registry = Ok p ∧ p_Get p (Kind ref) (Name ref) st = Ok None ∧ looks_into ref = true.

(** The reference resolver panics on such a reference only. *)
Lemma resolve_refs_panics {W PE SE} (registry : list (string * Provider (db * W) PE)) raw st e :
  resolve_refs (SE := SE) registry raw st = Err e → panics e = true → ∃ ref, nil_ref registry raw ref st.
Proof.
  unfold resolve_refs. destruct (r_spec raw) as [spec|] eqn:Hs; [|done].
  destruct (Resolve _ _) as [|e'] eqn:Hr; [done|]. intros [= <-] Hp. destruct e' as [| | |ref ge| |]; try done.
  destruct ge; try done. simpl in Hp. unfold Resolve, resolve_spec in Hr.
  destruct (walk _ _ _) as [v|e'] eqn:Hw; [by destruct v|]. injection Hr as ->.
  apply walk_error in Hw as [[x Hx]|(r & Hin & Hrr)].
  - unfold extractRef in Hx. repeat case_match; simplify_eq; by case_decide.
  - unfold resolveRef, Get in Hrr. destruct (For _ _) as [p|] eqn:Hf; [|done].
    destruct (p_Get _ _ _ _) as [[y|]|] eqn:Hg; [|injection Hrr as <-; by exists r, spec, p|done].
    case_decide; [done|]. by destruct (walkPath _ _).
Qed.

Lemma panics_inline_nil {W PE SE} (registry : list (string * Provider (db * W) PE)) sink raw st :
  panics_inline (SE := SE) registry sink raw st = true → ∃ ref, nil_ref registry raw ref st.
Proof.
  unfold panics_inline. destruct (resolve_refs _ _ _) as [|e] eqn:Hr; [done|]. intros [_ Hp]%andb_true_iff.
  by eapply resolve_refs_panics.
Qed.

Lemma ApplyManifest_panics {W PE SE} (registry : list (string * Provider (db * W) PE)) sink
    (secrets : option (Secrets.Registry SE)) digest ctx now raw st e st' :
  ApplyManifest registry sink secrets digest ctx now raw st = (Err e, st') → panics e = true →
  st' = st ∧ ∃ ref, nil_ref registry raw ref st.
Proof.
  unfold ApplyManifest. destruct (For _ _) as [p|e']; [|by intros [= <- <-]].
  destruct (resolve_refs (SE := SE) registry raw st) as [resolved|e'] eqn:Hr.
  - destruct (tryCacheHitInline _ _ _ _ _ _); [done|].
    destruct (resolve_secrets _ _) as [m|e'] eqn:Hs.
    + destruct (p_Apply _ _ _) as [[r|e'] st'']; [done|]. by intros [= <- <-].
    + intros [= <- <-]. unfold resolve_secrets in Hs. repeat case_match; simplify_eq; done.
  - intros [= <- <-] Hp. split; [done|]. by eapply resolve_refs_panics.
Qed.

(** The database without the result of an operation. *)
Definition without_result (id : string) : db → db :=
  update_op id (λ o, with_status_of o (o_status o) (o_error o) JEmpty (o_started o) (o_completed o)).

Lemma update_op_twice id f g d :
  (∀ o, o_id (g o) = o_id o) → update_op id f (update_op id g d) = update_op id (λ o, f (g o)) d.
Proof.
  intros Hg. unfold update_op, set_ops. simpl. f_equal. rewrite map_map. apply map_ext. intros o.
  destruct (decide (o_id o = id)) as [Hid|Hid]; [by rewrite decide_True by by rewrite Hg|by rewrite decide_False].
Qed.

Lemma Get_update_op_key id f d :
  (∀ o, o_id (f o) = o_id o ∧ o_key (f o) = o_key o) →
  o_key <$> OpStore.Get (update_op id f d) id = o_key <$> OpStore.Get d id.
Proof.
  intros Hf. unfold OpStore.Get, find_op, update_op. simpl. induction (db_ops d) as [|o l IH]; [done|]. simpl.
  destruct (Hf o) as [Hi Hk]. destruct (decide (o_id o = id)) as [Hid|Hid].
  - rewrite decide_True by by rewrite Hi. simpl. by rewrite Hk.
  - rewrite decide_False by done. destruct (list_find _ l) as [[]|], (list_find _ (map _ l)) as [[]|]; done.
Qed.

(** The result an operation completes with reaches only its row's result column. *)
Lemma complete_result_only store id s msg r1 r2 now d :
  without_result id (complete store id s msg r1 now d) = without_result id (complete store id s msg r2 now d).
Proof.
  set (u r := update_op id (complete_row s msg r now) d).
  assert (without_result id (u r1) = without_result id (u r2)) as Hu.
  { unfold without_result, u. by rewrite !update_op_twice. }
  assert (∀ k, without_result id (gcResource store k (u r1)) = without_result id (gcResource store k (u r2))) as Hgc.
  { intros k. unfold without_result in *. by rewrite <-!gc_update_op, Hu. }
  assert (o_key <$> OpStore.Get (u r1) id = o_key <$> OpStore.Get (u r2) id) as Hk.
  { unfold u. by rewrite !Get_update_op_key. }
  unfold complete, Complete. fold (u r1) (u r2).
  destruct s; try done; simpl; (case_decide; [done|]);
    (destruct (OpStore.Get (u r1) id), (OpStore.Get (u r2) id); simpl in *; (done || (injection Hk as ->; done) || done)).
Qed.

(** What [ApplyManifest] leaves in the tables does not depend on the secrets. *)
Lemma ApplyManifest_blind {W PE SE} (registry : list (string * Provider (db * W) PE)) sink
    (secrets1 secrets2 : option (Secrets.Registry SE)) digest ctx now raw st r1 r2 st1 st2 :
  (∀ name p r st, (name, p) ∈ registry → (p_Apply p r st).2.1 = st.1) →
  ApplyManifest registry sink secrets1 digest ctx now raw st = (Ok r1, st1) →
  ApplyManifest registry sink secrets2 digest ctx now raw st = (Ok r2, st2) →
  st1.1 = st2.1.
Proof.
  intros Hp. unfold ApplyManifest. destruct (For _ _) as [p|] eqn:Hfor; [|done].
  assert (∃ name, (name, p) ∈ registry) as [name Hin].
  { unfold For in Hfor. case_decide; [done|]. destruct (assoc _ registry) eqn:Ha; [|done].
    injection Hfor as <-. eexists. by apply assoc_elem. }
  destruct (resolve_refs (SE := SE) _ _ _) as [resolved|]; [|done].
  destruct (tryCacheHitInline _ _ _ _ _ _); [by intros [= _ <-] [= _ <-]|].
  assert (∀ secrets r st', match @resolve_secrets PE SE secrets resolved with
    | Ok m => let '(res, st') := p_Apply p m st in
        match res with
        | Ok r => (Ok r, (save_applied sink digest ctx now raw resolved st'.1, st'.2))
        | Err e => (Err (ErrApply e), st')
        end
    | Err e => (Err e, st)
    end = (Ok r, st') → st'.1 = save_applied sink digest ctx now raw resolved st.1) as Hgen.
  { intros secrets r st'. destruct (resolve_secrets secrets resolved) as [m|]; [|done].
    pose proof (Hp name p m st Hin) as Hdb. destruct (p_Apply p m st) as [[r'|] st'']; [|done].
    cbn [fst snd] in *. intros [= _ <-]. simpl. by rewrite Hdb. }
  intros H1 H2. apply Hgen in H1, H2. congruence.
Qed.

(** ** Properties *)

(** C22: [execute] brings its operation to an end, whatever the operation's type or
    payload, whatever the provider answers and whether or not the user cancels
    meanwhile: every row with the operation's id that is left afterwards has a terminal
    status. The one exception is the panic of the reference resolver: an apply whose
    manifest has a [$ref] into a resource that its provider's Get answers with nil and
    no error; there the process ends with the state, and the operation's row, as they
    were. *)
Theorem execute_terminal {W PE SE} store (registry : list (string * Provider (db * W) PE)) sink
    (secrets : option (Secrets.Registry SE)) digest err_text c now op st :
  let st' := execute store registry sink secrets digest err_text c now op st in
  (∀ o, o ∈ db_ops st'.1 → o_id o = o_id op → IsTerminal o = true) ∨
  st' = st ∧ o_type op = TypeApply ∧ ∃ raw ref, o_manifest op = JText raw ∧ nil_ref registry raw ref st.
Proof.
  intros st'.
  assert (∀ s msg res (x : db * W),
    s = StatusSucceeded ∨ s = StatusFailed ∨ s = StatusCancelled →
    ∀ o, o ∈ db_ops (complete store (o_id op) s msg res now x.1, x.2).1 → o_id o = o_id op → IsTerminal o = true) as Hdone.
  { intros s msg res x Hs o Hin Hid. by eapply complete_terminal. }
  unfold st', execute, terminalOutcome. clear st'.
  destruct (For _ _) as [p|e]; [|left; apply Hdone; auto].
  case_decide as Ht.
  - destruct (o_manifest op) as [| |raw] eqn:Hm; [left; apply Hdone; by auto..|].
    destruct (panics_inline _ _ _ _) eqn:Hpi.
    { right. split_and!; [done..|]. exists raw. apply panics_inline_nil in Hpi as [ref ?]. by exists ref. }
    destruct (cached_inline _ _ _ _ _ _); [left; apply (Hdone _ _ _ (_, _)); auto|].
    destruct (ApplyManifest _ _ _ _ _ _ _ _) as [[r|e] st'] eqn:Ha; [left; apply Hdone; auto|].
    destruct (panics e) eqn:Hpe.
    + right. apply ApplyManifest_panics in Ha as [-> [ref ?]]; [|done]. split_and!; [done..|]. by exists raw, ref.
    + left. case_decide; (apply Hdone; auto).
  - left. case_decide; [|apply Hdone; auto].
    destruct (p_Delete _ _ _ _) as [[r|e] st']; [apply (Hdone _ _ _ (_, _)); auto|].
    case_decide; (apply Hdone; auto).
Qed.

Definition ex_err_text {PE SE} (e : apply_error (PE := PE) (SE := SE)) : string := "failed".
Definition ex_registry : list (string * Provider (db * unit) string) := [("proxmox", ex_provider "proxmox")].
Definition ex_run (now : string) (o : Operation) (d : db) : db :=
  (execute (W := unit) (SE := string) example_store ex_registry true None ex_digest ex_err_text
    (MkControl {["op-1"]} ∅) now o (d, tt)).1.

Definition ex_claimed : Operation :=
  MkOperation "op-1" "" TypeApply (resource_key ex_vm) "" (JText ex_vm) JEmpty StatusRunning "" "" "" "" "cli".

Example execute_succeeds :
  ∃ o, db_ops (ex_run "t2" ex_claimed example_db) = [o] ∧ o_status o = StatusSucceeded ∧ IsTerminal o = true.
Proof. eexists. split; [vm_compute; reflexivity|]. split; reflexivity. Qed.

(** A provider that answers nil without an error (as an out-of-process plugin's response
    without a resource reads) takes the controller down with it: the operation is left running. *)
Definition ex_nil_provider : Provider (db * unit) string :=
  MkProvider "proxmox" ["VirtualMachine"] (λ r st, (Ok (Some r), st)) (λ _ _ _, Ok None)
    (λ _ _, Ok []) (λ _ _ st, (Ok tt, st)) None None None None None None None None None.
Definition ex_ref_op : Operation :=
  MkOperation "op-1" "" TypeApply (resource_key ex_vm) "" (JText (with_spec ex_vm (Some [("host", VMap [("$ref",
    VMap [("apiVersion", VStr "proxmox.openctl.io/v1"); ("kind", VStr "VirtualMachine"); ("name", VStr "web")])])])))
    JEmpty StatusRunning "" "" "" "" "cli".

Example nil_answer_panics :
  execute (SE := string) example_store [("proxmox", ex_nil_provider)] true None ex_digest ex_err_text
    (MkControl {["op-1"]} ∅) "t2" ex_ref_op (set_ops empty_db [ex_ref_op], tt) = (set_ops empty_db [ex_ref_op], tt).
Proof. vm_compute. reflexivity. Qed.

(** A drained batch: every pending operation is claimed exactly once and
    none is left pending; the batch always is a valid, acyclic task graph,
    whatever its manifests reference; and every complete run of it that is not
    canceled succeeds and executes each claimed operation exactly once. *)
Theorem drainScheduled_complete now d batch d' concurrency :
  ops_inv d → claim_batch now d = (batch, d') →
  pending d' = [] ∧ NoDup (map o_id batch) ∧
  (∀ i, i ∈ map o_id batch ↔ i ∈ map o_id (pending d)) ∧
  ∃ st : gstate Empty_set, setup (batch_tasks batch) = Ok st ∧
    ∀ evs st', Forall (λ ev, ev_canceled ev = false) evs →
      drain concurrency (batch_tasks batch) evs (launch_ready concurrency st) = Some st' →
      verdict (batch_tasks batch) st' false = Ok tt ∧ done_ids st' ≡ₚ map o_id batch.
Proof.
  intros Hinv Hc. apply claim_all_spec in Hc as (H1 & H2 & H3); [|done..].
  split_and!; [done..|]. destruct (batch_setup (E := Empty_set) batch H2) as [[st Hst] Hac].
  exists st. split; [done|]. intros evs st' Hev Hdr.
  destruct (run_verdict _ _ _ _ _ false Hst Hdr) as [Hall Hv].
  assert (verdict (batch_tasks batch) st' false = Ok tt) as Hok.
  { apply Hv; [|done..]. eapply Forall_impl; [exact Hev|]. intros ev Hev1. by destruct (ev_err ev). }
  split; [done|]. destruct (drain_reach _ _ _ _ _ (reach_start _ _ _ Hst) Hdr) as [Hr _].
  apply g_reach_inv in Hr as [_ Hg]. rewrite <-batch_tasks_ids. apply NoDup_Permutation.
  - pose proof (gi_nodup _ _ _ Hg) as Hn. by apply NoDup_app in Hn as (_ & _ & ?).
  - by rewrite batch_tasks_ids.
  - intros x. split.
    + intros Hx. apply (gi_tasks _ _ _ Hg). apply elem_of_app. by right.
    + intros (t & -> & Ht)%list_elem_of_fmap. apply list_elem_of_fmap. exists (ID t, None).
      split; [done|]. by apply Hall.
Qed.

Definition ex_ref_vm : resource :=
  Resource "proxmox.openctl.io/v1" "VirtualMachine" (ResourceMetadata "db" "" [] [] "" "")
    (Some [("host", VMap [("$ref", VMap [("apiVersion", VStr "proxmox.openctl.io/v1");
      ("kind", VStr "VirtualMachine"); ("name", VStr "web"); ("path", VStr "status.ip")])])]) None.

Definition ex_op (id name at_ : string) (r : resource) : Operation :=
  MkOperation id "" TypeApply ("proxmox.openctl.io/v1", "VirtualMachine", name) "" (JText r) JEmpty
    StatusPending "" at_ "" "" "cli".

(** The dependent operation was submitted first. *)
Definition ex_queue : db := set_ops empty_db [ex_op "op-2" "db" "t0" ex_ref_vm; ex_op "op-1" "web" "t1" ex_vm].

Lemma drainScheduled_complete_witness :
  map o_id (claim_batch "t2" ex_queue).1 = ["op-2"; "op-1"] ∧
  batch_tasks (claim_batch "t2" ex_queue).1 = [MkTask "op-2" ["op-1"]; MkTask "op-1" []] ∧
  pending (claim_batch "t2" ex_queue).2 = [].
Proof.
  split; [vm_compute; reflexivity|]. split; [vm_compute; reflexivity|].
  refine (proj1 (drainScheduled_complete "t2" ex_queue (claim_batch "t2" ex_queue).1
    (claim_batch "t2" ex_queue).2 4 _ _)).
  - split; by_decide.
  - by destruct (claim_batch "t2" ex_queue).
Defined.

(** C5: The verifying-trace cache: after an apply of [raw] was persisted with its
    resolution [resolved], a lookup for a manifest of the same resource, of whatever
    provider and with whatever annotations, whose references resolve is a hit exactly when
    the provider is no Planner, the manifest does not carry the annotation
    i-know-this-breaks-the-cluster, and the manifest and its resolution hash to the recorded values; a
    hit is answered by what the provider's Get answers (a failing Get makes it a miss), and
    applying such a manifest then returns that answer, changes nothing, and neither reads a
    secret nor calls the provider's Apply. (The apply was persisted: the resource is not
    under a release, its spec is encodable, and neither hash is empty.) *)
Theorem apply_cache {W PE SE} (registry : list (string * Provider (db * W) PE))
    (secrets : option (Secrets.Registry SE)) digest ctx ctx' now now' p raw resolved raw' resolved' d w x :
  let st := (save_applied true digest ctx now raw resolved d, w) in
  For (r_apiVersion raw) registry = Ok p → r_kind raw ≠ "" → r_name raw ≠ "" →
  db_releases d !! resource_key raw = None → is_ok (encode_spec (r_spec raw)) = true →
  Hash digest (Some raw) ≠ "" → Hash digest (Some resolved) ≠ "" →
  resource_key raw' = resource_key raw → resolve_refs (SE := SE) registry raw' st = Ok resolved' →
  let hit := p_Planner p = false ∧ annotation breaks_annotation raw' ≠ "true" ∧
             Hash digest (Some raw') = Hash digest (Some raw) ∧
             Hash digest (Some resolved') = Hash digest (Some resolved) in
  let answer := match p_Get p (r_kind raw') (r_name raw') st with Ok (Some x) => Some x | _ => None end in
  tryCacheHitInline true digest p raw' resolved' st = (if decide hit then answer else None) ∧
  (hit → answer = Some x → ApplyManifest registry true secrets digest ctx' now' raw' st = (Ok (Some x), st)).
Proof.
  intros st Hfor Hk Hn Hrel Henc Hh Hrh Hkey Href hit answer.
  assert (r_kind resolved' = r_kind raw' ∧ r_name resolved' = r_name raw') as [Hrk Hrn].
  { unfold resolve_refs in Href. destruct (r_spec raw'); [|by injection Href as <-].
    destruct (Resolve _ _); [|done]. by injection Href as <-. }
  assert (tryCacheHitInline true digest p raw' resolved' st = (if decide hit then answer else None)) as Hhit.
  { unfold tryCacheHitInline, hit. cbn [negb]. destruct (p_Planner p); [by rewrite decide_False by naive_solver|].
    rewrite Hkey. unfold st at 1. cbn [fst].
    rewrite save_applied_hashes by (done || by eapply For_apiVersion).
    rewrite (decide_False (P := Hash digest (Some raw) = "")) by done. rewrite Hrk, Hrn. fold answer.
    repeat case_decide; (done || (exfalso; naive_solver)). }
  split; [done|]. intros Hu Ha. rewrite decide_True, Ha in Hhit by done.
  unfold ApplyManifest. assert (r_apiVersion raw' = r_apiVersion raw) as -> by by injection Hkey.
  by rewrite Hfor, Href, Hhit.
Qed.

Definition ex_live_provider : Provider (db * unit) string :=
  MkProvider "proxmox" ["VirtualMachine"] (λ r st, (Ok (Some r), st)) (λ _ _ _, Ok (Some ex_vm))
    (λ _ _, Ok []) (λ _ _ st, (Ok tt, st)) None None None None None None None None None.

(** The provider of the witness would fail if it were called. *)
Definition ex_failing_provider : Provider (db * unit) string :=
  MkProvider "proxmox" ["VirtualMachine"] (λ r st, (Err "called", st)) (λ _ _ _, Ok (Some ex_vm))
    (λ _ _, Ok []) (λ _ _ st, (Ok tt, st)) None None None None None None None None None.

Lemma apply_cache_witness :
  (ApplyManifest (SE := string) [("proxmox", ex_failing_provider)] true None ex_digest "" "t2" ex_vm
    (save_applied true ex_digest "" "t1" ex_vm ex_vm empty_db, tt)).1 = Ok (Some ex_vm) ∧
  (ApplyManifest (SE := string) [("proxmox", ex_failing_provider)] true None ex_digest "" "t2" ex_vm
    (empty_db, tt)).1 = Err (ErrApply "called").
Proof.
  split; [|vm_compute; reflexivity].
  refine (f_equal fst (proj2 (apply_cache (SE := string) [("proxmox", ex_failing_provider)] None ex_digest "" "" "t1" "t2"
    ex_failing_provider ex_vm ex_vm ex_vm ex_vm empty_db tt ex_vm eq_refl ltac:(discriminate) ltac:(discriminate)
    eq_refl eq_refl ltac:(discriminate) ltac:(discriminate) eq_refl eq_refl) _ _)).
  - split; [reflexivity|]. split; [discriminate|]. split; reflexivity.
  - reflexivity.
Defined.

(** C4: Of the secrets that an apply resolves, the controller itself stores nothing but the
    provider's answer: two executions of the same apply operation from the same state that
    differ only in what the secret providers answer, and whose applies both succeed, save
    the same manifest with the same hashes and leave the same database in every table, row
    and column, except the result column of the operation's own row, which holds what the
    provider's Apply returned; as long as the providers themselves do not write to the
    tables. *)
Theorem secrets_never_stored {W PE SE} store (registry : list (string * Provider (db * W) PE)) sink
    (secrets1 secrets2 : option (Secrets.Registry SE)) digest err_text c now op raw st r1 r2 st1 st2 :
  (∀ name p r st, (name, p) ∈ registry → (p_Apply p r st).2.1 = st.1) →
  o_type op = TypeApply → o_manifest op = JText raw →
  ApplyManifest registry sink secrets1 digest (op_source sink op) now raw st = (Ok r1, st1) →
  ApplyManifest registry sink secrets2 digest (op_source sink op) now raw st = (Ok r2, st2) →
  st1.1 = st2.1 ∧
  without_result (o_id op) (execute store registry sink secrets1 digest err_text c now op st).1 =
  without_result (o_id op) (execute store registry sink secrets2 digest err_text c now op st).1.
Proof.
  intros Hp Ht Hm H1 H2.
  assert (st1.1 = st2.1) as Heq.
  { by eapply ApplyManifest_blind. }
  split; [done|]. unfold execute. destruct (For _ _) as [p|]; [|apply complete_result_only].
  rewrite !(decide_True (P := o_type op = TypeApply)), Hm by done.
  destruct (panics_inline _ _ _ _); [done|]. destruct (cached_inline _ _ _ _ _ _); [done|].
  rewrite H1, H2. cbn [fst snd]. rewrite Heq. apply complete_result_only.
Qed.

Definition ex_secret_vm : resource :=
  with_spec ex_vm (Some [("password", VMap [(SecretMarker, VMap [("env", VStr "PW")])])]).
Definition ex_secrets (pw : string) : option (Secrets.Registry builtin_error) :=
  Some (Secrets.Register (EnvProvider (λ _, Some pw)) ∅).

Definition ex_secret_op : Operation :=
  MkOperation "op-1" "" TypeApply (resource_key ex_secret_vm) "" (JText ex_secret_vm) JEmpty StatusRunning "" "" "" "" "cli".
Definition ex_secret_run (pw : string) : db :=
  (execute example_store [("proxmox", ex_live_provider)] true (ex_secrets pw) ex_digest (λ _, "failed")
    (MkControl {["op-1"]} ∅) "t" ex_secret_op (set_ops empty_db [ex_secret_op], tt)).1.

(** The state its apply leaves. *)
Definition ex_secret_apply (pw : string) : db * unit :=
  (ApplyManifest [("proxmox", ex_live_provider)] true (ex_secrets pw) ex_digest (op_source true ex_secret_op) "t" ex_secret_vm
    (set_ops empty_db [ex_secret_op], tt)).2.

(** The plaintext is stored: in the result column. *)
Example result_holds_secret :
  map o_result (db_ops (ex_secret_run "hunter2")) = [JText (with_spec ex_vm (Some [("password", VStr "hunter2")]))].
Proof. vm_compute. reflexivity. Qed.

Lemma secrets_never_stored_witness :
  ex_secret_run "hunter2" ≠ ex_secret_run "swordfish" ∧
  without_result "op-1" (ex_secret_run "hunter2") = without_result "op-1" (ex_secret_run "swordfish").
Proof.
  split; [intros H; apply (f_equal (λ d, map o_result (db_ops d))) in H; vm_compute in H; discriminate H|].
  refine (proj2 (secrets_never_stored example_store [("proxmox", ex_live_provider)] true (ex_secrets "hunter2") (ex_secrets "swordfish")
    ex_digest (λ _, "failed") (MkControl {["op-1"]} ∅) "t" ex_secret_op ex_secret_vm (set_ops empty_db [ex_secret_op], tt)
    (Some (with_spec ex_vm (Some [("password", VStr "hunter2")])))
    (Some (with_spec ex_vm (Some [("password", VStr "swordfish")])))
    (ex_secret_apply "hunter2") (ex_secret_apply "swordfish") _ eq_refl eq_refl _ _)).
  - intros name p r st Hin. apply list_elem_of_singleton in Hin as [= -> ->]. reflexivity.
  - vm_compute. reflexivity.
  - vm_compute. reflexivity.
Defined.
