(* ===== verification/Disk.v ===== *)
(** The manifest mirror on disk and what reads it back: src/internal/controller/manifests/
    (disk.go, migration_disk.go, reconcile.go, watcher.go, prune.go).

    The mirror tree is a map from a path below the root, as its list of
    components, to a file's text; [pathFor_confined] shows that the paths the
    code builds are of this form. YAML is a third-party package, so encoding and
    decoding are parameters; so are the outcomes of writes, removals and the
    commit hook. *)
From S2P Require Import Prelude GoStrings GoPath GoValue Hash Db OpStore ManifestStore Registry.
From Stdlib Require Import Ascii.
From Corelib Require Import Floats.SpecFloat.

Definition backslash : ascii := Ascii false false true true true false true false.
Definition nul : ascii := Ascii false false false false false false false false.
Definition yaml_ext : string := ".yaml".

(** The [strings.Map] of [safeSegment]; the three bytes are ASCII, so on valid
    UTF-8 the bytewise map is the runewise one. *)
Fixpoint scrub (s : string) : string :=
  match s with
  | EmptyString => EmptyString
  | String c s' => String (if decide (c = slash ∨ c = backslash ∨ c = nul) then "_"%char else c) (scrub s')
  end.

(** [safeSegment] *)
Definition safeSegment (s : string) : string :=
  if decide (s = "" ∨ s = "." ∨ s = "..") then "_" else scrub s.

(** The components [pathFor] and [RelPathFor] join. *)
Definition rel_comps (k : rkey) : list string :=
  map safeSegment (split_on slash k.1.1) ++ [safeSegment k.1.2; safeSegment k.2 +:+ yaml_ext].

(** [pathFor], [RelPathFor] *)
Definition pathFor (root : string) (k : rkey) : string := Join (root :: rel_comps k).
Definition RelPathFor (k : rkey) : string := join "/" (rel_comps k).

(** [parsePathHint], on the components of [filepath.Rel(root, path)]. *)
Definition parsePathHint (parts : list string) : option rkey :=
  match parts with
  | [p0; p1; p2; p3] =>
      if has_suffix yaml_ext p3 then Some (p0 +:+ "/" +:+ p1, p2, trim_suffix yaml_ext p3) else None
  | _ => None
  end.

Abbreviation tree := (gmap (list string) string).

(** [strings.HasSuffix(path, ".yaml")] *)
Definition is_yaml (p : list string) : bool :=
  match last p with Some f => has_suffix yaml_ext f | None => false end.

(** The order [filepath.WalkDir] visits files in. *)
Fixpoint path_leb (p q : list string) : bool :=
  match p, q with
  | [], _ => true
  | _ :: _, [] => false
  | a :: p', b :: q' =>
      match String.compare a b with Lt => true | Gt => false | Eq => path_leb p' q' end
  end.

Definition path_le (p q : list string) : Prop := path_leb p q = true.
#[export] Instance path_le_dec : RelDecision path_le.
Proof. intros p q. unfold path_le. apply _. Defined.

Definition walk_files (t : tree) : list (list string) :=
  merge_sort path_le (filter (λ p, is_yaml p = true) (map_to_list t).*1).

Inductive mirror_error : Type :=
| ErrMirrorStore (e : store_error)
| ErrEncodeYaml
| ErrWriteFile
| ErrRemoveFile
| ErrHook
| ErrManifestRequired
| ErrMirrorForgotten (k : rkey)
| ErrNotReleased
| ErrMirrorLoad.

Section mirror.
Context (digest : value → string).
Context (yaml_marshal : resource → option string) (yaml_unmarshal : string → option resource).
(** Outcomes of writing, of removing, and of the hook ([None]: no hook). *)
Context (write_ok remove_ok : list string → bool) (hook : option (resource → string → bool)).

Record mirror : Type := MkMirror { m_db : db; m_tree : tree }.

(** [writeFile]: atomic, by rename. *)
Definition writeFile (r : resource) (t : tree) : result mirror_error tree :=
  match yaml_marshal r with
  | None => Err ErrEncodeYaml
  | Some out =>
      let dst := rel_comps (resource_key r) in
      if write_ok dst then Ok (<[dst := out]> t) else Err ErrWriteFile
  end.

(** [removeFile]: a missing file is not an error. *)
Definition removeFile (k : rkey) (t : tree) : result mirror_error tree :=
  let dst := rel_comps k in
  match t !! dst with
  | None => Ok t
  | Some _ => if remove_ok dst then Ok (delete dst t) else Err ErrRemoveFile
  end.

Definition run_hook (r : resource) (verb : string) : result mirror_error unit :=
  match hook with
  | None => Ok tt
  | Some h => if h r verb then Ok tt else Err ErrHook
  end.

Definition stub (k : rkey) : resource :=
  Resource k.1.1 k.1.2 (ResourceMetadata k.2 "" [] [] "" "") None None.

(** [DiskMirror.SaveWithRefsHash]; the database keeps the row when a later stage
    fails. *)
Definition MirrorSave (ctx refsHash now : string) (r : resource) (m : mirror) :
    result mirror_error unit * mirror :=
  match SaveWithRefsHash digest ctx (Some r) refsHash now (m_db m) with
  | Err e => (Err (ErrMirrorStore e), m)
  | Ok d =>
      match writeFile r (m_tree m) with
      | Err e => (Err e, MkMirror d (m_tree m))
      | Ok t => (run_hook r "apply", MkMirror d t)
      end
  end.

(** [DiskMirror.Delete] *)
Definition MirrorDelete (k : rkey) (m : mirror) : result mirror_error unit * mirror :=
  let d := Delete k (m_db m) in
  match removeFile k (m_tree m) with
  | Err e => (Err e, MkMirror d (m_tree m))
  | Ok t => (run_hook (stub k) "delete", MkMirror d t)
  end.

(** [Materialize] *)
Definition Materialize (r : option resource) (m : mirror) : result mirror_error unit * mirror :=
  match r with
  | None => (Err ErrManifestRequired, m)
  | Some r =>
      if negb (CheckNotForgotten (m_db m) (resource_key r)) then (Err (ErrMirrorForgotten (resource_key r)), m)
      else match writeFile r (m_tree m) with
           | Err e => (Err e, m)
           | Ok t => (run_hook r "adopt", MkMirror (m_db m) t)
           end
  end.

(** [RemoveProjection] *)
Definition RemoveProjection (k : rkey) (m : mirror) : result mirror_error unit * mirror :=
  if IsForgotten k (m_db m) then
    match removeFile k (m_tree m) with
    | Err e => (Err e, m)
    | Ok t => (run_hook (stub k) "forget", MkMirror (m_db m) t)
    end
  else (Err ErrNotReleased, m).

(** [Reconcile]: [MissingOnDisk] and the rewritten tree, or an error part way. *)
Fixpoint rematerialize (d : db) (refs : list manifest_ref) (t : tree) :
    result mirror_error (list manifest_ref * tree) :=
  match refs with
  | [] => Ok ([], t)
  | ref :: refs' =>
      let dst := rel_comps (mref_key ref) in
      match t !! dst with
      | Some _ => rematerialize d refs' t
      | None =>
          match Load (mref_key ref) d with
          | Err _ => Err ErrMirrorLoad
          | Ok None => prod_map (cons ref) id <$> rematerialize d refs' t
          | Ok (Some r) =>
              match writeFile r t with
              | Err e => Err e
              | Ok t' => prod_map (cons ref) id <$> rematerialize d refs' t'
              end
          end
      end
  end.

Record ReconcileReport : Type := MkReport {
  MissingOnDisk : list manifest_ref; OrphansOnDisk : list (list string) }.

Definition Reconcile (m : mirror) : result mirror_error (ReconcileReport * mirror) :=
  let refs := ListAll (m_db m) in
  match rematerialize (m_db m) refs (m_tree m) with
  | Err e => Err e
  | Ok (missing, t) =>
      let expected := map (λ ref, rel_comps (mref_key ref)) refs in
      Ok (MkReport missing (filter (λ p, p ∉ expected) (walk_files t)), MkMirror (m_db m) t)
  end.
End mirror.

Section watcher.
Context (yaml_unmarshal : string → option resource).
(** The text of [json.Marshal] of a spec value. *)
Context (json_text : value → string).
(** The callbacks that submit operations. *)
Context (apply : resource → db → result unit unit * db) (del : option (rkey → db → result unit unit * db)).

Definition spec_text (spec : option gomap) : option string :=
  match spec with
  | None => Some "null"
  | Some m => if json_ok (VMap m) then Some (json_text (VMap m)) else None
  end.

(** [matchesStored]; [None] is an error. *)
Definition matchesStored (r : resource) (d : db) : option bool :=
  match Load (resource_key r) d with
  | Err _ => None
  | Ok None => Some false
  | Ok (Some stored) =>
      match spec_text (r_spec stored), spec_text (r_spec r) with
      | Some a, Some b => Some (bool_decide (a = b))
      | _, _ => None
      end
  end.

(** [applyFileIfChanged] *)
Definition applyFileIfChanged (t : tree) (path : list string) (d : db) : db :=
  match t !! path with
  | None => d
  | Some data =>
      match yaml_unmarshal data with
      | None => d
      | Some r =>
          if decide (r_apiVersion r = "" ∨ r_kind r = "" ∨ r_name r = "") then d
          else if decide (matchesStored r d = Some true) then d
          else (apply r d).2
      end
  end.

(** [Sync] *)
Definition Sync (t : tree) (d : db) : db :=
  fold_left (λ d p, applyFileIfChanged t p d) (walk_files t) d.

(** [process]; [removed] for a Remove or Rename event. *)
Definition process (removed : bool) (t : tree) (path : list string) (d : db) : db :=
  if removed then
    match del, parsePathHint path with
    | Some f, Some k => (f k d).2
    | _, _ => d
    end
  else applyFileIfChanged t path d.
End watcher.

(** ** Pruning *)

Definition refKey (k : rkey) : string := k.1.1 +:+ "|" +:+ k.1.2 +:+ "|" +:+ k.2.

Definition labelK3sCluster : string := "k3s.openctl.io/cluster".

Definition label_of (key : string) (labels : list (string * string)) : string := default "" (assoc key labels).

(** [isLikelyCompositeChild] *)
Definition isLikelyCompositeChild (labels : list (string * string)) : bool :=
  bool_decide (label_of LabelOwnerKind labels ≠ "") || bool_decide (label_of LabelOwnerName labels ≠ "")
  || bool_decide (label_of labelK3sCluster labels ≠ "").

(** [onDiskRefs] *)
Definition onDiskRefs (t : tree) : list string := map refKey (omap parsePathHint (walk_files t)).

Section prune.
Context (del : rkey → db → result unit unit * db).

(** The loop of [Prune]. *)
Fixpoint prune_loop (onDisk : list string) (refs : list manifest_ref) (d : db) : list manifest_ref * db :=
  match refs with
  | [] => ([], d)
  | ref :: refs' =>
      let k := mref_key ref in
      if decide (refKey k ∈ onDisk) then prune_loop onDisk refs' d
      else match Load k d with
           | Err _ => prune_loop onDisk refs' d
           | Ok stored =>
               if match stored with
                  | Some s => isLikelyCompositeChild (md_labels (r_metadata s))
                  | None => false
                  end then prune_loop onDisk refs' d
               else if decide (mref_source ref = SourceCLI ∨ mref_source ref = SourceUI)
                    then prune_loop onDisk refs' d
               else
                 let '(res, d') := del k d in
                 let '(pruned, d'') := prune_loop onDisk refs' d' in
                 match res with Ok _ => (ref :: pruned, d'') | Err _ => (pruned, d'') end
           end
  end.

(** [Prune] *)
Definition Prune (t : tree) (d : db) : list manifest_ref * db := prune_loop (onDiskRefs t) (ListAll d) d.
End prune.

(** ** Laws *)

Lemma scrub_no_slash s : no_byte slash (scrub s).
Proof.
  induction s as [|c s IH]; simpl; [done|]. split; [|done]. case_decide as H; [done|]. intros ->. apply H. by left.
Qed.

Lemma scrub_id s : scrub s = s ↔ no_byte slash s ∧ no_byte backslash s ∧ no_byte nul s.
Proof.
  induction s as [|c s IH]; simpl; [done|]. case_decide as H; split.
  - intros [= Hc _]. subst c. by destruct H as [?|[?|?]].
  - intros ((?&_)&(?&_)&(?&_)). naive_solver.
  - intros [= Hs]. apply IH in Hs as (?&?&?). naive_solver.
  - intros ((_&?)&(_&?)&(_&?)). f_equal. apply IH. done.
Qed.

Lemma scrub_scrub s : scrub (scrub s) = scrub s.
Proof. induction s as [|c s IH]; simpl; [done|]. f_equal; [|done]. case_decide; by case_decide. Qed.

Lemma scrub_dot s : s ≠ "" → s ≠ "." → s ≠ ".." → scrub s ≠ "" ∧ scrub s ≠ "." ∧ scrub s ≠ "..".
Proof.
  intros H1 H2 H3. destruct s as [|a [|b [|c s]]]; [done| | |done].
  - simpl. case_decide; split_and!; (done || congruence).
  - simpl. repeat case_decide; split_and!; (done || congruence).
Qed.

(** A scrubbed segment names one entry of its directory. *)
Lemma safeSegment_proper s : proper (safeSegment s).
Proof.
  unfold safeSegment. case_decide as H; [by_decide|].
  destruct (scrub_dot s) as (?&?&?); [naive_solver..|]. repeat split; try done. apply scrub_no_slash.
Qed.

Lemma safeSegment_idemp s : safeSegment (safeSegment s) = safeSegment s.
Proof.
  destruct (safeSegment_proper s) as (H1&H2&H3&_). unfold safeSegment at 1. rewrite decide_False by tauto.
  unfold safeSegment. case_decide; [done|apply scrub_scrub].
Qed.

Lemma proper_ext s : proper s → proper (s +:+ yaml_ext).
Proof.
  intros (_&_&_&Hs). repeat split.
  - by destruct s.
  - destruct s as [|a [|]]; done.
  - destruct s as [|a [|b [|]]]; done.
  - apply no_byte_app. split; [done|by_decide].
Qed.

Lemma rel_comps_proper k : Forall proper (rel_comps k).
Proof.
  unfold rel_comps. apply Forall_app. split.
  - apply Forall_map, Forall_true. intros x. apply safeSegment_proper.
  - repeat constructor; try apply safeSegment_proper; apply proper_ext, safeSegment_proper.
Qed.

Lemma rel_comps_ne k : rel_comps k ≠ [].
Proof. unfold rel_comps. by destruct (map _ _). Qed.

Lemma rel_comps_yaml k : is_yaml (rel_comps k) = true.
Proof.
  unfold is_yaml, rel_comps. change ([safeSegment k.1.2; ?x]) with ([safeSegment k.1.2] ++ [x]).
  rewrite (assoc_L (++)), last_snoc. apply has_suffix_true. by eexists.
Qed.

Lemma join_split c s : join (String c "") (split_on c s) = s.
Proof.
  induction s as [|a s IH]; [done|]. simpl. case_decide as Hac.
  - subst. destruct (split_on c s) as [|p ps] eqn:E; [by apply split_on_ne_nil in E|].
    rewrite join_cons2. rewrite IH. done.
  - destruct (split_on c s) as [|p ps] eqn:E; [by apply split_on_ne_nil in E|].
    rewrite <-IH. by destruct ps.
Qed.

(** What the walk sees. *)
Lemma elem_of_walk t p : p ∈ walk_files t ↔ is_yaml p = true ∧ is_Some (t !! p).
Proof.
  unfold walk_files. rewrite merge_sort_Permutation, list_elem_of_filter, list_elem_of_fmap. split.
  - intros [Hy ([p' c] & -> & Hc)]. apply elem_of_map_to_list in Hc. eauto.
  - intros [Hy [c Hc]]. split; [done|]. exists (p, c). by rewrite elem_of_map_to_list.
Qed.

(** Keys whose path names them: [group/version], and no segment scrubbed. *)
Definition faithful (k : rkey) : Prop :=
  length (split_on slash k.1.1) = 2 ∧
  Forall (λ s, safeSegment s = s) (split_on slash k.1.1 ++ [k.1.2; k.2]).

#[export] Instance faithful_dec k : Decision (faithful k).
Proof. unfold faithful. apply _. Defined.

Lemma trim_yaml s : trim_suffix yaml_ext (s +:+ yaml_ext) = s.
Proof. apply trim_suffix_app. Qed.

Lemma parse_rel_comps k : parsePathHint (rel_comps k) = Some k ↔ faithful k.
Proof.
  destruct k as [[av kind] name]. unfold rel_comps, faithful. cbn [fst snd].
  assert (Hj := join_split slash av).
  destruct (split_on slash av) as [|a [|b [|c l]]] eqn:E; [by apply split_on_ne_nil in E| | |].
  - split; [done|]. by intros [? _].
  - cbn [map app parsePathHint]. rewrite (proj2 (has_suffix_true _ _)) by (by eexists).
    rewrite trim_yaml. change (join _ [a; b]) with (a +:+ "/" +:+ b) in Hj.
    assert (proper (safeSegment a)) as (_&_&_&Ha) by apply safeSegment_proper.
    assert (no_byte slash (safeSegment b)) as Hb by apply safeSegment_proper.
    split.
    + intros [= Hav Hk Hn]. split; [done|].
      assert (split_on slash av = [safeSegment a; safeSegment b]) as Hs.
      { rewrite <-Hav. change (?x +:+ "/" +:+ ?y) with (x +:+ String slash y).
        by rewrite split_on_app, split_on_no_byte. }
      rewrite E in Hs. injection Hs as Ha1 Hb1. repeat constructor; congruence.
    + intros [_ Hf]. repeat (apply Forall_cons in Hf as [? Hf]). congruence.
  - split.
    + simpl. by destruct l as [|? [|]].
    + by intros [? _].
Qed.

(** A path determines the key of a file written under a faithful name. *)
Lemma onDisk_file t k :
  faithful k → is_Some (t !! rel_comps k) → refKey k ∈ onDiskRefs t.
Proof.
  intros Hf Ht. unfold onDiskRefs. apply list_elem_of_fmap. exists k. split; [done|].
  apply list_elem_of_omap. exists (rel_comps k). split; [|by apply parse_rel_comps].
  apply elem_of_walk. split; [apply rel_comps_yaml|done].
Qed.

(** Why a row was pruned. *)
Record prunable (onDisk : list string) (d : db) (ref : manifest_ref) : Prop := {
  pr_file : refKey (mref_key ref) ∉ onDisk;
  pr_child : ∀ r, Load (mref_key ref) d = Ok (Some r) → isLikelyCompositeChild (md_labels (r_metadata r)) = false;
  pr_source : mref_source ref ≠ SourceCLI ∧ mref_source ref ≠ SourceUI;
}.

Lemma prune_loop_spec del onDisk refs d0 d pruned d' :
  (∀ k d, db_applied (del k d).2 = db_applied d) → db_applied d = db_applied d0 →
  prune_loop del onDisk refs d = (pruned, d') →
  (∀ ref, ref ∈ pruned → ref ∈ refs ∧ prunable onDisk d0 ref) ∧
  ((∀ k d, (del k d).1 = Ok tt) → (∀ k, is_ok (Load k d0) = true) →
   ∀ ref, ref ∈ refs → prunable onDisk d0 ref → ref ∈ pruned).
Proof.
  intros Hdel. revert d pruned d'; induction refs as [|ref refs IH]; intros d pruned d' Hd; simpl.
  { intros [= <- _]. split; [by intros ? ?%elem_of_nil|by intros ??? ?%elem_of_nil]. }
  assert (∀ k, Load k d = Load k d0) as Hload by (intros k; unfold Load, LoadWithTime; by rewrite Hd).
  assert (∀ d pruned d', db_applied d = db_applied d0 → prune_loop del onDisk refs d = (pruned, d') →
    ¬ prunable onDisk d0 ref ∨ is_ok (Load (mref_key ref) d0) = false →
    (∀ r, r ∈ pruned → r ∈ ref :: refs ∧ prunable onDisk d0 r) ∧
    ((∀ k d, (del k d).1 = Ok tt) → (∀ k, is_ok (Load k d0) = true) →
     ∀ r, r ∈ ref :: refs → prunable onDisk d0 r → r ∈ pruned)) as Hskip.
  { intros d1 p1 d1' Hd1 H Hno. destruct (IH _ _ _ Hd1 H) as [H1 H2]. split.
    - intros r Hr. destruct (H1 r Hr). split; [by right|done].
    - intros Hok Hall r [->|Hr]%elem_of_cons Hp; [|by apply H2].
      destruct Hno as [?|Hno]; [done|]. by rewrite Hall in Hno. }
  case_decide as Hdisk; [intros H; eapply Hskip; [done..|]; left; by intros []|].
  destruct (Load (mref_key ref) d) as [stored|e] eqn:EL; rewrite Hload in EL;
    [|intros H; eapply Hskip; [done..|]; right; by rewrite EL].
  destruct (match stored with Some s => _ | None => _ end) eqn:EC.
  { intros H; eapply Hskip; [done..|]; left. intros [_ Hc _]. destruct stored as [s|]; [|done].
    rewrite (Hc s EL) in EC. done. }
  case_decide as Hsrc; [intros H; eapply Hskip; [done..|]; left; intros [_ _ ?]; tauto|].
  destruct (del (mref_key ref) d) as [res d1] eqn:ED.
  destruct (prune_loop del onDisk refs d1) as [p1 d2] eqn:EP.
  assert (prunable onDisk d0 ref) as Hpr.
  { split; [done| |tauto]. intros r Hr. rewrite EL in Hr. by injection Hr as ->. }
  apply IH in EP as [H1 H2]; [|by rewrite <-Hd, <-(Hdel (mref_key ref) d), ED].
  intros Hp. split.
  - intros r Hr. destruct res as [u|u]; injection Hp as <- _.
    + apply elem_of_cons in Hr as [->|Hr]; [split; [by left|done]|]. destruct (H1 r Hr). split; [by right|done].
    + destruct (H1 r Hr). split; [by right|done].
  - intros Hok Hall r Hr Hprr. pose proof (Hok (mref_key ref) d) as Hres. rewrite ED in Hres. simpl in Hres.
    subst res. injection Hp as <- _.
    apply elem_of_cons in Hr as [->|Hr]; [by left|right]. by apply H2.
Qed.

(** ** The mirror and the watcher *)

(** Numbers that text formats keep: integers up to 2^53 (whose float64 is finite), and floats
    but for the infinities, NaN and the negative zero. *)
Fixpoint exact (v : value) : bool :=
  match v with
  | VInt z => (Z.abs z <=? 2 ^ 53)%Z && json_ok (VFloat (f64_of_Z z))
  | VFloat (S754_nan | S754_infinity _ | S754_zero true) => false
  | VList l => forallb exact l
  | VMap m => forallb (λ p, exact p.2) m
  | _ => true
  end.

(** A spec of such numbers that is not empty without being nil. *)
Definition exact_spec (r : resource) : Prop :=
  match r_spec r with None => True | Some m => m ≠ [] ∧ exact (VMap m) = true end.

Section yaml.
(** The integer that a float64 is read back as: the encoder prints a small whole one
    without a point. *)
Context (as_int : spec_float → option Z).

Fixpoint yaml_read (v : value) : value :=
  match v with
  | VFloat f => match as_int f with Some z => VInt z | None => v end
  | VList l => VList (map yaml_read l)
  | VMap m => VMap (map (λ p, (p.1, yaml_read p.2)) m)
  | _ => v
  end.

Definition yaml_spec (m : option gomap) : option gomap := map (λ p, (p.1, yaml_read p.2)) <$> omit_empty m.

(** A resource through YAML: whole floats come back as integers, and an empty spec or status is
    left out. *)
Definition yaml_resource (r : resource) : resource := with_status (with_spec r (yaml_spec (r_spec r))) (yaml_spec (r_status r)).

(** What the mirror relies on of the YAML package and of [encoding/json]: an integer and the
    float64 of the same value print alike. *)
Record TextLaws (yaml_marshal : resource → option string) (yaml_unmarshal : string → option resource)
    (json_text : value → string) : Prop := {
  yaml_whole f z : as_int f = Some z → f = f64_of_Z z ∧ (Z.abs z ≤ 2 ^ 53)%Z;
  yaml_reads r out : exact_spec r → yaml_marshal r = Some out → yaml_unmarshal out = Some (yaml_resource r);
  json_numbers m : exact (VMap m) = true → json_text (VMap (json_read_map m)) = json_text (VMap m);
}.
End yaml.

Section loop.
Context (digest : value → string) (json_text : value → string).
Context (yaml_marshal : resource → option string) (yaml_unmarshal : string → option resource) (as_int : spec_float → option Z).
Context (write_ok remove_ok : list string → bool) (hook : option (resource → string → bool)).
Context (laws : TextLaws as_int yaml_marshal yaml_unmarshal json_text).

Lemma exact_json_ok v : exact v = true → json_ok v = true.
Proof.
  induction v as [ |b|z|f|s|l IH|m IH] using value_ind'; simpl; try done.
  - by destruct f.
  - rewrite !forallb_Forall_true. intros H. induction IH; inversion_clear H; constructor; auto.
  - rewrite !forallb_Forall_true. intros H. induction IH; inversion_clear H; constructor; auto.
Qed.

Lemma exact_read_ok v : exact v = true → json_ok (json_read v) = true.
Proof.
  induction v as [ |b|z|f|s|l IH|m IH] using value_ind'; simpl; try done.
  - by intros [_ ?]%andb_true_iff.
  - by destruct f.
  - rewrite !forallb_Forall_true, Forall_map. intros H. induction IH; inversion_clear H; constructor; auto.
  - rewrite !forallb_Forall_true, Forall_map. intros H. induction IH; inversion_clear H; constructor; simpl; auto.
Qed.

(** Reading YAML keeps the numbers, and what JSON reads. *)
Lemma yaml_read_exact v : exact v = true → exact (yaml_read as_int v) = true.
Proof.
  induction v as [ |b|z|f|s|l IH|m IH] using value_ind'; simpl; try done.
  - intros Hf. destruct (as_int f) as [z|] eqn:E; [|done]. apply (yaml_whole _ _ _ _ laws) in E as [-> ?]. simpl.
    apply andb_true_iff. split; [by apply Z.leb_le|by apply (exact_json_ok (VFloat _))].
  - rewrite !forallb_Forall_true, Forall_map. intros H. induction IH; inversion_clear H; constructor; auto.
  - rewrite !forallb_Forall_true, Forall_map. intros H. induction IH; inversion_clear H; constructor; simpl; auto.
Qed.

Lemma json_read_yaml v : json_read (yaml_read as_int v) = json_read v.
Proof.
  induction v as [ |b|z|f|s|l IH|m IH] using value_ind'; simpl; try done.
  - destruct (as_int f) as [z|] eqn:E; [|done]. apply (yaml_whole _ _ _ _ laws) in E as [-> _]. done.
  - f_equal. rewrite map_map. apply map_ext_Forall, IH.
  - f_equal. rewrite map_map. apply map_ext_Forall. apply (Forall_impl _ _ _ IH). intros p Hp. simpl. by rewrite Hp.
Qed.

(** The spec, its reading from the database and its reading from a file print alike. *)
Lemma exact_spec_text r :
  exact_spec r → ∃ s, spec_text json_text (r_spec r) = Some s ∧ spec_text json_text (json_read_map <$> r_spec r) = Some s ∧
    spec_text json_text (r_spec (yaml_resource as_int r)) = Some s.
Proof.
  intros H. change (r_spec (yaml_resource as_int r)) with (yaml_spec as_int (r_spec r)). unfold exact_spec in H.
  destruct (r_spec r) as [m|]; [|by eexists]. destruct H as [Hne Hx].
  set (m' := map (λ p, (p.1, yaml_read as_int p.2)) m).
  assert (yaml_spec as_int (Some m) = Some m') as -> by by destruct m.
  assert (exact (VMap m') = true) as Hx' by exact (yaml_read_exact (VMap m) Hx).
  assert (∀ m, json_ok (VMap m) = true → spec_text json_text (Some m) = Some (json_text (VMap m))) as Ht.
  { intros x Hj. unfold spec_text. by rewrite Hj. }
  exists (json_text (VMap m)). split_and!.
  - by apply Ht, exact_json_ok.
  - change (json_read_map <$> Some m) with (Some (json_read_map m)). rewrite Ht by exact (exact_read_ok _ Hx).
    by rewrite (json_numbers _ _ _ _ laws).
  - rewrite Ht by by apply exact_json_ok. f_equal.
    rewrite <-(json_numbers _ _ _ _ laws m'), <-(json_numbers _ _ _ _ laws m) by done.
    f_equal. exact (json_read_yaml (VMap m)).
Qed.

(** Changes that reach the mirror and succeed. *)
Inductive mirror_step : mirror → mirror → Prop :=
| ms_save ctx rh now r m m' :
    exact_spec r → MirrorSave digest yaml_marshal write_ok hook ctx rh now r m = (Ok tt, m') → mirror_step m m'
| ms_delete k m m' :
    MirrorDelete remove_ok hook k m = (Ok tt, m') → mirror_step m m'.

(** Every manifest file holds what the database has for its resource. *)
Definition mirror_inv (m : mirror) : Prop :=
  ∀ p c, m_tree m !! p = Some c → is_yaml p = true →
    ∃ r, yaml_unmarshal c = Some r ∧ rel_comps (resource_key r) = p ∧
      matchesStored json_text r (m_db m) = Some true.

Lemma Load_ext k d d' : db_applied d' !! k = db_applied d !! k → Load k d' = Load k d.
Proof. intros H. unfold Load, LoadWithTime. by rewrite H. Qed.

Lemma matchesStored_ext r d d' :
  db_applied d' !! resource_key r = db_applied d !! resource_key r →
  matchesStored json_text r d' = matchesStored json_text r d.
Proof. intros H. unfold matchesStored. by rewrite (Load_ext _ d d'). Qed.

Lemma matchesStored_saved ctx rh now r d d' :
  exact_spec r → SaveWithRefsHash digest ctx (Some r) rh now d = Ok d' →
  matchesStored json_text (yaml_resource as_int r) d' = Some true ∧
  (∀ k, k ≠ resource_key r → db_applied d' !! k = db_applied d !! k).
Proof.
  intros (s & Hs1 & Hs2 & Hs3)%exact_spec_text (r' & [= <-] & _ & H)%SaveWithRefsHash_Ok.
  apply saveManifest_Ok in H as (spec & Henc & ->). split.
  - assert (spec = JText (json_read_map <$> r_spec r)) as ->.
    { unfold encode_spec in Henc. destruct (r_spec r) as [m|]; simpl; [|by injection Henc as <-].
      destruct (json_ok _); [|done]. by injection Henc as <-. }
    assert (Load (resource_key r) (set_applied d (<[resource_key r := ManifestRow (JText (json_read_map <$> r_spec r))
      (JText (r_metadata r)) now (Hash_of digest r) rh (SourceFromContext ctx)]> (db_applied d))) =
      Ok (Some (Resource (r_apiVersion r) (r_kind r) (r_metadata r) (json_read_map <$> r_spec r) None))) as HL.
    { unfold Load, LoadWithTime. cbn [set_applied db_applied]. by rewrite lookup_insert_eq. }
    unfold matchesStored. change (resource_key (yaml_resource as_int r)) with (resource_key r).
    rewrite HL, Hs3. cbn [r_spec]. rewrite Hs2. by rewrite bool_decide_true.
  - intros k Hk. simpl. by rewrite lookup_insert_ne.
Qed.

Lemma mirror_inv_step m m' : mirror_inv m → mirror_step m m' → mirror_inv m'.
Proof.
  intros Hinv Hs. destruct Hs as [ctx rh now r m m' Hst H|k m m' H].
  - unfold MirrorSave in H. destruct (SaveWithRefsHash _ _ _ _ _ _) as [d|] eqn:ES; [|done].
    destruct (matchesStored_saved _ _ _ _ _ _ Hst ES) as [Hm Ho].
    unfold writeFile in H. destruct (yaml_marshal r) as [out|] eqn:EY; [|done].
    destruct (write_ok _); [|done]. injection H as _ <-. intros p c Hp Hy. simpl in *.
    apply lookup_insert_Some in Hp as [[<- <-]|[Hne Hp]].
    + exists (yaml_resource as_int r). split; [by apply (yaml_reads _ _ _ _ laws)|done].
    + destruct (Hinv p c Hp Hy) as (r2 & H1 & H2 & H3). exists r2. split_and!; [done..|].
      rewrite <-H3. apply matchesStored_ext, Ho. congruence.
  - unfold MirrorDelete, removeFile in H.
    assert (∀ t, (∀ p c, t !! p = Some c → p ≠ rel_comps k ∧ m_tree m !! p = Some c) →
      mirror_inv (MkMirror (Delete k (m_db m)) t)) as Hgen.
    { intros t Ht p c Hp Hy. simpl in *. destruct (Ht p c Hp) as [Hne Hp'].
      destruct (Hinv p c Hp' Hy) as (r2 & H1 & H2 & H3). exists r2. split_and!; [done..|].
      rewrite <-H3. apply matchesStored_ext. simpl. rewrite lookup_delete_ne; [done|congruence]. }
    destruct (m_tree m !! rel_comps k) eqn:EL.
    + destruct (remove_ok _); [|done]. injection H as _ <-. apply Hgen.
      intros p c Hp. apply lookup_delete_Some in Hp as [? ?]. done.
    + injection H as _ <-. apply Hgen. intros p c Hp. split; [congruence|done].
Qed.

Lemma quiet_file apply m p :
  mirror_inv m → is_yaml p = true →
  applyFileIfChanged yaml_unmarshal json_text apply (m_tree m) p (m_db m) = m_db m.
Proof.
  intros Hinv Hy. unfold applyFileIfChanged. destruct (m_tree m !! p) as [c|] eqn:Hp; [|done].
  destruct (Hinv p c Hp Hy) as (r & -> & _ & Hm). case_decide; [done|]. by rewrite decide_True.
Qed.
End loop.

(** ** Startup *)

Section reconcile.
Context (yaml_marshal : resource → option string) (write_ok : list string → bool).

Lemma writeFile_Ok r t t' :
  writeFile yaml_marshal write_ok r t = Ok t' →
  ∃ out, yaml_marshal r = Some out ∧ t' = <[rel_comps (resource_key r) := out]> t.
Proof.
  unfold writeFile. destruct (yaml_marshal r) as [out|]; [|done]. destruct (write_ok _); [|done].
  intros [= <-]. by exists out.
Qed.

Lemma Load_key k d r : Load k d = Ok (Some r) → resource_key r = (k.1.1, k.1.2, r_name r).
Proof.
  unfold Load, LoadWithTime. destruct (db_applied d !! k); [|done]. by destruct (mr_spec _); intros [= <-].
Qed.

Lemma rematerialize_keeps d refs t missing t' p c :
  rematerialize yaml_marshal write_ok d refs t = Ok (missing, t') →
  (∀ ref r, ref ∈ refs → Load (mref_key ref) d = Ok (Some r) → resource_key r = mref_key ref) →
  t !! p = Some c → t' !! p = Some c.
Proof.
  revert t missing; induction refs as [|ref refs IH]; intros t missing; simpl; [by intros [= _ <-]|].
  intros H Hk Hp. assert (∀ ref' r, ref' ∈ refs → Load (mref_key ref') d = Ok (Some r) →
    resource_key r = mref_key ref') as Hk' by (intros; eapply Hk; [by right|done]).
  destruct (t !! rel_comps (mref_key ref)) eqn:Et; [by eapply IH|].
  destruct (Load _ _) as [[r|]|] eqn:EL; [| |done].
  - destruct (writeFile _ _ _ _) as [t1|] eqn:EW; [|done].
    destruct (rematerialize _ _ _ _ _) as [[ms t2]|] eqn:ER; [|done]. injection H as _ <-.
    eapply IH; [done..|]. apply writeFile_Ok in EW as (out & _ & ->).
    rewrite (Hk ref r) by (done || left). rewrite lookup_insert_ne; [done|congruence].
  - destruct (rematerialize _ _ _ _ _) as [[ms t2]|] eqn:ER; [|done]. injection H as _ <-.
    by eapply IH.
Qed.

Lemma rematerialize_spec d refs t missing t' :
  rematerialize yaml_marshal write_ok d refs t = Ok (missing, t') →
  (∀ ref, ref ∈ refs → ∀ x, Load (mref_key ref) d = Ok x → ∃ r, x = Some r ∧ resource_key r = mref_key ref) →
  (∀ ref, ref ∈ refs → is_Some (t' !! rel_comps (mref_key ref))) ∧
  (∀ ref, ref ∈ missing → ref ∈ refs ∧ t !! rel_comps (mref_key ref) = None) ∧
  (∀ p, is_Some (t' !! p) → is_Some (t !! p) ∨ p ∈ map (λ ref, rel_comps (mref_key ref)) missing).
Proof.
  revert t missing; induction refs as [|ref refs IH]; intros t missing; simpl.
  { intros [= <- <-] _. split_and!; [by intros ? ?%elem_of_nil..|by left]. }
  intros H Hk. assert (∀ ref', ref' ∈ refs → ∀ x, Load (mref_key ref') d = Ok x →
    ∃ r, x = Some r ∧ resource_key r = mref_key ref') as Hk' by (intros; eapply Hk; [by right|done]).
  assert (∀ t ms t', rematerialize yaml_marshal write_ok d refs t = Ok (ms, t') →
    ∀ p c, t !! p = Some c → t' !! p = Some c) as Hkeep.
  { intros. eapply rematerialize_keeps; [done| |done]. intros ref' r Hin HL.
    destruct (Hk' ref' Hin _ HL) as (? & [= <-] & ?). done. }
  destruct (t !! rel_comps (mref_key ref)) as [c|] eqn:Et.
  - destruct (IH _ _ H Hk') as (H1 & H2 & H3). split_and!; [|intros r Hr; destruct (H2 r Hr); split; [by right|done]|done].
    intros r [->|Hr]%elem_of_cons; [|by apply H1]. exists c. by eapply Hkeep.
  - destruct (Load _ _) as [x|] eqn:EL; [|done].
    destruct (Hk ref ltac:(left) x EL) as (r & -> & Hrk).
    destruct (writeFile _ _ _ _) as [t1|] eqn:EW; [|done].
    destruct (rematerialize _ _ _ _ _) as [[ms t2]|] eqn:ER; [|done]. injection H as <- <-.
    apply writeFile_Ok in EW as (out & _ & ->). rewrite Hrk in ER.
    destruct (IH _ _ ER Hk') as (H1 & H2 & H3). simpl. split_and!.
    + intros r' [->|Hr]%elem_of_cons; [|by apply H1]. exists out. eapply Hkeep; [exact ER|]. apply lookup_insert_eq.
    + intros r' [->|Hr]%elem_of_cons; [split; [by left|done]|]. destruct (H2 r' Hr) as [? Hn].
      apply lookup_insert_None in Hn as [? _]. split; [by right|done].
    + intros p [Hp|Hp]%H3; [|right; by right]. rewrite lookup_insert_is_Some in Hp.
      destruct Hp as [<-|[_ Hp]]; [right; left|by left].
Qed.
End reconcile.

(** Rows name their own resource, as [saveManifest] writes them. *)
Definition meta_ok (d : db) : Prop :=
  ∀ k row md, db_applied d !! k = Some row → mr_meta row = JText md → md_name md = k.2.

Lemma meta_ok_save digest ctx r rh now d d' :
  meta_ok d → SaveWithRefsHash digest ctx r rh now d = Ok d' → meta_ok d'.
Proof.
  intros Hd (r' & -> & _ & H)%SaveWithRefsHash_Ok. apply saveManifest_Ok in H as (spec & _ & ->).
  intros k row md Hrow Hmd. simpl in Hrow. apply lookup_insert_Some in Hrow as [[<- <-]|[_ Hrow]].
  - simpl in Hmd. by injection Hmd as <-.
  - by eapply Hd.
Qed.

Lemma meta_ok_MirrorSave digest marshal write_ok hook ctx rh now r m :
  meta_ok (m_db m) → meta_ok (m_db (MirrorSave digest marshal write_ok hook ctx rh now r m).2).
Proof.
  intros Hm. unfold MirrorSave. destruct (SaveWithRefsHash _ _ _ _ _ _) as [d|] eqn:E; [|done].
  apply meta_ok_save in E; [|done]. by destruct (writeFile _ _ _ _).
Qed.

Lemma ListAll_elem d k : k ∈ map mref_key (ListAll d) ↔ is_Some (db_applied d !! k).
Proof.
  unfold ListAll. rewrite map_map. rewrite list_elem_of_fmap. split.
  - intros ([k' row] & -> & H). rewrite merge_sort_Permutation in H. apply elem_of_map_to_list in H. by eexists.
  - intros [row H]. exists (k, row). split; [done|]. by rewrite merge_sort_Permutation, elem_of_map_to_list.
Qed.

Lemma meta_ok_Load d k x :
  meta_ok d → is_Some (db_applied d !! k) → Load k d = Ok x → ∃ r, x = Some r ∧ resource_key r = k.
Proof.
  intros Hd [row Hrow] H. unfold Load, LoadWithTime in H. rewrite Hrow in H. destruct k as [[av kd] nm].
  destruct (mr_meta row) as [| |md] eqn:Em; destruct (mr_spec row); try done;
    injection H as <-; eexists; split; try reflexivity.
  all: unfold resource_key, r_name; simpl; by rewrite (Hd _ _ _ Hrow Em).
Qed.

(** ** Properties *)

(** The mirror never leaves its directory: whatever the apiVersion, kind and
    name of a resource, its file's path consists of the root's components
    followed by at least one entry name each of which names an entry of its
    directory, and the root-relative path handed to git has exactly these
    components. *)
Theorem pathFor_confined root k :
  is_abs root = true →
  comps (pathFor root k) = comps root ++ rel_comps k ∧ rel_comps k ≠ [] ∧
  Forall proper (rel_comps k) ∧ split_on slash (RelPathFor k) = rel_comps k.
Proof.
  intros Hroot. pose proof (rel_comps_proper k) as Hp. pose proof (rel_comps_ne k) as Hne.
  split_and!; [|done..|].
  - unfold pathFor. cbn [Join]. rewrite decide_False by (by intros ->).
    destruct (rel_comps k) as [|c cs] eqn:E; [done|]. rewrite join_cons2.
    rewrite comps_Clean; [by apply comps_app|]. by apply is_abs_cons in Hroot as [q ->].
  - apply split_join; [done|]. by apply proper_no_slash.
Qed.

Lemma pathFor_confined_witness :
  pathFor "/srv/m" ("k3s.openctl.io/v1", "Cluster", "../../etc/passwd") =
    "/srv/m/k3s.openctl.io/v1/Cluster/.._.._etc_passwd.yaml" ∧
  comps (pathFor "/srv/m" ("..", "", "..")) = ["srv"; "m"; "_"; "_"; "_.yaml"].
Proof.
  split; [vm_compute; reflexivity|].
  rewrite (proj1 (pathFor_confined "/srv/m" ("..", "", "..") eq_refl)). vm_compute. reflexivity.
Defined.

(** The watcher reads a mirror file's path back as the resource it was
    written for exactly when the apiVersion is [group/version] and no segment had
    to be scrubbed. *)
Theorem parsePathHint_roundtrip k : parsePathHint (rel_comps k) = Some k ↔ faithful k.
Proof. apply parse_rel_comps. Qed.

(** C20: The mirror and the watcher do not feed each other through the files: however
    often the mirror has saved and deleted manifests, all writes and removals of files having succeeded, a full [Sync] of the tree
    and the processing of a create or write event of any manifest file submit nothing. That
    is although a file does not read back as what was saved: YAML gives whole floats back as
    integers and leaves an empty spec out. The saved specs are nil or not empty, and hold
    numbers that JSON and YAML keep (no integer beyond 2^53, no negative zero). Remove events are not compared
    with anything, and no part of this. *)
Theorem mirror_loop_safe digest json_text yaml_marshal yaml_unmarshal as_int write_ok remove_ok hook m0 m apply del p :
  TextLaws as_int yaml_marshal yaml_unmarshal json_text →
  m_tree m0 = ∅ →
  rtc (mirror_step digest yaml_marshal write_ok remove_ok hook) m0 m →
  Sync yaml_unmarshal json_text apply (m_tree m) (m_db m) = m_db m ∧
  (is_yaml p = true →
   process yaml_unmarshal json_text apply del false (m_tree m) p (m_db m) = m_db m).
Proof.
  intros Hy H0 Hr. assert (mirror_inv json_text yaml_unmarshal m) as Hinv.
  { assert (mirror_inv json_text yaml_unmarshal m0) as Hinv0.
    { intros q c Hq. by rewrite H0, lookup_empty in Hq. }
    clear H0. induction Hr as [|m1 m2 m3 Hs _ IH]; [done|]. apply IH. by eapply mirror_inv_step. }
  split; [|by apply quiet_file]. unfold Sync.
  assert (Forall (λ q, is_yaml q = true) (walk_files (m_tree m))) as Hall.
  { apply Forall_forall. intros q Hq. by apply elem_of_walk in Hq as [? _]. }
  induction Hall as [|q l Hq _ IH]; simpl; [done|]. by rewrite quiet_file.
Qed.

Definition ex_disk_vm (name : string) : resource :=
  Resource "proxmox.openctl.io/v1" "VirtualMachine" (ResourceMetadata name "" [("app", "web")] [] "" "")
    (Some [("cpu", VMap [("cores", VFloat (f64_of_Z 4)); ("limit", VFloat (S754_finite false 3 (-1)%Z))]);
           ("disks", VList [VMap [("name", VStr "scsi0"); ("size", VInt 32); ("ssd", VBool true)]]); ("os", VStr "debian"); ("pool", VNull)])
    (Some []).
Definition ex_as_int (f : spec_float) : option Z := if decide (f = f64_of_Z 4) then Some 4%Z else None.
(** The manifest as the database gives it back. *)
Definition ex_loaded_vm : resource := with_status (with_spec (ex_disk_vm "web") (json_read_map <$> r_spec (ex_disk_vm "web"))) None.
Definition ex_marshal (r : resource) : option string :=
  if decide (r = ex_disk_vm "web") then Some "web-yaml" else if decide (r = ex_loaded_vm) then Some "loaded-yaml" else None.
Definition ex_unmarshal (s : string) : option resource :=
  if decide (s = "web-yaml") then Some (yaml_resource ex_as_int (ex_disk_vm "web"))
  else if decide (s = "loaded-yaml") then Some (yaml_resource ex_as_int ex_loaded_vm) else None.

(** A text that shows every part of a value, with one form for numbers. *)
Fixpoint ex_print (v : value) : string :=
  match v with
  | VNull => "null"
  | VBool b => if b then "true" else "false"
  | VInt z => pretty z
  | VFloat (S754_finite neg m e) => (if neg then "-" else "") +:+ pretty (Zpos m) +:+ "p" +:+ pretty e
  | VFloat _ => "0"
  | VStr s => s
  | VList l => "[" +:+ join "," (map ex_print l) +:+ "]"
  | VMap m => "{" +:+ join "," (map (λ p, p.1 +:+ ":" +:+ ex_print p.2) m) +:+ "}"
  end.
Definition ex_json_text (v : value) : string := ex_print (json_read v).

Lemma ex_text_laws : TextLaws ex_as_int ex_marshal ex_unmarshal ex_json_text.
Proof.
  split.
  - intros f z. unfold ex_as_int. case_decide as Hf; [|done]. intros [= <-]. by rewrite Hf.
  - intros r out _. unfold ex_marshal. case_decide as Hr; [intros [= <-]; by rewrite Hr|].
    case_decide as Hl; [|done]. intros [= <-]. by rewrite Hl.
  - intros m _. unfold ex_json_text. f_equal. exact (json_read_idemp (VMap m)).
Qed.

Definition ex_no_files : tree := ∅.
Definition ex_blank : mirror := MkMirror empty_db ex_no_files.
Definition ex_mirror : mirror :=
  (MirrorSave ex_digest ex_marshal (λ _, true) None "" "" "t0" (ex_disk_vm "web") ex_blank).2.

(** The same database with an empty directory. *)
Definition ex_lost : mirror := MkMirror (m_db ex_mirror) ex_no_files.

Lemma ex_mirror_step :
  mirror_step ex_digest ex_marshal (λ _, true) (λ _, true) None ex_blank ex_mirror.
Proof.
  apply (ms_save _ _ _ _ _ "" "" "t0" (ex_disk_vm "web")).
  - split; [discriminate|vm_compute; reflexivity].
  - unfold ex_mirror. rewrite (surjective_pairing (MirrorSave _ _ _ _ _ _ _ _ _)) at 1. f_equal.
Qed.

(** The file does not read back as what was saved, and still is not submitted. *)
Lemma mirror_loop_safe_witness :
  ex_unmarshal <$> m_tree ex_mirror !! ["proxmox.openctl.io"; "v1"; "VirtualMachine"; "web.yaml"] ≠ Some (Some (ex_disk_vm "web")) ∧
  Sync ex_unmarshal ex_json_text (λ _ _, (Ok tt, empty_db)) (m_tree ex_mirror) (m_db ex_mirror) = m_db ex_mirror.
Proof.
  split; [vm_compute; discriminate|].
  refine (proj1 (mirror_loop_safe ex_digest ex_json_text ex_marshal ex_unmarshal ex_as_int (λ _, true) (λ _, true) None
    ex_blank ex_mirror (λ _ _, (Ok tt, empty_db)) None [] ex_text_laws eq_refl _)).
  apply rtc_once. exact ex_mirror_step.
Defined.

(** An empty spec is kept by the database and left out of the file, so that the file of such a
    manifest is submitted again. *)
Example empty_spec_echoes yaml_unmarshal apply t d r p c :
  t !! p = Some c → yaml_unmarshal c = Some (yaml_resource ex_as_int r) → r_spec r = Some [] →
  r_apiVersion r ≠ "" → r_kind r ≠ "" → r_name r ≠ "" → Load (resource_key r) d = Ok (Some r) →
  applyFileIfChanged yaml_unmarshal ex_json_text apply t p d = (apply (yaml_resource ex_as_int r) d).2.
Proof.
  intros Ht Hc Hs Ha Hk Hn HL. unfold applyFileIfChanged. rewrite Ht, Hc. rewrite decide_False by (intros [?|[?|?]]; done).
  rewrite decide_False; [done|]. unfold matchesStored. change (resource_key (yaml_resource ex_as_int r)) with (resource_key r).
  rewrite HL. unfold yaml_resource, yaml_spec. cbn [r_spec with_status with_spec]. rewrite Hs. discriminate.
Qed.

(** The removal of a file is submitted as a deletion whatever the database holds: the one that
    follows a deletion by the mirror itself, too. *)
Lemma removal_echoes yaml_unmarshal json_text apply del t d k :
  faithful k → process yaml_unmarshal json_text apply (Some del) true t (rel_comps k) d = (del k d).2.
Proof. intros Hf. unfold process. by rewrite (proj2 (parse_rel_comps k) Hf). Qed.

(** Startup reconciliation restores the projection and never destroys: the
    database and every file that was there are kept, afterwards every applied
    resource has its file, a file is only added for a resource whose file was
    missing, and the orphans reported are exactly the manifest files that belong
    to no applied resource. *)
Theorem Reconcile_restores yaml_marshal write_ok m rep m' :
  meta_ok (m_db m) → Reconcile yaml_marshal write_ok m = Ok (rep, m') →
  m_db m' = m_db m ∧
  (∀ p c, m_tree m !! p = Some c → m_tree m' !! p = Some c) ∧
  (∀ k, is_Some (db_applied (m_db m) !! k) → is_Some (m_tree m' !! rel_comps k)) ∧
  (∀ p, is_Some (m_tree m' !! p) → m_tree m !! p = None →
     ∃ ref, ref ∈ MissingOnDisk rep ∧ rel_comps (mref_key ref) = p ∧ is_Some (db_applied (m_db m) !! mref_key ref)) ∧
  (∀ p, p ∈ OrphansOnDisk rep ↔
     is_yaml p = true ∧ is_Some (m_tree m' !! p) ∧ ∀ k, is_Some (db_applied (m_db m) !! k) → rel_comps k ≠ p).
Proof.
  intros Hmeta. unfold Reconcile.
  destruct (rematerialize _ _ _ _ _) as [[missing t]|] eqn:ER; [|done]. intros [= <- <-]. simpl.
  assert (∀ ref, ref ∈ ListAll (m_db m) → is_Some (db_applied (m_db m) !! mref_key ref)) as Hin.
  { intros ref Hr. apply ListAll_elem. by apply list_elem_of_fmap_2. }
  assert (∀ ref, ref ∈ ListAll (m_db m) → ∀ x, Load (mref_key ref) (m_db m) = Ok x →
    ∃ r, x = Some r ∧ resource_key r = mref_key ref) as Hk by (intros ref Hr x; apply meta_ok_Load; auto).
  destruct (rematerialize_spec _ _ _ _ _ _ _ ER Hk) as (H1 & H2 & H3). split_and!; [done|..].
  - intros p c. eapply rematerialize_keeps; [exact ER|]. intros ref r Hr HL.
    by destruct (Hk ref Hr _ HL) as (? & [= <-] & ?).
  - intros k Hkk. apply ListAll_elem in Hkk. apply list_elem_of_fmap in Hkk as (ref & -> & Hr). by apply H1.
  - intros p Hp Hn. destruct (H3 p Hp) as [[c Hc]|Hm]; [congruence|].
    apply list_elem_of_fmap in Hm as (ref & -> & Hr). exists ref. split_and!; [done..|]. by apply Hin, H2.
  - intros p. rewrite list_elem_of_filter, elem_of_walk. split.
    + intros (Hn & Hy & Ht). split_and!; [done..|]. intros k Hkk <-. apply Hn.
      apply ListAll_elem in Hkk. apply list_elem_of_fmap in Hkk as (ref & -> & Hr).
      apply list_elem_of_fmap. by exists ref.
    + intros (Hy & Ht & Hn). split_and!; [|done..]. intros Hp. apply list_elem_of_fmap in Hp as (ref & Heq & Hr).
      by apply (Hn (mref_key ref)); [apply Hin|].
Qed.

Lemma ex_mirror_meta : meta_ok (m_db ex_mirror).
Proof. apply meta_ok_MirrorSave. by intros k row md. Qed.

Lemma Reconcile_restores_witness :
  match Reconcile ex_marshal (λ _, true) ex_lost with
  | Ok (rep, m') => is_Some (m_tree m' !! rel_comps (resource_key (ex_disk_vm "web")))
  | Err _ => False
  end.
Proof.
  destruct (Reconcile ex_marshal (λ _, true) ex_lost) as [[rep m']|e] eqn:E.
  - destruct (Reconcile_restores ex_marshal (λ _, true) ex_lost rep m' ex_mirror_meta E)
      as (_ & _ & H & _).
    apply H. by_decide.
  - apply (f_equal is_ok) in E. vm_compute in E. discriminate E.
Defined.

(** Pruning is conservative: it only deletes resources that the database
    holds, that were not last applied from the command line or the UI, and that
    are not composite children; and never one whose manifest file is present
    under its own name, if the name needed no scrubbing. When every delete
    succeeds and every row decodes, everything else whose name is not on disk is
    deleted. *)
Theorem Prune_conservative del t d pruned d' :
  (∀ k d, db_applied (del k d).2 = db_applied d) →
  Prune del t d = (pruned, d') →
  (∀ ref, ref ∈ pruned →
     is_Some (db_applied d !! mref_key ref) ∧ mref_source ref ≠ SourceCLI ∧ mref_source ref ≠ SourceUI ∧
     (∀ r, Load (mref_key ref) d = Ok (Some r) → isLikelyCompositeChild (md_labels (r_metadata r)) = false) ∧
     (faithful (mref_key ref) → t !! rel_comps (mref_key ref) = None)) ∧
  ((∀ k d, (del k d).1 = Ok tt) → (∀ k, is_ok (Load k d) = true) →
   ∀ ref, ref ∈ ListAll d → prunable (onDiskRefs t) d ref → ref ∈ pruned).
Proof.
  intros Hdel H. destruct (prune_loop_spec _ _ _ d _ _ _ Hdel eq_refl H) as [H1 H2]. split; [|done].
  intros ref Hr. destruct (H1 ref Hr) as [Hin [Hf Hc [Hs1 Hs2]]]. split_and!; [|done..|].
  - apply ListAll_elem. by apply list_elem_of_fmap_2.
  - intros Hfa. apply eq_None_not_Some. intros Hsome. by apply Hf, onDisk_file.
Qed.

Definition ex_prune_db : db :=
  ok_or (SaveWithRefsHash ex_digest "" (Some (ex_disk_vm "old")) "" "t1"
    (ok_or (SaveWithRefsHash ex_digest "" (Some (ex_disk_vm "web")) "" "t0" empty_db) empty_db)) empty_db.

Definition ex_del (k : rkey) (d : db) : result unit unit * db := (Ok tt, d).

Lemma Prune_conservative_witness :
  map mref_key (Prune ex_del (m_tree ex_mirror) ex_prune_db).1 = [resource_key (ex_disk_vm "old")] ∧
  ∀ ref, ref ∈ (Prune ex_del (m_tree ex_mirror) ex_prune_db).1 → faithful (mref_key ref) →
    m_tree ex_mirror !! rel_comps (mref_key ref) = None.
Proof.
  split; [vm_compute; reflexivity|]. intros ref Hr.
  destruct (Prune_conservative ex_del (m_tree ex_mirror) ex_prune_db
    (Prune ex_del (m_tree ex_mirror) ex_prune_db).1 (Prune ex_del (m_tree ex_mirror) ex_prune_db).2
    (λ k d, eq_refl) (surjective_pairing _)) as [H _].
  by apply (H ref).
Defined.

Definition ex_slash_vm : resource :=
  Resource "proxmox.openctl.io/v1" "VirtualMachine" (ResourceMetadata "team/web" "" [] [] "" "") (Some []) None.
Definition ex_slash_key : rkey := ("proxmox.openctl.io/v1", "VirtualMachine", "team/web").

(** A resource whose name contains a slash (nothing in the store forbids it) is
    deleted by a prune although its manifest file is on disk: the file's path
    spells the scrubbed name. *)
Theorem Prune_deletes_scrubbed_name :
  let t := {[rel_comps ex_slash_key := "file"]} : tree in
  let d := ok_or (SaveWithRefsHash ex_digest "" (Some ex_slash_vm) "" "t0" empty_db) empty_db in
  is_Some (t !! rel_comps ex_slash_key) ∧ map mref_key (Prune ex_del t d).1 = [ex_slash_key].
Proof. split; [eexists; apply lookup_singleton_eq|vm_compute; reflexivity]. Qed.
