(* ===== verification/Drift.v ===== *)
(** Drift: comparing a desired spec with what a provider observes
    (src/internal/controller/server/drift.go and
    src/internal/controller/reconciler/compare.go). An [any] that is nil, or an
    absent map entry, is [VNull]. The formatting of floats by package fmt is a
    parameter. *)
From S2P Require Import Prelude GoStrings GoValue.
From Stdlib Require Import Ascii.
From Corelib Require Import Floats.SpecFloat.

(** [toFloat] *)
Definition toFloat (v : value) : option spec_float :=
  match v with
  | VFloat f => Some f
  | VInt z => Some (f64_of_Z z)
  | _ => None
  end.

(** [valuesEqual] (drift.go), [a] a scalar. *)
Definition valuesEqual (a b : value) : bool :=
  match toFloat a, toFloat b with
  | Some f, Some g => f64_eqb f g
  | _, _ =>
      match a, b with
      | VNull, VNull => true
      | VBool x, VBool y => bool_decide (x = y)
      | VStr x, VStr y => bool_decide (x = y)
      | _, _ => false
      end
  end.

(** [m[k]] of a [map[string]any] *)
Definition get_any (k : string) (m : gomap) : value := default VNull (assoc k m).

(** The walk both comparisons share: only what [desired] mentions counts. *)
Fixpoint compare_with (eq : value → value → bool) (desired observed : value) : bool :=
  match desired with
  | VMap d =>
      match observed with
      | VMap o => forallb (λ p, compare_with eq p.2 (get_any p.1 o)) d
      | _ => false
      end
  | VList d =>
      match observed with
      | VList o =>
          (fix go (d o : list value) : bool :=
             match d, o with
             | [], [] => true
             | x :: d, y :: o => compare_with eq x y && go d o
             | _, _ => false
             end) d o
      | _ => false
      end
  | _ => eq desired observed
  end.

Record DriftEntry : Type := MkDrift { Path : string; Desired : string; Observed : string }.

Section drift.
(** [strconv.FormatFloat(f, 'g', -1, 64)] ([%v]) and [%f]. *)
Context (float_v float_f : spec_float → string).

Definition fmt_Z (z : Z) : string := pretty z.

(** [fmt.Sprintf("%v", v)] *)
Fixpoint sprint_v (v : value) : string :=
  match v with
  | VNull => "<nil>"
  | VBool b => if b then "true" else "false"
  | VInt z => fmt_Z z
  | VFloat f => float_v f
  | VStr s => s
  | VList l => "[" +:+ join " " (map sprint_v l) +:+ "]"
  | VMap m => "map[" +:+ join " " (map (λ p, p.1 +:+ ":" +:+ p.2)
                (sort_entries (map (λ p, (p.1, sprint_v p.2)) m))) +:+ "]"
  end.

(** [scalarEqual] (compare.go) *)
Definition scalarEqual (a b : value) : bool :=
  match a, b with
  | VNull, VNull => true
  | _, _ =>
      match toFloat a, toFloat b with
      | Some f, Some g => f64_eqb f g
      | _, _ => bool_decide (sprint_v a = sprint_v b)
      end
  end.

(** [compareNode], [specsEqual] *)
Definition compareNode : value → value → bool := compare_with scalarEqual.
Definition specsEqual (desired observed : option gomap) : bool :=
  compareNode (VMap (fields desired)) (VMap (fields observed)).

(** [renderValue] *)
Definition renderValue (v : value) : string :=
  match v with
  | VNull => "<unset>"
  | VStr s => s
  | VBool b => if b then "true" else "false"
  | _ =>
      match toFloat v with
      | Some f =>
          let i := Z_of_f64 f in
          if f64_eqb f (f64_of_Z i) then fmt_Z i
          else trim_right "."%char (trim_right "0"%char (float_f f))
      | None => sprint_v v
      end
  end.

Definition entry (path : string) (desired observed : value) : DriftEntry :=
  MkDrift path (renderValue desired) (renderValue observed).

Definition nat_text (n : nat) : string := pretty n.

(** [walk] *)
Fixpoint walk (path : string) (desired observed : value) : list DriftEntry :=
  match desired with
  | VMap d =>
      match observed with
      | VMap o =>
          concat (map snd (sort_entries
            (map (λ p, (p.1, walk (path +:+ "." +:+ p.1) p.2 (get_any p.1 o))) d)))
      | _ => [entry path desired observed]
      end
  | VList d =>
      match observed with
      | VList o =>
          (if decide (length d = length o) then []
           else [MkDrift (path +:+ ".length") (nat_text (length d)) (nat_text (length o))]) ++
          (fix go (i : nat) (d o : list value) : list DriftEntry :=
             match d, o with
             | x :: d, y :: o => walk (path +:+ "[" +:+ nat_text i +:+ "]") x y ++ go (S i) d o
             | _, _ => []
             end) 0 d o
      | _ => [entry path desired observed]
      end
  | _ => if valuesEqual desired observed then [] else [entry path desired observed]
  end.

Definition path_entry_le (a b : DriftEntry) : Prop := String.le (Path a) (Path b).
#[export] Instance path_entry_le_dec : RelDecision path_entry_le.
Proof. intros a b. unfold path_entry_le. apply _. Defined.

(** [computeDrift] *)
Definition computeDrift (desired observed : option gomap) : list DriftEntry :=
  merge_sort path_entry_le (walk "spec" (VMap (fields desired)) (VMap (fields observed))).

(** ** Laws *)

Definition is_scalar (v : value) : Prop :=
  match v with VMap _ | VList _ => False | _ => True end.

(** What it means for an observation to cover a desired spec. *)
Inductive covered : value → value → Prop :=
| cov_map d o : (∀ k v, (k, v) ∈ d → covered v (get_any k o)) → covered (VMap d) (VMap o)
| cov_list d o : Forall2 covered d o → covered (VList d) (VList o)
| cov_scalar d o : is_scalar d → valuesEqual d o = true → covered d o.

Lemma compare_list eq (d o : list value) :
  compare_with eq (VList d) (VList o) = true ↔ Forall2 (λ x y, compare_with eq x y = true) d o.
Proof.
  simpl. revert o; induction d as [|x d IH]; intros [|y o].
  - split; [constructor|done].
  - split; [done|by inversion 1].
  - split; [done|by inversion 1].
  - rewrite andb_true_iff, IH. split; [intros []; by constructor|by inversion 1].
Qed.

Lemma compare_map eq (d o : gomap) :
  compare_with eq (VMap d) (VMap o) = true ↔
  ∀ k v, (k, v) ∈ d → compare_with eq v (get_any k o) = true.
Proof.
  simpl. rewrite forallb_Forall_true, Forall_forall. split.
  - intros H k v Hin. by apply (H (k, v)).
  - intros H [k v] Hin. by apply H.
Qed.

Lemma Forall2_iff_Forall {A B} (P Q : A → B → Prop) l k :
  Forall (λ x, ∀ y, P x y ↔ Q x y) l → Forall2 P l k ↔ Forall2 Q l k.
Proof.
  intros H. revert k; induction H as [|x l Hx _ IH]; intros k; split; inversion 1; subst;
    constructor; (by apply Hx) || (by apply IH).
Qed.

Lemma compare_covered d o : compare_with valuesEqual d o = true ↔ covered d o.
Proof.
  revert o; induction d as [ |b|z|f|s|l IH|m IH] using value_ind'; intros o;
    try (split; [intros H; by constructor|by inversion 1]).
  - destruct o as [ | | | | |o|]; try (split; [done|by inversion 1]).
    rewrite compare_list. rewrite (Forall2_iff_Forall _ covered) by done.
    split; [by constructor|by inversion 1].
  - destruct o as [ | | | | | |o]; try (split; [done|by inversion 1]).
    rewrite compare_map. rewrite Forall_forall in IH. split.
    + intros H. constructor. intros k v Hin. apply (IH (k, v) Hin). by apply H.
    + inversion 1 as [? ? Hc| |]; [|done]. subst. intros k v Hin. apply (IH (k, v) Hin). by apply Hc.
Qed.

Lemma concat_nil_iff {A} (ls : list (list A)) : concat ls = [] ↔ Forall (λ l, l = []) ls.
Proof.
  induction ls as [|l ls IH]; simpl; [done|]. rewrite app_nil, IH. by rewrite Forall_cons.
Qed.

Lemma walk_compare path d o : walk path d o = [] ↔ compare_with valuesEqual d o = true.
Proof.
  revert path o; induction d as [ |b|z|f|s|l IH|m IH] using value_ind'; intros path o;
    try (simpl; destruct (valuesEqual _ _); done).
  - destruct o as [ | | | | |o|]; try done. rewrite compare_list. cbn [walk]. rewrite app_nil.
    case_decide as Hlen.
    + assert (∀ i, (fix go (i : nat) (d o : list value) : list DriftEntry :=
        match d, o with
        | x :: d, y :: o => walk (path +:+ "[" +:+ nat_text i +:+ "]") x y ++ go (S i) d o
        | _, _ => []
        end) i l o = [] ↔ Forall2 (λ x y, compare_with valuesEqual x y = true) l o) as Hgo; [|by rewrite Hgo; tauto].
      revert o Hlen; induction IH as [|x l Hx _ IHl]; intros [|y o] Hlen i; try done.
      rewrite app_nil, Hx, IHl by (simpl in Hlen; lia).
      split; [intros []; by constructor|by inversion 1].
    + split; [by intros []|]. by intros ?%Forall2_length.
  - destruct o as [ | | | | | |o]; try done. rewrite compare_map. cbn [walk].
    rewrite concat_nil_iff, Forall_map, sort_entries_perm, Forall_map, Forall_forall.
    rewrite Forall_forall in IH. split.
    + intros H k v Hin. apply (IH (k, v) Hin (path +:+ "." +:+ k)). exact (H (k, v) Hin).
    + intros H [k v] Hin. apply (IH (k, v) Hin). by apply H.
Qed.

Lemma compare_mono (eq1 eq2 : value → value → bool) d o :
  (∀ a b, eq1 a b = true → eq2 a b = true) → compare_with eq1 d o = true → compare_with eq2 d o = true.
Proof.
  intros He. revert o; induction d as [ |b|z|f|s|l IH|m IH] using value_ind'; intros o; try apply He.
  - destruct o as [ | | | | |o|]; try done. rewrite !compare_list. intros H.
    revert o H; induction IH as [|x l Hx _ IHl]; intros o; inversion 1; subst; constructor; auto.
  - destruct o as [ | | | | | |o]; try done. rewrite !compare_map. rewrite Forall_forall in IH.
    intros H k v Hin. apply (IH (k, v) Hin). by apply H.
Qed.

Lemma valuesEqual_scalarEqual a b : valuesEqual a b = true → scalarEqual a b = true.
Proof.
  unfold valuesEqual, scalarEqual. destruct a, b; simpl; try done.
  all: intros ->%bool_decide_eq_true; by apply bool_decide_true.
Qed.

Lemma computeDrift_nil d o :
  computeDrift d o = [] ↔ compare_with valuesEqual (VMap (fields d)) (VMap (fields o)) = true.
Proof.
  rewrite <-(walk_compare "spec"). unfold computeDrift. split; [|by intros ->].
  intros H. apply Permutation_nil. rewrite <-H. by rewrite merge_sort_Permutation.
Qed.

(** NaN is the one value that drifts from itself. *)
Fixpoint nan_free (v : value) : bool :=
  match v with
  | VFloat f => f64_eqb f f
  | VInt z => f64_eqb (f64_of_Z z) (f64_of_Z z)
  | VList l => forallb nan_free l
  | VMap m => forallb (λ p, nan_free p.2) m
  | _ => true
  end.

Lemma compare_refl v : wf v → nan_free v = true → compare_with valuesEqual v v = true.
Proof.
  induction v as [ |b|z|f|s|l IH|m IH] using value_ind'; intros Hwf Hn; try done.
  - simpl. unfold valuesEqual. simpl. by apply bool_decide_true.
  - simpl. unfold valuesEqual. simpl. by apply bool_decide_true.
  - rewrite compare_list. apply wf_list in Hwf. simpl in Hn. rewrite forallb_Forall_true in Hn.
    induction IH as [|x l Hx _ IHl]; constructor; inversion_clear Hwf; inversion_clear Hn; auto.
  - rewrite compare_map. apply wf_map in Hwf as [Hnd Hwf]. simpl in Hn. rewrite forallb_Forall_true in Hn.
    rewrite Forall_forall in IH, Hwf, Hn. intros k v Hin. unfold get_any.
    rewrite (elem_assoc k v) by done. apply (IH (k, v) Hin); [by apply (Hwf (k, v))|by apply (Hn (k, v))].
Qed.

Lemma walk_ext path d o o' :
  (∀ k, k ∈ d.*1 → assoc k o = assoc k o') → walk path (VMap d) (VMap o) = walk path (VMap d) (VMap o').
Proof.
  intros H. cbn [walk]. do 3 f_equal. apply map_ext_in. intros [k v] Hin. unfold get_any. cbn [fst snd].
  rewrite (H k); [done|]. apply list_elem_of_fmap. exists (k, v). split; [done|]. by apply list_elem_of_In.
Qed.
End drift.

(** ** Properties *)

(** No drift is reported exactly when the observation covers the desired
    spec: every field the manifest mentions, at any depth, is observed with an
    equal value (numbers compared as float64, an absent field as nil, lists
    element by element). Fields only the provider mentions never matter, and a
    spec without NaN does not drift from itself. *)
Theorem computeDrift_spec float_v float_f d o :
  (computeDrift float_v float_f d o = [] ↔ covered (VMap (fields d)) (VMap (fields o))) ∧
  (∀ o', (∀ k, k ∈ (fields d).*1 → assoc k (fields o) = assoc k (fields o')) →
     computeDrift float_v float_f d o = computeDrift float_v float_f d o') ∧
  (wf (VMap (fields d)) → nan_free (VMap (fields d)) = true → computeDrift float_v float_f d d = []).
Proof.
  split_and!.
  - by rewrite computeDrift_nil, compare_covered.
  - intros o' H. unfold computeDrift. by rewrite (walk_ext _ _ _ _ _ _ H).
  - intros Hwf Hn. apply computeDrift_nil. by apply compare_refl.
Qed.

Definition ex_float (f : spec_float) : string := "1.5".
Definition ex_desired : gomap := [("cpu", VInt 2); ("disks", VList [VMap [("size", VInt 10)]])].
Definition ex_observed : gomap :=
  [("disks", VList [VMap [("size", VFloat (f64_of_Z 20)); ("id", VStr "scsi0")]; VNull]);
   ("cpu", VFloat (f64_of_Z 2)); ("uptime", VInt 7)].

Lemma computeDrift_spec_witness :
  computeDrift ex_float ex_float (Some ex_desired) (Some ex_observed) =
    [MkDrift "spec.disks.length" "1" "2"; MkDrift "spec.disks[0].size" "10" "20"] ∧
  computeDrift ex_float ex_float (Some ex_desired) (Some ex_desired) = [].
Proof.
  split; [vm_compute; reflexivity|].
  apply (computeDrift_spec ex_float ex_float (Some ex_desired) None); [vm_compute; reflexivity..].
Defined.

(** The reconciler's comparison against the server's: whatever the server
    reports as free of drift the reconciler leaves alone too; the converse fails,
    the reconciler compares unlike scalars by their printed form. *)
Theorem specsEqual_vs_computeDrift float_v float_f :
  (∀ d o, computeDrift float_v float_f d o = [] → specsEqual float_v d o = true) ∧
  (∃ d o, specsEqual float_v d o = true ∧ computeDrift float_v float_f d o ≠ []).
Proof.
  split.
  - intros d o H%computeDrift_nil. eapply compare_mono; [|exact H]. apply valuesEqual_scalarEqual.
  - exists (Some [("onboot", VStr "true")]), (Some [("onboot", VBool true)]). by vm_compute.
Qed.
