(* ===== verification/Wire.v ===== *)
(** The wire form of resources and what every RPC handler shares:
    src/internal/controller/server/resource.go (protoToResource,
    resourceToProto, normalize, sourceFromContext, attachRelationships) and
    authz.go. An RPC fails with a gRPC code and a reason. *)
From S2P Require Import Prelude GoStrings GoValue Db ManifestStore Registry Drift Auth.
From Corelib Require Import Floats.SpecFloat.

(** ** Status codes and authorization *)

Inductive code : Type :=
| InvalidArgument | NotFound | AlreadyExists | PermissionDenied | FailedPrecondition
| Unavailable | Internal | Unimplemented.

#[export] Instance code_eq_dec : EqDecision code.
Proof. solve_decision. Defined.

(** [authorize]: no principal means that authentication is disabled. *)
Definition authorize (p : option Principal) (minRole : Role) : bool :=
  match p with Some p => AtLeast (pr_Role p) minRole | None => true end.

Definition sourceMetadataKey : string := "x-openctl-source".

(** [sourceFromContext]; the argument is the metadata under [sourceMetadataKey]. *)
Definition sourceFromContext (md : list string) : string :=
  if decide (SourceUI ∈ md) then SourceUI else SourceCLI.

(** ** The wire form *)

Record wire_meta : Type := MkWireMeta {
  wm_name : string;
  wm_labels : list (string * string);
  wm_annotations : list (string * string);
  wm_owner_refs : list ResourceRef;
}.

(** [apiv1.Resource] *)
Record wire : Type := MkWire {
  w_apiVersion : string;
  w_kind : string;
  w_meta : option wire_meta;
  w_spec : option gomap;
  w_status : option gomap;
  w_drift : list DriftEntry;
  w_children : list ResourceRef;
}.

(** The getters of generated code on a message that may be absent. *)
Definition w_name (w : wire) : string := match w_meta w with Some m => wm_name m | None => "" end.
Definition w_owner_refs (w : wire) : list ResourceRef :=
  match w_meta w with Some m => wm_owner_refs m | None => [] end.

(** [structpb.Struct.AsMap]: numbers that JSON cannot write become text. *)
Fixpoint as_interface (v : value) : value :=
  match v with
  | VFloat S754_nan => VStr "NaN"
  | VFloat (S754_infinity false) => VStr "Infinity"
  | VFloat (S754_infinity true) => VStr "-Infinity"
  | VList l => VList (map as_interface l)
  | VMap m => VMap (map (λ p, (p.1, as_interface p.2)) m)
  | _ => v
  end.

Definition as_interface_map (m : gomap) : gomap := map (λ p, (p.1, as_interface p.2)) m.

(** [protoToResource] *)
Definition protoToResource (w : wire) : resource :=
  Resource (w_apiVersion w) (w_kind w)
    match w_meta w with
    | Some m => ResourceMetadata (wm_name m) "" (wm_labels m) (wm_annotations m) "" ""
    | None => ResourceMetadata "" "" [] [] "" ""
    end
    (as_interface_map <$> w_spec w) (as_interface_map <$> w_status w).

(** [normalizeValue]: whole numbers become float64, as [structpb] needs. *)
Fixpoint normalizeValue (v : value) : value :=
  match v with
  | VInt z => VFloat (f64_of_Z z)
  | VMap m => VMap (map (λ p, (p.1, normalizeValue p.2)) m)
  | VList l => VList (map normalizeValue l)
  | _ => v
  end.

Definition normalize (m : gomap) : gomap := map (λ p, (p.1, normalizeValue p.2)) m.

(** [resourceToProto]; on values that JSON and YAML produce it does not fail. *)
Definition resourceToProto (r : resource) : wire :=
  MkWire (r_apiVersion r) (r_kind r)
    (Some (MkWireMeta (r_name r) (r_labels r) (r_annotations r) []))
    (normalize <$> r_spec r) (normalize <$> r_status r) [] [].

Definition with_drift (w : wire) (d : list DriftEntry) : wire :=
  MkWire (w_apiVersion w) (w_kind w) (w_meta w) (w_spec w) (w_status w) d (w_children w).

Section relationships.
Context {St PE : Type} (registry : list (string * Provider St PE)).

(** [attachRelationships] *)
Definition attachRelationships (out : wire) : wire :=
  let kind := w_kind out in
  let name := w_name out in
  let children := match ChildrenOf kind name registry with [] => w_children out | cs => cs end in
  let meta :=
    match OwnerRefOf kind name registry with
    | None => w_meta out
    | Some owner =>
        let m := default (MkWireMeta name [] [] []) (w_meta out) in
        Some (MkWireMeta (wm_name m) (wm_labels m) (wm_annotations m) [owner])
    end in
  MkWire (w_apiVersion out) (w_kind out) meta (w_spec out) (w_status out) (w_drift out) children.
End relationships.

(** ** Laws *)

Lemma normalizeValue_json_read v : normalizeValue v = json_read v.
Proof. reflexivity. Qed.

Lemma normalize_json_read m : normalize m = json_read_map m.
Proof. apply map_ext. intros p. by rewrite normalizeValue_json_read. Qed.

Lemma as_interface_json v : json_ok v = true → as_interface v = v.
Proof.
  induction v as [ |b|z|f|s|l IH|m IH] using value_ind'; simpl; try done.
  - destruct f as [|[]| |]; done.
  - intros H. f_equal. induction IH as [|x l Hx _ IHl]; [done|]. simpl in *.
    apply andb_true_iff in H as [H1 H2]. by rewrite Hx, IHl.
  - intros H. f_equal. induction IH as [|[k x] m Hx _ IHm]; [done|]. simpl in *.
    apply andb_true_iff in H as [H1 H2]. by rewrite Hx, IHm.
Qed.

Lemma as_interface_json_ok v : json_ok (as_interface v) = true.
Proof.
  induction v as [ |b|z|f|s|l IH|m IH] using value_ind'; simpl; try done.
  - by destruct f as [|[]| |].
  - induction IH as [|x l Hx _ IHl]; simpl; [done|]. by rewrite Hx.
  - induction IH as [|[k x] m Hx _ IHm]; simpl in *; [done|]. by rewrite Hx.
Qed.

(** What arrives on the wire can always be written as JSON. *)
Lemma protoToResource_json w : is_Some (json_resource (protoToResource w)).
Proof.
  unfold json_resource, protoToResource. cbn [r_spec r_status].
  assert (∀ m : option gomap, json_ok (VMap (fields (as_interface_map <$> m))) = true) as H.
  { intros [m|]; [|done]. apply (as_interface_json_ok (VMap m)). }
  rewrite !H. by eexists.
Qed.
