(* ===== verification/Views.v ===== *)
(** The reading RPCs of src/internal/controller/server/: Get, List, DryRunApply
    and the managed-only filter of resource.go, and the poll loop of Watch in
    watch.go. None of them changes the state they are given. *)
From S2P Require Import Prelude GoStrings GoValue Marker Refs Hash Db ManifestStore Registry Drift Auth Wire.
From Stdlib Require Import Ascii.
From Corelib Require Import Floats.SpecFloat.

Section views.
Context {W PE : Type}.
Abbreviation St := (db * W)%type.

(** The registry, whether the manifest store is wired, [errors.As] to a
    NotFoundError, and the formatting of floats. *)
Context (registry : list (string * Provider St PE)) (wired : bool) (is_not_found : PE → bool).
Context (float_v float_f : spec_float → string) (digest : value → string).

Inductive view_reason : Type :=
| RoleDenied (p : Principal) (minRole : Role)
| ResourceRequired
| BadAPIVersion (e : registry_error)
| Missing (kind name : string)
| ProviderFailed (e : PE)
| ManagedCheck (e : store_error)
| LoadApplied (e : store_error)
| ComputeDrift (e : store_error + registry_error)
| NilResource
| DryRunFailed (e : PE)
| WatchGaveUp.

Abbreviation rpc A := (result (code * view_reason) A).

Definition require_role (who : option Principal) (minRole : Role) : rpc unit :=
  match who with
  | Some p => if authorize who minRole then Ok tt else Err (PermissionDenied, RoleDenied p minRole)
  | None => Ok tt
  end.

Definition provider_for (apiVersion : string) : rpc (Provider St PE) :=
  map_err (λ e, (InvalidArgument, BadAPIVersion e)) (For apiVersion registry).

(** ** The managed-only filter *)

Definition owner_key (o : ResourceRef) : string :=
  rr_APIVersion o +:+ "/" +:+ rr_Kind o +:+ "/" +:+ rr_Name o.

Definition is_stored (k : rkey) (d : db) : result store_error bool :=
  (λ o : option resource, match o with Some _ => true | None => false end) <$> Load k d.

(** [isManaged]; [names] and [cache] are the optimizations of a batch, and the
    cache may grow. *)
Definition isManaged (apiVersion kind name : string) (names : option (gset string))
    (cache : option (gmap string bool)) (d : db) : result store_error (bool * option (gmap string bool)) :=
  if negb wired then Ok (true, cache)
  else if IsObservedOnly apiVersion kind registry then Ok (true, cache)
  else
    applied ← match names with
              | Some ns => Ok (bool_decide (name ∈ ns))
              | None => is_stored (apiVersion, kind, name) d
              end;
    if (applied : bool) then Ok (true, cache)
    else
      match OwnerRefOf kind name registry with
      | None => Ok (false, cache)
      | Some owner =>
          match cache ≫= (λ c, c !! owner_key owner) with
          | Some v => Ok (v, cache)
          | None =>
              managed ← is_stored (rr_APIVersion owner, rr_Kind owner, rr_Name owner) d;
              Ok (managed, (λ c, <[owner_key owner := managed]> c) <$> cache)
          end
      end.

(** [managedScope] *)
Definition managedScope (apiVersion kind : string) (d : db) : option (gset string) * option (gmap string bool) :=
  if wired then (Some (ListNames apiVersion kind d), Some ∅) else (None, None).

(** [attachDrift] *)
Definition attachDrift (out : wire) (observed : resource) (d : db) : result (store_error + registry_error) wire :=
  if negb wired then Ok out
  else
    o ← map_err inl (Load (resource_key observed) d);
    match o with
    | None => Ok out
    | Some desired =>
        p ← map_err inr (For (r_apiVersion observed) registry);
        let '(ds, os) := DriftSpecs p (r_kind observed) (r_spec desired) (r_spec observed) in
        Ok (with_drift out (computeDrift float_v float_f ds os))
    end.

(** ** Get *)

Record GetResponse : Type := MkGetResponse {
  gr_Resource : wire; gr_Applied : option wire; gr_AppliedAt : string }.

(** [Get]; the stored text of the time is what the code formats back. A provider
    that returns nil without an error makes the run panic. *)
Definition GetResource (who : option Principal) (apiVersion kind name : string) (st : St) : rpc GetResponse :=
  _ ← require_role who RoleViewer;
  p ← provider_for apiVersion;
  got ← match p_Get p kind name st with
        | Ok r => Ok r
        | Err e => if is_not_found e then Err (NotFound, Missing kind name) else Err (Internal, ProviderFailed e)
        end;
  m ← map_err (λ e, (Internal, ManagedCheck e)) (isManaged apiVersion kind name None None st.1);
  if negb m.1 then Err (NotFound, Missing kind name)
  else
    match got with
    | None => Err (Internal, NilResource)
    | Some r =>
        let out := resourceToProto r in
        if negb wired then Ok (MkGetResponse (attachRelationships registry out) None "")
        else
          o ← map_err (λ e, (Internal, LoadApplied e)) (LoadWithTime (resource_key r) st.1);
          match o with
          | None => Ok (MkGetResponse (attachRelationships registry out) None "")
          | Some (desired, at_) =>
              let '(ds, os) := DriftSpecs p (r_kind r) (r_spec desired) (r_spec r) in
              Ok (MkGetResponse
                    (attachRelationships registry (with_drift out (computeDrift float_v float_f ds os)))
                    (Some (attachRelationships registry (resourceToProto desired))) at_)
          end
    end.

(** ** List *)

Fixpoint list_loop (names : option (gset string)) (cache : option (gmap string bool)) (rs : list resource) (d : db) :
    rpc (list wire) :=
  match rs with
  | [] => Ok []
  | r :: rs' =>
      m ← map_err (λ e, (Internal, ManagedCheck e)) (isManaged (r_apiVersion r) (r_kind r) (r_name r) names cache d);
      if negb m.1 then list_loop names m.2 rs' d
      else
        pr ← map_err (λ e, (Internal, ComputeDrift e)) (attachDrift (resourceToProto r) r d);
        out ← list_loop names m.2 rs' d;
        Ok (attachRelationships registry pr :: out)
  end.

(** [List] *)
Definition ListResources (who : option Principal) (apiVersion kind : string) (st : St) : rpc (list wire) :=
  _ ← require_role who RoleViewer;
  p ← provider_for apiVersion;
  rs ← map_err (λ e, (Internal, ProviderFailed e)) (p_List p kind st);
  let '(names, cache) := managedScope apiVersion kind st.1 in
  list_loop names cache rs st.1.

(** ** DryRunApply *)

Record DryRunResponse : Type := MkDryRun {
  dx_FieldErrors : list (string * string);
  dx_ValidationErrors : list string;
  dx_Diff : list DriftEntry;
  dx_Children : list ChildAction;
  dx_RequiredGates : list string;
  dx_Summary : string;
}.

(** [summarizeDryRun] *)
Definition summarizeDryRun (diff : list DriftEntry) (children : list ChildAction) : string :=
  match diff with
  | [] => match children with [] => "no-op" | _ => "" end
  | [_] => "would update 1 field"
  | _ => "would update " +:+ pretty (length diff) +:+ " fields"
  end.

(** [schema.ValidateStructured] is driven by CUE; the text of a ref error is a
    parameter too. *)
Context (ValidateStructured : resource → result string (list (string * string))).
Context (ref_text : ref_error (get_error (PE := PE)) → string).

Definition invalid (fes : list (string * string)) (errs : list string) (summary : string) : DryRunResponse :=
  MkDryRun fes errs [] [] [] summary.

(** [DryRunApply] *)
Definition DryRunApply (who : option Principal) (req : option wire) (st : St) : rpc DryRunResponse :=
  _ ← require_role who RoleViewer;
  match req with
  | None => Err (InvalidArgument, ResourceRequired)
  | Some w =>
      let manifest := protoToResource w in
      match ValidateStructured manifest with
      | Err e => Ok (invalid [] [e] "schema validation failed")
      | Ok ((_ :: _) as fes) =>
          Ok (invalid fes (map (λ fe, if decide (fe.1 = "") then fe.2 else fe.1 +:+ ": " +:+ fe.2) fes)
                "schema validation failed")
      | Ok [] =>
          if decide (r_name manifest = "") then
            Ok (invalid [] ["metadata.name is required"] "metadata.name is required")
          else
            p ← provider_for (r_apiVersion manifest);
            match
              match r_spec manifest with
              | None => Ok manifest
              | Some _ => with_spec manifest <$> Resolve (Some (λ a k n, Get a k n registry st)) (r_spec manifest)
              end
            with
            | Err e => Ok (invalid [] [ref_text e] "unresolved ref")
            | Ok manifest =>
                desired ← (if wired then map_err (λ e, (Internal, LoadApplied e)) (Load (resource_key manifest) st.1)
                           else Ok None);
                let diff := match desired with
                            | Some r => computeDrift float_v float_f (r_spec r) (r_spec manifest)
                            | None => []
                            end in
                plan ← match p_DryRun p with
                       | None => Ok None
                       | Some f => map_err (λ e, (Internal, DryRunFailed e)) (f manifest st)
                       end;
                let children := match plan with Some x => dr_Children x | None => [] end in
                let gates := match plan with Some x => dr_RequiredGates x | None => [] end in
                let summary := match plan with Some x => dr_Summary x | None => "" end in
                Ok (MkDryRun [] [] diff children gates
                      (if decide (summary = "") then summarizeDryRun diff children else summary))
            end
      end
  end.

(** ** Watch *)

(** The loop of [listForWatch]. *)
Fixpoint managed_only (names : option (gset string)) (cache : option (gmap string bool)) (rs : list resource) (d : db) :
    rpc (list resource) :=
  match rs with
  | [] => Ok []
  | r :: rs' =>
      m ← map_err (λ e, (Internal, ManagedCheck e)) (isManaged (r_apiVersion r) (r_kind r) (r_name r) names cache d);
      out ← managed_only names m.2 rs' d;
      Ok (if m.1 : bool then r :: out else out)
  end.

(** [listForWatch] *)
Definition listForWatch (apiVersion kind name : string) (st : St) : result (code * view_reason) (list resource) :=
  p ← provider_for apiVersion;
  if decide (name = "") then
    rs ← map_err (λ e, (Internal, ProviderFailed e)) (p_List p kind st);
    let '(names, cache) := managedScope apiVersion kind st.1 in
    managed_only names cache rs st.1
  else
    match p_Get p kind name st with
    | Err e => if is_not_found e then Ok [] else Err (Internal, ProviderFailed e)
    | Ok None => Ok []
    | Ok (Some r) =>
        m ← map_err (λ e, (Internal, ManagedCheck e)) (isManaged apiVersion kind name None None st.1);
        Ok (if m.1 : bool then [r] else [])
    end.

Inductive watch_event : Type :=
| ADDED (w : wire)
| MODIFIED (w : wire)
| DELETED (w : wire).

Definition maxConsecutiveWatchListErrors : nat := 5.

(** What the loop keeps: name to hash, whether this is the first successful
    tick, and the failures in a row. *)
Record watcher : Type := MkWatcher {
  snapshot : list (string * string); first : bool; consecutiveErrs : nat }.

Definition new_watcher : watcher := MkWatcher [] true 0.

(** What is sent for one match. *)
Definition watch_wire (d : db) (m : resource) : wire :=
  attachRelationships registry (ok_or (attachDrift (resourceToProto m) m d) (resourceToProto m)).

Definition watch_match (w : watcher) (d : db) (m : resource) : list watch_event :=
  let h := Hash digest (Some m) in
  match assoc (r_name m) (snapshot w) with
  | Some prev =>
      if first w then [ADDED (watch_wire d m)]
      else if decide (prev = h) then [] else [MODIFIED (watch_wire d m)]
  | None => [ADDED (watch_wire d m)]
  end.

Definition seen_of (matches : list resource) : list (string * string) :=
  fold_left (λ seen m, assoc_set (r_name m) (Hash digest (Some m)) seen) matches [].

Definition gone_wire (apiVersion kind name : string) : wire :=
  MkWire apiVersion kind (Some (MkWireMeta name [] [] [])) None None [] [].

(** One tick that listed [matches]. *)
Definition watch_tick (apiVersion kind : string) (w : watcher) (d : db) (matches : list resource) :
    list watch_event * watcher :=
  let seen := seen_of matches in
  (concat (map (watch_match w d) matches) ++
   map (λ p : string * string, DELETED (gone_wire apiVersion kind p.1))
     (filter (λ p : string * string, assoc p.1 seen = None) (snapshot w)),
   MkWatcher seen false 0).

(** The loop over the states that successive polls find; the client cancels after
    the last. [Some] reason: the stream was closed with an error. *)
Fixpoint watch_loop (apiVersion kind name : string) (w : watcher) (polls : list St) :
    list watch_event * watcher * option (code * view_reason) :=
  match polls with
  | [] => ([], w, None)
  | st :: polls' =>
      match listForWatch apiVersion kind name st with
      | Err _ =>
          let n := S (consecutiveErrs w) in
          if maxConsecutiveWatchListErrors <=? n then ([], w, Some (Unavailable, WatchGaveUp))
          else watch_loop apiVersion kind name (MkWatcher (snapshot w) (first w) n) polls'
      | Ok matches =>
          let '(evs, w') := watch_tick apiVersion kind w st.1 matches in
          let '(evs', w'', e) := watch_loop apiVersion kind name w' polls' in
          (evs ++ evs', w'', e)
      end
  end.

(** [Watch] *)
Definition Watch (apiVersion kind name : string) (polls : list St) :
    list watch_event * watcher * option (code * view_reason) :=
  if decide (apiVersion = "" ∨ kind = "") then ([], new_watcher, Some (InvalidArgument, ResourceRequired))
  else match For apiVersion registry with
       | Err e => ([], new_watcher, Some (InvalidArgument, BadAPIVersion e))
       | Ok _ => watch_loop apiVersion kind name new_watcher polls
       end.
End views.

(** ** Laws *)

(** The last separator splits a text in one way. *)
Lemma no_byte_sep c a b : ¬ no_byte c (a +:+ String c b).
Proof.
  induction a as [|x a IH]; [by intros [? _]|].
  rewrite str_app_cons. intros [_ H]. by apply IH.
Qed.

Lemma app_sep_inj c a a' b b' :
  no_byte c b → no_byte c b' → a +:+ String c b = a' +:+ String c b' → a = a' ∧ b = b'.
Proof.
  intros Hb Hb'. revert a'.
  induction a as [|x a IH]; intros [|x' a']; rewrite ?str_app_cons; try change ("" +:+ ?s) with s.
  - by intros [= ->].
  - intros [= -> ->]. by apply no_byte_sep in Hb.
  - intros [= -> <-]. by apply no_byte_sep in Hb'.
  - intros [= -> H]. by destruct (IH _ H) as [-> ->].
Qed.

Definition slash : ascii := Ascii true true true true false true false false.
Definition plain_owner (o : ResourceRef) : Prop := no_byte slash (rr_Kind o) ∧ no_byte slash (rr_Name o).

Lemma owner_key_inj o o' : plain_owner o → plain_owner o' → owner_key o = owner_key o' → o = o'.
Proof.
  destruct o as [a k n], o' as [a' k' n']. intros [Hk Hn] [Hk' Hn']. unfold owner_key. simpl in *.
  assert (∀ a k n, a +:+ "/" +:+ k +:+ "/" +:+ n = (a +:+ String slash k) +:+ String slash n) as E
    by (intros; by rewrite str_app_assoc, str_app_cons).
  rewrite !E. intros [H ->]%app_sep_inj; [|done..]. by apply app_sep_inj in H as [-> ->].
Qed.

Section view_laws.
Context {W PE : Type} (registry : list (string * Provider (db * W) PE)) (wired : bool).

(** A cache tells the truth about the database. *)
Definition cache_ok (kind : string) (d : db) (c : gmap string bool) : Prop :=
  ∀ name o v, OwnerRefOf kind name registry = Some o → c !! owner_key o = Some v →
    is_stored (rr_APIVersion o, rr_Kind o, rr_Name o) d = Ok v.

Lemma elem_of_ListNames apiVersion kind name d :
  name ∈ ListNames apiVersion kind d ↔ is_Some (db_applied d !! (apiVersion, kind, name)).
Proof.
  unfold ListNames. rewrite elem_of_list_to_set, list_elem_of_fmap. split.
  - intros ([[[a k] n] row] & -> & [Hk Hin]%list_elem_of_filter). simpl in Hk. injection Hk as -> ->.
    apply elem_of_map_to_list in Hin. by eexists.
  - intros [row Hr]. exists ((apiVersion, kind, name), row). split; [done|].
    apply list_elem_of_filter. split; [done|]. by apply elem_of_map_to_list.
Qed.

(** What a one-shot check sees of a row: its presence, or that it cannot be
    decoded. *)
Lemma is_stored_spec k d :
  (is_stored k d = Ok true ∧ is_Some (db_applied d !! k)) ∨
  (is_stored k d = Ok false ∧ db_applied d !! k = None) ∨
  (is_stored k d = Err ErrDecodeSpec ∧ Load k d = Err ErrDecodeSpec ∧ is_Some (db_applied d !! k)).
Proof.
  unfold is_stored, Load, LoadWithTime. destruct (db_applied d !! k) as [row|]; [|tauto].
  destruct (mr_spec row); simpl; eauto.
Qed.

(** The batch check agrees with the one-shot check, but for a row that cannot be
    decoded, which it counts as managed. *)
Lemma isManaged_batch apiVersion kind name d c :
  (∀ n o, OwnerRefOf kind n registry = Some o → plain_owner o) → cache_ok kind d c →
  let one := isManaged registry wired apiVersion kind name None None d in
  match isManaged registry wired apiVersion kind name (Some (ListNames apiVersion kind d)) (Some c) d with
  | Ok (b, c') => (one = Ok (b, None) ∨ b = true ∧ one = Err ErrDecodeSpec ∧ Load (apiVersion, kind, name) d = Err ErrDecodeSpec)
                  ∧ ∃ c'', c' = Some c'' ∧ cache_ok kind d c''
  | Err e => one = Err e
  end.
Proof.
  intros Hpl Hc one. subst one. unfold isManaged. destruct wired; simpl; [|eauto].
  destruct (IsObservedOnly _ _ _); simpl; [by eauto|].
  assert (∀ b : bool, bool_decide (name ∈ ListNames apiVersion kind d) = b →
    (b = true ↔ is_Some (db_applied d !! (apiVersion, kind, name)))) as Hb.
  { intros b <-. by rewrite bool_decide_eq_true, elem_of_ListNames. }
  destruct (bool_decide _) eqn:E; specialize (Hb _ eq_refl); simpl.
  - destruct (is_stored_spec (apiVersion, kind, name) d) as [[-> _]|[[_ Hn]|(-> & Hl & _)]]; simpl.
    + by eauto.
    + destruct Hb as [Hb _]. rewrite Hn in Hb. by destruct Hb.
    + split; [right|]; eauto.
  - destruct (is_stored_spec (apiVersion, kind, name) d) as [[_ Hs]|[[-> _]|(_ & _ & Hs)]];
      [by apply Hb in Hs| |by apply Hb in Hs]. simpl.
    destruct (OwnerRefOf kind name registry) as [o|] eqn:Ho; [|by eauto].
    destruct (c !! owner_key o) as [v|] eqn:Hv.
    + rewrite (Hc _ _ _ Ho Hv). simpl. by eauto.
    + destruct (is_stored (rr_APIVersion o, rr_Kind o, rr_Name o) d) as [v|e] eqn:Hs; simpl; [|done].
      split; [by left|]. eexists; split; [done|]. intros n o' v' Ho' [[Hk <-]|[_ Hl]]%lookup_insert_Some.
      * by rewrite <-(owner_key_inj o o') by eauto.
      * by eapply Hc.
Qed.

Lemma isManaged_one_shot apiVersion kind name d b c :
  isManaged registry wired apiVersion kind name None None d = Ok (b, c) → c = None.
Proof.
  unfold isManaged. destruct wired; simpl; [|by intros [= _ <-]].
  destruct (IsObservedOnly _ _ _); simpl; [by intros [= _ <-]|].
  destruct (is_stored _ d) as [[]|]; simpl; [by intros [= _ <-]| |done].
  destruct (OwnerRefOf _ _ _) as [o|]; [|by intros [= _ <-]].
  destruct (is_stored _ d); simpl; [by intros [= _ <-]|done].
Qed.

Context (float_v float_f : spec_float → string) (digest : value → string).

Lemma attachRelationships_name w : w_name (attachRelationships registry w) = w_name w.
Proof.
  unfold attachRelationships. destruct w as [av k [m|] sp st dr ch]; simpl; by destruct (OwnerRefOf _ _ _).
Qed.

Lemma attachDrift_name out r d w :
  attachDrift registry wired float_v float_f out r d = Ok w → w_name w = w_name out.
Proof.
  unfold attachDrift. destruct wired; simpl; [|by intros [= <-]].
  destruct (Load _ d) as [[x|]|]; simpl; [|by intros [= <-]|done].
  destruct (For _ _) as [p|]; simpl; [|done]. destruct (DriftSpecs _ _ _ _). by intros [= <-].
Qed.

Lemma watch_wire_name d m : w_name (watch_wire registry wired float_v float_f d m) = r_name m.
Proof.
  unfold watch_wire. rewrite attachRelationships_name.
  destruct (attachDrift _ _ _ _ _ m d) as [w|] eqn:E; simpl; [|done]. by rewrite (attachDrift_name _ _ _ _ E).
Qed.

Lemma seen_of_spec matches n :
  NoDup (map r_name matches) →
  assoc n (seen_of digest matches) = (λ p, Hash digest (Some p.2)) <$> list_find (λ m, r_name m = n) matches.
Proof.
  unfold seen_of. intros Hnd.
  assert (∀ acc, (∀ m, m ∈ matches → assoc (r_name m) acc = None) →
    assoc n (fold_left (λ seen m, assoc_set (r_name m) (Hash digest (Some m)) seen) matches acc) =
    match list_find (λ m, r_name m = n) matches with Some p => Some (Hash digest (Some p.2)) | None => assoc n acc end) as H.
  { clear -Hnd. induction matches as [|m ms IH]; intros acc Hacc; simpl in *; [done|]. inversion_clear Hnd as [|? ? Hm Hms].
    rewrite IH; [|done|].
    - destruct (decide (r_name m = n)) as [<-|Hn].
      + destruct (list_find _ ms) as [[i x]|] eqn:E; simpl; [|by rewrite assoc_set_eq].
        apply list_find_Some in E as (Hi & Hx & _). destruct Hm. rewrite <-Hx.
        apply list_elem_of_fmap_2. by eapply list_elem_of_lookup_2.
      + rewrite assoc_set_ne by done. by destruct (list_find _ ms) as [[]|].
    - intros x Hx. rewrite assoc_set_ne; [apply Hacc; by right|].
      intros Heq. destruct Hm. rewrite Heq. by apply list_elem_of_fmap_2. }
  rewrite H; [|done]. by destruct (list_find _ _) as [[]|].
Qed.

Lemma seen_of_elem matches m :
  NoDup (map r_name matches) → m ∈ matches → assoc (r_name m) (seen_of digest matches) = Some (Hash digest (Some m)).
Proof.
  intros Hnd Hm. rewrite seen_of_spec by done. destruct (list_find _ matches) as [[i x]|] eqn:E; simpl.
  - apply list_find_Some in E as (Hi & Hx & _). apply list_elem_of_lookup_2 in Hi.
    assert (x = m) as ->; [|done]. clear -Hnd Hm Hi Hx.
    revert Hm Hi. induction matches as [|y ys IH]; simpl in *; [by intros ?%elem_of_nil|].
    inversion_clear Hnd as [|? ? Hy Hys]. rewrite !elem_of_cons. intros [->|Hm] [->|Hi]; [done|..|by apply IH].
    + destruct Hy. rewrite <-Hx. by apply list_elem_of_fmap_2.
    + destruct Hy. rewrite Hx. by apply list_elem_of_fmap_2.
  - apply list_find_None in E. rewrite Forall_forall in E. by destruct (E m Hm).
Qed.
End view_laws.

(** What a client of Watch holds after the events it received. *)
Definition client_apply (c : gmap string wire) (ev : watch_event) : gmap string wire :=
  match ev with
  | ADDED w | MODIFIED w => <[w_name w := w]> c
  | DELETED w => delete (w_name w) c
  end.

Definition client_of (evs : list watch_event) : gmap string wire := fold_left client_apply evs ∅.

Section watch_laws.
Context {W PE : Type} (registry : list (string * Provider (db * W) PE)) (wired : bool).
Context (float_v float_f : spec_float → string) (digest : value → string).

Abbreviation wire_of := (watch_wire registry wired float_v float_f).
Abbreviation hash_of := (λ m, Hash digest (Some m)).
Abbreviation tick := (watch_tick registry wired float_v float_f digest).

(** The client's copy of [m] is current as far as its hash tells. *)
Definition unchanged (w : watcher) (m : resource) : Prop :=
  first w = false ∧ assoc (r_name m) (snapshot w) = Some (hash_of m).
#[local] Instance unchanged_dec w m : Decision (unchanged w m).
Proof. unfold unchanged. apply _. Defined.

Lemma apply_match w d m c :
  (first w = true → snapshot w = []) →
  fold_left client_apply (watch_match registry wired float_v float_f digest w d m) c =
    if decide (unchanged w m) then c else <[r_name m := wire_of d m]> c.
Proof.
  intros Hf. unfold watch_match.
  assert (∀ ev, ev = ADDED (wire_of d m) ∨ ev = MODIFIED (wire_of d m) →
    fold_left client_apply [ev] c = <[r_name m := wire_of d m]> c) as Hev
    by (intros ev [-> | ->]; simpl; by rewrite watch_wire_name).
  destruct (decide (unchanged w m)) as [[H1 H2]|Hn].
  - rewrite H2, H1. by rewrite decide_True.
  - destruct (assoc (r_name m) (snapshot w)) as [prev|] eqn:E; [|apply Hev; tauto].
    destruct (first w) eqn:Ef; [by rewrite Hf in E|].
    case_decide as Hh; [|apply Hev; tauto]. destruct Hn. split; [done|]. by rewrite E, Hh.
Qed.

Lemma apply_matches w d ms c n :
  (first w = true → snapshot w = []) → NoDup (map r_name ms) →
  fold_left client_apply (concat (map (watch_match registry wired float_v float_f digest w d) ms)) c !! n =
    match snd <$> list_find (λ m, r_name m = n) ms with
    | Some m => if decide (unchanged w m) then c !! n else Some (wire_of d m)
    | None => c !! n
    end.
Proof.
  intros Hf. revert c. induction ms as [|m ms IH]; intros c Hnd; simpl; [done|].
  inversion_clear Hnd as [|? ? Hm Hms]. rewrite fold_left_app, IH, apply_match by done. clear IH.
  destruct (decide (r_name m = n)) as [<-|Hn]; simpl.
  - destruct (list_find _ ms) as [[i x]|] eqn:E; simpl.
    { apply list_find_Some in E as (Hi & Hx & _). destruct Hm. rewrite <-Hx.
      apply list_elem_of_fmap_2. by eapply list_elem_of_lookup_2. }
    destruct (decide (unchanged w m)); [done|]. apply lookup_insert_eq.
  - destruct (list_find _ ms) as [[i x]|] eqn:E; simpl.
    all: destruct (decide (unchanged w m)); [done|]; by rewrite lookup_insert_ne.
Qed.

Lemma apply_deletes apiVersion kind (l : list (string * string)) c n :
  fold_left client_apply (map (λ p, DELETED (gone_wire apiVersion kind p.1)) l) c !! n =
    if decide (n ∈ l.*1) then None else c !! n.
Proof.
  revert c. induction l as [|[k h] l IH]; intros c; simpl; [done|].
  rewrite IH. unfold w_name; simpl. destruct (decide (n ∈ l.*1)) as [Hin|Hin].
  - rewrite decide_True; [done|by right].
  - destruct (decide (n = k)) as [->|Hne].
    + rewrite decide_True by by left. apply lookup_delete_eq.
    + rewrite decide_False by by (intros [?|?]%elem_of_cons). by rewrite lookup_delete_ne.
Qed.

(** Client and watcher agree on which resources exist, and every copy of the
    client is a form the server saw, with the hash the watcher remembers. *)
Definition in_sync (polled : list (db * resource)) (c : gmap string wire) (w : watcher) : Prop :=
  (first w = true → snapshot w = []) ∧
  ∀ n, match assoc n (snapshot w), c !! n with
       | Some h, Some x => ∃ d m, (d, m) ∈ polled ∧ r_name m = n ∧ hash_of m = h ∧ x = wire_of d m
       | None, None => True
       | _, _ => False
       end.

Lemma assoc_filter_gone (snap seen : list (string * string)) n :
  n ∈ (filter (λ p : string * string, assoc p.1 seen = None) snap).*1 ↔ is_Some (assoc n snap) ∧ assoc n seen = None.
Proof.
  rewrite list_elem_of_fmap. split.
  - intros ([k h] & -> & [Hk Hin]%list_elem_of_filter). simpl in *. split; [|done].
    destruct (assoc k snap) eqn:E; [by eexists|]. apply assoc_None in E. destruct E. apply list_elem_of_fmap. by exists (k, h).
  - intros [[h Hh] Hn]. exists (n, h). split; [done|]. apply list_elem_of_filter. split; [done|]. by apply assoc_elem.
Qed.

Lemma elem_of_pairs {A B} (x d : A) (m : B) l : (d, m) ∈ map (pair x) l ↔ d = x ∧ m ∈ l.
Proof.
  rewrite list_elem_of_fmap. split; [by intros (y & [= -> ->] & ?)|]. intros [-> Hm]. by exists m.
Qed.

Lemma tick_sync apiVersion kind polled c w d ms :
  in_sync polled c w → NoDup (map r_name ms) →
  let '(evs, w') := tick apiVersion kind w d ms in
  in_sync (polled ++ map (pair d) ms) (fold_left client_apply evs c) w' ∧ snapshot w' = seen_of digest ms.
Proof.
  intros [Hf Hs] Hnd. simpl. split; [|done]. split; [done|]. intros n.
  rewrite fold_left_app, apply_deletes, apply_matches by done. cbn [snapshot first].
  specialize (Hs n). destruct (decide (n ∈ _)) as [Hg|Hg]; rewrite assoc_filter_gone in Hg.
  { destruct Hg as [_ ->]. done. }
  pose proof (seen_of_spec digest ms n Hnd) as Hseen. rewrite Hseen in Hg |- *.
  destruct (list_find _ ms) as [[i m]|] eqn:E; simpl in *.
  - apply list_find_Some in E as (Hi & Hn & _). apply list_elem_of_lookup_2 in Hi.
    destruct (decide (unchanged w m)) as [[_ Hu]|_].
    + rewrite Hn in Hu. rewrite Hu in Hs. destruct (c !! n) as [x|]; [|done].
      destruct Hs as (d' & m' & Hin & H). exists d', m'. split; [|done]. apply elem_of_app. by left.
    + exists d, m. split_and!; [|done..]. apply elem_of_app. right. by apply list_elem_of_fmap_2.
  - destruct (assoc n (snapshot w)) as [h|] eqn:Ew; [destruct Hg; by eauto|]. by destruct (c !! n).
Qed.
End watch_laws.

(** ** Properties *)

(** The list view and the single view agree: List, which asks the database
    once for the names of the kind and remembers what it learned about owners,
    returns exactly what Get returns for each resource the provider lists, in
    that order, leaving out those Get reports as not found; its caches are not
    observable. (The provider lists resources of the kind asked for and finds
    each by its name, and owners have no slash in kind and name.) *)
Theorem List_Get_parity {W PE} (registry : list (string * Provider (db * W) PE)) wired is_not_found float_v float_f
    who apiVersion kind st p rs out :
  For apiVersion registry = Ok p → p_List p kind st = Ok rs →
  (∀ r, r ∈ rs → r_apiVersion r = apiVersion ∧ r_kind r = kind ∧ p_Get p kind (r_name r) st = Ok (Some r)) →
  (∀ n o, OwnerRefOf kind n registry = Some o → plain_owner o) →
  ListResources registry wired float_v float_f who apiVersion kind st = Ok out →
  out = omap (λ r, match GetResource registry wired is_not_found float_v float_f who apiVersion kind (r_name r) st with
                   | Ok resp => Some (gr_Resource resp)
                   | Err _ => None
                   end) rs.
Proof.
  intros Hp Hl Hrs Hpl. unfold ListResources. rewrite bind_Ok. intros ([] & Hrole & H). revert H.
  unfold provider_for. rewrite Hp. simpl. rewrite Hl. simpl. clear Hl.
  assert (∀ c out, cache_ok registry kind st.1 c →
    list_loop registry wired float_v float_f
      (if wired then Some (ListNames apiVersion kind st.1) else None) (if wired then Some c else None) rs st.1 = Ok out →
    out = omap (λ r, match GetResource registry wired is_not_found float_v float_f who apiVersion kind (r_name r) st with
                   | Ok resp => Some (gr_Resource resp) | Err _ => None end) rs) as Hgen.
  2:{ unfold managedScope. destruct wired; apply (Hgen ∅); intros ? ? ? _; by rewrite lookup_empty. }
  clear out. induction rs as [|r rs IH]; intros c out Hc; simpl; [by intros [= <-]|].
  destruct (Hrs r) as (Ha & Hk & Hg); [by left|]. rewrite Ha, Hk.
  unfold GetResource at 1. unfold provider_for. rewrite Hrole, Hp. simpl. rewrite Hg. simpl.
  assert (resource_key r = (apiVersion, kind, r_name r)) as Hkey by by (unfold resource_key; rewrite Ha, Hk).
  destruct wired eqn:Hw.
  - pose proof (isManaged_batch registry true apiVersion kind (r_name r) st.1 c Hpl Hc) as Hb. simpl in Hb.
    destruct (isManaged _ _ _ _ _ (Some _) (Some c) _) as [[b c']|e] eqn:E; simpl; [|done].
    destruct Hb as [Hone (c'' & -> & Hc'')]. destruct Hone as [->|(-> & -> & Hbad)]; simpl.
    + destruct b; simpl.
      * unfold attachDrift, Load. rewrite Hkey. simpl.
        destruct (LoadWithTime _ st.1) as [[[desired t]|]|e]; simpl; [| |done].
        -- rewrite Ha, Hp. simpl. destruct (DriftSpecs p (r_kind r) (r_spec desired) (r_spec r)) as [ds os]. simpl.
           destruct (list_loop _ _ _ _ _ _ rs _) as [ws|] eqn:El; simpl; [|done]. intros [= <-].
           f_equal. by eapply IH; [intros x Hx; apply Hrs; by right|..].
        -- destruct (list_loop _ _ _ _ _ _ rs _) as [ws|] eqn:El; simpl; [|done]. intros [= <-].
           f_equal. by eapply IH; [intros x Hx; apply Hrs; by right|..].
      * intros El. by eapply IH; [intros x Hx; apply Hrs; by right|..].
    + unfold attachDrift. rewrite Hkey, Hbad. done.
  - simpl. destruct (list_loop _ _ _ _ _ _ rs _) as [ws|] eqn:El; simpl; [|done]. intros [= <-].
    f_equal. by eapply IH; [intros x Hx; apply Hrs; by right|..].
Qed.

Definition ex_vm_kind : string := "VirtualMachine".
Definition ex_guest (name : string) (cpu : Z) (power : string) : resource :=
  Resource "proxmox.openctl.io/v1" ex_vm_kind (ResourceMetadata name "" [] [] "" "")
    (Some [("cpu", VInt cpu)]) (Some [("power", VStr power)]).

Definition ex_guests : list resource := [ex_guest "web" 2 "running"; ex_guest "node-1" 4 "running"; ex_guest "stray" 1 "running"].

(** Knows three guests; "node-1" belongs to a cluster. *)
Definition ex_view_provider : Provider (db * unit) string :=
  MkProvider "proxmox" [ex_vm_kind] (λ r st, (Ok (Some r), st))
    (λ _ n _, Ok (snd <$> list_find (λ r, r_name r = n) ex_guests)) (λ _ _, Ok ex_guests) (λ _ _ st, (Ok tt, st))
    None None None None (Some (λ _ n, if decide (n = "node-1") then Some ("Cluster", "prod") else None)) None None None None.

Definition ex_view_db : db :=
  set_applied empty_db
    {[ ("proxmox.openctl.io/v1", ex_vm_kind, "web") := ManifestRow (JText (Some [("cpu", VInt 4)])) JEmpty "t1" "" "" "";
       ("proxmox.openctl.io/v1", "Cluster", "prod") := ManifestRow (JText None) JEmpty "t1" "" "" "" ]}.

Definition ex_text (f : spec_float) : string := "1.0".

Lemma List_Get_parity_witness :
  ∃ out, ListResources [("proxmox", ex_view_provider)] true ex_text ex_text None "proxmox.openctl.io/v1" ex_vm_kind
      (ex_view_db, tt) = Ok out ∧ map w_name out = ["web"; "node-1"] ∧ map (length ∘ w_drift) out = [1; 0] ∧
    out = omap (λ r, match GetResource [("proxmox", ex_view_provider)] true (λ _, true) ex_text ex_text None
                             "proxmox.openctl.io/v1" ex_vm_kind (r_name r) (ex_view_db, tt) with
                     | Ok resp => Some (gr_Resource resp) | Err _ => None end) ex_guests.
Proof.
  destruct (ListResources [("proxmox", ex_view_provider)] true ex_text ex_text None "proxmox.openctl.io/v1" ex_vm_kind
      (ex_view_db, tt)) as [out|e] eqn:E; [|vm_compute in E; discriminate E].
  exists out. split; [done|].
  assert (map w_name out = ["web"; "node-1"] ∧ map (length ∘ w_drift) out = [1; 0]) as [H1 H2].
  { vm_compute in E. injection E as <-. by split. }
  split; [exact H1|]. split; [exact H2|].
  apply (List_Get_parity [("proxmox", ex_view_provider)] true (λ _, true) ex_text ex_text None "proxmox.openctl.io/v1"
    ex_vm_kind (ex_view_db, tt) ex_view_provider ex_guests); [reflexivity|reflexivity| | |exact E].
  - apply Forall_forall. repeat constructor.
  - intros n o. simpl. destruct (decide (n = "node-1")); [|done]. intros [= <-]. split; simpl; split_and!; done.
Defined.

(** C10: Watch is a faithful diff, as long as no poll of the stream lists two resources of
    the same name (Watch keys everything by the name, which Proxmox does not keep unique):
    whatever polls fail in between (the stream goes on while fewer than five fail in a
    row), a client that adds, replaces and deletes as the events say holds, after a poll
    that succeeds, exactly the names that poll listed, and for each of them a form that
    the server listed at some poll of the stream and that has the hash the resource
    has now. *)
Theorem Watch_in_sync {W PE} (registry : list (string * Provider (db * W) PE)) wired is_not_found float_v float_f digest
    apiVersion kind name polls st ms evs w :
  let list_at := listForWatch registry wired is_not_found apiVersion kind name in
  Watch registry wired is_not_found float_v float_f digest apiVersion kind name (polls ++ [st]) = (evs, w, None) →
  list_at st = Ok ms →
  (∀ s l, s ∈ polls ++ [st] → list_at s = Ok l → NoDup (map r_name l)) →
  (∀ n, is_Some (client_of evs !! n) ↔ n ∈ map r_name ms) ∧
  ∀ m, m ∈ ms → ∃ s l m', s ∈ polls ++ [st] ∧ list_at s = Ok l ∧ m' ∈ l ∧ r_name m' = r_name m ∧
    Hash digest (Some m') = Hash digest (Some m) ∧
    client_of evs !! r_name m = Some (watch_wire registry wired float_v float_f s.1 m').
Proof.
  intros list_at Hw Hst Hnd.
  assert (∀ polled c w0 polls evs w,
    (∀ s l, s ∈ polls ++ [st] → list_at s = Ok l → NoDup (map r_name l)) →
    in_sync registry wired float_v float_f digest polled c w0 →
    watch_loop registry wired is_not_found float_v float_f digest apiVersion kind name w0 (polls ++ [st]) = (evs, w, None) →
    ∃ polled', in_sync registry wired float_v float_f digest (polled ++ polled') (fold_left client_apply evs c) w ∧
      snapshot w = seen_of digest ms ∧
      ∀ d m, (d, m) ∈ polled' → ∃ s l, s ∈ polls ++ [st] ∧ list_at s = Ok l ∧ m ∈ l ∧ d = s.1) as Hgen.
  { clear -Hst. intros polled c w0 polls. revert polled c w0. induction polls as [|s polls IH]; intros polled c w0 evs w Hnd Hs; simpl.
    - fold list_at. rewrite Hst. intros [= <- <-]. exists (map (pair st.1) ms).
      pose proof (tick_sync registry wired float_v float_f digest apiVersion kind polled c w0 st.1 ms Hs) as Ht.
      simpl in Ht. rewrite app_nil_r. destruct Ht as [H1 H2]; [by eapply Hnd; [left|]|].
      split; [exact H1|]. split; [exact H2|]. intros d m [-> Hm]%elem_of_pairs.
      exists st, ms. split_and!; [by left|done..].
    - fold list_at. destruct (list_at s) as [l|e] eqn:El.
      + destruct (watch_loop _ _ _ _ _ _ _ _ _ (MkWatcher (seen_of digest l) false 0) _) as [[evs' w''] e] eqn:E.
        pose proof (tick_sync registry wired float_v float_f digest apiVersion kind polled c w0 s.1 l Hs) as Ht.
        simpl in Ht. destruct Ht as [H1 _]; [by eapply Hnd; [left|]|]. intros [= <- <- ->].
        apply (IH _ _ _ _ _ (λ s' l' H, Hnd s' l' (list_elem_of_further _ _ _ H)) H1) in E as (polled' & Hs' & Hsn & Hp).
        exists (map (pair s.1) l ++ polled'). rewrite app_assoc, fold_left_app. split; [exact Hs'|]. split; [done|].
        intros d m [[-> Hm]%elem_of_pairs|Hin]%elem_of_app.
        * exists s, l. split_and!; [by left|done..].
        * destruct (Hp d m Hin) as (s' & l' & ? & ? & ? & ?). exists s', l'. split_and!; [by right|done..].
      + match goal with |- context [if ?b then _ else _] => destruct b end; [done|]. intros E.
        apply (IH polled c) in E as (polled' & Hs' & Hsn & Hp); [|by intros; eapply Hnd; [right|]|done].
        exists polled'. split; [done|]. split; [done|]. intros d m Hin.
        destruct (Hp d m Hin) as (s' & l' & ? & ? & ? & ?). exists s', l'. split_and!; [by right|done..]. }
  unfold Watch in Hw. case_decide; [done|]. destruct (For _ _); [|done].
  destruct (Hgen [] ∅ new_watcher polls evs w Hnd) as (polled' & [_ Hs] & Hsn & Hp); [|exact Hw|].
  { split; [done|]. intros n. by rewrite lookup_empty. }
  fold (client_of evs) in Hs. rewrite Hsn in Hs. simpl in Hs.
  assert (NoDup (map r_name ms)) as Hms.
  { apply (Hnd st); [|done]. apply elem_of_app. right. by left. }
  split.
  - intros n. specialize (Hs n). rewrite seen_of_spec in Hs by done.
    destruct (list_find _ ms) as [[i m]|] eqn:E; simpl in Hs.
    + apply list_find_Some in E as (Hi & Hn & _). destruct (client_of evs !! n); [|done]. split; [|by eexists].
      intros _. rewrite <-Hn. apply list_elem_of_fmap_2. by eapply list_elem_of_lookup_2.
    + apply list_find_None in E. rewrite Forall_forall in E. destruct (client_of evs !! n); [done|].
      split; [by intros []|]. intros (m & -> & Hm)%list_elem_of_fmap. by destruct (E m Hm).
  - intros m Hm. specialize (Hs (r_name m)). rewrite (seen_of_elem _ _ _ Hms Hm) in Hs.
    destruct (client_of evs !! r_name m) as [x|]; [|done]. destruct Hs as (d & m' & Hin & Hn & Hh & ->).
    destruct (Hp d m' Hin) as (s & l & ? & ? & ? & ->). by exists s, l, m'.
Qed.

(** A third guest appears, one disappears, one changes, and a poll fails. *)
Definition ex_watch_provider : Provider (db * nat) string :=
  MkProvider "proxmox" [ex_vm_kind] (λ r st, (Ok (Some r), st)) (λ _ _ _, Ok None)
    (λ _ st, match st.2 with
             | 0 => Ok [ex_guest "web" 2 "running"; ex_guest "old" 1 "running"]
             | 1 => Err "unreachable"
             | _ => Ok [ex_guest "new" 1 "running"; ex_guest "web" 4 "running"]
             end)
    (λ _ _ st, (Ok tt, st)) None None None None None None None (Some [ex_vm_kind]) None.

Definition ex_sum (v : value) : string :=
  match v with VList l => str_field "v" (default [] (as_map (l !! 3))) +:+
    (match default [] (as_map (l !! 4)) with [_; (_, VList [VMap [_; (_, VInt z)]])] => pretty z | _ => "?" end) | _ => "" end.

Lemma Watch_in_sync_witness :
  ∃ evs w, Watch [("proxmox", ex_watch_provider)] true (λ _, false) ex_text ex_text ex_sum "proxmox.openctl.io/v1" ex_vm_kind ""
      ([(empty_db, 0); (empty_db, 1)] ++ [(empty_db, 2)]) = (evs, w, None) ∧ length evs = 5 ∧
    (is_Some (client_of evs !! "new") ↔ "new" ∈ ["new"; "web"]) ∧ ¬ is_Some (client_of evs !! "old").
Proof.
  destruct (Watch [("proxmox", ex_watch_provider)] true (λ _, false) ex_text ex_text ex_sum "proxmox.openctl.io/v1" ex_vm_kind ""
      ([(empty_db, 0); (empty_db, 1)] ++ [(empty_db, 2)])) as [[evs w] e] eqn:E.
  assert (e = None) as -> by (apply (f_equal snd) in E; vm_compute in E; by subst).
  exists evs, w. split; [done|]. split.
  { pose proof (f_equal (λ x, length x.1.1) E) as H. cbn [fst] in H. rewrite <-H. vm_compute. reflexivity. }
  destruct (Watch_in_sync [("proxmox", ex_watch_provider)] true (λ _, false) ex_text ex_text ex_sum "proxmox.openctl.io/v1" ex_vm_kind
    "" [(empty_db, 0); (empty_db, 1)] (empty_db, 2) [ex_guest "new" 1 "running"; ex_guest "web" 4 "running"] evs w E) as [H _].
  - vm_compute. reflexivity.
  - intros s l Hs Hl.
    assert (∀ x, x ∈ [(empty_db, 0); (empty_db, 1); (empty_db, 2)] →
      match listForWatch [("proxmox", ex_watch_provider)] true (λ _, false) "proxmox.openctl.io/v1" ex_vm_kind "" x with
      | Ok l => bool_decide (NoDup (map r_name l)) = true | Err _ => True end) as Hall.
    { apply Forall_forall. repeat constructor. }
    specialize (Hall s Hs). rewrite Hl in Hall. by apply bool_decide_eq_true in Hall.
  - split; [apply H|]. rewrite H. intros Hin. apply (bool_decide_eq_true_2 _) in Hin. vm_compute in Hin. discriminate Hin.
Defined.

(** Watch is blind to everything outside the hash: once a poll has listed
    some resources, a later poll that finds the same resources with any other
    statuses (a machine that has stopped), and any other desired manifests in
    the database, sends nothing, so a client keeps showing the old status and
    the old drift; the comment in the code says that MODIFIED fires on drift
    transitions. *)
Theorem Watch_ignores_status_and_drift {W PE} (registry : list (string * Provider (db * W) PE)) wired float_v float_f digest
    apiVersion kind w d d' ms new_status :
  NoDup (map r_name ms) →
  let w' := (watch_tick registry wired float_v float_f digest apiVersion kind w d ms).2 in
  (watch_tick registry wired float_v float_f digest apiVersion kind w' d'
     (map (λ m, with_status m (new_status m)) ms)).1 = [].
Proof.
  intros Hnd. simpl.
  assert (seen_of digest (map (λ m, with_status m (new_status m)) ms) = seen_of digest ms) as ->.
  { unfold seen_of. generalize (@nil (string * string)). induction ms as [|m ms IH]; intros acc; simpl; [done|].
    inversion_clear Hnd. by rewrite <-IH. }
  rewrite filter_none, app_nil_r.
  - rewrite map_map. apply concat_nil_Forall, Forall_map, Forall_forall. intros m Hm. unfold watch_match. simpl.
    change (r_name (with_status m (new_status m))) with (r_name m). rewrite (seen_of_elem _ _ _ Hnd Hm).
    by rewrite decide_True.
  - apply Forall_forall. intros [n h] Hin Hn. simpl in Hn. apply assoc_None in Hn. destruct Hn. apply list_elem_of_fmap. by exists (n, h).
Qed.

Lemma Watch_ignores_status_and_drift_witness :
  let w' := (watch_tick [("proxmox", ex_view_provider)] true ex_text ex_text ex_sum "proxmox.openctl.io/v1" ex_vm_kind
               new_watcher (ex_view_db, tt).1 [ex_guest "web" 2 "running"]).2 in
  (watch_tick [("proxmox", ex_view_provider)] true ex_text ex_text ex_sum "proxmox.openctl.io/v1" ex_vm_kind w' empty_db
     [ex_guest "web" 2 "stopped"]).1 = [] ∧
  watch_wire [("proxmox", ex_view_provider)] true ex_text ex_text ex_view_db (ex_guest "web" 2 "running") ≠
  watch_wire [("proxmox", ex_view_provider)] true ex_text ex_text empty_db (ex_guest "web" 2 "stopped").
Proof.
  split; [|by vm_compute].
  apply (Watch_ignores_status_and_drift [("proxmox", ex_view_provider)] true ex_text ex_text ex_sum "proxmox.openctl.io/v1" ex_vm_kind
    new_watcher ex_view_db empty_db [ex_guest "web" 2 "running"] (λ _, Some [("power", VStr "stopped")])).
  by_decide.
Defined.
