(* ===== verification/ChildGraph.v ===== *)
(** The graph of a composite resource: GetChildrenGraph and its graphBuilder,
    src/internal/controller/server/resource.go. A breadth-first walk over the
    $refs of applied specs and over planned or reported children, capped in
    depth. *)
From S2P Require Import Prelude GoStrings GoValue Marker Refs Hash Db ManifestStore Registry Drift Auth Wire Views.
From Stdlib Require Import Ascii.

Record GraphNode : Type := MkNode {
  gn_Id : string; gn_APIVersion : string; gn_Kind : string; gn_Name : string;
  gn_Root : bool; gn_Managed : bool; gn_Status : string;
}.

Record GraphEdge : Type := MkEdge { ge_From : string; ge_To : string; ge_Relation : string; ge_Field : string }.

(** [graphBuilder]: nodes in the order they were added. *)
Record graphBuilder : Type := MkBuilder {
  g_nodes : list GraphNode;
  g_edges : list GraphEdge;
  g_seen : gset string;
  g_planned : gset string;
  g_expanded : gset string;
}.

(** [graphWork] *)
Record graphWork : Type := MkWork {
  gw_apiVersion : string; gw_kind : string; gw_name : string; gw_id : string; gw_depth : nat }.

Definition maxGraphDepth : nat := 8.
Definition kindVirtualMachine : string := "VirtualMachine".
Definition kindProxmoxNode : string := "ProxmoxNode".

Definition graphNodeID (kind name : string) : string := kind +:+ "/" +:+ name.

Definition node_ids (g : graphBuilder) : list string := map gn_Id (g_nodes g).

(** [addNode] *)
Definition addNode (apiVersion kind name : string) (g : graphBuilder) : graphBuilder :=
  let id := graphNodeID kind name in
  if decide (id ∈ node_ids g) then g
  else MkBuilder (g_nodes g ++ [MkNode id apiVersion kind name false false ""]) (g_edges g) (g_seen g) (g_planned g) (g_expanded g).

Definition edge_key (e : GraphEdge) : string :=
  ge_From e +:+ "|" +:+ ge_To e +:+ "|" +:+ ge_Relation e +:+ "|" +:+ ge_Field e.

(** [addEdge] *)
Definition addEdge (from to relation field : string) (g : graphBuilder) : graphBuilder :=
  let e := MkEdge from to relation field in
  if decide (from = to) then g
  else if decide (edge_key e ∈ g_seen g) then g
  else MkBuilder (g_nodes g) (g_edges g ++ [e]) ({[edge_key e]} ∪ g_seen g) (g_planned g) (g_expanded g).

Definition mark_planned (id : string) (g : graphBuilder) : graphBuilder :=
  MkBuilder (g_nodes g) (g_edges g) (g_seen g) ({[id]} ∪ g_planned g) (g_expanded g).
Definition mark_expanded (id : string) (g : graphBuilder) : graphBuilder :=
  MkBuilder (g_nodes g) (g_edges g) (g_seen g) (g_planned g) ({[id]} ∪ g_expanded g).

(** [addNode] of the far end, then [addEdge]. *)
Definition link (from relation field apiVersion kind name : string) (g : graphBuilder) : graphBuilder :=
  addEdge from (graphNodeID kind name) relation field (addNode apiVersion kind name g).

(** Link every ref of a spec to [from] and queue its target. *)
Fixpoint link_refs (from : string) (depth : nat) (rs : list Ref) (g : graphBuilder) : graphBuilder * list graphWork :=
  match rs with
  | [] => (g, [])
  | r :: rs' =>
      let g := link from "ref" (Field r) (APIVersion r) (Kind r) (Name r) g in
      let '(g, q) := link_refs from depth rs' g in
      (g, MkWork (APIVersion r) (Kind r) (Name r) (graphNodeID (Kind r) (Name r)) depth :: q)
  end.

(** The planned children: owned, linked by their own refs, and queued. *)
Fixpoint link_planned (from : string) (depth : nat) (children : list resource) (g : graphBuilder) : graphBuilder * list graphWork :=
  match children with
  | [] => (g, [])
  | c :: cs =>
      let id := graphNodeID (r_kind c) (r_name c) in
      let g := addEdge from id "owns" "" (mark_planned id (addNode (r_apiVersion c) (r_kind c) (r_name c) g)) in
      let '(g, q1) := link_refs id depth (Collect (r_spec c)) g in
      let '(g, q2) := link_planned from depth cs g in
      (g, q1 ++ MkWork (r_apiVersion c) (r_kind c) (r_name c) id depth :: q2)
  end.

(** The children a provider reports. *)
Fixpoint link_children (from : string) (depth : nat) (children : list ResourceRef) (g : graphBuilder) : graphBuilder * list graphWork :=
  match children with
  | [] => (g, [])
  | c :: cs =>
      let g := link from "owns" "" (rr_APIVersion c) (rr_Kind c) (rr_Name c) g in
      let '(g, q) := link_children from depth cs g in
      (g, MkWork (rr_APIVersion c) (rr_Kind c) (rr_Name c) (graphNodeID (rr_Kind c) (rr_Name c)) depth :: q)
  end.

Section childgraph.
Context {W PE : Type}.
Abbreviation St := (db * W)%type.
Context (registry : list (string * Provider St PE)) (wired : bool) (is_not_found : PE → bool) (st : St).

(** The applied spec of a node; anything else degrades to nil. *)
Definition applied_spec (k : rkey) : option gomap :=
  if wired then match Load k st.1 with Ok (Some r) => r_spec r | _ => None end else None.

(** The placement edge of a virtual machine; its host is not queued. *)
Definition link_host (w : graphWork) (spec : option gomap) (g : graphBuilder) : graphBuilder :=
  if decide (gw_kind w = kindVirtualMachine) then
    match as_str (assoc "node" (fields spec)) with
    | Some host => if decide (host = "") then g else link (gw_id w) "ref" "node" (gw_apiVersion w) kindProxmoxNode host g
    | None => g
    end
  else g.

Definition parent_of (w : graphWork) (spec : option gomap) : resource :=
  Resource (gw_apiVersion w) (gw_kind w) (ResourceMetadata (gw_name w) "" [] [] "" "") spec None.

(** [expandNode]: the grown builder and what is added to the queue. *)
Definition expandNode (w : graphWork) (g : graphBuilder) : graphBuilder * list graphWork :=
  let spec := applied_spec (gw_apiVersion w, gw_kind w, gw_name w) in
  let depth := S (gw_depth w) in
  let '(g, q1) := link_refs (gw_id w) depth (Collect spec) g in
  let g := link_host w spec g in
  match For (gw_apiVersion w) registry with
  | Err _ => (g, q1)
  | Ok p =>
      let plan := match p_Plan p with
                  | Some f => match f (parent_of w spec) st with Ok pl => pl | Err _ => None end
                  | None => None
                  end in
      let '(g, q2) := match plan with
                      | Some children => link_planned (gw_id w) depth children g
                      | None => link_children (gw_id w) depth (ChildrenOf (gw_kind w) (gw_name w) registry) g
                      end in
      (g, q1 ++ q2)
  end.

(** The loop of [GetChildrenGraph]; [None] when the fuel runs out. *)
Fixpoint walk_graph (fuel : nat) (queue : list graphWork) (g : graphBuilder) : option graphBuilder :=
  match fuel with
  | 0 => None
  | S fuel' =>
      match queue with
      | [] => Some g
      | w :: queue =>
          if decide (gw_id w ∈ g_expanded g ∨ maxGraphDepth <= gw_depth w) then walk_graph fuel' queue g
          else
            let '(g, new) := expandNode w (mark_expanded (gw_id w) g) in
            walk_graph fuel' (queue ++ new) g
      end
  end.

(** The status pill of a managed node. *)
Definition live_status (planned : bool) (n : GraphNode) : string :=
  match For (gn_APIVersion n) registry with
  | Err _ => "applied"
  | Ok p =>
      match p_Get p (gn_Kind n) (gn_Name n) st with
      | Ok _ => "applied"
      | Err e => if is_not_found e then (if planned then "pending" else "missing") else "applied"
      end
  end.

Definition has_manifest (n : GraphNode) : bool :=
  wired && match Load (gn_APIVersion n, gn_Kind n, gn_Name n) st.1 with Ok (Some _) => true | _ => false end.

(** [resolveStatus] on one node. *)
Definition resolve_node (g : graphBuilder) (n : GraphNode) : GraphNode :=
  let put managed status := MkNode (gn_Id n) (gn_APIVersion n) (gn_Kind n) (gn_Name n) (gn_Root n) managed status in
  if gn_Root n then put (gn_Managed n) (if decide (gn_Status n = "") then "applied" else gn_Status n)
  else
    let planned := bool_decide (gn_Id n ∈ g_planned g) in
    if planned || has_manifest n then put true (live_status planned n) else put false "observed".

(** [newGraphBuilder] with the root. *)
Definition rooted (apiVersion kind name : string) : graphBuilder :=
  MkBuilder [MkNode (graphNodeID kind name) apiVersion kind name true true ""] [] ∅ ∅ ∅.

Definition root_work (apiVersion kind name : string) : graphWork :=
  MkWork apiVersion kind name (graphNodeID kind name) 0.

Abbreviation rpc A := (result (code * view_reason (PE := PE)) A).

(** [GetChildrenGraph]; the outer [None] is fuel. *)
Definition GetChildrenGraph (fuel : nat) (who : option Principal) (apiVersion kind name : string) :
    option (rpc (list GraphNode * list GraphEdge)) :=
  match
    (_ ← require_role who RoleViewer;
     if decide (apiVersion = "" ∨ kind = "" ∨ name = "") then Err (InvalidArgument, ResourceRequired)
     else provider_for registry apiVersion)
  with
  | Err e => Some (Err e)
  | Ok _ =>
      g ← walk_graph fuel [root_work apiVersion kind name] (rooted apiVersion kind name);
      Some (Ok (map (resolve_node g) (g_nodes g), g_edges g))
  end.
End childgraph.

(** ** Laws *)

Definition bar : ascii := Ascii false false true true true true true false.

Lemma edge_key_inj e e' :
  no_byte bar (ge_To e) → no_byte bar (ge_To e') → no_byte bar (ge_From e) → no_byte bar (ge_From e') →
  edge_key e = edge_key e' → ge_From e = ge_From e' ∧ ge_To e = ge_To e'.
Proof.
  unfold edge_key. intros H1 H2 H3 H4 H.
  change (?a +:+ "|" +:+ ?b) with (a +:+ String bar b) in H.
  assert (∀ a b a' b', no_byte bar a → no_byte bar a' → a +:+ String bar b = a' +:+ String bar b' → a = a' ∧ b = b') as Hcut.
  { clear. induction a as [|x a IH]; intros b [|x' a'] b'; rewrite ?str_app_cons; try change ("" +:+ ?s) with s.
    - by intros _ _ [= ->].
    - intros _ [Hx _] [= <- _]. done.
    - intros [Hx _] _ [= -> _]. done.
    - intros [_ Ha] [_ Ha'] [= -> H]. by destruct (IH _ _ _ Ha Ha' H) as [-> ->]. }
  apply Hcut in H as [-> H]; [|done..]. change ("|" +:+ ?b) with (String bar b) in H. by apply Hcut in H as [-> _].
Qed.

Definition edge_rel (g : graphBuilder) (a b : string) : Prop := ∃ e, e ∈ g_edges g ∧ ge_From e = a ∧ ge_To e = b.

(** What holds of the builder after every statement of the walk; [root] is the id
    of the queried resource. *)
Record graph_ok (root : string) (g : graphBuilder) : Prop := {
  ok_ids : NoDup (node_ids g);
  ok_named : ∀ n, n ∈ g_nodes g → gn_Id n = graphNodeID (gn_Kind n) (gn_Name n);
  ok_edges : ∀ e, e ∈ g_edges g → ge_From e ≠ ge_To e ∧ ge_From e ∈ node_ids g ∧ ge_To e ∈ node_ids g;
  ok_distinct : NoDup (g_edges g);
  ok_seen : ∀ s, s ∈ g_seen g ↔ ∃ e, e ∈ g_edges g ∧ edge_key e = s;
  ok_root : ∃ n tl, g_nodes g = n :: tl ∧ gn_Id n = root ∧ gn_Root n = true ∧ (gn_Managed n = true ∧ gn_Status n = "") ∧
    Forall (λ n, gn_Root n = false) tl;
  ok_reach : (∀ i, i ∈ node_ids g → no_byte bar i) → ∀ i, i ∈ node_ids g → rtc (edge_rel g) root i;
}.

(** [g'] extends [g]. *)
Definition extends (root : string) (g g' : graphBuilder) : Prop :=
  graph_ok root g' ∧ ∀ i, i ∈ node_ids g → i ∈ node_ids g'.

Lemma extends_refl root g : graph_ok root g → extends root g g.
Proof. by split. Qed.

Lemma extends_trans root g1 g2 g3 : extends root g1 g2 → extends root g2 g3 → extends root g1 g3.
Proof. intros [_ H1] [H2 H3]. split; auto. Qed.

Lemma node_ids_addNode av k n g i :
  i ∈ node_ids (addNode av k n g) ↔ i ∈ node_ids g ∨ i = graphNodeID k n.
Proof.
  unfold addNode. case_decide as Hin; simpl.
  - split; [by left|]. by intros [?| ->].
  - unfold node_ids. simpl. rewrite map_app, elem_of_app. simpl. by rewrite list_elem_of_singleton.
Qed.

Lemma addNode_nodes root av k n g :
  graph_ok root g →
  let g1 := addNode av k n g in
  NoDup (node_ids g1) ∧ (∀ m, m ∈ g_nodes g1 → gn_Id m = graphNodeID (gn_Kind m) (gn_Name m)) ∧
  ∃ n' tl, g_nodes g1 = n' :: tl ∧ gn_Id n' = root ∧ gn_Root n' = true ∧ (gn_Managed n' = true ∧ gn_Status n' = "") ∧
    Forall (λ n, gn_Root n = false) tl.
Proof.
  intros Hok g1. unfold g1, addNode. case_decide as Hin; [split_and!; apply Hok|]. split_and!; simpl.
  - unfold node_ids. simpl. rewrite map_app. simpl.
    apply NoDup_app. split; [apply Hok|]. split; [|apply NoDup_singleton]. by intros x Hx ->%list_elem_of_singleton.
  - intros m [Hm|Hm%list_elem_of_singleton]%elem_of_app; [by apply Hok|by subst].
  - destruct (ok_root _ _ Hok) as (n' & tl & -> & H1 & H2 & H3 & H4).
    eexists _, _. split; [by rewrite <-app_comm_cons|]. do 2 (split; [done|]). split; [done|]. apply Forall_app. split; [done|]. by constructor.
Qed.

(** The one step that grows the graph. *)
Lemma link_ok root from relation field av k n g :
  graph_ok root g → from ∈ node_ids g →
  extends root g (link from relation field av k n g) ∧ graphNodeID k n ∈ node_ids (link from relation field av k n g).
Proof.
  intros Hok Hfrom. set (to := graphNodeID k n). set (g1 := addNode av k n g).
  assert (∀ i, i ∈ node_ids g1 ↔ i ∈ node_ids g ∨ i = to) as Hids by (intros i; apply node_ids_addNode).
  assert (node_ids (link from relation field av k n g) = node_ids g1) as Hsame.
  { unfold link, addEdge. fold to g1. by repeat case_decide. }
  assert (g_edges g1 = g_edges g ∧ g_seen g1 = g_seen g) as [He1 Hs1] by (unfold g1, addNode; by case_decide).
  split; [split|].
  3:{ rewrite Hsame. apply Hids. by right. }
  2:{ intros i Hi. rewrite Hsame. apply Hids. by left. }
  destruct (addNode_nodes root av k n g Hok) as (Hnd & Hnm & Hroot). fold g1 in Hnd, Hnm, Hroot.
  unfold link, addEdge. fold to g1. set (e := MkEdge from to relation field).
  assert (∀ i, i ∈ node_ids g → (∀ j, j ∈ node_ids g → no_byte bar j) → rtc (edge_rel g) root i) as Hreach by (intros; by apply Hok).
  destruct (decide (from = to)) as [Heq|Hne]; [|destruct (decide (edge_key e ∈ g_seen g1)) as [Hin|Hnew]].
  - split; try done; rewrite ?He1, ?Hs1; try apply Hok.
    + intros x Hx. destruct (ok_edges _ _ Hok x Hx) as (? & ? & ?). rewrite !Hids. tauto.
    + intros Hp i [Hi| ->]%Hids; apply (rtc_subrel (edge_rel g)); try (intros a b (x & ? & ?); exists x; by rewrite He1);
        apply Hreach; try done; [|by rewrite <-Heq|]; intros j Hj; apply Hp, Hids; by left.
  - split; try done; rewrite ?He1, ?Hs1; try apply Hok.
    + intros x Hx. destruct (ok_edges _ _ Hok x Hx) as (? & ? & ?). rewrite !Hids. tauto.
    + intros Hp i Hi. apply (rtc_subrel (edge_rel g)); [intros a b (x & ? & ?); exists x; by rewrite He1|].
      assert (∀ j, j ∈ node_ids g → no_byte bar j) as Hp' by (intros j Hj; apply Hp, Hids; by left).
      apply Hids in Hi as [Hi| ->]; [by apply Hreach|]. rewrite Hs1 in Hin.
      apply (ok_seen _ _ Hok) in Hin as (x & Hx & Hk). destruct (ok_edges _ _ Hok x Hx) as (_ & Hxf & Hxt).
      destruct (edge_key_inj x e) as [_ Hto]; [by apply Hp'|apply Hp, Hids; by right|by apply Hp'|by apply Hp'|done|].
      simpl in Hto. rewrite <-Hto. by apply Hreach.
  - split; simpl; rewrite ?He1, ?Hs1; try done.
    + intros x [Hx|Hx%list_elem_of_singleton]%elem_of_app.
      * destruct (ok_edges _ _ Hok x Hx) as (? & ? & ?). change (node_ids _) with (node_ids g1). rewrite !Hids. tauto.
      * subst x. simpl. change (node_ids _) with (node_ids g1). rewrite !Hids. tauto.
    + apply NoDup_app. split; [apply Hok|]. split; [|apply NoDup_singleton]. intros x Hx ->%list_elem_of_singleton.
      apply Hnew. rewrite Hs1. apply (ok_seen _ _ Hok). by exists e.
    + intros s. rewrite elem_of_union, elem_of_singleton. setoid_rewrite elem_of_app. rewrite (ok_seen _ _ Hok). split.
      * intros [->|(x & ? & ?)]; [exists e|exists x]; (split; [|done]); [right; by apply list_elem_of_singleton|by left].
      * intros (x & [Hx|Hx%list_elem_of_singleton] & <-); [right; by exists x|left; by subst].
    + intros Hp i Hi. assert (∀ j, j ∈ node_ids g → no_byte bar j) as Hp' by (intros j Hj; apply Hp, Hids; by left).
      assert (∀ a, rtc (edge_rel g) root a → rtc (edge_rel (MkBuilder (g_nodes g1) (g_edges g ++ [e]) ({[edge_key e]} ∪ g_seen g) (g_planned g1) (g_expanded g1))) root a) as Hsub.
      { intros a. apply rtc_subrel. intros x y (x' & ? & ?). exists x'. simpl. rewrite elem_of_app. tauto. }
      apply Hids in Hi as [Hi| ->]; [apply Hsub; by apply Hreach|].
      eapply rtc_r; [apply Hsub, (Hreach from); done|]. exists e. simpl. split; [|done]. apply elem_of_app. right. by apply list_elem_of_singleton.
Qed.

Lemma mark_ok root g p x :
  graph_ok root g → extends root g (MkBuilder (g_nodes g) (g_edges g) (g_seen g) p x).
Proof. intros [H1 H2 H3 H4 H5 H6 H7]. split; [|done]. by split. Qed.

Lemma link_refs_ok root from depth rs g :
  graph_ok root g → from ∈ node_ids g →
  let '(g', q) := link_refs from depth rs g in
  extends root g g' ∧ ∀ w, w ∈ q → gw_id w ∈ node_ids g' ∧ gw_depth w = depth.
Proof.
  revert g. induction rs as [|r rs IH]; intros g Hok Hf; simpl; [by split; [apply extends_refl|intros ? ?%elem_of_nil]|].
  destruct (link_ok root from "ref" (Field r) (APIVersion r) (Kind r) (Name r) g Hok Hf) as [He Hto].
  specialize (IH _ (proj1 He) (proj2 He _ Hf)). destruct (link_refs _ _ _ _) as [g' q]. destruct IH as [He' Hq].
  split; [by eapply extends_trans|]. intros w [->|Hw]%elem_of_cons; [|by apply Hq]. split; [|done]. by apply He'.
Qed.

Lemma link_children_ok root from depth cs g :
  graph_ok root g → from ∈ node_ids g →
  let '(g', q) := link_children from depth cs g in
  extends root g g' ∧ ∀ w, w ∈ q → gw_id w ∈ node_ids g' ∧ gw_depth w = depth.
Proof.
  revert g. induction cs as [|c cs IH]; intros g Hok Hf; simpl; [by split; [apply extends_refl|intros ? ?%elem_of_nil]|].
  destruct (link_ok root from "owns" "" (rr_APIVersion c) (rr_Kind c) (rr_Name c) g Hok Hf) as [He Hto].
  specialize (IH _ (proj1 He) (proj2 He _ Hf)). destruct (link_children _ _ _ _) as [g' q]. destruct IH as [He' Hq].
  split; [by eapply extends_trans|]. intros w [->|Hw]%elem_of_cons; [|by apply Hq]. split; [|done]. by apply He'.
Qed.

Lemma addEdge_planned from to relation field id g :
  addEdge from to relation field (mark_planned id g) = mark_planned id (addEdge from to relation field g).
Proof. unfold addEdge. simpl. by repeat case_decide. Qed.

Lemma link_planned_ok root from depth cs g :
  graph_ok root g → from ∈ node_ids g →
  let '(g', q) := link_planned from depth cs g in
  extends root g g' ∧ ∀ w, w ∈ q → gw_id w ∈ node_ids g' ∧ gw_depth w = depth.
Proof.
  revert g. induction cs as [|c cs IH]; intros g Hok Hf; simpl; [by split; [apply extends_refl|intros ? ?%elem_of_nil]|].
  set (id := graphNodeID (r_kind c) (r_name c)).
  destruct (link_ok root from "owns" "" (r_apiVersion c) (r_kind c) (r_name c) g Hok Hf) as [He Hto].
  rewrite addEdge_planned. fold id in Hto. unfold link in He, Hto. fold id in He, Hto.
  set (g1 := addEdge from id "owns" "" _) in *.
  destruct (mark_ok root g1 ({[id]} ∪ g_planned g1) (g_expanded g1) (proj1 He)) as [Hm Hmi].
  fold (mark_planned id g1) in Hm, Hmi.
  pose proof (link_refs_ok root id depth (Collect (r_spec c)) (mark_planned id g1) Hm (Hmi _ Hto)) as Hr.
  destruct (link_refs _ _ _ (mark_planned id g1)) as [g2 q1]. destruct Hr as [He2 Hq1].
  specialize (IH g2 (proj1 He2) (proj2 He2 _ (Hmi _ (proj2 He _ Hf)))). destruct (link_planned _ _ _ g2) as [g3 q2].
  destruct IH as [He3 Hq2]. split.
  - eapply extends_trans; [exact He|]. eapply extends_trans; [split; [exact Hm|exact Hmi]|]. by eapply extends_trans.
  - intros w [Hw|[->|Hw]%elem_of_cons]%elem_of_app.
    + destruct (Hq1 w Hw). split; [|done]. by apply He3.
    + split; [|done]. apply He3, He2, Hmi, Hto.
    + by apply Hq2.
Qed.

Section walk_laws.
Context {W PE : Type} (registry : list (string * Provider (db * W) PE)) (wired : bool) (st : db * W).

Lemma link_host_ok root w spec g :
  graph_ok root g → gw_id w ∈ node_ids g → extends root g (link_host w spec g).
Proof.
  intros Hok Hw. unfold link_host. case_decide; [|by apply extends_refl].
  destruct (as_str _) as [host|]; [|by apply extends_refl]. case_decide; [by apply extends_refl|]. by apply link_ok.
Qed.

Lemma expandNode_ok root w g :
  graph_ok root g → gw_id w ∈ node_ids g →
  let '(g', q) := expandNode registry wired st w g in
  extends root g g' ∧ ∀ x, x ∈ q → gw_id x ∈ node_ids g' ∧ gw_depth x = S (gw_depth w).
Proof.
  intros Hok Hw. unfold expandNode. set (spec := applied_spec _ _ _).
  pose proof (link_refs_ok root (gw_id w) (S (gw_depth w)) (Collect spec) g Hok Hw) as Hr.
  destruct (link_refs _ _ _ g) as [g1 q1]. destruct Hr as [He1 Hq1].
  pose proof (link_host_ok root w spec g1 (proj1 He1) (proj2 He1 _ Hw)) as He2. set (g2 := link_host w spec g1) in *.
  assert (extends root g g2) as He by by eapply extends_trans.
  assert (∀ x, x ∈ q1 → gw_id x ∈ node_ids g2 ∧ gw_depth x = S (gw_depth w)) as Hq1'.
  { intros x Hx. destruct (Hq1 x Hx). split; [|done]. by apply He2. }
  destruct (For _ _) as [p|]; [|by split].
  set (plan := match p_Plan p with Some _ => _ | None => _ end).
  assert (∀ g3 q2, extends root g2 g3 → (∀ x, x ∈ q2 → gw_id x ∈ node_ids g3 ∧ gw_depth x = S (gw_depth w)) →
    extends root g g3 ∧ ∀ x, x ∈ q1 ++ q2 → gw_id x ∈ node_ids g3 ∧ gw_depth x = S (gw_depth w)) as Hfin.
  { intros g3 q2 He3 Hq2. split; [by eapply extends_trans|]. intros x [Hx|Hx]%elem_of_app; [|by apply Hq2].
    destruct (Hq1' x Hx). split; [|done]. by apply He3. }
  destruct plan as [cs|].
  - pose proof (link_planned_ok root (gw_id w) (S (gw_depth w)) cs g2 (proj1 He2) (proj2 He _ Hw)) as Hp.
    destruct (link_planned _ _ _ g2) as [g3 q2]. destruct Hp. by apply Hfin.
  - pose proof (link_children_ok root (gw_id w) (S (gw_depth w)) (ChildrenOf (gw_kind w) (gw_name w) registry) g2 (proj1 He2) (proj2 He _ Hw)) as Hp.
    destruct (link_children _ _ _ g2) as [g3 q2]. destruct Hp. by apply Hfin.
Qed.

Lemma walk_graph_ok root fuel queue g g' :
  graph_ok root g → (∀ w, w ∈ queue → gw_id w ∈ node_ids g) →
  walk_graph registry wired st fuel queue g = Some g' → graph_ok root g'.
Proof.
  revert queue g. induction fuel as [|fuel IH]; intros queue g Hok Hq; simpl; [done|].
  destruct queue as [|w queue]; [by intros [= <-]|]. case_decide.
  - apply IH; [done|]. intros x Hx. apply Hq. by right.
  - destruct (mark_ok root g (g_planned g) ({[gw_id w]} ∪ g_expanded g) Hok) as [Hm Hmi].
    fold (mark_expanded (gw_id w) g) in Hm, Hmi.
    pose proof (expandNode_ok root w (mark_expanded (gw_id w) g) Hm (Hmi _ (Hq w (list_elem_of_here _ _)))) as He.
    destruct (expandNode _ _ _ w _) as [g1 new]. destruct He as [[Hok1 Hi1] Hn]. apply IH; [done|].
    intros x [Hx|Hx]%elem_of_app; [|by apply Hn]. apply Hi1, Hmi, Hq. by right.
Qed.

(** A walk whose queue holds work of one depth, then of the next, ends. *)
Lemma walk_graph_ends k d q1 q2 g root :
  maxGraphDepth - d <= k → graph_ok root g → (∀ w, w ∈ q1 ++ q2 → gw_id w ∈ node_ids g) →
  (∀ w, w ∈ q1 → gw_depth w = d) → (∀ w, w ∈ q2 → gw_depth w = S d) →
  ∃ fuel g', walk_graph registry wired st fuel (q1 ++ q2) g = Some g'.
Proof.
  revert d q1 q2 g. induction k as [|k IHk]; intros d q1 q2 g Hk Hok Hin H1 H2.
  - assert (∀ q, (∀ w, w ∈ q → maxGraphDepth <= gw_depth w) → walk_graph registry wired st (S (length q)) q g = Some g) as Hskip.
    { induction q as [|w q IH]; intros Hq; simpl; [done|]. rewrite decide_True by (right; apply Hq; by left).
      apply IH. intros x Hx. apply Hq. by right. }
    exists (S (length (q1 ++ q2))), g. apply Hskip. intros w [Hw|Hw]%elem_of_app; [rewrite (H1 w Hw)|rewrite (H2 w Hw)]; lia.
  - revert q2 g Hok Hin H2. induction q1 as [|w q1 IHq]; intros q2 g Hok Hin H2.
    + destruct (IHk (S d) q2 [] g) as (fuel & g' & H); [lia|done|by rewrite app_nil_r|done|by intros ? ?%elem_of_nil|].
      rewrite app_nil_r in H. by exists fuel, g'.
    + assert (∀ x, x ∈ q1 → gw_depth x = d) as H1' by (intros x Hx; apply H1; by right). specialize (IHq H1').
      destruct (decide (gw_id w ∈ g_expanded g ∨ maxGraphDepth <= gw_depth w)) as [Hs|Hs].
      * destruct (IHq q2 g Hok) as (fuel & g' & H); [intros x Hx; apply Hin; by right|done|].
        exists (S fuel), g'. simpl. by rewrite decide_True.
      * destruct (mark_ok root g (g_planned g) ({[gw_id w]} ∪ g_expanded g) Hok) as [Hm Hmi].
        fold (mark_expanded (gw_id w) g) in Hm, Hmi.
        pose proof (expandNode_ok root w (mark_expanded (gw_id w) g) Hm (Hmi _ (Hin w (list_elem_of_here _ _)))) as He.
        destruct (expandNode _ _ _ w _) as [g1 new] eqn:Ee. destruct He as [[Hok1 Hi1] Hn].
        destruct (IHq (q2 ++ new) g1 Hok1) as (fuel & g' & H).
        -- intros x. rewrite app_assoc. intros [Hx|Hx]%elem_of_app; [|by apply Hn]. apply Hi1, Hmi, Hin. by right.
        -- intros x [Hx|Hx]%elem_of_app; [by apply H2|]. rewrite (proj2 (Hn x Hx)). f_equal. apply H1. by left.
        -- exists (S fuel), g'. simpl. rewrite decide_False by done. rewrite Ee. by rewrite <-app_assoc.
Qed.

Lemma walk_graph_more fuel n queue g g' :
  walk_graph registry wired st fuel queue g = Some g' → walk_graph registry wired st (fuel + n) queue g = Some g'.
Proof.
  revert queue g. induction fuel as [|fuel IH]; intros queue g; simpl; [done|]. destruct queue as [|w queue]; [done|].
  case_decide; [apply IH|]. destruct (expandNode _ _ _ w _). apply IH.
Qed.

Lemma rooted_ok apiVersion kind name : graph_ok (graphNodeID kind name) (rooted apiVersion kind name).
Proof.
  split; simpl.
  - apply NoDup_singleton.
  - by intros n ->%list_elem_of_singleton.
  - by intros e ?%elem_of_nil.
  - constructor.
  - intros s. split; [by intros ?%elem_of_empty|]. by intros (e & ?%elem_of_nil & _).
  - eexists _, []. split; [done|]. split_and!; [done..|constructor].
  - intros _ i ->%list_elem_of_singleton. apply rtc_refl.
Qed.
End walk_laws.

(** ** Properties *)

(** The walk ends: whatever the providers plan or report and however the
    references of the stored manifests run in circles, GetChildrenGraph answers,
    and the answer does not depend on how long one was prepared to wait. *)
Theorem GetChildrenGraph_terminates {W PE} (registry : list (string * Provider (db * W) PE)) wired is_not_found st
    who apiVersion kind name :
  ∃ fuel res, ∀ n, GetChildrenGraph registry wired is_not_found st (fuel + n) who apiVersion kind name = Some res.
Proof.
  unfold GetChildrenGraph.
  destruct (_ ← require_role who RoleViewer; _) as [p|e]; [|by exists 0, (Err e)].
  destruct (walk_graph_ends registry wired st 8 0 [root_work apiVersion kind name] [] (rooted apiVersion kind name)
    (graphNodeID kind name)) as (fuel & g & H).
  - unfold maxGraphDepth. lia.
  - apply rooted_ok.
  - intros w ->%list_elem_of_singleton. simpl. by apply list_elem_of_singleton.
  - by intros w ->%list_elem_of_singleton.
  - by intros w ?%elem_of_nil.
  - exists fuel, (Ok (map (resolve_node registry wired is_not_found st g) (g_nodes g), g_edges g)). intros n.
    rewrite (walk_graph_more _ _ _ _ _ _ _ _ H). done.
Qed.

(** What the answer is: a rooted graph. The nodes have distinct ids, each its
    kind and name, the queried resource first and the only root, managed; every
    edge joins two different nodes of the answer and no edge is listed twice;
    every node is reached from the root along the edges (ids hold no bar, the
    separator of the duplicate check); and of every other node the pill says
    observed exactly when the node is not managed. *)
Theorem GetChildrenGraph_rooted {W PE} (registry : list (string * Provider (db * W) PE)) wired is_not_found st
    fuel who apiVersion kind name nodes edges :
  GetChildrenGraph registry wired is_not_found st fuel who apiVersion kind name = Some (Ok (nodes, edges)) →
  let ids := map gn_Id nodes in
  NoDup ids ∧ (∀ n, n ∈ nodes → gn_Id n = graphNodeID (gn_Kind n) (gn_Name n)) ∧
  (∃ root tl, nodes = root :: tl ∧ gn_Id root = graphNodeID kind name ∧ gn_Root root = true ∧ gn_Managed root = true ∧
     gn_Status root = "applied" ∧
     Forall (λ n, gn_Root n = false ∧ (gn_Managed n = false ↔ gn_Status n = "observed")) tl) ∧
  (∀ e, e ∈ edges → ge_From e ≠ ge_To e ∧ ge_From e ∈ ids ∧ ge_To e ∈ ids) ∧ NoDup edges ∧
  ((∀ i, i ∈ ids → no_byte bar i) →
   ∀ i, i ∈ ids → rtc (λ a b, ∃ e, e ∈ edges ∧ ge_From e = a ∧ ge_To e = b) (graphNodeID kind name) i).
Proof.
  unfold GetChildrenGraph. destruct (_ ← require_role who RoleViewer; _) as [p|e]; [|done].
  destruct (walk_graph _ _ _ _ _ _) as [g|] eqn:E; [|done]. simpl. intros [= <- <-].
  apply (walk_graph_ok registry wired st (graphNodeID kind name)) in E; [|apply rooted_ok|].
  2:{ intros w ->%list_elem_of_singleton. simpl. by apply list_elem_of_singleton. }
  set (rs := resolve_node registry wired is_not_found st g).
  assert (∀ n, gn_Id (rs n) = gn_Id n ∧ gn_Kind (rs n) = gn_Kind n ∧ gn_Name (rs n) = gn_Name n ∧ gn_Root (rs n) = gn_Root n) as Hrs.
  { intros n. unfold rs, resolve_node. destruct (gn_Root n) eqn:Er; [done|]. by destruct (_ || _). }
  assert (map gn_Id (map rs (g_nodes g)) = node_ids g) as Hids.
  { rewrite map_map. apply map_ext. intros n. apply Hrs. }
  rewrite Hids. split_and!; try apply E.
  - intros n' (n & -> & Hn)%list_elem_of_fmap. destruct (Hrs n) as (-> & -> & -> & _). by apply E.
  - destruct (ok_root _ _ E) as (n & tl & Hg & H1 & H2 & [H3 H3'] & H4). rewrite Hg. simpl. eexists _, _. split; [done|].
    destruct (Hrs n) as (-> & _ & _ & ->). split_and!; try done.
    + unfold rs, resolve_node. by rewrite H2.
    + unfold rs, resolve_node. by rewrite H2, H3'.
    + apply Forall_map. eapply Forall_impl; [exact H4|]. intros x Hx. simpl. destruct (Hrs x) as (_ & _ & _ & ->). split; [done|].
      unfold rs, resolve_node. rewrite Hx. destruct (_ || _); simpl; [|done]. split; [done|].
      unfold live_status. repeat case_match; done.
Qed.

(** A release that refers to a cluster whose plan refers back to it. *)
Definition ex_ref_to (av kind name : string) : gomap :=
  [("target", VMap [("$ref", VMap [("apiVersion", VStr av); ("kind", VStr kind); ("name", VStr name)])])].

Definition ex_child (name : string) : resource :=
  Resource "k3s.openctl.io/v1" "K3sNode" (ResourceMetadata name "" [] [] "" "")
    (Some (ex_ref_to "k3s.openctl.io/v1" "Cluster" "prod")) None.

Definition ex_planner : Provider (db * unit) string :=
  MkProvider "k3s" ["Cluster"] (λ r st, (Ok (Some r), st)) (λ _ n _, if decide (n = "n-1") then Err "not found" else Ok None)
    (λ _ _, Ok []) (λ _ _ st, (Ok tt, st)) None
    (Some (λ r _, if decide (r_kind r = "Cluster") then Ok (Some [ex_child "n-0"; ex_child "n-1"]) else Err "no plan")) None None
    None None None None None.

Lemma GetChildrenGraph_rooted_witness :
  ∃ nodes edges, GetChildrenGraph [("k3s", ex_planner)] true (λ _, true) (empty_db, tt) 20 None "k3s.openctl.io/v1" "Cluster" "prod"
      = Some (Ok (nodes, edges)) ∧ map gn_Status nodes = ["applied"; "applied"; "pending"] ∧
    length edges = 4 ∧ rtc (λ a b, ∃ e, e ∈ edges ∧ ge_From e = a ∧ ge_To e = b) "Cluster/prod" "K3sNode/n-1".
Proof.
  destruct (GetChildrenGraph [("k3s", ex_planner)] true (λ _, true) (empty_db, tt) 20 None "k3s.openctl.io/v1" "Cluster" "prod")
    as [[[nodes edges]|e]|] eqn:E; [|vm_compute in E; discriminate E..].
  exists nodes, edges. split; [done|].
  pose proof (GetChildrenGraph_rooted [("k3s", ex_planner)] true (λ _, true) (empty_db, tt) 20 None "k3s.openctl.io/v1" "Cluster" "prod"
    nodes edges E) as (_ & _ & _ & _ & _ & H).
  assert (map gn_Status nodes = ["applied"; "applied"; "pending"] ∧ length edges = 4 ∧
    map gn_Id nodes = ["Cluster/prod"; "K3sNode/n-0"; "K3sNode/n-1"]) as (H1 & H2 & H3).
  { vm_compute in E. injection E as <- <-. by split_and!. }
  split; [exact H1|]. split; [exact H2|]. rewrite H3 in H. apply H.
  - apply Forall_forall. repeat constructor; simpl; discriminate.
  - by_decide.
Defined.
