(* ===== verification/Handlers.v ===== *)
(** The RPCs that change something, src/internal/controller/server/: Apply,
    Delete and InvokeAction of resource.go, CancelOperation of operation.go, the
    ownership hand-over of migration.go, and the submissions that
    cmd/openctl-controller/main.go wires into the GitOps watcher and the
    reconciler. Apply and Delete only record an operation; the dispatcher works
    it off. *)
From S2P Require Import Prelude GoStrings GoValue Marker Refs Hash Db OpStore ManifestStore Registry Digraph Kahn Graph.
From S2P Require Import CrossOp Dispatcher GoPath Disk Drift Auth Wire.
From Corelib Require Import Floats.SpecFloat.

Definition annotAllowDestructive : string := "openctl.io/allow-destructive".
Definition annotIKnowThisBreaks : string := "openctl.io/i-know-this-breaks-the-cluster".

(** The gate annotations of a request's flags. *)
Definition set_gates (allow iknow : bool) (a : list (string * string)) : list (string * string) :=
  let a := if allow then assoc_set annotAllowDestructive "true" a else a in
  if iknow then assoc_set annotIKnowThisBreaks "true" a else a.

Definition with_annotations (r : resource) (a : list (string * string)) : resource :=
  let md := r_metadata r in
  with_metadata r (ResourceMetadata (md_name md) (md_namespace md) (md_labels md) a (md_uid md) (md_created_at md)).

Record ApplyRequest : Type := MkApplyRequest {
  aq_Resource : option wire; aq_AllowDestructive : bool; aq_IKnow : bool }.

Record ActionRequest : Type := MkActionRequest {
  iq_key : rkey; iq_Action : string; iq_Parameters : list (string * string) }.

Record MigrationBundle : Type := MkBundle {
  mb_Version : Z; mb_Resource : option wire; mb_ControllerId : string; mb_ManifestDigest : string; mb_Identity : string }.

Definition migrationBundleVersion : Z := 1.

(** The disk mirror as the hand-over uses it: both projections report whether
    they succeeded and leave the database alone. *)
Class Projection (W : Type) : Type := {
  materialize : resource → db * W → bool * (db * W);
  remove_projection : rkey → db * W → bool * (db * W);
  materialize_db : ∀ r st, (materialize r st).2.1 = st.1;
  remove_projection_db : ∀ k st, (remove_projection k st).2.1 = st.1;
}.

Section handlers.
Context {W PE : Type}.
Abbreviation St := (db * W)%type.
Context (registry : list (string * Provider St PE)) (is_not_found : PE → bool).

(** The operations store with its dispatcher ([None]: neither, as in tests),
    whether the manifest store is wired, the mirror, and whether GitOps is on. *)
Context (store : option Store) (wired : bool) (mirror : option (Projection W)) (gitopsEnabled : bool).
(** CUE validation; sha256; whether an error text says that an action is not
    supported; formatting of floats. *)
Context (Validate : resource → bool) (digest : value → string) (json_digest : resource → option string).
Context (says_unsupported : registry_error + PE → bool) (float_v float_f : spec_float → string).

Inductive reason : Type :=
| DeniedRole (p : Principal) (minRole : Role)
| NoResource
| NoProviderReason (e : registry_error)
| SchemaViolation
| NameRequired
| IsReleased (k : rkey)
| SyncFailed (e : PE)
| EncodeManifest
| InFlight (id : string)
| SubmitFailed
| OwnedBy (kind name : string)
| ArgumentsRequired
| ActionFailed (e : action_failure (PE := PE))
| OpNotFound
| NotCancelable (st : status) (why : string)
| MigrationReason (e : migration_error)
| MigrationRefused (why : string)
| ProjectionFailed.

Abbreviation rpc A := (result (code * reason) A).

Definition need_role (who : option Principal) (minRole : Role) : rpc unit :=
  match who with
  | Some p => if AtLeast (pr_Role p) minRole then Ok tt else Err (PermissionDenied, DeniedRole p minRole)
  | None => Ok tt
  end.

(** [checkNotForgotten] *)
Definition checkNotForgotten (k : rkey) (d : db) : rpc unit :=
  if wired && IsForgotten k d then Err (FailedPrecondition, IsReleased k) else Ok tt.

Definition registered (apiVersion : string) : rpc (Provider St PE) :=
  map_err (λ e, (InvalidArgument, NoProviderReason e)) (For apiVersion registry).

(** [ops.Submit] with the mapping of its errors. *)
Definition submit (s : Store) (op : Operation) (id now : string) (st : St) : rpc string * St :=
  match Submit s op id now st.1 with
  | Ok (d', row) => (Ok (o_id row), (d', st.2))
  | Err (ForgottenError k) => (Err (FailedPrecondition, IsReleased k), st)
  | Err (ConflictError inflight) => (Err (AlreadyExists, InFlight inflight), st)
  | Err _ => (Err (Internal, SubmitFailed), st)
  end.

Definition new_op (type source : string) (k : rkey) (manifest : json_text resource) : Operation :=
  MkOperation "" "" type k "" manifest JEmpty StatusPending "" "" "" "" source.

(** [Apply] up to the submission: the manifest it would record. *)
Definition check_apply (who : option Principal) (req : ApplyRequest) (d : db) : rpc resource :=
  _ ← need_role who RoleEditor;
  match aq_Resource req with
  | None => Err (InvalidArgument, NoResource)
  | Some w =>
      _ ← registered (w_apiVersion w);
      let manifest := protoToResource w in
      if negb (Validate manifest) then Err (InvalidArgument, SchemaViolation)
      else if decide (r_name manifest = "") then Err (InvalidArgument, NameRequired)
      else
        _ ← checkNotForgotten (resource_key manifest) d;
        Ok (with_annotations manifest (set_gates (aq_AllowDestructive req) (aq_IKnow req) (r_annotations manifest)))
  end.

(** [Apply]; the result is the operation's id, empty in the synchronous mode. *)
Definition Apply (who : option Principal) (source : string) (req : ApplyRequest) (id now : string) (st : St) :
    rpc string * St :=
  match check_apply who req st.1 with
  | Err e => (Err e, st)
  | Ok manifest =>
      match store with
      | None =>
          match For (r_apiVersion manifest) registry with
          | Err e => (Err (InvalidArgument, NoProviderReason e), st)
          | Ok p =>
              let '(res, st') := p_Apply p manifest st in
              (match res with Ok _ => Ok "" | Err e => Err (Internal, SyncFailed e) end, st')
          end
      | Some s =>
          match json_resource manifest with
          | None => (Err (Internal, EncodeManifest), st)
          | Some m => submit s (new_op TypeApply source (resource_key manifest) (JText m)) id now st
          end
      end
  end.

(** [Delete] *)
Definition DeleteResource (who : option Principal) (source : string) (k : rkey) (id now : string) (st : St) :
    rpc string * St :=
  match
    (_ ← need_role who RoleEditor;
     p ← registered k.1.1;
     _ ← checkNotForgotten k st.1;
     match OwnerOf k.1.2 k.2 registry with
     | Some (ok, on) => Err (FailedPrecondition, OwnedBy ok on)
     | None => Ok p
     end)
  with
  | Err e => (Err e, st)
  | Ok p =>
      match store with
      | None =>
          let '(res, st') := p_Delete p k.1.2 k.2 st in
          (match res with Ok _ => Ok "" | Err e => Err (Internal, SyncFailed e) end, st')
      | Some s => submit s (new_op TypeDelete source k JEmpty) id now st
      end
  end.

(** The class of a failed action: a text that says the action is not supported
    is the caller's error. *)
Definition unsupported (e : action_failure (PE := PE)) : bool :=
  match e with
  | ErrNoActions _ | ErrUnsupportedAction _ _ => true
  | ErrActionRegistry e => says_unsupported (inl e)
  | ErrAction e => says_unsupported (inr e)
  end.

(** [InvokeAction] *)
Definition InvokeAction (who : option Principal) (req : ActionRequest) (st : St) : rpc ActionResult * St :=
  let k := iq_key req in
  match
    (_ ← need_role who RoleEditor;
     if decide (k.1.1 = "" ∨ k.1.2 = "" ∨ k.2 = "" ∨ iq_Action req = "") then Err (InvalidArgument, ArgumentsRequired)
     else checkNotForgotten k st.1)
  with
  | Err e => (Err e, st)
  | Ok _ =>
      let '(res, st') := DoAction k.1.1 k.1.2 k.2 (iq_Action req) (iq_Parameters req) registry st in
      (match res with
       | Ok r => Ok r
       | Err e => Err (if unsupported e then FailedPrecondition else Internal, ActionFailed e)
       end, st')
  end.

(** [CancelOperation]; [c] is the dispatcher's record of running operations, if
    one is wired. The caller is not looked at. *)
Definition CancelOperation (who : option Principal) (id now : string) (c : option control) (d : db) :
    rpc status * (option control * db) :=
  if decide (id = "") then (Err (InvalidArgument, ArgumentsRequired), (c, d))
  else
    match CancelPending id now d with
    | (d', None) => (Err (NotFound, OpNotFound), (c, d'))
    | (d', Some Cancelled) => (Ok StatusCancelled, (c, d'))
    | (d', Some (Refused st why)) =>
        if decide (st = StatusCancelled) then (Ok StatusCancelled, (c, d'))
        else match (if decide (st = StatusRunning) then c else None) with
        | Some ctl =>
            match CancelRunning id ctl with
            | (ctl', true) => (Ok st, (Some ctl', d'))
            | (ctl', false) => (Err (FailedPrecondition, NotCancelable st why), (Some ctl', d'))
            end
        | None => (Err (FailedPrecondition, NotCancelable st why), (c, d'))
        end
    end.

(** ** Ownership hand-over: migration.go *)

(** [migrationReady] *)
Definition migrationReady : rpc unit :=
  if gitopsEnabled then Err (FailedPrecondition, MigrationRefused "disable manifest GitOps")
  else if negb wired then Err (FailedPrecondition, MigrationRefused "no manifest store")
  else Ok tt.

(** [migrationError] *)
Definition migrationError (e : migration_error) : code * reason :=
  (match e with
   | ErrMigrationNotFound => NotFound
   | ErrMigrationForgotten _ | ErrMigrationBusy | ErrMigrationUnsupported | ErrMigrationConflict => FailedPrecondition
   | ErrMigrationDecode | ErrMigrationEncode => Internal
   end, MigrationReason e).

(** [migrationIdentityError] *)
Definition migrationIdentityError (e : PE) : code * reason :=
  (if is_not_found e then NotFound else FailedPrecondition, MigrationRefused "identity").

(** [p.(MigrationIdentityReader)] *)
Definition has_identity (p : Provider St PE) : bool :=
  match p_MigrationIdentity p with Some _ => true | None => false end.

(** [migrationResource] *)
Definition migrationResource (w : option wire) : rpc (resource * Provider St PE) :=
  match w with
  | None => Err (InvalidArgument, NoResource)
  | Some w =>
      if decide (w_apiVersion w = "" ∨ w_kind w = "" ∨ w_name w = "" ∨ w_spec w = None) then Err (InvalidArgument, NoResource)
      else if decide (w_status w ≠ None ∨ w_drift w ≠ []) then Err (InvalidArgument, MigrationRefused "status or drift")
      else if decide (w_children w ≠ [] ∨ w_owner_refs w ≠ []) then Err (FailedPrecondition, MigrationRefused "relationships")
      else
        let manifest := protoToResource w in
        if decide (r_apiVersion manifest ≠ "proxmox.openctl.io/v1" ∨ r_kind manifest ≠ "VirtualMachine")
        then Err (FailedPrecondition, MigrationRefused "kind")
        else if negb (Validate manifest) then Err (InvalidArgument, SchemaViolation)
        else match For (r_apiVersion manifest) registry with
             | Err _ => Err (FailedPrecondition, MigrationRefused "no provider")
             | Ok p =>
                 if negb (has_identity p) then Err (FailedPrecondition, MigrationRefused "no identity")
                 else if p_Planner p then Err (FailedPrecondition, MigrationRefused "composite provider")
                 else if decide (OwnerOf (r_kind manifest) (r_name manifest) registry ≠ None ∨
                                 ChildrenOf (r_kind manifest) (r_name manifest) registry ≠ [] ∨
                                 label LabelOwnerKind manifest ≠ "" ∨ label LabelOwnerName manifest ≠ "")
                 then Err (FailedPrecondition, MigrationRefused "relationships")
                 else Ok (manifest, p)
             end
  end.

(** [p.(MigrationIdentityReader).MigrationIdentity] *)
Definition identity_of (p : Provider St PE) (manifest : resource) (st : St) : rpc string :=
  match p_MigrationIdentity p with
  | None => Err (FailedPrecondition, MigrationRefused "no identity")
  | Some f => map_err migrationIdentityError (f manifest st)
  end.

(** [validateMigrationBundle] *)
Definition validateMigrationBundle (b : option MigrationBundle) : rpc MigrationBundle :=
  match b with
  | Some b =>
      match mb_Resource b with
      | Some w =>
          if decide (mb_Version b ≠ migrationBundleVersion ∨ mb_ControllerId b = "" ∨ mb_ManifestDigest b = "" ∨
                     mb_Identity b = "")
          then Err (InvalidArgument, MigrationRefused "bundle")
          else match MigrationDigest json_digest (protoToResource w) with
               | Ok dg => if decide (dg = mb_ManifestDigest b) then Ok b else Err (InvalidArgument, MigrationRefused "digest")
               | Err _ => Err (InvalidArgument, MigrationRefused "digest")
               end
      | None => Err (InvalidArgument, MigrationRefused "bundle")
      end
  | None => Err (InvalidArgument, MigrationRefused "bundle")
  end.

(** [ExportResource] *)
Definition ExportResource (who : option Principal) (k : rkey) (fresh : string) (st : St) : rpc MigrationBundle * St :=
  match
    (_ ← need_role who RoleAdmin;
     _ ← migrationReady;
     if decide (k.1.1 = "" ∨ k.1.2 = "" ∨ k.2 = "") then Err (InvalidArgument, ArgumentsRequired)
     else map_err migrationError (ExportMigration json_digest k fresh st.1))
  with
  | Err e => (Err e, st)
  | Ok (d, snap) =>
      let wire := resourceToProto (snap_resource snap) in
      let st' := (d, st.2) in
      (mp ← migrationResource (Some wire);
       identity ← identity_of mp.2 mp.1 st';
       if decide (identity = "") then Err (FailedPrecondition, MigrationRefused "empty identity")
       else Ok (MkBundle migrationBundleVersion (Some wire) (snap_controller snap) (snap_digest snap) identity), st')
  end.

(** The destination's provider context replaces the exported one. *)
Definition with_context (ctx : string) (manifest : resource) : resource :=
  if decide (ctx = "") then manifest
  else with_spec manifest (Some (assoc_set "context" (VStr ctx) (fields (r_spec manifest)))).

(** The checks of [AdoptResource]: the manifest to record and the observed
    resource to return. *)
Definition adopt_checks (who : option Principal) (w : option wire) (b : option MigrationBundle) (ctx : string) (st : St) :
    rpc (resource * wire) :=
  _ ← need_role who RoleAdmin;
  _ ← migrationReady;
  w' ← match w, b with
       | Some w, None => Ok (Some w)
       | None, Some b => b' ← validateMigrationBundle (Some b); Ok (mb_Resource b')
       | _, _ => Err (InvalidArgument, ArgumentsRequired)
       end;
  mp ← migrationResource w';
  let manifest := with_context ctx mp.1 in
  if negb (bool_decide (ctx = "")) && negb (Validate manifest) then Err (InvalidArgument, SchemaViolation)
  else
    identity ← identity_of mp.2 manifest st;
    if decide (identity = "" ∨ identity ≠ match b with Some b => mb_Identity b | None => identity end) then
      Err (FailedPrecondition, MigrationRefused "identity mismatch")
    else
      match p_Get mp.2 (r_kind manifest) (r_name manifest) st with
      | Ok (Some observed) =>
          let '(ds, os) := DriftSpecs mp.2 (r_kind manifest) (r_spec manifest) (r_spec observed) in
          Ok (manifest, with_drift (resourceToProto observed) (computeDrift float_v float_f ds os))
      | _ => Err (FailedPrecondition, MigrationRefused "cannot observe")
      end.

(** [AdoptResource] *)
Definition AdoptResource (who : option Principal) (w : option wire) (b : option MigrationBundle) (ctx now : string)
    (st : St) : rpc wire * St :=
  match adopt_checks who w b ctx st with
  | Err e => (Err e, st)
  | Ok (manifest, out) =>
      match Adopt digest json_digest manifest now st.1 with
      | Err e => (Err (migrationError e), st)
      | Ok d =>
          match mirror with
          | None => (Ok out, (d, st.2))
          | Some m =>
              let '(ok, st') := @materialize W m manifest (d, st.2) in
              (if ok : bool then Ok out else Err (Internal, ProjectionFailed), st')
          end
      end
  end.

(** [ForgetResource] *)
Definition ForgetResource (who : option Principal) (b : option MigrationBundle) (fresh now : string) (st : St) :
    rpc unit * St :=
  match
    (_ ← need_role who RoleAdmin;
     _ ← migrationReady;
     bundle ← validateMigrationBundle b;
     mp ← migrationResource (mb_Resource bundle);
     identity ← identity_of mp.2 mp.1 st;
     if decide (identity = mb_Identity bundle) then Ok (mp.1, bundle)
     else Err (FailedPrecondition, MigrationRefused "identity mismatch"))
  with
  | Err e => (Err e, st)
  | Ok (manifest, bundle) =>
      match Forget json_digest manifest (mb_ControllerId bundle) (mb_ManifestDigest bundle) fresh now st.1 with
      | Err e => (Err (migrationError e), st)
      | Ok d =>
          match mirror with
          | None => (Ok tt, (d, st.2))
          | Some m =>
              let '(ok, st') := @remove_projection W m (resource_key manifest) (d, st.2) in
              (if ok : bool then Ok tt else Err (Internal, ProjectionFailed), st')
          end
      end
  end.

(** ** Submissions wired in main.go *)

(** The apply callback of the GitOps watcher, and the one of the reconciler. *)
Definition submit_manifest (s : Store) (source : string) (id now : string) (r : resource) (st : St) :
    result unit unit * St :=
  match json_resource r with
  | None => (Err tt, st)
  | Some m =>
      match Submit s (new_op TypeApply source (resource_key r) (JText m)) id now st.1 with
      | Ok (d', _) => (Ok tt, (d', st.2))
      | Err _ => (Err tt, st)
      end
  end.

Definition gitops_apply (s : Store) : string → string → resource → St → result unit unit * St :=
  submit_manifest s SourceGitOps.
Definition auto_apply (s : Store) : string → string → resource → St → result unit unit * St :=
  submit_manifest s SourceAutoReconcile.

(** The delete callback of the GitOps watcher and of the pruner. *)
Definition gitops_delete (s : Store) (id now : string) (k : rkey) (st : St) : result unit unit * St :=
  match Submit s (new_op TypeDelete SourceGitOps k JEmpty) id now st.1 with
  | Ok (d', _) => (Ok tt, (d', st.2))
  | Err _ => (Err tt, st)
  end.
End handlers.

(** The mirror of Disk as the projection of the hand-over. *)
Definition disk_projection (yaml_marshal : resource → option string) (write_ok remove_ok : list string → bool)
    (hook : option (resource → string → bool)) : Projection tree.
Proof.
  refine {|
    materialize := λ r st, let x := Materialize yaml_marshal write_ok hook (Some r) (MkMirror st.1 st.2) in
                           (is_ok x.1, (m_db x.2, m_tree x.2));
    remove_projection := λ k st, let x := RemoveProjection remove_ok hook k (MkMirror st.1 st.2) in
                                 (is_ok x.1, (m_db x.2, m_tree x.2)) |}.
  - intros r st. unfold Materialize. destruct (negb _); [done|]. by destruct (writeFile _ _ _ _).
  - intros k st. unfold RemoveProjection. destruct (IsForgotten _ _); [|done]. by destruct (removeFile _ _ _).
Defined.

(** ** Laws *)

Lemma json_resource_meta r m :
  json_resource r = Some m →
  r_metadata m = r_metadata r ∧ resource_key m = resource_key r ∧ r_spec m = json_read_map <$> omit_empty (r_spec r).
Proof. unfold json_resource. destruct (_ && _); [|done]. by intros [= <-]. Qed.

Section handler_laws.
Context {W PE : Type} (registry : list (string * Provider (db * W) PE)).

Lemma need_role_Ok who minRole :
  need_role (PE := PE) who minRole = Ok tt ↔ authorize who minRole = true.
Proof. unfold need_role, authorize. destruct who as [p|]; [|done]. by destruct (AtLeast _ _). Qed.

Lemma need_role_refused p minRole :
  AtLeast (pr_Role p) minRole = false →
  need_role (PE := PE) (Some p) minRole = Err (PermissionDenied, DeniedRole p minRole).
Proof. intros H. unfold need_role. by rewrite H. Qed.

Lemma checkNotForgotten_Ok wired k d :
  checkNotForgotten (PE := PE) wired k d = Ok tt ↔ wired = false ∨ db_releases d !! k = None.
Proof.
  unfold checkNotForgotten, IsForgotten. destruct wired; simpl; [|naive_solver].
  rewrite <-CheckNotForgotten_true. destruct (CheckNotForgotten d k); naive_solver.
Qed.

Lemma checkNotForgotten_released k d :
  is_Some (db_releases d !! k) → checkNotForgotten (PE := PE) true k d = Err (FailedPrecondition, IsReleased k).
Proof.
  intros [x Hx]. unfold checkNotForgotten, IsForgotten. simpl.
  destruct (CheckNotForgotten d k) eqn:E; [|done]. apply CheckNotForgotten_true in E. congruence.
Qed.

Lemma assoc_set_get g k v (a : list (string * string)) :
  default "" (assoc g (assoc_set k v a)) = if decide (g = k) then v else default "" (assoc g a).
Proof. case_decide as H; [subst; by rewrite assoc_set_eq|by rewrite assoc_set_ne by congruence]. Qed.

(** The gates a submitted manifest carries. *)
Lemma set_gates_open allow iknow a :
  (default "" (assoc annotAllowDestructive (set_gates allow iknow a)) = "true" ↔
     allow = true ∨ default "" (assoc annotAllowDestructive a) = "true") ∧
  (default "" (assoc annotIKnowThisBreaks (set_gates allow iknow a)) = "true" ↔
     iknow = true ∨ default "" (assoc annotIKnowThisBreaks a) = "true").
Proof.
  unfold set_gates. destruct allow, iknow; rewrite ?assoc_set_get; simpl; naive_solver.
Qed.

Lemma set_gates_other allow iknow a k :
  k ≠ annotAllowDestructive → k ≠ annotIKnowThisBreaks → assoc k (set_gates allow iknow a) = assoc k a.
Proof. intros H1 H2. unfold set_gates. destruct allow, iknow; rewrite ?assoc_set_ne by congruence; done. Qed.

Lemma check_apply_Ok wired Validate who req d r :
  check_apply registry wired Validate who req d = Ok r →
  ∃ w, aq_Resource req = Some w ∧ authorize who RoleEditor = true ∧ is_ok (For (w_apiVersion w) registry) = true ∧
    Validate (protoToResource w) = true ∧ r_name (protoToResource w) ≠ "" ∧
    (wired = false ∨ db_releases d !! resource_key (protoToResource w) = None) ∧
    r = with_annotations (protoToResource w)
          (set_gates (aq_AllowDestructive req) (aq_IKnow req) (r_annotations (protoToResource w))).
Proof.
  unfold check_apply. rewrite bind_Ok. intros ([] & Hr%need_role_Ok & H).
  destruct (aq_Resource req) as [w|]; [|done]. rewrite bind_Ok in H. destruct H as (p & Hp & H).
  destruct (Validate _) eqn:Hv; [|done]. simpl in H. destruct (decide (r_name _ = "")) as [|Hn]; [done|].
  rewrite bind_Ok in H. destruct H as ([] & Hc%checkNotForgotten_Ok & [= <-]).
  exists w. split_and!; try done. unfold registered in Hp. by destruct (For _ _).
Qed.

(** An accepted Apply and the row it appends. *)
Lemma Apply_Ok s Validate who source req id now (st : db * W) opid st' :
  Apply registry (Some s) true Validate who source req id now st = (Ok opid, st') →
  ∃ r m, check_apply registry true Validate who req st.1 = Ok r ∧ json_resource r = Some m ∧ opid = id ∧ st'.2 = st.2 ∧
    Submit s (new_op TypeApply source (resource_key r) (JText m)) id now st.1 =
      Ok (st'.1, pending_row (new_op TypeApply source (resource_key r) (JText m)) id now).
Proof.
  unfold Apply. destruct (check_apply _ _ _ _ _ _) as [r|e]; [|done].
  destruct (json_resource r) as [m|] eqn:Hj; [|done]. unfold submit.
  destruct (Submit _ _ _ _ _) as [[d' row]|e] eqn:E; [|by destruct e].
  pose proof (Submit_Ok _ _ _ _ _ _ _ E) as (Hrow & _). intros [= <- <-]. subst row. exists r, m. by split_and!.
Qed.

(** The wire form of [r] reads back as [r]. *)
Definition wire_exact (r : resource) : Prop := protoToResource (resourceToProto r) = r.

Lemma json_read_wire v : json_read (as_interface (normalizeValue v)) = as_interface (normalizeValue v).
Proof.
  induction v as [ |b|z|f|s|l IH|m IH] using value_ind'; simpl; try done.
  - by destruct (f64_of_Z z) as [|[]| |].
  - by destruct f as [|[]| |].
  - f_equal. rewrite !map_map. apply map_ext_Forall, IH.
  - f_equal. rewrite !map_map. apply map_ext_Forall. apply (Forall_impl _ _ _ IH). intros p Hp. simpl. by rewrite Hp.
Qed.

Lemma wire_exact_spec r : wire_exact r → json_read_map <$> r_spec r = r_spec r.
Proof.
  unfold wire_exact. intros H. rewrite <-H. simpl. destruct (r_spec r) as [m|]; simpl; [|done]. f_equal.
  unfold json_read_map, as_interface_map, normalize. rewrite !map_map. apply map_ext. intros [k v]. cbn [fst snd]. f_equal. apply json_read_wire.
Qed.
End handler_laws.

(** ** Runs: one RPC by a caller. *)
Section rpc_step.
Context {W PE : Type} (registry : list (string * Provider (db * W) PE)) (is_not_found : PE → bool).
Context (store : option Store) (wired : bool) (mirror : option (Projection W)) (gitopsEnabled : bool).
Context (Validate : resource → bool) (digest : value → string) (json_digest : resource → option string).
Context (says_unsupported : registry_error + PE → bool) (float_v float_f : spec_float → string).

Inductive rpc_step (who : option Principal) (st : db * W) : db * W → Prop :=
| RpcApply source req id now :
    rpc_step who st (Apply registry store wired Validate who source req id now st).2
| RpcDelete source k id now :
    rpc_step who st (DeleteResource registry store wired who source k id now st).2
| RpcAction req :
    rpc_step who st (InvokeAction registry wired says_unsupported who req st).2
| RpcExport k fresh :
    rpc_step who st (ExportResource registry is_not_found wired gitopsEnabled Validate json_digest who k fresh st).2
| RpcAdopt w b ctx now :
    rpc_step who st (AdoptResource registry is_not_found wired mirror gitopsEnabled Validate digest json_digest
                       float_v float_f who w b ctx now st).2
| RpcForget b fresh now :
    rpc_step who st (ForgetResource registry is_not_found wired mirror gitopsEnabled Validate json_digest who b fresh now st).2
| RpcCancel id now c :
    rpc_step who st ((CancelOperation (PE := PE) who id now c st.1).2.2, st.2).

Lemma CancelOperation_db who id now c d :
  id ≠ "" → (CancelOperation (PE := PE) who id now c d).2.2 = (CancelPending id now d).1.
Proof.
  intros Hid. unfold CancelOperation. rewrite decide_False by done.
  destruct (CancelPending id now d) as [d' [[|s why]|]]; simpl; [done| |done].
  case_decide; [done|]. destruct (if decide (s = StatusRunning) then c else None) as [ctl|]; [|done].
  by destruct (CancelRunning id ctl) as [ctl' []].
Qed.
End rpc_step.

(** ** Properties *)

(** What a viewer can do. Whatever RPC a caller below editor issues, with
    whatever arguments, the database and the world stay as they are, but for one
    hole: CancelOperation does not look at the caller, so every pending
    operation can be canceled with a viewer's token. *)
Theorem viewer_can_only_cancel {W PE} (registry : list (string * Provider (db * W) PE)) is_not_found store wired mirror
    gitopsEnabled Validate digest json_digest says_unsupported float_v float_f p st :
  AtLeast (pr_Role p) RoleEditor = false →
  let step := rpc_step registry is_not_found store wired mirror gitopsEnabled Validate digest json_digest
                says_unsupported float_v float_f (Some p) in
  (∀ st', step st st' → st' = st ∨ ∃ id now, st' = ((CancelPending id now st.1).1, st.2)) ∧
  (∀ o, ops_inv st.1 → o ∈ db_ops st.1 → o_status o = StatusPending → o_id o ≠ "" →
     ∃ st', step st st' ∧ o_status <$> find_op st'.1 (o_id o) = Some StatusCancelled).
Proof.
  intros Hp step.
  assert (AtLeast (pr_Role p) RoleAdmin = false) as Ha.
  { revert Hp. unfold AtLeast. rewrite !andb_false_iff, !Nat.ltb_ge, !Nat.leb_gt. vm_compute (rank RoleEditor).
    vm_compute (rank RoleAdmin). lia. }
  pose proof (need_role_refused (PE := PE) p _ Hp) as He. pose proof (need_role_refused (PE := PE) p _ Ha) as Hm. split.
  - intros st' [source req id now|source k id now|req|k fresh|w b ctx now|b fresh now|id now c].
    + left. unfold Apply, check_apply. by rewrite He.
    + left. unfold DeleteResource. by rewrite He.
    + left. unfold InvokeAction. by rewrite He.
    + left. unfold ExportResource. by rewrite Hm.
    + left. unfold AdoptResource, adopt_checks. by rewrite Hm.
    + left. unfold ForgetResource. by rewrite Hm.
    + destruct (decide (id = "")) as [->|Hid].
      * left. unfold CancelOperation. rewrite decide_True by done. by destruct st.
      * right. exists id, now. by rewrite CancelOperation_db.
  - intros o Hinv Ho Hst Hid. eexists. split; [by apply (RpcCancel _ _ _ _ _ _ _ _ _ _ _ _ _ _ (o_id o) "" None)|].
    cbn [fst]. rewrite CancelOperation_db by done. unfold CancelPending. rewrite (find_op_in _ _ Hinv Ho).
    rewrite decide_True by done. simpl.
    set (d' := update_op _ _ _). assert (ops_inv d') as Hinv'.
    { pose proof (ops_inv_step (MkStore 0) st.1 _ Hinv (step_cancel _ _ (o_id o) "")) as H.
      unfold CancelPending in H. rewrite (find_op_in _ _ Hinv Ho), decide_True in H by done. exact H. }
    set (o' := with_status_of o StatusCancelled cancel_message (o_result o) (o_started o) "").
    assert (find_op d' (o_id o) = Some o') as ->; [|done].
    apply (find_op_in d' o' Hinv'). apply list_elem_of_fmap. exists o. split; [|done]. by rewrite decide_True.
Qed.

Definition ex_viewer : Principal := MkPrincipal "eve" RoleViewer false.
Definition ex_pending_db : db :=
  match Submit example_store (example_op "web") "op-1" "t" empty_db with Ok (d, _) => d | Err _ => empty_db end.

Lemma viewer_can_only_cancel_witness :
  (∀ st', rpc_step (PE := string) [] (λ _, false) None true None false (λ _, true) ex_digest (λ _, None) (λ _, false)
      (λ _, "") (λ _, "") (Some ex_viewer) (ex_pending_db, tt) st' →
    st' = (ex_pending_db, tt) ∨ ∃ id now, st' = ((CancelPending id now ex_pending_db).1, tt)) ∧
  length (db_ops ex_pending_db) = 1.
Proof.
  split; [|reflexivity].
  apply (viewer_can_only_cancel [] (λ _, false) None true None false (λ _, true) ex_digest (λ _, None) (λ _, false)
    (λ _, "") (λ _, "") ex_viewer (ex_pending_db, tt)).
  vm_compute. reflexivity.
Defined.

(** C11: What Apply admits and records. An accepted Apply found a caller of at
    least editor, a registered provider, a manifest that passes the schema and
    has a name, a resource that was not released and has nothing in flight; it
    appended one pending operation, tagged with where the request came from,
    whose manifest is the wire's as JSON reads it back, its name, labels and every annotation but the two
    gates among it, each gate open iff the request's flag or the wire's own annotation opens
    it. Nothing else changed: no row of another table, nothing outside the database, and of the other operations' rows
    none is new or different; at most finished operations of the same resource are gone, which the
    submission prunes. A refused Apply changed nothing. *)
Theorem Apply_admission {W PE} (registry : list (string * Provider (db * W) PE)) s Validate who source req id now st res st' :
  Apply registry (Some s) true Validate who source req id now st = (res, st') →
  match res with
  | Err _ => st' = st
  | Ok opid => ∃ w o m, aq_Resource req = Some w ∧ let r := protoToResource w in
      authorize who RoleEditor = true ∧ is_ok (For (r_apiVersion r) registry) = true ∧ Validate r = true ∧ r_name r ≠ "" ∧
      db_releases st.1 !! resource_key r = None ∧
      (∀ x, x ∈ db_ops st.1 → o_key x = resource_key r → in_flight x = false) ∧
      o ∈ db_ops st'.1 ∧ (o_id o, o_type o, o_key o, o_status o, o_source o) = (opid, TypeApply, resource_key r, StatusPending, source) ∧
      o_manifest o = JText m ∧ resource_key m = resource_key r ∧ r_labels m = r_labels r ∧
      r_spec m = json_read_map <$> omit_empty (r_spec r) ∧ r_status m = json_read_map <$> omit_empty (r_status r) ∧
      (annotation annotAllowDestructive m = "true" ↔ aq_AllowDestructive req = true ∨ annotation annotAllowDestructive r = "true") ∧
      (annotation annotIKnowThisBreaks m = "true" ↔ aq_IKnow req = true ∨ annotation annotIKnowThisBreaks r = "true") ∧
      (∀ a, a ≠ annotAllowDestructive → a ≠ annotIKnowThisBreaks → assoc a (r_annotations m) = assoc a (r_annotations r)) ∧
      st'.2 = st.2 ∧ st'.1 = set_ops st.1 (db_ops st'.1) ∧ (∀ x, x ∈ db_ops st'.1 → x = o ∨ x ∈ db_ops st.1) ∧
      (NoDup (map o_id (db_ops st.1)) → ∀ x, x ∈ db_ops st.1 → x ∈ db_ops st'.1 ∨ gc_candidate (resource_key r) x)
  end.
Proof.
  destruct res as [opid|e].
  - intros (r & m & Ha & Hj & -> & HW & E)%Apply_Ok. pose proof (Submit_frame _ _ _ _ _ _ _ E) as (F1 & F2 & F3).
    apply check_apply_Ok in Ha as (w & Hw & Hr & Hf & Hv & Hn & Hrel & ->).
    assert (r_status m = json_read_map <$> omit_empty (r_status (protoToResource w))) as Hst.
    { unfold json_resource in Hj. destruct (_ && _); [|done]. by injection Hj as <-. }
    apply json_resource_meta in Hj as (Hmd & Hk & Hs).
    apply Submit_Ok in E as (_ & Hin & _ & Hnr & Hnf & _).
    eexists w, _, m. split; [done|]. destruct (set_gates_open (aq_AllowDestructive req) (aq_IKnow req) (r_annotations (protoToResource w))) as [G1 G2].
    unfold annotation, r_annotations, r_labels in *. rewrite Hmd. split_and!; try done.
    intros a H1 H2. by apply set_gates_other.
  - unfold Apply. destruct (check_apply _ _ _ _ _ _); [|by intros [= _ <-]].
    destruct (json_resource _); [|by intros [= _ <-]]. unfold submit.
    destruct (Submit _ _ _ _ _) as [[]|[]]; by intros [= _ <-].
Qed.

Definition ex_proxmox {W} : Provider (db * W) string :=
  MkProvider "proxmox" ["VirtualMachine"] (λ r st, (Ok (Some r), st))
    (λ k n st, Ok (Some (Resource "proxmox.openctl.io/v1" k (ResourceMetadata n "" [] [] "" "") (Some []) None)))
    (λ _ _, Ok []) (λ _ _ st, (Ok tt, st)) None None None None
    (Some (λ _ n, if decide (n = "node-1") then Some ("Cluster", "prod") else None)) None None None
    (Some (λ r _, Ok ("uuid-" +:+ r_name r))).

Definition ex_wire (name : string) : wire :=
  MkWire "proxmox.openctl.io/v1" "VirtualMachine" (Some (MkWireMeta name [] [] [])) (Some [("cpu", VFloat (f64_of_Z 4))]) None [] [].

Definition ex_editor : Principal := MkPrincipal "ed" RoleEditor false.

Lemma Apply_admission_witness :
  ∃ st', Apply [("proxmox", ex_proxmox)] (Some example_store) true (λ _, true) (Some ex_editor) SourceUI
      (MkApplyRequest (Some (ex_wire "web")) true false) "op-1" "t" (empty_db, tt) = (Ok "op-1", st') ∧
    ∃ o m, o ∈ db_ops st'.1 ∧ o_manifest o = JText m ∧ annotation annotAllowDestructive m = "true" ∧ o_source o = "ui".
Proof.
  destruct (Apply [("proxmox", ex_proxmox)] (Some example_store) true (λ _, true) (Some ex_editor) SourceUI
      (MkApplyRequest (Some (ex_wire "web")) true false) "op-1" "t" (empty_db, tt)) as [res st'] eqn:E.
  assert (res = Ok "op-1") as -> by (apply (f_equal fst) in E; vm_compute in E; by subst).
  exists st'. split; [done|]. pose proof (Apply_admission _ _ _ _ _ _ _ _ _ _ _ E) as H.
  cbv iota beta zeta in H.
  destruct H as (w & o & m & _ & _ & _ & _ & _ & _ & _ & Hin & Hrow & Hm & _ & _ & _ & _ & Hg & _).
  exists o, m. split; [exact Hin|]. split; [exact Hm|]. split; [apply Hg; left; reflexivity|].
  by injection Hrow as _ _ _ _ Hs.
Defined.

(** Deleting a child. The Delete RPC refuses, changing nothing, to delete a
    resource that another resource owns; the callback that main.go gives the
    GitOps watcher and the pruner makes no such check, so removing the file of
    an owned resource does submit its deletion. *)
Theorem owned_delete_only_by_gitops {W PE} (registry : list (string * Provider (db * W) PE)) store s wired who source k id now
    (st : db * W) owner :
  OwnerOf k.1.2 k.2 registry = Some owner →
  (∃ e, DeleteResource registry store wired who source k id now st = (Err e, st)) ∧
  (k.1.1 ≠ "" → k.1.2 ≠ "" → k.2 ≠ "" → db_releases st.1 !! k = None →
   (∀ o, o ∈ db_ops st.1 → o_key o = k → in_flight o = false) → id ∉ map o_id (db_ops st.1) →
   ∃ st' o, gitops_delete s id now k st = (Ok tt, st') ∧ o ∈ db_ops st'.1 ∧ o_type o = TypeDelete ∧ o_key o = k ∧
     o_status o = StatusPending).
Proof.
  intros Ho. split.
  - unfold DeleteResource. destruct owner as [okind oname].
    destruct (need_role who RoleEditor) as [[]|e]; simpl; [|by eexists].
    destruct (registered registry k.1.1) as [p|e]; simpl; [|by eexists].
    destruct (checkNotForgotten wired k st.1) as [[]|e]; simpl; [|by eexists]. rewrite Ho. by eexists.
  - intros H1 H2 H3 Hrel Hfl Hid. unfold gitops_delete.
    destruct (Submit s _ id now st.1) as [[d' row]|e] eqn:E.
    + apply Submit_Ok in E as (-> & Hin & _). eexists _, _. split; [done|]. by split.
    + exfalso. revert E. unfold Submit. destruct k as [[av kind] name]. simpl in *.
      rewrite decide_False by (intros [?|[?|[?|?]]]; done).
      assert (CheckNotForgotten st.1 (av, kind, name) = true) as -> by by apply CheckNotForgotten_true. simpl.
      destruct (list_find _ _) as [[i o]|] eqn:Ef.
      * apply list_find_Some in Ef as (Hi & [Hk Hf] & _). apply list_elem_of_lookup_2 in Hi. by rewrite (Hfl o Hi Hk) in Hf.
      * by rewrite decide_False.
Qed.

Lemma owned_delete_only_by_gitops_witness :
  OwnerOf "VirtualMachine" "node-1" [("proxmox", ex_proxmox (W := unit))] = Some ("Cluster", "prod") ∧
  ∃ st' o, gitops_delete (W := unit) example_store "op-7" "t" ("proxmox.openctl.io/v1", "VirtualMachine", "node-1") (empty_db, tt) = (Ok tt, st') ∧
    o ∈ db_ops st'.1 ∧ o_type o = TypeDelete.
Proof.
  split; [reflexivity|].
  destruct (owned_delete_only_by_gitops [("proxmox", ex_proxmox)] (Some example_store) example_store true None SourceCLI
    ("proxmox.openctl.io/v1", "VirtualMachine", "node-1") "op-7" "t" (empty_db, tt) ("Cluster", "prod") eq_refl) as [_ H].
  destruct H as (st' & o & H1 & H2 & H3 & _); [discriminate..|reflexivity| | |by exists st', o].
  - intros o Ho. by apply elem_of_nil in Ho.
  - intros Ho. by apply elem_of_nil in Ho.
Defined.

(** Running the error monad on an intermediate result that is known. *)
Ltac step := cbn [mbind result_bind fst snd mb_Version mb_Resource mb_ControllerId mb_ManifestDigest mb_Identity].

Section handover_laws.
Context {W PE : Type} (registry : list (string * Provider (db * W) PE)) (inf : PE → bool).
Context (Validate : resource → bool) (digest : value → string) (json_digest : resource → option string).

Lemma migrationResource_manifest w m p :
  migrationResource registry Validate (Some w) = Ok (m, p) → m = protoToResource w.
Proof.
  unfold migrationResource. repeat (case_match; try done). by intros [= <- _].
Qed.

Lemma validateMigrationBundle_Ok b b' :
  validateMigrationBundle (PE := PE) json_digest (Some b) = Ok b' →
  b' = b ∧ mb_ControllerId b ≠ "" ∧ mb_ManifestDigest b ≠ "".
Proof.
  unfold validateMigrationBundle. destruct (mb_Resource b); [|done]. case_decide as Hd; [done|].
  destruct (MigrationDigest _ _); [|done]. case_decide; [|done]. intros [= <-]. tauto.
Qed.

(** What a successful export hands out, and from what. *)
Lemma ExportResource_Ok wired gitops who k fresh st b st' :
  ExportResource registry inf wired gitops Validate json_digest who k fresh st = (Ok b, st') →
  ∃ r cid dg p identity, ExportMigration json_digest k fresh st.1 = Ok (st'.1, MkSnapshot cid dg r) ∧
    need_role (PE := PE) who RoleAdmin = Ok tt ∧ migrationReady (PE := PE) wired gitops = Ok tt ∧
    migrationResource registry Validate (Some (resourceToProto r)) = Ok (protoToResource (resourceToProto r), p) ∧
    identity_of inf p (protoToResource (resourceToProto r)) st' = Ok identity ∧
    b = MkBundle migrationBundleVersion (Some (resourceToProto r)) cid dg identity.
Proof.
  unfold ExportResource. destruct (need_role who RoleAdmin) as [[]|e]; [|done]. step.
  destruct (migrationReady wired gitops) as [[]|e]; [|done]. step. case_decide; [done|].
  destruct (ExportMigration _ _ _ _) as [[d [cid dg r]]|e]; [|done]. cbn [map_err snap_resource snap_controller snap_digest].
  destruct (migrationResource registry Validate _) as [[m p]|e] eqn:Em; [|done]. step.
  apply migrationResource_manifest in Em as Hm. subst m.
  destruct (identity_of _ _ _ _) as [identity|e] eqn:Ei; [|done]. step.
  case_decide; [done|]. intros [= <- <-]. by exists r, cid, dg, p, identity.
Qed.

(** What a successful adoption of a bundle recorded. *)
Lemma AdoptResource_bundle mirror float_v float_f who b now st out st' w :
  AdoptResource registry inf true mirror false Validate digest json_digest float_v float_f who None (Some b) "" now st = (Ok out, st') →
  mb_Resource b = Some w →
  let r := protoToResource w in
  validateMigrationBundle (PE := PE) json_digest (Some b) = Ok b ∧
  ∃ spec, encode_spec (r_spec r) = Ok spec ∧
    db_applied st'.1 !! resource_key r = Some (ManifestRow spec (JText (r_metadata r)) now (Hash_of digest r) "" SourceCLI) ∧
    db_releases st'.1 !! resource_key r = None.
Proof.
  intros Had Hw r. unfold AdoptResource in Had.
  destruct (adopt_checks _ _ _ _ _ _ _ _ _ _ _ _ _) as [[manifest out']|e] eqn:Ec; [|done].
  assert (manifest = r ∧ validateMigrationBundle (PE := PE) json_digest (Some b) = Ok b) as [-> Hvb].
  { revert Ec. unfold adopt_checks. destruct (need_role who RoleAdmin) as [[]|]; [|done]. step.
    destruct (migrationReady _ _) as [[]|]; [|done]. step.
    destruct (validateMigrationBundle _ _) as [b'|] eqn:Ev; [|done]. step.
    destruct (validateMigrationBundle_Ok _ _ Ev) as [-> _]. rewrite Hw.
    destruct (migrationResource registry Validate _) as [[m q]|] eqn:Em; [|done]. step.
    apply migrationResource_manifest in Em as ->. unfold with_context. rewrite decide_True by done.
    rewrite bool_decide_eq_true_2 by done. cbn [negb andb]. destruct (identity_of _ _ _ _); [|done]. step.
    destruct (decide _); [done|]. destruct (p_Get _ _ _ _) as [[]|]; [|done..].
    destruct (DriftSpecs _ _ _ _). by intros [= <- _]. }
  split; [done|]. destruct (Adopt digest json_digest r now st.1) as [d|] eqn:E; [|done].
  apply Adopt_Ok in E as (_ & _ & _ & Hsave). apply saveManifest_Ok in Hsave as (spec & Hspec & Hd).
  exists spec. split; [done|].
  assert (st'.1 = d) as ->; [|rewrite Hd; simpl; by rewrite lookup_insert_eq, lookup_delete_eq].
  destruct mirror as [mb|]; [|by injection Had as _ <-].
  pose proof (@materialize_db W mb r (d, st.2)) as Hm. destruct (@materialize W mb r (d, st.2)) as [ok st2].
  by injection Had as _ <-.
Qed.

(** A released resource cannot be touched. *)
Lemma released_refused store su k (st : db * W) who source id now :
  is_Some (db_releases st.1 !! k) →
  (∀ req w, aq_Resource req = Some w → resource_key (protoToResource w) = k →
     ∃ e, Apply registry store true Validate who source req id now st = (Err e, st)) ∧
  (∃ e, DeleteResource registry store true who source k id now st = (Err e, st)) ∧
  (∀ req, iq_key req = k → ∃ e, InvokeAction registry true su who req st = (Err e, st)).
Proof.
  intros Hrel. pose proof (checkNotForgotten_released (PE := PE) k st.1 Hrel) as Hcf. split_and!.
  - intros req w Hq Hkw. unfold Apply, check_apply. rewrite Hq. destruct (need_role who RoleEditor) as [[]|e]; [|by eexists].
    step. destruct (registered registry _); [|by eexists]. step.
    destruct (negb _); [by eexists|]. case_decide; [by eexists|]. rewrite Hkw, Hcf. by eexists.
  - unfold DeleteResource. destruct (need_role who RoleEditor) as [[]|e]; [|by eexists].
    step. destruct (registered registry _); [|by eexists]. step. rewrite Hcf. by eexists.
  - intros req Hq. unfold InvokeAction. rewrite Hq. destruct (need_role who RoleEditor) as [[]|e]; [|by eexists].
    step. case_decide; [by eexists|]. rewrite Hcf. by eexists.
Qed.
End handover_laws.

Lemma ExportMigration_Ok json_digest k fresh d d' cid dg r :
  ExportMigration json_digest k fresh d = Ok (d', MkSnapshot cid dg r) →
  migrationIdle d = Ok tt ∧ loadMigrationManifest k d = Ok (Some r) ∧
  migrationStandalone r d = Ok tt ∧ migrationControllerID fresh d = (d', cid) ∧ MigrationDigest json_digest r = Ok dg.
Proof.
  unfold ExportMigration. rewrite bind_Ok. intros ([] & Hi & H).
  destruct (CheckNotForgotten d k) eqn:Hc; [|done]. simpl in H.
  rewrite bind_Ok in H. destruct H as ([x|] & Hl & H); [|done]. rewrite bind_Ok in H. destruct H as ([] & Hs & H).
  destruct (migrationControllerID fresh d) as [d1 id] eqn:E. rewrite bind_Ok in H.
  destruct H as (g & Hg & [= <- <- <- <-]). done.
Qed.

(** The store accepts the release of what it has just exported. *)
Lemma Forget_exported json_digest k fresh fresh' now d d' cid dg r :
  ExportMigration json_digest k fresh d = Ok (d', MkSnapshot cid dg r) → resource_key r = k → cid ≠ "" → dg ≠ "" →
  Forget json_digest r cid dg fresh' now d' =
    Ok (set_applied (set_releases d' (<[k := ReleaseRow dg now]> (db_releases d'))) (delete k (db_applied d'))).
Proof.
  intros (Hidle & Hl & Hsa & Hcid & Hdg)%ExportMigration_Ok Hkey Hc Hd.
  destruct (migrationControllerID_tables _ _ _ _ Hcid) as (Ho & Ha & Hr & Hs & Hm).
  assert (validateMigrationResource r = Ok tt) as Hval.
  { revert Hsa. unfold migrationStandalone. by destruct (validateMigrationResource r) as [[]|]. }
  unfold Forget. rewrite Hval. step. rewrite Hdg. step. rewrite decide_False by naive_solver.
  unfold migrationIdle in *. rewrite Ho, Hidle. step.
  unfold migrationControllerID. rewrite Hm, decide_False by naive_solver.
  unfold loadMigrationManifest in *. rewrite Hkey, Ha, Hl. step. rewrite Hdg. step. rewrite decide_True by done.
  unfold migrationStandalone in *. rewrite Hs, Ha, Hsa. by step.
Qed.

Lemma ExportMigration_key json_digest k fresh d d' cid dg r :
  ExportMigration json_digest k fresh d = Ok (d', MkSnapshot cid dg r) → r_name r = k.2 → resource_key r = k.
Proof.
  intros (_ & Hl & _)%ExportMigration_Ok Hn. unfold resource_key. rewrite Hn. revert Hl. unfold loadMigrationManifest.
  destruct k as [[av kind] n]. destruct (db_applied d !! _) as [row|]; [|done].
  destruct (mr_spec row); [done..|]. by destruct (mr_meta row); [|done|]; intros [= <-].
Qed.

(** C8: Handing a resource over. When a controller exports a resource whose
    manifest the wire carries exactly, and another controller adopts the
    bundle: the adopter manages it with the very same manifest and no release;
    the exporter, if asked to forget in the state the export left, accepts the
    bundle (only the disk projection may fail), and in the state this leaves it does
    not manage the resource, and refuses every Apply, Delete and action on it,
    changing nothing. *)
Theorem migration_handover {WA WB PE} (regA : list (string * Provider (db * WA) PE)) (regB : list (string * Provider (db * WB) PE))
    inf mirA mirB store Validate digest json_digest su float_v float_f who k fresh fresh' nowA nowB stA stA1 b stB out stB1 r :
  ExportResource regA inf true false Validate json_digest who k fresh stA = (Ok b, stA1) →
  loadMigrationManifest k stA.1 = Ok (Some r) → wire_exact r → r_name r = k.2 →
  AdoptResource regB inf true mirB false Validate digest json_digest float_v float_f who None (Some b) "" nowB stB = (Ok out, stB1) →
  (Load k stB1.1 = Ok (Some r) ∧ db_releases stB1.1 !! k = None) ∧
  let '(res, stA2) := ForgetResource regA inf true mirA false Validate json_digest who (Some b) fresh' nowA stA1 in
  (res = Ok tt ∨ mirA ≠ None ∧ res = Err (Internal, ProjectionFailed)) ∧
  db_applied stA2.1 !! k = None ∧ is_Some (db_releases stA2.1 !! k) ∧
  ∀ who' source id now,
    (∀ req w, aq_Resource req = Some w → resource_key (protoToResource w) = k →
       ∃ e, Apply regA store true Validate who' source req id now stA2 = (Err e, stA2)) ∧
    (∃ e, DeleteResource regA store true who' source k id now stA2 = (Err e, stA2)) ∧
    (∀ req, iq_key req = k → ∃ e, InvokeAction regA true su who' req stA2 = (Err e, stA2)).
Proof.
  intros Hex Hl Hw Hn Had.
  apply ExportResource_Ok in Hex as (r' & cid & dg & p & identity & Hex & Hrole & Hready & Hres & Hid & ->).
  pose proof (ExportMigration_Ok _ _ _ _ _ _ _ _ Hex) as (_ & Hl' & _). rewrite Hl in Hl'. injection Hl' as <-.
  pose proof (ExportMigration_key _ _ _ _ _ _ _ _ Hex Hn) as Hkey.
  apply (AdoptResource_bundle regB) with (w := resourceToProto r) in Had as (Hvb & spec & Hspec & Happ & Hrel); [|done].
  rewrite Hw in *. rewrite Hkey in Happ, Hrel. split; [split; [|done]|].
  { unfold Load, LoadWithTime. rewrite Happ. simpl. pose proof (wire_exact_spec r Hw) as Hjs.
    assert (spec = JText (r_spec r)) as ->.
    { revert Hspec Hjs. unfold encode_spec. destruct (r_spec r) as [sp|]; [|by intros [= <-]].
      destruct (json_ok _); [|done]. intros [= <-] Hjs. f_equal. exact Hjs. }
    simpl. do 2 f_equal. unfold resource_key in Hkey. rewrite <-Hkey. simpl.
    unfold loadMigrationManifest in Hl. destruct (db_applied stA.1 !! k) as [row|]; [|done].
    destruct (mr_spec row); [done..|]. by destruct (mr_meta row); [|done|]; injection Hl as <-. }
  destruct (validateMigrationBundle_Ok _ _ _ Hvb) as (_ & Hc & Hd).
  destruct (ForgetResource _ _ _ _ _ _ _ _ _ _ _ _) as [res stA2] eqn:Ef. revert Ef.
  unfold ForgetResource. rewrite Hrole, Hready. step. unfold validateMigrationBundle in *. rewrite Hvb.
  step. rewrite Hres. step. rewrite Hid. step. rewrite decide_True by done. step.
  rewrite (Forget_exported _ _ _ _ _ _ _ _ _ _ Hex Hkey Hc Hd), Hkey. set (dA := set_applied _ _). intros Hfin.
  assert ((res = Ok tt ∨ mirA ≠ None ∧ res = Err (Internal, ProjectionFailed)) ∧ stA2.1 = dA) as [Hres' HA].
  { destruct mirA as [ma|]; [|injection Hfin as <- <-; by split; [left|]].
    pose proof (@remove_projection_db WA ma k (dA, stA1.2)) as Hd'.
    destruct (@remove_projection WA ma k (dA, stA1.2)) as [ok st2]. injection Hfin as <- <-. split; [|exact Hd'].
    destruct ok; [by left|right; by split]. }
  split; [done|]. rewrite HA. split; [by apply lookup_delete_eq|].
  assert (is_Some (db_releases dA !! k)) as Hrl by (simpl; rewrite lookup_insert_eq; by eexists).
  split; [done|]. intros who' source id now. apply released_refused. by rewrite HA.
Qed.

Definition ex_dg (r : resource) : option string := Some ("dg-" +:+ r_name r).
Definition ex_source_db : db :=
  ok_or (SaveWithRefsHash ex_digest "" (Some (protoToResource (ex_wire "web"))) "" "t0" empty_db) empty_db.
Definition ex_web_key : rkey := ("proxmox.openctl.io/v1", "VirtualMachine", "web").
Definition ex_registry {W} : list (string * Provider (db * W) string) := [("proxmox", ex_proxmox)].

Definition ex_export : result (code * reason (PE := string)) MigrationBundle * (db * unit) :=
  ExportResource ex_registry (λ _, false) true false (λ _, true) ex_dg None ex_web_key "ctl-1" (ex_source_db, tt).
Definition ex_bundle : MigrationBundle := ok_or ex_export.1 (MkBundle 0 None "" "" "").
Definition ex_adopt : result (code * reason (PE := string)) wire * (db * nat) :=
  AdoptResource ex_registry (λ _, false) true None false (λ _, true) ex_digest ex_dg ex_float ex_float None None (Some ex_bundle) "" "t1"
    (empty_db, 0).

Lemma migration_handover_witness :
  is_ok ex_export.1 = true ∧ is_ok ex_adopt.1 = true ∧ Load ex_web_key ex_adopt.2.1 = Ok (Some (protoToResource (ex_wire "web"))) ∧
  db_applied (ForgetResource ex_registry (λ _, false) true None false (λ _, true) ex_dg None (Some ex_bundle) "ctl-9" "t2" ex_export.2).2.1
    !! ex_web_key = None.
Proof.
  assert (is_ok ex_export.1 = true) as H1 by (vm_compute; reflexivity).
  assert (is_ok ex_adopt.1 = true) as H2 by (vm_compute; reflexivity).
  split; [exact H1|]. split; [exact H2|].
  destruct (migration_handover ex_registry ex_registry (λ _, false) None None None (λ _, true) ex_digest ex_dg (λ _, false)
    ex_float ex_float None ex_web_key "ctl-1" "ctl-9" "t2" "t1" (ex_source_db, tt) ex_export.2 ex_bundle (empty_db, 0)
    (ok_or ex_adopt.1 (ex_wire "")) ex_adopt.2 (protoToResource (ex_wire "web"))) as [[H3 _] H4].
  - exact (run_ok ex_export _ H1).
  - vm_compute. reflexivity.
  - vm_compute. reflexivity.
  - reflexivity.
  - exact (run_ok ex_adopt _ H2).
  - split; [exact H3|]. destruct (ForgetResource _ _ _ _ _ _ _ _ _ _ _ _) as [res stA2]. exact (proj1 (proj2 H4)).
Defined.

(** A destructive gate stays open. The flag of one Apply is recorded as an
    annotation of the manifest; once that manifest is saved as the desired
    state, what is loaded from it carries the annotation, so the reconciler's
    resubmission of the desired state, and an Apply of what Get returned with
    both flags off, ask again for the destructive change. *)
Theorem destructive_gate_is_sticky {W PE} (registry : list (string * Provider (db * W) PE)) s Validate digest who source w iknow id now st
    opid st1 o m ctx rh now2 d d' :
  Apply registry (Some s) true Validate who source (MkApplyRequest (Some w) true iknow) id now st = (Ok opid, st1) →
  find_op st1.1 opid = Some o → ops_inv st1.1 → o_manifest o = JText m →
  SaveWithRefsHash digest ctx (Some m) rh now2 d = Ok d' →
  ∃ r, Load (resource_key m) d' = Ok (Some r) ∧ annotation annotAllowDestructive r = "true" ∧
    (∀ s' id' now' (st' : db * W) res st'', auto_apply s' id' now' r st' = (Ok res, st'') →
       ∃ o' m', o' ∈ db_ops st''.1 ∧ o_manifest o' = JText m' ∧ annotation annotAllowDestructive m' = "true") ∧
    (∀ who' source' id' now' st' res st'',
       Apply registry (Some s) true Validate who' source' (MkApplyRequest (Some (resourceToProto r)) false false) id' now' st' = (Ok res, st'') →
       ∃ o' m', o' ∈ db_ops st''.1 ∧ o_manifest o' = JText m' ∧ annotation annotAllowDestructive m' = "true").
Proof.
  intros Ha Hfind Hinv Hm Hsave. apply Apply_Ok in Ha as (r0 & m0 & Had & Hj & -> & _ & Hsub).
  apply Submit_Ok in Hsub as (_ & Hin & _). apply (find_op_in _ _ Hinv) in Hin. simpl in Hin.
  rewrite Hfind in Hin. injection Hin as ->. simpl in Hm. injection Hm as ->.
  apply check_apply_Ok in Had as (w0 & [= <-] & _ & _ & _ & _ & _ & ->). apply json_resource_meta in Hj as (Hmd & _).
  eexists. split; [exact (load_saved _ _ _ _ _ _ _ Hsave)|].
  assert (annotation annotAllowDestructive m = "true") as Hgate.
  { unfold annotation, r_annotations. rewrite Hmd. apply set_gates_open. by left. }
  split; [exact Hgate|]. split.
  - intros s' id' now' st' res st''. unfold auto_apply, submit_manifest.
    destruct (json_resource _) as [m'|] eqn:Hj'; [|done]. apply json_resource_meta in Hj' as (Hmd' & _).
    destruct (Submit s' _ _ _ _) as [[d2 row]|] eqn:E; [|done]. intros [= _ <-].
    apply Submit_Ok in E as (-> & Hin' & _). eexists _, m'. split; [exact Hin'|]. split; [done|].
    unfold annotation, r_annotations. by rewrite Hmd'.
  - intros who' source' id' now' st' res st'' (r1 & m1 & Had1 & Hj1 & _ & _ & Hsub1)%Apply_Ok.
    apply Submit_Ok in Hsub1 as (_ & Hin1 & _). eexists _, m1. split; [exact Hin1|]. split; [done|].
    apply check_apply_Ok in Had1 as (w1 & [= <-] & _ & _ & _ & _ & _ & ->). apply json_resource_meta in Hj1 as (Hmd1 & _).
    unfold annotation, r_annotations. rewrite Hmd1. exact Hgate.
Qed.

Definition ex_gated : result (code * reason (PE := string)) string * (db * unit) :=
  Apply ex_registry (Some example_store) true (λ _, true) (Some ex_editor) SourceUI
    (MkApplyRequest (Some (ex_wire "web")) true false) "op-1" "t" (empty_db, tt).
Definition ex_gated_op : Operation := default (example_op "") (find_op ex_gated.2.1 "op-1").
Definition ex_gated_manifest : resource :=
  match o_manifest ex_gated_op with JText m => m | _ => protoToResource (ex_wire "") end.
Definition ex_gated_saved : result store_error db := SaveWithRefsHash ex_digest "" (Some ex_gated_manifest) "" "t2" empty_db.

Lemma destructive_gate_is_sticky_witness :
  ∃ r, Load (resource_key ex_gated_manifest) (ok_or ex_gated_saved empty_db) = Ok (Some r) ∧ annotation annotAllowDestructive r = "true".
Proof.
  assert (is_ok ex_gated.1 = true ∧ ok_or ex_gated.1 "" = "op-1") as [H1 H2] by (split; vm_compute; reflexivity).
  assert (Apply ex_registry (Some example_store) true (λ _, true) (Some ex_editor) SourceUI
    (MkApplyRequest (Some (ex_wire "web")) true false) "op-1" "t" (empty_db, tt) = (Ok "op-1", ex_gated.2)) as E
    by (rewrite <-H2; exact (run_ok ex_gated "" H1)).
  destruct (destructive_gate_is_sticky ex_registry example_store (λ _, true) ex_digest (Some ex_editor) SourceUI (ex_wire "web") false
    "op-1" "t" (empty_db, tt) "op-1" ex_gated.2 ex_gated_op ex_gated_manifest "" "" "t2" empty_db (ok_or ex_gated_saved empty_db) E)
    as (r & H3 & H4 & _).
  - vm_compute. reflexivity.
  - apply (ops_inv_step example_store empty_db); [by apply ops_inv_empty|].
    apply Apply_Ok in E as (r0 & m0 & _ & _ & _ & _ & Hs). by eapply step_submit.
  - vm_compute. reflexivity.
  - vm_compute. reflexivity.
  - exists r. split; [exact H3|exact H4].
Defined.
