(* ===== verification/Reconciler.v ===== *)
(** The drift reconciler: src/internal/controller/reconciler/reconciler.go. Each
    pass reads every applied resource from its provider, logs when its drift
    status flips and, for resources that opted in, enqueues an apply of the
    stored manifest with exponential backoff. Times and durations are
    nanoseconds; the readings of the clock are arguments. *)
From S2P Require Import Prelude GoStrings GoValue Hash Db OpStore ManifestStore Registry Drift.
From Corelib Require Import Floats.SpecFloat.

Definition AutoReconcileAnnotation : string := "openctl.io/autoReconcile".
Definition second : Z := 1000000000.
Definition AutoReconcileMinBackoff : Z := 30 * second.
Definition AutoReconcileMaxBackoff : Z := 3600 * second.

(** [backoffState]; [None] is the zero time. *)
Record backoffState : Type := MkBackoff { nextAttemptAt : option Z; current : Z }.

(** What is logged about a resource. *)
Inductive drift_log : Type :=
| LogDetected (key : string)
| LogCleared (key : string).

Record reconciler : Type := MkReconciler {
  driftState : gmap string bool;
  backoff : gmap string backoffState;
  logged : list drift_log;
}.

Definition New : reconciler := MkReconciler ∅ ∅ [].

(** [markAndLogIfChanged] *)
Definition markAndLogIfChanged (key : string) (drifted : bool) (r : reconciler) : reconciler :=
  let line := if drifted then LogDetected key else LogCleared key in
  let log' :=
    match driftState r !! key with
    | None => if drifted then logged r ++ [line] else logged r
    | Some prev => if decide (prev = drifted) then logged r else logged r ++ [line]
    end in
  MkReconciler (<[key := drifted]> (driftState r)) (backoff r) log'.

(** [shouldAutoReconcile] *)
Definition shouldAutoReconcile (desired : resource) : bool :=
  bool_decide (annotation AutoReconcileAnnotation desired = "true").

(** The backoff after a failure that ended at [after]. *)
Definition next_wait (cur : Z) : Z :=
  if decide (cur = 0%Z) then AutoReconcileMinBackoff
  else let c := (cur * 2)%Z in
       if (AutoReconcileMaxBackoff <? c)%Z then AutoReconcileMaxBackoff else c.

Definition in_backoff (bs : backoffState) (now : Z) : bool :=
  match nextAttemptAt bs with None => false | Some t => (now - t <? 0)%Z end.

Definition set_backoff (key : string) (bs : backoffState) (r : reconciler) : reconciler :=
  MkReconciler (driftState r) (<[key := bs]> (backoff r)) (logged r).

Definition clean_backoff : backoffState := MkBackoff None 0.

Section reconciler.
Context {W PE : Type}.
Abbreviation St := (db * W)%type.
Context (registry : list (string * Provider St PE)).
(** [errors.As(err, *NotFoundError)], and the formatting of floats. *)
Context (is_not_found : PE → bool) (float_v : spec_float → string).

(** [AutoApplyFunc] *)
Abbreviation AutoApply := (resource → St → result unit unit * St).

(** [tryAutoApply]; [now] and [after] are the clock before and after the apply. *)
Definition tryAutoApply (autoApply : AutoApply) (key : string) (desired : resource) (now after : Z)
    (r : reconciler) (st : St) : reconciler * St :=
  let bs := default clean_backoff (backoff r !! key) in
  if in_backoff bs now then (set_backoff key bs r, st)
  else
    match autoApply desired st with
    | (Ok _, st') => (set_backoff key clean_backoff r, st')
    | (Err _, st') =>
        let c := next_wait (current bs) in
        (set_backoff key (MkBackoff (Some (after + c)%Z) c) r, st')
    end.

Definition ref_text (k : rkey) : string := k.1.1 +:+ "/" +:+ k.1.2 +:+ "/" +:+ k.2.

(** [reconcileOne]; [None] is the panic when a provider returns nil without an
    error. *)
Definition reconcileOne (autoApply : option AutoApply) (ref : manifest_ref) (now after : Z)
    (r : reconciler) (st : St) : option (reconciler * St) :=
  let k := mref_key ref in
  let key := ref_text k in
  match For k.1.1 registry with
  | Err _ => Some (r, st)
  | Ok p =>
      match p_Get p k.1.2 k.2 st with
      | Err e => if is_not_found e then Some (markAndLogIfChanged key true r, st) else Some (r, st)
      | Ok observed =>
          match Load k st.1 with
          | Err _ | Ok None => Some (r, st)
          | Ok (Some desired) =>
              match observed with
              | None => None
              | Some o =>
                  let '(ds, os) := DriftSpecs p k.1.2 (r_spec desired) (r_spec o) in
                  let drifted := negb (specsEqual float_v ds os) in
                  let r1 := markAndLogIfChanged key drifted r in
                  match autoApply with
                  | Some f =>
                      if drifted && shouldAutoReconcile desired
                      then Some (tryAutoApply f key desired now after r1 st)
                      else Some (r1, st)
                  | None => Some (r1, st)
                  end
              end
          end
      end
  end.

(** The loop of [tick]; [alive] tells whether the context is still live when a
    resource's turn comes, the clock readings may depend on the resource. *)
Fixpoint tick_refs (autoApply : option AutoApply) (alive : rkey → bool) (now after : rkey → Z)
    (refs : list manifest_ref) (r : reconciler) (st : St) : option (reconciler * St) :=
  match refs with
  | [] => Some (r, st)
  | ref :: refs' =>
      let k := mref_key ref in
      if alive k then
        match reconcileOne autoApply ref (now k) (after k) r st with
        | None => None
        | Some (r', st') => tick_refs autoApply alive now after refs' r' st'
        end
      else Some (r, st)
  end.

(** [tick] *)
Definition tick (autoApply : option AutoApply) (alive : rkey → bool) (now after : rkey → Z)
    (r : reconciler) (st : St) : option (reconciler * St) :=
  tick_refs autoApply alive now after (ListAll st.1) r st.

(** ** Laws *)

(** The wait after [n + 1] failures in a row. *)
Lemma next_wait_iter n :
  Nat.iter (S n) next_wait 0%Z = Z.min (AutoReconcileMinBackoff * 2 ^ Z.of_nat n) AutoReconcileMaxBackoff.
Proof.
  induction n as [|n IH]; [vm_compute; reflexivity|].
  change (Nat.iter (S (S n)) next_wait 0%Z) with (next_wait (Nat.iter (S n) next_wait 0%Z)).
  rewrite IH. unfold next_wait. rewrite Nat2Z.inj_succ, Z.pow_succ_r by lia.
  assert (0 < 2 ^ Z.of_nat n)%Z as Hp by (apply Z.pow_pos_nonneg; lia).
  unfold AutoReconcileMinBackoff, AutoReconcileMaxBackoff, second.
  rewrite decide_False by lia.
  destruct (Z.ltb_spec (3600 * 1000000000)
    (Z.min (30 * 1000000000 * 2 ^ Z.of_nat n) (3600 * 1000000000) * 2)); lia.
Qed.

(** A run of failed attempts on one resource: [n] failures since the last success
    or the start, the last one ending at [last]. *)
Inductive failing (f : AutoApply) (key : string) (desired : resource) : nat → Z → reconciler → Prop :=
| failing_start r last : default clean_backoff (backoff r !! key) = clean_backoff → failing f key desired 0 last r
| failing_skip n last r st now after :
    failing f key desired n last r → in_backoff (default clean_backoff (backoff r !! key)) now = true →
    failing f key desired n last (tryAutoApply f key desired now after r st).1
| failing_fail n last r st now after e st' :
    failing f key desired n last r → in_backoff (default clean_backoff (backoff r !! key)) now = false →
    f desired st = (Err e, st') →
    failing f key desired (S n) after (tryAutoApply f key desired now after r st).1
| failing_other n last r r' :
    failing f key desired n last r → backoff r' !! key = backoff r !! key → failing f key desired n last r'.

Lemma set_backoff_same key bs r : backoff (set_backoff key bs r) !! key = Some bs.
Proof. apply lookup_insert_eq. Qed.

Lemma failing_backoff f key desired n last r :
  failing f key desired n last r →
  default clean_backoff (backoff r !! key) =
    match n with
    | 0 => clean_backoff
    | S _ => MkBackoff (Some (last + Nat.iter n next_wait 0%Z)%Z) (Nat.iter n next_wait 0%Z)
    end.
Proof.
  induction 1 as [r last H|n last r st now after _ IH Hb|n last r st now after e st' _ IH Hb Hf|n last r r' _ IH ->];
    try done.
  - unfold tryAutoApply. rewrite Hb. cbn [fst]. by rewrite set_backoff_same.
  - unfold tryAutoApply. rewrite Hb, Hf. cbn [fst]. rewrite set_backoff_same. cbn [default from_option id].
    rewrite IH. by destruct n.
Qed.

(** The lines logged about a key, [true] for a detection. *)
Definition lines_of (key : string) (l : list drift_log) : list bool :=
  omap (λ x, match x with
             | LogDetected k => if decide (k = key) then Some true else None
             | LogCleared k => if decide (k = key) then Some false else None
             end) l.

(** The changes in a sequence of statuses that starts clean. *)
Fixpoint flips (prev : bool) (obs : list bool) : list bool :=
  match obs with
  | [] => []
  | b :: obs' => if decide (prev = b) then flips b obs' else b :: flips b obs'
  end.

Definition mark_all (obs : list (string * bool)) (r : reconciler) : reconciler :=
  fold_left (λ r o, markAndLogIfChanged o.1 o.2 r) obs r.

Definition status_of (key : string) (obs : list (string * bool)) : list bool :=
  omap (λ o, if decide (o.1 = key) then Some o.2 else None) obs.

Lemma lines_of_snoc key l x : lines_of key (l ++ [x]) = lines_of key l ++ lines_of key [x].
Proof. apply omap_app. Qed.

Lemma mark_lines key k b r :
  lines_of key (logged (markAndLogIfChanged k b r)) =
    lines_of key (logged r) ++
    (if decide (k = key) then flips (default false (driftState r !! key)) [b] else []).
Proof.
  unfold markAndLogIfChanged. cbn [logged]. destruct (decide (k = key)) as [->|Hne].
  - destruct (driftState r !! key) as [prev|]; cbn [default from_option id flips].
    + case_decide; [by rewrite app_nil_r|]. rewrite lines_of_snoc. f_equal.
      unfold lines_of. destruct b; simpl; by rewrite decide_True.
    + destruct b; [|by rewrite app_nil_r]. rewrite lines_of_snoc. f_equal.
      unfold lines_of. simpl. by rewrite decide_True.
  - rewrite app_nil_r.
    assert (lines_of key [if b then LogDetected k else LogCleared k] = []) as Hl.
    { unfold lines_of. destruct b; simpl; by rewrite decide_False. }
    destruct (driftState r !! k) as [prev|].
    + case_decide; [done|]. by rewrite lines_of_snoc, Hl, app_nil_r.
    + destruct b; [|done]. by rewrite lines_of_snoc, Hl, app_nil_r.
Qed.

Lemma flips_cons prev b obs : flips prev (b :: obs) = flips prev [b] ++ flips b obs.
Proof. simpl. by case_decide. Qed.

Lemma mark_all_lines key obs r :
  lines_of key (logged (mark_all obs r)) =
    lines_of key (logged r) ++ flips (default false (driftState r !! key)) (status_of key obs).
Proof.
  revert r; induction obs as [|[k b] obs IH]; intros r; [by rewrite app_nil_r|].
  change (mark_all ((k, b) :: obs) r) with (mark_all obs (markAndLogIfChanged k b r)).
  rewrite IH, mark_lines. unfold status_of. cbn [omap list_omap fst snd]. cbn [driftState markAndLogIfChanged].
  destruct (decide (k = key)) as [->|Hne].
  - rewrite lookup_insert_eq. cbn [default from_option id].
    rewrite (flips_cons _ b (omap _ obs)). by rewrite (assoc_L (++)).
  - rewrite lookup_insert_ne by done. by rewrite app_nil_r.
Qed.
End reconciler.

(** ** Properties *)

(** Auto-remediation backs off exponentially: after [n + 1] failed attempts
    in a row, the last one ending at [last], no attempt is made before
    [last + min (30s * 2^n, 1h)]; a later attempt that succeeds clears the
    backoff. *)
Theorem auto_backoff {W PE} (registry : list (string * Provider (db * W) PE)) f key desired n last r now after
    (st : db * W) :
  failing f key desired (S n) last r →
  let wait := Z.min (AutoReconcileMinBackoff * 2 ^ Z.of_nat n) AutoReconcileMaxBackoff in
  ((now < last + wait)%Z → (tryAutoApply f key desired now after r st).2 = st) ∧
  ((last + wait ≤ now)%Z →
     (tryAutoApply f key desired now after r st).2 = (f desired st).2 ∧
     ((f desired st).1 = Ok tt →
      backoff (tryAutoApply f key desired now after r st).1 !! key = Some clean_backoff)).
Proof.
  intros H wait. apply failing_backoff in H. rewrite next_wait_iter in H. fold wait in H.
  assert (in_backoff (default clean_backoff (backoff r !! key)) now = (now - (last + wait) <? 0)%Z) as Hb by by rewrite H.
  unfold tryAutoApply. rewrite Hb. split; intros Hn.
  - by rewrite (proj2 (Z.ltb_lt _ _)) by lia.
  - rewrite (proj2 (Z.ltb_ge _ _)) by lia. destruct (f desired st) as [[[]|e] st']; split; try done.
    intros _. apply set_backoff_same.
Qed.

Definition ex_refuse (r : resource) (st : db * unit) : result unit unit * (db * unit) := (Err tt, st).
Definition ex_auto : resource :=
  Resource "proxmox.openctl.io/v1" "VirtualMachine"
    (ResourceMetadata "web" "" [] [(AutoReconcileAnnotation, "true")] "" "") None None.

Lemma auto_backoff_witness :
  let r1 := (tryAutoApply ex_refuse "web" ex_auto 0 0 New (empty_db, tt)).1 in
  (tryAutoApply ex_refuse "web" ex_auto (29 * second) (29 * second) r1 (empty_db, tt)).2 = (empty_db, tt) ∧
  backoff r1 !! "web" = Some (MkBackoff (Some (30 * second)%Z) (30 * second)).
Proof.
  cbv zeta. split; [|vm_compute; reflexivity].
  refine (proj1 (auto_backoff (PE := string) [] ex_refuse "web" ex_auto 0 0 _ (29 * second) (29 * second)
    (empty_db, tt) _) _).
  - apply (failing_fail _ _ _ 0 0 New (empty_db, tt) 0 0 tt (empty_db, tt)).
    + apply failing_start. vm_compute. reflexivity.
    + vm_compute. reflexivity.
    + reflexivity.
  - vm_compute. reflexivity.
Defined.

(** The log shows exactly the drift transitions: whatever statuses a
    resource goes through, interleaved with others, its lines are the changes of
    that sequence starting from clean, so they alternate and begin with a
    detection. *)
Theorem drift_log_transitions key obs :
  lines_of key (logged (mark_all obs New)) = flips false (status_of key obs).
Proof. apply (mark_all_lines key obs New). Qed.

(** The reconciler only ever acts on resources that opted in: a pass over
    one resource changes nothing but its own bookkeeping, unless an apply
    function is configured, the provider reports the resource with a spec that
    differs from the stored manifest, the stored manifest carries the annotation
    ["true"] and no backoff is pending; then it applies exactly the stored
    manifest. *)
Theorem reconcile_opt_in {W PE} (registry : list (string * Provider (db * W) PE)) is_not_found float_v
    autoApply ref now after r st r' st' :
  reconcileOne registry is_not_found float_v autoApply ref now after r st = Some (r', st') →
  let k := mref_key ref in
  st' = st ∨
  ∃ f p desired observed,
    autoApply = Some f ∧ For k.1.1 registry = Ok p ∧ p_Get p k.1.2 k.2 st = Ok (Some observed) ∧
    Load k st.1 = Ok (Some desired) ∧ annotation AutoReconcileAnnotation desired = "true" ∧
    (∀ ds os, DriftSpecs p k.1.2 (r_spec desired) (r_spec observed) = (ds, os) → specsEqual float_v ds os = false) ∧
    in_backoff (default clean_backoff (backoff r !! ref_text k)) now = false ∧
    st' = (f desired st).2.
Proof.
  intros H k. unfold reconcileOne in H. fold k in H. destruct (For k.1.1 registry) as [p|] eqn:EF; [|left; congruence].
  destruct (p_Get p k.1.2 k.2 st) as [observed|e] eqn:EG; [|left; destruct (is_not_found e); congruence].
  destruct (Load k st.1) as [[desired|]|] eqn:EL; [|left; congruence..].
  destruct observed as [observed|]; [|done].
  destruct (DriftSpecs _ _ _ _) as [ds os] eqn:ED.
  destruct autoApply as [f|]; [|left; congruence].
  destruct (negb _ && _) eqn:EB; [|left; congruence].
  bool_to_prop. unfold shouldAutoReconcile in *. bool_to_prop.
  unfold tryAutoApply in H. cbn [backoff markAndLogIfChanged] in H.
  destruct (in_backoff _ now) eqn:EI; [left; congruence|right].
  exists f, p, desired, observed. split_and!; try done.
  - intros ds' os' Heq. rewrite ED in Heq. by injection Heq as <- <-.
  - destruct (f desired st) as [[[]|e] st1]; by injection H as _ <-.
Qed.

Definition ex_auto_db : db := ok_or (SaveWithRefsHash ex_digest "" (Some ex_auto) "" "t" empty_db) empty_db.
Definition ex_drifting : Provider (db * nat) string :=
  MkProvider "proxmox" ["VirtualMachine"] (λ r st, (Ok (Some r), st)) (λ _ _ _, Ok (Some ex_auto))
    (λ _ _, Ok []) (λ _ _ st, (Ok tt, st)) (Some (λ _ _ _, (Some [("cpu", VInt 1)], Some []))) None None None None None None None None.

Lemma reconcile_opt_in_witness :
  match reconcileOne [("proxmox", ex_drifting)] (λ _, false) (λ _, "") (Some (λ _ st, (Ok tt, (st.1, S st.2))))
    (MkManifestRef (resource_key ex_auto) "") 0 0 New (ex_auto_db, 0) with
  | Some (r', st') => st'.2 = 1 ∧ (st' = (ex_auto_db, 0) ∨ ∃ f : resource → db * nat → result unit unit * (db * nat), st' = (f ex_auto (ex_auto_db, 0)).2)
  | None => False
  end.
Proof.
  destruct (reconcileOne _ _ _ _ _ _ _ _ _) as [[r' st']|] eqn:E.
  - split; [apply (f_equal (λ x, match x with Some p => p.2.2 | None => 0 end)) in E; vm_compute in E; by rewrite E|].
    destruct (reconcile_opt_in _ _ _ _ _ _ _ _ _ _ _ E) as [->|(f & p & desired & o & [= <-] & _ & _ & _ & _ & _ & _ & ->)];
      [by left|right]. exists (λ _ st, (Ok tt, (st.1, S st.2)) : result unit unit * (db * nat)). reflexivity.
  - apply (f_equal (λ x, match x with Some p => true | None => false end)) in E. vm_compute in E. discriminate E.
Defined.
