(* ===== verification/ClusterSpec.v ===== *)
(** The K3s cluster spec: src/pkg/k3s/resources/cluster.go. Parsing of the
    dynamically typed manifest, node names, placement and static addresses. A Go
    [int] is a [Z]; [int(f)] of a float64 is [Z_of_f64]. *)
From S2P Require Import Prelude GoStrings GoValue.
From Stdlib Require Import Ascii.

Record StaticIPSpec : Type := MkStaticIP { StartIP : string; Gateway : string; Netmask : string }.
Record NetworkBlock : Type := MkBlock { nb_Bridge : string; nb_StaticIPs : option StaticIPSpec }.
Record NetworkSpec : Type := MkNetwork {
  net_Bridge : string; net_DHCP : bool; net_StaticIPs : option StaticIPSpec;
  net_PerContext : list (string * NetworkBlock) }.
Record PlacementTarget : Type := MkTarget { t_Context : string; t_Node : string }.
Record ImageSpec : Type := MkImage { URL : string; Template : string; Storage : string; DiskStorage : string }.
Record DefaultSizeSpec : Type := MkSize { CPUs : Z; MemoryMB : Z; DiskGB : Z }.
Record PCIDevice : Type := MkPCI { Device : string; Mapping : string; PrimaryGPU : bool; MDev : string }.
Record GPUSpec : Type := MkGPU { Devices : list PCIDevice; EFIStorage : string; CPUType : string }.
Record NodePrepSpec : Type := MkNodePrep { Packages : list string; RunCmd : list string }.

(** [ControlPlaneSpec] and [WorkerSpec] differ only in the name. *)
Record WorkerSpec : Type := MkPool {
  p_Name : string;
  p_Count : Z;
  p_Size : option DefaultSizeSpec;
  p_Context : string;
  p_Nodes : list string;
  p_Targets : list PlacementTarget;
  p_GPU : option GPUSpec;
  p_NodePrep : option NodePrepSpec;
}.
Abbreviation ControlPlaneSpec := WorkerSpec (only parsing).

Record ComputeSpec : Type := MkCompute {
  c_Provider : string; c_Context : string; c_Image : ImageSpec; c_Default : DefaultSizeSpec; c_Nodes : list string }.
Record K3sSpec : Type := MkK3s { Version : string; ClusterCIDR : string; ServiceCIDR : string; ExtraArgs : list string }.
Record SSHSpec : Type := MkSSH { User : string; PrivateKeyPath : string; PublicKeys : list string }.

Record ClusterSpec : Type := MkCluster {
  Compute : ComputeSpec;
  ControlPlane : ControlPlaneSpec;
  Workers : list WorkerSpec;
  Network : NetworkSpec;
  K3s : K3sSpec;
  SSH : SSHSpec;
}.

#[export] Instance PlacementTarget_eq_dec : EqDecision PlacementTarget.
Proof. solve_decision. Defined.
#[export] Instance DefaultSizeSpec_eq_dec : EqDecision DefaultSizeSpec.
Proof. solve_decision. Defined.

(** ** Parsing *)

Definition zero_size : DefaultSizeSpec := MkSize 0 0 0.
Definition zero_pool : WorkerSpec := MkPool "" 0 None "" [] [] None None.
Definition zero_compute : ComputeSpec := MkCompute "" "" (MkImage "" "" "" "") zero_size [].

(** [if f, ok := m[key].(float64); ok { x = int(f) }] *)
Definition int_field (key : string) (m : gomap) : Z :=
  match assoc key m with Some (VFloat f) => Z_of_f64 f | _ => 0 end.

Definition map_field (key : string) (m : gomap) : option gomap := as_map (assoc key m).

(** [parseStringSlice] *)
Definition parseStringSlice (v : option value) : list string :=
  omap (λ x, as_str (Some x)) (default [] (as_list v)).

(** [parsePlacementTargets] *)
Definition parse_target (item : value) : option PlacementTarget :=
  match item with
  | VMap m =>
      let t := MkTarget (str_field "context" m) (str_field "node" m) in
      if decide (t_Context t = "" ∧ t_Node t = "") then None else Some t
  | _ => None
  end.

Definition parsePlacementTargets (v : option value) : list PlacementTarget :=
  omap parse_target (default [] (as_list v)).

(** [parseSizeSpec] *)
Definition parseSizeSpec (m : gomap) : DefaultSizeSpec :=
  MkSize (int_field "cpus" m) (int_field "memoryMB" m) (int_field "diskGB" m).

(** [parseGPUSpec] *)
Definition parse_device (d : value) : option PCIDevice :=
  match d with
  | VMap dev => Some (MkPCI (str_field "device" dev) (str_field "mapping" dev)
                  (default false (as_bool (assoc "primaryGPU" dev))) (str_field "mdev" dev))
  | _ => None
  end.

Definition parseGPUSpec (m : gomap) : GPUSpec :=
  MkGPU (omap parse_device (default [] (as_list (assoc "devices" m)))) (str_field "efiStorage" m)
    (str_field "cpuType" m).

(** [parseNodePrepSpec] *)
Definition parseNodePrepSpec (m : gomap) : NodePrepSpec :=
  MkNodePrep (parseStringSlice (assoc "packages" m)) (parseStringSlice (assoc "runcmd" m)).

(** One pool: the body of the loop over [workers], and the control plane. *)
Definition parse_pool (name : string) (m : gomap) : WorkerSpec :=
  MkPool name (int_field "count" m) (parseSizeSpec <$> map_field "size" m) (str_field "context" m)
    (parseStringSlice (assoc "nodes" m)) (parsePlacementTargets (assoc "targets" m))
    (parseGPUSpec <$> map_field "gpu" m) (parseNodePrepSpec <$> map_field "nodePrep" m).

Definition parse_compute (m : gomap) : ComputeSpec :=
  MkCompute (str_field "provider" m) (str_field "context" m)
    (match map_field "image" m with
     | Some i => MkImage (str_field "url" i) (str_field "template" i) (str_field "storage" i) (str_field "diskStorage" i)
     | None => MkImage "" "" "" ""
     end)
    (match map_field "default" m with Some d => parseSizeSpec d | None => zero_size end)
    (parseStringSlice (assoc "nodes" m)).

Definition parse_static (m : gomap) : StaticIPSpec :=
  MkStaticIP (str_field "startIP" m) (str_field "gateway" m) (str_field "netmask" m).

(** [parsePerContext] *)
Definition parsePerContext (m : gomap) : list (string * NetworkBlock) :=
  omap (λ p, match p.2 with
             | VMap b => Some (p.1, MkBlock (str_field "bridge" b) (parse_static <$> map_field "staticIPs" b))
             | _ => None
             end) m.

Definition parse_network (m : option gomap) : NetworkSpec :=
  match m with
  | None => MkNetwork "vmbr0" true None []
  | Some n =>
      let bridge := match as_str (assoc "bridge" n) with Some b => b | None => "vmbr0" end in
      let dhcp := match assoc "dhcp" n with
                  | Some (VBool b) => b
                  | Some (VStr s) => bool_decide (s ≠ "false")
                  | _ => true
                  end in
      let static := parse_static <$> map_field "staticIPs" n in
      let dhcp := match static with
                  | Some s => if decide (StartIP s = "") then dhcp else false
                  | None => dhcp
                  end in
      let per := match map_field "perContext" n with Some pc => parsePerContext pc | None => [] end in
      MkNetwork bridge (match per with [] => dhcp | _ => false end) static per
  end.

Definition ParseClusterSpec (r : resource) : ClusterSpec :=
  match r_spec r with
  | None => MkCluster zero_compute zero_pool [] (MkNetwork "" false None []) (MkK3s "" "" "" []) (MkSSH "" "" [])
  | Some s =>
      let nodes := fields (map_field "nodes" s) in
      MkCluster
        (match map_field "compute" s with Some c => parse_compute c | None => zero_compute end)
        (match map_field "controlPlane" nodes with Some cp => parse_pool "" cp | None => zero_pool end)
        (omap (λ w, match w with VMap m => Some (parse_pool (str_field "name" m) m) | _ => None end)
          (default [] (as_list (assoc "workers" nodes))))
        (parse_network (map_field "network" s))
        (match map_field "k3s" s with
         | Some k => MkK3s (str_field "version" k) (str_field "clusterCIDR" k) (str_field "serviceCIDR" k)
                       (parseStringSlice (assoc "extraArgs" k))
         | None => MkK3s "" "" "" []
         end)
        (match map_field "ssh" s with
         | Some h => MkSSH (str_field "user" h) (str_field "privateKeyPath" h) (parseStringSlice (assoc "publicKeys" h))
         | None => MkSSH "" "" []
         end)
  end.

(** ** Node names *)

(** [for i := 0; i < count; i++] *)
Definition loop_to (count : Z) : list nat := seq 0 (Z.to_nat count).

(** [fmt.Sprintf("%s-%s-%d", cluster, pool, i)] *)
Definition node_name (cluster pool : string) (i : nat) : string :=
  cluster +:+ "-" +:+ pool +:+ "-" +:+ pretty i.

Definition pool_name (p : WorkerSpec) : string := if decide (p_Name p = "") then "worker" else p_Name p.

Definition pool_nodes (cluster pool : string) (p : WorkerSpec) : list string :=
  map (node_name cluster pool) (loop_to (p_Count p)).

(** [NodeNames] *)
Definition NodeNames (cluster : string) (spec : ClusterSpec) : list string * list string :=
  (pool_nodes cluster "cp" (ControlPlane spec), concat (map (λ p, pool_nodes cluster (pool_name p) p) (Workers spec))).

Definition all_nodes (cluster : string) (spec : ClusterSpec) : list string :=
  (NodeNames cluster spec).1 ++ (NodeNames cluster spec).2.

(** The pool of a node by its index in the flat list: the search [GPUForNode],
    [NodePrepForNode] and [sizeForNode] share. *)
Fixpoint find_pool (i : Z) (pools : list WorkerSpec) : option WorkerSpec :=
  match pools with
  | [] => None
  | p :: pools' => if (i <? p_Count p)%Z then Some p else find_pool (i - p_Count p) pools'
  end.

Definition pool_for_node (i cpCount : Z) (spec : ClusterSpec) : option WorkerSpec :=
  if (i <? cpCount)%Z then Some (ControlPlane spec) else find_pool (i - cpCount) (Workers spec).

(** [GPUForNode], [NodePrepForNode] *)
Definition GPUForNode (i cpCount : Z) (spec : ClusterSpec) : option GPUSpec :=
  pool_for_node i cpCount spec ≫= p_GPU.
Definition NodePrepForNode (i cpCount : Z) (spec : ClusterSpec) : option NodePrepSpec :=
  pool_for_node i cpCount spec ≫= p_NodePrep.

(** ** Placement *)

(** [resolvePoolTargets] *)
Definition resolvePoolTargets (targets : list PlacementTarget) (poolContext : string) (poolNodes : list string)
    (computeContext : string) (computeNodes : list string) : list PlacementTarget :=
  let ctxName := if decide (poolContext = "") then computeContext else poolContext in
  match targets with
  | _ :: _ => map (λ t, MkTarget (if decide (t_Context t = "") then ctxName else t_Context t) (t_Node t)) targets
  | [] =>
      match (match poolNodes with [] => computeNodes | _ => poolNodes end) with
      | [] => if decide (ctxName = "") then [] else [MkTarget ctxName ""]
      | hosts => map (MkTarget ctxName) hosts
      end
  end.

Definition pool_targets (spec : ClusterSpec) (p : WorkerSpec) : list PlacementTarget :=
  resolvePoolTargets (p_Targets p) (p_Context p) (p_Nodes p) (c_Context (Compute spec)) (c_Nodes (Compute spec)).

(** The assignments of one pool, in order: round robin. *)
Definition place_pool (cluster pool : string) (targets : list PlacementTarget) (p : WorkerSpec) :
    list (string * PlacementTarget) :=
  match targets with
  | [] => []
  | t0 :: _ => map (λ i, (node_name cluster pool i, nth (i mod length targets) targets t0)) (loop_to (p_Count p))
  end.

(** [PlacementTargets] *)
Definition PlacementTargets (cluster : string) (spec : ClusterSpec) : list (string * PlacementTarget) :=
  fold_left (λ out p, assoc_set p.1 p.2 out)
    (place_pool cluster "cp" (pool_targets spec (ControlPlane spec)) (ControlPlane spec) ++
     concat (map (λ p, place_pool cluster (pool_name p) (pool_targets spec p) p) (Workers spec))) [].

(** [BridgeForContext] *)
Definition BridgeForContext (n : NetworkSpec) (context : string) : string :=
  match assoc context (net_PerContext n) with
  | Some b => if decide (nb_Bridge b = "") then net_Bridge n else nb_Bridge b
  | None => net_Bridge n
  end.

(** ** Addresses *)

(** [fmt.Sscanf] of a [%d]: ASCII blanks are skipped (a newline is an error), an
    optional sign, then at least one digit, within 64 bits. *)
Definition is_blank (c : ascii) : bool :=
  let n := nat_of_ascii c in (n =? 9) || (n =? 11) || (n =? 12) || (n =? 13) || (n =? 32).

Fixpoint skip_blanks (s : string) : string :=
  match s with
  | String c s' => if is_blank c then skip_blanks s' else s
  | EmptyString => s
  end.

Fixpoint span_digits (s : string) : string * string :=
  match s with
  | String c s' =>
      match digit_val c with
      | Some _ => let '(d, r) := span_digits s' in (String c d, r)
      | None => (EmptyString, s)
      end
  | EmptyString => (EmptyString, EmptyString)
  end.

Definition scan_int (s : string) : option (Z * string) :=
  let s := skip_blanks s in
  let '(sign, s) := match s with
    | String c s' => if decide (c = "-"%char) then ((-1)%Z, s') else if decide (c = "+"%char) then (1%Z, s') else (1%Z, s)
    | EmptyString => (1%Z, s)
    end in
  let '(ds, rest) := span_digits s in
  match ds with
  | EmptyString => None
  | _ =>
      match digits_value 0 ds with
      | None => None
      | Some v =>
          let z := (sign * v)%Z in
          if (int64_min <=? z)%Z && (z <=? int64_max)%Z then Some (z, rest) else None
      end
  end.

Definition scan_lit (c : ascii) (s : string) : option string :=
  match s with String a s' => if decide (a = c) then Some s' else None | EmptyString => None end.

(** [fmt.Sscanf(ip, "%d.%d.%d.%d", ...)]; what follows the last number is ignored. *)
Definition scan_ip (ip : string) : option (Z * Z * Z * Z) :=
  '(a, s) ← scan_int ip; s ← scan_lit "."%char s;
  '(b, s) ← scan_int s; s ← scan_lit "."%char s;
  '(c, s) ← scan_int s; s ← scan_lit "."%char s;
  '(d, _) ← scan_int s; mret (a, b, c, d).

Definition ip_text (a b c d : Z) : string :=
  pretty a +:+ "." +:+ pretty b +:+ "." +:+ pretty c +:+ "." +:+ pretty d.

Inductive ip_error : Type :=
| ErrInvalidIP (ip : string)
| ErrExhausted
| ErrNoBlock (ctx : string)
| ErrAllocate (node : string) (e : ip_error).

(** [incrementIP] *)
Definition incrementIP (ip : string) : result ip_error string :=
  match scan_ip ip with
  | None => Err (ErrInvalidIP ip)
  | Some (a, b, c, d) =>
      let d := wrap64 (d + 1) in
      if (254 <? d)%Z then
        let c := wrap64 (c + 1) in
        if (255 <? c)%Z then Err ErrExhausted else Ok (ip_text a b c 1)
      else Ok (ip_text a b c d)
  end.

(** The allocation loop over a range; the address after the last one is computed
    too. *)
Fixpoint alloc_range (current : string) (nodes : list string) (ips : list (string * string)) :
    result ip_error (list (string * string)) :=
  match nodes with
  | [] => Ok ips
  | n :: nodes' =>
      match incrementIP current with
      | Err e => Err (ErrAllocate n e)
      | Ok next => alloc_range next nodes' (assoc_set n current ips)
      end
  end.

Definition context_of (placement : list (string * PlacementTarget)) (node : string) : string :=
  match assoc node placement with Some t => t_Context t | None => "" end.

(** [byContext[ctx] = append(byContext[ctx], name)] *)
Definition group_by_context (placement : list (string * PlacementTarget)) (nodes : list string) :
    list (string * list string) :=
  fold_left (λ m n, let ctx := context_of placement n in assoc_set ctx (default [] (assoc ctx m) ++ [n]) m) nodes [].

(** The loop of [allocateIPsPerContext], in one iteration order of the map. *)
Fixpoint alloc_contexts (per : list (string * NetworkBlock)) (groups : list (string * list string))
    (ips : list (string * string)) : result ip_error (list (string * string)) :=
  match groups with
  | [] => Ok ips
  | (ctx, nodes) :: groups' =>
      match assoc ctx per ≫= nb_StaticIPs with
      | None => Err (ErrNoBlock ctx)
      | Some s =>
          if decide (StartIP s = "") then Err (ErrNoBlock ctx)
          else match alloc_range (StartIP s) (sort_strings nodes) ips with
               | Err e => Err e
               | Ok ips' => alloc_contexts per groups' ips'
               end
      end
  end.

(** [allocateIPsPerContext] *)
Definition allocateIPsPerContext (cluster : string) (spec : ClusterSpec) : result ip_error (list (string * string)) :=
  alloc_contexts (net_PerContext (Network spec))
    (group_by_context (PlacementTargets cluster spec) (all_nodes cluster spec)) [].

(** [AllocateIPs]; [None] is the nil map of DHCP mode. *)
Definition AllocateIPs (cluster : string) (spec : ClusterSpec) : result ip_error (option (list (string * string))) :=
  match net_PerContext (Network spec) with
  | _ :: _ => Some <$> allocateIPsPerContext cluster spec
  | [] =>
      if net_DHCP (Network spec) then Ok None
      else match net_StaticIPs (Network spec) with
           | None => Ok None
           | Some s => Some <$> alloc_range (StartIP s) (all_nodes cluster spec) []
           end
  end.

(** ** Laws of scanning *)

Lemma digit_val_char (x : N) : (x < 10)%N → digit_val (pretty_N_char x) = Some (Z.of_N x).
Proof.
  intros Hx. destruct x as [|p]; [done|].
  do 4 (destruct p as [p|p|]; try done; try lia).
Qed.

Lemma digits_value_pretty_go x s :
  digits_value 0 (pretty_N_go x s) = digits_value (Z.of_N x) s.
Proof.
  revert s. induction (N.lt_wf_0 x) as [x _ IH]; intros s.
  destruct (decide (0 < x)%N) as [Hx|Hx].
  - rewrite pretty_N_go_step by done. rewrite IH by (by apply N.div_lt). simpl.
    rewrite digit_val_char by (by apply N.mod_lt). f_equal.
    pose proof (N.div_mod' x 10). lia.
  - replace x with 0%N by lia. done.
Qed.

Lemma digits_value_pretty (z : Z) : (0 ≤ z)%Z → digits_value 0 (pretty z) = Some z.
Proof.
  intros Hz. destruct z as [|p|p]; [done| |lia].
  change (pretty (Zpos p)) with (pretty (Npos p)). unfold pretty, pretty_N.
  rewrite decide_False by done. by rewrite digits_value_pretty_go.
Qed.

Lemma pretty_Z_digits (z : Z) : (0 ≤ z)%Z → all_digits (pretty z) = true.
Proof. intros Hz. destruct z as [|p|p]; [done| |lia]. exact (pretty_N_digits (Npos p)). Qed.

Lemma is_digit_val c : is_digit c = true → is_Some (digit_val c).
Proof. destruct c as [[] [] [] [] [] [] [] []]; vm_compute; (done || by eexists). Qed.

Lemma is_digit_not_blank c : is_digit c = true → is_blank c = false ∧ c ≠ "-"%char ∧ c ≠ "+"%char.
Proof. destruct c as [[] [] [] [] [] [] [] []]; vm_compute; done. Qed.

Lemma span_digits_app ds rest :
  all_digits ds = true → (match rest with String c _ => digit_val c = None | EmptyString => True end) →
  span_digits (ds +:+ rest) = (ds, rest).
Proof.
  intros Hd Hr. induction ds as [|c ds IH].
  - change ("" +:+ rest) with rest. destruct rest as [|c r]; [done|]. simpl. by rewrite Hr.
  - rewrite str_app_cons. simpl in *. apply andb_true_iff in Hd as [Hc Hd].
    destruct (is_digit_val c Hc) as [v ->]. by rewrite IH.
Qed.

Lemma pretty_Z_nonempty (z : Z) : (0 ≤ z)%Z → ∃ c s, pretty z = String c s ∧ is_digit c = true.
Proof.
  intros Hz. pose proof (digits_value_pretty z Hz) as Hv. pose proof (pretty_Z_digits z Hz) as Hd.
  destruct (pretty z) as [|c s] eqn:E.
  - injection Hv as <-. done.
  - exists c, s. split; [done|]. simpl in Hd. by apply andb_true_iff in Hd as [? _].
Qed.

Lemma scan_int_pretty (z : Z) rest :
  (0 ≤ z ≤ int64_max)%Z → (match rest with String c _ => digit_val c = None | EmptyString => True end) →
  scan_int (pretty z +:+ rest) = Some (z, rest).
Proof.
  intros Hz Hr. destruct (pretty_Z_nonempty z) as (c & s & E & Hc); [lia|].
  destruct (is_digit_not_blank c Hc) as (Hb & Hm & Hp).
  assert (skip_blanks (pretty z +:+ rest) = pretty z +:+ rest) as Hsk.
  { rewrite E, str_app_cons. simpl. by rewrite Hb. }
  unfold scan_int. rewrite Hsk. rewrite E, str_app_cons.
  rewrite decide_False by done. rewrite decide_False by done.
  rewrite <-str_app_cons, <-E. rewrite span_digits_app by (done || (apply pretty_Z_digits; lia)).
  rewrite digits_value_pretty by lia. rewrite E.
  rewrite (proj2 (andb_true_iff _ _)); [by rewrite Z.mul_1_l|].
  unfold int64_min, int64_max in *. split; apply Z.leb_le; lia.
Qed.

Lemma scan_ip_text a b c d :
  (0 ≤ a ≤ 255)%Z → (0 ≤ b ≤ 255)%Z → (0 ≤ c ≤ 255)%Z → (0 ≤ d ≤ 255)%Z →
  scan_ip (ip_text a b c d) = Some (a, b, c, d).
Proof.
  intros Ha Hb Hc Hd. unfold scan_ip, ip_text.
  assert (∀ z, (0 ≤ z ≤ 255)%Z → (0 ≤ z ≤ int64_max)%Z) as H by (unfold int64_max; lia).
  assert (∀ x y : string, x +:+ "." +:+ y = x +:+ String "."%char y) as Hdot by done.
  rewrite !Hdot.
  rewrite scan_int_pretty by (by auto). simpl.
  rewrite scan_int_pretty by (by auto). simpl.
  rewrite scan_int_pretty by (by auto). simpl.
  rewrite <-(str_app_nil_r (pretty d)). rewrite scan_int_pretty by (by auto). done.
Qed.

(** The [n]-th usable host of a /16: last octets 1 to 254. *)
Definition nth_ip (a b n : Z) : string := ip_text a b (n / 254) (n mod 254 + 1).

Definition last_ip : Z := 256 * 254.

Lemma nth_ip_scan a b n :
  (0 ≤ a ≤ 255)%Z → (0 ≤ b ≤ 255)%Z → (0 ≤ n < last_ip)%Z →
  scan_ip (nth_ip a b n) = Some (a, b, n / 254, n mod 254 + 1)%Z.
Proof.
  intros Ha Hb Hn. unfold last_ip in Hn. pose proof (Z.mod_pos_bound n 254 ltac:(lia)).
  apply scan_ip_text; [done..| |lia]. split; [apply Z.div_pos; lia|].
  apply Z.lt_succ_r, Z.div_lt_upper_bound; lia.
Qed.

Lemma incrementIP_nth a b n :
  (0 ≤ a ≤ 255)%Z → (0 ≤ b ≤ 255)%Z → (0 ≤ n < last_ip)%Z →
  incrementIP (nth_ip a b n) = if (n + 1 <? last_ip)%Z then Ok (nth_ip a b (n + 1)) else Err ErrExhausted.
Proof.
  intros Ha Hb Hn. unfold incrementIP. rewrite nth_ip_scan by done. unfold nth_ip, last_ip in *.
  assert (∀ z, (0 ≤ z ≤ 1000)%Z → wrap64 z = z) as Hw.
  { intros z Hz. unfold wrap64, int64_min. rewrite Z.mod_small; lia. }
  pose proof (Z.div_mod n 254 ltac:(lia)) as Hdm. pose proof (Z.mod_pos_bound n 254 ltac:(lia)) as Hm.
  set (q := (n / 254)%Z) in *. set (r := (n mod 254)%Z) in *.
  assert (0 ≤ q ≤ 255)%Z as Hq by lia.
  rewrite (Hw (r + 1 + 1)%Z) by lia. rewrite (Hw (q + 1)%Z) by lia.
  destruct (Z.ltb_spec 254 (r + 1 + 1)) as [Hr|Hr].
  - assert (r = 253)%Z by lia.
    assert ((n + 1) / 254 = q + 1 ∧ (n + 1) mod 254 = 0)%Z as [-> ->].
    { split; [symmetry; apply Z.div_unique with 0%Z; lia|symmetry; apply Z.mod_unique with (q + 1)%Z; lia]. }
    destruct (Z.ltb_spec 255 (q + 1)); destruct (Z.ltb_spec (n + 1) (256 * 254)); done || lia.
  - assert ((n + 1) / 254 = q ∧ (n + 1) mod 254 = r + 1)%Z as [-> ->].
    { split; [symmetry; apply Z.div_unique with (r + 1)%Z; lia|symmetry; apply Z.mod_unique with q; lia]. }
    rewrite (proj2 (Z.ltb_lt _ _)) by lia. done.
Qed.

Lemma alloc_range_spec a b n nodes ips :
  (0 ≤ a ≤ 255)%Z → (0 ≤ b ≤ 255)%Z → (0 ≤ n < last_ip)%Z →
  NoDup nodes → (∀ x, x ∈ nodes → assoc x ips = None) →
  if (n + Z.of_nat (length nodes) <? last_ip)%Z
  then alloc_range (nth_ip a b n) nodes ips = Ok (ips ++ imap (λ i x, (x, nth_ip a b (n + Z.of_nat i))) nodes)
  else ∃ node, alloc_range (nth_ip a b n) nodes ips = Err (ErrAllocate node ErrExhausted).
Proof.
  intros Ha Hb. revert n ips. induction nodes as [|x nodes IH]; intros n ips Hn Hnd Hf; simpl.
  { rewrite Z.add_0_r, (proj2 (Z.ltb_lt _ _)) by lia. by rewrite app_nil_r. }
  rewrite incrementIP_nth by done. apply NoDup_cons in Hnd as [Hx Hnd].
  destruct (Z.ltb_spec (n + 1) last_ip) as [Hlt|Hge].
  - assert (assoc_set x (nth_ip a b n) ips = ips ++ [(x, nth_ip a b n)]) as Hset.
    { specialize (Hf x ltac:(left)). clear -Hf. induction ips as [|[k v] ips IH]; simpl in *; [done|].
      case_decide; [done|]. by rewrite IH. }
    assert (∀ y, y ∈ nodes → assoc y (ips ++ [(x, nth_ip a b n)]) = None) as Hf'.
    { intros y Hy. apply assoc_None. rewrite fmap_app, elem_of_app. intros [Hin|Hin].
      - specialize (Hf y ltac:(by right)). by apply assoc_None in Hf.
      - apply list_elem_of_singleton in Hin as ->. done. }
    specialize (IH (n + 1)%Z (ips ++ [(x, nth_ip a b n)]) ltac:(lia) Hnd Hf').
    rewrite Hset. replace (n + Z.of_nat (S (length nodes)))%Z with (n + 1 + Z.of_nat (length nodes))%Z by lia.
    destruct (Z.ltb_spec (n + 1 + Z.of_nat (length nodes)) last_ip); [|exact IH].
    rewrite IH, <-(assoc_L (++)). simpl. rewrite Z.add_0_r.
    assert (imap (λ i y, (y, nth_ip a b (n + 1 + Z.of_nat i))) nodes =
      imap ((λ i y, (y, nth_ip a b (n + Z.of_nat i))) ∘ S) nodes) as ->; [|done].
    apply imap_ext. intros i y _. simpl. do 2 f_equal. lia.
  - rewrite (proj2 (Z.ltb_ge _ _)) by lia. by eexists.
Qed.

Lemma nth_ip_inj a b n n' :
  (0 ≤ a ≤ 255)%Z → (0 ≤ b ≤ 255)%Z → (0 ≤ n < last_ip)%Z → (0 ≤ n' < last_ip)%Z →
  nth_ip a b n = nth_ip a b n' → n = n'.
Proof.
  intros Ha Hb Hn Hn' H. apply (f_equal scan_ip) in H. rewrite !nth_ip_scan in H by done.
  injection H as Hq Hr. pose proof (Z.div_mod n 254 ltac:(lia)). pose proof (Z.div_mod n' 254 ltac:(lia)). lia.
Qed.

(** ** Laws of node names and placement *)

Lemma node_name_inj cluster p q i j : node_name cluster p i = node_name cluster q j → p = q ∧ i = j.
Proof.
  unfold node_name. intros H.
  assert (∀ (a b c : string), a +:+ "-" +:+ b +:+ "-" +:+ c = (a +:+ "-" +:+ b) +:+ String "-"%char c) as Hs.
  { intros. by rewrite !str_app_assoc. }
  rewrite !Hs in H. apply last_sep_inj in H as [H1 H2].
  - split; [|by apply (inj pretty) in H2]. apply (inj (String.append cluster)) in H1. by injection H1.
  - apply all_digits_no_byte; [done|apply pretty_nat_digits].
  - apply all_digits_no_byte; [done|apply pretty_nat_digits].
Qed.

Lemma elem_of_pool_nodes cluster pool p x :
  x ∈ pool_nodes cluster pool p ↔ ∃ i, x = node_name cluster pool i ∧ i < Z.to_nat (p_Count p).
Proof.
  unfold pool_nodes, loop_to. rewrite list_elem_of_fmap. split.
  - intros (i & -> & Hi). apply elem_of_seq in Hi. exists i. split; [done|lia].
  - intros (i & -> & Hi). exists i. split; [done|]. apply elem_of_seq. lia.
Qed.

Lemma NoDup_pool_nodes cluster pool p : NoDup (pool_nodes cluster pool p).
Proof.
  unfold pool_nodes. apply NoDup_fmap_2; [|apply NoDup_seq]. by intros i j [_ ?]%node_name_inj.
Qed.

(** The pools with their effective names, the control plane first. *)
Definition named_pools (spec : ClusterSpec) : list (string * WorkerSpec) :=
  ("cp", ControlPlane spec) :: map (λ p, (pool_name p, p)) (Workers spec).

Lemma all_nodes_pools cluster spec :
  all_nodes cluster spec = concat (map (λ q, pool_nodes cluster q.1 q.2) (named_pools spec)).
Proof. unfold all_nodes, NodeNames, named_pools. simpl. by rewrite map_map. Qed.

Lemma NoDup_pools cluster (qs : list (string * WorkerSpec)) :
  NoDup (concat (map (λ q, pool_nodes cluster q.1 q.2) qs)) ↔
  NoDup (filter (λ q, (0 < p_Count q.2)%Z) qs).*1.
Proof.
  induction qs as [|[n p] qs IH]; [split; constructor|]. simpl. rewrite filter_cons. simpl.
  rewrite NoDup_app, IH. case_decide as Hc; simpl.
  - rewrite NoDup_cons. split.
    + intros (_ & Hd & Hq). split; [|done]. intros Hin.
      apply list_elem_of_fmap in Hin as ([n' p'] & Heq & Hin). simpl in Heq. subst n'.
      apply list_elem_of_filter in Hin as [Hc' Hin]. simpl in Hc'.
      apply (Hd (node_name cluster n 0)); [apply elem_of_pool_nodes; exists 0; split; [done|lia]|].
      apply elem_of_concat. exists (pool_nodes cluster n p'). split.
      * apply elem_of_pool_nodes. exists 0. split; [done|lia].
      * apply list_elem_of_fmap. by exists (n, p').
    + intros [Hn Hq]. split; [apply NoDup_pool_nodes|]. split; [|done].
      intros x Hx Hin. apply elem_of_pool_nodes in Hx as (i & -> & Hi).
      apply elem_of_concat in Hin as (l & Hx & Hl). apply list_elem_of_fmap in Hl as ([n' p'] & -> & Hin).
      apply elem_of_pool_nodes in Hx as (j & [-> ->]%node_name_inj & Hj). apply Hn.
      apply list_elem_of_fmap. exists (n', p'). split; [done|]. apply list_elem_of_filter. split; [simpl in *; lia|done].
  - assert (pool_nodes cluster n p = []) as ->; [|split; [tauto|intros; split_and!; [constructor|by intros ? ?%elem_of_nil|done]]].
    simpl in Hc. unfold pool_nodes, loop_to. replace (Z.to_nat (p_Count p)) with 0 by lia. done.
Qed.

Lemma fold_assoc_set_keep {V} (l : list (string * V)) out k v :
  assoc k out = Some v → k ∉ l.*1 → assoc k (fold_left (λ out p, assoc_set p.1 p.2 out) l out) = Some v.
Proof.
  revert out; induction l as [|[k' v'] l IH]; intros out Ho Hk; simpl in *; [done|].
  apply not_elem_of_cons in Hk as [Hne Hk]. apply IH; [|done]. by rewrite assoc_set_ne.
Qed.

Lemma fold_assoc_set_in {V} (l : list (string * V)) out k v :
  NoDup l.*1 → (k, v) ∈ l → assoc k (fold_left (λ out p, assoc_set p.1 p.2 out) l out) = Some v.
Proof.
  revert out; induction l as [|[k' v'] l IH]; intros out Hnd Hin; [by apply elem_of_nil in Hin|].
  simpl in *. apply NoDup_cons in Hnd as [Hk Hnd]. apply elem_of_cons in Hin as [[= <- <-]|Hin].
  - apply fold_assoc_set_keep; [apply assoc_set_eq|done].
  - by apply IH.
Qed.

Lemma place_pool_keys cluster pool targets p :
  (place_pool cluster pool targets p).*1 = if decide (targets = []) then [] else pool_nodes cluster pool p.
Proof.
  unfold place_pool, pool_nodes. destruct targets as [|t0 ts]; [done|]. rewrite decide_False by done.
  induction (loop_to (p_Count p)); simpl; by f_equal.
Qed.

Definition placements (cluster : string) (spec : ClusterSpec) : list (string * PlacementTarget) :=
  concat (map (λ q, place_pool cluster q.1 (pool_targets spec q.2) q.2) (named_pools spec)).

Lemma PlacementTargets_eq cluster spec :
  PlacementTargets cluster spec = fold_left (λ out p, assoc_set p.1 p.2 out) (placements cluster spec) [].
Proof. unfold PlacementTargets, placements, named_pools. simpl. by rewrite map_map. Qed.

Lemma fold_assoc_set_none {V} (l out : list (string * V)) k :
  assoc k out = None → k ∉ l.*1 → assoc k (fold_left (λ out p, assoc_set p.1 p.2 out) l out) = None.
Proof.
  revert out; induction l as [|[k' v'] l IH]; intros out Ho Hk; simpl in *; [done|].
  apply not_elem_of_cons in Hk as [Hne Hk]. apply IH; [|done]. by rewrite assoc_set_ne.
Qed.

(** With distinct node names, a node's name tells its pool. *)
Lemma pool_of_name cluster (qs : list (string * WorkerSpec)) n p p' i j :
  NoDup (concat (map (λ q, pool_nodes cluster q.1 q.2) qs)) →
  (n, p) ∈ qs → (n, p') ∈ qs → i < Z.to_nat (p_Count p) → j < Z.to_nat (p_Count p') → p = p'.
Proof.
  rewrite NoDup_pools. intros Hnd Hp Hp' Hi Hj.
  assert (∀ q m, (n, q) ∈ qs → m < Z.to_nat (p_Count q) → (n, q) ∈ filter (λ q, (0 < p_Count q.2)%Z) qs) as Hf.
  { intros q m Hq Hm. apply list_elem_of_filter. split; [simpl; lia|done]. }
  pose proof (elem_assoc n p _ Hnd (Hf p i Hp Hi)). pose proof (elem_assoc n p' _ Hnd (Hf p' j Hp' Hj)). congruence.
Qed.

Lemma unplaced cluster spec name p i :
  NoDup (concat (map (λ q, pool_nodes cluster q.1 q.2) (named_pools spec))) →
  (name, p) ∈ named_pools spec → i < Z.to_nat (p_Count p) → pool_targets spec p = [] →
  node_name cluster name i ∉ (placements cluster spec).*1.
Proof.
  intros Hnd Hp Hi Hts Hin. apply list_elem_of_fmap in Hin as ([x t] & Heq & Hin). simpl in Heq. subst x.
  apply elem_of_concat in Hin as (l & Hx & Hl). apply list_elem_of_fmap in Hl as ([n' p'] & -> & Hl). simpl in Hx.
  apply (list_elem_of_fmap_2 fst) in Hx. rewrite place_pool_keys in Hx.
  case_decide as Hne; [by apply elem_of_nil in Hx|].
  apply elem_of_pool_nodes in Hx as (j & [-> ->]%node_name_inj & Hj).
  by rewrite (pool_of_name _ _ _ _ _ _ _ Hnd Hl Hp Hj Hi) in Hne.
Qed.

Lemma placements_keys cluster spec (qs : list (string * WorkerSpec)) :
  (concat (map (λ q, place_pool cluster q.1 (pool_targets spec q.2) q.2) qs)).*1 `sublist_of`
  concat (map (λ q, pool_nodes cluster q.1 q.2) qs).
Proof.
  induction qs as [|q qs IH]; [done|]. simpl. rewrite fmap_app. apply sublist_app; [|done].
  rewrite place_pool_keys. case_decide; [apply sublist_nil_l|done].
Qed.

(** How often [j] is the slot of the first [n] nodes of a round robin over [m]. *)
Lemma round_robin_count m j n :
  j < m → let c := length (filter (λ i, i mod m = j) (seq 0 n)) in n / m ≤ c ≤ S (n / m).
Proof.
  intros Hj c. assert (∀ n, length (filter (λ i, i mod m = j) (seq 0 n)) = (n + (m - 1 - j)) / m) as Hc.
  { clear c n. induction n as [|n IH].
    - simpl. symmetry. apply Nat.div_small. lia.
    - rewrite seq_S, filter_app, length_app, IH. simpl. rewrite filter_cons.
      pose proof (Nat.div_mod n m ltac:(lia)) as Hdm. pose proof (Nat.mod_upper_bound n m ltac:(lia)) as Hmb.
      set (q := n / m) in *. set (r := n mod m) in *.
      case_decide as Hr; simpl.
      + assert ((n + (m - 1 - j)) / m = q) as ->.
        { symmetry. apply Nat.div_unique with (m - 1); lia. }
        apply Nat.div_unique with 0; lia.
      + rewrite Nat.add_0_r. destruct (decide (r < j)).
        * transitivity q; [symmetry; apply Nat.div_unique with (r + (m - 1 - j)); lia|].
          apply Nat.div_unique with (S r + (m - 1 - j)); lia.
        * transitivity (S q); [symmetry; apply Nat.div_unique with (r - 1 - j); lia|].
          apply Nat.div_unique with (r - j); lia. }
  unfold c. rewrite Hc. split; [apply Nat.Div0.div_le_mono; lia|].
  assert (S (n / m) = (n + m) / m) as ->; [|apply Nat.Div0.div_le_mono; lia].
  replace (n + m) with (n + 1 * m) by lia. rewrite Nat.div_add by lia. lia.
Qed.

(** ** Properties *)

(** The node names of a cluster are distinct exactly when the pools that have
    nodes have distinct names, where the control plane counts as a pool named
    [cp] and an unnamed pool as [worker]. *)
Theorem NodeNames_NoDup cluster spec :
  NoDup (all_nodes cluster spec) ↔ NoDup (filter (λ q, (0 < p_Count q.2)%Z) (named_pools spec)).*1.
Proof. rewrite all_nodes_pools. apply NoDup_pools. Qed.

Definition ex_pool (name : string) (count : Z) : WorkerSpec := MkPool name count None "" [] [] None None.
Definition ex_cluster (cp : WorkerSpec) (workers : list WorkerSpec) (net : NetworkSpec) : ClusterSpec :=
  MkCluster zero_compute cp workers net (MkK3s "" "" "" []) (MkSSH "" "" []).

(** C25: Static addresses: for a start address [a.b.c.d] with last octet 1 to 254, and a
    cluster with distinct node names and no address block of a context's own, allocation succeeds exactly when the range does not run past [a.b.255.253]
    (the address after the last node's must exist too); then node number [i] has
    the [i]-th usable host after the start, skipping last octets 0 and 255, and
    the addresses are distinct. *)
Theorem AllocateIPs_range cluster spec s a b n :
  net_PerContext (Network spec) = [] → net_DHCP (Network spec) = false →
  net_StaticIPs (Network spec) = Some s → StartIP s = nth_ip a b n →
  (0 ≤ a ≤ 255)%Z → (0 ≤ b ≤ 255)%Z → (0 ≤ n < last_ip)%Z → NoDup (all_nodes cluster spec) →
  if (n + Z.of_nat (length (all_nodes cluster spec)) <? last_ip)%Z
  then AllocateIPs cluster spec =
         Ok (Some (imap (λ i x, (x, nth_ip a b (n + Z.of_nat i))) (all_nodes cluster spec))) ∧
       NoDup (imap (λ i _, nth_ip a b (n + Z.of_nat i)) (all_nodes cluster spec))
  else ∃ node, AllocateIPs cluster spec = Err (ErrAllocate node ErrExhausted).
Proof.
  intros Hp Hd Hs Hst Ha Hb Hn Hnd. unfold AllocateIPs. rewrite Hp, Hd, Hs, Hst.
  pose proof (alloc_range_spec a b n (all_nodes cluster spec) [] Ha Hb Hn Hnd ltac:(done)) as H.
  destruct (Z.ltb_spec (n + Z.of_nat (length (all_nodes cluster spec))) last_ip) as [Hlt|_].
  - rewrite H. split; [done|]. apply NoDup_alt. intros i j x Hi Hj.
    rewrite list_lookup_imap in Hi, Hj.
    destruct (all_nodes cluster spec !! i) eqn:Ei; [|done]. destruct (all_nodes cluster spec !! j) eqn:Ej; [|done].
    simpl in *. apply lookup_lt_Some in Ei, Ej. injection Hi as Hi. injection Hj as Hj. rewrite <-Hi in Hj.
    apply nth_ip_inj in Hj; [lia|done|done|lia|lia].
  - destruct H as [node ->]. by exists node.
Qed.

Definition ex_static (start : string) : ClusterSpec :=
  ex_cluster (ex_pool "" 2) [ex_pool "gpu" 1] (MkNetwork "vmbr0" false (Some (MkStaticIP start "192.168.1.1" "24")) []).

Lemma AllocateIPs_range_witness :
  AllocateIPs "k" (ex_static "192.168.1.253") =
    Ok (Some [("k-cp-0", "192.168.1.253"); ("k-cp-1", "192.168.1.254"); ("k-gpu-0", "192.168.2.1")]) ∧
  is_ok (AllocateIPs "k" (ex_static "192.168.255.252")) = false.
Proof.
  split; [|vm_compute; reflexivity].
  refine (proj1 (AllocateIPs_range "k" (ex_static "192.168.1.253") (MkStaticIP "192.168.1.253" "192.168.1.1" "24")
    192 168 506 eq_refl eq_refl eq_refl _ _ _ _ _)).
  - vm_compute. reflexivity.
  - lia.
  - lia.
  - unfold last_ip. lia.
  - by_decide.
Defined.

(** Placement is a round robin within each pool: when node names are distinct,
    node [i] of a pool with placement targets is placed on target [i] modulo
    their number, so any two targets of a pool differ by at most one in the
    number of its nodes they get; a node of a pool without targets is placed
    nowhere. *)
Theorem PlacementTargets_round_robin cluster spec name p i t0 :
  NoDup (all_nodes cluster spec) → (name, p) ∈ named_pools spec → i < Z.to_nat (p_Count p) →
  let ts := pool_targets spec p in
  assoc (node_name cluster name i) (PlacementTargets cluster spec) =
    (if decide (ts = []) then None else Some (nth (i mod length ts) ts t0)) ∧
  (∀ j k, j < length ts → k < length ts →
     length (filter (λ i, i mod length ts = j) (loop_to (p_Count p))) ≤
     S (length (filter (λ i, i mod length ts = k) (loop_to (p_Count p))))).
Proof.
  intros Hnd Hp Hi ts. split.
  - rewrite PlacementTargets_eq. rewrite all_nodes_pools in Hnd. case_decide as Hts.
    + apply fold_assoc_set_none; [done|]. by eapply unplaced.
    + apply fold_assoc_set_in.
      * eapply sublist_NoDup; [exact Hnd|]. apply placements_keys.
      * apply elem_of_concat. exists (place_pool cluster name ts p). split.
        -- unfold place_pool. destruct ts as [|u us] eqn:E; [done|]. apply list_elem_of_fmap. exists i. split.
           ++ f_equal. apply nth_indep. apply Nat.mod_upper_bound. done.
           ++ unfold loop_to. apply elem_of_seq. lia.
        -- apply list_elem_of_fmap. by exists (name, p).
  - intros j k Hj Hk. unfold loop_to.
    pose proof (round_robin_count (length ts) j (Z.to_nat (p_Count p)) Hj) as [_ H1].
    pose proof (round_robin_count (length ts) k (Z.to_nat (p_Count p)) Hk) as [H2 _]. lia.
Qed.

Definition ex_placed : ClusterSpec :=
  MkCluster zero_compute (MkPool "" 3 None "" ["pve1"; "pve2"] [] None None) [ex_pool "gpu" 1]
    (MkNetwork "vmbr0" true None []) (MkK3s "" "" "" []) (MkSSH "" "" []).

Lemma PlacementTargets_round_robin_witness :
  assoc (node_name "k" "cp" 2) (PlacementTargets "k" ex_placed) = Some (MkTarget "" "pve1") ∧
  assoc (node_name "k" "gpu" 0) (PlacementTargets "k" ex_placed) = None.
Proof.
  split.
  - refine (proj1 (PlacementTargets_round_robin "k" ex_placed "cp" (ControlPlane ex_placed) 2 (MkTarget "" "") _ _ _)).
    + by_decide.
    + left.
    + vm_compute. lia.
  - refine (proj1 (PlacementTargets_round_robin "k" ex_placed "gpu" (ex_pool "gpu" 1) 0 (MkTarget "" "") _ _ _)).
    + by_decide.
    + right. left.
    + vm_compute. lia.
Defined.
