(* ===== verification/ClusterPlan.v ===== *)
(** Expanding a Cluster into child manifests and the dependency graph they are
    applied in: src/internal/controller/providers/k3s/cluster_plan.go, the graph
    of cluster_apply_plan.go, and the VM hardware helpers of
    src/pkg/k3s/resources/cluster.go. Typed Go slices inside a spec are [VList]s;
    a nil slice is [VNull], the [null] it becomes in JSON. *)
From S2P Require Import Prelude GoStrings GoValue Marker Refs Registry Digraph Kahn Graph CrossOp ClusterSpec.

Definition kindCluster : string := "Cluster".
Definition kindK3sNode : string := "K3sNode".
Definition kindAgentInstall : string := "AgentInstall".
Definition kindVM : string := "VirtualMachine".
Definition k3sAPIVersion : string := "k3s.openctl.io/v1".

(** A [[]string] built by [append]. *)
Definition strings (l : list string) : value := match l with [] => VNull | _ => VList (map VStr l) end.

(** [if cond { m[k] = v }] *)
Definition set_if (c : bool) (k : string) (v : value) (m : gomap) : gomap := if c then assoc_set k v m else m.

Definition nonempty (s : string) : bool := bool_decide (s ≠ "").

(** ** VM hardware helpers *)

Definition gpu_device (d : PCIDevice) : option value :=
  if decide (Device d = "" ∧ Mapping d = "") then None
  else Some (VMap (set_if (nonempty (MDev d)) "mdev" (VStr (MDev d))
    (set_if (PrimaryGPU d) "primaryGPU" (VBool true)
      [("pcie", VBool true);
       if decide (Mapping d = "") then ("device", VStr (Device d)) else ("mapping", VStr (Mapping d))]))).

(** [ApplyGPUToVMSpec] *)
Definition ApplyGPUToVMSpec (vmSpec : gomap) (gpu : option GPUSpec) : gomap :=
  match gpu with
  | None => vmSpec
  | Some g =>
      let cpuType := if decide (CPUType g = "") then "host" else CPUType g in
      let s := assoc_set "bios" (VStr "ovmf") (assoc_set "machine" (VStr "q35") vmSpec) in
      let cpu := match assoc "cpu" s with
                 | Some (VMap c) => assoc_set "type" (VStr cpuType) c
                 | _ => [("type", VStr cpuType)]
                 end in
      let s := assoc_set "cpu" (VMap cpu) s in
      let s := set_if (nonempty (EFIStorage g)) "efiDisk"
                 (VMap [("storage", VStr (EFIStorage g)); ("type", VStr "4m")]) s in
      match omap gpu_device (Devices g) with
      | [] => s
      | devices => assoc_set "hostPCI" (VList devices) s
      end
  end.

(** [ApplyNodePrepToVMSpec] *)
Definition ApplyNodePrepToVMSpec (vmSpec : gomap) (np : option NodePrepSpec) : gomap :=
  match np with
  | None => vmSpec
  | Some n =>
      if decide (Packages n = [] ∧ RunCmd n = []) then vmSpec
      else
        let ci := match assoc "cloudInit" vmSpec with Some (VMap c) => c | _ => [] end in
        let ci := set_if (negb (bool_decide (Packages n = []))) "packages" (strings (Packages n)) ci in
        let ci := set_if (negb (bool_decide (RunCmd n = []))) "runcmd" (strings (RunCmd n)) ci in
        assoc_set "cloudInit" (VMap ci) vmSpec
  end.

(** ** Children *)

(** [sizeForNode] *)
Definition sizeForNode (i cpCount : Z) (spec : ClusterSpec) : DefaultSizeSpec :=
  default (c_Default (Compute spec)) (pool_for_node i cpCount spec ≫= p_Size).

(** [roleForIndex] *)
Definition roleForIndex (i cpCount : Z) : string := if (i <? cpCount)%Z then "control-plane" else "worker".

Definition providerVersion (spec : ClusterSpec) : string := c_Provider (Compute spec) +:+ ".openctl.io/v1".

Definition ip_config (staticIP : string) (spec : ClusterSpec) : value :=
  match (if nonempty staticIP then net_StaticIPs (Network spec) else None) with
  | Some s => VMap [("net0", VMap [("ip", VStr (staticIP +:+ "/" +:+ Netmask s)); ("gateway", VStr (Gateway s))])]
  | None => VMap [("net0", VMap [("ip", VStr "dhcp")])]
  end.

Definition cloud_image (img : ImageSpec) : value :=
  VMap (set_if (nonempty (DiskStorage img)) "diskStorage" (VStr (DiskStorage img))
    (set_if (nonempty (Storage img)) "storage" (VStr (Storage img)) [("url", VStr (URL img))])).

(** The spec literal and its placement and image fields. *)
Definition vm_base_spec (size : DefaultSizeSpec) (staticIP : string) (target : PlacementTarget) (spec : ClusterSpec) :
    gomap :=
  let s := [("startOnCreate", VBool true);
            ("agent", VMap [("enabled", VBool true)]);
            ("cpu", VMap [("cores", VInt (CPUs size))]);
            ("memory", VMap [("size", VInt (MemoryMB size))]);
            ("disks", VList [VMap [("name", VStr "scsi0"); ("size", VStr (pretty (DiskGB size) +:+ "G"))]]);
            ("networks", VList [VMap [("name", VStr "net0");
               ("bridge", VStr (BridgeForContext (Network spec) (t_Context target))); ("model", VStr "virtio")]]);
            ("cloudInit", VMap [("user", VStr (User (SSH spec))); ("sshKeys", strings (PublicKeys (SSH spec)));
               ("ipConfig", ip_config staticIP spec)])] in
  let s := set_if (nonempty (t_Context target)) "context" (VStr (t_Context target)) s in
  let s := set_if (nonempty (t_Node target)) "node" (VStr (t_Node target)) s in
  let img := c_Image (Compute spec) in
  if nonempty (URL img) then assoc_set "cloudImage" (cloud_image img) s
  else set_if (nonempty (Template img)) "template" (VMap [("name", VStr (Template img))]) s.

Definition owner_labels (cluster : string) : list (string * string) :=
  [(LabelOwnerKind, kindCluster); (LabelOwnerName, cluster)].

Definition child (apiVersion kind name : string) (labels : list (string * string)) (spec : gomap) : resource :=
  Resource apiVersion kind (ResourceMetadata name "" labels [] "" "") (Some spec) None.

(** [buildVMManifest] *)
Definition buildVMManifest (cluster node : string) (i cpCount : Z) (size : DefaultSizeSpec) (staticIP : string)
    (target : PlacementTarget) (spec : ClusterSpec) : resource :=
  child (providerVersion spec) kindVM node
    ([("k3s.openctl.io/cluster", cluster); ("k3s.openctl.io/role", roleForIndex i cpCount)] ++ owner_labels cluster)
    (ApplyNodePrepToVMSpec (ApplyGPUToVMSpec (vm_base_spec size staticIP target spec) (GPUForNode i cpCount spec))
       (NodePrepForNode i cpCount spec)).

(** [map[string]any{"$ref": ...}] *)
Definition vm_ref (node : string) (spec : ClusterSpec) : value :=
  VMap [(RefMarker, VMap [("apiVersion", VStr (providerVersion spec)); ("kind", VStr kindVM); ("name", VStr node)])].
Definition cp_ref (firstCP field : string) : value :=
  VMap [(RefMarker, VMap [("apiVersion", VStr k3sAPIVersion); ("kind", VStr kindK3sNode); ("name", VStr firstCP);
                          ("field", VStr field)])].
Definition ssh_value (spec : ClusterSpec) : value :=
  VMap [("user", VStr (User (SSH spec))); ("privateKeyPath", VStr (PrivateKeyPath (SSH spec)))].

(** [buildK3sNodeManifest] *)
Definition buildK3sNodeManifest (cluster node role firstCP staticIP : string) (spec : ClusterSpec) : resource :=
  let s := [("vmRef", vm_ref node spec); ("role", VStr role); ("joinFrom", cp_ref firstCP "status.nodeToken");
            ("joinURLFrom", cp_ref firstCP "status.vmIP"); ("ssh", ssh_value spec)] in
  let s := set_if (nonempty (Version (K3s spec))) "version" (VStr (Version (K3s spec))) s in
  let s := set_if (negb (bool_decide (ExtraArgs (K3s spec) = []))) "extraArgs" (strings (ExtraArgs (K3s spec))) s in
  let s := set_if (nonempty staticIP) "vmIP" (VStr staticIP) s in
  child k3sAPIVersion kindK3sNode node (owner_labels cluster) s.

(** [buildAgentInstallManifest] *)
Definition buildAgentInstallManifest (cluster node staticIP : string) (spec : ClusterSpec) : resource :=
  child k3sAPIVersion kindAgentInstall (node +:+ "-agent") (owner_labels cluster)
    (set_if (nonempty staticIP) "vmIP" (VStr staticIP)
      [("vmRef", vm_ref node spec); ("clusterName", VStr cluster); ("ssh", ssh_value spec)]).

(** What [Plan] does to the first server's node. *)
Definition first_server (cpCount : Z) (r : resource) : resource :=
  let s := assoc_del "joinURLFrom" (assoc_del "joinFrom" (fields (r_spec r))) in
  with_spec r (Some (set_if (1 <? cpCount)%Z "clusterInit" (VBool true) s)).

Inductive cluster_plan_error : Type :=
| ErrNotCluster (kind : string)
| ErrNameRequired
| ErrNoControlPlane
| ErrNormalize (r : resource).

(** [normalizeSpec]: through JSON. *)
Definition normalizeSpec (r : resource) : result cluster_plan_error resource :=
  match r_spec r with
  | None => Ok r
  | Some s => if json_ok (VMap s) then Ok (with_spec r (Some (json_read_map s))) else Err (ErrNormalize r)
  end.

Definition plan_vm (cluster : string) (spec : ClusterSpec) (ips : list (string * string))
    (placement : list (string * PlacementTarget)) (cpCount : Z) (i : nat) (node : string) : resource :=
  buildVMManifest cluster node (Z.of_nat i) cpCount (sizeForNode (Z.of_nat i) cpCount spec)
    (default "" (assoc node ips)) (default (MkTarget "" "") (assoc node placement)) spec.

Definition plan_k3s (cluster : string) (spec : ClusterSpec) (ips : list (string * string)) (firstCP : string)
    (cpCount : Z) (i : nat) (node : string) : resource :=
  let role := if (cpCount <=? Z.of_nat i)%Z then "agent" else "server" in
  let r := buildK3sNodeManifest cluster node role firstCP (default "" (assoc node ips)) spec in
  if decide (i = 0 ∧ role = "server") then first_server cpCount r else r.

(** The addresses [Plan] uses: an allocation error is dropped. *)
Definition plan_ips (cluster : string) (spec : ClusterSpec) : list (string * string) :=
  match AllocateIPs cluster spec with Ok (Some ips) => ips | _ => [] end.

(** The children before [normalizeSpec]. *)
Definition raw_children (cluster : string) (spec : ClusterSpec) (firstCP : string) : list resource :=
  let cpCount := Z.of_nat (length (NodeNames cluster spec).1) in
  let nodes := all_nodes cluster spec in
  let ips := plan_ips cluster spec in
  imap (plan_vm cluster spec ips (PlacementTargets cluster spec) cpCount) nodes ++
  imap (plan_k3s cluster spec ips firstCP cpCount) nodes ++
  map (λ n, buildAgentInstallManifest cluster n (default "" (assoc n ips)) spec) nodes.

(** [Plan] *)
Definition Plan (manifest : resource) : result cluster_plan_error (list resource) :=
  if decide (r_kind manifest ≠ kindCluster) then Err (ErrNotCluster (r_kind manifest))
  else if decide (r_name manifest = "") then Err ErrNameRequired
  else
    let spec := ParseClusterSpec manifest in
    match (NodeNames (r_name manifest) spec).1 with
    | [] => Err ErrNoControlPlane
    | firstCP :: _ => mapR normalizeSpec (raw_children (r_name manifest) spec firstCP)
    end.

(** ** The apply graph *)

Definition taskStateStub : string := "@state-stub".
Definition taskCABundle : string := "@ca-bundle".

Definition of_kind (kind : string) (children : list resource) : list resource :=
  filter (λ c, r_kind c = kind) children.

(** The [deps] of [applyChildTask]. *)
Definition child_task (edges : adj) (extra : list string) (c : resource) : Task :=
  MkTask (ChildKey c) (extra ++ deps_of edges (ChildKey c)).

(** The task list of [applyClusterViaPlan]. *)
Definition apply_tasks (children : list resource) : list Task :=
  let edges := RefChildEdges children in
  let vms := of_kind kindVM children in
  let nodes := of_kind kindK3sNode children in
  map (child_task edges []) vms ++
  [MkTask taskStateStub (map ChildKey vms)] ++
  map (child_task edges [taskStateStub]) nodes ++
  [MkTask taskCABundle (map ChildKey nodes)] ++
  map (child_task edges [taskCABundle]) (of_kind kindAgentInstall children).

Inductive apply_plan_error : Type :=
| ErrPlan (e : cluster_plan_error)
| ErrNoVMs
| ErrNoNodes.

(** [applyClusterViaPlan], up to [RunGraph]. *)
Definition cluster_tasks (manifest : resource) : result apply_plan_error (list Task) :=
  match Plan manifest with
  | Err e => Err (ErrPlan e)
  | Ok children =>
      match of_kind kindVM children, of_kind kindK3sNode children with
      | [], _ => Err ErrNoVMs
      | _, [] => Err ErrNoNodes
      | _, _ => Ok (apply_tasks children)
      end
  end.

(** [applyConcurrency] *)
Definition applyConcurrency (env : string) : Z :=
  match atoi env with
  | Some n => if (0 <? n)%Z then n else 1
  | None => 1
  end.

(** ** Laws: values without floats and with allowed keys only *)

Fixpoint good (ok : string → bool) (v : value) : bool :=
  match v with
  | VFloat _ => false
  | VList l => forallb (good ok) l
  | VMap m => forallb (λ p, ok p.1 && good ok p.2) m
  | _ => true
  end.

Definition any_key (k : string) : bool := true.
Definition not_marker (k : string) : bool := bool_decide (k ≠ RefMarker).

Abbreviation refs_of := (markers (extractRef (G := unit))).

Section good.
Context (ok : string → bool).

Lemma good_assoc_set k v m :
  ok k = true → good ok v = true → good ok (VMap m) = true → good ok (VMap (assoc_set k v m)) = true.
Proof.
  intros Hk Hv. simpl. rewrite !forallb_Forall_true. induction 1 as [|[k' v'] m Hm Hl IH]; simpl.
  - constructor; [simpl; by rewrite Hk, Hv|constructor].
  - case_decide; constructor; [simpl; by rewrite Hk, Hv|exact Hl|exact Hm|exact IH].
Qed.

Lemma good_set_if c k v m :
  ok k = true → good ok v = true → good ok (VMap m) = true → good ok (VMap (set_if c k v m)) = true.
Proof. intros. destruct c; [by apply good_assoc_set|done]. Qed.

Lemma good_assoc k v m : good ok (VMap m) = true → assoc k m = Some v → good ok v = true.
Proof.
  simpl. rewrite forallb_Forall_true, Forall_forall. intros H Hk%assoc_elem.
  specialize (H _ Hk). simpl in H. by apply andb_true_iff in H as [_ ?].
Qed.

Lemma good_del k m : good ok (VMap m) = true → good ok (VMap (assoc_del k m)) = true.
Proof.
  simpl. rewrite !forallb_Forall_true. rewrite !Forall_forall. unfold assoc_del.
  intros H p [_ Hp]%list_elem_of_filter. by apply H.
Qed.

Lemma good_strings l : good ok (strings l) = true.
Proof. destruct l as [|x l]; [done|]. simpl. by induction l. Qed.

Lemma good_list l : Forall (λ v, good ok v = true) l → good ok (VList l) = true.
Proof. intros H. simpl. by rewrite forallb_Forall_true. Qed.
End good.

Lemma good_json ok v : good ok v = true → json_ok v = true.
Proof.
  induction v as [ |b|z|f|s|l IH|m IH] using value_ind'; simpl; try done; rewrite !forallb_Forall_true.
  - intros H. induction IH; inversion_clear H; constructor; auto.
  - intros H. induction IH; inversion_clear H as [|? ? Hp]; constructor; auto. apply andb_true_iff in Hp as []; auto.
Qed.

Lemma good_mono ok v : good ok v = true → good any_key v = true.
Proof.
  induction v as [ |b|z|f|s|l IH|m IH] using value_ind'; simpl; try done; rewrite !forallb_Forall_true.
  - intros H. induction IH; inversion_clear H; constructor; auto.
  - intros H. induction IH; inversion_clear H as [|? ? Hp]; constructor; auto. apply andb_true_iff in Hp as []; auto.
Qed.

(** A map without the marker key refers to what its values refer to. *)
Lemma refs_of_map m : assoc RefMarker m = None → refs_of (VMap m) = concat (map (λ p, refs_of p.2) m).
Proof. intros H. cbn [markers]. unfold extractRef. by rewrite H. Qed.

Lemma good_no_marker m : good not_marker (VMap m) = true → assoc RefMarker m = None.
Proof.
  simpl. rewrite forallb_Forall_true, Forall_forall. intros H. destruct (assoc RefMarker m) eqn:E; [|done].
  apply assoc_elem in E. by specialize (H _ E).
Qed.

Lemma good_refs v : good not_marker v = true → refs_of v = [].
Proof.
  induction v as [ |b|z|f|s|l IH|m IH] using value_ind'; try done; intros Hg.
  - simpl in *. rewrite forallb_Forall_true in Hg. induction IH as [|x l Hx _ IHl]; [done|].
    inversion_clear Hg. simpl. rewrite Hx, IHl; done.
  - rewrite refs_of_map by (by apply good_no_marker). simpl in Hg. rewrite forallb_Forall_true in Hg.
    induction IH as [|x l Hx _ IHl]; [done|]. inversion_clear Hg as [|? ? Hp]. apply andb_true_iff in Hp as [_ Hp].
    simpl. by rewrite Hx, IHl.
Qed.

(** [json.Marshal] and back keeps the references. *)
Lemma assoc_json_read k m : assoc k (json_read_map m) = json_read <$> assoc k m.
Proof. induction m as [|[k' v] m IH]; simpl; [done|]. by case_decide. Qed.

Lemma str_field_json_read k m : str_field k (json_read_map m) = str_field k m.
Proof. unfold str_field. rewrite assoc_json_read. by destruct (assoc k m) as [[]|]. Qed.

Lemma extractRef_json_read {G} m : extractRef (G := G) (json_read_map m) = extractRef m.
Proof.
  unfold extractRef. rewrite assoc_json_read. destruct (assoc RefMarker m) as [[]|]; try done.
  cbn [fmap option_fmap option_map json_read]. fold (json_read_map m0). by rewrite !(str_field_json_read _ m0).
Qed.

Lemma refs_json_read v : refs_of (json_read v) = refs_of v.
Proof.
  induction v as [ |b|z|f|s|l IH|m IH] using value_ind'; try done.
  - simpl. induction IH as [|x l Hx _ IHl]; [done|]. simpl. by rewrite Hx, IHl.
  - cbn [json_read markers]. fold (json_read_map m). rewrite extractRef_json_read.
    assert (concat (map (λ p, refs_of p.2) (json_read_map m)) = concat (map (λ p, refs_of p.2) m)) as ->; [|done].
    induction IH as [|[k x] l Hx _ IHl]; [done|]. simpl in *. by rewrite Hx, IHl.
Qed.

Lemma refs_set k v m :
  assoc RefMarker m = None → k ≠ RefMarker → assoc k m = None →
  refs_of (VMap (assoc_set k v m)) = refs_of (VMap m) ++ refs_of v.
Proof.
  intros Hm Hk Hf. rewrite !refs_of_map by (done || by rewrite assoc_set_ne).
  rewrite assoc_set_fresh by done. rewrite map_app, concat_app. simpl. by rewrite app_nil_r.
Qed.

(** ** Laws of the children *)

Definition norm (r : resource) : resource := with_spec r (json_read_map <$> r_spec r).

(** A child whose spec holds no float normalizes and refers to what it referred
    to before. *)
Definition child_ok (r : resource) : Prop := ∃ s, r_spec r = Some s ∧ good any_key (VMap s) = true.

Lemma normalize_children l : Forall child_ok l → mapR normalizeSpec l = Ok (map norm l).
Proof.
  intros H. apply mapR_Ok. induction H as [|r l (s & Hs & Hg) _ IH]; simpl; constructor; [|done].
  unfold normalizeSpec, norm. rewrite Hs. by rewrite (good_json _ _ Hg).
Qed.

Lemma Collect_norm r s x : r_spec r = Some s → x ∈ Collect (r_spec (norm r)) ↔ x ∈ refs_of (VMap s).
Proof.
  intros Hs. change (r_spec (norm r)) with (json_read_map <$> r_spec r). rewrite Hs.
  change (json_read_map <$> Some s) with (Some (json_read_map s)). rewrite (elem_of_Collect (G := unit)).
  change (VMap (json_read_map s)) with (json_read (VMap s)). by rewrite refs_json_read.
Qed.

Lemma ip_config_good ip spec : good not_marker (ip_config ip spec) = true.
Proof. unfold ip_config. destruct (nonempty ip); [|done]. by destruct (net_StaticIPs _). Qed.

Lemma cloud_image_good img : good not_marker (cloud_image img) = true.
Proof. unfold cloud_image. by repeat (apply good_set_if; try done). Qed.

Lemma gpu_devices_good ds : good not_marker (VList (omap gpu_device ds)) = true.
Proof.
  apply good_list. induction ds as [|d ds IH]; simpl; [constructor|].
  unfold gpu_device at 1. case_decide; [done|]. constructor; [|done].
  repeat (apply good_set_if; try done). by case_decide.
Qed.

Lemma vm_base_good size ip target spec : good not_marker (VMap (vm_base_spec size ip target spec)) = true.
Proof.
  unfold vm_base_spec.
  assert (good not_marker (VMap
    [("startOnCreate", VBool true); ("agent", VMap [("enabled", VBool true)]);
     ("cpu", VMap [("cores", VInt (CPUs size))]); ("memory", VMap [("size", VInt (MemoryMB size))]);
     ("disks", VList [VMap [("name", VStr "scsi0"); ("size", VStr (pretty (DiskGB size) +:+ "G"))]]);
     ("networks", VList [VMap [("name", VStr "net0");
        ("bridge", VStr (BridgeForContext (Network spec) (t_Context target))); ("model", VStr "virtio")]]);
     ("cloudInit", VMap [("user", VStr (User (SSH spec))); ("sshKeys", strings (PublicKeys (SSH spec)));
        ("ipConfig", ip_config ip spec)])]) = true) as Hbase.
  { cbn [good forallb fst snd]. by rewrite good_strings, ip_config_good. }
  destruct (nonempty (URL _)).
  - apply good_assoc_set; [done|apply cloud_image_good|]. by repeat (apply good_set_if; try done).
  - by repeat (apply good_set_if; try done).
Qed.

Lemma gpu_good s gpu : good not_marker (VMap s) = true → good not_marker (VMap (ApplyGPUToVMSpec s gpu)) = true.
Proof.
  intros Hs. destruct gpu as [g|]; [|done]. unfold ApplyGPUToVMSpec.
  set (s1 := assoc_set "bios" _ _).
  assert (good not_marker (VMap s1) = true) as H1 by (do 2 (apply good_assoc_set; [done..|]); done).
  set (cpu := match assoc "cpu" s1 with Some (VMap c) => _ | _ => _ end).
  assert (good not_marker (VMap cpu) = true) as Hc.
  { unfold cpu. destruct (assoc "cpu" s1) as [[ | | | | | |c]|] eqn:E; try done.
    apply good_assoc_set; [done..|]. by eapply good_assoc. }
  set (s2 := set_if _ "efiDisk" _ _).
  assert (good not_marker (VMap s2) = true) as H2 by (apply good_set_if; [done..|]; by apply good_assoc_set).
  destruct (omap gpu_device (Devices g)) eqn:E; [done|]. apply good_assoc_set; [done| |done].
  rewrite <-E. apply gpu_devices_good.
Qed.

Lemma nodeprep_good s np :
  good not_marker (VMap s) = true → good not_marker (VMap (ApplyNodePrepToVMSpec s np)) = true.
Proof.
  intros Hs. destruct np as [n|]; [|done]. unfold ApplyNodePrepToVMSpec. case_decide; [done|].
  apply good_assoc_set; [done| |done]. apply good_set_if; [done|apply good_strings|].
  apply good_set_if; [done|apply good_strings|].
  destruct (assoc "cloudInit" s) as [[ | | | | | |c]|] eqn:E; try done. by eapply good_assoc.
Qed.

Lemma plan_vm_spec cluster spec ips pl cp i n :
  ∃ s, r_spec (plan_vm cluster spec ips pl cp i n) = Some s ∧ good any_key (VMap s) = true ∧ refs_of (VMap s) = [].
Proof.
  eexists. split; [reflexivity|].
  match goal with |- good _ ?v = true ∧ _ => assert (good not_marker v = true) as Hg end.
  { apply nodeprep_good, gpu_good, vm_base_good. }
  split; [by eapply good_mono|by apply good_refs].
Qed.

(** ** What nodes and agents refer to *)

Definition the_vm_ref (spec : ClusterSpec) (node : string) : Ref := MkRef (providerVersion spec) kindVM node "".
Definition the_cp_refs (firstCP : string) : list Ref :=
  [MkRef k3sAPIVersion kindK3sNode firstCP "status.nodeToken"; MkRef k3sAPIVersion kindK3sNode firstCP "status.vmIP"].

Lemma str_app_ne (a b : string) : b ≠ "" → a +:+ b ≠ "".
Proof. destruct a; [by destruct b|done]. Qed.

Lemma refs_vm_ref node spec : node ≠ "" → refs_of (vm_ref node spec) = [the_vm_ref spec node].
Proof.
  intros Hn. cbn [vm_ref markers]. unfold extractRef. simpl (assoc RefMarker _). cbn beta iota.
  unfold str_field. simpl (as_str _). simpl (default _ _). cbn beta iota.
  rewrite decide_False; [done|]. intros [H|[H|H]]; [|done|done]. by apply (str_app_ne _ ".openctl.io/v1") in H.
Qed.

Lemma refs_cp_ref cp field : cp ≠ "" → refs_of (cp_ref cp field) = [MkRef k3sAPIVersion kindK3sNode cp field].
Proof.
  intros Hn. cbn [cp_ref markers]. unfold extractRef. simpl (assoc RefMarker _). cbn beta iota.
  unfold str_field. simpl (as_str _). simpl (default _ _). cbn beta iota.
  rewrite decide_False; [done|]. by intros [H|[H|H]].
Qed.

Lemma elem_of_assoc_set {V} k (v : V) m k' v' :
  (k', v') ∈ assoc_set k v m → (k', v') = (k, v) ∨ (k', v') ∈ m.
Proof.
  induction m as [|[k1 v1] m IH]; simpl; [intros ->%list_elem_of_singleton; by left|].
  case_decide; rewrite !elem_of_cons; naive_solver.
Qed.

Lemma assoc_set_keeps {V} k (v : V) m k' v' : (k', v') ∈ m → k' ≠ k → (k', v') ∈ assoc_set k v m.
Proof.
  intros Hin Hne. induction m as [|[k1 v1] m IH]; simpl; [by apply elem_of_nil in Hin|].
  apply elem_of_cons in Hin as [[= <- <-]|Hin]; case_decide; rewrite !elem_of_cons; naive_solver.
Qed.

Lemma elem_of_set_if c k v m k' v' : (k', v') ∈ set_if c k v m → (k', v') = (k, v) ∨ (k', v') ∈ m.
Proof. destruct c; [apply elem_of_assoc_set|by right]. Qed.

Lemma set_if_keeps c k v m k' v' : (k', v') ∈ m → k' ≠ k → (k', v') ∈ set_if c k v m.
Proof. destruct c; [by apply assoc_set_keeps|done]. Qed.

Lemma set_if_ne c k k' v m : k ≠ k' → assoc k' (set_if c k v m) = assoc k' m.
Proof. intros. destruct c; [by apply assoc_set_ne|done]. Qed.

Lemma elem_of_refs_map m x :
  assoc RefMarker m = None → x ∈ refs_of (VMap m) ↔ ∃ k v, (k, v) ∈ m ∧ x ∈ refs_of v.
Proof.
  intros Hm. rewrite refs_of_map by done. rewrite elem_of_concat. split.
  - intros (l & Hx & Hl). apply list_elem_of_fmap in Hl as ([k v] & -> & Hin). by exists k, v.
  - intros (k & v & Hin & Hx). exists (refs_of v). split; [done|]. apply list_elem_of_fmap. by exists (k, v).
Qed.

Definition k3s_lit (spec : ClusterSpec) (node role firstCP : string) : gomap :=
  [("vmRef", vm_ref node spec); ("role", VStr role); ("joinFrom", cp_ref firstCP "status.nodeToken");
   ("joinURLFrom", cp_ref firstCP "status.vmIP"); ("ssh", ssh_value spec)].

Definition k3s_spec (spec : ClusterSpec) (node role firstCP staticIP : string) : gomap :=
  set_if (nonempty staticIP) "vmIP" (VStr staticIP)
    (set_if (negb (bool_decide (ExtraArgs (K3s spec) = []))) "extraArgs" (strings (ExtraArgs (K3s spec)))
      (set_if (nonempty (Version (K3s spec))) "version" (VStr (Version (K3s spec)))
        (k3s_lit spec node role firstCP))).

Lemma k3s_spec_eq cluster node role firstCP ip spec :
  buildK3sNodeManifest cluster node role firstCP ip spec =
    child k3sAPIVersion kindK3sNode node (owner_labels cluster) (k3s_spec spec node role firstCP ip).
Proof. done. Qed.

Lemma refs_strings l : refs_of (strings l) = [].
Proof. apply good_refs, good_strings. Qed.

Lemma k3s_entries spec node role firstCP ip k v :
  (k, v) ∈ k3s_spec spec node role firstCP ip →
  (k, v) = ("vmRef", vm_ref node spec) ∨ (k, v) = ("joinFrom", cp_ref firstCP "status.nodeToken") ∨
  (k, v) = ("joinURLFrom", cp_ref firstCP "status.vmIP") ∨ refs_of v = [].
Proof.
  unfold k3s_spec, k3s_lit.
  intros [[= -> ->]|[[= -> ->]|[[= -> ->]|H]%elem_of_set_if]%elem_of_set_if]%elem_of_set_if;
    [do 3 right; (reflexivity || apply refs_strings)..|].
  rewrite !elem_of_cons in H. destruct H as [?|[[= -> ->]|[?|[?|[[= -> ->]|?%elem_of_nil]]]]];
    first [by auto | by do 3 right].
Qed.

Lemma k3s_keeps spec node role firstCP ip k v :
  (k, v) ∈ k3s_lit spec node role firstCP → (k, v) ∈ k3s_spec spec node role firstCP ip.
Proof.
  intros H. assert (k ∈ (k3s_lit spec node role firstCP).*1) as Hk by (apply list_elem_of_fmap; by exists (k, v)).
  simpl in Hk. rewrite !elem_of_cons in Hk.
  unfold k3s_spec. repeat apply set_if_keeps; try done;
    destruct Hk as [->|[->|[->|[->|[->|?%elem_of_nil]]]]]; done.
Qed.

Lemma k3s_no_marker spec node role firstCP ip : assoc RefMarker (k3s_spec spec node role firstCP ip) = None.
Proof. unfold k3s_spec. by rewrite !set_if_ne. Qed.

Lemma k3s_good spec node role firstCP ip : good any_key (VMap (k3s_spec spec node role firstCP ip)) = true.
Proof.
  unfold k3s_spec. repeat (apply good_set_if; [done|try done; apply good_strings|]). done.
Qed.

Lemma plan_k3s_refs cluster spec ips firstCP cp i n :
  n ≠ "" → firstCP ≠ "" → (1 ≤ cp)%Z →
  ∃ s, r_spec (plan_k3s cluster spec ips firstCP cp i n) = Some s ∧ good any_key (VMap s) = true ∧
    ∀ x, x ∈ refs_of (VMap s) ↔ x = the_vm_ref spec n ∨ (i ≠ 0 ∧ x ∈ the_cp_refs firstCP).
Proof.
  intros Hn Hf Hcp. unfold plan_k3s. cbv zeta. set (ip := default "" (assoc n ips)).
  destruct (decide (i = 0)) as [->|Hi].
  - rewrite (proj2 (Z.leb_gt cp _)) by lia. rewrite decide_True by done. rewrite k3s_spec_eq.
    set (s0 := k3s_spec spec n "server" firstCP ip).
    set (s1 := assoc_del "joinURLFrom" (assoc_del "joinFrom" s0)).
    exists (set_if (1 <? cp)%Z "clusterInit" (VBool true) s1). split; [done|]. split.
    { apply good_set_if; [done..|]. apply good_del, good_del, k3s_good. }
    assert (assoc RefMarker s1 = None) as Hm.
    { unfold s1. rewrite !assoc_del_ne by done. apply k3s_no_marker. }
    intros x. rewrite elem_of_refs_map by (by rewrite set_if_ne). split.
    + intros (k & v & [[= -> ->]|Hin]%elem_of_set_if & Hx); [by apply elem_of_nil in Hx|].
      unfold s1 in Hin. apply list_elem_of_filter in Hin as [Hk1 Hin]. apply list_elem_of_filter in Hin as [Hk2 Hin].
      left. apply k3s_entries in Hin as [[= -> ->]|[[= -> ->]|[[= -> ->]|H]]]; try done.
      * rewrite refs_vm_ref in Hx by done. by apply list_elem_of_singleton in Hx.
      * rewrite H in Hx. by apply elem_of_nil in Hx.
    + intros [->|[? _]]; [|done]. exists "vmRef", (vm_ref n spec). split.
      * apply set_if_keeps; [|done]. unfold s1. do 2 (apply list_elem_of_filter; split; [done|]).
        apply k3s_keeps. left.
      * rewrite refs_vm_ref by done. left.
  - rewrite decide_False by tauto. rewrite k3s_spec_eq. eexists. split; [reflexivity|]. split; [apply k3s_good|].
    intros x. rewrite elem_of_refs_map by apply k3s_no_marker. split.
    + intros (k & v & Hin & Hx). apply k3s_entries in Hin as [[= -> ->]|[[= -> ->]|[[= -> ->]|H]]].
      * rewrite refs_vm_ref in Hx by done. apply list_elem_of_singleton in Hx. by left.
      * rewrite refs_cp_ref in Hx by done. apply list_elem_of_singleton in Hx as ->. right. split; [done|left].
      * rewrite refs_cp_ref in Hx by done. apply list_elem_of_singleton in Hx as ->. right. split; [done|right; left].
      * rewrite H in Hx. by apply elem_of_nil in Hx.
    + intros [->|[_ Hx]].
      * exists "vmRef", (vm_ref n spec). split; [apply k3s_keeps; left|]. rewrite refs_vm_ref by done. left.
      * unfold the_cp_refs in Hx. rewrite elem_of_cons, list_elem_of_singleton in Hx. destruct Hx as [-> | ->].
        -- exists "joinFrom", (cp_ref firstCP "status.nodeToken"). split; [apply k3s_keeps; do 2 right; left|].
           rewrite refs_cp_ref by done. left.
        -- exists "joinURLFrom", (cp_ref firstCP "status.vmIP"). split; [apply k3s_keeps; do 3 right; left|].
           rewrite refs_cp_ref by done. left.
Qed.

Lemma agent_refs cluster node ip spec :
  node ≠ "" →
  ∃ s, r_spec (buildAgentInstallManifest cluster node ip spec) = Some s ∧ good any_key (VMap s) = true ∧
    ∀ x, x ∈ refs_of (VMap s) ↔ x = the_vm_ref spec node.
Proof.
  intros Hn. eexists. split; [reflexivity|]. split; [by apply good_set_if|].
  intros x. rewrite elem_of_refs_map by (by rewrite set_if_ne). split.
  - intros (k & v & [[= -> ->]|Hin]%elem_of_set_if & Hx); [by apply elem_of_nil in Hx|].
    rewrite !elem_of_cons in Hin. destruct Hin as [[= -> ->]|[[= -> ->]|[[= -> ->]|?%elem_of_nil]]]; try done.
    + rewrite refs_vm_ref in Hx by done. by apply list_elem_of_singleton in Hx.
    + by apply elem_of_nil in Hx.
    + by apply elem_of_nil in Hx.
  - intros ->. exists "vmRef", (vm_ref node spec). split; [apply set_if_keeps; [left|done]|].
    rewrite refs_vm_ref by done. left.
Qed.

(** ** The edges among children *)

Definition child_target (present : list string) (r : Ref) : option string :=
  if decide (Kind r +:+ "/" +:+ Name r ∈ present) then Some (Kind r +:+ "/" +:+ Name r) else None.

Definition child_deps (present : list string) (c : resource) : list string :=
  sorted_deps (child_target present) (ChildKey c) (r_spec c).

Definition edge_step (present : list string) (edges : adj) (c : resource) : adj :=
  match child_deps present c with
  | [] => edges
  | deps => assoc_set (ChildKey c) deps edges
  end.

Lemma RefChildEdges_fold children :
  RefChildEdges children = fold_left (edge_step (map ChildKey children)) children [].
Proof. done. Qed.

Lemma edge_fold present l e0 c :
  NoDup (map ChildKey l) →
  (c ∈ l → assoc (ChildKey c) e0 = None →
   deps_of (fold_left (edge_step present) l e0) (ChildKey c) = child_deps present c) ∧
  (ChildKey c ∉ map ChildKey l →
   assoc (ChildKey c) (fold_left (edge_step present) l e0) = assoc (ChildKey c) e0).
Proof.
  revert e0; induction l as [|x l IH]; intros e0 Hnd; simpl; [split; [by intros ?%elem_of_nil|done]|].
  simpl in Hnd. apply NoDup_cons in Hnd as [Hx Hnd]. destruct (IH (edge_step present e0 x) Hnd) as [IH1 IH2].
  assert (∀ k, k ≠ ChildKey x → assoc k (edge_step present e0 x) = assoc k e0) as Hother.
  { intros k Hk. unfold edge_step. destruct (child_deps present x); [done|]. by rewrite assoc_set_ne. }
  split.
  - intros [->|Hin]%elem_of_cons Hc.
    + unfold deps_of. rewrite IH2 by done. unfold edge_step.
      destruct (child_deps present x) eqn:E; [by rewrite Hc|]. by rewrite assoc_set_eq.
    + apply IH1; [done|]. rewrite Hother; [done|]. intros Heq. apply Hx. rewrite <-Heq. by apply list_elem_of_fmap_2.
  - rewrite not_elem_of_cons. intros [Hne Hni]. rewrite IH2 by done. by apply Hother.
Qed.

Lemma RefChildEdges_deps children c y :
  NoDup (map ChildKey children) → c ∈ children →
  y ∈ deps_of (RefChildEdges children) (ChildKey c) ↔
  y ≠ ChildKey c ∧ y ∈ map ChildKey children ∧ ∃ r, r ∈ Collect (r_spec c) ∧ y = Kind r +:+ "/" +:+ Name r.
Proof.
  intros Hnd Hc. rewrite RefChildEdges_fold.
  rewrite (proj1 (edge_fold (map ChildKey children) children [] c Hnd) Hc eq_refl).
  unfold child_deps. rewrite elem_of_sorted_deps. unfold child_target. split.
  - intros (Hne & r & Hr & Ht). case_decide as Hp; [|done]. injection Ht as <-. eauto.
  - intros (Hne & Hp & r & Hr & ->). split; [done|]. exists r. split; [done|]. by rewrite decide_True.
Qed.

(** ** The plan of a cluster *)

Definition vm_key (n : string) : string := kindVM +:+ "/" +:+ n.
Definition k3s_key (n : string) : string := kindK3sNode +:+ "/" +:+ n.
Definition agent_key (n : string) : string := kindAgentInstall +:+ "/" +:+ (n +:+ "-agent").

(** The dependencies a cluster's installation has. *)
Inductive cluster_dep (nodes : list string) (firstCP : string) : string → string → Prop :=
| dep_stub n : n ∈ nodes → cluster_dep nodes firstCP taskStateStub (vm_key n)
| dep_node_stub n : n ∈ nodes → cluster_dep nodes firstCP (k3s_key n) taskStateStub
| dep_node_vm n : n ∈ nodes → cluster_dep nodes firstCP (k3s_key n) (vm_key n)
| dep_join n : n ∈ nodes → n ≠ firstCP → cluster_dep nodes firstCP (k3s_key n) (k3s_key firstCP)
| dep_ca n : n ∈ nodes → cluster_dep nodes firstCP taskCABundle (k3s_key n)
| dep_agent_ca n : n ∈ nodes → cluster_dep nodes firstCP (agent_key n) taskCABundle
| dep_agent_vm n : n ∈ nodes → cluster_dep nodes firstCP (agent_key n) (vm_key n).

Lemma agent_key_inj n m : agent_key n = agent_key m → n = m.
Proof. intros H. apply (inj (String.append (kindAgentInstall +:+ "/"))) in H. by apply str_app_inj_r in H. Qed.

Lemma k3s_key_inj n m : k3s_key n = k3s_key m → n = m.
Proof. intros H. by apply (inj (String.append (kindK3sNode +:+ "/"))) in H. Qed.

Lemma vm_key_inj n m : vm_key n = vm_key m → n = m.
Proof. intros H. by apply (inj (String.append (kindVM +:+ "/"))) in H. Qed.

Section plan.
Context (cluster : string) (spec : ClusterSpec) (firstCP : string) (rest : list string).
Context (Hfirst : (NodeNames cluster spec).1 = firstCP :: rest).

Let nodes := all_nodes cluster spec.
Let cpCount := Z.of_nat (length (NodeNames cluster spec).1).
Let ips := plan_ips cluster spec.
Let pl := PlacementTargets cluster spec.

Lemma node_name_ne pool i : node_name cluster pool i ≠ "".
Proof. unfold node_name. by apply str_app_ne. Qed.

Lemma nodes_ne n : n ∈ nodes → n ≠ "".
Proof.
  unfold nodes. rewrite all_nodes_pools. intros (l & Hn & Hl)%elem_of_concat.
  apply list_elem_of_fmap in Hl as ([p w] & -> & _). apply elem_of_pool_nodes in Hn as (i & -> & _).
  apply node_name_ne.
Qed.

Lemma nodes_head : nodes !! 0 = Some firstCP.
Proof. unfold nodes, all_nodes. by rewrite Hfirst. Qed.

Lemma first_in : firstCP ∈ nodes.
Proof. eapply list_elem_of_lookup_2, nodes_head. Qed.

Lemma cpCount_pos : (1 ≤ cpCount)%Z.
Proof. unfold cpCount. rewrite Hfirst. simpl. lia. Qed.

Definition vms : list resource := imap (plan_vm cluster spec ips pl cpCount) nodes.
Definition k3ss : list resource := imap (plan_k3s cluster spec ips firstCP cpCount) nodes.
Definition agents : list resource :=
  map (λ n, buildAgentInstallManifest cluster n (default "" (assoc n ips)) spec) nodes.

Lemma raw_children_eq : raw_children cluster spec firstCP = vms ++ k3ss ++ agents.
Proof. done. Qed.

Lemma plan_k3s_kind i n :
  r_kind (plan_k3s cluster spec ips firstCP cpCount i n) = kindK3sNode ∧
  r_name (plan_k3s cluster spec ips firstCP cpCount i n) = n.
Proof. unfold plan_k3s. by case_decide. Qed.

Lemma k3s_child_key i n : ChildKey (norm (plan_k3s cluster spec ips firstCP cpCount i n)) = k3s_key n.
Proof.
  destruct (plan_k3s_kind i n) as [Hk Hn].
  change (r_kind (plan_k3s cluster spec ips firstCP cpCount i n) +:+ "/" +:+
    r_name (plan_k3s cluster spec ips firstCP cpCount i n) = k3s_key n). by rewrite Hk, Hn.
Qed.

Lemma raw_children_ok : Forall child_ok (raw_children cluster spec firstCP).
Proof.
  rewrite raw_children_eq. rewrite !Forall_app. split_and!; apply Forall_forall; intros r Hr.
  - apply elem_of_lookup_imap_1 in Hr as (i & n & -> & _).
    destruct (plan_vm_spec cluster spec ips pl cpCount i n) as (s & ? & ? & _). by exists s.
  - apply elem_of_lookup_imap_1 in Hr as (i & n & -> & Hn). apply list_elem_of_lookup_2 in Hn.
    destruct (plan_k3s_refs cluster spec ips firstCP cpCount i n) as (s & ? & ? & _);
      [by apply nodes_ne|apply nodes_ne, first_in|apply cpCount_pos|]. by exists s.
  - apply list_elem_of_fmap in Hr as (n & -> & Hn).
    destruct (agent_refs cluster n (default "" (assoc n ips)) spec) as (s & ? & ? & _); [by apply nodes_ne|]. by exists s.
Qed.

Definition children : list resource := map norm vms ++ map norm k3ss ++ map norm agents.

Lemma plan_children : mapR normalizeSpec (raw_children cluster spec firstCP) = Ok children.
Proof.
  rewrite normalize_children by apply raw_children_ok. rewrite raw_children_eq. by rewrite !map_app.
Qed.

Lemma imap_map_const {A B C} (f : nat → A → B) (g : B → C) (h : A → C) l :
  (∀ i x, g (f i x) = h x) → map g (imap f l) = map h l.
Proof.
  intros H. revert f H; induction l as [|x l IH]; intros f H; [done|]. simpl. rewrite H. f_equal. apply IH.
  intros i y. apply H.
Qed.

Lemma vms_keys : map ChildKey (map norm vms) = map vm_key nodes.
Proof. rewrite map_map. by apply imap_map_const. Qed.

Lemma k3ss_keys : map ChildKey (map norm k3ss) = map k3s_key nodes.
Proof.
  rewrite map_map. apply imap_map_const. exact k3s_child_key.
Qed.

Lemma agents_keys : map ChildKey (map norm agents) = map agent_key nodes.
Proof. unfold agents. by rewrite !map_map. Qed.

Lemma children_keys : map ChildKey children = map vm_key nodes ++ map k3s_key nodes ++ map agent_key nodes.
Proof. unfold children. by rewrite !map_app, vms_keys, k3ss_keys, agents_keys. Qed.

Lemma filter_all {A} (P : A → Prop) `{∀ x, Decision (P x)} l : Forall P l → filter P l = l.
Proof. induction 1 as [|x l Hx _ IH]; [done|]. by rewrite filter_cons, decide_True, IH. Qed.

Lemma kinds_of (l : list resource) k : (∀ c, c ∈ l → r_kind c = k) →
  ∀ k', of_kind k' l = if decide (k = k') then l else [].
Proof.
  intros H k'. unfold of_kind. case_decide as Hk.
  - apply filter_all, Forall_forall. intros c Hc. by rewrite (H c Hc).
  - apply filter_none, Forall_forall. intros c Hc. by rewrite (H c Hc).
Qed.

Lemma children_kinds :
  of_kind kindVM children = map norm vms ∧ of_kind kindK3sNode children = map norm k3ss ∧
  of_kind kindAgentInstall children = map norm agents.
Proof.
  assert (∀ c, c ∈ map norm vms → r_kind c = kindVM) as H1.
  { intros c Hc. apply list_elem_of_fmap in Hc as (r & -> & Hr). by apply elem_of_lookup_imap_1 in Hr as (i & n & -> & _). }
  assert (∀ c, c ∈ map norm k3ss → r_kind c = kindK3sNode) as H2.
  { intros c Hc. apply list_elem_of_fmap in Hc as (r & -> & Hr). apply elem_of_lookup_imap_1 in Hr as (i & n & -> & _).
    apply plan_k3s_kind. }
  assert (∀ c, c ∈ map norm agents → r_kind c = kindAgentInstall) as H3.
  { intros c Hc. apply list_elem_of_fmap in Hc as (r & -> & Hr). by apply list_elem_of_fmap in Hr as (n & -> & _). }
  unfold children. unfold of_kind. rewrite !filter_app.
  pose proof (kinds_of _ _ H1) as E1. pose proof (kinds_of _ _ H2) as E2. pose proof (kinds_of _ _ H3) as E3.
  unfold of_kind in E1, E2, E3. rewrite !E1, !E2, !E3. simpl. by rewrite !app_nil_r.
Qed.

Context (Hnd : NoDup nodes).

Lemma children_NoDup : NoDup (map ChildKey children).
Proof.
  rewrite children_keys. rewrite !NoDup_app. split_and!.
  - by apply (NoDup_fmap_2_strong vm_key); [intros ????; apply vm_key_inj|].
  - intros x Hx. apply list_elem_of_fmap in Hx as (n & -> & _). rewrite elem_of_app, !list_elem_of_fmap.
    by intros [(m & ? & _)|(m & ? & _)].
  - by apply (NoDup_fmap_2_strong k3s_key); [intros ????; apply k3s_key_inj|].
  - intros x Hx. apply list_elem_of_fmap in Hx as (n & -> & _). rewrite list_elem_of_fmap. by intros (m & ? & _).
  - by apply (NoDup_fmap_2_strong agent_key); [intros ????; apply agent_key_inj|].
Qed.

(** The edges of one child whose references are known. *)
Lemma child_edges c s y :
  norm c ∈ children → r_spec c = Some s →
  y ∈ deps_of (RefChildEdges children) (ChildKey (norm c)) ↔
  y ≠ ChildKey (norm c) ∧ y ∈ map ChildKey children ∧ ∃ r, r ∈ refs_of (VMap s) ∧ y = Kind r +:+ "/" +:+ Name r.
Proof.
  intros Hc Hs. rewrite RefChildEdges_deps by (done || apply children_NoDup).
  setoid_rewrite (Collect_norm c s); done.
Qed.

Lemma vm_in n : n ∈ nodes → vm_key n ∈ map ChildKey children.
Proof. intros Hn. rewrite children_keys, !elem_of_app. left. by apply list_elem_of_fmap_2. Qed.
Lemma k3s_in n : n ∈ nodes → k3s_key n ∈ map ChildKey children.
Proof. intros Hn. rewrite children_keys, !elem_of_app. right. left. by apply list_elem_of_fmap_2. Qed.

Lemma vm_edges i n y :
  nodes !! i = Some n →
  y ∉ deps_of (RefChildEdges children) (ChildKey (norm (plan_vm cluster spec ips pl cpCount i n))).
Proof.
  intros Hn. destruct (plan_vm_spec cluster spec ips pl cpCount i n) as (s & Hs & _ & Hr).
  rewrite (child_edges _ s) by (done || (apply elem_of_app; left; apply list_elem_of_fmap_2; by eapply elem_of_lookup_imap_2)).
  rewrite Hr. by intros (_ & _ & r & ?%elem_of_nil & _).
Qed.

Lemma k3s_edges i n y :
  nodes !! i = Some n →
  y ∈ deps_of (RefChildEdges children) (ChildKey (norm (plan_k3s cluster spec ips firstCP cpCount i n))) ↔
  y = vm_key n ∨ (n ≠ firstCP ∧ y = k3s_key firstCP).
Proof.
  intros Hn. pose proof (list_elem_of_lookup_2 _ _ _ Hn) as Hin.
  destruct (plan_k3s_refs cluster spec ips firstCP cpCount i n) as (s & Hs & _ & Hr);
    [by apply nodes_ne|apply nodes_ne, first_in|apply cpCount_pos|].
  rewrite (child_edges _ s) by (done || (apply elem_of_app; right; apply elem_of_app; left;
    apply list_elem_of_fmap_2; by eapply elem_of_lookup_imap_2)).
  rewrite k3s_child_key.
  assert (i ≠ 0 ↔ n ≠ firstCP) as Hfst.
  { pose proof nodes_head as H0. split.
    - intros Hi ->. apply Hi. eapply NoDup_lookup; [exact Hnd|exact Hn|exact H0].
    - intros Hne ->. congruence. }
  split.
  - intros (Hne & _ & r & Hx & ->). apply Hr in Hx as [->|[Hi Hx]]; [by left|right]. split; [by apply Hfst|].
    unfold the_cp_refs in Hx. rewrite elem_of_cons, list_elem_of_singleton in Hx. by destruct Hx as [-> | ->].
  - intros [->|[Hne ->]].
    + split; [done|]. split; [by apply vm_in|]. exists (the_vm_ref spec n). split; [apply Hr; by left|done].
    + split; [intros Heq%k3s_key_inj; congruence|]. split; [apply k3s_in, first_in|].
      exists (MkRef k3sAPIVersion kindK3sNode firstCP "status.nodeToken"). split; [|done].
      apply Hr. right. split; [by apply Hfst|left].
Qed.

Lemma agent_edges n y :
  n ∈ nodes →
  y ∈ deps_of (RefChildEdges children)
        (ChildKey (norm (buildAgentInstallManifest cluster n (default "" (assoc n ips)) spec))) ↔ y = vm_key n.
Proof.
  intros Hn. destruct (agent_refs cluster n (default "" (assoc n ips)) spec) as (s & Hs & _ & Hr); [by apply nodes_ne|].
  rewrite (child_edges _ s) by (done || (apply elem_of_app; right; apply elem_of_app; right;
    apply list_elem_of_fmap_2; by apply (list_elem_of_fmap_2 (λ n, buildAgentInstallManifest cluster n (default "" (assoc n ips)) spec)))).
  split.
  - intros (_ & _ & r & ->%Hr & ->). done.
  - intros ->. split; [done|]. split; [by apply vm_in|]. exists (the_vm_ref spec n). split; [by apply Hr|done].
Qed.

Lemma tasks_eq :
  apply_tasks children =
    map (child_task (RefChildEdges children) []) (map norm vms) ++ [MkTask taskStateStub (map vm_key nodes)] ++
    map (child_task (RefChildEdges children) [taskStateStub]) (map norm k3ss) ++
    [MkTask taskCABundle (map k3s_key nodes)] ++
    map (child_task (RefChildEdges children) [taskCABundle]) (map norm agents).
Proof.
  unfold apply_tasks. destruct children_kinds as (-> & -> & ->). by rewrite vms_keys, k3ss_keys.
Qed.

Lemma tasks_ids :
  map ID (apply_tasks children) =
    map vm_key nodes ++ [taskStateStub] ++ map k3s_key nodes ++ [taskCABundle] ++ map agent_key nodes.
Proof.
  rewrite tasks_eq, !map_app. simpl.
  assert (∀ extra l, map ID (map (child_task (RefChildEdges children) extra) l) = map ChildKey l) as H.
  { intros. by rewrite map_map. }
  by rewrite !H, vms_keys, k3ss_keys, agents_keys.
Qed.

Lemma tasks_NoDup : NoDup (map ID (apply_tasks children)).
Proof.
  rewrite tasks_ids. pose proof children_NoDup as H. rewrite children_keys in H.
  rewrite !NoDup_app in H. destruct H as (H1 & H2 & H3 & H4 & H5).
  assert (∀ (f : string → string) x, (∀ n, f n ≠ x) → x ∉ map f nodes) as Hf.
  { intros f x Hne Hin. apply list_elem_of_fmap in Hin as (n & Heq & _). by apply (Hne n). }
  rewrite !NoDup_app. split_and!; try done; try apply NoDup_singleton.
  - intros x Hx. specialize (H2 x Hx). rewrite !elem_of_app in *. rewrite !list_elem_of_singleton.
    apply list_elem_of_fmap in Hx as (n & -> & _). naive_solver.
  - intros x ->%list_elem_of_singleton. rewrite !elem_of_app, list_elem_of_singleton.
    intros [H|[?|H]]; [|done|]; by eapply Hf in H.
  - intros x Hx. specialize (H4 x Hx). rewrite !elem_of_app, list_elem_of_singleton.
    apply list_elem_of_fmap in Hx as (n & -> & _). naive_solver.
  - intros x ->%list_elem_of_singleton H. by eapply Hf in H.
Qed.

(** Where the tasks of the children are. *)
Lemma k3s_task i n :
  nodes !! i = Some n →
  child_task (RefChildEdges children) [taskStateStub] (norm (plan_k3s cluster spec ips firstCP cpCount i n))
    ∈ apply_tasks children.
Proof.
  intros Hn. rewrite tasks_eq, !elem_of_app. do 2 right. left.
  apply list_elem_of_fmap_2, list_elem_of_fmap_2. by eapply elem_of_lookup_imap_2.
Qed.

Lemma agent_task n :
  n ∈ nodes →
  child_task (RefChildEdges children) [taskCABundle]
    (norm (buildAgentInstallManifest cluster n (default "" (assoc n ips)) spec)) ∈ apply_tasks children.
Proof.
  intros Hn. rewrite tasks_eq, !elem_of_app. do 4 right. apply list_elem_of_fmap_2, list_elem_of_fmap_2.
  by apply (list_elem_of_fmap_2 (λ n, buildAgentInstallManifest cluster n (default "" (assoc n ips)) spec)).
Qed.

Lemma tasks_deps_sound t y :
  t ∈ apply_tasks children → y ∈ DependsOn t → cluster_dep nodes firstCP (ID t) y.
Proof.
  rewrite tasks_eq, !elem_of_app, !list_elem_of_singleton, !map_map.
  intros [Ht|[->|[Ht|[->|Ht]]]] Hy.
  - apply list_elem_of_fmap in Ht as (c & -> & Hc).
    apply elem_of_lookup_imap_1 in Hc as (i & n & -> & Hn). simpl in Hy. by apply vm_edges in Hy.
  - simpl in *. apply list_elem_of_fmap in Hy as (n & -> & Hn). by constructor.
  - apply list_elem_of_fmap in Ht as (c & -> & Hc).
    apply elem_of_lookup_imap_1 in Hc as (i & n & -> & Hn). pose proof (list_elem_of_lookup_2 _ _ _ Hn) as Hin.
    unfold child_task in *. cbn [DependsOn ID] in *. rewrite k3s_child_key.
    apply elem_of_app in Hy as [->%list_elem_of_singleton|Hy]; [by constructor|].
    apply k3s_edges in Hy as [->|[? ->]]; [by constructor..|done].
  - simpl in *. apply list_elem_of_fmap in Hy as (n & -> & Hn). by constructor.
  - unfold agents in Ht. rewrite map_map in Ht. apply list_elem_of_fmap in Ht as (n & -> & Hn).
    unfold child_task in Hy. cbn [DependsOn] in Hy. apply elem_of_app in Hy as [->%list_elem_of_singleton|Hy].
    + change (cluster_dep nodes firstCP (agent_key n) taskCABundle). by constructor.
    + apply agent_edges in Hy as ->; [|done]. change (cluster_dep nodes firstCP (agent_key n) (vm_key n)). by constructor.
Qed.

Lemma tasks_deps x y :
  dep_rel (graph_of (apply_tasks children)) x y ↔ cluster_dep nodes firstCP x y.
Proof.
  split; [intros (t & Ht & <- & Hy)%deps_of_graph; by apply tasks_deps_sound|].
  assert (∀ t y, t ∈ apply_tasks children → y ∈ DependsOn t → dep_rel (graph_of (apply_tasks children)) (ID t) y) as Hd.
  { intros. apply task_dep; [apply tasks_NoDup|done..]. }
  assert (∀ n y, n ∈ nodes → y = taskStateStub ∨ y = vm_key n ∨ (n ≠ firstCP ∧ y = k3s_key firstCP) →
    dep_rel (graph_of (apply_tasks children)) (k3s_key n) y) as Hk.
  { intros n z Hn Hz. apply list_elem_of_lookup in Hn as [i Hi]. pose proof (k3s_task i n Hi) as Ht.
    rewrite <-(k3s_child_key i n). apply (Hd _ z Ht). unfold child_task. cbn [DependsOn]. apply elem_of_app.
    destruct Hz as [->|Hz]; [left; by apply list_elem_of_singleton|right]. by apply k3s_edges. }
  assert (∀ n y, n ∈ nodes → y = taskCABundle ∨ y = vm_key n →
    dep_rel (graph_of (apply_tasks children)) (agent_key n) y) as Ha.
  { intros n z Hn Hz. apply (Hd _ z (agent_task n Hn)). unfold child_task. cbn [DependsOn]. apply elem_of_app.
    destruct Hz as [->|Hz]; [left; by apply list_elem_of_singleton|right]. by apply agent_edges. }
  assert (∀ t, t ∈ [MkTask taskStateStub (map vm_key nodes); MkTask taskCABundle (map k3s_key nodes)] →
    t ∈ apply_tasks children) as Hbar.
  { intros t Ht. rewrite tasks_eq, !elem_of_app, !list_elem_of_singleton. rewrite elem_of_cons, list_elem_of_singleton in Ht.
    tauto. }
  intros [n Hn|n Hn|n Hn|n Hn Hne|n Hn|n Hn|n Hn]; try (apply Hk; by auto); try (apply Ha; by auto).
  - apply (Hd (MkTask taskStateStub (map vm_key nodes))); [apply Hbar; left|]. by apply list_elem_of_fmap_2.
  - apply (Hd (MkTask taskCABundle (map k3s_key nodes))); [apply Hbar; right; left|]. by apply list_elem_of_fmap_2.
Qed.

(** The phases of an installation rank the tasks. *)
Definition phase (x : string) : nat :=
  if has_prefix (kindVM +:+ "/") x then 0
  else if decide (x = taskStateStub) then 1
  else if decide (x = k3s_key firstCP) then 2
  else if has_prefix (kindK3sNode +:+ "/") x then 3
  else if decide (x = taskCABundle) then 4
  else 5.

Lemma cluster_dep_phase x y : cluster_dep nodes firstCP x y → phase y < phase x.
Proof.
  assert (∀ n, phase (vm_key n) = 0) as Hv.
  { intros n. unfold phase, vm_key. change (kindVM +:+ "/" +:+ n) with ((kindVM +:+ "/") +:+ n). by rewrite has_prefix_app. }
  assert (∀ n, 2 ≤ phase (k3s_key n) ≤ 3 ∧ (n ≠ firstCP → phase (k3s_key n) = 3)) as Hk.
  { intros n. unfold phase. replace (has_prefix (kindVM +:+ "/") (k3s_key n)) with false by done.
    rewrite decide_False by done. case_decide as Hf.
    - split; [lia|]. intros Hne. by apply k3s_key_inj in Hf.
    - change (k3s_key n) with ((kindK3sNode +:+ "/") +:+ n). rewrite has_prefix_app. split; [lia|done]. }
  assert (∀ n, phase (agent_key n) = 5) as Ha by done.
  assert (phase (k3s_key firstCP) = 2) as Hf.
  { unfold phase. replace (has_prefix (kindVM +:+ "/") (k3s_key firstCP)) with false by done.
    rewrite decide_False by done. by rewrite decide_True. }
  assert (phase taskStateStub = 1 ∧ phase taskCABundle = 4) as [Hs Hc] by done.
  intros [n Hn|n Hn|n Hn|n Hn Hne|n Hn|n Hn|n Hn]; rewrite ?Hv, ?Ha, ?Hs, ?Hc, ?Hf;
    pose proof (Hk n) as [? Hk3]; try lia. rewrite Hk3 by done. lia.
Qed.

Lemma tasks_closed : Forall (λ t, Forall (λ d, d ∈ map ID (apply_tasks children)) (DependsOn t)) (apply_tasks children).
Proof.
  apply Forall_forall. intros t Ht. apply Forall_forall. intros y Hy.
  apply tasks_deps_sound in Hy; [|done]. rewrite tasks_ids, !elem_of_app, !list_elem_of_singleton.
  pose proof (list_elem_of_fmap_2 vm_key nodes) as Hv. pose proof (list_elem_of_fmap_2 k3s_key nodes) as Hk.
  pose proof first_in as Hf. destruct Hy; auto 6.
Qed.
End plan.

(** ** Properties *)

(** A cluster expands into one VirtualMachine, one K3sNode and one
    AgentInstall per node, in this order; planning succeeds exactly for a named
    Cluster with at least one control-plane node, whatever else its spec holds. *)
Theorem Plan_children manifest :
  (is_ok (Plan manifest) = true ↔
     r_kind manifest = kindCluster ∧ r_name manifest ≠ "" ∧ (0 < p_Count (ControlPlane (ParseClusterSpec manifest)))%Z) ∧
  (∀ children, Plan manifest = Ok children →
     let nodes := all_nodes (r_name manifest) (ParseClusterSpec manifest) in
     map ChildKey children = map vm_key nodes ++ map k3s_key nodes ++ map agent_key nodes).
Proof.
  unfold Plan. case_decide as Hk; [split; [by split; [|intros [? _]]|done]|].
  case_decide as Hn; [split; [by split; [|intros (_ & ? & _)]|done]|].
  assert (r_kind manifest = kindCluster) as Hkind by (by destruct (decide (r_kind manifest = kindCluster))).
  destruct (NodeNames _ _).1 as [|firstCP rest] eqn:E.
  - split; [|done]. split; [done|]. intros (_ & _ & Hc). unfold NodeNames, pool_nodes, loop_to in E. simpl in E.
    apply (f_equal length) in E. rewrite length_map, length_seq in E. simpl in E. lia.
  - rewrite (plan_children _ _ _ _ E). split.
    + split; [|done]. intros _. split_and!; [done..|].
      unfold NodeNames, pool_nodes, loop_to in E. simpl in E. apply (f_equal length) in E.
      rewrite length_map, length_seq in E. simpl in E. lia.
    + intros children [= <-]. apply children_keys.
Qed.

Definition ex_num (z : Z) : value := VFloat (f64_of_Z z).
Definition ex_manifest (cp workers : Z) (network : gomap) : resource :=
  Resource k3sAPIVersion kindCluster (ResourceMetadata "k" "" [] [] "" "")
    (Some [("compute", VMap [("provider", VStr "proxmox"); ("context", VStr "east")]);
           ("nodes", VMap [("controlPlane", VMap [("count", ex_num cp)]);
                           ("workers", VList [VMap [("name", VStr "w"); ("count", ex_num workers)]])]);
           ("network", VMap network)]) None.

Lemma Plan_children_witness :
  map ChildKey (ok_or (Plan (ex_manifest 1 1 [])) []) =
    ["VirtualMachine/k-cp-0"; "VirtualMachine/k-w-0"; "K3sNode/k-cp-0"; "K3sNode/k-w-0";
     "AgentInstall/k-cp-0-agent"; "AgentInstall/k-w-0-agent"] ∧
  is_ok (Plan (ex_manifest 0 3 [])) = false.
Proof.
  destruct (Plan_children (ex_manifest 1 1 [])) as [_ H].
  destruct (Plan (ex_manifest 1 1 [])) as [children|e] eqn:E.
  - split; [|vm_compute; reflexivity]. exact (H children eq_refl).
  - apply (f_equal is_ok) in E. vm_compute in E. discriminate E.
Defined.

(** C6: Installing a cluster is ordered by a graph that [RunGraph] accepts: with
    distinct node names the tasks have distinct ids and known, acyclic
    dependencies, which are exactly those of an installation; so whatever
    finishes when, a node is installed only after every VM is up and, unless it
    is the first server, after the first server; an agent is installed only
    after every node. *)
Theorem cluster_install_order {E} manifest firstCP rest :
  let cluster := r_name manifest in
  let spec := ParseClusterSpec manifest in
  let nodes := all_nodes cluster spec in
  r_kind manifest = kindCluster → cluster ≠ "" → (NodeNames cluster spec).1 = firstCP :: rest → NoDup nodes →
  ∃ tasks, cluster_tasks manifest = Ok tasks ∧ (∃ st : gstate E, setup tasks = Ok st) ∧
    (∀ x y, dep_rel (graph_of tasks) x y ↔ cluster_dep nodes firstCP x y) ∧ acyclic (dep_rel (graph_of tasks)) ∧
    ∀ concurrency (st : gstate E) n, g_reach concurrency tasks st → n ∈ nodes →
      (k3s_key n ∈ g_inflight st →
         (∀ m, m ∈ nodes → (vm_key m, None) ∈ g_done st) ∧ (n ≠ firstCP → (k3s_key firstCP, None) ∈ g_done st)) ∧
      (agent_key n ∈ g_inflight st → ∀ m, m ∈ nodes → (k3s_key m, None) ∈ g_done st).
Proof.
  intros cluster spec nodes Hkind Hname Hfirst Hnd. exists (apply_tasks (children cluster spec firstCP)).
  pose proof (tasks_deps cluster spec firstCP rest Hfirst Hnd) as Hdeps.
  split_and!.
  - unfold cluster_tasks, Plan. rewrite decide_False by (intros H; by apply H). rewrite decide_False by done.
    fold cluster spec. rewrite Hfirst. rewrite (plan_children _ _ _ _ Hfirst).
    destruct (children_kinds cluster spec firstCP) as (-> & -> & _). unfold vms, k3ss.
    pose proof (nodes_head cluster spec firstCP rest Hfirst) as H0.
    by destruct (all_nodes cluster spec) as [|n0 ns] eqn:En.
  - unfold setup. rewrite first_dup_NoDup; [|by eapply tasks_NoDup|intros ? _; apply not_elem_of_nil].
    rewrite first_unknown_closed by (by eapply tasks_closed). by eexists.
  - exact Hdeps.
  - apply (ranked_acyclic _ (phase firstCP)). intros x y Hxy%Hdeps. by eapply cluster_dep_phase.
  - intros concurrency st n [_ Hinv]%g_reach_inv Hn.
    assert (∀ x y, x ∈ g_inflight st ∨ (x, None) ∈ g_done st → cluster_dep nodes firstCP x y → (y, None) ∈ g_done st) as Hd.
    { intros x y Hx Hxy. apply (gi_deps _ _ _ Hinv x); [|by apply Hdeps]. rewrite !elem_of_app.
      destruct Hx as [Hx|Hx]; [by left; right|right]. by apply (list_elem_of_fmap_2 fst) in Hx. }
    split.
    + intros Hi. split.
      * intros m Hm. apply (Hd taskStateStub); [right|by constructor]. apply (Hd (k3s_key n)); [by left|by constructor].
      * intros Hne. apply (Hd (k3s_key n)); [by left|by constructor].
    + intros Hi m Hm. apply (Hd taskCABundle); [right|by constructor]. apply (Hd (agent_key n)); [by left|by constructor].
Qed.

Lemma cluster_install_order_witness :
  ∃ tasks, cluster_tasks (ex_manifest 2 1 []) = Ok tasks ∧ acyclic (dep_rel (graph_of tasks)).
Proof.
  destruct (cluster_install_order (E := string) (ex_manifest 2 1 []) "k-cp-0" ["k-cp-1"])
    as (tasks & H1 & _ & _ & H2 & _).
  - reflexivity.
  - discriminate.
  - vm_compute. reflexivity.
  - by_decide.
  - exists tasks. split; [exact H1|exact H2].
Defined.

(** The addresses a child's spec carries. *)
Definition spec_at (key : string) (c : resource) : option value := assoc key (fields (r_spec c)).

Definition ex_block (start : string) : value :=
  VMap [("staticIPs", VMap [("startIP", VStr start); ("gateway", VStr "10.1.0.1"); ("netmask", VStr "24")])].

Definition vm_ip (c : resource) : option value :=
  match spec_at "cloudInit" c with
  | Some (VMap ci) => match assoc "ipConfig" ci with
                      | Some (VMap cfg) => match assoc "net0" cfg with Some (VMap n) => assoc "ip" n | _ => None end
                      | _ => None
                      end
  | _ => None
  end.

(** Planning a cluster with per-context networks does not do what its
    allocator promises: a node whose context has no address block fails the
    allocation, yet the plan succeeds and lets the node use DHCP; and with a
    block, the node's address is allocated and handed to the K3sNode, yet its VM
    is configured for DHCP. *)
Theorem Plan_per_context_network :
  let bad := ex_manifest 1 0 [("perContext", VMap [("west", ex_block "10.2.0.10")])] in
  let good := ex_manifest 1 0 [("perContext", VMap [("east", ex_block "10.1.0.10")])] in
  AllocateIPs "k" (ParseClusterSpec bad) = Err (ErrNoBlock "east") ∧
  map vm_ip (of_kind kindVM (ok_or (Plan bad) [])) = [Some (VStr "dhcp")] ∧
  AllocateIPs "k" (ParseClusterSpec good) = Ok (Some [("k-cp-0", "10.1.0.10")]) ∧
  map (spec_at "vmIP") (of_kind kindK3sNode (ok_or (Plan good) [])) = [Some (VStr "10.1.0.10")] ∧
  map vm_ip (of_kind kindVM (ok_or (Plan good) [])) = [Some (VStr "dhcp")].
Proof. cbv zeta. split_and!; vm_compute; reflexivity. Qed.
