(* ===== verification/ClusterDiff.v ===== *)
(** What a re-apply of an existing K3s cluster would change, and what it would
    break: src/internal/controller/providers/k3s/diff.go, respec.go and
    dryrun.go. Sets of names are [gset]s; a nil [error] reason is [None]. *)
From S2P Require Import Prelude GoStrings GoValue Registry ClusterSpec ClusterPlan.
From Stdlib Require Import Ascii.

(** [childRef]: a child as a cluster's state file lists it (provider.go). *)
Record childRef : Type := MkChildRef { cr_Provider : string; cr_Kind : string; cr_Name : string }.

#[export] Instance childRef_eq_dec : EqDecision childRef.
Proof. solve_decision. Defined.

(** The names of the VirtualMachine children: every loop over the children skips
    the others. *)
Definition vm_names (current : list childRef) : list string :=
  map cr_Name (filter (λ c, cr_Kind c = kindVM) current).

Definition cp_prefix (cluster : string) : string := cluster +:+ "-cp-".

(** ** Structural difference *)

Record changePlan : Type := MkChangePlan {
  removeCPs : list string; removeWorkers : list string; addCPs : list string; addWorkers : list string }.

(** [hasChanges] *)
Definition hasChanges (p : changePlan) : bool :=
  0 <? length (removeCPs p) + length (removeWorkers p) + length (addCPs p) + length (addWorkers p).

(** [removesAny] *)
Definition removesAny (p : changePlan) : bool := 0 <? length (removeCPs p) + length (removeWorkers p).

(** [toSet] *)
Definition toSet (l : list string) : gset string := list_to_set l.

(** The classification of [computeChangePlan]: strictly longer than the prefix. *)
Definition plan_cp (cluster n : string) : bool :=
  (String.length (cp_prefix cluster) <? String.length n) && has_prefix (cp_prefix cluster) n.

Definition haveCPSet (cluster : string) (current : list childRef) : gset string :=
  toSet (filter (λ n, plan_cp cluster n = true) (vm_names current)).
Definition haveWorkerSet (cluster : string) (current : list childRef) : gset string :=
  toSet (filter (λ n, plan_cp cluster n = false) (vm_names current)).

(** [computeChangePlan] *)
Definition computeChangePlan (cluster : string) (spec : ClusterSpec) (current : list childRef) : changePlan :=
  let '(wantCPs, wantWorkers) := NodeNames cluster spec in
  let haveCPs := haveCPSet cluster current in
  let haveWorkers := haveWorkerSet cluster current in
  MkChangePlan
    (sort_strings (elements (haveCPs ∖ toSet wantCPs)))
    (sort_strings (elements (haveWorkers ∖ toSet wantWorkers)))
    (sort_strings (filter (λ n, n ∉ haveCPs) wantCPs))
    (sort_strings (filter (λ n, n ∉ haveWorkers) wantWorkers)).

Inductive reason : Type :=
| OnlyControlPlane
| BelowQuorum
| LastWorker
| RespecOnlyControlPlane
| RespecOnlyWorker.

(** [catastrophicReason] *)
Definition catastrophicReason (plan : changePlan) (haveCPCount haveWorkerCount : Z) : option reason :=
  let remainCPs := (haveCPCount - Z.of_nat (length (removeCPs plan)))%Z in
  if (remainCPs <=? 0)%Z then Some OnlyControlPlane
  else if (1 <? haveCPCount)%Z && (remainCPs <? (haveCPCount + 2) ÷ 2)%Z then Some BelowQuorum
  else if (0 <? haveWorkerCount)%Z &&
          (haveWorkerCount - Z.of_nat (length (removeWorkers plan)) <=? 0)%Z then Some LastWorker
  else None.

(** [countCurrent], also the loop in [applyExisting] *)
Definition countCurrent (current : list childRef) (cluster : string) : Z * Z :=
  let names := vm_names current in
  (Z.of_nat (length (filter (λ n, has_prefix (cp_prefix cluster) n = true) names)),
   Z.of_nat (length (filter (λ n, has_prefix (cp_prefix cluster) n = false) names))).

(** ** Sizes *)

Record respecNode : Type := MkRespec {
  rs_Name : string; rs_IsCP : bool; DesiredCPUs : Z; DesiredMemMB : Z; ObservedCPUs : Z; ObservedMemMB : Z }.

(** The size a pool asks for. *)
Definition size_or_default (spec : ClusterSpec) (p : WorkerSpec) : DefaultSizeSpec :=
  default (c_Default (Compute spec)) (p_Size p).

(** [desiredSizeFor]; its result is never nil. *)
Definition desiredSizeFor (node : string) (isCP : bool) (cluster : string) (spec : ClusterSpec) : DefaultSizeSpec :=
  if isCP then size_or_default spec (ControlPlane spec)
  else
    let rest := trim_prefix (cluster +:+ "-") node in
    match last_index_byte "-"%char rest with
    | None | Some 0 => c_Default (Compute spec)
    | Some dash =>
        match list_find (λ w, pool_name w = str_take dash rest) (Workers spec) with
        | Some (_, w) => size_or_default spec w
        | None => c_Default (Compute spec)
        end
    end.

(** The switch on an observed number. *)
Definition int_of (v : option value) : Z :=
  match v with Some (VInt z) => z | Some (VFloat f) => Z_of_f64 f | _ => 0 end.

(** [extractCPUMem] *)
Definition extractCPUMem (r : resource) : Z * Z :=
  (int_of (as_map (assoc "cpu" (fields (r_spec r))) ≫= assoc "cores"),
   int_of (as_map (assoc "memory" (fields (r_spec r))) ≫= assoc "size")).

(** What [p.vms.Get] returns. *)
Inductive get_error : Type := GetNotFound | GetFailed.
Abbreviation observation := (result get_error (option resource)).

Section observed.
(** The virtual machines as their provider reports them. *)
Context (vms_Get : string → observation).

Definition respec_of (cluster : string) (spec : ClusterSpec) (n : string) : option respecNode :=
  let isCP := has_prefix (cp_prefix cluster) n in
  let desired := desiredSizeFor n isCP cluster spec in
  match vms_Get n with
  | Ok (Some observed) =>
      let '(obsCPUs, obsMemMB) := extractCPUMem observed in
      if decide (obsCPUs = 0 ∧ obsMemMB = 0)%Z then None
      else if decide (obsCPUs = CPUs desired ∧ obsMemMB = MemoryMB desired) then None
      else Some (MkRespec n isCP (CPUs desired) (MemoryMB desired) obsCPUs obsMemMB)
  | _ => None
  end.

(** [computeSpecRespecs] *)
Definition computeSpecRespecs (cluster : string) (spec : ClusterSpec) (current : list childRef)
    (removed : gset string) : list respecNode :=
  omap (respec_of cluster spec) (filter (λ n, n ∉ removed) (vm_names current)).

(** [catastrophicRespecReason] *)
Definition catastrophicRespecReason (respecs : list respecNode) (haveCPs haveWorkers : Z) : option reason :=
  if existsb rs_IsCP respecs && (haveCPs <=? 1)%Z then Some RespecOnlyControlPlane
  else if existsb (λ r, negb (rs_IsCP r)) respecs && (haveWorkers <=? 1)%Z then Some RespecOnlyWorker
  else None.

(** ** Preview *)

Definition create_cp (n : string) : ChildAction := MkChildAction "create" kindVM n "new control-plane node".
Definition create_worker (n : string) : ChildAction := MkChildAction "create" kindVM n "new worker node".
Definition destroy_cp (n : string) : ChildAction := MkChildAction "destroy" kindVM n "remove control-plane node".
Definition destroy_worker (n : string) : ChildAction := MkChildAction "destroy" kindVM n "remove worker node".
Definition respec_action (r : respecNode) : ChildAction :=
  MkChildAction "respec" kindVM (rs_Name r)
    ("destroy + recreate " +:+ (if rs_IsCP r then "control-plane" else "worker") +:+ " (cpu " +:+
     pretty (ObservedCPUs r) +:+ "→" +:+ pretty (DesiredCPUs r) +:+ ", mem " +:+ pretty (ObservedMemMB r) +:+ "Mi→" +:+
     pretty (DesiredMemMB r) +:+ "Mi)").

(** [dryRunFreshCluster]; [quote] is the verb [%q]. *)
Definition dryRunFreshCluster (quote : string → string) (name : string) (spec : ClusterSpec) : DryRunResult :=
  let '(cps, workers) := NodeNames name spec in
  MkDryRunResult (map create_cp cps ++ map create_worker workers) []
    ("would create cluster " +:+ quote name +:+ " with " +:+ pretty (length cps) +:+ " CP + " +:+
     pretty (length workers) +:+ " worker node(s)").

(** [appendUnique] *)
Definition appendUnique (s : list string) (v : string) : list string := if decide (v ∈ s) then s else s ++ [v].

(** [summarisePlan] *)
Definition summarisePlan (plan : changePlan) (respecs : nat) : string :=
  let part verb n := if (0 <? n) then [verb +:+ " " +:+ pretty n] else [] in
  match (part "add" (length (addCPs plan) + length (addWorkers plan)) ++
         part "remove" (length (removeCPs plan) + length (removeWorkers plan)) ++ part "respec" respecs)%list with
  | [] => "no-op"
  | parts => "would " +:+ join ", " parts +:+ " node(s)"
  end.

(** The plan and the respecs [dryRunExisting] and [applyExisting] start from. *)
Definition compute (name : string) (spec : ClusterSpec) (current : list childRef) : changePlan * list respecNode :=
  let plan := computeChangePlan name spec current in
  (plan, computeSpecRespecs name spec current (toSet (removeCPs plan ++ removeWorkers plan))).

(** [dryRunExisting], given the recorded children. *)
Definition dryRunExisting (name : string) (spec : ClusterSpec) (current : list childRef) : DryRunResult :=
  let '(plan, respecs) := compute name spec current in
  if negb (hasChanges plan) && bool_decide (respecs = [])
  then MkDryRunResult [] [] "no-op (cluster matches manifest)"
  else
    let gates := if removesAny plan || negb (bool_decide (respecs = [])) then [GateAllowDestructive] else [] in
    let '(haveCPs, haveWorkers) := countCurrent current name in
    let gates := match catastrophicReason plan haveCPs haveWorkers with
                 | Some _ => appendUnique gates GateIKnowThisBreaks
                 | None => gates
                 end in
    let gates := match catastrophicRespecReason respecs haveCPs haveWorkers with
                 | Some _ => appendUnique gates GateIKnowThisBreaks
                 | None => gates
                 end in
    MkDryRunResult
      (map create_cp (addCPs plan) ++ map create_worker (addWorkers plan) ++ map destroy_cp (removeCPs plan) ++
       map destroy_worker (removeWorkers plan) ++ map respec_action respecs)
      gates (summarisePlan plan (length respecs)).

(** [slices.Contains] on the gates. *)
Definition needs_gate (g : string) (r : DryRunResult) : bool := bool_decide (g ∈ dr_RequiredGates r).
End observed.

(** ** Laws of node names *)

Lemma elem_of_vm_names n current : n ∈ vm_names current ↔ ∃ c, c ∈ current ∧ cr_Kind c = kindVM ∧ cr_Name c = n.
Proof.
  unfold vm_names. rewrite list_elem_of_fmap. setoid_rewrite list_elem_of_filter. naive_solver.
Qed.

Lemma pretty_nat_nonempty (i : nat) : pretty i ≠ "".
Proof.
  destruct i as [|i]; [done|]. intros H. pose proof (digits_value_pretty (Zpos (Pos.of_succ_nat i)) ltac:(lia)) as Hv.
  change (pretty (Zpos (Pos.of_succ_nat i))) with (pretty (S i)) in Hv. by rewrite H in Hv.
Qed.

(** A node name is longer than the prefix when it starts with it. *)
Lemma node_name_cp cluster pool i :
  plan_cp cluster (node_name cluster pool i) = has_prefix (cp_prefix cluster) (node_name cluster pool i).
Proof.
  unfold plan_cp. destruct (has_prefix _ _) eqn:Hp; [|by rewrite andb_false_r]. rewrite andb_true_r.
  apply has_prefix_true in Hp as [r Hr]. rewrite Hr, str_length_app. apply Nat.ltb_lt.
  destruct r as [|c r]; [|simpl; lia]. rewrite str_app_nil_r in Hr. unfold node_name, cp_prefix in Hr.
  assert ((cluster +:+ "-" +:+ pool) +:+ String "-"%char (pretty i) = (cluster +:+ "-cp") +:+ String "-"%char "") as Heq.
  { rewrite !str_app_assoc. exact Hr. }
  apply last_sep_inj in Heq as [_ Hi]; [|apply all_digits_no_byte; [done|apply pretty_nat_digits]|done].
  by apply pretty_nat_nonempty in Hi.
Qed.

Lemma node_name_is_cp cluster i : plan_cp cluster (node_name cluster "cp" i) = true.
Proof.
  rewrite node_name_cp. apply has_prefix_true. exists (pretty i). unfold node_name, cp_prefix. by rewrite str_app_assoc.
Qed.

(** No worker pool's nodes are taken for control planes. *)
Definition worker_pools_ok (spec : ClusterSpec) : Prop :=
  Forall (λ p, has_prefix "cp-" (pool_name p +:+ "-") = false) (Workers spec).

Lemma has_prefix_app_inv p a b : has_prefix p (a +:+ b) = true → String.length p ≤ String.length a → has_prefix p a = true.
Proof.
  rewrite !has_prefix_true. intros [r Hr]. revert p Hr; induction a as [|c a IH]; intros p Hr Hl.
  - destruct p; [|simpl in Hl; lia]. by exists "".
  - destruct p as [|c' p]; [by exists (String c a)|]. rewrite !str_app_cons in Hr. injection Hr as <- Hr.
    destruct (IH p Hr) as [r' ->]; [simpl in Hl; lia|]. exists r'. by rewrite str_app_cons.
Qed.

Lemma node_name_not_cp cluster pool i :
  has_prefix "cp-" (pool +:+ "-") = false → plan_cp cluster (node_name cluster pool i) = false.
Proof.
  intros Hp. rewrite node_name_cp. apply not_true_iff_false. intros H. apply not_true_iff_false in Hp. apply Hp.
  apply has_prefix_true in H as [r Hr]. unfold node_name, cp_prefix in Hr. rewrite str_app_assoc in Hr.
  apply (inj (String.append cluster)) in Hr.
  assert (pool +:+ "-" +:+ pretty i = "cp-" +:+ r) as Hr' by (by injection Hr).
  assert (has_prefix "cp-" ((pool +:+ "-") +:+ pretty i) = true) as H.
  { rewrite str_app_assoc, Hr'. apply has_prefix_app. }
  destruct (decide (3 ≤ String.length (pool +:+ "-"))) as [Hl|Hl]; [by eapply has_prefix_app_inv|].
  exfalso. rewrite str_length_app in Hl. destruct pool as [|a [|b pool]]; [| |simpl in Hl; lia].
  - done.
  - injection Hr' as _ Hb. done.
Qed.

(** ** Laws of the change plan *)

Section plan.
Context (cluster : string) (spec : ClusterSpec) (current : list childRef).

Let plan := computeChangePlan cluster spec current.
Let cps := (NodeNames cluster spec).1.
Let workers := (NodeNames cluster spec).2.

Lemma elem_of_haveCPs n : n ∈ haveCPSet cluster current ↔ n ∈ vm_names current ∧ plan_cp cluster n = true.
Proof. unfold haveCPSet, toSet. rewrite elem_of_list_to_set, list_elem_of_filter. tauto. Qed.

Lemma elem_of_haveWorkers n : n ∈ haveWorkerSet cluster current ↔ n ∈ vm_names current ∧ plan_cp cluster n = false.
Proof. unfold haveWorkerSet, toSet. rewrite elem_of_list_to_set, list_elem_of_filter. tauto. Qed.

Lemma plan_eq :
  plan = MkChangePlan
    (sort_strings (elements (haveCPSet cluster current ∖ toSet cps)))
    (sort_strings (elements (haveWorkerSet cluster current ∖ toSet workers)))
    (sort_strings (filter (λ n, n ∉ haveCPSet cluster current) cps))
    (sort_strings (filter (λ n, n ∉ haveWorkerSet cluster current) workers)).
Proof. unfold plan, computeChangePlan, cps, workers. by destruct (NodeNames cluster spec). Qed.

Lemma elem_of_removeCPs n :
  n ∈ removeCPs plan ↔ n ∈ vm_names current ∧ plan_cp cluster n = true ∧ n ∉ cps.
Proof.
  rewrite plan_eq. simpl. rewrite elem_of_sort_strings, elem_of_elements, elem_of_difference, elem_of_haveCPs.
  unfold toSet. rewrite elem_of_list_to_set. tauto.
Qed.

Lemma elem_of_removeWorkers n :
  n ∈ removeWorkers plan ↔ n ∈ vm_names current ∧ plan_cp cluster n = false ∧ n ∉ workers.
Proof.
  rewrite plan_eq. simpl. rewrite elem_of_sort_strings, elem_of_elements, elem_of_difference, elem_of_haveWorkers.
  unfold toSet. rewrite elem_of_list_to_set. tauto.
Qed.

Lemma elem_of_addCPs n : n ∈ addCPs plan ↔ n ∈ cps ∧ n ∉ vm_names current.
Proof.
  rewrite plan_eq. simpl. rewrite elem_of_sort_strings, list_elem_of_filter, elem_of_haveCPs.
  split; [|tauto]. intros [Hn Hc]. split; [done|]. intros Hin. apply Hn. split; [done|].
  unfold cps, NodeNames in Hc. simpl in Hc. apply elem_of_pool_nodes in Hc as (i & -> & _). apply node_name_is_cp.
Qed.

Lemma elem_of_addWorkers n :
  n ∈ addWorkers plan ↔ n ∈ workers ∧ ¬ (n ∈ vm_names current ∧ plan_cp cluster n = false).
Proof. rewrite plan_eq. simpl. rewrite elem_of_sort_strings, list_elem_of_filter, elem_of_haveWorkers. tauto. Qed.

Lemma NoDup_removes : NoDup (removeCPs plan) ∧ NoDup (removeWorkers plan).
Proof. rewrite plan_eq. simpl. rewrite !NoDup_sort_strings. split; apply NoDup_elements. Qed.

Lemma worker_not_cp n : worker_pools_ok spec → n ∈ workers → plan_cp cluster n = false.
Proof.
  intros Hok Hn. unfold workers, NodeNames in Hn. simpl in Hn. apply elem_of_concat in Hn as (l & Hn & Hl).
  apply list_elem_of_fmap in Hl as (p & -> & Hp). apply elem_of_pool_nodes in Hn as (i & -> & _).
  apply node_name_not_cp. by apply (proj1 (Forall_forall _ _) Hok).
Qed.

Lemma cp_is_cp n : n ∈ cps → plan_cp cluster n = true.
Proof. unfold cps, NodeNames. simpl. intros (i & -> & _)%elem_of_pool_nodes. apply node_name_is_cp. Qed.

Lemma hasChanges_false :
  hasChanges plan = false ↔ removeCPs plan = [] ∧ removeWorkers plan = [] ∧ addCPs plan = [] ∧ addWorkers plan = [].
Proof.
  unfold hasChanges. rewrite Nat.ltb_ge. rewrite <-!length_zero_iff_nil. lia.
Qed.

Lemma nil_elem {A} (l : list A) : l = [] ↔ ∀ x, x ∉ l.
Proof. destruct l as [|x l]; [by split; [intros _ x ?%elem_of_nil|]|]. split; [done|]. intros H. destruct (H x). left. Qed.

(** Nothing changes exactly when the recorded machines are the expected nodes. *)
Lemma hasChanges_nodes :
  worker_pools_ok spec → hasChanges plan = false ↔ ∀ n, n ∈ vm_names current ↔ n ∈ all_nodes cluster spec.
Proof.
  intros Hok. rewrite hasChanges_false, !nil_elem. unfold all_nodes. fold cps workers.
  setoid_rewrite elem_of_removeCPs. setoid_rewrite elem_of_removeWorkers. setoid_rewrite elem_of_addCPs.
  setoid_rewrite elem_of_addWorkers. setoid_rewrite elem_of_app. split.
  - intros (H1 & H2 & H3 & H4) n. specialize (H1 n). specialize (H2 n). specialize (H3 n). specialize (H4 n).
    destruct (decide (n ∈ vm_names current)), (decide (n ∈ cps)), (decide (n ∈ workers)), (plan_cp cluster n); tauto.
  - intros H. split_and!; intros n.
    + intros (Hn & Hc & Hw). apply H in Hn as [?|Hn]; [done|]. apply worker_not_cp in Hn; [congruence|done].
    + intros (Hn & Hc & Hw). apply H in Hn as [Hn|?]; [|done]. apply cp_is_cp in Hn. congruence.
    + intros [Hc Hn]. apply Hn, H. by left.
    + intros [Hw Hn]. apply Hn. split; [apply H; by right|by apply worker_not_cp].
Qed.
End plan.

(** ** Properties *)

Lemma length_filter_split {A} (P : A → Prop) `{∀ x, Decision (P x)} l :
  length l = length (filter P l) + length (filter (λ x, ¬ P x) l).
Proof. induction l as [|x l IH]; [done|]. rewrite !filter_cons. case_decide; case_decide; simpl; naive_solver lia. Qed.

(** What the plan removes. *)
Definition removed_nodes (plan : changePlan) : gset string := toSet (removeCPs plan ++ removeWorkers plan).

Lemma elem_of_removed cluster spec current n :
  n ∈ removed_nodes (computeChangePlan cluster spec current) ↔
    n ∈ vm_names current ∧ (if plan_cp cluster n then n ∉ (NodeNames cluster spec).1 else n ∉ (NodeNames cluster spec).2).
Proof.
  unfold removed_nodes, toSet. rewrite elem_of_list_to_set, elem_of_app, elem_of_removeCPs, elem_of_removeWorkers.
  destruct (plan_cp cluster n); naive_solver.
Qed.

(** The recorded machines with and without the control planes' prefix. *)
Definition cp_names (cluster : string) (current : list childRef) : list string :=
  filter (λ n, has_prefix (cp_prefix cluster) n = true) (vm_names current).
Definition worker_names (cluster : string) (current : list childRef) : list string :=
  filter (λ n, has_prefix (cp_prefix cluster) n = false) (vm_names current).

Lemma has_prefix_plan_cp cluster n : n ≠ cp_prefix cluster → has_prefix (cp_prefix cluster) n = plan_cp cluster n.
Proof.
  intros Hne. unfold plan_cp. destruct (has_prefix _ _) eqn:Hp; [|by rewrite andb_false_r]. rewrite andb_true_r.
  apply has_prefix_true in Hp as [r ->]. symmetry. apply Nat.ltb_lt. rewrite str_length_app.
  destruct r; [by rewrite str_app_nil_r in Hne|simpl; lia].
Qed.

Section counts.
Context (cluster : string) (spec : ClusterSpec) (current : list childRef).
Context (Hnd : NoDup (vm_names current)) (Hpre : cp_prefix cluster ∉ vm_names current).

Let plan := computeChangePlan cluster spec current.

Lemma removed_counts :
  length (removeCPs plan) = length (filter (λ n, n ∈ removed_nodes plan) (cp_names cluster current)) ∧
  length (removeWorkers plan) = length (filter (λ n, n ∈ removed_nodes plan) (worker_names cluster current)).
Proof.
  assert (∀ n, n ∈ vm_names current → has_prefix (cp_prefix cluster) n = plan_cp cluster n) as Hp.
  { intros n Hn. apply has_prefix_plan_cp. by intros ->. }
  destruct (NoDup_removes cluster spec current) as [H1 H2].
  split; apply Permutation_length, NoDup_Permutation; try done; try (by apply NoDup_filter, NoDup_filter); intros n;
    rewrite list_elem_of_filter; unfold cp_names, worker_names; rewrite list_elem_of_filter; unfold plan;
    rewrite elem_of_removed; rewrite ?elem_of_removeCPs, ?elem_of_removeWorkers.
  - split.
    + intros (Hn & Hc & Hw). rewrite Hp, Hc by done. done.
    + intros ((_ & Hr) & Hc & Hn). rewrite <-Hp, Hc in Hr by done. rewrite <-Hp by done. done.
  - split.
    + intros (Hn & Hc & Hw). rewrite Hp, Hc by done. done.
    + intros ((_ & Hr) & Hc & Hn). rewrite <-Hp, Hc in Hr by done. rewrite <-Hp by done. done.
Qed.
End counts.

(** A change plan is not called catastrophic exactly when a strict majority of
    the recorded control planes stays and, if there are workers, one of them
    stays. *)
Theorem catastrophicReason_majority cluster spec current :
  NoDup (vm_names current) → cp_prefix cluster ∉ vm_names current →
  let plan := computeChangePlan cluster spec current in
  let stays l := filter (λ n, n ∉ removed_nodes plan) l in
  catastrophicReason plan (countCurrent current cluster).1 (countCurrent current cluster).2 = None ↔
    length (cp_names cluster current) < 2 * length (stays (cp_names cluster current)) ∧
    (worker_names cluster current = [] ∨ stays (worker_names cluster current) ≠ []).
Proof.
  intros Hnd Hpre plan stays.
  destruct (removed_counts cluster spec current Hnd Hpre) as [Hc Hw]. fold plan in Hc, Hw.
  assert (∀ l, length l = length (filter (λ n, n ∈ removed_nodes plan) l) + length (stays l)) as L
    by (intros l; apply (length_filter_split (λ n, n ∈ removed_nodes plan))).
  pose proof (L (cp_names cluster current)) as Lc. pose proof (L (worker_names cluster current)) as Lw.
  clearbody stays plan. unfold catastrophicReason, countCurrent. cbn [fst snd].
  fold (cp_names cluster current) (worker_names cluster current). rewrite Hc, Hw.
  rewrite <-!length_zero_iff_nil.
  set (h := length (cp_names cluster current)) in *. set (w := length (worker_names cluster current)) in *.
  set (k := length (stays (cp_names cluster current))) in *. set (kw := length (stays (worker_names cluster current))) in *.
  rewrite Z.quot_div_nonneg by lia.
  pose proof (Z.div_mod (Z.of_nat h + 2) 2 ltac:(lia)). pose proof (Z.mod_pos_bound (Z.of_nat h + 2) 2 ltac:(lia)).
  repeat case_match; (split; [intros ?|intros [? ?]]); try done; first [exfalso; lia|lia].
Qed.

Definition ex_refs (names : list string) : list childRef := map (MkChildRef "proxmox" kindVM) names.

Lemma catastrophicReason_majority_witness :
  catastrophicReason (computeChangePlan "k" (ex_cluster (ex_pool "" 2) [] (MkNetwork "" true None []))
    (ex_refs ["k-cp-0"; "k-cp-1"; "k-cp-2"])) 3 0 = None.
Proof.
  refine (proj2 (catastrophicReason_majority "k" (ex_cluster (ex_pool "" 2) [] (MkNetwork "" true None []))
    (ex_refs ["k-cp-0"; "k-cp-1"; "k-cp-2"]) _ _) _).
  - by_decide.
  - by_decide.
  - split; [by_decide|by left].
Defined.

(** Replacing one of two control planes passes unflagged, although taking one away
    is below quorum. *)
Lemma respec_below_quorum respecs plan haveWorkers :
  (2 ≤ haveWorkers)%Z → length (removeCPs plan) = 1 →
  catastrophicRespecReason respecs 2 haveWorkers = None ∧ catastrophicReason plan 2 haveWorkers = Some BelowQuorum.
Proof.
  intros Hw Hr. unfold catastrophicRespecReason, catastrophicReason. rewrite Hr. split; [|done].
  rewrite (proj2 (Z.leb_gt haveWorkers 1)) by lia. by rewrite !andb_false_r.
Qed.

(** A worker pool named [cp-x] is removed and added again by every re-apply. *)
Example cp_pool_never_settles :
  let spec := ex_cluster (ex_pool "" 1) [ex_pool "cp-x" 1] (MkNetwork "" true None []) in
  computeChangePlan "k" spec (ex_refs (all_nodes "k" spec)) = MkChangePlan ["k-cp-x-0"] [] [] ["k-cp-x-0"].
Proof. vm_compute. reflexivity. Qed.
