(* ===== verification/ClusterConverge.v ===== *)
(** Converging an existing K3s cluster, and the state files it leaves:
    src/internal/controller/providers/k3s/provider.go, countup_plan.go,
    respec_plan.go, k8scleanup.go, clusterstate.go and the state files of
    cluster_apply_plan.go. Every call that leaves the provider (a child applied or
    deleted through the dispatcher, an eviction over ssh) is recorded in a log, in
    the order it is made, whatever it returns. *)
From S2P Require Import Prelude GoStrings GoValue Marker Registry CrossOp ClusterSpec ClusterPlan ClusterDiff.
From Stdlib Require Import Ascii.

Definition annotAllowDestructive : string := "openctl.io/allow-destructive".
Definition annotIKnowThisBreaks : string := "openctl.io/i-know-this-breaks-the-cluster".

(** ** State files *)

(** What reading back a document that was marshalled to YAML gives, and decoding
    the [children] of a state file. *)
Class Yaml : Type := {
  yaml : value → value;
  yaml_children : value → option (list childRef);
}.

(** [map[string]any{"provider": ..., "kind": ..., "name": ...}] *)
Definition render_child (c : childRef) : value :=
  VMap [("provider", VStr (cr_Provider c)); ("kind", VStr (cr_Kind c)); ("name", VStr (cr_Name c))].

(** Maps keep their keys, and lists of children read back as they were written. *)
Class YamlLaws `{Yaml} : Prop := {
  yaml_map m : yaml (VMap m) = VMap (map (λ p, (p.1, yaml p.2)) m);
  yaml_children_render l : yaml_children (yaml (VList (map render_child l))) = Some l;
}.

(** A file is what decoding it gives: [None] when it is not a YAML map. *)
Abbreviation state_files := (gmap string (option gomap)).

Inductive load_error : Type := ErrMissing | ErrParseState.

(** [loadState] *)
Definition loadState (name : string) (files : state_files) : result load_error (option resource) :=
  match files !! name with
  | None => Ok None
  | Some None => Err ErrParseState
  | Some (Some raw) =>
      Ok (Some (Resource k3sAPIVersion kindCluster (ResourceMetadata name "" [] [] "" "")
        (map_field "spec" raw) (map_field "status" raw)))
  end.

(** [readChildren] *)
Definition readChildren `{Yaml} (name : string) (files : state_files) : result load_error (list childRef) :=
  match files !! name with
  | None => Err ErrMissing
  | Some None => Err ErrParseState
  | Some (Some doc) =>
      match assoc "children" doc with
      | None => Ok []
      | Some v => match yaml_children v with Some l => Ok l | None => Err ErrParseState end
      end
  end.

Definition children_of `{Yaml} (name : string) (files : state_files) : list childRef :=
  ok_or (readChildren name files) [].

(** [isProvisioningCluster] *)
Definition isProvisioningCluster (r : resource) : bool :=
  bool_decide (str_field "phase" (fields (r_status r)) = "Provisioning").

(** [if sub, ok := m[key].(map[string]any); ok { ... }] on an object that is
    changed in place. *)
Definition upd_map (key : string) (f : gomap → gomap) (m : gomap) : gomap :=
  match assoc key m with Some (VMap x) => assoc_set key (VMap (f x)) m | _ => m end.

(** [readAgentEndpoints] *)
Definition readAgentEndpoints (r : resource) : list (string * string) :=
  match (outputs ← map_field "outputs" (fields (r_status r)); agent ← map_field "agent" outputs;
         map_field "endpoints" agent) with
  | Some endpoints =>
      omap (λ p, match p.2 with VStr ip => if decide (ip = "") then None else Some (p.1, ip) | _ => None end) endpoints
  | None => []
  end.

(** [updateAgentEndpoints] *)
Definition updateAgentEndpoints (add : list (string * string)) (remove : gset string) : gomap → gomap :=
  upd_map "status" (upd_map "outputs" (upd_map "agent" (λ agent,
    let endpoints := fields (map_field "endpoints" agent) in
    let endpoints := foldl (λ m n, assoc_del n m) endpoints (elements remove) in
    assoc_set "endpoints" (VMap (foldl (λ m p, assoc_set p.1 (VStr p.2) m) endpoints add)) agent))).

(** [rewriteState] *)
Definition rewriteState `{Yaml} (now name : string) (manifest : resource) (keep : list childRef)
    (addEndpoints : list (string * string)) (removedNames : gset string) (files : state_files) :
    result load_error state_files :=
  match files !! name with
  | None => Err ErrMissing
  | Some None => Err ErrParseState
  | Some (Some doc) =>
      let doc := assoc_set "spec" (VMap (fields (r_spec manifest))) doc in
      let doc := assoc_set "children" (VList (map render_child keep)) doc in
      let doc := upd_map "metadata" (assoc_set "updatedAt" (VStr now)) doc in
      let doc := if bool_decide (addEndpoints = []) && bool_decide (removedNames = ∅) then doc
                 else updateAgentEndpoints addEndpoints removedNames doc in
      Ok (<[name := as_map (Some (yaml (VMap doc)))]> files)
  end.

(** The document of a new cluster. *)
Definition state_doc (now name : string) (manifest : resource) (status : gomap) (nodes : list string) : gomap :=
  [("apiVersion", VStr k3sAPIVersion); ("kind", VStr kindCluster);
   ("metadata", VMap [("name", VStr name); ("provider", VStr "k3s"); ("createdAt", VStr now); ("updatedAt", VStr now)]);
   ("spec", VMap (fields (r_spec manifest))); ("status", VMap status);
   ("children", VList (map (λ n, render_child (MkChildRef "proxmox" kindVM n)) nodes))].

(** [saveClusterStateStub] *)
Definition saveClusterStateStub `{Yaml} (now name : string) (manifest : resource) (vms : list resource)
    (phase message : string) (files : state_files) : state_files :=
  <[name := as_map (Some (yaml (VMap (state_doc now name manifest
      [("phase", VStr phase); ("message", VStr message)] (map r_name vms)))))]> files.

(** A node's state file, as far as it is read here. *)
Record nodeState : Type := MkNodeState { ns_VMName : string; ns_VMIP : string }.

(** [saveClusterStateFromChildren]; [load] is [loadNodeState], [None] without a
    readable state; [outs] are the paths below the home directory. *)
Definition saveClusterStateFromChildren `{Yaml} (load : string → option nodeState) (kubeconfig : string → string)
    (bundle : gomap) (now name : string) (manifest : resource) (vms k3sNodes : list resource) (files : state_files) :
    result load_error (resource * state_files) :=
  match k3sNodes with
  | [] => Err ErrMissing
  | first :: _ =>
      match load (r_name first) with
      | None => Err ErrMissing
      | Some fst =>
          let endpoints := foldl (λ m k, match load (r_name k) with
                                         | Some st => assoc_set (ns_VMName st) (VStr (ns_VMIP st)) m
                                         | None => m
                                         end) [] k3sNodes in
          let outputs := VMap [("kubeconfigPath", VStr (kubeconfig (r_name first))); ("serverIP", VStr (ns_VMIP fst));
                               ("agent", VMap (assoc_set "endpoints" (VMap endpoints) bundle))] in
          let doc := state_doc now name manifest
            [("phase", VStr "Ready"); ("message", VStr "Cluster is ready"); ("outputs", outputs)] (map r_name vms) in
          Ok (Resource k3sAPIVersion kindCluster (ResourceMetadata name "" [] [] "" "") (r_spec manifest)
                (Some [("phase", VStr "Ready"); ("outputs", outputs)]),
              <[name := as_map (Some (yaml (VMap doc)))]> files)
      end
  end.

(** ** Laws of state files *)

Lemma assoc_yaml_map `{Yaml} k (m : gomap) : assoc k (map (λ p, (p.1, yaml p.2)) m) = yaml <$> assoc k m.
Proof. induction m as [|[k' v] m IH]; [done|]. simpl. by case_decide. Qed.

Lemma assoc_upd_map_ne k k' f m : k ≠ k' → assoc k' (upd_map k f m) = assoc k' m.
Proof. intros Hne. unfold upd_map. destruct (assoc k m) as [[]|]; try done. by apply assoc_set_ne. Qed.

(** A rewritten state file lists the children it was given and the new spec. *)
Lemma rewriteState_reads `{YamlLaws} now name manifest keep add removed files raw :
  files !! name = Some (Some raw) →
  ∃ files' r, rewriteState now name manifest keep add removed files = Ok files' ∧
    children_of name files' = keep ∧ loadState name files' = Ok (Some r) ∧
    Some (VMap (fields (r_spec r))) = Some (yaml (VMap (fields (r_spec manifest)))).
Proof.
  intros Hf. unfold rewriteState. rewrite Hf.
  set (doc1 := assoc_set "children" _ _). set (doc2 := upd_map "metadata" _ doc1).
  set (doc3 := if bool_decide (add = []) && bool_decide (removed = ∅) then doc2 else updateAgentEndpoints add removed doc2).
  assert (∀ k, k ≠ "metadata" → k ≠ "status" → assoc k doc3 = assoc k doc1) as Hk.
  { intros k Hm Hs. unfold doc3. assert (assoc k doc2 = assoc k doc1) as H2 by (by apply assoc_upd_map_ne).
    destruct (_ && _); [done|]. rewrite <-H2. by apply assoc_upd_map_ne. }
  clearbody doc3. eexists _, _. split; [done|]. unfold children_of, readChildren, loadState. rewrite lookup_insert_eq.
  rewrite yaml_map. simpl. rewrite assoc_yaml_map, Hk by done. unfold doc1. rewrite assoc_set_eq. simpl.
  rewrite yaml_children_render. split; [done|]. split; [done|]. simpl. unfold map_field.
  rewrite assoc_yaml_map, Hk by done. unfold doc1. rewrite assoc_set_ne by done. rewrite assoc_set_eq. simpl.
  by rewrite yaml_map.
Qed.

(** ** Reading a cluster *)

(** [OwnerOf]: the first state file, in directory order, that lists the child. *)
Definition state_names (files : state_files) : list string :=
  map (trim_suffix ".yaml") (sort_strings (map (λ p, p.1 +:+ ".yaml") (map_to_list files))).

Definition OwnerOf `{Yaml} (files : state_files) (kind name : string) : option (string * string) :=
  match list_find (λ cluster, Exists (λ c, cr_Kind c = kind ∧ cr_Name c = name) (children_of cluster files))
          (state_names files) with
  | Some (_, cluster) => Some (kindCluster, cluster)
  | None => None
  end.

(** [ChildrenOf] *)
Definition ChildrenOf `{Yaml} (files : state_files) (kind name : string) : list ResourceRef :=
  if decide (kind ≠ kindCluster) then []
  else map (λ c, MkResourceRef (cr_Provider c +:+ ".openctl.io/v1") (cr_Kind c) (cr_Name c)) (children_of name files).

(** [vmChildExists] *)
Definition vmChildExists (vms_Get : string → observation) (name : string) : bool :=
  match vms_Get name with
  | Ok (Some _) => true
  | Ok None => false
  | Err GetNotFound => false
  | Err GetFailed => true
  end.

(** The pool a node's name tells, in [applyObservedCounts]. *)
Definition pool_of_node (cluster n : string) : option string :=
  match cut_prefix (cluster +:+ "-") n with
  | Some rest =>
      match last_index_byte "-"%char rest with
      | None | Some 0 => None
      | Some dash => Some (str_take dash rest)
      end
  | None => None
  end.

Definition count_value (n : nat) : value := VInt (Z.of_nat n).

Definition set_pool_count (cluster : string) (workers : list string) (w : value) : value :=
  match w with
  | VMap pool =>
      let name := if decide (str_field "name" pool = "") then "worker" else str_field "name" pool in
      VMap (assoc_set "count" (count_value (length (filter (λ n, pool_of_node cluster n = Some name) workers))) pool)
  | _ => w
  end.

(** [applyObservedCounts] on the [nodes] of the spec. *)
Definition observed_nodes (vms_Get : string → observation) (cluster : string) (children : list childRef)
    (nodes : gomap) : gomap :=
  let present := filter (λ n, vmChildExists vms_Get n = true) (vm_names children) in
  let cps := filter (λ n, has_prefix (cp_prefix cluster) n = true) present in
  let workers := filter (λ n, has_prefix (cp_prefix cluster) n = false) present in
  let nodes := upd_map "controlPlane" (assoc_set "count" (count_value (length cps))) nodes in
  match assoc "workers" nodes with
  | Some (VList ws) => assoc_set "workers" (VList (map (set_pool_count cluster workers) ws)) nodes
  | _ => nodes
  end.

Definition applyObservedCounts (vms_Get : string → observation) (cluster : string) (children : list childRef)
    (r : resource) : resource :=
  with_spec r (upd_map "nodes" (observed_nodes vms_Get cluster children) <$> r_spec r).

Inductive get_result_error : Type := ErrClusterNotFound (name : string) | ErrLoadState (e : load_error).

(** [Get] of a Cluster *)
Definition Get `{Yaml} (vms_Get : string → observation) (name : string) (files : state_files) :
    result get_result_error resource :=
  match loadState name files with
  | Err e => Err (ErrLoadState e)
  | Ok None => Err (ErrClusterNotFound name)
  | Ok (Some r) =>
      match readChildren name files with
      | Ok children => Ok (applyObservedCounts vms_Get name children r)
      | Err _ => Ok r
      end
  end.

(** [List] of Clusters *)
Definition List (files : state_files) : list resource :=
  omap (λ cluster, match loadState cluster files with Ok r => r | Err _ => None end) (state_names files).

(** ** Convergence *)

Inductive call : Type :=
| CallDelete (c : resource)
| CallApply (c : resource)
| CallEvict (cpIP node : string).

(** [k8sDeleteNodeCommand], [k8sDeleteNodePasswordSecretCommand] *)
Definition k8sDeleteNodeCommand (node : string) : string :=
  "k3s kubectl delete node " +:+ node +:+ " --ignore-not-found=true".
Definition k8sDeleteNodePasswordSecretCommand (node : string) : string :=
  "k3s kubectl delete secret " +:+ node +:+ ".node-password.k3s -n kube-system --ignore-not-found=true".

(** [deleteNodeChildren]: the children it deletes, in order. *)
Definition node_children (spec : ClusterSpec) (node : string) : list resource :=
  [Resource k3sAPIVersion kindAgentInstall (ResourceMetadata (node +:+ "-agent") "" [] [] "" "") None None;
   Resource k3sAPIVersion kindK3sNode (ResourceMetadata node "" [] [] "" "") None None;
   Resource (providerVersion spec) kindVM (ResourceMetadata node "" [] [] "" "") None None].

(** [setJoinRef] *)
Definition setJoinRef (k3sNode : resource) (cpName : string) : resource :=
  with_spec k3sNode (Some (assoc_set "joinURLFrom" (cp_ref cpName "status.vmIP")
    (assoc_set "joinFrom" (cp_ref cpName "status.nodeToken") (fields (r_spec k3sNode))))).

(** The bare strings of a legacy join. *)
Definition setJoinLiteral (k3sNode : resource) (token cpIP : string) : resource :=
  with_spec k3sNode (Some (assoc_set "joinURLFrom" (VStr cpIP)
    (assoc_set "joinFrom" (VStr token) (fields (r_spec k3sNode))))).

(** The control planes that [survivingControlPlane] picks from. *)
Definition surviving (cluster : string) (current : list childRef) (removed exclude : gset string) : list string :=
  sort_strings (filter (λ n, has_prefix (cp_prefix cluster) n = true ∧ (n ∉ removed) ∧ (n ∉ exclude)) (vm_names current)).

(** [survivingControlPlane] *)
Definition survivingControlPlane (cluster : string) (current : list childRef) (removed exclude : gset string) :
    option string := head (surviving cluster current removed exclude).

(** [survivingCPEndpoint] *)
Definition survivingCPEndpoint (files : state_files) (name : string) (current : list childRef)
    (removed exclude : gset string) : option string :=
  cpName ← survivingControlPlane name current removed exclude;
  match loadState name files with
  | Ok (Some state) => assoc cpName (readAgentEndpoints state)
  | _ => None
  end.

(** What a manifest's annotations and the state decide before anything is done. *)
Inductive refusal : Type :=
| WouldRemove (cps workers : list string)
| WouldRespec (names : list string)
| Catastrophic (r : reason).

Definition allowed (annot : string) (manifest : resource) : bool := bool_decide (annotation annot manifest = "true").

(** The first half of [applyExisting]: [Ok None] is nothing to do. *)
Definition admission (vms_Get : string → observation) (manifest : resource) (name : string) (spec : ClusterSpec)
    (current : list childRef) : result refusal (option (changePlan * list respecNode)) :=
  let '(plan, respecs) := compute vms_Get name spec current in
  if negb (hasChanges plan) && bool_decide (respecs = []) then Ok None
  else
    let allowDestructive := allowed annotAllowDestructive manifest in
    let iKnowThisBreaks := allowed annotIKnowThisBreaks manifest in
    if removesAny plan && negb allowDestructive then Err (WouldRemove (removeCPs plan) (removeWorkers plan))
    else if negb (bool_decide (respecs = [])) && negb allowDestructive then Err (WouldRespec (map rs_Name respecs))
    else
      let '(haveCPs, haveWorkers) := countCurrent current name in
      match catastrophicReason plan haveCPs haveWorkers, catastrophicRespecReason respecs haveCPs haveWorkers with
      | Some r, _ => if iKnowThisBreaks then Ok (Some (plan, respecs)) else Err (Catastrophic r)
      | None, Some r => if iKnowThisBreaks then Ok (Some (plan, respecs)) else Err (Catastrophic r)
      | None, None => Ok (Some (plan, respecs))
      end.

Section delete.
(** The virtual machines and what is kept beside a cluster's state file. *)
Context {W E : Type} `{Yaml}.
Context (vms_Delete : string → W → result E unit * W) (not_found : E → bool).
Context (removeNodeState removeAgentInstallState removeBundle : string → W → W).

(** The loop of [Delete]; [not_found]: the error's text contains "not found". *)
Fixpoint delete_children (children : list childRef) (w : W) : result (string * E) unit * W :=
  match children with
  | [] => (Ok tt, w)
  | c :: children' =>
      let '(r, w) := if decide (cr_Provider c = "proxmox" ∧ cr_Kind c = kindVM)
                     then vms_Delete (cr_Name c) w else (Ok tt, w) in
      match r with
      | Err e => if not_found e then
                   delete_children children' (removeAgentInstallState (cr_Name c +:+ "-agent") (removeNodeState (cr_Name c) w))
                 else (Err (cr_Name c, e), w)
      | Ok _ =>
          delete_children children'
            (if decide (cr_Kind c = kindVM)
             then removeAgentInstallState (cr_Name c +:+ "-agent") (removeNodeState (cr_Name c) w) else w)
      end
  end.

Inductive delete_error : Type := ErrDeleteState (e : load_error) | ErrDeleteVM (name : string) (e : E).

(** [Delete] of a Cluster *)
Definition Delete (name : string) (files : state_files) (w : W) : result delete_error unit * (state_files * W) :=
  match loadState name files with
  | Err e => (Err (ErrDeleteState e), (files, w))
  | Ok None => (Ok tt, (files, w))
  | Ok (Some _) =>
      match delete_children (children_of name files) w with
      | (Err (n, e), w) => (Err (ErrDeleteVM n e), (files, w))
      | (Ok _, w) => (Ok tt, (delete name files, removeBundle name w))
      end
  end.
End delete.

(** ** The children of a plan *)

Lemma Plan_inv manifest cs :
  Plan manifest = Ok cs →
  ∃ firstCP rest, (NodeNames (r_name manifest) (ParseClusterSpec manifest)).1 = firstCP :: rest ∧
    cs = children (r_name manifest) (ParseClusterSpec manifest) firstCP.
Proof.
  unfold Plan. case_decide; [done|]. case_decide; [done|].
  destruct (NodeNames _ _).1 as [|firstCP rest] eqn:Hf; [done|]. rewrite (plan_children _ _ _ _ Hf). intros [= <-]. eauto.
Qed.

Lemma map_filter_imap {A B} (f : nat → string → A) (g : A → B) (k : string → B) (P : A → Prop) (Q : string → Prop)
    `{∀ x, Decision (P x), ∀ x, Decision (Q x)} l :
  (∀ i x, g (f i x) = k x ∧ (P (f i x) ↔ Q x)) → map g (filter P (imap f l)) = map k (filter Q l).
Proof.
  revert f; induction l as [|x l IH]; intros f Hf; [done|]. simpl. rewrite !filter_cons.
  destruct (Hf 0 x) as [Hg HP]. specialize (IH (f ∘ S) (λ i y, Hf (S i) y)).
  destruct (decide (P (f 0 x))), (decide (Q x)); try tauto. simpl. by rewrite Hg, IH.
Qed.

Section plan_children.
Context (manifest : resource) (cs : list resource) (S : gset string).
Context (Hplan : Plan manifest = Ok cs).

Let nodes := all_nodes (r_name manifest) (ParseClusterSpec manifest).
Let adds := filter (λ n, n ∈ S) nodes.

Lemma map_norm_imap (f : nat → string → resource) l : map norm (imap f l) = imap (λ i x, norm (f i x)) l.
Proof. exact (fmap_imap f norm l). Qed.

Lemma add_vms : map ChildKey (filter (λ c, r_name c ∈ S) (of_kind kindVM cs)) = map vm_key adds.
Proof.
  destruct (Plan_inv _ _ Hplan) as (firstCP & rest & Hf & ->).
  destruct (children_kinds (r_name manifest) (ParseClusterSpec manifest) firstCP) as (-> & _ & _).
  unfold vms. rewrite map_norm_imap. by apply map_filter_imap.
Qed.

Lemma add_k3ss : map ChildKey (filter (λ c, r_name c ∈ S) (of_kind kindK3sNode cs)) = map k3s_key adds.
Proof.
  destruct (Plan_inv _ _ Hplan) as (firstCP & rest & Hf & ->).
  destruct (children_kinds (r_name manifest) (ParseClusterSpec manifest) firstCP) as (_ & -> & _).
  unfold k3ss. rewrite map_norm_imap. apply map_filter_imap. intros i x. split; [apply k3s_child_key|].
  change (r_name (plan_k3s (r_name manifest) (ParseClusterSpec manifest)
    (plan_ips (r_name manifest) (ParseClusterSpec manifest)) firstCP
    (Z.of_nat (length (NodeNames (r_name manifest) (ParseClusterSpec manifest)).1)) i x) ∈ S ↔ x ∈ S).
  by rewrite (proj2 (plan_k3s_kind _ _ _ _ _)).
Qed.

Lemma add_agents :
  map ChildKey (filter (λ c, trim_suffix "-agent" (r_name c) ∈ S) (of_kind kindAgentInstall cs)) = map agent_key adds.
Proof.
  destruct (Plan_inv _ _ Hplan) as (firstCP & rest & Hf & ->).
  destruct (children_kinds (r_name manifest) (ParseClusterSpec manifest) firstCP) as (_ & _ & ->).
  unfold agents. rewrite map_map.
  match goal with |- context [map ?f (all_nodes _ _)] => change (map f) with (fmap (M := list) f); rewrite <-(imap_const f) end.
  apply map_filter_imap. intros i x. split; [done|].
  change (trim_suffix "-agent" (x +:+ "-agent") ∈ S ↔ x ∈ S). by rewrite trim_suffix_app.
Qed.

Lemma child_kind c : c ∈ cs → r_kind c = kindVM ∨ r_kind c = kindK3sNode ∨ r_kind c = kindAgentInstall.
Proof.
  destruct (Plan_inv _ _ Hplan) as (firstCP & rest & Hf & ->). unfold children. rewrite !elem_of_app.
  intros [Hc|[Hc|Hc]]; apply list_elem_of_fmap in Hc as (r & -> & Hr).
  - apply elem_of_lookup_imap_1 in Hr as (i & n & -> & _). by left.
  - apply elem_of_lookup_imap_1 in Hr as (i & n & -> & _). right. left. apply plan_k3s_kind.
  - apply list_elem_of_fmap in Hr as (n & -> & _). by right; right.
Qed.
End plan_children.

(** [byKindName[kind+"/"+name]]: the last child with that key. *)
Definition by_key (children : list resource) (key : string) : option resource :=
  last (filter (λ c, ChildKey c = key) children).

Lemma by_key_elem cs key c : by_key cs key = Some c → c ∈ cs ∧ ChildKey c = key.
Proof. unfold by_key. intros Hc%last_Some_elem_of. apply list_elem_of_filter in Hc. tauto. Qed.

Lemma by_key_None cs key : by_key cs key = None → key ∉ map ChildKey cs.
Proof.
  unfold by_key. intros Hn%last_None Hin. apply list_elem_of_fmap in Hin as (c & -> & Hc).
  by eapply (filter_nil_not_elem_of _ _ c) in Hn.
Qed.

Lemma by_key_k3s manifest cs n c :
  Plan manifest = Ok cs → by_key cs (k3s_key n) = Some c → r_kind c = kindK3sNode ∧ r_name c = n.
Proof.
  intros Hplan [Hc Hk]%by_key_elem. destruct (child_kind _ _ Hplan c Hc) as [E|[E|E]]; unfold ChildKey in Hk; rewrite E in Hk;
    [discriminate| |discriminate]. split; [done|]. by apply k3s_key_inj.
Qed.

Lemma plan_by_key manifest cs n :
  Plan manifest = Ok cs → n ∈ all_nodes (r_name manifest) (ParseClusterSpec manifest) →
  is_Some (by_key cs (vm_key n)) ∧ is_Some (by_key cs (k3s_key n)) ∧ is_Some (by_key cs (agent_key n)).
Proof.
  intros Hcs Hn. destruct (Plan_inv _ _ Hcs) as (firstCP & rest & Hf & ->).
  pose proof (children_keys (r_name manifest) (ParseClusterSpec manifest) firstCP) as Hkeys.
  assert (∀ key, key ∈ map ChildKey (children (r_name manifest) (ParseClusterSpec manifest) firstCP) →
    is_Some (by_key (children (r_name manifest) (ParseClusterSpec manifest) firstCP) key)) as Hk.
  { intros key Hin. destruct (by_key _ key) eqn:Hnone; [done|]. by apply by_key_None in Hnone. }
  split_and!; apply Hk; rewrite Hkeys, !elem_of_app; [left|right; left|right; right]; by apply list_elem_of_fmap_2.
Qed.

Lemma by_key_other cs key c : has_prefix "K" key = false → by_key cs key = Some c → r_kind c ≠ kindK3sNode.
Proof. intros Hp [_ Hk]%by_key_elem E. unfold ChildKey in Hk. rewrite E in Hk. by rewrite <-Hk in Hp. Qed.

Section converge.
(** The rest of the world, and the error of a child operation. *)
Context {W E : Type} `{Yaml}.
Context (vms_Get : string → W → observation).
Context (cd_ApplyChild cd_DeleteChild : resource → W → result E unit * W).
(** The node states on disk, written by the K3sNode children; a readable one or none. *)
Context (loadNodeState : string → W → option nodeState).
(** Commands over ssh, best effort; reading a join token over ssh. *)
Context (ssh_run : string → list string → W → W).
Context (readCPNodeToken : string → string → string → W → option string).
Context (ExpandPath : string → option string).

Record cstate : Type := MkCState { cs_files : state_files; cs_world : W; cs_log : list call }.

Inductive converge_error : Type :=
| ErrRefused (r : refusal)
| ErrNoDispatcher
| ErrChild (c : resource) (e : E)
| ErrNoSurvivingCP
| ErrPlanCluster (e : cluster_plan_error)
| ErrPlanMisses (node : string)
| ErrLegacyEndpoint (cp : string)
| ErrLegacyToken (cp cpIP : string)
| ErrState (e : load_error).

(** A step that may fail, on the files, the world and the log. *)
Definition M (A : Type) : Type := cstate → result converge_error A * cstate.

#[local] Instance M_ret : MRet M := λ A a st, (Ok a, st).
#[local] Instance M_bind : MBind M := λ A B f m st,
  match m st with
  | (Ok a, st') => f a st'
  | (Err e, st') => (Err e, st')
  end.

Definition lift {A} (r : result converge_error A) : M A := λ st, (r, st).
Definition get_state : M cstate := λ st, (Ok st, st).

(** [for _, x := range l { if err := f(x); err != nil { return err } }] *)
Fixpoint forM_ {A} (f : A → M unit) (l : list A) : M unit :=
  match l with
  | [] => mret tt
  | x :: l' => f x ≫= λ _, forM_ f l'
  end.

Fixpoint mapM_ {A B} (f : A → M B) (l : list A) : M (list B) :=
  match l with
  | [] => mret []
  | x :: l' => f x ≫= λ y, mapM_ f l' ≫= λ ys, mret (y :: ys)
  end.

Definition record (c : call) (w : W) (st : cstate) : cstate := MkCState (cs_files st) w (cs_log st ++ [c]).

Definition ApplyChild (c : resource) : M unit := λ st,
  let '(r, w) := cd_ApplyChild c (cs_world st) in (map_err (ErrChild c) r, record (CallApply c) w st).

Definition DeleteChild (c : resource) : M unit := λ st,
  let '(r, w) := cd_DeleteChild c (cs_world st) in (map_err (ErrChild c) r, record (CallDelete c) w st).

(** [deleteNodeChildren] *)
Definition deleteNodeChildren (spec : ClusterSpec) (node : string) : M unit :=
  forM_ DeleteChild (node_children spec node).

(** [removeNodes] *)
Definition removeNodes (spec : ClusterSpec) (removeWorkers removeCPs : list string) : M unit :=
  forM_ (deleteNodeChildren spec) removeWorkers ≫= λ _, forM_ (deleteNodeChildren spec) removeCPs.

(** [evictK8sNode] *)
Definition evictK8sNode (cpIP node : string) : M unit := λ st,
  (Ok tt, record (CallEvict cpIP node)
     (ssh_run cpIP [k8sDeleteNodeCommand node; k8sDeleteNodePasswordSecretCommand node] (cs_world st)) st).

(** [deleteDepartedK8sNodes] *)
Definition deleteDepartedK8sNodes (name : string) (departed : list string) (current : list childRef)
    (removed : gset string) : M unit :=
  if decide (departed = []) then mret tt
  else get_state ≫= λ st,
    match survivingCPEndpoint (cs_files st) name current removed ∅ with
    | Some cpIP => forM_ (evictK8sNode cpIP) departed
    | None => mret tt
    end.

(** [setJoin]; it changes the spec of [k3sNode], which is returned. *)
Definition setJoin (k3sNode : resource) (cpName : string) (manifest : resource) (cluster : string)
    (current : list childRef) (removed : gset string) : M resource :=
  get_state ≫= λ st,
  match loadNodeState cpName (cs_world st) with
  | Some _ => mret (setJoinRef k3sNode cpName)
  | None =>
      match survivingCPEndpoint (cs_files st) cluster current removed ∅ with
      | None => lift (Err (ErrLegacyEndpoint cpName))
      | Some cpIP =>
          let ssh := SSH (ParseClusterSpec manifest) in
          let keyPath := default (PrivateKeyPath ssh) (ExpandPath (PrivateKeyPath ssh)) in
          match readCPNodeToken cpIP (User ssh) keyPath (cs_world st) with
          | None => lift (Err (ErrLegacyToken cpName cpIP))
          | Some token => mret (setJoinLiteral k3sNode token cpIP)
          end
      end
  end.

(** [if st, err := loadNodeState(n); ... { endpoints[n] = st.VMIP }] *)
Definition node_endpoint (n : string) (w : W) : list (string * string) :=
  match loadNodeState n w with
  | Some st => if decide (ns_VMIP st = "") then [] else [(n, ns_VMIP st)]
  | None => []
  end.

Definition copy_endpoints (add eps : list (string * string)) : list (string * string) :=
  foldl (λ m p, assoc_set p.1 p.2 m) eps add.

(** [addNodesViaPlan] *)
Definition addNodesViaPlan (manifest : resource) (name : string) (plan : changePlan) (current : list childRef)
    (removed : gset string) : M (list (string * string)) :=
  match survivingControlPlane name current removed ∅ with
  | None => lift (Err ErrNoSurvivingCP)
  | Some survivingCP =>
      match Plan manifest with
      | Err e => lift (Err (ErrPlanCluster e))
      | Ok children =>
          let addSet := toSet (addCPs plan ++ addWorkers plan) in
          let vms := filter (λ c, r_name c ∈ addSet) (of_kind kindVM children) in
          let agents := filter (λ c, trim_suffix "-agent" (r_name c) ∈ addSet) (of_kind kindAgentInstall children) in
          mapM_ (λ c, setJoin c survivingCP manifest name current removed)
            (filter (λ c, r_name c ∈ addSet) (of_kind kindK3sNode children)) ≫= λ k3sNodes,
          forM_ (forM_ ApplyChild) [vms; k3sNodes; agents] ≫= λ _,
          get_state ≫= λ st,
          mret (copy_endpoints (concat (map (λ c, node_endpoint (r_name c) (cs_world st)) k3sNodes)) [])
      end
  end.

(** One iteration of [respecNodesViaPlan]. *)
Definition respec_one (manifest : resource) (name : string) (spec : ClusterSpec) (children : list resource)
    (current : list childRef) (removed : gset string) (endpoints : list (string * string)) (node : string) :
    M (list (string * string)) :=
  match survivingControlPlane name current removed {[node]} with
  | None => lift (Err ErrNoSurvivingCP)
  | Some survivingCP =>
      match by_key children (vm_key node), by_key children (k3s_key node), by_key children (agent_key node) with
      | Some vm, Some k3sNode, Some agent =>
          deleteNodeChildren spec node ≫= λ _,
          get_state ≫= λ st,
          match survivingCPEndpoint (cs_files st) name current removed {[node]} with
          | Some cpIP => evictK8sNode cpIP node
          | None => mret tt
          end ≫= λ _,
          setJoin k3sNode survivingCP manifest name current removed ≫= λ k3sNode,
          forM_ ApplyChild [vm; k3sNode; agent] ≫= λ _,
          get_state ≫= λ st,
          mret (copy_endpoints (node_endpoint node (cs_world st)) endpoints)
      | _, _, _ => lift (Err (ErrPlanMisses node))
      end
  end.

Fixpoint respec_loop (manifest : resource) (name : string) (spec : ClusterSpec) (children : list resource)
    (current : list childRef) (removed : gset string) (nodes : list string) (endpoints : list (string * string)) :
    M (list (string * string)) :=
  match nodes with
  | [] => mret endpoints
  | n :: nodes' =>
      respec_one manifest name spec children current removed endpoints n ≫=
      respec_loop manifest name spec children current removed nodes'
  end.

(** [respecNodesViaPlan] *)
Definition respecNodesViaPlan (manifest : resource) (name : string) (spec : ClusterSpec) (respecs : list respecNode)
    (current : list childRef) (removed : gset string) : M (list (string * string)) :=
  match Plan manifest with
  | Err e => lift (Err (ErrPlanCluster e))
  | Ok children => respec_loop manifest name spec children current removed (map rs_Name respecs) []
  end.

Definition added_children (plan : changePlan) : list childRef :=
  map (MkChildRef "proxmox" kindVM) (addCPs plan ++ addWorkers plan).

(** The second half of [applyExisting], up to the state file. *)
Definition converge (manifest : resource) (name : string) (spec : ClusterSpec) (current : list childRef)
    (plan : changePlan) (respecs : list respecNode) : M (list childRef * list (string * string)) :=
  let removed := toSet (removeCPs plan ++ removeWorkers plan) in
  removeNodes spec (removeWorkers plan) (removeCPs plan) ≫= λ _,
  let keep := filter (λ c, cr_Name c ∉ removed) current in
  deleteDepartedK8sNodes name (removeWorkers plan ++ removeCPs plan) current removed ≫= λ _,
  (if decide (addCPs plan ++ addWorkers plan = []) then mret (keep, [])
   else addNodesViaPlan manifest name plan current removed ≫= λ eps, mret (keep ++ added_children plan, eps)) ≫= λ ke,
  if decide (respecs = []) then mret ke
  else respecNodesViaPlan manifest name spec respecs current removed ≫= λ updated,
       mret (ke.1, copy_endpoints updated ke.2).

(** [applyExisting]; [hasCD]: a child dispatcher is on the context. *)
Definition applyExisting (hasCD : bool) (now : string) (manifest : resource) (name : string) (spec : ClusterSpec) :
    M (option resource) := λ st,
  let reload st := (map_err ErrState (loadState name (cs_files st)), st) in
  let current := children_of name (cs_files st) in
  match admission (λ n, vms_Get n (cs_world st)) manifest name spec current with
  | Err r => (Err (ErrRefused r), st)
  | Ok None => reload st
  | Ok (Some (plan, respecs)) =>
      if negb hasCD then (Err ErrNoDispatcher, st)
      else match converge manifest name spec current plan respecs st with
           | (Err e, st') => (Err e, st')
           | (Ok (keep, endpoints), st') =>
               match rewriteState now name manifest keep endpoints (toSet (removeCPs plan ++ removeWorkers plan))
                       (cs_files st') with
               | Err e => (Err (ErrState e), st')
               | Ok files => reload (MkCState files (cs_world st') (cs_log st'))
               end
           end
  end.

(** How [Apply] treats a Cluster. *)
Inductive apply_route : Type :=
| RouteInvalid (e : cluster_plan_error)
| RoutePlan
| RouteExisting
| RouteImperative.

(** [Apply] of a Cluster, up to the path it takes. *)
Definition route (hasCD : bool) (manifest : resource) (files : state_files) : apply_route :=
  if decide (r_kind manifest ≠ kindCluster) then RouteInvalid (ErrNotCluster (r_kind manifest))
  else if decide (r_name manifest = "") then RouteInvalid ErrNameRequired
  else match loadState (r_name manifest) files with
       | Ok (Some existing) => if isProvisioningCluster existing && hasCD then RoutePlan else RouteExisting
       | _ => if hasCD then RoutePlan else RouteImperative
       end.

(** [DryRun]; [quote] is the verb [%q]. *)
Definition DryRun (quote : string → string) (manifest : resource) (st : cstate) :
    result cluster_plan_error DryRunResult :=
  if decide (r_kind manifest ≠ kindCluster) then Err (ErrNotCluster (r_kind manifest))
  else if decide (r_name manifest = "") then Err ErrNameRequired
  else
    let name := r_name manifest in
    let spec := ParseClusterSpec manifest in
    match loadState name (cs_files st) with
    | Ok (Some _) =>
        Ok (dryRunExisting (λ n, vms_Get n (cs_world st)) name spec (children_of name (cs_files st)))
    | _ => Ok (dryRunFreshCluster quote name spec)
    end.

(** ** A program logic for converging

    [emits F P m s Q]: started on the state files [F], [m] leaves them as they are
    and makes calls that satisfy [P]; they follow the script [s], all of it unless
    [m] fails; a result satisfies [Q]. *)

(** A deletion or application of a child, by its key; evictions are not part of a
    script. *)
Inductive step : Type := Deleted (key : string) | Applied (key : string).

Definition call_step (c : call) : option step :=
  match c with
  | CallDelete r => Some (Deleted (ChildKey r))
  | CallApply r => Some (Applied (ChildKey r))
  | CallEvict _ _ => None
  end.

Definition emits {A} (F : state_files) (P : call → Prop) (m : M A) (s : list step) (Q : A → Prop) : Prop :=
  ∀ st, cs_files st = F →
    cs_files (m st).2 = F ∧
    ∃ l, cs_log (m st).2 = cs_log st ++ l ∧ Forall P l ∧ omap call_step l `prefix_of` s ∧
      ∀ a, (m st).1 = Ok a → omap call_step l = s ∧ Q a.

Section emits.
Context (F : state_files) (P : call → Prop).

Lemma emits_ret {A} (a : A) (Q : A → Prop) : Q a → emits F P (mret a) [] Q.
Proof.
  intros HQ st Hst. split; [done|]. exists []. rewrite app_nil_r. split_and!; [done..|]. intros b [= <-]. done.
Qed.

Lemma emits_err {A} e s (Q : A → Prop) : emits F P (lift (Err e)) s Q.
Proof.
  intros st Hst. split; [done|]. exists []. rewrite app_nil_r. split_and!; [done|done|apply prefix_nil|done].
Qed.

Lemma emits_bind {A B} (m : M A) (f : A → M B) s1 s2 Q1 Q2 :
  emits F P m s1 Q1 → (∀ a, Q1 a → emits F P (f a) s2 Q2) → emits F P (m ≫= f) (s1 ++ s2) Q2.
Proof.
  intros Hm Hf st Hst. destruct (Hm st Hst) as (Hst' & l & Hl & HP & Hpre & Hok).
  unfold mbind, M_bind. destruct (m st) as [[a|e] st'] eqn:Hr; simpl in *.
  - destruct (Hok a eq_refl) as [Hs1 HQ]. destruct (Hf a HQ st' Hst') as (Hst2 & l2 & Hl2 & HP2 & Hpre2 & Hok2).
    split; [done|]. exists (l ++ l2). rewrite Hl2, Hl, omap_app, Hs1. split_and!.
    + by rewrite (assoc_L (++)).
    + by apply Forall_app.
    + by apply prefix_app.
    + intros b Hb. destruct (Hok2 b Hb) as [-> ?]. done.
  - split; [done|]. exists l. split_and!; [done|done|by apply prefix_app_r|done].
Qed.

Lemma emits_get {B} (f : cstate → M B) s Q :
  (∀ st, cs_files st = F → emits F P (f st) s Q) → emits F P (get_state ≫= f) s Q.
Proof. intros Hf st Hst. exact (Hf st Hst st Hst). Qed.

Lemma emits_forM {A} (f : A → M unit) (s : A → list step) l :
  (∀ x, x ∈ l → emits F P (f x) (s x) (λ _, True)) → emits F P (forM_ f l) (concat (map s l)) (λ _, True).
Proof.
  induction l as [|x l IH]; intros Hf; [by apply emits_ret|]. simpl.
  apply (emits_bind _ _ _ _ (λ _, True)); [apply Hf; left|]. intros _ _. apply IH. intros y Hy. apply Hf. by right.
Qed.

Lemma emits_mapM {A B} (f : A → M B) (R : A → B → Prop) l :
  (∀ x, x ∈ l → emits F P (f x) [] (R x)) → emits F P (mapM_ f l) [] (Forall2 R l).
Proof.
  induction l as [|x l IH]; intros Hf; [by apply emits_ret|]. simpl.
  apply (emits_bind _ _ [] [] (R x)); [apply Hf; left|]. intros y Hy.
  apply (emits_bind _ _ [] [] (Forall2 R l)); [apply IH; intros z Hz; apply Hf; by right|].
  intros ys Hys. apply emits_ret. by constructor.
Qed.

Lemma emits_apply c : P (CallApply c) → emits F P (ApplyChild c) [Applied (ChildKey c)] (λ _, True).
Proof.
  intros Hc st Hst. unfold ApplyChild. destruct (cd_ApplyChild c (cs_world st)) as [r w]. simpl. split; [done|].
  exists [CallApply c]. split_and!; [done|by constructor|done|]. by destruct r.
Qed.

Lemma emits_delete c : P (CallDelete c) → emits F P (DeleteChild c) [Deleted (ChildKey c)] (λ _, True).
Proof.
  intros Hc st Hst. unfold DeleteChild. destruct (cd_DeleteChild c (cs_world st)) as [r w]. simpl. split; [done|].
  exists [CallDelete c]. split_and!; [done|by constructor|done|]. by destruct r.
Qed.

Lemma emits_evict ip n : P (CallEvict ip n) → emits F P (evictK8sNode ip n) [] (λ _, True).
Proof. intros Hc st Hst. split; [done|]. exists [CallEvict ip n]. split_and!; [done|by constructor|done|done]. Qed.
End emits.

(** ** The script of a convergence *)

Definition node_deletes (n : string) : list step := [Deleted (agent_key n); Deleted (k3s_key n); Deleted (vm_key n)].
Definition node_applies (n : string) : list step := [Applied (vm_key n); Applied (k3s_key n); Applied (agent_key n)].

(** Workers go before control planes; then the new machines, nodes and agents, in
    the order of the node names; then one node after the other is replaced. *)
Definition converge_script (nodes : list string) (plan : changePlan) (respecs : list respecNode) : list step :=
  let adds := filter (λ n, n ∈ toSet (addCPs plan ++ addWorkers plan)) nodes in
  concat (map node_deletes (removeWorkers plan ++ removeCPs plan)) ++
  (map Applied (map vm_key adds ++ map k3s_key adds ++ map agent_key adds)) ++
  concat (map (λ n, node_deletes n ++ node_applies n) (map rs_Name respecs)).

(** How a node that is applied joins: by reference to a surviving control plane
    that is not itself, or, if that has no K3sNode, by the token read from the
    recorded address of a surviving one. *)
Definition joins (F : state_files) (name : string) (current : list childRef) (removed : gset string) (k : resource) :
    Prop :=
  (∃ cp, cp ∈ surviving name current removed ∅ ∧ cp ≠ r_name k ∧
     spec_at "joinFrom" k = Some (cp_ref cp "status.nodeToken") ∧ spec_at "joinURLFrom" k = Some (cp_ref cp "status.vmIP")) ∨
  (∃ token ip, survivingCPEndpoint F name current removed ∅ = Some ip ∧
     spec_at "joinFrom" k = Some (VStr token) ∧ spec_at "joinURLFrom" k = Some (VStr ip)).

Definition good_call (F : state_files) (name : string) (current : list childRef) (removed : gset string) (c : call) :
    Prop :=
  match c with CallApply k => r_kind k = kindK3sNode → joins F name current removed k | _ => True end.

Section script.
Context (F : state_files) (manifest : resource) (current : list childRef) (removed : gset string).

Let name := r_name manifest.
Let spec := ParseClusterSpec manifest.
Let P := good_call F name current removed.

Lemma emits_applies cs :
  (∀ c, c ∈ cs → P (CallApply c)) → emits F P (forM_ ApplyChild cs) (map Applied (map ChildKey cs)) (λ _, True).
Proof.
  intros Hc. replace (map Applied (map ChildKey cs)) with (concat (map (λ c, [Applied (ChildKey c)]) cs)).
  - apply emits_forM. intros c Hin. apply emits_apply. by apply Hc.
  - clear Hc. induction cs as [|c cs IH]; [done|]. simpl. by rewrite IH.
Qed.

Lemma emits_delete_node n : emits F P (deleteNodeChildren spec n) (node_deletes n) (λ _, True).
Proof.
  apply (emits_forM F P _ (λ c, [Deleted (ChildKey c)])). intros c _. by apply emits_delete.
Qed.

Lemma emits_removes ws cps :
  emits F P (removeNodes spec ws cps) (concat (map node_deletes (ws ++ cps))) (λ _, True).
Proof.
  rewrite map_app, concat_app. apply (emits_bind _ _ _ _ _ _ (λ _, True)).
  - apply emits_forM. intros; apply emits_delete_node.
  - intros _ _. apply emits_forM. intros; apply emits_delete_node.
Qed.

Lemma emits_evictions n departed :
  emits F P (deleteDepartedK8sNodes n departed current removed) [] (λ _, True).
Proof.
  unfold deleteDepartedK8sNodes. case_decide; [by apply emits_ret|]. apply emits_get. intros st _.
  destruct (survivingCPEndpoint _ _ _ _ _); [|by apply emits_ret].
  replace (@nil step) with (concat (map (λ _ : string, @nil step) departed)) by (by clear; induction departed).
  apply emits_forM. intros; by apply emits_evict.
Qed.

Lemma surviving_mono exclude cp :
  cp ∈ surviving name current removed exclude → cp ∈ surviving name current removed ∅ ∧ cp ∉ exclude.
Proof. unfold surviving. rewrite !elem_of_sort_strings, !list_elem_of_filter. set_solver. Qed.

Lemma spec_at_joins k u v :
  let k' := with_spec k (Some (assoc_set "joinURLFrom" v (assoc_set "joinFrom" u (fields (r_spec k))))) in
  spec_at "joinFrom" k' = Some u ∧ spec_at "joinURLFrom" k' = Some v.
Proof. split; unfold spec_at; cbn -[assoc_set]; [rewrite assoc_set_ne by done|]; apply assoc_set_eq. Qed.

Lemma emits_setJoin k cp exclude :
  cp ∈ surviving name current removed exclude → cp ≠ r_name k →
  emits F P (setJoin k cp manifest name current removed) []
    (λ k', ChildKey k' = ChildKey k ∧ r_kind k' = r_kind k ∧ r_name k' = r_name k ∧ joins F name current removed k').
Proof.
  intros Hcp Hne. apply surviving_mono in Hcp as [Hcp _]. unfold setJoin. apply emits_get. intros st Hst.
  destruct (loadNodeState cp (cs_world st)).
  - apply emits_ret. split_and!; [done..|]. left. exists cp. split_and!; [done|done|apply spec_at_joins..].
  - rewrite Hst. destruct (survivingCPEndpoint F name current removed ∅) as [ip|] eqn:Hip; [|by apply emits_err].
    destruct (readCPNodeToken _ _ _ _) as [token|]; [|by apply emits_err].
    apply emits_ret. split_and!; [done..|]. right. exists token, ip. split_and!; [done|apply spec_at_joins..].
Qed.

Lemma joined_calls k3ss k3ss' :
  Forall2 (λ k k', ChildKey k' = ChildKey k ∧ r_kind k' = r_kind k ∧ r_name k' = r_name k ∧
    joins F name current removed k') k3ss k3ss' →
  map ChildKey k3ss' = map ChildKey k3ss ∧ (∀ c, c ∈ k3ss' → P (CallApply c)).
Proof.
  induction 1 as [|k k' ks ks' (Hk & _ & _ & Hj) _ [IH1 IH2]]; [by split; [|intros c ?%elem_of_nil]|].
  split; [by simpl; rewrite Hk, IH1|]. intros c [->|Hc]%elem_of_cons; [by intros _|by apply IH2].
Qed.

Lemma emits_groups gs :
  (∀ g c, g ∈ gs → c ∈ g → P (CallApply c)) →
  emits F P (forM_ (forM_ ApplyChild) gs) (map Applied (concat (map (map ChildKey) gs))) (λ _, True).
Proof.
  intros Hc. replace (map Applied (concat (map (map ChildKey) gs)))
    with (concat (map (λ g, map Applied (map ChildKey g)) gs)).
  - apply emits_forM. intros g Hg. apply emits_applies. intros c Hin. by eapply Hc.
  - clear Hc. induction gs as [|g gs IH]; [done|]. simpl. by rewrite map_app, IH.
Qed.

(** A new node is not a control plane that stays. *)
Lemma add_not_surviving plan cp :
  NoDup (all_nodes name spec) → plan = computeChangePlan name spec current → removed = removed_nodes plan →
  cp ∈ surviving name current removed ∅ → cp ∉ toSet (addCPs plan ++ addWorkers plan).
Proof.
  intros Hnd -> -> Hcp. unfold surviving in Hcp. rewrite elem_of_sort_strings, list_elem_of_filter in Hcp.
  destruct Hcp as ((Hp & Hr & _) & Hin). unfold toSet. rewrite elem_of_list_to_set, elem_of_app, elem_of_addCPs, elem_of_addWorkers.
  intros [[_ ?]|[Hw Hn]]; [done|]. rewrite elem_of_removed in Hr.
  assert (plan_cp name cp = true) as Hc.
  { apply elem_of_concat in Hw as (l & Hl & Hw). apply list_elem_of_fmap in Hw as (p & -> & _).
    apply elem_of_pool_nodes in Hl as (i & -> & _). by rewrite node_name_cp. }
  rewrite Hc in Hr. unfold all_nodes in Hnd. apply NoDup_app in Hnd as (_ & Hnd & _).
  destruct (decide (cp ∈ (NodeNames name spec).1)) as [H1|H1]; [by apply (Hnd cp)|]. by apply Hr.
Qed.

Lemma emits_adds plan :
  NoDup (all_nodes name spec) → plan = computeChangePlan name spec current → removed = removed_nodes plan →
  let adds := filter (λ n, n ∈ toSet (addCPs plan ++ addWorkers plan)) (all_nodes name spec) in
  emits F P (addNodesViaPlan manifest name plan current removed)
    (map Applied (map vm_key adds ++ map k3s_key adds ++ map agent_key adds)) (λ _, True).
Proof.
  intros Hnd Hplan Hrem adds. unfold addNodesViaPlan.
  destruct (survivingControlPlane name current removed ∅) as [cp|] eqn:Hcp; [|by apply emits_err].
  assert (cp ∈ surviving name current removed ∅) as Hin.
  { unfold survivingControlPlane in Hcp. by apply head_Some_elem_of. }
  destruct (Plan manifest) as [cs|e] eqn:Hcs; [|by apply emits_err].
  set (S := toSet (addCPs plan ++ addWorkers plan)).
  rewrite <-(app_nil_l (map Applied _)). eapply emits_bind.
  { apply emits_mapM. intros k Hk. apply (emits_setJoin k cp ∅ Hin). apply list_elem_of_filter in Hk as [Hk _].
    intros ->. by apply (add_not_surviving plan (r_name k)). }
  intros k3ss' (Hkeys & Hgood)%joined_calls. rewrite <-(app_nil_r (map Applied _)).
  set (vms := filter _ (of_kind kindVM cs)). set (agents := filter _ (of_kind kindAgentInstall cs)).
  assert (map vm_key adds ++ map k3s_key adds ++ map agent_key adds =
    concat (map (map ChildKey) [vms; k3ss'; agents])) as ->.
  { simpl. rewrite app_nil_r, Hkeys. unfold vms, agents. rewrite (add_vms manifest cs S Hcs), (add_k3ss manifest cs S Hcs).
    by rewrite (add_agents manifest cs S Hcs). }
  apply (emits_bind _ _ _ _ _ _ (λ _, True)).
  - apply emits_groups. intros g c Hg Hc. rewrite !elem_of_cons in Hg. destruct Hg as [->|[->|[->|Hg]]].
    + unfold vms, of_kind in Hc. rewrite !list_elem_of_filter in Hc. destruct Hc as (_ & Hk & _). simpl. by rewrite Hk.
    + by apply Hgood.
    + unfold agents, of_kind in Hc. rewrite !list_elem_of_filter in Hc. destruct Hc as (_ & Hk & _). simpl. by rewrite Hk.
    + by apply elem_of_nil in Hg.
  - intros _ _. apply emits_get. intros st _. by apply emits_ret.
Qed.

Lemma emits_respec cs eps n :
  Plan manifest = Ok cs →
  emits F P (respec_one manifest name spec cs current removed eps n) (node_deletes n ++ node_applies n) (λ _, True).
Proof.
  intros Hcs. unfold respec_one.
  destruct (survivingControlPlane name current removed {[n]}) as [cp|] eqn:Hcp; [|by apply emits_err].
  assert (cp ∈ surviving name current removed {[n]}) as Hin by (by apply head_Some_elem_of).
  destruct (by_key cs (vm_key n)) as [vm|] eqn:Hvm; [|by apply emits_err].
  destruct (by_key cs (k3s_key n)) as [k3s|] eqn:Hk3s; [|by apply emits_err].
  destruct (by_key cs (agent_key n)) as [agent|] eqn:Hagent; [|by apply emits_err].
  apply (emits_bind _ _ _ _ _ _ (λ _, True)); [apply emits_delete_node|]. intros _ _. apply emits_get. intros st _.
  rewrite <-(app_nil_l (node_applies n)). apply (emits_bind _ _ _ _ _ _ (λ _, True)).
  { destruct (survivingCPEndpoint _ _ _ _ _); [by apply emits_evict|by apply emits_ret]. }
  intros _ _. rewrite <-(app_nil_l (node_applies n)). destruct (by_key_k3s _ _ _ _ Hcs Hk3s) as [Hkind Hname].
  eapply emits_bind; [apply (emits_setJoin k3s cp {[n]} Hin)|].
  { rewrite Hname. apply surviving_mono in Hin as [_ Hne]. set_solver. }
  intros k3s' (Hkey & _ & _ & Hj). rewrite <-(app_nil_r (node_applies n)). apply (emits_bind _ _ _ _ _ _ (λ _, True)).
  - assert (node_applies n = map Applied (map ChildKey [vm; k3s'; agent])) as ->.
    { simpl. rewrite Hkey. apply by_key_elem in Hvm as [_ ->], Hk3s as [_ ->], Hagent as [_ ->]. done. }
    apply emits_applies. intros c Hc. rewrite !elem_of_cons in Hc. destruct Hc as [->|[->|[->|Hc]]].
    + simpl. intros H0. by apply by_key_other in Hvm.
    + by intros _.
    + simpl. intros H0. by apply by_key_other in Hagent.
    + by apply elem_of_nil in Hc.
  - intros _ _. apply emits_get. intros st' _. by apply emits_ret.
Qed.

Lemma emits_respecs cs ns eps :
  Plan manifest = Ok cs →
  emits F P (respec_loop manifest name spec cs current removed ns eps)
    (concat (map (λ n, node_deletes n ++ node_applies n) ns)) (λ _, True).
Proof.
  intros Hcs. revert eps; induction ns as [|n ns IH]; intros eps; [by apply emits_ret|].
  cbn [respec_loop map concat]. apply (emits_bind _ _ _ _ _ _ (λ _, True)); [by apply emits_respec|]. intros eps' _. apply IH.
Qed.
End script.

Lemma emits_converge F manifest current plan respecs :
  let name := r_name manifest in
  let spec := ParseClusterSpec manifest in
  NoDup (all_nodes name spec) → plan = computeChangePlan name spec current →
  emits F (good_call F name current (removed_nodes plan)) (converge manifest name spec current plan respecs)
    (converge_script (all_nodes name spec) plan respecs)
    (λ ke, ke.1 = filter (λ c, cr_Name c ∉ removed_nodes plan) current ++ added_children plan).
Proof.
  intros name spec Hnd Hplan. unfold converge, converge_script. fold (removed_nodes plan).
  apply (emits_bind _ _ _ _ _ _ (λ _, True)); [apply emits_removes|]. intros _ _.
  rewrite <-(app_nil_l (map Applied _ ++ _)). apply (emits_bind _ _ _ _ _ _ (λ _, True)); [apply emits_evictions|]. intros _ _.
  apply (emits_bind _ _ _ _ _ _ (λ ke, ke.1 = filter (λ c, cr_Name c ∉ removed_nodes plan) current ++ added_children plan)).
  - case_decide as Hadds.
    + assert (filter (λ n, n ∈ toSet (addCPs plan ++ addWorkers plan)) (all_nodes name spec) = []) as ->.
      { rewrite Hadds. apply filter_none, Forall_forall. intros n _ ?%elem_of_list_to_set. by eapply elem_of_nil. }
      apply emits_ret. unfold added_children. rewrite Hadds. simpl. by rewrite app_nil_r.
    + rewrite <-(app_nil_r (map Applied _)). apply (emits_bind _ _ _ _ _ _ (λ _, True)).
      * by apply emits_adds.
      * intros eps _. by apply emits_ret.
  - intros ke Hke. case_decide as Hr; [subst respecs; by apply emits_ret|].
    unfold respecNodesViaPlan. destruct (Plan manifest) as [cs|e] eqn:Hcs; [|by apply emits_err].
    rewrite <-(app_nil_r (concat _)). apply (emits_bind _ _ _ _ _ _ (λ _, True)).
    + by apply emits_respecs.
    + intros eps _. by apply emits_ret.
Qed.

(** ** What an apply decides and does *)

Section apply.
Context (hasCD : bool) (now : string) (manifest : resource).

Let name := r_name manifest.
Let spec := ParseClusterSpec manifest.

(** What [applyExisting] computes first, in a state. *)
Definition apply_plan (st : cstate) : changePlan * list respecNode :=
  compute (λ n, vms_Get n (cs_world st)) name spec (children_of name (cs_files st)).

Lemma admission_plan vms current r :
  admission vms manifest name spec current = r →
  match r with
  | Ok (Some pr) => pr = compute vms name spec current
  | Ok None => hasChanges (compute vms name spec current).1 = false ∧ (compute vms name spec current).2 = []
  | Err _ => True
  end.
Proof.
  intros <-. unfold admission. destruct (compute vms name spec current) as [plan respecs]. simpl.
  destruct (negb (hasChanges plan) && bool_decide (respecs = [])) eqn:Hn; [by bool_to_prop|].
  repeat (case_match; simplify_eq; try done).
Qed.

Lemma no_changes_script nodes current :
  hasChanges (computeChangePlan name spec current) = false →
  converge_script nodes (computeChangePlan name spec current) [] = [].
Proof.
  intros (H1 & H2 & H3 & H4)%hasChanges_false. unfold converge_script. rewrite H1, H2, H3, H4. simpl.
  by rewrite filter_none by (apply Forall_forall; intros n _ ?%elem_of_list_to_set; by eapply elem_of_nil).
Qed.

Lemma applyExisting_emits st :
  NoDup (all_nodes name spec) →
  let current := children_of name (cs_files st) in
  let '(plan, respecs) := apply_plan st in
  ∃ l, cs_log (applyExisting hasCD now manifest name spec st).2 = cs_log st ++ l ∧
    Forall (good_call (cs_files st) name current (removed_nodes plan)) l ∧
    omap call_step l `prefix_of` converge_script (all_nodes name spec) plan respecs ∧
    (is_ok (applyExisting hasCD now manifest name spec st).1 = true →
       omap call_step l = converge_script (all_nodes name spec) plan respecs).
Proof.
  intros Hnd current. destruct (apply_plan st) as [plan respecs] eqn:Hp.
  assert (plan = computeChangePlan name spec current) as Hplan by exact (f_equal fst (eq_sym Hp)).
  unfold applyExisting. fold current. destruct (admission _ manifest name spec current) as [[[plan' respecs']|]|r] eqn:Ha;
    apply admission_plan in Ha; [| |].
  - unfold apply_plan in Hp. fold current in Hp. rewrite Hp in Ha. injection Ha as -> ->.
    destruct hasCD; simpl; [|exists []; rewrite app_nil_r; split_and!; [done|done|apply prefix_nil|done]].
    destruct (emits_converge (cs_files st) manifest current plan respecs Hnd Hplan st eq_refl) as (_ & l & Hl & HP & Hpre & Hok).
    fold name spec in Hl, HP, Hpre, Hok. destruct (converge manifest name spec current plan respecs st) as [[[keep eps]|e] st'].
    + exists l. split_and!; [|done|done|intros _; by eapply Hok]. by destruct (rewriteState _ _ _ _ _ _ _).
    + exists l. split_and!; [done|done|done|]. done.
  - unfold apply_plan in Hp. fold current in Hp. rewrite Hp in Ha. destruct Ha as [Hc Hr]. simpl in Hc, Hr. subst respecs.
    exists []. rewrite app_nil_r. rewrite Hplan in Hc. subst plan. split_and!; [done|done|apply prefix_nil|].
    intros _. by rewrite no_changes_script.
  - exists []. rewrite app_nil_r. split_and!; [done|done|apply prefix_nil|done].
Qed.
End apply.

(** ** Success *)

(** [runs F Pre m Post]: on the files [F] and a world that satisfies [Pre], [m]
    succeeds, keeps the files and establishes [Post]. *)
Definition runs {A} (F : state_files) (Pre : W → Prop) (m : M A) (Post : A → W → Prop) : Prop :=
  ∀ st, cs_files st = F → Pre (cs_world st) →
    ∃ a st', m st = (Ok a, st') ∧ cs_files st' = F ∧ Post a (cs_world st').

Definition has_state (n : string) (w : W) : Prop := is_Some (loadNodeState n w).

(** What a dispatcher that works does: child operations succeed; applying a K3sNode
    leaves its state on disk, only deleting it removes the state, and commands on
    a node do neither. *)
Record DispatcherOk : Prop := {
  delete_ok c w : is_ok (cd_DeleteChild c w).1 = true;
  apply_ok c w : is_ok (cd_ApplyChild c w).1 = true;
  delete_keeps c n w : ¬ (r_kind c = kindK3sNode ∧ r_name c = n) → has_state n w → has_state n (cd_DeleteChild c w).2;
  apply_keeps c n w : has_state n w → has_state n (cd_ApplyChild c w).2;
  apply_gives c w : r_kind c = kindK3sNode → has_state (r_name c) (cd_ApplyChild c w).2;
  ssh_keeps host cmds n w : has_state n w → has_state n (ssh_run host cmds w);
}.

Section live.
Context (Hcd : DispatcherOk) (F : state_files) (manifest : resource) (current : list childRef) (removed : gset string).

Let name := r_name manifest.
Let spec := ParseClusterSpec manifest.

(** Nodes whose state is on disk. *)
Definition alive (ns : list string) (w : W) : Prop := Forall (λ n, has_state n w) ns.

Lemma runs_ret {A} (a : A) (Post : A → W → Prop) : runs F (Post a) (mret a) Post.
Proof. intros st Hst HP. by exists a, st. Qed.

Lemma runs_bind {A B} (m : M A) (f : A → M B) Pre Mid Post :
  runs F Pre m Mid → (∀ a, runs F (Mid a) (f a) Post) → runs F Pre (m ≫= f) Post.
Proof.
  intros Hm Hf st Hst HP. destruct (Hm st Hst HP) as (a & st' & Hrun & Hst' & HM).
  destruct (Hf a st' Hst' HM) as (b & st2 & Hrun2 & Hst2 & HP2). exists b, st2. split; [|done].
  unfold mbind, M_bind. by rewrite Hrun.
Qed.

Lemma runs_get {B} (f : cstate → M B) Pre Post :
  (∀ st, cs_files st = F → Pre (cs_world st) → runs F (λ w, w = cs_world st) (f st) Post) →
  runs F Pre (get_state ≫= f) Post.
Proof. intros Hf st Hst HP. exact (Hf st Hst HP st Hst eq_refl). Qed.

Lemma runs_pre {A} (m : M A) (Pre Pre' : W → Prop) Post : (∀ w, Pre w → Pre' w) → runs F Pre' m Post → runs F Pre m Post.
Proof. intros Hi Hm st Hst HP. apply Hm; auto. Qed.

Lemma runs_forM {A} (f : A → M unit) (I : W → Prop) l :
  (∀ x, x ∈ l → runs F I (f x) (λ _, I)) → runs F I (forM_ f l) (λ _, I).
Proof.
  induction l as [|x l IH]; intros Hf; [by apply (runs_ret tt (λ _, I))|]. simpl.
  apply (runs_bind _ _ _ (λ _, I)); [apply Hf; left|]. intros _. apply IH. intros y Hy. apply Hf. by right.
Qed.

Lemma runs_mapM {A B} (f : A → M B) (I : W → Prop) l :
  (∀ x, x ∈ l → runs F I (f x) (λ _, I)) → runs F I (mapM_ f l) (λ _, I).
Proof.
  induction l as [|x l IH]; intros Hf; [by apply (runs_ret [] (λ _, I))|]. simpl.
  apply (runs_bind _ _ _ (λ _, I)); [apply Hf; left|]. intros y.
  apply (runs_bind _ _ _ (λ _, I)); [apply IH; intros z Hz; apply Hf; by right|]. intros ys.
  exact (runs_ret (y :: ys) (λ _, I)).
Qed.

Lemma runs_apply c ns : runs F (alive ns) (ApplyChild c) (λ _, alive ns).
Proof.
  intros st Hst HP. unfold ApplyChild. pose proof (apply_ok Hcd c (cs_world st)) as Hok.
  pose proof (λ n, apply_keeps Hcd c n (cs_world st)) as Hk.
  destruct (cd_ApplyChild c (cs_world st)) as [[[]|e] w]; [|done]. eexists _, _. split; [done|]. split; [done|].
  eapply Forall_impl; [exact HP|]. exact Hk.
Qed.

Lemma runs_apply_node c ns : r_kind c = kindK3sNode → runs F (alive ns) (ApplyChild c) (λ _, alive (r_name c :: ns)).
Proof.
  intros Hc st Hst HP. destruct (runs_apply c ns st Hst HP) as ([] & st' & Hrun & Hst' & HP'). exists tt, st'.
  split_and!; [done..|]. constructor; [|done]. pose proof (apply_gives Hcd c (cs_world st) Hc) as Hg.
  unfold ApplyChild in Hrun. destruct (cd_ApplyChild c (cs_world st)). by injection Hrun as _ <-.
Qed.

Lemma runs_delete_node n ns ns' :
  (∀ m, m ∈ ns' → m ∈ ns ∧ m ≠ n) → runs F (alive ns) (deleteNodeChildren spec n) (λ _, alive ns').
Proof.
  intros Hns. apply (runs_pre _ _ (alive ns')).
  { intros w Hw. apply Forall_forall. intros m Hm. apply (proj1 (Forall_forall _ _) Hw). by apply Hns. }
  apply runs_forM. intros c Hc st Hst HP. unfold DeleteChild.
  pose proof (delete_ok Hcd c (cs_world st)) as Hok. pose proof (λ m, delete_keeps Hcd c m (cs_world st)) as Hk.
  destruct (cd_DeleteChild c (cs_world st)) as [[[]|e] w]; [|done]. eexists _, _. split; [done|]. split; [done|].
  apply Forall_forall. intros m Hm. apply Hk; [|by apply (proj1 (Forall_forall _ _) HP)]. intros [Hkind Hname].
  apply (proj2 (Hns m Hm)). unfold node_children in Hc. rewrite !elem_of_cons in Hc.
  destruct Hc as [->|[->|[->|Hc]]]; [done..|by apply elem_of_nil in Hc].
Qed.

Lemma runs_evict ip n ns : runs F (alive ns) (evictK8sNode ip n) (λ _, alive ns).
Proof.
  intros st Hst HP. eexists _, _. split; [done|]. split; [done|]. eapply Forall_impl; [exact HP|].
  intros m Hm. by apply ssh_keeps.
Qed.

Lemma runs_setJoin k cp ns :
  cp ∈ ns → runs F (alive ns) (setJoin k cp manifest name current removed) (λ k' w, alive ns w ∧ k' = setJoinRef k cp).
Proof.
  intros Hcp. apply runs_get. intros st Hst HP. pose proof (proj1 (Forall_forall _ _) HP cp Hcp) as [x Hx]. simpl in Hx.
  rewrite Hx. intros st' Hst' Hw. simpl in Hw. eexists _, _. split; [done|]. split; [done|]. by rewrite Hw.
Qed.

Lemma forM_cons {A} (f : A → M unit) x l : forM_ f (x :: l) = f x ≫= λ _, forM_ f l.
Proof. done. Qed.

Let surv := surviving name current removed ∅.

(** A state read after the step keeps what is known of it. *)
Lemma runs_return_state {A} (g : cstate → A) ns :
  runs F (alive ns) (get_state ≫= λ st, mret (g st)) (λ _, alive ns).
Proof.
  apply runs_get. intros st _ HP. intros st' Hst' Hw. simpl in Hw. eexists _, st'. split; [done|]. split; [done|].
  by rewrite Hw.
Qed.

Lemma runs_adds plan :
  is_ok (Plan manifest) = true → surv ≠ [] →
  runs F (alive surv) (addNodesViaPlan manifest name plan current removed) (λ _, alive surv).
Proof.
  intros HP Hne. unfold addNodesViaPlan, survivingControlPlane. fold surv.
  destruct surv as [|cp rest] eqn:Hs; [done|]. cbn [head]. rewrite <-Hs.
  destruct (Plan manifest) as [cs|]; [|done].
  apply (runs_bind _ _ _ (λ _, alive surv)).
  { apply runs_mapM. intros k _ st Hst HPre.
    destruct (runs_setJoin k cp surv ltac:(rewrite Hs; left) st Hst HPre) as (k' & st' & ? & ? & ? & _).
    by exists k', st'. }
  intros k3ss. apply (runs_bind _ _ _ (λ _, alive surv)); [|intros _; apply runs_return_state].
  apply (runs_forM _ (alive surv)). intros g _. apply (runs_forM _ (alive surv)). intros c _. apply runs_apply.
Qed.

Lemma runs_respec cs eps n :
  Plan manifest = Ok cs → n ∈ all_nodes name spec → (∃ cp, cp ∈ surv ∧ cp ≠ n) →
  runs F (alive surv) (respec_one manifest name spec cs current removed eps n) (λ _, alive surv).
Proof.
  intros Hcs Hn (cp' & Hcp' & Hne'). unfold respec_one, survivingControlPlane.
  assert (∀ m, m ∈ surviving name current removed {[n]} ↔ m ∈ surv ∧ m ≠ n) as Hsurv.
  { intros m. unfold surv, surviving. rewrite !elem_of_sort_strings, !list_elem_of_filter. set_solver. }
  destruct (surviving name current removed {[n]}) as [|cp rest] eqn:Hs.
  { exfalso. apply (elem_of_nil cp'). by apply Hsurv. }
  destruct (plan_by_key manifest cs n Hcs Hn) as ([vm ->] & [k3s Hk3s] & [agent ->]). rewrite Hk3s. simpl head. cbv beta iota.
  set (others := filter (λ m, m ≠ n) surv).
  assert (∀ m, m ∈ others ↔ m ∈ surv ∧ m ≠ n) as Hothers.
  { intros m. unfold others. rewrite list_elem_of_filter. tauto. }
  apply (runs_bind _ _ _ (λ _, alive others)); [apply runs_delete_node; intros m; apply Hothers|]. intros _.
  apply runs_get. intros st _ HP. apply (runs_pre _ _ (alive others)); [by intros w ->|].
  apply (runs_bind _ _ _ (λ _, alive others)).
  { destruct (survivingCPEndpoint _ _ _ _ _); [apply runs_evict|apply (runs_ret tt (λ _, alive others))]. }
  intros _. eapply runs_bind; [apply (runs_setJoin k3s cp others); apply Hothers, Hsurv; left|].
  intros k3s'. simpl. intros st1 Hst1 [HP1 ->]. revert st1 Hst1 HP1. change (runs F (alive others)
    (forM_ ApplyChild [vm; setJoinRef k3s cp; agent] ≫= λ _, get_state ≫= λ st,
       mret (copy_endpoints (node_endpoint n (cs_world st)) eps)) (λ _, alive surv)).
  apply (runs_bind _ _ _ (λ _, alive surv)); [|intros _; apply runs_return_state].
  destruct (by_key_k3s _ _ _ _ Hcs Hk3s) as [Hkind Hname].
  rewrite !forM_cons. apply (runs_bind _ _ _ (λ _, alive others)); [apply runs_apply|]. intros _.
  apply (runs_bind _ _ _ (λ _, alive surv)).
  - intros st2 Hst2 HP2. destruct (runs_apply_node (setJoinRef k3s cp) others Hkind st2 Hst2 HP2) as (x & st3 & Hr & Hst3 & HP3).
    exists x, st3. split_and!; [done..|]. apply Forall_cons in HP3 as [H1 H2]. simpl in H1.
    change (r_name (setJoinRef k3s cp)) with (r_name k3s) in H1. rewrite Hname in H1.
    apply Forall_forall. intros m Hm. destruct (decide (m = n)) as [->|Hmn]; [done|].
    apply (proj1 (Forall_forall _ _) H2). by apply Hothers.
  - intros _. apply (runs_bind _ _ _ (λ _, alive surv)); [apply runs_apply|]. intros _. apply (runs_ret tt (λ _, alive surv)).
Qed.

Lemma runs_respecs cs ns eps :
  Plan manifest = Ok cs → Forall (λ n, n ∈ all_nodes name spec ∧ ∃ cp, cp ∈ surv ∧ cp ≠ n) ns →
  runs F (alive surv) (respec_loop manifest name spec cs current removed ns eps) (λ _, alive surv).
Proof.
  intros Hcs. revert eps; induction ns as [|n ns IH]; intros eps Hns; [by apply (runs_ret eps (λ _, alive surv))|].
  apply Forall_cons in Hns as [[Hn Hcp] Hns]. cbn [respec_loop]. eapply runs_bind; [by apply runs_respec|].
  intros eps'. by apply IH.
Qed.
End live.

Lemma runs_converge F manifest current plan respecs :
  let name := r_name manifest in
  let spec := ParseClusterSpec manifest in
  let surv := surviving name current (removed_nodes plan) ∅ in
  DispatcherOk → is_ok (Plan manifest) = true →
  (addCPs plan ++ addWorkers plan ≠ [] → surv ≠ []) →
  Forall (λ r, rs_Name r ∈ all_nodes name spec ∧ ∃ cp, cp ∈ surv ∧ cp ≠ rs_Name r) respecs →
  runs F (alive surv) (converge manifest name spec current plan respecs) (λ _ _, True).
Proof.
  intros name spec surv Hcd HP Hadd Hrespec. unfold converge. fold (removed_nodes plan).
  apply (runs_bind _ _ _ _ (λ _, alive surv)).
  { assert (∀ l, (∀ n, n ∈ l → n ∈ removed_nodes plan) → runs F (alive surv) (forM_ (deleteNodeChildren spec) l) (λ _, alive surv)) as Hdel.
    { intros l Hl. apply (runs_forM _ _ (alive surv)). intros n Hn. apply runs_delete_node; [done|]. intros m Hm. split; [done|].
      intros ->. unfold surv, surviving in Hm. rewrite elem_of_sort_strings, list_elem_of_filter in Hm.
      by destruct Hm as [(_ & Hr & _) _]; apply Hr, Hl. }
    apply (runs_bind _ _ _ _ (λ _, alive surv)); [|intros _]; apply Hdel; intros n Hn; unfold removed_nodes, toSet;
      rewrite elem_of_list_to_set, elem_of_app; by auto. }
  intros _. apply (runs_bind _ _ _ _ (λ _, alive surv)).
  { unfold deleteDepartedK8sNodes. case_decide; [apply (runs_ret _ tt (λ _, alive surv))|]. apply runs_get. intros st _ HPre.
    apply (runs_pre _ _ _ (alive surv)); [by intros w ->|].
    destruct (survivingCPEndpoint _ _ _ _ _); [|apply (runs_ret _ tt (λ _, alive surv))].
    apply (runs_forM _ _ (alive surv)). intros n _. by apply runs_evict. }
  intros _. apply (runs_bind _ _ _ _ (λ _, alive surv)).
  { case_decide as Ha; [apply (runs_ret _ _ (λ _, alive surv))|].
    apply (runs_bind _ _ _ _ (λ _, alive surv)); [by apply runs_adds; auto|]. intros eps. apply (runs_ret _ _ (λ _, alive surv)). }
  intros ke. case_decide as Hr.
  { intros st Hst _. by exists ke, st. }
  unfold respecNodesViaPlan. destruct (Plan manifest) as [cs|] eqn:Hcs; [|done].
  apply (runs_bind _ _ _ _ (λ _, alive surv)).
  - apply runs_respecs; [done|done|]. by apply Forall_map.
  - intros eps st Hst _. by eexists _, st.
Qed.

(** ** Properties *)

(** A respec'd node is one that stays: it is expected. *)
Lemma respec_expected vms name spec current r :
  let '(plan, respecs) := compute vms name spec current in
  r ∈ respecs → rs_Name r ∈ all_nodes name spec ∧ rs_Name r ∈ vm_names current.
Proof.
  unfold compute, computeSpecRespecs. fold (removed_nodes (computeChangePlan name spec current)).
  intros (n & Hn & Hr)%list_elem_of_omap. apply list_elem_of_filter in Hn as [Hn Hin]. rewrite elem_of_removed in Hn.
  assert (rs_Name r = n) as ->.
  { unfold respec_of in Hr. repeat case_match; by simplify_eq. }
  split; [|done]. unfold all_nodes. rewrite elem_of_app.
  destruct (decide (n ∈ (NodeNames name spec).1)); [by left|]. destruct (decide (n ∈ (NodeNames name spec).2)); [by right|].
  destruct Hn. split; [done|]. by destruct (plan_cp name n).
Qed.

(** Keeping what is not removed and adding what is missing gives the expected nodes. *)
Lemma converged_no_changes name spec current :
  worker_pools_ok spec →
  let plan := computeChangePlan name spec current in
  hasChanges (computeChangePlan name spec
    (filter (λ c, cr_Name c ∉ removed_nodes plan) current ++ added_children plan)) = false.
Proof.
  intros Hok plan. apply hasChanges_nodes; [done|]. intros n. rewrite elem_of_vm_names.
  unfold added_children. setoid_rewrite elem_of_app. setoid_rewrite list_elem_of_filter. unfold all_nodes. rewrite ?elem_of_app. split.
  - intros (c & [(Hc & Hin)|Hin] & Hkind & <-).
    + unfold plan in Hc. rewrite elem_of_removed in Hc. assert (cr_Name c ∈ vm_names current) as Hvm by (apply elem_of_vm_names; eauto).
      destruct (decide (cr_Name c ∈ (NodeNames name spec).1)); [by left|].
      destruct (decide (cr_Name c ∈ (NodeNames name spec).2)); [by right|].
      destruct Hc. split; [done|]. by destruct (plan_cp name (cr_Name c)).
    + apply list_elem_of_fmap in Hin as (n & -> & Hin). simpl.
      unfold plan in Hin. rewrite elem_of_app, elem_of_addCPs, elem_of_addWorkers in Hin. tauto.
  - intros Hn. destruct (decide (n ∈ vm_names current)) as [Hin|Hin].
    + pose proof Hin as (c & Hc & Hkind & <-)%elem_of_vm_names. exists c. split; [left|done]. split; [|done].
      unfold plan. rewrite elem_of_removed. intros [_ Hr]. destruct Hn as [Hn|Hn].
      * by rewrite (cp_is_cp name spec _ Hn) in Hr.
      * by rewrite (worker_not_cp name spec _ Hok Hn) in Hr.
    + exists (MkChildRef "proxmox" kindVM n). split; [right|done]. apply list_elem_of_fmap_2.
      unfold plan. rewrite elem_of_app, elem_of_addCPs, elem_of_addWorkers. destruct Hn; [left|right]; tauto.
Qed.


Lemma elem_of_appendUnique s v x : x ∈ appendUnique s v ↔ x ∈ s ∨ x = v.
Proof. unfold appendUnique. case_decide; [naive_solver|]. by rewrite elem_of_app, list_elem_of_singleton. Qed.

(** The order of the refusals does not matter for whether there is one. *)
Lemma gate_logic {A} (removes noRespec allow know : bool) (c1 c2 : option reason) (e1 e2 : refusal) (x : A) :
  (∃ r, (if removes && negb allow then Err e1
         else if negb noRespec && negb allow then Err e2
         else match c1, c2 with
              | Some r, _ => if know then Ok x else Err (Catastrophic r)
              | None, Some r => if know then Ok x else Err (Catastrophic r)
              | None, None => Ok x
              end) = Err r) ↔
  ¬ ((removes = true ∨ noRespec = false → allow = true) ∧ (is_Some c1 ∨ is_Some c2 → know = true)).
Proof.
  destruct removes, noRespec, allow, know, c1, c2; simpl; (split; [intros [e He] [H1 H2]|intros Ho; try by eexists]);
    try done; try (by discriminate H1; auto); try (by discriminate H2; eauto);
    destruct Ho; (split; [by intros [?|?]|intros [Hs|Hs]; by destruct Hs]).
Qed.

Lemma route_existing hasCD manifest files :
  route hasCD manifest files = RouteExisting →
  r_kind manifest = kindCluster ∧ r_name manifest ≠ "" ∧ ∃ existing, loadState (r_name manifest) files = Ok (Some existing).
Proof.
  unfold route. case_decide as Hk; [done|]. case_decide as Hn; [done|].
  destruct (decide (r_kind manifest = kindCluster)); [|done].
  destruct (loadState _ _) as [[existing|]|]; [|by destruct hasCD..]. intros _. split_and!; [done..|by eexists].
Qed.

Lemma required_gates vms name spec current :
  let '(plan, respecs) := compute vms name spec current in
  let '(haveCPs, haveWorkers) := countCurrent current name in
  let changed := negb (hasChanges plan) && bool_decide (respecs = []) = false in
  let dr := dryRunExisting vms name spec current in
  (GateAllowDestructive ∈ dr_RequiredGates dr ↔ changed ∧ (removesAny plan = true ∨ respecs ≠ [])) ∧
  (GateIKnowThisBreaks ∈ dr_RequiredGates dr ↔
     changed ∧ (is_Some (catastrophicReason plan haveCPs haveWorkers) ∨ is_Some (catastrophicRespecReason respecs haveCPs haveWorkers))).
Proof.
  unfold dryRunExisting. destruct (compute vms name spec current) as [plan respecs].
  destruct (countCurrent current name) as [haveCPs haveWorkers]. destruct (_ && _) eqn:Hn.
  { simpl. split; split; try (by intros ?%elem_of_nil); by intros [? _]. }
  cbn [dr_RequiredGates].
  assert (∀ g x l, x ∈ match l : option reason with Some _ => appendUnique g GateIKnowThisBreaks | None => g end ↔
    x ∈ g ∨ (is_Some l ∧ x = GateIKnowThisBreaks)) as Hm.
  { intros g x [r|]; [rewrite elem_of_appendUnique|]; naive_solver. }
  rewrite !Hm. assert (∀ x, x ∈ (if removesAny plan || negb (bool_decide (respecs = [])) then [GateAllowDestructive] else []) ↔
    (removesAny plan = true ∨ respecs ≠ []) ∧ x = GateAllowDestructive) as Ha.
  { intros x. destruct (removesAny plan); simpl; [rewrite list_elem_of_singleton; naive_solver|].
    case_bool_decide; simpl; [rewrite elem_of_nil|rewrite list_elem_of_singleton]; naive_solver. }
  rewrite !Ha. split; naive_solver.
Qed.

(** The annotations open every gate that a preview requires. *)
Definition gates_opened (dr : DryRunResult) (manifest : resource) : Prop :=
  (GateAllowDestructive ∈ dr_RequiredGates dr → allowed annotAllowDestructive manifest = true) ∧
  (GateIKnowThisBreaks ∈ dr_RequiredGates dr → allowed annotIKnowThisBreaks manifest = true).

(** C13: The preview of a re-apply names exactly the gates the apply then asks for. For a
    Cluster that Apply converges in place (one with a state file, which is not, for an apply with a
    child dispatcher, still in the phase Provisioning: that one is applied by plan, and asks for no
    gate at all): the apply is refused if and only if a gate that DryRun requires is not opened by the
    manifest's annotations, and then nothing at all is done; when the preview
    lists no action, the apply does nothing either. *)
Theorem dry_run_gates hasCD now quote manifest st :
  let name := r_name manifest in
  let spec := ParseClusterSpec manifest in
  let adm := admission (λ n, vms_Get n (cs_world st)) manifest name spec (children_of name (cs_files st)) in
  route hasCD manifest (cs_files st) = RouteExisting →
  ∃ dr, DryRun quote manifest st = Ok dr ∧
    ((∃ r, adm = Err r) ↔ ¬ gates_opened dr manifest) ∧
    (¬ gates_opened dr manifest → ∃ r, applyExisting hasCD now manifest name spec st = (Err (ErrRefused r), st)) ∧
    (dr_Children dr = [] → applyExisting hasCD now manifest name spec st = (map_err ErrState (loadState name (cs_files st)), st)).
Proof.
  intros name spec adm Hroute. apply route_existing in Hroute as (Hkind & Hname & existing & Hf).
  unfold DryRun. rewrite decide_False by (intros Hne; by apply Hne).
  rewrite decide_False by done. fold name in Hf |- *. rewrite Hf. eexists. split; [done|].
  set (current := children_of name (cs_files st)). set (vms := λ n, vms_Get n (cs_world st)).
  pose proof (required_gates vms name spec current) as Hg. set (dr := dryRunExisting vms name (ParseClusterSpec manifest) current).
  fold spec in dr. fold dr in Hg. set (opened := gates_opened dr manifest).
  assert ((∃ r, adm = Err r) ↔ ¬ opened) as Hadm.
  { unfold opened, gates_opened, adm, admission. fold current vms.
    destruct (compute vms name spec current) as [plan respecs].
    destruct (countCurrent current name) as [haveCPs haveWorkers]. destruct Hg as [-> ->].
    destruct (negb (hasChanges plan) && bool_decide (respecs = [])) eqn:Hn.
    { split; [by intros [? ?]|]. intros Ho. destruct Ho. by split; intros [? _]. }
    rewrite gate_logic. apply not_iff_compat. rewrite bool_decide_eq_false. naive_solver. }
  split; [done|]. split.
  - intros [r Hr]%Hadm. exists r. unfold applyExisting. change (admission _ manifest name spec _) with adm. by rewrite Hr.
  - intros Hd. unfold applyExisting. change (admission _ manifest name spec _) with adm.
    assert (adm = Ok None) as ->; [|by rewrite Hf].
    unfold adm, admission. fold current vms. unfold dr, dryRunExisting in Hd. fold spec in Hd. clear dr Hg opened Hadm. destruct (compute vms name spec current) as [plan respecs].
    destruct (negb (hasChanges plan) && bool_decide (respecs = [])) eqn:Hn; [done|].
    destruct (countCurrent current name) as [haveCPs haveWorkers]. simpl in Hd.
    apply app_nil in Hd as [H1 Hd]. apply app_nil in Hd as [H2 Hd]. apply app_nil in Hd as [H3 Hd]. apply app_nil in Hd as [H4 H5].
    apply fmap_nil_inv in H1, H2, H3, H4, H5. rewrite H5 in Hn. unfold hasChanges in Hn. by rewrite H1, H2, H3, H4 in Hn.
Qed.

(** A convergence is ordered: whatever fails, the child operations made are an
    initial part of the script - workers are removed before control planes, a
    node's agent and K3sNode before its machine, new machines come before new
    K3sNodes and those before new agents, and only then is one node after the
    other replaced - and a successful apply has made all of it, once. *)
Theorem applyExisting_script hasCD now manifest st :
  let name := r_name manifest in
  let spec := ParseClusterSpec manifest in
  NoDup (all_nodes name spec) →
  let '(plan, respecs) := apply_plan manifest st in
  let script := converge_script (all_nodes name spec) plan respecs in
  ∃ l, cs_log (applyExisting hasCD now manifest name spec st).2 = cs_log st ++ l ∧
    omap call_step l `prefix_of` script ∧
    (is_ok (applyExisting hasCD now manifest name spec st).1 = true → omap call_step l = script).
Proof.
  intros name spec Hnd. pose proof (applyExisting_emits hasCD now manifest st Hnd) as H0. cbv zeta in H0.
  destruct (apply_plan manifest st) as [plan respecs]. destruct H0 as (l & Hl & _ & Hpre & Hok).
  exists l. exact (conj Hl (conj Hpre Hok)).
Qed.

(** A node that is applied during a convergence never bootstraps a second
    cluster: its K3sNode joins, either by reference to a recorded control plane
    that is not being removed and is not the node itself, or with the token read
    from the recorded address of a control plane that is not being removed. *)
Theorem applyExisting_joins hasCD now manifest st :
  let name := r_name manifest in
  let spec := ParseClusterSpec manifest in
  let current := children_of name (cs_files st) in
  NoDup (all_nodes name spec) →
  ∃ l, cs_log (applyExisting hasCD now manifest name spec st).2 = cs_log st ++ l ∧
    ∀ k, CallApply k ∈ l → r_kind k = kindK3sNode →
      joins (cs_files st) name current (removed_nodes (apply_plan manifest st).1) k.
Proof.
  intros name spec current Hnd. pose proof (applyExisting_emits hasCD now manifest st Hnd) as H0. cbv zeta in H0.
  destruct (apply_plan manifest st) as [plan respecs]. destruct H0 as (l & Hl & HP & _). exists l. split; [done|].
  intros k Hk. exact (proj1 (Forall_forall _ _) HP _ Hk).
Qed.

(** The number of control planes an observed cluster reports. *)
Definition reported_cps (r : resource) : option value :=
  nodes ← map_field "nodes" (fields (r_spec r)); cp ← map_field "controlPlane" nodes; assoc "count" cp.

Lemma map_field_upd key f m x : map_field key m = Some x → map_field key (upd_map key f m) = Some (f x).
Proof.
  unfold map_field, upd_map. destruct (assoc key m) as [[]|] eqn:Hk; intros [= <-]. rewrite assoc_set_eq. done.
Qed.

Lemma observed_nodes_cps vms cluster children nodes cp :
  map_field "controlPlane" nodes = Some cp →
  (cp' ← map_field "controlPlane" (observed_nodes vms cluster children nodes); assoc "count" cp') =
    Some (count_value (length (filter (λ n, has_prefix (cp_prefix cluster) n = true)
      (filter (λ n, vmChildExists vms n = true) (vm_names children))))).
Proof.
  intros Hcp. unfold observed_nodes. set (nodes' := upd_map "controlPlane" _ nodes).
  assert (∀ w, map_field "controlPlane" (assoc_set "workers" w nodes') = map_field "controlPlane" nodes') as Hw.
  { intros w. unfold map_field. by rewrite assoc_set_ne. }
  assert (map_field "controlPlane" match assoc "workers" nodes' with
    | Some (VList ws) => assoc_set "workers" (VList (map (set_pool_count cluster (filter
        (λ n, has_prefix (cp_prefix cluster) n = false) (filter (λ n, vmChildExists vms n = true) (vm_names children)))) ws)) nodes'
    | _ => nodes' end = map_field "controlPlane" nodes') as ->.
  { destruct (assoc "workers" nodes') as [[]|]; try done. }
  unfold nodes'. rewrite (map_field_upd _ _ _ _ Hcp). simpl. by rewrite assoc_set_eq.
Qed.

Lemma elem_of_state_names files name : is_Some (files !! name) → name ∈ state_names files.
Proof.
  intros [x Hx]. unfold state_names. apply list_elem_of_fmap. exists (name +:+ ".yaml"). split; [by rewrite trim_suffix_app|].
  rewrite elem_of_sort_strings. apply list_elem_of_fmap. exists (name, x). split; [done|]. by apply elem_of_map_to_list.
Qed.

(** A control plane whose machine is gone is never recreated: when the state
    file lists the expected nodes and no other machine differs in size, an apply
    succeeds without doing anything, although Get reports fewer control planes
    than are recorded - so the drift stays for ever - while List reports what the
    state file says. *)
Theorem missing_vm_not_recreated hasCD now manifest st raw s nodes cp n :
  let name := r_name manifest in
  let spec := ParseClusterSpec manifest in
  let current := children_of name (cs_files st) in
  let vms := λ n, vms_Get n (cs_world st) in
  cs_files st !! name = Some (Some raw) → worker_pools_ok spec →
  (∀ m, m ∈ vm_names current ↔ m ∈ all_nodes name spec) →
  n ∈ cp_names name current → vms n = Err GetNotFound →
  (∀ m, m ∈ vm_names current → m ≠ n → respec_of vms name spec m = None) →
  map_field "spec" raw = Some s → map_field "nodes" s = Some nodes → map_field "controlPlane" nodes = Some cp →
  (∃ r, applyExisting hasCD now manifest name spec st = (Ok (Some r), st)) ∧
  (is_ok (readChildren name (cs_files st)) = true → ∃ r k, Get vms name (cs_files st) = Ok r ∧
     reported_cps r = Some (count_value k) ∧ k < length (cp_names name current)) ∧
  (∃ r, r ∈ List (cs_files st) ∧ r_name r = name ∧ reported_cps r = assoc "count" cp).
Proof.
  intros name spec current vms Hf Hpools Hnodes Hn Hgone Hsize Hs Hns Hcp.
  assert (loadState name (cs_files st) = Ok (Some (Resource k3sAPIVersion kindCluster (ResourceMetadata name "" [] [] "" "")
    (Some s) (map_field "status" raw)))) as Hload by (unfold loadState; by rewrite Hf, Hs).
  assert (∀ m, m ∈ vm_names current → respec_of vms name spec m = None) as Hnone.
  { intros m Hm. destruct (decide (m = n)) as [->|Hne]; [|by apply Hsize]. unfold respec_of. by rewrite Hgone. }
  split_and!.
  - eexists. unfold applyExisting. fold current vms. unfold admission, compute.
    rewrite (proj2 (hasChanges_nodes name spec current Hpools) Hnodes).
    rewrite bool_decide_eq_true_2; [simpl; by rewrite Hload|].
    unfold computeSpecRespecs. apply nil_elem. intros r (m & Hm & Hr)%list_elem_of_omap.
    apply list_elem_of_filter in Hm as [_ Hm]. by rewrite Hnone in Hr.
  - intros [l Hl]%is_ok_true. assert (current = l) as Hcur by (unfold current, children_of; by rewrite Hl).
    eexists _, _. unfold Get. rewrite Hload, Hl. split; [done|]. rewrite <-Hcur. unfold reported_cps, applyObservedCounts. simpl.
    rewrite (map_field_upd _ _ _ _ Hns). simpl. rewrite (observed_nodes_cps _ _ _ _ _ Hcp). split; [done|].
    unfold cp_names in *. apply list_elem_of_filter in Hn as [Hp Hn]. clear -Hn Hp Hgone.
    induction (vm_names current) as [|m ms IH]; [by apply elem_of_nil in Hn|].
    assert (length (filter (λ n, has_prefix (cp_prefix name) n = true) (filter (λ n, vmChildExists vms n = true) ms)) ≤
      length (filter (λ n, has_prefix (cp_prefix name) n = true) ms)) as Hle.
    { rewrite list_filter_filter. clear. induction ms as [|m ms IH]; [done|]. rewrite !filter_cons.
      repeat case_decide; simpl; naive_solver lia. }
    rewrite !filter_cons. apply elem_of_cons in Hn as [<-|Hn].
    + rewrite (decide_False (P := vmChildExists vms n = true)) by (unfold vmChildExists; by rewrite Hgone).
      rewrite decide_True by done. simpl. lia.
    + specialize (IH Hn). case_decide; [rewrite filter_cons|]; repeat case_decide; simpl; lia.
  - eexists. split; [|split; [|]].
    + apply list_elem_of_omap. exists name. split; [apply elem_of_state_names; by rewrite Hf|]. rewrite Hload. done.
    + done.
    + unfold reported_cps. simpl. rewrite Hns. simpl. by rewrite Hcp.
Qed.

Lemma deletes_run spec n st :
  (∀ c w, is_ok (cd_DeleteChild c w).1 = true) →
  ∃ st', deleteNodeChildren spec n st = (Ok tt, st') ∧ cs_files st' = cs_files st ∧
    cs_log st' = cs_log st ++ map CallDelete (node_children spec n).
Proof.
  intros Hdel. unfold deleteNodeChildren. generalize (node_children spec n). intros cs. revert st.
  induction cs as [|c cs IH]; intros st; simpl.
  { exists st. by rewrite app_nil_r. }
  unfold mbind, M_bind, DeleteChild. specialize (Hdel c (cs_world st)).
  destruct (cd_DeleteChild c (cs_world st)) as [[[]|e] w]; [|done].
  destruct (IH (record (CallDelete c) w st)) as (st' & Hrun & Hf & Hl). exists st'. split; [exact Hrun|]. split; [done|].
  rewrite Hl. simpl. by rewrite <-(assoc_L (++)).
Qed.

(** The replacement of the first control plane of a legacy cluster (its control
    planes have no K3sNode) cannot finish: the node is deleted, and then the join
    token is read from the recorded address of the first control plane, which is
    the node just deleted, instead of from the one it is to join; when that
    address no longer answers, the replacement stops with nothing recreated. *)
Theorem legacy_respec_stuck manifest cs current removed eps cp0 cp1 ip st :
  let name := r_name manifest in
  let spec := ParseClusterSpec manifest in
  Plan manifest = Ok cs → cp0 ∈ all_nodes name spec →
  survivingControlPlane name current removed ∅ = Some cp0 →
  survivingControlPlane name current removed {[cp0]} = Some cp1 →
  (∀ c w, is_ok (cd_DeleteChild c w).1 = true) → (∀ w, loadNodeState cp1 w = None) →
  (∀ r, loadState name (cs_files st) = Ok (Some r) → assoc cp0 (readAgentEndpoints r) = Some ip) →
  is_ok (loadState name (cs_files st)) = true → is_Some (cs_files st !! name) →
  (∀ user key w, readCPNodeToken ip user key w = None) →
  ∃ st' l, respec_one manifest name spec cs current removed eps cp0 st = (Err (ErrLegacyToken cp1 ip), st') ∧
    cs_log st' = cs_log st ++ l ∧ omap call_step l = node_deletes cp0.
Proof.
  intros name spec Hcs Hin Hs0 Hs1 Hdel Hlegacy Hip Hload [raw Hraw] Htok. unfold respec_one. rewrite Hs1.
  destruct (plan_by_key manifest cs cp0 Hcs Hin) as ([vm ->] & [k3s ->] & [agent ->]).
  destruct (deletes_run spec cp0 st Hdel) as (st1 & Hrun & Hf1 & Hl1).
  assert (survivingCPEndpoint (cs_files st1) name current removed ∅ = Some ip) as Hep.
  { unfold survivingCPEndpoint. rewrite Hs0. simpl. rewrite Hf1. unfold loadState in *. rewrite Hraw in *.
    destruct raw as [raw|]; [|done]. by apply Hip. }
  assert (∀ st2, cs_files st2 = cs_files st1 →
    setJoin k3s cp1 manifest name current removed st2 = (Err (ErrLegacyToken cp1 ip), st2)) as Hjoin.
  { intros st2 Hst2. unfold setJoin, mbind, M_bind, get_state. rewrite Hlegacy, Hst2, Hep, Htok. done. }
  unfold mbind at 1, M_bind at 1. rewrite Hrun. unfold mbind at 1, M_bind at 1, get_state at 1.
  destruct (survivingCPEndpoint (cs_files st1) name current removed {[cp0]}) as [ip1|].
  - eexists _, (map CallDelete (node_children spec cp0) ++ [CallEvict ip1 cp0]). unfold mbind at 1, M_bind at 1, evictK8sNode at 1.
    unfold mbind at 1, M_bind at 1. rewrite Hjoin by done. split; [done|]. split; [|done]. simpl. rewrite Hl1.
    by rewrite <-(assoc_L (++)).
  - eexists _, (map CallDelete (node_children spec cp0)). unfold mbind at 1, M_bind at 1, mret at 1, M_ret at 1.
    unfold mbind at 1, M_bind at 1. rewrite Hjoin by done. split; [done|]. split; [|done]. exact Hl1.
Qed.
End converge.

(** Deleting a cluster forgets it only when every machine is gone. *)
Lemma Delete_forgets {W E} `{Yaml} vms_Delete not_found (rm_node rm_agent rm_bundle : string → W → W) name files w :
  let '(r, (files', _)) := Delete (E := E) vms_Delete not_found rm_node rm_agent rm_bundle name files w in
  files' = if is_ok r then delete name files else files.
Proof.
  unfold Delete, loadState. destruct (files !! name) as [[raw|]|] eqn:Hf; [|done|by rewrite delete_id].
  by destruct (delete_children _ _ _ _ _ _) as [[u|[n e]] w'].
Qed.

(** ** Witnesses *)

(** A file reads back as it was written; the world is the list of nodes whose
    K3sNode state is on disk. *)
Definition ex_child (v : value) : option childRef :=
  match v with
  | VMap m => Some (MkChildRef (str_field "provider" m) (str_field "kind" m) (str_field "name" m))
  | _ => None
  end.

#[local] Instance ex_yaml : Yaml :=
  {| yaml v := v; yaml_children v := match v with VList l => mapM ex_child l | _ => None end |}.

#[local] Instance ex_yaml_laws : YamlLaws.
Proof.
  split.
  - intros m. simpl. f_equal. induction m as [|[k v] m IH]; [done|]. simpl. by rewrite <-IH.
  - intros l. simpl. induction l as [|[p k n] l IH]; [done|]. simpl. simpl in IH. by rewrite IH.
Qed.

Definition ex_apply (c : resource) (w : list string) : result string unit * list string :=
  (Ok tt, if decide (r_kind c = kindK3sNode) then r_name c :: w else w).
Definition ex_delete (c : resource) (w : list string) : result string unit * list string :=
  (Ok tt, if decide (r_kind c = kindK3sNode) then filter (λ n, n ≠ r_name c) w else w).
Definition ex_state (n : string) (w : list string) : option nodeState :=
  if decide (n ∈ w) then Some (MkNodeState n "10.0.0.9") else None.
Definition ex_ssh (host : string) (cmds : list string) (w : list string) : list string := w.
Definition ex_token (host user key : string) (w : list string) : option string := None.
Definition ex_path (p : string) : option string := Some p.

Lemma ex_dispatcher : DispatcherOk ex_apply ex_delete ex_state ex_ssh.
Proof.
  assert (∀ n w, has_state ex_state n w ↔ n ∈ w) as Hs.
  { intros n w. unfold has_state, ex_state. case_decide; [done|]. by split; [intros [? ?]|]. }
  split; try done; intros; rewrite ?Hs in *; unfold ex_apply, ex_delete; simpl; try case_decide; try done.
  - apply list_elem_of_filter. split; [|done]. intros ->. naive_solver.
  - by right.
  - left.
Qed.

(** One worker is seen with 2 CPUs and 2048 MB; nothing is known of the others. *)
Definition ex_vms (n : string) (w : list string) : observation :=
  if decide (n = "k-w-0") then
    Ok (Some (Resource "proxmox.openctl.io/v1" kindVM (ResourceMetadata n "" [] [] "" "")
      (Some [("cpu", VMap [("cores", VInt 2)]); ("memory", VMap [("size", VInt 2048)])]) None))
  else Ok None.

Definition ex_allowed (m : resource) : resource :=
  with_metadata m (ResourceMetadata (r_name m) "" [] [(annotAllowDestructive, "true")] "" "").

(** A cluster of two control planes and two workers, to have three and one. *)
Definition ex_names : list string := ["k-cp-0"; "k-cp-1"; "k-w-0"; "k-w-1"].
Definition ex_doc : gomap := state_doc "t0" "k" (ex_manifest 2 2 []) [("phase", VStr "Ready")] ex_names.
Definition ex_cstate : cstate (W := list string) := MkCState {[ "k" := Some ex_doc ]} ["k-cp-0"; "k-cp-1"] [].
Definition ex_target : resource := ex_allowed (ex_manifest 3 1 []).


Lemma dry_run_gates_witness :
  let m := ex_manifest 3 1 [] in
  ∃ r, applyExisting ex_vms ex_apply ex_delete ex_state ex_ssh ex_token ex_path true "t1" m "k" (ParseClusterSpec m) ex_cstate =
    (Err (ErrRefused r), ex_cstate).
Proof.
  intros m. destruct (dry_run_gates ex_vms ex_apply ex_delete ex_state ex_ssh ex_token ex_path true "t1" (λ s, s) m ex_cstate)
    as (dr & Hdr & Hgate & Hr & _).
  - vm_compute. reflexivity.
  - apply Hr. apply Hgate. exists (WouldRemove [] ["k-w-1"]). vm_compute. reflexivity.
Defined.

Lemma applyExisting_script_witness :
  ∃ l, cs_log (applyExisting ex_vms ex_apply ex_delete ex_state ex_ssh ex_token ex_path true "t1" ex_target "k"
    (ParseClusterSpec ex_target) ex_cstate).2 = l ∧
  omap call_step l =
    node_deletes "k-w-1" ++ node_applies "k-cp-2" ++ node_deletes "k-w-0" ++ node_applies "k-w-0".
Proof.
  pose proof (applyExisting_script ex_vms ex_apply ex_delete ex_state ex_ssh ex_token ex_path true "t1" ex_target ex_cstate
    ltac:(by_decide)) as H.
  destruct (apply_plan ex_vms ex_target ex_cstate) as [plan respecs] eqn:Hp. destruct H as (l & Hl & _ & Hok).
  exists l. split; [exact Hl|]. rewrite (Hok ltac:(vm_compute; reflexivity)).
  assert (plan = (apply_plan ex_vms ex_target ex_cstate).1) as -> by (by rewrite Hp).
  assert (respecs = (apply_plan ex_vms ex_target ex_cstate).2) as -> by (by rewrite Hp).
  vm_compute. reflexivity.
Defined.

Lemma applyExisting_joins_witness :
  ∃ l, cs_log (applyExisting ex_vms ex_apply ex_delete ex_state ex_ssh ex_token ex_path true "t1" ex_target "k"
    (ParseClusterSpec ex_target) ex_cstate).2 = l ∧
  ∀ k, CallApply k ∈ l → r_kind k = kindK3sNode → spec_at "joinFrom" k ≠ None.
Proof.
  destruct (applyExisting_joins ex_vms ex_apply ex_delete ex_state ex_ssh ex_token ex_path true "t1" ex_target ex_cstate
    ltac:(by_decide)) as (l & Hl & Hj).
  exists l. split; [exact Hl|]. intros k Hk Hkind.
  destruct (Hj k Hk Hkind) as [(cp & _ & _ & -> & _)|(token & ip & _ & -> & _)]; discriminate.
Defined.

(** The first control plane's machine was deleted out of band. *)
Definition ex_lost (n : string) (w : list string) : observation :=
  if decide (n = "k-cp-0") then Err GetNotFound else Ok None.

Definition ex_spec : gomap := fields (r_spec (ex_manifest 2 2 [])).

Lemma missing_vm_not_recreated_witness :
  let m := ex_manifest 2 2 [] in
  ∃ r, applyExisting ex_lost ex_apply ex_delete ex_state ex_ssh ex_token ex_path true "t1" m "k" (ParseClusterSpec m) ex_cstate =
    (Ok (Some r), ex_cstate).
Proof.
  intros m. refine (proj1 (missing_vm_not_recreated ex_lost ex_apply ex_delete ex_state ex_ssh ex_token ex_path true "t1" m
    ex_cstate ex_doc ex_spec (fields (map_field "nodes" ex_spec))
    (fields (map_field "controlPlane" (fields (map_field "nodes" ex_spec)))) "k-cp-0" _ _ _ _ _ _ _ _ _)).
  - reflexivity.
  - by_decide.
  - intros n. change (n ∈ ex_names ↔ n ∈ all_nodes "k" (ParseClusterSpec m)).
    assert (all_nodes "k" (ParseClusterSpec m) = ex_names) as -> by (vm_compute; reflexivity). reflexivity.
  - by_decide.
  - reflexivity.
  - intros n _ Hne. unfold respec_of, ex_lost. rewrite decide_False by exact Hne. reflexivity.
  - reflexivity.
  - vm_compute. reflexivity.
  - vm_compute. reflexivity.
Defined.

(** A legacy cluster of two control planes, whose addresses are recorded. *)
Definition ex_legacy_doc : gomap :=
  state_doc "t0" "k" (ex_manifest 2 0 [])
    [("outputs", VMap [("agent", VMap [("endpoints", VMap [("k-cp-0", VStr "10.0.0.1"); ("k-cp-1", VStr "10.0.0.2")])])])]
    ["k-cp-0"; "k-cp-1"].

Lemma legacy_respec_stuck_witness :
  let m := ex_manifest 2 0 [] in
  let st := MkCState {[ "k" := Some ex_legacy_doc ]} [] [] in
  ∃ st', respec_one (E := string) ex_apply ex_delete (λ _ _, None) ex_ssh ex_token ex_path m "k" (ParseClusterSpec m) (ok_or (Plan m) [])
    (ex_refs ["k-cp-0"; "k-cp-1"]) ∅ [] "k-cp-0" st = (Err (ErrLegacyToken "k-cp-1" "10.0.0.1"), st').
Proof.
  intros m st.
  destruct (legacy_respec_stuck (E := string) ex_apply ex_delete (λ _ _, None) ex_ssh ex_token ex_path m (ok_or (Plan m) [])
    (ex_refs ["k-cp-0"; "k-cp-1"]) ∅ [] "k-cp-0" "k-cp-1" "10.0.0.1" st) as (st' & _ & H & _).
  - apply ok_or_ok. vm_compute. reflexivity.
  - by_decide.
  - vm_compute. reflexivity.
  - vm_compute. reflexivity.
  - reflexivity.
  - reflexivity.
  - intros r Hr. assert (r = ok_or (match loadState "k" (cs_files st) with Ok (Some r) => Ok r | _ => Err tt end) r) as ->.
    { change (loadState (r_name m) (cs_files st)) with (loadState "k" (cs_files st)) in Hr. by rewrite Hr. }
    vm_compute. reflexivity.
  - vm_compute. reflexivity.
  - by eexists.
  - reflexivity.
  - exists st'. exact H.
Defined.
