(* ===== verification/NodeOps.v ===== *)
(** Installing k3s and the agent on a node:
    src/internal/controller/providers/k3s/node_ops.go, agent_ops.go and vm_ready.go.

    A node is reached over ssh; every command that is run on one is recorded in a
    log with its host. A state file is what decoding it gives. The virtual
    machine's answers while its address is awaited, the attempts to reconnect and
    the clock are chosen by the environment and are arguments. *)
From S2P Require Import Prelude GoStrings GoValue Marker Refs Registry ClusterSpec ClusterPlan ClusterDiff.
From Stdlib Require Import Ascii.

(** ** Specs *)

Record k3sNodeSpec : Type := MkK3sNodeSpec {
  s_vmName : string; s_vmIP : string; s_role : string; joinFromToken : string; joinFromIP : string;
  version : string; extraArgs : list string; sshUser : string; sshKeyPath : string; clusterInit : bool }.

Inductive node_error : Type :=
| ErrNodeName
| ErrNodeSpec
| ErrVMRef
| ErrVMRefName
| ErrRole (role : option string)
| ErrJoinFrom (role : string)
| ErrJoinURL
| ErrClusterName
| ErrKeyPath
| ErrWaitIP (vm : string)
| ErrSSH (user host : string)
| ErrInstall (host msg : string)
| ErrVerify (host : string)
| ErrToken
| ErrKubeconfig
| ErrBundle (cluster : string)
| ErrMint
| ErrAgentInstall (host : string)
| ErrNodeState
| ErrNotFound (name : string).

(** [if s, ok := m[key].(string); ok && s != "" { x = s }] *)
Definition str_or (key : string) (m : gomap) (x : string) : string :=
  match as_str (assoc key m) with
  | Some s => if decide (s = "") then x else s
  | None => x
  end.

(** [m[a].(map[string]any)[b].(string)] *)
Definition str_at (a b : string) (m : gomap) : string := str_field b (fields (map_field a m)).

(** The name and the address that [vmRef] and [spec.vmIP] give. *)
Definition vm_ref_name (s : gomap) : option string := str_at "metadata" "name" <$> map_field "vmRef" s.
Definition vm_ref_ip (s : gomap) : string := str_or "vmIP" s (str_at "status" "ip" (fields (map_field "vmRef" s))).

(** [joinFrom] and [joinURLFrom]: a bare string or a whole resource. *)
Definition join_token (s : gomap) : string :=
  match assoc "joinFrom" s with
  | Some (VStr t) => t
  | Some (VMap v) => str_at "status" "nodeToken" v
  | _ => ""
  end.

(** A status without a [vmIP] string leaves the address as it is. *)
Definition status_ip (v : gomap) (x : string) : string :=
  match map_field "status" v with
  | Some st => match as_str (assoc "vmIP" st) with Some ip => ip | None => x end
  | None => x
  end.

Definition join_ip (s : gomap) : string :=
  let x := match assoc "joinFrom" s with Some (VMap v) => status_ip v "" | _ => "" end in
  match assoc "joinURLFrom" s with
  | Some (VStr url) => url
  | Some (VMap url) => status_ip url x
  | _ => x
  end.

Definition ssh_user (s : gomap) : string := str_or "user" (fields (map_field "ssh" s)) "ubuntu".
Definition ssh_key (s : gomap) : string := str_at "ssh" "privateKeyPath" s.

(** [parseK3sNodeSpec] *)
Definition parseK3sNodeSpec (manifest : resource) : result node_error k3sNodeSpec :=
  match r_spec manifest with
  | None => Err ErrNodeSpec
  | Some s =>
      match vm_ref_name s, as_str (assoc "role" s) with
      | None, _ => Err ErrVMRef
      | Some _, None => Err (ErrRole None)
      | Some name, Some role =>
          if decide (role ≠ "server" ∧ role ≠ "agent") then Err (ErrRole (Some role))
          else
            let joining := bool_decide (role = "agent") || nonempty (join_token s) in
            if joining && negb (nonempty (join_token s)) then Err (ErrJoinFrom role)
            else if joining && negb (nonempty (join_ip s)) then Err ErrJoinURL
            else if decide (ssh_key s = "") then Err ErrKeyPath
            else Ok (MkK3sNodeSpec name (vm_ref_ip s) role (join_token s) (join_ip s) (str_field "version" s)
                   (parseStringSlice (assoc "extraArgs" s)) (ssh_user s) (ssh_key s)
                   (default false (as_bool (assoc "clusterInit" s))))
      end
  end.

Record agentInstallSpec : Type := MkAgentSpec {
  a_vmName : string; a_vmIP : string; a_clusterName : string; a_sshUser : string; a_sshKeyPath : string }.

(** [parseAgentInstallSpec] *)
Definition parseAgentInstallSpec (manifest : resource) : result node_error agentInstallSpec :=
  match r_spec manifest with
  | None => Err ErrNodeSpec
  | Some s =>
      match vm_ref_name s with
      | None => Err ErrVMRef
      | Some name =>
          if decide (name = "") then Err ErrVMRefName
          else if decide (str_field "clusterName" s = "") then Err ErrClusterName
          else if decide (ssh_key s = "") then Err ErrKeyPath
          else Ok (MkAgentSpec name (vm_ref_ip s) (str_field "clusterName" s) (ssh_user s) (ssh_key s))
      end
  end.

(** ** The install command *)

(** [cloudInitWaitSeconds] *)
Definition cloudInitWaitSeconds : string := "180".

(** [wrapK3sInstall] *)
Definition wrapK3sInstall (inner : string) : string :=
  "bash -c 'timeout " +:+ cloudInitWaitSeconds +:+ " cloud-init status --wait >/dev/null 2>&1 || true; set -o pipefail; " +:+
  inner +:+ "'".

(** [INSTALL_K3S_VERSION=%s] *)
Definition version_env (s : k3sNodeSpec) : list string :=
  if nonempty (version s) then ["INSTALL_K3S_VERSION=" +:+ version s] else [].

Definition bootstraps (s : k3sNodeSpec) : bool := bool_decide (s_role s = "server") && negb (nonempty (joinFromToken s)).

(** The pipeline that [buildNodeInstallCommand] hands to [wrapK3sInstall]. *)
Definition install_pipeline (s : k3sNodeSpec) : string :=
  let args := match extraArgs s with [] => "" | l => " " +:+ join " " l end in
  if bootstraps s then
    "curl -sfL https://get.k3s.io | " +:+
    (match version_env s with [] => "" | env => join " " env +:+ " " end) +:+ "sh -s -" +:+
    (if clusterInit s then " --cluster-init" else "") +:+ args
  else
    let env := (version_env s ++ ["K3S_TOKEN=" +:+ joinFromToken s; "K3S_URL=https://" +:+ joinFromIP s +:+ ":6443"])%list in
    "curl -sfL https://get.k3s.io | " +:+ join " " env +:+ " sh -s -" +:+
    (if decide (s_role s = "server") then " server" +:+ args else "").

(** [buildNodeInstallCommand] *)
Definition buildNodeInstallCommand (s : k3sNodeSpec) : string := wrapK3sInstall (install_pipeline s).

(** [isConnectionDropError], on the error's text *)
Definition drop_texts : list string :=
  ["exited without exit status or exit signal"; "connection reset by peer"; "broken pipe";
   "use of closed network connection"; "EOF"; "unexpected packet in response to channel open"].

Definition isConnectionDropError (msg : string) : bool := existsb (λ needle, contains needle msg) drop_texts.

(** ** States *)

Record nodeState : Type := MkNodeState {
  n_Name : string; n_VMName : string; n_VMIP : string; n_Role : string; n_Installed : bool; n_NodeToken : string;
  n_Kubeconfig : string; n_InstalledAt : string }.

Record agentInstallState : Type := MkAgentState {
  ai_Name : string; ai_VMName : string; ai_VMIP : string; ai_ClusterName : string; ai_Arch : string; ai_Init : string;
  ai_Installed : bool; ai_InstalledAt : string }.

(** The spec of the manifest, or an empty one. *)
Definition manifest_spec (manifest : option resource) : gomap := fields (manifest ≫= r_spec).

Definition opt_str (key s : string) : gomap := if nonempty s then [(key, VStr s)] else [].

(** [nodeStateToResource] *)
Definition nodeStateToResource (name : string) (manifest : option resource) (st : nodeState) : resource :=
  Resource k3sAPIVersion kindK3sNode (ResourceMetadata name "" [] [] "" "") (Some (manifest_spec manifest))
    (Some ([("installed", VBool (n_Installed st)); ("vmName", VStr (n_VMName st)); ("vmIP", VStr (n_VMIP st))] ++
           opt_str "nodeToken" (n_NodeToken st) ++ opt_str "installedAt" (n_InstalledAt st) ++
           (if nonempty (n_Kubeconfig st) then [("hasKubeconfig", VBool true)] else []))).

(** [agentInstallStateToResource] *)
Definition agentInstallStateToResource (name : string) (manifest : option resource) (st : agentInstallState) : resource :=
  Resource k3sAPIVersion kindAgentInstall (ResourceMetadata name "" [] [] "" "") (Some (manifest_spec manifest))
    (Some ([("installed", VBool (ai_Installed st)); ("vmName", VStr (ai_VMName st)); ("vmIP", VStr (ai_VMIP st));
            ("clusterName", VStr (ai_ClusterName st))] ++
           opt_str "arch" (ai_Arch st) ++ opt_str "init" (ai_Init st) ++ opt_str "installedAt" (ai_InstalledAt st))).

(** [waitForVMIP]: the answers of the polls up to the deadline, at least one. *)
Fixpoint waitForVMIP (polls : list observation) : option string :=
  match polls with
  | [] => None
  | r :: polls' =>
      match r with
      | Ok (Some vm) =>
          let ip := str_field "ip" (fields (r_status vm)) in
          if decide (ip = "") then waitForVMIP polls' else Some ip
      | _ => waitForVMIP polls'
      end
  end.

(** ** Operations *)

Section ops.
(** The nodes: whether ssh comes up within its timeout, commands run as root, the
    agent's installer (architecture and init system of the host), minting a server
    certificate, and time passing between two attempts. *)
Context {W : Type}.
Context (ssh_up : string → string → string → W → bool).
Context (run_sudo : string → string → W → result string string * W).
Context (install_agent : string → string → W → option (string * string) * W).
Context (mint : string → string → bool).
Context (tick : W → W).

Record nstate : Type := MkNState {
  node_files : gmap string (option nodeState);
  agent_files : gmap string (option agentInstallState);
  kube_files : gmap string string;
  (** The clusters with a CA on disk, and the nodes it has a certificate for. *)
  bundles : gmap string (gset string);
  ns_world : W;
  ns_log : list (string * string);
}.

Definition with_world (w : W) (st : nstate) : nstate :=
  MkNState (node_files st) (agent_files st) (kube_files st) (bundles st) w (ns_log st).
Definition set_nodes (fs : gmap string (option nodeState)) (st : nstate) : nstate :=
  MkNState fs (agent_files st) (kube_files st) (bundles st) (ns_world st) (ns_log st).
Definition set_agents (fs : gmap string (option agentInstallState)) (st : nstate) : nstate :=
  MkNState (node_files st) fs (kube_files st) (bundles st) (ns_world st) (ns_log st).
Definition set_kube (fs : gmap string string) (st : nstate) : nstate :=
  MkNState (node_files st) (agent_files st) fs (bundles st) (ns_world st) (ns_log st).
Definition set_bundles (bs : gmap string (gset string)) (st : nstate) : nstate :=
  MkNState (node_files st) (agent_files st) (kube_files st) bs (ns_world st) (ns_log st).

(** [client.RunSudo] *)
Definition RunSudo (host cmd : string) (st : nstate) : result string string * nstate :=
  let '(r, w) := run_sudo host cmd (ns_world st) in
  (r, MkNState (node_files st) (agent_files st) (kube_files st) (bundles st) w (ns_log st ++ [(host, cmd)])).

(** Commands whose results are ignored. *)
Fixpoint run_all (host : string) (cmds : list string) (st : nstate) : nstate :=
  match cmds with
  | [] => st
  | c :: cmds' => run_all host cmds' (RunSudo host c st).2
  end.

(** [verifyK3sHealthy] *)
Definition verifyK3sHealthy (host role : string) (st : nstate) : bool * nstate :=
  if decide (role = "server") then
    match RunSudo host "systemctl is-active k3s" st with
    | (Err _, st') => (false, st')
    | (Ok _, st') =>
        let '(r, st'') := RunSudo host "test -f /var/lib/rancher/k3s/server/node-token" st' in (is_ok r, st'')
    end
  else let '(r, st') := RunSudo host "systemctl is-active k3s-agent" st in (is_ok r, st').

(** [reconnectAndVerifyK3s], with the number of attempts before the deadline. *)
Fixpoint reconnectAndVerifyK3s (attempts : nat) (s : k3sNodeSpec) (ip : string) (st : nstate) : bool * nstate :=
  match attempts with
  | 0 => (false, st)
  | S attempts' =>
      if ssh_up ip (sshUser s) (sshKeyPath s) (ns_world st) then
        match verifyK3sHealthy ip (s_role s) st with
        | (true, st') => (true, st')
        | (false, st') => reconnectAndVerifyK3s attempts' s ip (with_world (tick (ns_world st')) st')
        end
      else reconnectAndVerifyK3s attempts' s ip (with_world (tick (ns_world st)) st)
  end.

(** [loadNodeState], where an error and a missing file are alike. *)
Definition readable_node (name : string) (st : nstate) : option nodeState :=
  match node_files st !! name with Some (Some s) => Some s | _ => None end.
Definition readable_agent (name : string) (st : nstate) : option agentInstallState :=
  match agent_files st !! name with Some (Some s) => Some s | _ => None end.

(** Running the installer; a connection lost while k3s starts is checked. *)
Definition install_k3s (attempts : nat) (s : k3sNodeSpec) (ip : string) (st : nstate) : result node_error unit * nstate :=
  match RunSudo ip (buildNodeInstallCommand s) st with
  | (Ok _, st') => (Ok tt, st')
  | (Err msg, st') =>
      if isConnectionDropError msg then
        match reconnectAndVerifyK3s attempts s ip st' with
        | (true, st'') => (Ok tt, st'')
        | (false, st'') => (Err (ErrVerify ip), st'')
        end
      else (Err (ErrInstall ip msg), st')
  end.

(** [strings.ReplaceAll] of the loopback addresses *)
Definition local_to (ip kc : string) : string := replace_all "localhost" ip (replace_all "127.0.0.1" ip kc).

(** What is read back from a server: its token and, from the first one, the
    kubeconfig, which is saved. *)
Definition fetch_server (name : string) (s : k3sNodeSpec) (ip : string) (st : nstate) :
    result node_error (string * string) * nstate :=
  if decide (s_role s = "server") then
    match RunSudo ip "cat /var/lib/rancher/k3s/server/node-token" st with
    | (Err _, st') => (Err ErrToken, st')
    | (Ok token, st') =>
        if decide (joinFromToken s = "") then
          match RunSudo ip "cat /etc/rancher/k3s/k3s.yaml" st' with
          | (Err _, st'') => (Err ErrKubeconfig, st'')
          | (Ok kc, st'') =>
              (Ok (trim_space token, local_to ip kc), set_kube (<[name := local_to ip kc]> (kube_files st'')) st'')
          end
        else (Ok (trim_space token, ""), st')
    end
  else (Ok ("", ""), st).

(** [applyK3sNode] of a node that is not installed yet. *)
Definition fresh_node (polls : list observation) (attempts : nat) (now : string) (manifest : resource) (s : k3sNodeSpec)
    (st : nstate) : result node_error resource * nstate :=
  let name := r_name manifest in
  match (if decide (s_vmIP s = "") then waitForVMIP polls else Some (s_vmIP s)) with
  | None => (Err (ErrWaitIP (s_vmName s)), st)
  | Some ip =>
      if negb (ssh_up ip (sshUser s) (sshKeyPath s) (ns_world st)) then (Err (ErrSSH (sshUser s) ip), st)
      else match install_k3s attempts s ip st with
      | (Err e, st') => (Err e, st')
      | (Ok _, st') =>
          match fetch_server name s ip st' with
          | (Err e, st'') => (Err e, st'')
          | (Ok (token, kc), st'') =>
              let ns := MkNodeState name (s_vmName s) ip (s_role s) true token kc now in
              (Ok (nodeStateToResource name (Some manifest) ns), set_nodes (<[name := Some ns]> (node_files st'')) st'')
          end
      end
  end.

(** [applyK3sNode]; [polls], [attempts] and [now] are the environment's. *)
Definition applyK3sNode (polls : list observation) (attempts : nat) (now : string) (manifest : resource) (st : nstate) :
    result node_error resource * nstate :=
  let name := r_name manifest in
  if decide (name = "") then (Err ErrNodeName, st)
  else match parseK3sNodeSpec manifest with
  | Err e => (Err e, st)
  | Ok s =>
      match readable_node name st with
      | Some existing =>
          if n_Installed existing then (Ok (nodeStateToResource name (Some manifest) existing), st)
          else fresh_node polls attempts now manifest s st
      | None => fresh_node polls attempts now manifest s st
      end
  end.

(** [getK3sNode] *)
Definition getK3sNode (name : string) (st : nstate) : result node_error resource :=
  match node_files st !! name with
  | Some (Some s) => Ok (nodeStateToResource name None s)
  | Some None => Err ErrNodeState
  | None => Err (ErrNotFound name)
  end.

(** The names of a state directory, in its order. *)
Definition file_names {A} (fs : gmap string A) : list string :=
  map (trim_suffix ".yaml") (sort_strings (map (λ p, p.1 +:+ ".yaml") (map_to_list fs))).

(** [listK3sNodes] *)
Definition listK3sNodes (st : nstate) : list resource :=
  omap (λ n, nodeStateToResource n None <$> readable_node n st) (file_names (node_files st)).

(** [deleteK3sNode] *)
Definition deleteK3sNode (name : string) (st : nstate) : result node_error unit * nstate :=
  match node_files st !! name with
  | None => (Ok tt, st)
  | Some None => (Err ErrNodeState, st)
  | Some (Some s) =>
      let script := if decide (n_Role s = "agent") then "/usr/local/bin/k3s-agent-uninstall.sh"
                    else "/usr/local/bin/k3s-uninstall.sh" in
      let st' := if ssh_up (n_VMIP s) "ubuntu" "" (ns_world st) then run_all (n_VMIP s) [script] st else st in
      (Ok tt, set_nodes (delete name (node_files st')) st')
  end.

(** [applyAgentInstall] *)
Definition applyAgentInstall (polls : list observation) (now : string) (manifest : resource) (st : nstate) :
    result node_error resource * nstate :=
  let name := r_name manifest in
  if decide (name = "") then (Err ErrNodeName, st)
  else match parseAgentInstallSpec manifest with
  | Err e => (Err e, st)
  | Ok s =>
      match (if decide (a_vmIP s = "") then waitForVMIP polls else Some (a_vmIP s)) with
      | None => (Err (ErrWaitIP (a_vmName s)), st)
      | Some ip =>
          let fresh :=
            match bundles st !! a_clusterName s with
            | None => (Err (ErrBundle (a_clusterName s)), st)
            | Some certs =>
                if negb (bool_decide (a_vmName s ∈ certs)) && negb (mint (a_vmName s) ip) then (Err ErrMint, st)
                else
                  let st := set_bundles (<[a_clusterName s := {[a_vmName s]} ∪ certs]> (bundles st)) st in
                  if negb (ssh_up ip (a_sshUser s) (a_sshKeyPath s) (ns_world st)) then (Err (ErrSSH (a_sshUser s) ip), st)
                  else match install_agent ip (a_vmName s) (ns_world st) with
                  | (None, w) => (Err (ErrAgentInstall ip), with_world w st)
                  | (Some (arch, init), w) =>
                      let ai := MkAgentState name (a_vmName s) ip (a_clusterName s) arch init true now in
                      (Ok (agentInstallStateToResource name (Some manifest) ai),
                       set_agents (<[name := Some ai]> (agent_files st)) (with_world w st))
                  end
            end in
          match readable_agent name st with
          | Some existing =>
              if ai_Installed existing && bool_decide (ai_VMIP existing = ip) &&
                 bool_decide (ai_ClusterName existing = a_clusterName s)
              then (Ok (agentInstallStateToResource name (Some manifest) existing), st) else fresh
          | None => fresh
          end
      end
  end.

(** [getAgentInstall] *)
Definition getAgentInstall (name : string) (st : nstate) : result node_error resource :=
  match agent_files st !! name with
  | Some (Some s) => Ok (agentInstallStateToResource name None s)
  | Some None => Err ErrNodeState
  | None => Err (ErrNotFound name)
  end.

(** [listAgentInstalls] *)
Definition listAgentInstalls (st : nstate) : list resource :=
  omap (λ n, agentInstallStateToResource n None <$> readable_agent n st) (file_names (agent_files st)).

(** The commands of [deleteAgentInstall] *)
Definition agent_uninstall (init : string) : list string :=
  (if decide (init = "systemd") then
     ["systemctl disable --now openctl-k3s-agent.service || true"; "rm -f /etc/systemd/system/openctl-k3s-agent.service";
      "systemctl daemon-reload || true"]
   else if decide (init = "openrc") then
     ["rc-service openctl-k3s-agent stop || true"; "rc-update del openctl-k3s-agent default || true";
      "rm -f /etc/init.d/openctl-k3s-agent"]
   else []) ++ ["rm -f /usr/local/bin/openctl-k3s-agent"; "rm -rf /etc/openctl-k3s-agent"].

(** [deleteAgentInstall] *)
Definition deleteAgentInstall (name : string) (st : nstate) : result node_error unit * nstate :=
  match agent_files st !! name with
  | None => (Ok tt, st)
  | Some None => (Err ErrNodeState, st)
  | Some (Some s) =>
      let st' := if ssh_up (ai_VMIP s) "ubuntu" "" (ns_world st)
                 then run_all (ai_VMIP s) (agent_uninstall (ai_Init s)) st else st in
      (Ok tt, set_agents (delete name (agent_files st')) st')
  end.
End ops.

(** ** Laws *)

Lemma no_byte_join c sep l : no_byte c sep → Forall (no_byte c) l → no_byte c (join sep l).
Proof.
  intros Hs. unfold join. induction 1 as [|x l Hx Hl IH]; [done|]. simpl. destruct l as [|y l]; [done|].
  rewrite !no_byte_app. done.
Qed.

(** Reading a command of the form [bash -c '...']: the script and what follows its
    closing quote. *)
Definition quote : ascii := "'"%char.
Definition bash_script (cmd : string) : option (string * string) := cut_prefix "bash -c '" cmd ≫= cut_byte quote.

Definition script_head : string :=
  "timeout " +:+ cloudInitWaitSeconds +:+ " cloud-init status --wait >/dev/null 2>&1 || true; set -o pipefail; ".

Lemma wrapK3sInstall_eq inner : wrapK3sInstall inner = "bash -c '" +:+ ((script_head +:+ inner) +:+ String quote "").
Proof. unfold wrapK3sInstall, script_head. by rewrite !str_app_assoc. Qed.

Lemma bash_script_wrap inner : bash_script (wrapK3sInstall inner) = cut_byte quote ((script_head +:+ inner) +:+ String quote "").
Proof. unfold bash_script. rewrite wrapK3sInstall_eq. by rewrite (proj2 (cut_prefix_Some _ _ _) eq_refl). Qed.

(** No value that ends up in the command holds a single quote. *)
Definition unquoted (s : k3sNodeSpec) : Prop :=
  no_byte quote (version s) ∧ no_byte quote (joinFromToken s) ∧ no_byte quote (joinFromIP s) ∧
  Forall (no_byte quote) (extraArgs s).

Lemma pipeline_unquoted s : unquoted s → no_byte quote (install_pipeline s).
Proof.
  intros (Hv & Ht & Hi & Ha).
  assert (no_byte quote (match extraArgs s with [] => "" | l => " " +:+ join " " l end)) as Hargs.
  { destruct (extraArgs s) as [|a l] eqn:He; [done|]. rewrite no_byte_app. split; [by_decide|].
    apply no_byte_join; [by_decide|done]. }
  assert (Forall (no_byte quote) (version_env s)) as Henv.
  { unfold version_env. destruct (nonempty (version s)); [|constructor]. constructor; [|constructor].
    rewrite no_byte_app. split; [by_decide|done]. }
  unfold install_pipeline. destruct (bootstraps s).
  - rewrite !no_byte_app. split_and!; [by_decide| |by_decide|by destruct (clusterInit s); by_decide|done].
    destruct (version_env s) as [|e env]; [done|]. rewrite no_byte_app. split; [by apply no_byte_join; [by_decide|]|by_decide].
  - rewrite !no_byte_app. split_and!; [by_decide| |by_decide|].
    + apply no_byte_join; [by_decide|]. apply Forall_app. split; [done|].
      rewrite Forall_cons, Forall_singleton, !no_byte_app. split_and!; (done || by_decide).
    + case_decide; [|done]. rewrite no_byte_app. split; [by_decide|done].
Qed.

(** Resolving references works entry by entry. *)
Lemma mapR_assoc {E} (f : value → result E value) (m ys : gomap) k v :
  mapR (λ p, r ← f p.2; mret (p.1, r)) m = Ok ys → assoc k m = Some v → ∃ r, f v = Ok r ∧ assoc k ys = Some r.
Proof.
  intros H%mapR_Ok. induction H as [|[k' v'] [k'' r] m ys Hx _ IH]; [done|]. simpl in *.
  destruct (f v') as [r'|] eqn:Hf; [|done]. injection Hx as <- <-. case_decide; [|done]. intros [= <-]. eauto.
Qed.

Lemma Resolve_entry {G} (get : option (string → string → string → result G resource)) m m' k v :
  Resolve get (Some m) = Ok (Some m') → assoc RefMarker m = None → assoc k m = Some v →
  ∃ r, walk_refs get v = Ok r ∧ assoc k m' = Some r.
Proof.
  intros Hr Hm Hk. unfold Resolve, resolve_spec in Hr. simpl in Hr. rewrite extractRef_None in Hr by done.
  destruct (mapR _ m) as [ys|] eqn:Hys; [|done]. simpl in Hr. injection Hr as <-. by eapply mapR_assoc.
Qed.

Lemma resolve_cp_ref {G} (get : string → string → string → result G resource) cp field v :
  cp ≠ "" → walk_refs (Some get) (cp_ref cp field) = Ok v →
  ∃ r, get k3sAPIVersion kindK3sNode cp = Ok r ∧ (field ≠ "" → walkPath r field = Ok v).
Proof.
  intros Hcp. unfold walk_refs. cbn [cp_ref walk]. unfold extractRef. simpl (assoc RefMarker _). cbn beta iota.
  unfold str_field. simpl (as_str _). simpl (default _ _). cbn beta iota.
  rewrite decide_False by (by intros [?|[?|?]]). unfold resolveRef. cbn [APIVersion Kind Name Field].
  destruct (get k3sAPIVersion kindK3sNode cp) as [r|e]; [|done]. case_decide as Hf; [intros _; exists r; by split; [|intros ?]|].
  destruct (walkPath r field) as [w|e] eqn:Hw; [|done]. intros [= <-]. by exists r.
Qed.

(** What a node's resource answers to the two references. *)
Lemma node_status name m st :
  (walkPath (nodeStateToResource name m st) "status.nodeToken" =
     if nonempty (n_NodeToken st) then Ok (VStr (n_NodeToken st)) else Err (ErrMissing "nodeToken")) ∧
  walkPath (nodeStateToResource name m st) "status.vmIP" = Ok (VStr (n_VMIP st)).
Proof.
  split; unfold walkPath, nodeStateToResource, opt_str; simpl; [|done].
  destruct (nonempty (n_NodeToken st)); [done|]. destruct (nonempty (n_InstalledAt st)), (nonempty (n_Kubeconfig st)); done.
Qed.

(** ** Properties *)

(** C18: What [parseK3sNodeSpec] accepts is well formed: the role is server or
    agent, there is a user and a key to reach the node with, and either the node
    bootstraps a cluster - then it is a server without a token - or it has both
    the token and the address of the server it joins. *)
Theorem parseK3sNodeSpec_wf manifest s :
  parseK3sNodeSpec manifest = Ok s →
  (s_role s = "server" ∨ s_role s = "agent") ∧ sshUser s ≠ "" ∧ sshKeyPath s ≠ "" ∧
  (bootstraps s = true → s_role s = "server" ∧ joinFromToken s = "") ∧
  (bootstraps s = false → joinFromToken s ≠ "" ∧ joinFromIP s ≠ "").
Proof.
  unfold parseK3sNodeSpec. destruct (r_spec manifest) as [m|]; [|done]. destruct (vm_ref_name m) as [name|]; [|done].
  destruct (as_str (assoc "role" m)) as [role|]; [|done]. case_decide as Hrole; [done|]. cbv zeta.
  destruct ((bool_decide (role = "agent") || nonempty (join_token m)) && negb (nonempty (join_token m))) eqn:Hj; [done|].
  destruct ((bool_decide (role = "agent") || nonempty (join_token m)) && negb (nonempty (join_ip m))) eqn:Hi; [done|].
  destruct (decide (ssh_key m = "")) as [|Hk]; [done|]. intros [= <-]. simpl.
  assert (role = "server" ∨ role = "agent") as Hr.
  { destruct (decide (role = "server")), (decide (role = "agent")); auto. by destruct Hrole. }
  split; [done|]. split.
  { unfold ssh_user, str_or. destruct (as_str _) as [u|]; [|done]. by destruct (decide (u = "")).  }
  split; [done|]. unfold bootstraps, nonempty in *. simpl in *.
  destruct Hr as [-> | ->]; simpl in *; repeat case_bool_decide; simpl in *; naive_solver.
Qed.

(** The install command is one script for [bash -c]: no single quote ends it
    early as long as none of the version, the token, the address and the extra
    arguments holds one; a quote in the pipeline does end it early. *)
Theorem install_command_quoting s :
  (unquoted s → bash_script (buildNodeInstallCommand s) = Some (script_head +:+ install_pipeline s, "")) ∧
  (bash_script (buildNodeInstallCommand s) = Some (script_head +:+ install_pipeline s, "") ↔ no_byte quote (install_pipeline s)).
Proof.
  assert (bash_script (buildNodeInstallCommand s) = Some (script_head +:+ install_pipeline s, "") ↔
    no_byte quote (install_pipeline s)) as H.
  { unfold buildNodeInstallCommand. rewrite bash_script_wrap. split.
    - intros Hc%cut_byte_Some. destruct Hc as [Hc _]. by apply no_byte_app in Hc as [_ ?].
    - intros Hn. apply cut_byte_app. apply no_byte_app. split; [by_decide|done]. }
  split; [|done]. intros Hu. by apply H, pipeline_unquoted.
Qed.

(** C16: Joining by reference is safe end to end: when the references that
    convergence writes into a K3sNode resolve at all, the node's spec holds the
    token and the address of the recorded server; so if it parses, the node does
    not bootstrap a second cluster but joins that server. *)
Theorem join_by_ref_end_to_end {G} (get : string → string → string → result G resource) manifest s s' cp ns mf :
  cp ≠ "" → r_spec manifest = Some s → assoc RefMarker s = None →
  assoc "joinFrom" s = Some (cp_ref cp "status.nodeToken") →
  assoc "joinURLFrom" s = Some (cp_ref cp "status.vmIP") →
  get k3sAPIVersion kindK3sNode cp = Ok (nodeStateToResource cp mf ns) →
  Resolve (Some get) (Some s) = Ok (Some s') →
  n_NodeToken ns ≠ "" ∧ join_token s' = n_NodeToken ns ∧ join_ip s' = n_VMIP ns ∧
  ∀ k, parseK3sNodeSpec (with_spec manifest (Some s')) = Ok k →
    bootstraps k = false ∧ joinFromToken k = n_NodeToken ns ∧ joinFromIP k = n_VMIP ns.
Proof.
  intros Hcp Hs Hm Hj Hu Hget Hres. destruct (node_status cp mf ns) as [Htok Hip].
  destruct (Resolve_entry _ _ _ _ _ Hres Hm Hj) as (v & Hv & Hv').
  destruct (resolve_cp_ref _ _ _ _ Hcp Hv) as (r & Hr & Hw). rewrite Hget in Hr. injection Hr as <-.
  specialize (Hw ltac:(done)). rewrite Htok in Hw. destruct (nonempty (n_NodeToken ns)) eqn:Hne; [|done]. injection Hw as <-.
  destruct (Resolve_entry _ _ _ _ _ Hres Hm Hu) as (w & Hw & Hw').
  destruct (resolve_cp_ref _ _ _ _ Hcp Hw) as (r & Hr & Hwp). rewrite Hget in Hr. injection Hr as <-.
  specialize (Hwp ltac:(done)). rewrite Hip in Hwp. injection Hwp as <-.
  assert (join_token s' = n_NodeToken ns) as Ht by (unfold join_token; by rewrite Hv').
  assert (join_ip s' = n_VMIP ns) as Hi by (unfold join_ip; by rewrite Hw').
  unfold nonempty in Hne. apply bool_decide_eq_true in Hne. split_and!; [done..|].
  intros k Hk. unfold parseK3sNodeSpec in Hk. simpl in Hk. rewrite Ht, Hi in Hk.
  destruct (vm_ref_name s'); [|done]. destruct (as_str _) as [role|]; [|done]. case_decide; [done|].
  destruct (_ && negb (nonempty (n_NodeToken ns))); [done|]. destruct (_ && negb (nonempty (n_VMIP ns))); [done|].
  case_decide; [done|]. injection Hk as <-. split_and!; [|done..]. unfold bootstraps, nonempty. simpl.
  by rewrite (bool_decide_eq_true_2 _ Hne), andb_false_r.
Qed.

Section node_props.
Context {W : Type}.
Context (ssh_up : string → string → string → W → bool) (run_sudo : string → string → W → result string string * W).
Context (tick : W → W).

Lemma RunSudo_files host cmd (st : nstate (W := W)) r st' :
  RunSudo run_sudo host cmd st = (r, st') → node_files st' = node_files st.
Proof. unfold RunSudo. destruct (run_sudo host cmd (ns_world st)). by intros [= _ <-]. Qed.

Lemma verify_files host role (st : nstate (W := W)) b st' :
  verifyK3sHealthy run_sudo host role st = (b, st') → node_files st' = node_files st.
Proof.
  unfold verifyK3sHealthy. intros Hv. case_decide.
  - destruct (RunSudo run_sudo host "systemctl is-active k3s" st) as [[]] eqn:H1; apply RunSudo_files in H1; [|by simplify_eq].
    destruct (RunSudo run_sudo host _ n) eqn:H2. apply RunSudo_files in H2. simplify_eq. congruence.
  - destruct (RunSudo run_sudo host _ st) eqn:H1. apply RunSudo_files in H1. by simplify_eq.
Qed.

Lemma reconnect_files attempts s ip (st : nstate (W := W)) b st' :
  reconnectAndVerifyK3s ssh_up run_sudo tick attempts s ip st = (b, st') → node_files st' = node_files st.
Proof.
  revert st. induction attempts as [|n IH]; intros st; simpl; [by intros [= _ <-]|].
  destruct (ssh_up _ _ _ _); [|by intros H%IH].
  destruct (verifyK3sHealthy run_sudo ip (s_role s) st) as [[] st1] eqn:Hv; apply verify_files in Hv.
  - by intros [= _ <-].
  - intros H%IH. by rewrite H.
Qed.

Lemma install_files attempts s ip (st : nstate (W := W)) r st' :
  install_k3s ssh_up run_sudo tick attempts s ip st = (r, st') → node_files st' = node_files st.
Proof.
  unfold install_k3s. destruct (RunSudo run_sudo ip _ st) as [[o|msg] st1] eqn:H1; apply RunSudo_files in H1; [by intros [= _ <-]|].
  destruct (isConnectionDropError msg); [|by intros [= _ <-]].
  destruct (reconnectAndVerifyK3s _ _ _ _ _ _ _) as [[] st2] eqn:H2; apply reconnect_files in H2; intros [= _ <-]; congruence.
Qed.

Lemma fetch_files name s ip (st : nstate (W := W)) r st' :
  fetch_server run_sudo name s ip st = (r, st') → node_files st' = node_files st.
Proof.
  unfold fetch_server. case_decide; [|by intros [= _ <-]].
  destruct (RunSudo run_sudo ip _ st) as [[o|msg] st1] eqn:H1; apply RunSudo_files in H1; [|by intros [= _ <-]].
  case_decide; [|by intros [= _ <-]].
  destruct (RunSudo run_sudo ip _ st1) as [[o2|msg] st2] eqn:H2; apply RunSudo_files in H2; intros [= _ <-]; simpl; congruence.
Qed.

(** An apply either fails and changes no state, or records an installed node. *)
Definition node_outcome (manifest : resource) (st : nstate (W := W)) (r : result node_error resource) (st' : nstate (W := W)) :
    Prop :=
  (∃ e, r = Err e ∧ node_files st' = node_files st) ∨
  (∃ ns, readable_node (r_name manifest) st' = Some ns ∧ n_Installed ns = true ∧ r_name manifest ≠ "" ∧
     r = Ok (nodeStateToResource (r_name manifest) (Some manifest) ns) ∧
     ∀ other, other ≠ r_name manifest → node_files st' !! other = node_files st !! other).

Lemma fresh_node_outcome polls attempts now manifest s (st : nstate (W := W)) r st' :
  r_name manifest ≠ "" → fresh_node ssh_up run_sudo tick polls attempts now manifest s st = (r, st') →
  node_outcome manifest st r st'.
Proof.
  intros Hname. unfold fresh_node.
  destruct (if decide (s_vmIP s = "") then waitForVMIP polls else Some (s_vmIP s)) as [ip|]; [|intros [= <- <-]; left; by eexists].
  destruct (negb _); [intros [= <- <-]; left; by eexists|].
  destruct (install_k3s _ _ _ _ _ _ _) as [[u|e] st2] eqn:H2; apply install_files in H2; [|intros [= <- <-]; left; by eexists].
  destruct (fetch_server _ _ _ _ _) as [[[token kc]|e] st3] eqn:H3; apply fetch_files in H3;
    [|intros [= <- <-]; left; eexists; split; [done|congruence]].
  intros [= <- <-]. right. eexists. unfold readable_node. simpl. rewrite lookup_insert_eq. split_and!; [done..|].
  intros other Hne. rewrite lookup_insert_ne by done. congruence.
Qed.

(** Applying a K3sNode records an installed node exactly when it succeeds; a
    failure leaves the states as they were, so the next apply starts afresh. Once
    a node is recorded as installed, applying any manifest of that name that
    parses runs no command: a change of its version, machine or role is accepted,
    echoed as the resource's spec and never carried out. *)
Theorem applyK3sNode_once polls attempts now manifest (st : nstate (W := W)) :
  let '(r, st') := applyK3sNode ssh_up run_sudo tick polls attempts now manifest st in
  (∀ e, r = Err e → node_files st' = node_files st) ∧
  (∀ res, r = Ok res → ∃ ns, readable_node (r_name manifest) st' = Some ns ∧ n_Installed ns = true ∧
     res = nodeStateToResource (r_name manifest) (Some manifest) ns ∧
     (∀ other, other ≠ r_name manifest → node_files st' !! other = node_files st !! other) ∧
     ∀ polls' attempts' now' manifest', r_name manifest' = r_name manifest → is_ok (parseK3sNodeSpec manifest') = true →
       applyK3sNode ssh_up run_sudo tick polls' attempts' now' manifest' st' =
         (Ok (nodeStateToResource (r_name manifest) (Some manifest') ns), st')).
Proof.
  destruct (applyK3sNode ssh_up run_sudo tick polls attempts now manifest st) as [r st'] eqn:Happ.
  assert (node_outcome manifest st r st') as Hcase.
  { unfold applyK3sNode in Happ. destruct (decide (r_name manifest = "")) as [|Hname]; [left; simplify_eq; by eexists|].
    destruct (parseK3sNodeSpec manifest) as [s|e]; [|left; simplify_eq; by eexists].
    destruct (readable_node (r_name manifest) st) as [ex|] eqn:Hex; [|by eapply fresh_node_outcome].
    destruct (n_Installed ex) eqn:Hinst; [|by eapply fresh_node_outcome]. simplify_eq. right. by exists ex. }
  destruct Hcase as [(e & -> & Hf)|(ns & Hns & Hinst & Hname & -> & Ho)]; (split; [intros e' He'|intros res Hres]); try done.
  injection Hres as <-. exists ns. split_and!; [done..|]. intros polls' attempts' now' manifest' Hn Hp.
  unfold applyK3sNode. rewrite Hn, decide_False by done. destruct (parseK3sNodeSpec manifest'); [|done].
  by rewrite Hns, Hinst.
Qed.

(** Deleting a node never uninstalls anything: the ssh client is given no key
    file, without which it cannot connect, so the state is dropped but no command
    is ever run on the node, for a K3sNode and for an AgentInstall alike. *)
Theorem delete_runs_nothing name (st : nstate (W := W)) :
  (∀ host user w, ssh_up host user "" w = false) →
  (is_ok (deleteK3sNode ssh_up run_sudo name st).1 = true →
     node_files (deleteK3sNode ssh_up run_sudo name st).2 !! name = None) ∧
  ns_log (deleteK3sNode ssh_up run_sudo name st).2 = ns_log st ∧
  (is_ok (deleteAgentInstall ssh_up run_sudo name st).1 = true →
     agent_files (deleteAgentInstall ssh_up run_sudo name st).2 !! name = None) ∧
  ns_log (deleteAgentInstall ssh_up run_sudo name st).2 = ns_log st.
Proof.
  intros Hssh. unfold deleteK3sNode, deleteAgentInstall.
  destruct (node_files st !! name) as [[n|]|] eqn:Hn, (agent_files st !! name) as [[a|]|] eqn:Ha; simpl;
    rewrite ?Hssh; simpl; rewrite ?lookup_delete_eq; split_and!; done.
Qed.
End node_props.

(** ** Witnesses *)

Definition ex_node_spec (ver : string) (args : list string) (join : gomap) : gomap :=
  join ++ [("vmRef", VMap [("metadata", VMap [("name", VStr "k-cp-0")]); ("status", VMap [("ip", VStr "10.0.0.5")])]);
   ("role", VStr "server"); ("version", VStr ver); ("extraArgs", VList (map VStr args));
   ("ssh", VMap [("user", VStr "root"); ("privateKeyPath", VStr "/k")])].
Definition ex_node (ver : string) (args : list string) (join : gomap) : resource :=
  Resource k3sAPIVersion kindK3sNode (ResourceMetadata "k-cp-0" "" [] [] "" "") (Some (ex_node_spec ver args join)) None.

Definition ex_parsed : k3sNodeSpec :=
  MkK3sNodeSpec "k-cp-0" "10.0.0.5" "server" "" "" "v1" ["--disable traefik"] "root" "/k" false.

Lemma parseK3sNodeSpec_wf_witness :
  parseK3sNodeSpec (ex_node "v1" ["--disable traefik"] []) = Ok ex_parsed ∧ bootstraps ex_parsed = true ∧
  s_role ex_parsed = "server" ∧ sshKeyPath ex_parsed ≠ "".
Proof.
  assert (parseK3sNodeSpec (ex_node "v1" ["--disable traefik"] []) = Ok ex_parsed) as H by (vm_compute; reflexivity).
  destruct (parseK3sNodeSpec_wf _ _ H) as (_ & _ & Hk & Hb & _). split; [exact H|]. split; [reflexivity|].
  split; [exact (proj1 (Hb eq_refl))|exact Hk].
Defined.

Lemma install_command_quoting_witness :
  bash_script (buildNodeInstallCommand ex_parsed) = Some (script_head +:+ install_pipeline ex_parsed, "") ∧
  bash_script (buildNodeInstallCommand (MkK3sNodeSpec "k-cp-0" "10.0.0.5" "server" "" "" "" ["--node-label=a='b'"] "root" "/k" false)) ≠
    Some (script_head +:+ install_pipeline (MkK3sNodeSpec "k-cp-0" "10.0.0.5" "server" "" "" "" ["--node-label=a='b'"] "root" "/k" false), "").
Proof.
  split.
  - apply (proj1 (install_command_quoting ex_parsed)). by_decide.
  - vm_compute. discriminate.
Defined.

Definition ex_ns : nodeState := MkNodeState "k-cp-0" "k-cp-0" "10.0.0.5" "server" true "tok" "" "t0".
Definition ex_get (v kind name : string) : result unit resource :=
  if decide (name = "k-cp-0") then Ok (nodeStateToResource name None ex_ns) else Err tt.
Definition ex_join : gomap :=
  [("joinFrom", cp_ref "k-cp-0" "status.nodeToken"); ("joinURLFrom", cp_ref "k-cp-0" "status.vmIP")].
Definition ex_joining : resource := ex_node "v1" [] ex_join.

Lemma join_by_ref_end_to_end_witness :
  ∃ s' k, Resolve (Some ex_get) (r_spec ex_joining) = Ok (Some s') ∧
    parseK3sNodeSpec (with_spec ex_joining (Some s')) = Ok k ∧ joinFromToken k = "tok" ∧ joinFromIP k = "10.0.0.5".
Proof.
  set (s' := fields (ok_or (Resolve (Some ex_get) (r_spec ex_joining)) None)).
  assert (Resolve (Some ex_get) (r_spec ex_joining) = Ok (Some s')) as Hr by (vm_compute; reflexivity).
  assert (parseK3sNodeSpec (with_spec ex_joining (Some s')) = Ok (ok_or (parseK3sNodeSpec (with_spec ex_joining (Some s'))) ex_parsed))
    as Hp by (apply ok_or_ok; vm_compute; reflexivity).
  destruct (join_by_ref_end_to_end ex_get ex_joining (ex_node_spec "v1" [] ex_join) s' "k-cp-0" ex_ns None)
    as (_ & _ & _ & Hk); try reflexivity; try discriminate; try exact Hr.
  destruct (Hk _ Hp) as (_ & Ht & Hi). eexists s', _. split; [exact Hr|]. split; [exact Hp|]. split; [exact Ht|exact Hi].
Defined.

(** A node that runs every command; what is read from it is its host's name. *)
Definition ex_up (host user key : string) (w : unit) : bool := bool_decide (key ≠ "").
Definition ex_sudo (host cmd : string) (w : unit) : result string string * unit := (Ok host, w).
Definition ex_nstate : nstate (W := unit) := MkNState ∅ ∅ ∅ ∅ tt [].

Lemma applyK3sNode_once_witness :
  let first := applyK3sNode ex_up ex_sudo (λ w, w) [] 1 "t1" (ex_node "v1" [] []) ex_nstate in
  ∃ res, applyK3sNode ex_up ex_sudo (λ w, w) [] 1 "t2" (ex_node "v2" [] []) first.2 = (Ok res, first.2) ∧
    length (ns_log first.2) = 3 ∧ r_spec res = Some (ex_node_spec "v2" [] []).
Proof.
  intros first. pose proof (applyK3sNode_once ex_up ex_sudo (λ w, w) [] 1 "t1" (ex_node "v1" [] []) ex_nstate) as H.
  change (applyK3sNode ex_up ex_sudo (λ w, w) [] 1 "t1" (ex_node "v1" [] []) ex_nstate) with first in H.
  assert (first = (Ok (ok_or first.1 ex_joining), first.2)) as Hf by (apply run_ok; vm_compute; reflexivity).
  rewrite Hf in H. destruct H as [_ H]. destruct (H _ eq_refl) as (ns & _ & _ & _ & _ & Hagain). eexists.
  split; [apply (Hagain [] 1 "t2" (ex_node "v2" [] [])); [reflexivity|vm_compute; reflexivity]|].
  split; [vm_compute; reflexivity|reflexivity].
Defined.

Lemma delete_runs_nothing_witness :
  ns_log (deleteK3sNode ex_up ex_sudo "k-cp-0" (set_nodes {[ "k-cp-0" := Some ex_ns ]} ex_nstate)).2 = [].
Proof.
  destruct (delete_runs_nothing ex_up ex_sudo "k-cp-0" (set_nodes {[ "k-cp-0" := Some ex_ns ]} ex_nstate)) as (_ & H & _).
  - reflexivity.
  - exact H.
Defined.
