(* ===== verification/NodeAgent.v ===== *)
(** The node agent's binary upgrade: src/pkg/k3s/agent/upgrade.go.

    Downloads and sha256 are parameters. What the operating system does with each
    call on a file is chosen by the environment; the file systems that the upgrade
    passes through are kept in order, since the agent may be killed in any. *)
From S2P Require Import Prelude GoStrings GoPath.
From Stdlib Require Import Ascii.

(** ** Text *)

(** [strings.Fields] on ASCII text: the maximal runs of bytes that are not space. *)
Fixpoint fields_from (word s : string) : list string :=
  match s with
  | EmptyString => if decide (word = "") then [] else [word]
  | String c s' =>
      if is_space c then (if decide (word = "") then fields_from "" s' else word :: fields_from "" s')
      else fields_from (word +:+ String c "") s'
  end.

Definition Fields (s : string) : list string := fields_from "" s.

(** [filepath.Base] *)
Definition Base (p : string) : string :=
  if decide (p = "") then "."
  else
    let q := trim_right slash p in
    let b := List.last (split_on slash q) "" in
    if decide (b = "") then "/" else b.

(** ** Versions and assets *)

Definition k3sReleaseBase : string := "https://github.com/k3s-io/k3s/releases/download".

Definition digits1 (s : string) : bool := bool_decide (s ≠ "") && all_digits s.

(** [versionRe.MatchString]: no group of the expression can hold the byte that ends
    it, so cutting at the first one is what the expression does. *)
Definition versionRe (s : string) : bool :=
  match cut_prefix "v" s with
  | None => false
  | Some r1 =>
      match cut_byte "." r1 with
      | None => false
      | Some (major, r2) =>
          match cut_byte "." r2 with
          | None => false
          | Some (minor, r3) =>
              match cut_byte "+" r3 with
              | None => false
              | Some (patch, r4) =>
                  match cut_prefix "k3s" r4 with
                  | None => false
                  | Some build => digits1 major && digits1 minor && digits1 patch && digits1 build
                  end
              end
          end
      end
  end.

Inductive upgrade_error : Type :=
| ErrVersion (version : string)
| ErrArch (arch : string)
| ErrFetch (url : string)
| ErrNoChecksum (asset : string)
| ErrChecksum (asset got want : string)
| ErrTempFile
| ErrWriteTemp
| ErrCloseTemp
| ErrChmod
| ErrSwap
| ErrRestart.

(** [k3sAssetName] *)
Definition k3sAssetName (arch : string) : result upgrade_error string :=
  if decide (arch = "amd64") then Ok "k3s"
  else if decide (arch = "arm64") then Ok "k3s-arm64"
  else if decide (arch = "arm") then Ok "k3s-armhf"
  else Err (ErrArch arch).

(** [checksumAssetName] *)
Definition checksumAssetName (arch : string) : string :=
  if decide (arch = "arm64") then "sha256sum-arm64.txt"
  else if decide (arch = "arm") then "sha256sum-arm.txt"
  else "sha256sum-amd64.txt".

Definition newline : ascii := "010"%char.

(** One line of a checksum file. *)
Definition sum_line (asset line : string) : option string :=
  match Fields line with
  | [digest; path] => if decide (Base (trim_prefix "./" path) = asset) then Some (ToLower digest) else None
  | _ => None
  end.

Fixpoint find_sum (asset : string) (lines : list string) : option string :=
  match lines with
  | [] => None
  | l :: lines' => match sum_line asset l with Some d => Some d | None => find_sum asset lines' end
  end.

(** [parseSHA256] *)
Definition parseSHA256 (sumsFile asset : string) : result upgrade_error string :=
  match find_sum asset (split_on newline sumsFile) with
  | Some d => Ok d
  | None => Err (ErrNoChecksum asset)
  end.

(** ** The swap *)

(** A file: its bytes and whether it may be executed. *)
Abbreviation fs := (gmap string (string * bool)).

(** What the operating system answers: the name of the temporary file, if it can be
    created; after how many bytes a write fails, if it does; and the other calls. *)
Record io : Type := MkIO {
  io_temp : option string;
  io_write : option nat;
  io_close : bool;
  io_chmod : bool;
  io_rename : bool;
  io_remove : bool;
}.

(** The states that a write passes through. *)
Definition write_states (tmp data : string) (written : nat) (files : fs) : list fs :=
  map (λ n, <[tmp := (str_take n data, false)]> files) (seq 0 (S written)).

(** [installBinary], with the file systems it passes through after [files]. *)
Definition installBinary (e : io) (data destPath : string) (files : fs) : result upgrade_error unit * list fs :=
  match io_temp e with
  | None => (Err ErrTempFile, [])
  | Some tmp =>
      let removed (states : list fs) (last : fs) := if io_remove e then (states ++ [delete tmp last])%list else states in
      let full := <[tmp := (data, false)]> files in
      match io_write e with
      | Some n => (Err ErrWriteTemp, removed (write_states tmp data n files) (<[tmp := (str_take n data, false)]> files))
      | None =>
          let ws := write_states tmp data (String.length data) files in
          if negb (io_close e) then (Err ErrCloseTemp, removed ws full)
          else if negb (io_chmod e) then (Err ErrChmod, removed ws full)
          else
            let exec := <[tmp := (data, true)]> files in
            if negb (io_rename e) then (Err ErrSwap, removed (ws ++ [exec]) exec)
            else (Ok tt, (ws ++ [exec; <[destPath := (data, true)]> files])%list)
      end
  end.

(** ** The upgrade *)

Record outcome : Type := MkOutcome {
  up_result : result upgrade_error unit;
  up_urls : list string;
  up_states : list fs;
  up_restarts : nat;
}.

Section upgrade.
Context (sha256 : string → string).
Context (fetch : string → option string).

(** The release directory of a version. *)
Definition release (baseURL version : string) : string := trim_right slash baseURL +:+ "/" +:+ version +:+ "/".

(** [runUpgrade]; [e] and [restart_ok] are the environment's. *)
Definition runUpgrade (e : io) (restart_ok : bool) (version arch destPath baseURL : string) (files : fs) : outcome :=
  if negb (versionRe version) then MkOutcome (Err (ErrVersion version)) [] [] 0
  else match k3sAssetName arch with
  | Err er => MkOutcome (Err er) [] [] 0
  | Ok asset =>
      let base := release baseURL version in
      let u1 := base +:+ checksumAssetName arch in
      match fetch u1 with
      | None => MkOutcome (Err (ErrFetch u1)) [u1] [] 0
      | Some sums =>
          match parseSHA256 sums asset with
          | Err er => MkOutcome (Err er) [u1] [] 0
          | Ok expected =>
              let u2 := base +:+ asset in
              match fetch u2 with
              | None => MkOutcome (Err (ErrFetch u2)) [u1; u2] [] 0
              | Some bin =>
                  if decide (sha256 bin ≠ expected) then MkOutcome (Err (ErrChecksum asset (sha256 bin) expected)) [u1; u2] [] 0
                  else match installBinary e bin destPath files with
                  | (Err er, states) => MkOutcome (Err er) [u1; u2] states 0
                  | (Ok _, states) => MkOutcome (if restart_ok then Ok tt else Err ErrRestart) [u1; u2] states 1
                  end
              end
          end
      end
  end.

(** [makeUpgradeHandler]: the status of the answer; [body] is the decoded version. *)
Definition upgrade_status (post : bool) (body : option string) (upgrade : string → outcome) : nat * option outcome :=
  if negb post then (405, None)
  else match body with
  | None => (400, None)
  | Some version =>
      if negb (versionRe version) then (400, None)
      else let o := upgrade version in ((if is_ok (up_result o) then 204 else 500), Some o)
  end.
End upgrade.

(** ** Laws *)

Fixpoint no_space (s : string) : bool :=
  match s with
  | EmptyString => true
  | String c s' => negb (is_space c) && no_space s'
  end.

(** A word: what [strings.Fields] gives back as it is. *)
Definition word (s : string) : bool := bool_decide (s ≠ "") && no_space s.

Lemma fields_from_word acc w s : no_space w = true → fields_from acc (w +:+ s) = fields_from (acc +:+ w) s.
Proof.
  revert acc. induction w as [|c w IH]; intros acc Hw; [by rewrite str_app_nil_r|]. simpl in Hw.
  apply andb_true_iff in Hw as [Hc Hw]. apply negb_true_iff in Hc. rewrite str_app_cons. simpl. rewrite Hc, IH by done.
  by rewrite str_app_assoc.
Qed.

Lemma no_space_byte c s : is_space c = true → no_space s = true → no_byte c s.
Proof.
  intros Hc. induction s as [|d s IH]; simpl; [done|]. rewrite andb_true_iff, negb_true_iff. intros [Hd Hs].
  split; [intros ->; congruence|by apply IH].
Qed.

(** A line of [sha256sum]'s output. *)
Definition render_sum (p : string * string) : string := p.1 +:+ "  " +:+ p.2.

Lemma Fields_render_sum p : word p.1 = true → word p.2 = true → Fields (render_sum p) = [p.1; p.2].
Proof.
  destruct p as [d q]. unfold word, render_sum, Fields. simpl. rewrite !andb_true_iff, !bool_decide_eq_true.
  intros [Hd Hds] [Hq Hqs]. rewrite fields_from_word by done. rewrite str_app_cons. simpl.
  change ("" +:+ d) with d. change ("" +:+ q) with q. rewrite decide_False by done. f_equal.
  rewrite <- (str_app_nil_r q) at 1. rewrite (fields_from_word "" q) by done. simpl. change ("" +:+ q) with q.
  by rewrite decide_False.
Qed.

Lemma cut_byte_digits c s :
  is_digit c = false → all_digits s = true → ∀ r, cut_byte c (s +:+ String c "" +:+ r) = Some (s, r).
Proof. intros Hc Hs r. change (String c "" +:+ r) with (String c r). apply cut_byte_app. by eapply all_digits_no_byte. Qed.

Lemma versionRe_iff s :
  versionRe s = true ↔ ∃ major minor patch build, digits1 major = true ∧ digits1 minor = true ∧ digits1 patch = true ∧
    digits1 build = true ∧ s = "v" +:+ major +:+ "." +:+ minor +:+ "." +:+ patch +:+ "+" +:+ "k3s" +:+ build.
Proof.
  unfold versionRe. split.
  - intros H. destruct (cut_prefix "v" s) as [r1|] eqn:H1; [|done]. apply cut_prefix_Some in H1 as ->.
    destruct (cut_byte "." r1) as [[major r2]|] eqn:H2; [|done]. apply cut_byte_Some in H2 as [_ ->].
    destruct (cut_byte "." r2) as [[minor r3]|] eqn:H3; [|done]. apply cut_byte_Some in H3 as [_ ->].
    destruct (cut_byte "+" r3) as [[patch r4]|] eqn:H4; [|done]. apply cut_byte_Some in H4 as [_ ->].
    destruct (cut_prefix "k3s" r4) as [build|] eqn:H5; [|done]. apply cut_prefix_Some in H5 as ->.
    apply andb_true_iff in H as [[[Ha Hb]%andb_true_iff Hc]%andb_true_iff Hd]. by exists major, minor, patch, build.
  - intros (a & b & c & d & Ha & Hb & Hc & Hd & ->).
    assert (∀ x, digits1 x = true → all_digits x = true) as Hx by (intros x; unfold digits1; by rewrite andb_true_iff; intros []).
    rewrite (proj2 (cut_prefix_Some "v" _ _) eq_refl), (cut_byte_digits "." a eq_refl (Hx _ Ha)),
      (cut_byte_digits "." b eq_refl (Hx _ Hb)), (cut_byte_digits "+" c eq_refl (Hx _ Hc)),
      (proj2 (cut_prefix_Some "k3s" _ _) eq_refl). by rewrite Ha, Hb, Hc, Hd.
Qed.

(** A version that passes holds no byte but digits and those of the pattern. *)
Lemma versionRe_no_byte c s : is_digit c = false → no_byte c "v.+k3s" → versionRe s = true → no_byte c s.
Proof.
  intros Hc Hp Hs. apply versionRe_iff in Hs as (a & b & p & d & Ha & Hb & Hpa & Hd & ->).
  assert (∀ x, digits1 x = true → no_byte c x) as Hx.
  { intros x. unfold digits1. rewrite andb_true_iff. intros []. by eapply all_digits_no_byte. }
  simpl in Hp. rewrite !no_byte_app. simpl. naive_solver.
Qed.

Lemma find_sum_render asset entries :
  Forall (λ p, word p.1 = true ∧ word p.2 = true) entries →
  find_sum asset (map render_sum entries) =
    (λ p, ToLower p.1) <$> head (filter (λ p, Base (trim_prefix "./" p.2) = asset) entries).
Proof.
  induction 1 as [|p l [Hd Hq] _ IH]; [done|]. simpl. unfold sum_line at 1. rewrite Fields_render_sum by done.
  rewrite filter_cons. case_decide; [done|]. exact IH.
Qed.

Definition render_sums (entries : list (string * string)) : string :=
  String.concat "" (map (λ p, render_sum p +:+ String newline "") entries).

Lemma split_render_sums entries :
  Forall (λ p, word p.1 = true ∧ word p.2 = true) entries →
  split_on newline (render_sums entries) = (map render_sum entries ++ [""])%list.
Proof.
  unfold render_sums. induction 1 as [|p l [Hd Hq] _ IH]; [done|].
  assert (no_byte newline (render_sum p)) as Hn.
  { unfold word in *. apply andb_true_iff in Hd as [_ Hd], Hq as [_ Hq]. unfold render_sum. apply no_byte_app.
    split; [by apply no_space_byte|]. apply no_byte_app. split; [by_decide|by apply no_space_byte]. }
  assert (String.concat "" (map (λ p, render_sum p +:+ String newline "") (p :: l)) =
    render_sum p +:+ String newline (String.concat "" (map (λ p, render_sum p +:+ String newline "") l))) as ->.
  { simpl. destruct l; simpl; [done|]. by rewrite str_app_assoc. }
  rewrite split_on_app by done. by rewrite IH.
Qed.

(** Reading a checksum file back gives the digest that was written for the
    asset, in lower case: the first line whose file has exactly that base name, so
    that the digest of [k3s-arm64] is never taken for the one of [k3s]; with no
    such line it is an error. *)
Theorem parseSHA256_render asset entries :
  Forall (λ p, word p.1 = true ∧ word p.2 = true) entries →
  parseSHA256 (render_sums entries) asset =
    match filter (λ p, Base (trim_prefix "./" p.2) = asset) entries with
    | p :: _ => Ok (ToLower p.1)
    | [] => Err (ErrNoChecksum asset)
    end.
Proof.
  intros Hl. unfold parseSHA256. rewrite split_render_sums by done.
  assert (∀ ls, find_sum asset (ls ++ [""])%list = find_sum asset ls) as ->.
  { induction ls as [|x ls IH]; [done|]. simpl. by rewrite IH. }
  rewrite find_sum_render by done. by destruct (filter _ entries).
Qed.

(** ** The swap is atomic *)

Lemma write_states_elem tmp data n files st :
  st ∈ write_states tmp data n files → ∃ k, st = <[tmp := (str_take k data, false)]> files.
Proof. unfold write_states. intros (k & -> & _)%list_elem_of_fmap. by exists k. Qed.

Section install.
Context (e : io) (data dest : string) (files : fs).
Context (Htmp : ∀ tmp, io_temp e = Some tmp → tmp ≠ dest).

(** Another file than the binary and the temporary one. *)
Definition bystander (p : string) : Prop := p ≠ dest ∧ ∀ tmp, io_temp e = Some tmp → p ≠ tmp.

(** A state in which the binary is still the old one and nothing else has changed. *)
Definition before_swap (st : fs) : Prop := st !! dest = files !! dest ∧ ∀ p, bystander p → st !! p = files !! p.

Lemma before_swap_insert tmp f : io_temp e = Some tmp → before_swap (<[tmp := f]> files).
Proof.
  intros Ht. split; [rewrite lookup_insert_ne; [done|by apply Htmp]|].
  intros p [_ Hp]. rewrite lookup_insert_ne; [done|]. intros ->. by apply (Hp p).
Qed.

Lemma before_swap_delete tmp f : io_temp e = Some tmp → before_swap (delete tmp (<[tmp := f]> files)).
Proof.
  intros Ht. destruct (before_swap_insert tmp f Ht) as [Hd Hp]. split.
  - rewrite lookup_delete_ne; [done|by apply Htmp].
  - intros p Hb. rewrite lookup_delete_ne; [by apply Hp|]. intros ->. destruct Hb as [_ Hb]. by apply (Hb p).
Qed.

Lemma before_swap_writes tmp n st : io_temp e = Some tmp → st ∈ write_states tmp data n files → before_swap st.
Proof. intros Ht (k & ->)%write_states_elem. by apply before_swap_insert. Qed.

Lemma installBinary_states :
  match installBinary e data dest files with
  | (Err _, states) => ∀ st, st ∈ states → before_swap st
  | (Ok _, states) => ∃ pre, states = (pre ++ [<[dest := (data, true)]> files])%list ∧ ∀ st, st ∈ pre → before_swap st
  end.
Proof.
  unfold installBinary. destruct (io_temp e) as [tmp|] eqn:Ht in |- *; [|intros st Hst; by apply elem_of_nil in Hst].
  assert (∀ l f, (∀ st, st ∈ l → before_swap st) →
    ∀ st, st ∈ (if io_remove e then (l ++ [delete tmp (<[tmp := f]> files)])%list else l) → before_swap st) as Hrm.
  { intros l f Hl st. destruct (io_remove e); [|by apply Hl]. rewrite elem_of_app, list_elem_of_singleton.
    intros [?| ->]; [by apply Hl|by apply before_swap_delete]. }
  destruct (io_write e) as [n|]; [apply Hrm; intros; by eapply before_swap_writes|].
  destruct (negb (io_close e)); [apply Hrm; intros; by eapply before_swap_writes|].
  destruct (negb (io_chmod e)); [apply Hrm; intros; by eapply before_swap_writes|].
  assert (∀ st, st ∈ (write_states tmp data (String.length data) files ++ [<[tmp := (data, true)]> files])%list → before_swap st)
    as Hpre.
  { intros st. rewrite elem_of_app, list_elem_of_singleton. intros [?| ->]; [by eapply before_swap_writes|].
    by apply before_swap_insert. }
  destruct (negb (io_rename e)); [by apply Hrm|]. eexists. split; [|exact Hpre]. by rewrite <- app_assoc.
Qed.
End install.

Section run.
Context (sha256 : string → string) (fetch : string → option string).

(** The bytes that were published for a version and an architecture, with a digest
    that is theirs. *)
Definition published (version arch baseURL bin : string) : Prop :=
  ∃ asset sums, k3sAssetName arch = Ok asset ∧ fetch (release baseURL version +:+ checksumAssetName arch) = Some sums ∧
    parseSHA256 sums asset = Ok (sha256 bin) ∧ fetch (release baseURL version +:+ asset) = Some bin.

(** What may be fetched. *)
Definition release_url (version baseURL u : string) : Prop :=
  versionRe version = true ∧ no_byte slash version ∧
  ∃ file, no_byte slash file ∧ u = trim_right slash baseURL +:+ "/" +:+ version +:+ "/" +:+ file.

Lemma release_urls version arch baseURL asset :
  versionRe version = true → k3sAssetName arch = Ok asset →
  release_url version baseURL (release baseURL version +:+ checksumAssetName arch) ∧
  release_url version baseURL (release baseURL version +:+ asset).
Proof.
  intros Hv Ha. pose proof (versionRe_no_byte slash version eq_refl ltac:(by_decide) Hv) as Hslash.
  assert (∀ f, no_byte slash f → release_url version baseURL (release baseURL version +:+ f)) as Hf.
  { intros f Hf. split_and!; [done..|]. exists f. split; [done|]. unfold release. by rewrite !str_app_assoc. }
  split; apply Hf.
  - unfold checksumAssetName. repeat case_decide; by_decide.
  - unfold k3sAssetName in Ha. repeat case_decide; simplify_eq; by_decide.
Qed.

(** k3s is restarted only after the swap, and the answer is the restart's. *)
Lemma runUpgrade_swapped e restart_ok version arch dest baseURL files :
  (∀ tmp, io_temp e = Some tmp → tmp ≠ dest) →
  up_restarts (runUpgrade sha256 fetch e restart_ok version arch dest baseURL files) ≠ 0 →
  ∃ bin, published version arch baseURL bin ∧
    last (up_states (runUpgrade sha256 fetch e restart_ok version arch dest baseURL files)) =
      Some (<[dest := (bin, true)]> files) ∧
    is_ok (up_result (runUpgrade sha256 fetch e restart_ok version arch dest baseURL files)) = restart_ok.
Proof.
  intros Htmp. unfold runUpgrade. destruct (negb (versionRe version)); [done|].
  destruct (k3sAssetName arch) as [asset|] eqn:Ha; [|done]. destruct (fetch _) as [sums|] eqn:Hs; [|done].
  destruct (parseSHA256 sums asset) as [expected|] eqn:Hp; [|done]. destruct (fetch (_ +:+ asset)) as [bin|] eqn:Hb; [|done].
  destruct (decide (sha256 bin ≠ expected)) as [|Hd]; [done|]. apply dec_stable in Hd as <-.
  pose proof (installBinary_states e bin dest files Htmp) as Hst.
  destruct (installBinary e bin dest files) as [[[]|er] states]; [|done]. intros _. simpl.
  destruct Hst as (pre & -> & _). exists bin. rewrite last_snoc. split_and!; [by exists asset, sums|done|by destruct restart_ok].
Qed.

(** Every address that has been fetched is one of a release. *)
Ltac fetched := intros ? Hx; simpl in Hx; rewrite ?elem_of_cons, ?elem_of_nil in Hx; destruct_or? Hx; by subst.
(** An upgrade that ended before the swap. *)
Ltac no_swap := simpl; split_and!; [intros ? Hx; by apply elem_of_nil in Hx|done|done|by fetched].

(** C14: An upgrade is atomic and verified, whatever fails and wherever the agent is
    killed: in every state that it passes through, the k3s binary is the old one or
    the complete bytes that were published for this version and architecture and
    whose digest matches, and no third file changes. k3s is restarted only with the
    new binary in place, success means that it was, and only a tag of the expected
    form gets into the addresses that are fetched. *)
Theorem runUpgrade_verified e restart_ok version arch dest baseURL files :
  (∀ tmp, io_temp e = Some tmp → tmp ≠ dest) →
  let o := runUpgrade sha256 fetch e restart_ok version arch dest baseURL files in
  (∀ st, st ∈ up_states o →
     (st !! dest = files !! dest ∨ ∃ bin, published version arch baseURL bin ∧ st !! dest = Some (bin, true)) ∧
     ∀ p, bystander e dest p → st !! p = files !! p) ∧
  (up_restarts o ≠ 0 → up_restarts o = 1 ∧
     ∃ bin, published version arch baseURL bin ∧ last (up_states o) = Some (<[dest := (bin, true)]> files)) ∧
  (is_ok (up_result o) = true → up_restarts o = 1 ∧ restart_ok = true) ∧
  (∀ u, u ∈ up_urls o → release_url version baseURL u).
Proof.
  intros Htmp o. subst o. unfold runUpgrade.
  destruct (negb (versionRe version)) eqn:Hv; [no_swap|]. apply negb_false_iff in Hv.
  destruct (k3sAssetName arch) as [asset|er] eqn:Ha; [|no_swap].
  destruct (release_urls version arch baseURL asset Hv Ha) as [Hu1 Hu2].
  destruct (fetch _) as [sums|] eqn:Hs; [|no_swap]. destruct (parseSHA256 sums asset) as [expected|er] eqn:Hp; [|no_swap].
  destruct (fetch (_ +:+ asset)) as [bin|] eqn:Hb; [|no_swap]. destruct (decide (sha256 bin ≠ expected)) as [|Hd]; [no_swap|].
  apply dec_stable in Hd as <-.
  assert (published version arch baseURL bin) as Hpub by by exists asset, sums.
  pose proof (installBinary_states e bin dest files Htmp) as Hst.
  destruct (installBinary e bin dest files) as [[[]|er] states]; simpl.
  - destruct Hst as (pre & -> & Hpre). split_and!; [|intros _; split; [done|]|by destruct restart_ok|by fetched].
    + intros st. rewrite elem_of_app, list_elem_of_singleton. intros [[]%Hpre| ->]; [by auto|].
      split; [right; exists bin; by rewrite lookup_insert_eq|]. intros p [Hne _]. by rewrite lookup_insert_ne.
    + exists bin. by rewrite last_snoc.
  - split_and!; [|done..|by fetched]. intros st []%Hst. by auto.
Qed.
End run.

(** The answer is 204 exactly when the upgrade ran and succeeded. *)
Lemma upgrade_status_204 post body upgrade o :
  upgrade_status post body upgrade = (204, o) ↔
  ∃ version, post = true ∧ body = Some version ∧ versionRe version = true ∧ o = Some (upgrade version) ∧
    is_ok (up_result (upgrade version)) = true.
Proof.
  unfold upgrade_status. split.
  - destruct post, body as [version|]; try done. simpl. destruct (versionRe version) eqn:Hv; [|done]. simpl.
    destruct (is_ok _) eqn:Hok; intros [=]. by exists version.
  - intros (version & -> & -> & Hv & -> & Hok). simpl. by rewrite Hv, Hok.
Qed.

(** ** Witnesses *)

Definition ex_sums : list (string * string) :=
  [("AA11", "./k3s-arm64"); ("BB22", "dist/k3s"); ("CC33", "k3s-airgap-images-amd64.tar")].

Lemma parseSHA256_render_witness :
  parseSHA256 (render_sums ex_sums) "k3s" = Ok "bb22" ∧ parseSHA256 (render_sums ex_sums) "k3s-armhf" = Err (ErrNoChecksum "k3s-armhf").
Proof.
  split.
  - rewrite parseSHA256_render; [vm_compute; reflexivity|repeat constructor].
  - rewrite parseSHA256_render; [vm_compute; reflexivity|repeat constructor].
Defined.

(** A release whose binary is [new], and a digest that is the text itself. *)
Definition ex_fetch (u : string) : option string :=
  if decide (u = k3sReleaseBase +:+ "/v1.30.5+k3s1/sha256sum-amd64.txt") then Some (render_sums [("NEW", "k3s")])
  else if decide (u = k3sReleaseBase +:+ "/v1.30.5+k3s1/k3s") then Some "new" else None.
Definition ex_io (rename : bool) : io := MkIO (Some "/usr/local/bin/.k3s-upgrade-1") None true true rename true.
Definition ex_files : fs := {[ "/usr/local/bin/k3s" := ("old", true) ]}.
Definition ex_run (rename : bool) (version : string) : outcome :=
  runUpgrade (λ b, b) ex_fetch (ex_io rename) true version "amd64" "/usr/local/bin/k3s" k3sReleaseBase ex_files.

Lemma runUpgrade_verified_witness :
  is_ok (up_result (ex_run true "v1.30.5+k3s1")) = true ∧ up_restarts (ex_run true "v1.30.5+k3s1") = 1 ∧
  up_restarts (ex_run false "v1.30.5+k3s1") = 0 ∧ length (up_states (ex_run false "v1.30.5+k3s1")) = 6 ∧
  (∀ st, st ∈ up_states (ex_run false "v1.30.5+k3s1") → st !! "other" = None) ∧
  up_urls (ex_run true "v1/../../x") = [].
Proof.
  assert (∀ rename tmp, io_temp (ex_io rename) = Some tmp → tmp ≠ "/usr/local/bin/k3s") as Htmp.
  { intros rename tmp [= <-]. by_decide. }
  split; [vm_compute; reflexivity|].
  split.
  { destruct (runUpgrade_verified (λ b, b) ex_fetch (ex_io true) true "v1.30.5+k3s1" "amd64" "/usr/local/bin/k3s"
      k3sReleaseBase ex_files (Htmp true)) as (_ & _ & H & _). apply H. vm_compute. reflexivity. }
  split; [vm_compute; reflexivity|]. split; [vm_compute; reflexivity|]. split; [|vm_compute; reflexivity].
  intros st Hst.
  destruct (runUpgrade_verified (λ b, b) ex_fetch (ex_io false) true "v1.30.5+k3s1" "amd64" "/usr/local/bin/k3s"
      k3sReleaseBase ex_files (Htmp false)) as (H & _). destruct (H st Hst) as [_ Hp]. rewrite Hp; [reflexivity|].
  split; [by_decide|]. intros tmp [= <-]. by_decide.
Defined.
