(* ===== verification/Upgrade.v ===== *)
(** The actions of a cluster, and its rolling upgrade:
    src/internal/controller/providers/k3s/cluster_upgrade.go, cluster_upgrade_wire.go,
    cluster_upgrade_agent.go, cluster_node_ops.go, the actions of provider.go, and
    what an agent reports of its node (src/pkg/k3s/agent/info.go).

    Every call of a node is kept in a log, in order. The rolling upgrade is proved
    against the interface [nodeUpgrader]; the agent's upgrader implements it, and
    the agents are those of NodeAgent. *)
From S2P Require Import Prelude GoStrings GoValue Registry ClusterPlan ClusterDiff ClusterConverge NodeOps NodeAgent.
From Stdlib Require Import Ascii.

(** ** The orchestration *)

Definition roleServer : string := "server".
Definition roleAgent : string := "agent".

Record upgradeNode : Type := MkUpgradeNode { un_Name : string; un_Role : string; un_Version : string }.

(** [nodeUpgrader] *)
Class nodeUpgrader (W : Type) : Type := {
  Upgrade : upgradeNode → string → W → result string unit * W;
  Health : upgradeNode → W → result string string * W;
}.

(** [upgradeOrder] *)
Definition upgradeOrder (nodes : list upgradeNode) : list upgradeNode :=
  filter (λ n, un_Role n = roleServer) nodes ++ filter (λ n, un_Role n ≠ roleServer) nodes.

Record UpgradeResult : Type := MkUpgradeResult { ur_Target : string; Upgraded : list string; Skipped : list string }.

(** Why an upgrade stopped. *)
Inductive halt : Type :=
| HaltTarget
| HaltContext (e : string)
| HaltUpgrade (node : upgradeNode) (e : string)
| HaltUnhealthy (node : upgradeNode) (e : string)
| HaltVersion (node : upgradeNode) (got want : string).

Inductive ucall : Type :=
| CallUpgrade (node : upgradeNode) (version : string)
| CallHealth (node : upgradeNode).

Section rolling.
Context {W : Type} `{!nodeUpgrader W}.
(** [ctx.Err()] *)
Context (ctx_err : W → option string).

Definition call_upgrade (node : upgradeNode) (version : string) (st : W * list ucall) : result string unit * (W * list ucall) :=
  let '(r, w) := Upgrade node version st.1 in (r, (w, st.2 ++ [CallUpgrade node version]))%list.

Definition call_health (node : upgradeNode) (st : W * list ucall) : result string string * (W * list ucall) :=
  let '(r, w) := Health node st.1 in (r, (w, st.2 ++ [CallHealth node]))%list.

(** The loop of [rollingUpgrade] *)
Fixpoint rolling_loop (target : string) (nodes : list upgradeNode) (res : UpgradeResult) (st : W * list ucall) :
    UpgradeResult * option halt * (W * list ucall) :=
  match nodes with
  | [] => (res, None, st)
  | node :: nodes' =>
      match ctx_err st.1 with
      | Some e => (res, Some (HaltContext e), st)
      | None =>
          if decide (un_Version node = target) then
            rolling_loop target nodes' (MkUpgradeResult (ur_Target res) (Upgraded res) (Skipped res ++ [un_Name node])) st
          else
            match call_upgrade node target st with
            | (Err e, st') => (res, Some (HaltUpgrade node e), st')
            | (Ok _, st') =>
                match call_health node st' with
                | (Err e, st'') => (res, Some (HaltUnhealthy node e), st'')
                | (Ok got, st'') =>
                    if decide (got ≠ target) then (res, Some (HaltVersion node got target), st'')
                    else rolling_loop target nodes'
                           (MkUpgradeResult (ur_Target res) (Upgraded res ++ [un_Name node]) (Skipped res)) st''
                end
            end
      end
  end.

(** [rollingUpgrade] *)
Definition rollingUpgrade (nodes : list upgradeNode) (targetVersion : string) (st : W * list ucall) :
    UpgradeResult * option halt * (W * list ucall) :=
  let res := MkUpgradeResult targetVersion [] [] in
  if decide (targetVersion = "") then (res, Some HaltTarget, st)
  else rolling_loop targetVersion (upgradeOrder nodes) res st.

(** [withCurrentVersions] *)
Fixpoint withCurrentVersions (nodes : list upgradeNode) (st : W * list ucall) : list upgradeNode * (W * list ucall) :=
  match nodes with
  | [] => ([], st)
  | n :: nodes' =>
      let '(r, st') := call_health n st in
      let n' := match r with Ok v => MkUpgradeNode (un_Name n) (un_Role n) v | Err _ => n end in
      let '(ns, st'') := withCurrentVersions nodes' st' in (n' :: ns, st'')
  end.
End rolling.

(** ** The nodes of a cluster *)

Inductive action_error : Type :=
| ErrVersionParam
| ErrReadState (cluster : string)
| ErrNoNodes (cluster : string)
| ErrLoadBundle (cluster : string)
| ErrHalted (progress : string) (h : halt)
| ErrNodeUnknown (name : string) (names : string)
| ErrNodeParam (count : nat) (names : string)
| ErrLogs (node e : string)
| ErrRestartNode (node e : string)
| ErrNoActionsFor (kind : string)
| ErrUnknownAction (action : string)
| ErrNoKubeconfig (name : string).

(** The port of the agent (bootstrap.go). *)
Definition Port : string := "9443".

(** [net.JoinHostPort] *)
Definition JoinHostPort (host port : string) : string :=
  match index_byte ":" host with
  | Some _ => "[" +:+ host +:+ "]:" +:+ port
  | None => host +:+ ":" +:+ port
  end.

Definition name_le (a b : upgradeNode) : Prop := String.le (un_Name a) (un_Name b).
#[export] Instance name_le_dec : RelDecision name_le.
Proof. intros a b. unfold name_le. apply _. Defined.

(** The installed machines among the children, with their states. *)
Definition installed_nodes {W} (children : list childRef) (st : nstate (W := W)) : list (string * nodeState) :=
  omap (λ c,
    if decide (cr_Kind c = kindVM) then
      match readable_node (cr_Name c) st with
      | Some s => if n_Installed s then Some (cr_Name c, s) else None
      | None => None
      end
    else None) children.

(** The map of endpoints; a later child of one name overwrites an earlier one. *)
Definition node_endpoints (installed : list (string * nodeState)) : gmap string string :=
  foldl (λ m p, if decide (n_VMIP p.2 = "") then m else <[p.1 := JoinHostPort (n_VMIP p.2) Port]> m) ∅ installed.

(** [enumerateUpgradeNodes] *)
Definition enumerateUpgradeNodes {W} `{Yaml} (clusterName : string) (files : state_files) (st : nstate (W := W)) :
    result action_error (list upgradeNode * gmap string string) :=
  match readChildren clusterName files with
  | Err _ => Err (ErrReadState clusterName)
  | Ok children =>
      let installed := installed_nodes children st in
      Ok (merge_sort name_le (map (λ p, MkUpgradeNode p.1 (n_Role p.2) "") installed), node_endpoints installed)
  end.

(** ** The agents *)

(** What an agent reports of its node. *)
Record Info : Type := MkInfo { K3sVersion : string; K3sStatus : string }.

(** [k3sVersion]: the third word of what the binary prints. *)
Definition k3sVersion (output : option string) : string :=
  match output with
  | None => ""
  | Some out =>
      let line := match cut_byte newline out with Some (l, _) => l | None => out end in
      default "" (Fields line !! 2)
  end.

Section agents.
Context {W : Type}.
(** The clients of the agents, by endpoint: making one, and the calls it makes. *)
Context (new_client : string → bool).
Context (UpgradeK3s : string → string → W → result string unit * W).
Context (agent_Info : string → W → result string Info * W).
Context (agent_Logs : string → nat → W → result string string * W).
Context (RestartK3s : string → W → result string unit * W).
(** The pause between two polls, and how many there are within the timeout. *)
Context (poll : W → W) (polls : nat).
Context (endpoints : gmap string string).

(** [clientFor] *)
Definition clientFor (node : upgradeNode) : result string string :=
  match endpoints !! un_Name node with
  | None => Err ("no agent endpoint known for node " +:+ un_Name node)
  | Some ep =>
      if decide (ep = "") then Err ("no agent endpoint known for node " +:+ un_Name node)
      else if new_client ep then Ok ep else Err "client"
  end.

(** The polls of [Health]; there is at least one. *)
Fixpoint poll_health (more : nat) (ep : string) (w : W) : result string string * W :=
  match agent_Info ep w with
  | (Ok info, w') => (Ok (K3sVersion info), w')
  | (Err e, w') =>
      match more with
      | 0 => (Err ("did not recover: " +:+ e), w')
      | S more' => poll_health more' ep (poll w')
      end
  end.

(** [agentNodeUpgrader] *)
Definition agentNodeUpgrader : nodeUpgrader W := {|
  Upgrade node version w :=
    match clientFor node with Ok ep => UpgradeK3s ep version w | Err e => (Err e, w) end;
  Health node w :=
    match clientFor node with Ok ep => poll_health polls ep w | Err e => (Err e, w) end;
|}.

(** Its [Logs] and [Restart] *)
Definition node_logs (node : upgradeNode) (lines : nat) (w : W) : result string string * W :=
  match clientFor node with Ok ep => agent_Logs ep lines w | Err e => (Err e, w) end.
Definition node_restart (node : upgradeNode) (w : W) : result string unit * W :=
  match clientFor node with Ok ep => RestartK3s ep w | Err e => (Err e, w) end.
End agents.

(** ** The actions *)

(** [params[key]] *)
Definition param (key : string) (params : list (string * string)) : string := default "" (assoc key params).

Definition nodeNames (nodes : list upgradeNode) : string := join ", " (map un_Name nodes).

(** [selectNode] *)
Definition selectNode (nodes : list upgradeNode) (name : string) : result action_error upgradeNode :=
  let name := trim_space name in
  if decide (name ≠ "") then
    match filter (λ n, un_Name n = name) nodes with
    | n :: _ => Ok n
    | [] => Err (ErrNodeUnknown name (nodeNames nodes))
    end
  else match nodes with
  | [n] => Ok n
  | _ => Err (ErrNodeParam (length nodes) (nodeNames nodes))
  end.

Definition defaultLogLines : nat := 200.

(** The [lines] parameter *)
Definition log_lines (params : list (string * string)) : nat :=
  match atoi (trim_space (param "lines" params)) with
  | Some n => if (0 <? n)%Z then Z.to_nat n else defaultLogLines
  | None => defaultLogLines
  end.

(** [Actions] *)
Definition Actions (kind : string) : list string :=
  if decide (kind = kindCluster) then ["get-kubeconfig"; "upgrade"; "logs"; "restart"] else [].

(** [ActionSpecs] *)
Definition ActionSpecs (kind : string) : list ActionSpec :=
  if decide (kind = kindCluster) then
    [MkActionSpec "get-kubeconfig" "Download the cluster's kubeconfig." [];
     MkActionSpec "upgrade" "Rolling k3s version upgrade — control planes first (for etcd quorum), then workers, health-gated. Idempotent: nodes already at the target are skipped."
       [MkActionParameter "version" "string" true "Target k3s version, e.g. v1.30.5+k3s1." ""];
     MkActionSpec "logs" "Download a node's k3s journal via its agent (mTLS). Leave node blank for a single-node cluster."
       [MkActionParameter "node" "string" false "Node to read logs from (defaults to the only node)." "";
        MkActionParameter "lines" "int" false "Number of journal lines to fetch (default 200)." ""];
     MkActionSpec "restart" "Restart the k3s service on a node via its agent (mTLS)."
       [MkActionParameter "node" "string" true "Node to restart k3s on." ""]]
  else [].

Section actions.
Context {W : Type} {NW : Type} `{Yaml}.
(** The cluster's state files, the nodes' states, the clusters with a certificate
    bundle on disk and the kubeconfigs. *)
Context (files : state_files) (nodes_state : nstate (W := NW)) (bundle_ok : string → bool) (kubeconfig : string → option string).
(** An upgrader and the other calls of the agents, from the nodes' endpoints. *)
Context (factory : gmap string string → nodeUpgrader W).
Context (logs_of : gmap string string → upgradeNode → nat → W → result string string * W).
Context (restart_of : gmap string string → upgradeNode → W → result string unit * W).
Context (ctx_err : W → option string).

(** The nodes and endpoints that the actions on nodes start with
    ([loadClusterNodeAgent] and the beginning of [runClusterUpgrade]). *)
Definition loadClusterNodeAgent (clusterName : string) : result action_error (list upgradeNode * gmap string string) :=
  match enumerateUpgradeNodes clusterName files nodes_state with
  | Err e => Err e
  | Ok (nodes, endpoints) =>
      if decide (nodes = []) then Err (ErrNoNodes clusterName)
      else if bundle_ok clusterName then Ok (nodes, endpoints) else Err (ErrLoadBundle clusterName)
  end.

Definition progress (res : UpgradeResult) (version : string) : string :=
  "upgraded " +:+ pretty (length (Upgraded res)) +:+ " node(s) to " +:+ version +:+
  (match Skipped res with [] => "" | l => " (" +:+ pretty (length l) +:+ " already at target)" end).

Definition message (msg : string) : ActionResult := MkActionResult msg "" "" "".

(** [runClusterUpgrade] *)
Definition runClusterUpgrade (clusterName version : string) (st : W * list ucall) :
    result action_error ActionResult * (W * list ucall) :=
  if decide (trim_space version = "") then (Err ErrVersionParam, st)
  else match loadClusterNodeAgent clusterName with
  | Err e => (Err e, st)
  | Ok (nodes, endpoints) =>
      let _ := factory endpoints in
      let '(current, st') := withCurrentVersions nodes st in
      match rollingUpgrade ctx_err current version st' with
      | (res, None, st'') => (Ok (message (progress res version)), st'')
      | (res, Some h, st'') => (Err (ErrHalted (progress res version) h), st'')
      end
  end.

(** [runClusterLogs] *)
Definition runClusterLogs (clusterName : string) (params : list (string * string)) (st : W * list ucall) :
    result action_error ActionResult * (W * list ucall) :=
  match loadClusterNodeAgent clusterName with
  | Err e => (Err e, st)
  | Ok (nodes, endpoints) =>
      match selectNode nodes (param "node" params) with
      | Err e => (Err e, st)
      | Ok node =>
          let lines := log_lines params in
          match logs_of endpoints node lines st.1 with
          | (Err e, w) => (Err (ErrLogs (un_Name node) e), (w, st.2))
          | (Ok out, w) =>
              (Ok (MkActionResult ("Fetched " +:+ pretty lines +:+ " lines from " +:+ un_Name node) "" out
                 (clusterName +:+ "-" +:+ un_Name node +:+ "-k3s.log")), (w, st.2))
          end
      end
  end.

(** [runClusterRestart] *)
Definition runClusterRestart (clusterName : string) (params : list (string * string)) (st : W * list ucall) :
    result action_error ActionResult * (W * list ucall) :=
  match loadClusterNodeAgent clusterName with
  | Err e => (Err e, st)
  | Ok (nodes, endpoints) =>
      match selectNode nodes (param "node" params) with
      | Err e => (Err e, st)
      | Ok node =>
          match restart_of endpoints node st.1 with
          | (Err e, w) => (Err (ErrRestartNode (un_Name node) e), (w, st.2))
          | (Ok _, w) => (Ok (message ("Restarted k3s on " +:+ un_Name node)), (w, st.2))
          end
      end
  end.

(** [DoAction]; the directory's path is left out of the messages. *)
Definition DoAction (kind name action : string) (st : W * list ucall) : result action_error ActionResult * (W * list ucall) :=
  if decide (kind ≠ kindCluster) then (Err (ErrNoActionsFor kind), st)
  else if decide (action ≠ "get-kubeconfig") then (Err (ErrUnknownAction action), st)
  else match kubeconfig name with
  | None => (Err (ErrNoKubeconfig name), st)
  | Some content => (Ok (MkActionResult "Kubeconfig read" "" content (name +:+ "-kubeconfig.yaml")), st)
  end.

(** [DoActionWithParams] *)
Definition DoActionWithParams (kind name action : string) (params : list (string * string)) (st : W * list ucall) :
    result action_error ActionResult * (W * list ucall) :=
  if decide (kind = kindCluster) then
    if decide (action = "upgrade") then runClusterUpgrade name (param "version" params) st
    else if decide (action = "logs") then runClusterLogs name params st
    else if decide (action = "restart") then runClusterRestart name params st
    else DoAction kind name action st
  else DoAction kind name action st.
End actions.

(** ** Agents that upgrade their nodes *)

(** A node: its files, architecture and k3s binary, and whether k3s runs. *)
Record node : Type := MkNode { nd_files : fs; nd_arch : string; nd_dest : string; nd_active : bool }.

Section nodes.
Context (sha256 : string → string) (fetch : string → option string).
(** What running a binary with [--version] prints. *)
Context (version_output : string → option string).
(** What the operating system does during an upgrade of the node at an endpoint, and
    whether k3s comes up when it is restarted. *)
Context (env : string → io * bool).

(** [UpgradeK3s] of the client, answered by [makeUpgradeHandler] of the agent. *)
Definition node_upgrade (ep version : string) (w : gmap string node) : result string unit * gmap string node :=
  match w !! ep with
  | None => (Err "unreachable", w)
  | Some nd =>
      match upgrade_status true (Some version) (λ v,
          runUpgrade sha256 fetch (env ep).1 (env ep).2 v (nd_arch nd) (nd_dest nd) k3sReleaseBase (nd_files nd)) with
      | (code, None) => (Err ("status " +:+ pretty code), w)
      | (code, Some o) =>
          let files := default (nd_files nd) (last (up_states o)) in
          let active := if decide (up_restarts o = 0) then nd_active nd else (env ep).2 in
          (if decide (code = 204) then Ok tt else Err ("status " +:+ pretty code),
           <[ep := MkNode files (nd_arch nd) (nd_dest nd) active]> w)
      end
  end.

(** [gatherInfo]: the version of the binary on disk, and whether k3s runs. *)
Definition gatherInfo (nd : node) : Info :=
  MkInfo (k3sVersion (f ← nd_files nd !! nd_dest nd; version_output f.1)) (if nd_active nd then "active" else "inactive").

Definition node_info (ep : string) (w : gmap string node) : result string Info * gmap string node :=
  match w !! ep with
  | None => (Err "unreachable", w)
  | Some nd => (Ok (gatherInfo nd), w)
  end.
End nodes.

(** ** Laws *)

Lemma upgradeOrder_perm nodes : upgradeOrder nodes ≡ₚ nodes.
Proof.
  unfold upgradeOrder. induction nodes as [|n l IH]; [done|]. rewrite !filter_cons.
  destruct (decide (un_Role n = roleServer)) as [Hs|Hs].
  - rewrite decide_False by (intros Hn; by apply Hn). simpl. by rewrite IH.
  - rewrite decide_True by done. by rewrite <- Permutation_middle, IH.
Qed.

(** Where a prefix of the order holds or is followed by a worker, it holds every
    control plane. *)
Lemma upgradeOrder_servers nodes done rest n :
  upgradeOrder nodes = done ++ rest → (n ∈ done ∨ head rest = Some n) → un_Role n ≠ roleServer →
  ∀ s, s ∈ nodes → un_Role s = roleServer → s ∈ done.
Proof.
  unfold upgradeOrder. intros Heq Hn Hw s Hs Hrole.
  assert (s ∈ filter (λ n, un_Role n = roleServer) nodes) as Hin by by apply list_elem_of_filter.
  assert (∀ x, x ∈ filter (λ n, un_Role n = roleServer) nodes → un_Role x = roleServer) as Hall
    by (intros x Hx; by apply list_elem_of_filter in Hx as [? _]).
  apply app_eq_inv in Heq as [(k & Hk & ->)|(k & -> & _)]; [|rewrite elem_of_app; by left].
  rewrite Hk in Hin, Hall. destruct k as [|x k]; [by rewrite app_nil_r in Hin|]. exfalso.
  destruct Hn as [Hn|Hn]; [apply Hw, Hall, elem_of_app; by left|]. simplify_eq/=.
  apply Hw, Hall, elem_of_app. right. left.
Qed.

Section rolling_laws.
Context {W : Type} `{!nodeUpgrader W} (ctx_err : W → option string) (target : string).

(** The calls for a node that the upgrade got past. *)
Definition node_calls (n : upgradeNode) : list ucall :=
  if decide (un_Version n = target) then [] else [CallUpgrade n target; CallHealth n].

(** The calls for the node at which it stopped. *)
Definition halted_calls (err : option halt) : list ucall :=
  match err with
  | Some (HaltUpgrade n _) => [CallUpgrade n target]
  | Some (HaltUnhealthy n _) | Some (HaltVersion n _ _) => [CallUpgrade n target; CallHealth n]
  | _ => []
  end.

(** An upgrade that stops with [err] leaves the nodes [rest]. *)
Definition halt_at (err : option halt) (rest : list upgradeNode) : Prop :=
  match err with
  | None => rest = []
  | Some HaltTarget => False
  | Some (HaltContext _) => rest ≠ []
  | Some (HaltUpgrade n _) | Some (HaltUnhealthy n _) => head rest = Some n ∧ un_Version n ≠ target
  | Some (HaltVersion n got want) => head rest = Some n ∧ un_Version n ≠ target ∧ got ≠ target ∧ want = target
  end.

(** The upgrade got past [n]: it was at the target, or its health answered so. *)
Definition confirmed (n : upgradeNode) : Prop := un_Version n = target ∨ ∃ w, (Health n w).1 = Ok target.

Definition passed (done : list upgradeNode) : list string := map un_Name (filter (λ n, un_Version n ≠ target) done).
Definition skipped (done : list upgradeNode) : list string := map un_Name (filter (λ n, un_Version n = target) done).

Lemma rolling_loop_spec nodes res (st : W * list ucall) :
  let '(res', err, st') := rolling_loop ctx_err target nodes res st in
  ∃ done rest, nodes = done ++ rest ∧ halt_at err rest ∧ Forall confirmed done ∧
    Upgraded res' = Upgraded res ++ passed done ∧ Skipped res' = Skipped res ++ skipped done ∧
    st'.2 = (st.2 ++ concat (map node_calls done) ++ halted_calls err)%list.
Proof.
  revert res st. induction nodes as [|n nodes IH]; intros res st; simpl.
  { exists [], []. unfold passed, skipped. simpl. rewrite !app_nil_r. by split_and!. }
  assert (∀ err (st' : W * list ucall), halt_at err (n :: nodes) → st'.2 = (st.2 ++ halted_calls err)%list →
    ∃ done rest, n :: nodes = done ++ rest ∧ halt_at err rest ∧ Forall confirmed done ∧
      Upgraded res = Upgraded res ++ passed done ∧ Skipped res = Skipped res ++ skipped done ∧
      st'.2 = (st.2 ++ concat (map node_calls done) ++ halted_calls err)%list) as Hstop.
  { intros err st' Hh Hc. exists [], (n :: nodes). unfold passed, skipped. simpl. by rewrite !app_nil_r. }
  destruct (ctx_err st.1) as [e|]; [apply (Hstop (Some (HaltContext e))); [done|simpl; by rewrite app_nil_r]|].
  destruct (decide (un_Version n = target)) as [Hv|Hv].
  - specialize (IH (MkUpgradeResult (ur_Target res) (Upgraded res) (Skipped res ++ [un_Name n])) st).
    destruct (rolling_loop _ _ _ _ _) as [[res' err] st']. destruct IH as (done & rest & -> & Hh & Hf & Hu & Hs & Hc).
    exists (n :: done), rest. unfold passed, skipped, node_calls in *. simpl in *. rewrite !filter_cons.
    rewrite decide_False, !decide_True by auto. simpl. rewrite Hs, <- app_assoc. split_and!; [done..| |done|done|done].
    constructor; [by left|done].
  - unfold call_upgrade, call_health. destruct (Upgrade n target st.1) as [[u|e] w1]; simpl;
      [|by apply (Hstop (Some (HaltUpgrade n e)) (w1, _))].
    destruct (Health n w1) as [[got|e] w2] eqn:Hhealth; simpl; [|apply (Hstop (Some (HaltUnhealthy n e)) (w2, (st.2 ++ [CallUpgrade n target]) ++ [CallHealth n])%list); [done|by simpl; rewrite <- app_assoc]].
    destruct (decide (got ≠ target)) as [Hg|Hg];
      [apply (Hstop (Some (HaltVersion n got target)) (w2, (st.2 ++ [CallUpgrade n target]) ++ [CallHealth n])%list); [done|by simpl; rewrite <- app_assoc]|].
    apply dec_stable in Hg as ->. simpl.
    specialize (IH (MkUpgradeResult (ur_Target res) (Upgraded res ++ [un_Name n]) (Skipped res))
      (w2, (st.2 ++ [CallUpgrade n target]) ++ [CallHealth n])%list).
    destruct (rolling_loop _ _ _ _ _) as [[res' err] st']. destruct IH as (done & rest & -> & Hh & Hf & Hu & Hs & Hc).
    exists (n :: done), rest. unfold passed, skipped, node_calls in *. simpl in *. rewrite !filter_cons.
    rewrite decide_True, !decide_False by auto. simpl. rewrite Hu, Hc, <- !app_assoc. split_and!; [done..| |done|done|done].
    constructor; [|done]. right. exists w1. by rewrite Hhealth.
Qed.

(** C15: A rolling upgrade is serial and halts: in the order of [upgradeOrder] it
    swaps a node that is not at the target and asks for its health before it goes
    on; it gets past a node only at the target or when its health answered the
    target; it stops at the first node that does not, so that at most one node is
    in doubt. No worker is touched before every control plane has been confirmed,
    and success means that every node has been. *)
Theorem rollingUpgrade_serial nodes (st : W * list ucall) :
  target ≠ "" →
  let '(res, err, st') := rollingUpgrade ctx_err nodes target st in
  ∃ done rest, upgradeOrder nodes = done ++ rest ∧ halt_at err rest ∧ Forall confirmed done ∧
    Upgraded res = passed done ∧ Skipped res = skipped done ∧
    st'.2 = (st.2 ++ concat (map node_calls done) ++ halted_calls err)%list ∧
    (∀ n, CallUpgrade n target ∈ (concat (map node_calls done) ++ halted_calls err)%list → un_Role n ≠ roleServer →
       ∀ s, s ∈ nodes → un_Role s = roleServer → s ∈ done) ∧
    (err = None → Forall confirmed nodes).
Proof.
  intros Ht. unfold rollingUpgrade. rewrite decide_False by done.
  pose proof (rolling_loop_spec (upgradeOrder nodes) (MkUpgradeResult target [] []) st) as H.
  destruct (rolling_loop _ _ _ _ _) as [[res err] st']. destruct H as (done & rest & Heq & Hh & Hf & Hu & Hs & Hc).
  exists done, rest. split_and!; [done..| |].
  - intros n Hn Hw. eapply upgradeOrder_servers; [done| |done]. rewrite elem_of_app in Hn. destruct Hn as [Hn|Hn].
    + left. apply elem_of_concat in Hn as (l & Hn & (m & -> & Hm)%list_elem_of_fmap). unfold node_calls in Hn.
      case_decide; [by apply elem_of_nil in Hn|]. rewrite !elem_of_cons in Hn.
      destruct Hn as [[= ->]|[[=]|Hn]]; [done|by apply elem_of_nil in Hn].
    + right. destruct err as [[]|]; simpl in *; rewrite ?elem_of_cons, ?elem_of_nil in Hn; naive_solver.
  - intros ->. simpl in Hh. subst rest. rewrite app_nil_r in Heq. rewrite <- upgradeOrder_perm, Heq. done.
Qed.
End rolling_laws.

(** ** Resuming *)

Section resume.
Context {W : Type} `{!nodeUpgrader W} (ctx_err : W → option string) (target name : string).
(** Some states in which the node [name] reports the target; nothing that is done to
    the other nodes leaves them. *)
Context (Inv : W → Prop).
Context (Hupgrade : ∀ n w, un_Name n ≠ name → Inv w → Inv (Upgrade n target w).2).
Context (Hhealth : ∀ n w, Inv w → Inv (Health n w).2).
Context (Htarget : ∀ n w, un_Name n = name → Inv w → (Health n w).1 = Ok target).

(** The node [name] is known to be at the target. *)
Definition known (n : upgradeNode) : Prop := un_Name n = name → un_Version n = target.

(** The calls that do not upgrade [name]. *)
Definition spares (c : ucall) : Prop := match c with CallUpgrade n _ => un_Name n ≠ name | CallHealth _ => True end.

Lemma call_health_inv n (st : W * list ucall) :
  Inv st.1 → Forall spares st.2 →
  let '(r, st') := call_health n st in Inv st'.1 ∧ Forall spares st'.2 ∧ (un_Name n = name → r = Ok target).
Proof.
  intros Hi Hs. unfold call_health. pose proof (Hhealth n _ Hi) as H. pose proof (λ E, Htarget n _ E Hi) as Ht.
  destruct (Health n st.1) as [r w]. simpl in *. split_and!; [done| |done]. apply Forall_app. split; [done|by repeat constructor].
Qed.

Lemma call_upgrade_inv n (st : W * list ucall) :
  un_Name n ≠ name → Inv st.1 → Forall spares st.2 →
  let '(r, st') := call_upgrade n target st in Inv st'.1 ∧ Forall spares st'.2.
Proof.
  intros Hn Hi Hs. unfold call_upgrade. pose proof (Hupgrade n _ Hn Hi) as H. destruct (Upgrade n target st.1) as [r w].
  simpl in *. split; [done|]. apply Forall_app. split; [done|by repeat constructor].
Qed.

Lemma withCurrentVersions_known nodes (st : W * list ucall) :
  Inv st.1 → Forall spares st.2 →
  let '(ns, st') := withCurrentVersions nodes st in Inv st'.1 ∧ Forall spares st'.2 ∧ Forall known ns.
Proof.
  revert st. induction nodes as [|n nodes IH]; intros st Hi Hs; [by split_and!|]. simpl.
  pose proof (call_health_inv n st Hi Hs) as H. destruct (call_health n st) as [r st1]. destruct H as (Hi1 & Hs1 & Hr).
  specialize (IH st1 Hi1 Hs1). destruct (withCurrentVersions nodes st1) as [ns st2]. destruct IH as (? & ? & ?).
  split_and!; [done..|]. constructor; [|done]. intros Hn. destruct r as [v|e]; simpl in *; [|by specialize (Hr Hn)].
  specialize (Hr Hn). by simplify_eq.
Qed.

Lemma rolling_loop_known nodes res (st : W * list ucall) :
  Forall known nodes → Inv st.1 → Forall spares st.2 →
  let '(_, st') := rolling_loop ctx_err target nodes res st in Inv st'.1 ∧ Forall spares st'.2.
Proof.
  intros Hk. revert res st. induction Hk as [|n nodes Hn _ IH]; intros res st Hi Hs; [done|]. simpl.
  destruct (ctx_err st.1); [done|]. destruct (decide (un_Version n = target)) as [|Hv]; [by apply IH|].
  assert (un_Name n ≠ name) as Hne by (intros E; by apply Hv, Hn).
  pose proof (call_upgrade_inv n st Hne Hi Hs) as H. destruct (call_upgrade n target st) as [[u|e] st1]; [|done].
  destruct H as [Hi1 Hs1]. pose proof (call_health_inv n st1 Hi1 Hs1) as H.
  destruct (call_health n st1) as [[got|e] st2]; destruct H as (Hi2 & Hs2 & _); [|done].
  case_decide; [done|]. by apply IH.
Qed.

Lemma rollingUpgrade_known nodes (st : W * list ucall) :
  Forall known nodes → Inv st.1 → Forall spares st.2 →
  let '(_, st') := rollingUpgrade ctx_err nodes target st in Inv st'.1 ∧ Forall spares st'.2.
Proof.
  intros Hk Hi Hs. unfold rollingUpgrade. case_decide; [done|]. apply rolling_loop_known; [|done..].
  by rewrite upgradeOrder_perm.
Qed.
End resume.

Section down.
Context (sha256 : string → string) (fetch : string → option string) (version_output : string → option string).
Context (new_client : string → bool) (poll : gmap string node → gmap string node) (polls : nat).

(** The upgrader over nodes that behave as [env] says. *)
Definition node_upgrader (env : string → io * bool) (endpoints : gmap string string) : nodeUpgrader (gmap string node) :=
  agentNodeUpgrader new_client (node_upgrade sha256 fetch env) (node_info version_output) poll polls endpoints.

(** An upgrade whose restart failed: the new binary is in place and k3s is down. *)
Lemma node_upgrade_restart_failed env ep target w nd bin :
  w !! ep = Some nd → versionRe target = true → (env ep).2 = false →
  (∀ tmp, io_temp (env ep).1 = Some tmp → tmp ≠ nd_dest nd) →
  up_restarts (runUpgrade sha256 fetch (env ep).1 false target (nd_arch nd) (nd_dest nd) k3sReleaseBase (nd_files nd)) ≠ 0 →
  (∀ b, published sha256 fetch target (nd_arch nd) k3sReleaseBase b → b = bin) →
  node_upgrade sha256 fetch env ep target w =
    (Err "status 500", <[ep := MkNode (<[nd_dest nd := (bin, true)]> (nd_files nd)) (nd_arch nd) (nd_dest nd) false]> w).
Proof.
  intros Hep Hv Henv Htmp Hr Hbin. unfold node_upgrade. rewrite Hep, Henv. unfold upgrade_status. simpl. rewrite Hv. simpl.
  pose proof (runUpgrade_swapped sha256 fetch (env ep).1 false target (nd_arch nd) (nd_dest nd) k3sReleaseBase (nd_files nd)
    Htmp Hr) as (b & Hb & Hl & Hok).
  rewrite Hok, Hl. simpl. apply Hbin in Hb as ->. rewrite decide_False by done. reflexivity.
Qed.

Lemma node_upgrade_other env ep' target w ep :
  ep' ≠ ep → (node_upgrade sha256 fetch env ep' target w).2 !! ep = w !! ep.
Proof.
  intros Hne. unfold node_upgrade. destruct (w !! ep') as [nd|]; [|done]. destruct (upgrade_status _ _ _) as [code [o|]]; [|done].
  simpl. by rewrite lookup_insert_ne.
Qed.

Lemma poll_health_keeps ep ep' more w :
  (∀ w, poll w !! ep = w !! ep) → (poll_health (node_info version_output) poll more ep' w).2 !! ep = w !! ep.
Proof.
  intros Hpoll. revert w. induction more as [|more IH]; intros w; simpl; unfold node_info; destruct (w !! ep') eqn:He; simpl;
    try done; rewrite ?IH; apply Hpoll.
Qed.

(** A halted upgrade cannot be resumed safely. A node whose restart failed has
    the new binary on disk and k3s down; its agent reports the version of the
    binary, and the health gate does not look at whether k3s runs. So every later
    run takes the node for upgraded, skips it without a call and goes on to the
    next one, and the node stays down. *)
Theorem failed_node_is_skipped {NW} `{Yaml} (files : state_files) (ns : nstate (W := NW)) bundle_ok ctx_err
    cluster nodes endpoints env env' name ep target w nd bin :
  loadClusterNodeAgent files ns bundle_ok cluster = Ok (nodes, endpoints) →
  endpoints !! name = Some ep → ep ≠ "" → (∀ other, other ≠ name → endpoints !! other ≠ Some ep) →
  new_client ep = true → (∀ w, poll w !! ep = w !! ep) →
  w !! ep = Some nd → versionRe target = true → (env ep).2 = false →
  (∀ tmp, io_temp (env ep).1 = Some tmp → tmp ≠ nd_dest nd) →
  up_restarts (runUpgrade sha256 fetch (env ep).1 false target (nd_arch nd) (nd_dest nd) k3sReleaseBase (nd_files nd)) ≠ 0 →
  (∀ b, published sha256 fetch target (nd_arch nd) k3sReleaseBase b → b = bin) →
  k3sVersion (version_output bin) = target →
  let '(r, w') := node_upgrade sha256 fetch env ep target w in
  is_ok r = false ∧ (nd_active <$> w' !! ep) = Some false ∧
  let st' := (runClusterUpgrade files ns bundle_ok (node_upgrader env') ctx_err cluster target (w', [])).2 in
  (∀ n v, CallUpgrade n v ∈ st'.2 → un_Name n ≠ name) ∧ (nd_active <$> st'.1 !! ep) = Some false.
Proof.
  intros Hload Hname Hne Hinj Hclient Hpoll Hw Hre Henv Htmp Hrun Hbin Hver.
  rewrite (node_upgrade_restart_failed env ep target w nd bin) by done. set (nd' := MkNode _ _ _ false).
  rewrite lookup_insert_eq. split_and!; [done..|]. intros st'.
  assert (st'.1 !! ep = Some nd' ∧ Forall (spares name) st'.2) as [Hst Hsp].
  { subst st'. unfold runClusterUpgrade. case_decide; [split; [apply lookup_insert_eq|constructor]|]. rewrite Hload.
    set (u := node_upgrader env' endpoints).
    assert (∀ n w, un_Name n ≠ name → w !! ep = Some nd' → (@Upgrade _ u n target w).2 !! ep = Some nd') as HU.
    { intros n w1 Hn Hi. simpl. unfold clientFor. destruct (endpoints !! un_Name n) as [ep'|] eqn:Hep; [|done].
      case_decide; [done|]. destruct (new_client ep'); [|done]. rewrite node_upgrade_other; [done|].
      intros ->. by eapply Hinj. }
    assert (∀ n w, w !! ep = Some nd' → (@Health _ u n w).2 !! ep = Some nd') as HH.
    { intros n w1 Hi. simpl. destruct (clientFor _ _ _); [|done]. by rewrite poll_health_keeps. }
    assert (∀ n w, un_Name n = name → w !! ep = Some nd' → (@Health _ u n w).1 = Ok target) as HT.
    { intros n w1 Hn Hi. simpl. unfold clientFor. rewrite Hn, Hname, decide_False, Hclient by done.
      assert (node_info version_output ep w1 = (Ok (gatherInfo version_output nd'), w1)) as Hinfo
        by (unfold node_info; by rewrite Hi).
      assert (K3sVersion (gatherInfo version_output nd') = target) as Hv
        by (simpl; by rewrite lookup_insert_eq).
      destruct polls; simpl; rewrite Hinfo; exact (f_equal Ok Hv). }
    pose proof (withCurrentVersions_known target name (λ w, w !! ep = Some nd') HH HT nodes
      (<[ep := nd']> w, []) (lookup_insert_eq _ _ _) (List.Forall_nil _)) as Hcur.
    destruct (withCurrentVersions nodes _) as [current st1]. destruct Hcur as (Hi1 & Hs1 & Hk).
    pose proof (rollingUpgrade_known ctx_err target name (λ w, w !! ep = Some nd') HU HH HT current st1 Hk Hi1 Hs1) as Hroll.
    destruct (rollingUpgrade ctx_err current target st1) as [[res err] st2]. by destruct err. }
  split; [|by rewrite Hst]. intros n v Hc. rewrite Forall_forall in Hsp. by apply (Hsp _ Hc).
Qed.
End down.

(** The names that are offered are the ones that are described. *)
Lemma ActionSpecs_names kind : map as_Name (ActionSpecs kind) = Actions kind.
Proof. unfold ActionSpecs, Actions. by case_decide. Qed.

(** An action on a node goes to a node of the cluster: the one that is named, or the
    only one. *)
Lemma selectNode_spec nodes name n :
  selectNode nodes name = Ok n → n ∈ nodes ∧ (un_Name n = trim_space name ∨ (trim_space name = "" ∧ nodes = [n])).
Proof.
  unfold selectNode. case_decide as Hd.
  - destruct (filter _ nodes) as [|m l] eqn:Hf; [done|]. intros [= ->].
    assert (n ∈ filter (λ n, un_Name n = trim_space name) nodes) as [? ?]%list_elem_of_filter by (rewrite Hf; left). auto.
  - destruct nodes as [|m [|]]; try done. intros [= ->]. split; [left|]. right. by split.
Qed.

(** ** Witnesses *)

(** Three nodes; the second control plane does not come back. *)
#[local] Instance ex_upgrader : nodeUpgrader unit := {
  Upgrade _ _ w := (Ok tt, w);
  Health n w := (if decide (un_Name n = "cp1") then Err "down" else Ok "v1.30.5+k3s1", w);
}.
Definition ex_nodes : list upgradeNode :=
  [MkUpgradeNode "w0" roleAgent "v1.29.0+k3s1"; MkUpgradeNode "cp0" roleServer "v1.29.0+k3s1";
   MkUpgradeNode "cp1" roleServer "v1.29.0+k3s1"].

Lemma rollingUpgrade_serial_witness :
  let '(res, err, st) := rollingUpgrade (λ _, None) ex_nodes "v1.30.5+k3s1" (tt, []) in
  Upgraded res = ["cp0"] ∧ err = Some (HaltUnhealthy (MkUpgradeNode "cp1" roleServer "v1.29.0+k3s1") "down") ∧
  ¬ (∃ n, CallUpgrade n "v1.30.5+k3s1" ∈ st.2 ∧ un_Role n ≠ roleServer).
Proof.
  assert ("v1.30.5+k3s1" ≠ "") as Ht by discriminate.
  pose proof (rollingUpgrade_serial (λ _, None) "v1.30.5+k3s1" ex_nodes (tt, []) Ht) as H.
  destruct (rollingUpgrade _ _ _ _) as [[res err] st] eqn:Hrun. vm_compute in Hrun.
  injection Hrun as <- <- <-. split; [reflexivity|]. split; [reflexivity|]. intros (n & Hn & Hw).
  destruct H as (done & rest & Heq & _ & _ & Hu & _ & Hlog & Hservers & _). simpl in Hn, Hlog, Hu.
  rewrite Hlog in Hn. assert (MkUpgradeNode "cp1" roleServer "v1.29.0+k3s1" ∈ done) as Hin.
  { eapply (Hservers n Hn Hw); [|reflexivity]. right. right. left. }
  assert (In "cp1" ["cp0"]) as Hbad; [|simpl in Hbad; destruct Hbad as [Hbad|[]]; discriminate Hbad].
  rewrite Hu. apply list_elem_of_In. unfold passed.
  apply list_elem_of_fmap. eexists. split; [|apply list_elem_of_filter; split; [|exact Hin]]; [reflexivity|discriminate].
Defined.

(** Two control planes; the first one's restart fails. *)
Definition ex_node_at (b : string) : node := MkNode {[ "/usr/local/bin/k3s" := (b, true) ]} "amd64" "/usr/local/bin/k3s" true.
Definition ex_world : gmap string node := {[ "10.0.0.1:9443" := ex_node_at "old"; "10.0.0.2:9443" := ex_node_at "old" ]}.
Definition ex_version (b : string) : option string :=
  Some ("k3s version " +:+ (if decide (b = "new") then "v1.30.5+k3s1" else "v1.29.0+k3s1") +:+ " (abc)").
Definition ex_env (ok : bool) (ep : string) : io * bool := (ex_io true, ok).
Definition ex_children : list value :=
  map render_child [MkChildRef "proxmox" kindVM "k-cp-0"; MkChildRef "proxmox" kindVM "k-cp-1"].
Definition ex_cluster_files : state_files := {[ "k" := Some [("children", VList ex_children)] ]}.
Definition ex_installed (name ip : string) : nodeState := NodeOps.MkNodeState name name ip "server" true "tok" "" "t0".
Definition ex_nodes_state : nstate (W := unit) :=
  MkNState {[ "k-cp-0" := Some (ex_installed "k-cp-0" "10.0.0.1"); "k-cp-1" := Some (ex_installed "k-cp-1" "10.0.0.2") ]}
    ∅ ∅ ∅ tt [].
#[local] Existing Instance ex_yaml.
Definition ex_upgrade (w : gmap string node) : result action_error ActionResult * (gmap string node * list ucall) :=
  runClusterUpgrade ex_cluster_files ex_nodes_state (λ _, true)
    (node_upgrader (λ b, b) ex_fetch ex_version (λ _, true) (λ w, w) 1 (ex_env true)) (λ _, None) "k" "v1.30.5+k3s1" (w, []).

Lemma failed_node_is_skipped_witness :
  let w' := (node_upgrade (λ b, b) ex_fetch (ex_env false) "10.0.0.1:9443" "v1.30.5+k3s1" ex_world).2 in
  (ex_upgrade w').1 = Ok (message "upgraded 1 node(s) to v1.30.5+k3s1 (1 already at target)") ∧
  (nd_active <$> (ex_upgrade w').2.1 !! "10.0.0.1:9443") = Some false.
Proof.
  intros w'. split; [vm_compute; reflexivity|].
  assert (loadClusterNodeAgent ex_cluster_files ex_nodes_state (λ _, true) "k" =
    Ok ([MkUpgradeNode "k-cp-0" "server" ""; MkUpgradeNode "k-cp-1" "server" ""],
        <["k-cp-1" := "10.0.0.2:9443"]> (<["k-cp-0" := "10.0.0.1:9443"]> ∅))) as Hload by (vm_compute; reflexivity).
  pose proof (failed_node_is_skipped (λ b, b) ex_fetch ex_version (λ _, true) (λ w, w) 1 ex_cluster_files ex_nodes_state
    (λ _, true) (λ _, None) "k" _ _ (ex_env false) (ex_env true) "k-cp-0" "10.0.0.1:9443" "v1.30.5+k3s1" ex_world
    (ex_node_at "old") "new" Hload) as H.
  destruct (node_upgrade (λ b, b) ex_fetch (ex_env false) "10.0.0.1:9443" "v1.30.5+k3s1" ex_world) as [r w1] eqn:E.
  subst w'. simpl. apply H; clear H; try reflexivity; try discriminate; try (by_decide).
  - intros other Hne. rewrite lookup_insert_Some, lookup_insert_Some, lookup_empty. intros [[_ [=]]|[_ [[<- _]|[_ [=]]]]].
    by apply Hne.
  - intros tmp [= <-]. by_decide.
  - intros b (asset & sums & Ha & Hs & Hp & Hb). injection Ha as <-. vm_compute in Hb. by injection Hb as <-.
Defined.
