(* ===== verification/VMCompare.v ===== *)
(** Comparing a virtual machine with its declaration:
    src/pkg/proxmox/resources/vm_compare.go, and its use by the drift projection of
    src/internal/controller/providers/proxmox/provider.go.

    A list of strings ([[]string]) is an [[]any] of strings here, and sizes are
    rational numbers of bytes, as in the code. *)
From S2P Require Import Prelude GoStrings GoValue ClusterSpec Drift.
From Stdlib Require Import Ascii.
From Corelib Require Import Floats.SpecFloat.

(** ** Disk sizes *)

(** The longest prefix of digits and dots, and the rest. *)
Fixpoint span_number (s : string) : string * string :=
  match s with
  | EmptyString => (EmptyString, EmptyString)
  | String c s' =>
      if is_digit c || bool_decide (c = "."%char) then let '(n, u) := span_number s' in (String c n, u)
      else (EmptyString, s)
  end.

(** The power of 1024 that a unit stands for. *)
Definition unit_power (unit : string) : option Z :=
  if decide (unit ∈ [""; "B"]) then Some 0%Z
  else if decide (unit ∈ ["K"; "KB"; "KIB"]) then Some 1%Z
  else if decide (unit ∈ ["M"; "MB"; "MIB"]) then Some 2%Z
  else if decide (unit ∈ ["G"; "GB"; "GIB"]) then Some 3%Z
  else if decide (unit ∈ ["T"; "TB"; "TIB"]) then Some 4%Z
  else if decide (unit ∈ ["P"; "PB"; "PIB"]) then Some 5%Z
  else None.

Definition max_uint64 : Z := 18446744073709551615.

(** [strconv.ParseUint(s, 10, 64)] *)
Definition ParseUint (s : string) : option Z :=
  match s with
  | EmptyString => None
  | _ => match digits_value 0 s with
         | Some v => if (v <=? max_uint64)%Z then Some v else None
         | None => None
         end
  end.

(** [new(big.Rat).SetString] on digits and dots: at most one dot, and a digit. *)
Definition rat_of (s : string) : option (Z * Z) :=
  match cut_byte "." s with
  | None => match s with EmptyString => None | _ => (λ n, (n, 1%Z)) <$> digits_value 0 s end
  | Some (whole, frac) =>
      if decide (whole +:+ frac = "") then None
      else (λ n, (n, (10 ^ Z.of_nat (String.length frac))%Z)) <$> digits_value 0 (whole +:+ frac)
  end.

(** [RatString]: in lowest terms, without a denominator of one. *)
Definition RatString (n d : Z) : string :=
  let g := Z.gcd n d in
  if decide (d / g = 1)%Z then pretty (n / g)%Z else pretty (n / g)%Z +:+ "/" +:+ pretty (d / g)%Z.

(** [binaryDiskSize] *)
Definition binaryDiskSize (value : string) : string :=
  let '(number, unit) := span_number (ToUpper (trim_space value)) in
  if decide (number = "") then value
  else match unit_power unit with
  | None => value
  | Some power =>
      let big := match rat_of number with
                 | None => value
                 | Some (n, d) => RatString (n * 2 ^ (10 * power))%Z d
                 end in
      match ParseUint number with
      | Some whole => if (whole <=? Z.shiftr max_uint64 (10 * power))%Z then pretty (Z.shiftl whole (10 * power)) else big
      | None => big
      end
  end.

(** ** The projection *)

(** [normalizedVMValue] *)
Fixpoint normalizedVMValue (v : value) (path : string) : value :=
  match v with
  | VMap m => VMap (map (λ p, (p.1, normalizedVMValue p.2 (path +:+ "." +:+ p.1))) m)
  | VList l => VList (map (λ x, normalizedVMValue x path) l)
  | VStr s =>
      VStr (if decide (path = "disks.size") then binaryDiskSize s
            else if decide (path = "networks.macAddress") then ToLower s else s)
  | VInt z => VFloat (f64_of_Z z)
  | _ => v
  end.

(** The fields that are not managed. *)
Definition unmanaged (path key : string) : bool :=
  if decide (path = "") then bool_decide (key ∈ ["context"; "template"; "image"; "cloudImage"; "startOnCreate"])
  else if decide (path = "cloudInit") then bool_decide (key ∈ ["password"; "packages"; "runcmd"])
  else false.

Definition child_path (path key : string) : string := if decide (path = "") then key else path +:+ "." +:+ key.

(** The lists that are compared item by item. *)
Definition item_list (child : string) : bool := bool_decide (child ∈ ["disks"; "networks"; "hostPCI"]).

(** [candidateMap["name"] == name] *)
Definition named (name : string) (v : value) : option gomap :=
  match v with
  | VMap m => if decide (assoc "name" m = Some (VStr name)) then Some m else None
  | _ => None
  end.

Fixpoint find_named (name : string) (l : list value) : option gomap :=
  match l with
  | [] => None
  | v :: l' => match named name v with Some m => Some m | None => find_named name l' end
  end.

(** The observed counterpart of the [i]th item. *)
Definition live_item (path : string) (i : nat) (item : gomap) (observed : list value) : option gomap :=
  if decide (path = "hostPCI") then as_map (observed !! i)
  else match as_str (assoc "name" item) with Some name => find_named name observed | None => None end.

Section walk.
(** The comparison of maps, for the recursion. *)
Context (maps : value → gomap → string → gomap * gomap).

(** The loop of [compareVMLists] *)
Fixpoint items_from (i : nat) (desired observed : list value) (path : string) : list value * list value :=
  match desired with
  | [] => ([], [])
  | v :: desired' =>
      let '(d, o) := items_from (S i) desired' observed path in
      match v with
      | VMap item =>
          let live := live_item path i item observed in
          let '(dm, om) := maps v (fields live) path in
          (VMap dm :: d, (if live is Some _ then VMap om else VNull) :: o)
      | _ =>
          (normalizedVMValue v path :: d,
           match observed !! i with Some live => normalizedVMValue live path :: o | None => o end)
      end
  end.

Definition observe (key : string) (live : option value) (v : value) : gomap := if live is Some _ then [(key, v)] else [].

(** One field of [compareVMMaps] *)
Definition field_of (key : string) (v : value) (observed : gomap) (path : string) : gomap * gomap :=
  if unmanaged path key then ([], [])
  else
    let child := child_path path key in
    let live := assoc key observed in
    let whole := ([(key, normalizedVMValue v child)], observe key live (normalizedVMValue (default VNull live) child)) in
    match v with
    | VMap _ =>
        let '(dm, om) := maps v (fields (as_map live)) child in
        if bool_decide (child = "cloudInit") && bool_decide (dm = []) then ([], [])
        else ([(key, VMap dm)], observe key live (VMap om))
    | VList l =>
        if item_list child then
          let '(dl, ol) := items_from 0 l (default [] (as_list live)) child in
          ([(key, VList dl)], observe key live (VList ol))
        else whole
    | VStr s => if decide (live = Some (VStr s)) then ([(key, v)], [(key, v)]) else whole
    | _ => whole
    end.

(** The loop of [compareVMMaps] *)
Fixpoint fields_from (desired observed : gomap) (path : string) : gomap * gomap :=
  match desired with
  | [] => ([], [])
  | (key, v) :: desired' =>
      let '(d, o) := fields_from desired' observed path in
      let '(d1, o1) := field_of key v observed path in
      (d1 ++ d, o1 ++ o)
  end.
End walk.

(** [compareVMMaps] *)
Fixpoint compareVMMaps (desired : value) (observed : gomap) (path : string) : gomap * gomap :=
  match desired with
  | VMap m => fields_from compareVMMaps m observed path
  | _ => ([], [])
  end.

(** [ComparableVMSpecs] *)
Definition ComparableVMSpecs (desired observed : gomap) : gomap * gomap := compareVMMaps (VMap desired) observed "".

(** [DriftSpecs] of the Proxmox provider *)
Definition DriftSpecs (kind : string) (desired observed : gomap) : gomap * gomap :=
  if decide (kind = "VirtualMachine") then ComparableVMSpecs desired observed else (desired, observed).

(** ** Sizes *)

(** The number of bytes that a size stands for, as a fraction: the reference that
    [binaryDiskSize] prints. *)
Definition size_of (value : string) : option (Z * Z) :=
  let '(number, unit) := span_number (ToUpper (trim_space value)) in
  if decide (number = "") then None
  else power ← unit_power unit; f ← rat_of number; Some ((f.1 * 2 ^ (10 * power))%Z, f.2).

Lemma digits_value_nonneg acc s v : (0 ≤ acc)%Z → digits_value acc s = Some v → (0 ≤ v)%Z.
Proof.
  revert acc. induction s as [|c s IH]; intros acc Ha; simpl; [by intros [= <-]|].
  destruct (digit_val c) as [d|] eqn:Hd; [|done]. apply IH. unfold digit_val in Hd. case_match; [|done]. injection Hd as <-.
  apply andb_true_iff in H as [H1 H2]. apply Z.leb_le in H1, H2. lia.
Qed.

Lemma digits_value_no_byte c acc s v : digit_val c = None → digits_value acc s = Some v → no_byte c s.
Proof.
  intros Hc. revert acc. induction s as [|a s IH]; intros acc; simpl; [done|]. destruct (digit_val a) as [d|] eqn:Hd; [|done].
  intros H. split; [congruence|by eapply IH].
Qed.

Lemma ParseUint_rat s v : ParseUint s = Some v → rat_of s = Some (v, 1%Z).
Proof.
  unfold ParseUint, rat_of. destruct s as [|c s]; [done|]. destruct (digits_value 0 (String c s)) as [w|] eqn:Hv; [|done].
  assert (cut_byte "." (String c s) = None) as -> by (apply cut_byte_None; by eapply digits_value_no_byte).
  case_match; [|done]. by intros [= ->].
Qed.

Lemma rat_of_bounds s n d : rat_of s = Some (n, d) → (0 ≤ n ∧ 0 < d)%Z.
Proof.
  unfold rat_of. destruct (cut_byte "." s) as [[whole frac]|].
  - case_decide; [done|]. intros Hr. apply fmap_Some in Hr as (m & Hm & [= -> ->]). apply digits_value_nonneg in Hm; lia.
  - destruct s as [|c s]; [done|]. intros Hr. apply fmap_Some in Hr as (m & Hm & [= -> ->]). apply digits_value_nonneg in Hm; lia.
Qed.

Lemma unit_power_nonneg u p : unit_power u = Some p → (0 ≤ p)%Z.
Proof. unfold unit_power. intros H. repeat case_decide; simplify_eq; lia. Qed.

Lemma RatString_whole n : RatString n 1 = pretty n.
Proof. unfold RatString. by rewrite Z.gcd_1_r, !Z.div_1_r, decide_True. Qed.

(** The shortcut for whole numbers agrees with the rational arithmetic, and a size
    that fits no number of bits is still exact. *)
Lemma binaryDiskSize_eq value :
  binaryDiskSize value = match size_of value with Some (n, d) => RatString n d | None => value end.
Proof.
  unfold binaryDiskSize, size_of. destruct (span_number _) as [number unit]. case_decide; [done|].
  destruct (unit_power unit) as [power|] eqn:Hp; [|done]. apply unit_power_nonneg in Hp. simpl.
  destruct (ParseUint number) as [whole|] eqn:Hw.
  - rewrite (ParseUint_rat _ _ Hw). simpl. rewrite RatString_whole, Z.shiftl_mul_pow2 by lia. by case_match.
  - destruct (rat_of number) as [[n d]|]; done.
Qed.

Lemma size_of_bounds s n d : size_of s = Some (n, d) → (0 ≤ n ∧ 0 < d)%Z.
Proof.
  unfold size_of. destruct (span_number _) as [number unit]. case_decide; [done|].
  destruct (unit_power unit) as [power|] eqn:Hp; [|done]. apply unit_power_nonneg in Hp. simpl.
  destruct (rat_of number) as [[m e]|] eqn:Hr; [|done]. apply rat_of_bounds in Hr. intros [= <- <-]. simpl.
  pose proof (Z.pow_pos_nonneg 2 (10 * power)). lia.
Qed.

(** A fraction in lowest terms. *)
Lemma lowest_terms n d :
  (0 ≤ n)%Z → (0 < d)%Z →
  ∃ a b g, (0 ≤ a ∧ 0 < b ∧ 0 < g)%Z ∧ Z.gcd a b = 1%Z ∧ n = (g * a)%Z ∧ d = (g * b)%Z ∧
    RatString n d = if decide (b = 1)%Z then pretty a else pretty a +:+ "/" +:+ pretty b.
Proof.
  intros Hn Hd. pose proof (Z.gcd_nonneg n d). pose proof (Z.gcd_divide_l n d) as [a Ha].
  pose proof (Z.gcd_divide_r n d) as [b Hb].
  assert (Z.gcd n d ≠ 0)%Z by (intros E; apply Z.gcd_eq_0_r in E; lia).
  exists (n / Z.gcd n d)%Z, (d / Z.gcd n d)%Z, (Z.gcd n d).
  pose proof (Z.gcd_div_gcd n d (Z.gcd n d) ltac:(done) eq_refl) as Hg.
  assert (n / Z.gcd n d = a)%Z as Ea by (rewrite Ha at 1; by apply Z.div_mul).
  assert (d / Z.gcd n d = b)%Z as Eb by (rewrite Hb at 1; by apply Z.div_mul).
  unfold RatString. rewrite Ea, Eb in *. split_and!; try lia; try done; nia.
Qed.

Lemma pretty_no_slash z : (0 ≤ z)%Z → no_byte "/"%char (pretty z).
Proof. intros Hz. apply all_digits_no_byte; [done|by apply pretty_Z_digits]. Qed.

Lemma RatString_eq n d n' d' :
  (0 ≤ n)%Z → (0 < d)%Z → (0 ≤ n')%Z → (0 < d')%Z → RatString n d = RatString n' d' ↔ (n * d' = n' * d)%Z.
Proof.
  intros Hn Hd Hn' Hd'. destruct (lowest_terms n d Hn Hd) as (a & b & g & (Ha & Hb & Hg) & Hco & -> & -> & ->).
  destruct (lowest_terms n' d' Hn' Hd') as (a' & b' & g' & (Ha' & Hb' & Hg') & Hco' & -> & -> & ->).
  assert (∀ x y z t : Z, (0 ≤ x)%Z → (0 ≤ z)%Z →
    pretty x +:+ String "/" (pretty y) = pretty z +:+ String "/" (pretty t) → x = z ∧ y = t) as Hinj.
  { intros x y z t Hx Hz E. pose proof (cut_byte_app "/" (pretty x) (pretty y) (pretty_no_slash x Hx)) as E1.
    rewrite E, (cut_byte_app "/" (pretty z)) in E1 by by apply pretty_no_slash.
    injection E1 as E1 E2. split; by apply (inj pretty). }
  assert (∀ x y z : Z, (0 ≤ x)%Z → (0 ≤ z)%Z → pretty x ≠ pretty z +:+ String "/" (pretty y)) as Hne.
  { intros x y z Hx Hz E. pose proof (pretty_no_slash x Hx) as H. rewrite E in H. apply no_byte_app in H as [_ [H _]]. done. }
  split.
  - intros E. assert (a = a' ∧ b = b') as [-> ->]; [|ring].
    repeat case_decide; subst.
    + split; [by apply (inj pretty)|done].
    + by apply Hne in E.
    + symmetry in E. by apply Hne in E.
    + by apply Hinj in E.
  - intros E. assert (a * b' = a' * b)%Z as E' by nia.
    assert ((b | b')%Z ∧ (b' | b)%Z) as [H1 H2].
    { split; [apply (Z.gauss b a b')|apply (Z.gauss b' a' b)]; try (by rewrite Z.gcd_comm).
      - exists a'. lia.
      - exists a. lia. }
    assert (b = b') as -> by (apply Z.divide_antisym_nonneg; lia || done).
    assert (a = a') as -> by nia. done.
Qed.

(** Digits and slashes: what a size is printed with. *)
Fixpoint plain (s : string) : bool :=
  match s with
  | EmptyString => true
  | String c s' => (is_digit c || bool_decide (c = "/"%char)) && plain s'
  end.

Lemma plain_byte c : is_digit c || bool_decide (c = "/"%char) = true → is_space c = false ∧ shift_byte 97 122 (λ n, n - 32) c = c.
Proof. destruct c as [[] [] [] [] [] [] [] []]; vm_compute; done. Qed.

Lemma plain_digits s : all_digits s = true → plain s = true.
Proof. induction s as [|c s IH]; simpl; [done|]. intros [-> Hs]%andb_true_iff. simpl. by apply IH. Qed.

Lemma plain_app a b : plain a = true → plain b = true → plain (a +:+ b) = true.
Proof.
  induction a as [|c a IH]; [done|]. rewrite str_app_cons. simpl. intros [-> Ha]%andb_true_iff Hb. simpl. by apply IH.
Qed.

Lemma plain_upper s : plain s = true → ToUpper (trim_space s) = s.
Proof.
  intros Hp. assert (trim_space s = s) as ->.
  { unfold trim_space. assert (trim_left_space s = s) as ->.
    { destruct s as [|c s]; [done|]. simpl in *. apply andb_true_iff in Hp as [Hc _]. by destruct (plain_byte c Hc) as [-> _]. }
    induction s as [|c s IH]; [done|]. simpl in *. apply andb_true_iff in Hp as [Hc Hs]. rewrite IH by done.
    destruct (plain_byte c Hc) as [-> _]. by destruct s. }
  unfold ToUpper. induction s as [|c s IH]; [done|]. simpl in *. apply andb_true_iff in Hp as [Hc Hs].
  destruct (plain_byte c Hc) as [_ ->]. by rewrite IH.
Qed.

Lemma span_number_digits s rest :
  all_digits s = true → span_number rest = ("", rest) → span_number (s +:+ rest) = (s, rest).
Proof.
  intros Hs Hr. induction s as [|c s IH]; [done|]. rewrite str_app_cons. simpl in *.
  apply andb_true_iff in Hs as [-> Hs]. simpl. by rewrite IH.
Qed.

(** What a size is printed as. *)
Lemma binaryDiskSize_printed n d : (0 ≤ n)%Z → (0 < d)%Z → binaryDiskSize (RatString n d) = RatString n d.
Proof.
  intros Hn Hd. destruct (lowest_terms n d Hn Hd) as (a & b & g & (Ha & Hb & _) & _ & _ & _ & ->).
  pose proof (pretty_Z_digits a Ha) as Hda. pose proof (pretty_Z_digits b ltac:(lia)) as Hdb.
  destruct (pretty_Z_nonempty a Ha) as (c & s & Hc & _).
  rewrite binaryDiskSize_eq. unfold size_of. case_decide as Hone.
  - rewrite plain_upper by by apply plain_digits.
    rewrite <- (str_app_nil_r (pretty a)) at 1. rewrite span_number_digits by done. rewrite decide_False by (by rewrite Hc).
    assert (rat_of (pretty a) = Some (a, 1%Z)) as Hr.
    { unfold rat_of. assert (cut_byte "." (pretty a) = None) as ->
        by (apply cut_byte_None; by apply all_digits_no_byte).
      rewrite digits_value_pretty by done. by rewrite Hc. }
    simpl. rewrite Hr. simpl. by rewrite RatString_whole, Z.mul_1_r.
  - rewrite plain_upper by (apply plain_app; [by apply plain_digits|]; apply plain_app; [done|by apply plain_digits]).
    rewrite span_number_digits by done. rewrite decide_False by (by rewrite Hc). done.
Qed.

(** Normalising the size of a disk identifies exactly the spellings of one
    number of bytes: with or without a unit, in any case, whole or decimal, however
    large, since nothing is rounded and nothing overflows. It is idempotent, and a
    text that is no size is left as it is. *)
Theorem binaryDiskSize_canonical s t n d n' d' :
  size_of s = Some (n, d) → size_of t = Some (n', d') →
  (binaryDiskSize s = binaryDiskSize t ↔ (n * d' = n' * d)%Z) ∧
  (∀ v, binaryDiskSize (binaryDiskSize v) = binaryDiskSize v) ∧
  (∀ v, size_of v = None → binaryDiskSize v = v).
Proof.
  intros Hs Ht. split_and!.
  - rewrite !binaryDiskSize_eq, Hs, Ht. apply size_of_bounds in Hs as [], Ht as []. by apply RatString_eq.
  - intros v. rewrite (binaryDiskSize_eq v). destruct (size_of v) as [[m e]|] eqn:Hv.
    + apply size_of_bounds in Hv as []. by apply binaryDiskSize_printed.
    + by rewrite binaryDiskSize_eq, Hv.
  - intros v Hv. by rewrite binaryDiskSize_eq, Hv.
Qed.

(** ** A machine observed as declared *)

(** The maps among the items of a list. *)
Definition item_maps (l : list value) : list gomap := omap (λ v, as_map (Some v)) l.

(** Items that can be told apart by their names. *)
Definition named_apart (l : list value) : bool :=
  forallb (λ m, bool_decide (is_Some (as_str (assoc "name" m)))) (item_maps l) &&
  bool_decide (NoDup (map (λ m, assoc "name" m) (item_maps l))).

(** In the lists that are compared item by item, disks and network devices have
    names, and different ones. *)
Fixpoint declared_ok (v : value) (path : string) : bool :=
  match v with
  | VMap m =>
      forallb (λ p,
        match p.2 with
        | VMap _ => declared_ok p.2 (child_path path p.1)
        | VList l =>
            negb (item_list (child_path path p.1)) ||
            ((bool_decide (child_path path p.1 = "hostPCI") || named_apart l) &&
             forallb (λ x, match x with VMap _ => declared_ok x (child_path path p.1) | _ => true end) l)
        | _ => true
        end) m
  | _ => true
  end.

Lemma find_named_elem name l m :
  named_apart l = true → VMap m ∈ l → assoc "name" m = Some (VStr name) → find_named name l = Some m.
Proof.
  unfold named_apart. rewrite andb_true_iff, bool_decide_eq_true. intros [_ Hnd] Hin Hn.
  induction l as [|v l IH]; [by apply elem_of_nil in Hin|]. simpl. apply elem_of_cons in Hin as [<-|Hin].
  - simpl. by rewrite decide_True.
  - destruct v as [ | | | | | |m']; simpl in *; try by apply IH. apply NoDup_cons in Hnd as [Hm' Hnd].
    rewrite decide_False; [by apply IH|]. intros E. apply Hm'. rewrite E, <- Hn. apply (list_elem_of_fmap_2 (λ m, assoc "name" m)).
    apply list_elem_of_omap. by exists (VMap m).
Qed.

Lemma live_item_self path i m l :
  bool_decide (path = "hostPCI") || named_apart l = true → l !! i = Some (VMap m) → live_item path i m l = Some m.
Proof.
  intros Hok Hi. unfold live_item. case_decide as Hp; [by rewrite Hi|].
  rewrite bool_decide_eq_false_2 in Hok by done. simpl in Hok. pose proof (list_elem_of_lookup_2 _ _ _ Hi) as Hin.
  pose proof Hok as Hn. unfold named_apart in Hn. apply andb_true_iff in Hn as [Hn _].
  rewrite forallb_Forall_true, Forall_forall in Hn. specialize (Hn m). rewrite bool_decide_eq_true in Hn.
  destruct Hn as [name Hname]; [apply list_elem_of_omap; by exists (VMap m)|]. rewrite Hname.
  apply find_named_elem; [done..|]. destruct (assoc "name" m) as [[]|]; simpl in Hname; by simplify_eq.
Qed.

Section self.
Context (maps : value → gomap → string → gomap * gomap).

Lemma items_self path l pre :
  bool_decide (path = "hostPCI") || named_apart (pre ++ l) = true →
  (∀ m, VMap m ∈ l → (maps (VMap m) m path).1 = (maps (VMap m) m path).2) →
  (items_from maps (length pre) l (pre ++ l) path).1 = (items_from maps (length pre) l (pre ++ l) path).2.
Proof.
  revert pre. induction l as [|v l IH]; intros pre Hok Hm; [done|]. simpl.
  assert ((pre ++ v :: l) !! length pre = Some v) as Hi by by apply list_lookup_middle.
  specialize (IH (pre ++ [v])). rewrite <- app_assoc in IH. simpl in IH.
  rewrite length_app, Nat.add_comm in IH. simpl in IH.
  specialize (IH Hok (λ m Hin, Hm m (list_elem_of_further _ _ _ Hin))).
  destruct (items_from maps (S (length pre)) l _ path) as [d o]. simpl in IH. subst o.
  destruct v as [ |b|z|f|s|l'|m]; try (by rewrite Hi). rewrite (live_item_self _ _ _ _ Hok Hi). simpl.
  specialize (Hm m (list_elem_of_here _ _)). destruct (maps (VMap m) m path) as [dm om]. simpl in Hm. by subst.
Qed.

Lemma field_self key v m path :
  assoc key m = Some v →
  (∀ m', v = VMap m' → (maps v m' (child_path path key)).1 = (maps v m' (child_path path key)).2) →
  (∀ l, v = VList l → item_list (child_path path key) = true →
     (items_from maps 0 l l (child_path path key)).1 = (items_from maps 0 l l (child_path path key)).2) →
  (field_of maps key v m path).1 = (field_of maps key v m path).2.
Proof.
  intros Hk Hmap Hlist. unfold field_of. destruct (unmanaged path key); [done|]. rewrite Hk. simpl.
  destruct v as [ |b|z|f|s|l|m']; simpl; try done.
  - by case_decide.
  - destruct (item_list _) eqn:Hi; [|done]. specialize (Hlist l eq_refl eq_refl).
    destruct (items_from maps 0 l l _) as [dl ol]. simpl in *. by subst.
  - specialize (Hmap m' eq_refl). destruct (maps _ m' _) as [dm om]. simpl in *. subst. by case_match.
Qed.

Lemma fields_self m m' path :
  (∀ k v, (k, v) ∈ m → (field_of maps k v m' path).1 = (field_of maps k v m' path).2) →
  (fields_from maps m m' path).1 = (fields_from maps m m' path).2.
Proof.
  induction m as [|[k v] m IH]; intros Hf; [done|]. simpl. specialize (IH (λ k v Hin, Hf k v (list_elem_of_further _ _ _ Hin))).
  specialize (Hf k v (list_elem_of_here _ _)). destruct (fields_from maps m m' path), (field_of maps k v m' path).
  simpl in *. by subst.
Qed.
End self.

Lemma compareVMMaps_self v path m :
  v = VMap m → wf v → declared_ok v path = true → (compareVMMaps v m path).1 = (compareVMMaps v m path).2.
Proof.
  assert (∀ v path, wf v → declared_ok v path = true →
    (∀ m, v = VMap m → (compareVMMaps v m path).1 = (compareVMMaps v m path).2) ∧
    (∀ l, v = VList l → ∀ m, VMap m ∈ l → declared_ok (VMap m) path = true →
       (compareVMMaps (VMap m) m path).1 = (compareVMMaps (VMap m) m path).2)) as H; [|naive_solver].
  clear v path m. intros v. induction v as [ |b|z|f|s|l IH|m IH] using value_ind'; intros path Hwf Hok; try (split; discriminate).
  - split; [discriminate|]. intros l' [= <-] m Hin Hm. apply wf_list in Hwf. rewrite Forall_forall in IH, Hwf.
    by destruct (IH _ Hin path (Hwf _ Hin) Hm) as [H _]; apply H.
  - split; [|discriminate]. intros m' [= <-]. simpl. apply wf_map in Hwf as [Hnd Hwf]. simpl in Hok.
    rewrite forallb_Forall_true in Hok. rewrite Forall_forall in IH, Hwf, Hok.
    apply fields_self. intros k v Hin. specialize (IH _ Hin (child_path path k) (Hwf _ Hin)). specialize (Hok _ Hin). simpl in *.
    apply field_self; [by apply elem_assoc| |].
    + intros m' ->. by apply IH.
    + intros l -> Hi. rewrite Hi in Hok. simpl in Hok. apply andb_true_iff in Hok as [Hn Hl].
      apply (items_self compareVMMaps (child_path path k) l []); [done|]. intros m' Hm'.
      rewrite forallb_Forall_true, Forall_forall in Hl. destruct (IH eq_refl) as [_ H]. apply (H l eq_refl m' Hm').
      by apply (Hl _ Hm').
Qed.

(** Values that do not drift from themselves. *)
Definition regular (v : value) : Prop := wf v ∧ nan_free v = true.

Lemma regular_list l : regular (VList l) ↔ ∀ x, x ∈ l → regular x.
Proof.
  unfold regular. rewrite wf_list. simpl. rewrite forallb_Forall_true, !Forall_forall. naive_solver.
Qed.

Lemma regular_map m : regular (VMap m) ↔ NoDup m.*1 ∧ ∀ k v, (k, v) ∈ m → regular v.
Proof.
  unfold regular. rewrite wf_map. simpl. rewrite forallb_Forall_true, !Forall_forall. split.
  - intros [[Hnd Hw] Hn]. split; [done|]. intros k v Hin. split; [by apply (Hw (k, v))|by apply (Hn (k, v))].
  - intros [Hnd H]. split_and!; [done| |]; intros [k v] Hin; by apply (H k v).
Qed.

Lemma normalized_regular v path : regular v → regular (normalizedVMValue v path).
Proof.
  revert path. induction v as [ |b|z|f|s|l IH|m IH] using value_ind'; intros path Hv; try done.
  - rewrite regular_list in Hv. rewrite Forall_forall in IH. simpl. apply regular_list. intros x (y & -> & Hy)%list_elem_of_fmap.
    apply IH; [done|by apply Hv].
  - apply regular_map in Hv as [Hnd Hv]. rewrite Forall_forall in IH. simpl. apply regular_map. split.
    + rewrite <- list_fmap_compose. done.
    + intros k v (p & [= -> ->] & Hp)%list_elem_of_fmap. apply (IH _ Hp). destruct p. by apply (Hv _ _ Hp).
Qed.

Section regular.
Context (maps : value → gomap → string → gomap * gomap).

Lemma items_regular i l obs path :
  (∀ x, x ∈ l → regular x) → (∀ m o, VMap m ∈ l → regular (VMap (maps (VMap m) o path).1)) →
  regular (VList (items_from maps i l obs path).1).
Proof.
  intros Hr Hm. apply regular_list. revert i. induction l as [|v l IH]; intros i x Hx; [by apply elem_of_nil in Hx|].
  simpl in Hx. specialize (IH (λ x Hin, Hr x (list_elem_of_further _ _ _ Hin)) (λ m o Hin, Hm m o (list_elem_of_further _ _ _ Hin)) (S i)).
  destruct (items_from maps (S i) l obs path) as [d o]. specialize (Hr v (list_elem_of_here _ _)).
  assert (x ∈ d → regular x) as Hd by apply IH. pose proof (normalized_regular v path Hr) as Hn.
  destruct v as [ |b|z|f|s|l'|m]; simpl in Hx; try (apply elem_of_cons in Hx as [->|Hx]; [exact Hn|by apply Hd]).
  pose proof (Hm m (fields (live_item path i m obs)) (list_elem_of_here _ _)) as Hl.
  destruct (maps (VMap m) _ path) as [dm om]. apply elem_of_cons in Hx as [->|Hx]; [done|by apply Hd].
Qed.

Lemma field_regular key v obs path :
  regular v → (∀ m o, v = VMap m → regular (VMap (maps v o (child_path path key)).1)) →
  (∀ l o, v = VList l → regular (VList (items_from maps 0 l o (child_path path key)).1)) →
  (field_of maps key v obs path).1 = [] ∨ ∃ w, (field_of maps key v obs path).1 = [(key, w)] ∧ regular w.
Proof.
  intros Hv Hmap Hlist. unfold field_of. destruct (unmanaged path key); [by left|].
  pose proof (normalized_regular v (child_path path key) Hv) as Hn.
  destruct v as [ |b|z|f|s|l|m]; try (right; by eexists).
  - right. case_decide; by eexists.
  - destruct (item_list _); [|right; by eexists]. specialize (Hlist l (default [] (as_list (assoc key obs))) eq_refl).
    destruct (items_from _ _ _ _ _) as [dl ol]. right. by eexists.
  - specialize (Hmap m (fields (as_map (assoc key obs))) eq_refl). destruct (maps _ _ _) as [dm om].
    destruct (_ && _); [by left|right; by eexists].
Qed.

Lemma fields_regular m obs path :
  NoDup m.*1 →
  (∀ k v, (k, v) ∈ m → (field_of maps k v obs path).1 = [] ∨ ∃ w, (field_of maps k v obs path).1 = [(k, w)] ∧ regular w) →
  regular (VMap (fields_from maps m obs path).1) ∧ ∀ k, k ∈ (fields_from maps m obs path).1.*1 → k ∈ m.*1.
Proof.
  induction m as [|[k v] m IH]; intros Hnd Hf; [split; [|done]; apply regular_map; split; [constructor|];
    intros k v Hin; by apply elem_of_nil in Hin|].
  apply NoDup_cons in Hnd as [Hk Hnd]. destruct (IH Hnd (λ k v Hin, Hf k v (list_elem_of_further _ _ _ Hin))) as [Hr Hsub].
  specialize (Hf k v (list_elem_of_here _ _)). simpl. destruct (fields_from maps m obs path) as [d o].
  destruct (field_of maps k v obs path) as [d1 o1]. simpl in *. apply regular_map in Hr as [Hnd' Hr].
  destruct Hf as [->|(w & -> & Hw)]; simpl.
  - split; [by apply regular_map|]. intros x Hx. right. by apply Hsub.
  - split.
    + apply regular_map. simpl. split; [apply NoDup_cons; split; [by intros Hin; apply Hk, Hsub|done]|].
      intros x y. rewrite elem_of_cons. intros [[= -> ->]|Hin]; [done|by eapply Hr].
    + intros x. rewrite !elem_of_cons. intros [->|Hx]; [by left|right; by apply Hsub].
Qed.
End regular.

Lemma compareVMMaps_regular v :
  regular v →
  (∀ path obs m, v = VMap m → regular (VMap (compareVMMaps v obs path).1)) ∧
  (∀ l, v = VList l → ∀ path obs m, VMap m ∈ l → regular (VMap (compareVMMaps (VMap m) obs path).1)).
Proof.
  induction v as [ |b|z|f|s|l IH|m IH] using value_ind'; intros Hv; try (split; intros; discriminate).
  - split; [intros; discriminate|]. intros l' [= <-] path obs m Hin. rewrite regular_list in Hv. rewrite Forall_forall in IH.
    by apply (IH _ Hin (Hv _ Hin)) with m.
  - split; [|intros; discriminate]. intros path obs m' _. simpl. apply regular_map in Hv as [Hnd Hv]. rewrite Forall_forall in IH.
    apply fields_regular; [done|]. intros k v Hin. specialize (IH _ Hin (Hv _ _ Hin)) as [Hm Hl]. simpl in *.
    apply field_regular; [by eapply Hv|intros m1 o ->; by eapply Hm|].
    intros l o ->. apply items_regular; [apply regular_list; by eapply Hv|]. intros m1 o1 Hm1. by eapply (Hl l).
Qed.

(** A machine that is observed exactly as it is declared shows no drift: the
    two projections are equal, and the server's comparison of them finds nothing,
    as long as the disks and the network devices of the declaration have names
    that differ. *)
Theorem ComparableVMSpecs_declared float_v float_f spec :
  regular (VMap spec) → declared_ok (VMap spec) "" = true →
  let '(d, o) := ComparableVMSpecs spec spec in d = o ∧ computeDrift float_v float_f (Some d) (Some o) = [].
Proof.
  intros Hr Hok. pose proof (compareVMMaps_self (VMap spec) "" spec eq_refl (proj1 Hr) Hok) as Heq.
  destruct (compareVMMaps_regular _ Hr) as [Hreg _]. specialize (Hreg "" spec spec eq_refl).
  unfold ComparableVMSpecs. destruct (compareVMMaps _ _ _) as [d o]. simpl in Heq. subst o. split; [done|].
  apply computeDrift_nil. by apply compare_refl; destruct Hreg.
Qed.

(** ** What does not matter in an observation *)

(** A list whose items are all maps. *)
Definition all_maps (l : list value) : Prop := ∀ v, v ∈ l → ∃ m, v = VMap m.

(** Two observations of one field of the declaration: equal, or, for the disks and
    the network devices, in another order. *)
Definition same_field (key : string) (v : value) (o o' : gomap) : Prop :=
  assoc key o = assoc key o' ∨
  (key ≠ "hostPCI" ∧ ∃ dl l l', v = VList dl ∧ all_maps dl ∧ assoc key o = Some (VList l) ∧ assoc key o' = Some (VList l') ∧
     l ≡ₚ l' ∧ named_apart l = true ∧ item_list key = true).

Lemma item_maps_perm l l' : l ≡ₚ l' → item_maps l ≡ₚ item_maps l'.
Proof. intros H. unfold item_maps. by apply omap_Permutation. Qed.

Lemma named_apart_perm l l' : l ≡ₚ l' → named_apart l = true → named_apart l' = true.
Proof.
  intros Hp. unfold named_apart. rewrite !andb_true_iff, !bool_decide_eq_true, !forallb_Forall_true.
  intros [Hf Hn]. split; [by rewrite <- (item_maps_perm _ _ Hp)|].
  eapply NoDup_Permutation_proper; [|exact Hn]. apply fmap_Permutation. symmetry. by apply item_maps_perm.
Qed.

Lemma find_named_Some name l m : find_named name l = Some m → VMap m ∈ l ∧ assoc "name" m = Some (VStr name).
Proof.
  induction l as [|v l IH]; simpl; [done|]. destruct (named name v) as [m'|] eqn:Hn.
  - intros [= ->]. destruct v as [ | | | | | |m']; simpl in Hn; try done. case_decide; [|done]. injection Hn as ->.
    split; [left|done].
  - intros H. destruct (IH H). split; [by right|done].
Qed.

Lemma find_named_perm name l l' : l ≡ₚ l' → named_apart l = true → find_named name l = find_named name l'.
Proof.
  intros Hp Hn. apply option_eq. intros m. split; intros [Hin Hname]%find_named_Some.
  - apply find_named_elem; [by eapply named_apart_perm|by rewrite <- Hp|done].
  - apply find_named_elem; [done|by rewrite Hp|done].
Qed.

Lemma items_perm maps i dl l l' path :
  path ≠ "hostPCI" → all_maps dl → l ≡ₚ l' → named_apart l = true →
  items_from maps i dl l path = items_from maps i dl l' path.
Proof.
  intros Hpath Hdl Hp Hn. revert i. induction dl as [|v dl IH]; intros i; [done|]. simpl.
  rewrite (IH (λ v Hin, Hdl v (list_elem_of_further _ _ _ Hin))). destruct (items_from maps (S i) dl l' path) as [d o].
  destruct (Hdl v (list_elem_of_here _ _)) as [m ->].
  assert (live_item path i m l = live_item path i m l') as ->; [|done].
  unfold live_item. rewrite !decide_False by done. destruct (as_str _); [|done]. by apply find_named_perm.
Qed.

(** A comparison depends on nothing but the managed fields of the declaration:
    what else is observed, and the order in which disks and network devices are
    listed, does not matter. *)
Theorem ComparableVMSpecs_observation desired o o' :
  (∀ k v, (k, v) ∈ desired → unmanaged "" k = false → same_field k v o o') →
  ComparableVMSpecs desired o = ComparableVMSpecs desired o'.
Proof.
  unfold ComparableVMSpecs. simpl. generalize compareVMMaps. intros maps H. induction desired as [|[k v] m IH]; [done|]. simpl.
  rewrite (IH (λ k v Hin, H k v (list_elem_of_further _ _ _ Hin))). specialize (H k v (list_elem_of_here _ _)).
  assert (field_of maps k v o "" = field_of maps k v o' "") as ->; [|done].
  unfold field_of. destruct (unmanaged "" k); [done|]. destruct (H eq_refl) as [->|(Hk & dl & l & l' & -> & Hdl & -> & -> & Hp & Hn & Hi)]; [done|].
  change (child_path "" k) with k. rewrite Hi. simpl. by rewrite (items_perm _ _ _ _ _ _ Hk Hdl Hp Hn).
Qed.

(** ** Witnesses *)

Lemma binaryDiskSize_canonical_witness :
  binaryDiskSize "1.5g" = binaryDiskSize "1536MiB" ∧ binaryDiskSize "99999999999999999999P" = "112589990684262399998874100093157376".
Proof.
  split; [|vm_compute; reflexivity].
  apply (binaryDiskSize_canonical "1.5g" "1536MiB" (15 * 2 ^ 30) 10 (1536 * 2 ^ 20) 1); vm_compute; reflexivity.
Defined.

Definition ex_disk (name size : string) : value := VMap [("name", VStr name); ("size", VStr size)].
Definition ex_spec : gomap :=
  [("context", VStr "homelab"); ("cpu", VMap [("cores", VInt 2)]); ("disks", VList [ex_disk "scsi0" "1.5G"; ex_disk "scsi1" "10G"]);
   ("cloudInit", VMap [("password", VStr "x")])].
Definition ex_live : gomap :=
  [("cpu", VMap [("cores", VInt 2); ("sockets", VInt 1)]); ("disks", VList [ex_disk "scsi1" "10240M"; ex_disk "scsi0" "1536M"])].

Lemma ComparableVMSpecs_declared_witness :
  let '(d, o) := ComparableVMSpecs ex_spec ex_spec in d = o ∧ computeDrift (λ _, "") (λ _, "") (Some d) (Some o) = [].
Proof.
  apply (ComparableVMSpecs_declared (λ _, "") (λ _, "") ex_spec); [split; vm_compute; reflexivity|vm_compute; reflexivity].
Defined.

Lemma ComparableVMSpecs_observation_witness :
  ComparableVMSpecs ex_spec ex_live = ComparableVMSpecs ex_spec (("uptime", VInt 7) ::
    [("cpu", VMap [("cores", VInt 2); ("sockets", VInt 1)]); ("disks", VList [ex_disk "scsi0" "1536M"; ex_disk "scsi1" "10240M"])]) ∧
  (let '(d, o) := ComparableVMSpecs ex_spec ex_live in computeDrift (λ _, "") (λ _, "") (Some d) (Some o)) = [].
Proof.
  split; [|vm_compute; reflexivity]. apply ComparableVMSpecs_observation. intros k v Hin _.
  unfold ex_spec in Hin. rewrite !elem_of_cons, elem_of_nil in Hin.
  destruct Hin as [[= -> ->]|[[= -> ->]|[[= -> ->]|[[= -> ->]|[]]]]]; try (left; reflexivity).
  right. split; [discriminate|]. eexists _, _, _. split_and!; try reflexivity.
  - intros v Hv. rewrite !elem_of_cons, elem_of_nil in Hv. destruct Hv as [->|[->|[]]]; by eexists.
  - apply Permutation_swap.
Defined.
