(* ===== verification/VMConfig.v ===== *)
(** The configuration of a Proxmox virtual machine, written and read back:
    ParseVMSpec and ToProxmoxConfig of src/pkg/proxmox/resources/vm.go, and
    src/pkg/proxmox/resources/vm_observation.go.

    A configuration is a map of parameters; a slot (net0, hostpci1, scsi0) is a text
    of options separated by commas. *)
From S2P Require Import Prelude GoStrings GoValue ClusterSpec ClusterPlan Drift NodeAgent VMCompare.
From Stdlib Require Import Ascii.
From Corelib Require Import Floats.SpecFloat.

(** ** The declaration *)

Record TemplateRef : Type := MkTemplateRef { t_Name : string; t_VMID : Z }.
Record ImageRef : Type := MkImageRef {
  i_Storage : string; i_File : string; i_ContentType : string; i_Format : string; i_TargetStorage : string;
  i_TargetFormat : string }.
Record CloudImageRef : Type := MkCloudImageRef {
  c_URL : string; c_Storage : string; c_Checksum : string; c_TemplateName : string; c_DiskStorage : string }.
Record CPUSpec : Type := MkCPUSpec { Cores : Z; Sockets : Z; CPUType : string }.
Record HostPCISpec : Type := MkHostPCI {
  h_Device : string; h_Mapping : string; h_PCIE : bool; h_PrimaryGPU : bool; h_ROMBAR : option bool; h_MDev : string;
  h_ROMFile : string }.
Record EFIDiskSpec : Type := MkEFIDisk { e_Storage : string; e_Type : string; e_PreEnrolledKeys : option bool }.
Record DiskSpec : Type := MkDiskSpec {
  d_Name : string; d_Storage : string; d_Size : string; d_SSD : bool; d_Discard : bool; d_IOThread : bool;
  d_Backup : option bool; d_Cache : string }.
Record NetworkSpec : Type := MkNetworkSpec {
  n_Name : string; n_Bridge : string; n_Model : string; n_VLAN : Z; n_Firewall : bool; n_MACAddress : string }.
Record IPConfig : Type := MkIPConfig { ip_IP : string; ip_Gateway : string }.
Record CloudInitSpec : Type := MkCloudInit {
  ci_User : string; ci_Password : string; ci_SSHKeys : list string; ci_SearchDomain : string; ci_Nameservers : list string;
  ci_IPConfig : list (string * IPConfig); ci_PackageUpgrade : option bool; ci_Packages : list string;
  ci_RunCmd : list string }.

Record VMSpec : Type := MkVMSpec {
  v_Node : string; v_Template : option TemplateRef; v_Image : option ImageRef; v_CloudImage : option CloudImageRef;
  v_CPU : option CPUSpec; v_Memory : option Z; v_Disks : list DiskSpec; v_Networks : list NetworkSpec;
  v_CloudInit : option CloudInitSpec; v_StartOnCreate : bool; v_OSType : string; v_BIOS : string; v_Machine : string;
  v_Agent : option bool; v_HostPCI : list HostPCISpec; v_EFIDisk : option EFIDiskSpec }.

(** [m[key].(bool)], when it is one. *)
Definition opt_bool (key : string) (m : gomap) : option bool := as_bool (assoc key m).
Definition bool_or_false (key : string) (m : gomap) : bool := default false (opt_bool key m).

(** The maps among the items of a list field. *)
Definition map_items (key : string) (m : gomap) : list gomap := item_maps (default [] (as_list (assoc key m))).

(** The blocks of [ParseVMSpec] *)
Definition parse_template (m : gomap) : TemplateRef := MkTemplateRef (str_field "name" m) (int_field "vmid" m).
Definition parse_image (m : gomap) : ImageRef :=
  MkImageRef (str_field "storage" m) (str_field "file" m) (str_field "contentType" m) (str_field "format" m)
    (str_field "targetStorage" m) (str_field "targetFormat" m).
Definition parse_cloud_image (m : gomap) : CloudImageRef :=
  MkCloudImageRef (str_field "url" m) (str_field "storage" m) (str_field "checksum" m) (str_field "templateName" m)
    (str_field "diskStorage" m).
Definition parse_cpu (m : gomap) : CPUSpec := MkCPUSpec (int_field "cores" m) (int_field "sockets" m) (str_field "type" m).
Definition parse_hostpci (m : gomap) : HostPCISpec :=
  MkHostPCI (str_field "device" m) (str_field "mapping" m) (bool_or_false "pcie" m) (bool_or_false "primaryGPU" m)
    (opt_bool "rombar" m) (str_field "mdev" m) (str_field "romfile" m).
Definition parse_efi (m : gomap) : EFIDiskSpec :=
  MkEFIDisk (str_field "storage" m) (str_field "type" m) (opt_bool "preEnrolledKeys" m).
Definition parse_disk (m : gomap) : DiskSpec :=
  MkDiskSpec (str_field "name" m) (str_field "storage" m) (str_field "size" m) (bool_or_false "ssd" m)
    (bool_or_false "discard" m) (bool_or_false "iothread" m) (opt_bool "backup" m) (str_field "cache" m).
Definition parse_network (m : gomap) : NetworkSpec :=
  MkNetworkSpec (str_field "name" m) (str_field "bridge" m) (str_field "model" m) (int_field "vlan" m)
    (bool_or_false "firewall" m) (str_field "macAddress" m).
Definition parse_ip_config (m : gomap) : list (string * IPConfig) :=
  omap (λ p, match p.2 with
             | VMap c => Some (p.1, MkIPConfig (str_field "ip" c) (str_field "gateway" c))
             | _ => None
             end) m.
Definition parse_cloud_init (m : gomap) : CloudInitSpec :=
  MkCloudInit (str_field "user" m) (str_field "password" m) (parseStringSlice (assoc "sshKeys" m)) (str_field "searchDomain" m)
    (parseStringSlice (assoc "nameservers" m)) (parse_ip_config (fields (map_field "ipConfig" m)))
    (opt_bool "packageUpgrade" m) (parseStringSlice (assoc "packages" m)) (parseStringSlice (assoc "runcmd" m)).

(** [ParseVMSpec]; a nil spec is an empty one. *)
Definition ParseVMSpec (spec : gomap) : VMSpec :=
  MkVMSpec (str_field "node" spec) (parse_template <$> map_field "template" spec) (parse_image <$> map_field "image" spec)
    (parse_cloud_image <$> map_field "cloudImage" spec) (parse_cpu <$> map_field "cpu" spec)
    (int_field "size" <$> map_field "memory" spec) (map parse_disk (map_items "disks" spec))
    (map parse_network (map_items "networks" spec)) (parse_cloud_init <$> map_field "cloudInit" spec)
    (bool_or_false "startOnCreate" spec) (str_field "osType" spec) (str_field "bios" spec) (str_field "machine" spec)
    (bool_or_false "enabled" <$> map_field "agent" spec) (map parse_hostpci (map_items "hostPCI" spec))
    (parse_efi <$> map_field "efiDisk" spec).

(** ** The parameters *)

Definition flag (b : bool) (s : string) : list string := if b then [s] else [].
Definition opt (key s : string) : list string := if nonempty s then [key +:+ "=" +:+ s] else [].

(** [configString] of a host PCI device *)
Definition hostpci_string (h : HostPCISpec) : string :=
  join "," ((if nonempty (h_Mapping h) then "mapping=" +:+ h_Mapping h else h_Device h) ::
    flag (h_PCIE h) "pcie=1" ++ flag (h_PrimaryGPU h) "x-vga=1" ++ flag (negb (default true (h_ROMBAR h))) "rombar=0" ++
    opt "mdev" (h_MDev h) ++ opt "romfile" (h_ROMFile h)).

(** [configString] of an EFI disk *)
Definition efi_string (e : EFIDiskSpec) : string :=
  e_Storage e +:+ ":1,efitype=" +:+ (if nonempty (e_Type e) then e_Type e else "4m") +:+ ",pre-enrolled-keys=" +:+
  (if default false (e_PreEnrolledKeys e) then "1" else "0").

(** [Options] of a disk *)
Definition Options (d : DiskSpec) : list (string * string) :=
  (if d_SSD d then [("ssd", "1")] else []) ++ (if d_Discard d then [("discard", "on")] else []) ++
  (if d_IOThread d then [("iothread", "1")] else []) ++
  (match d_Backup d with Some b => [("backup", if b then "1" else "0")] | None => [] end) ++
  (if nonempty (d_Cache d) then [("cache", d_Cache d)] else []).

(** The text of a network device. *)
Definition network_string (n : NetworkSpec) : string :=
  let model := if nonempty (n_Model n) then n_Model n else "virtio" in
  join "," ((if nonempty (n_MACAddress n) then model +:+ "=" +:+ n_MACAddress n else model) ::
    ("bridge=" +:+ n_Bridge n) :: (if (0 <? n_VLAN n)%Z then ["tag=" +:+ pretty (n_VLAN n)] else []) ++
    flag (n_Firewall n) "firewall=1").

(** The [ipconfig] parameter of an interface, if there is one. *)
Definition ip_string (c : IPConfig) : option string :=
  if decide (ip_IP c = "dhcp") then Some "ip=dhcp"
  else if nonempty (ip_IP c) then Some (join "," (("ip=" +:+ ip_IP c) :: opt "gw" (ip_Gateway c))) else None.

(** [url.QueryEscape], a byte at a time. *)
Definition hex_digit (n : nat) : ascii := ascii_of_nat (if n <? 10 then 48 + n else 55 + n).
Definition unreserved (c : ascii) : bool :=
  let n := nat_of_ascii c in
  ((48 <=? n) && (n <=? 57)) || ((65 <=? n) && (n <=? 90)) || ((97 <=? n) && (n <=? 122)) ||
  bool_decide (c ∈ ["-"; "_"; "."; "~"]%char).
Definition escape_byte (c : ascii) : string :=
  if decide (c = " "%char) then "+"
  else if unreserved c then String c ""
  else let n := nat_of_ascii c in String "%" (String (hex_digit (n / 16)) (String (hex_digit (n mod 16)) "")).
Fixpoint QueryEscape (s : string) : string :=
  match s with
  | EmptyString => EmptyString
  | String c s' => escape_byte c +:+ QueryEscape s'
  end.

(** The [sshkeys] parameter *)
Definition encode_keys (keys : list string) : string := replace_all "+" "%20" (QueryEscape (join (String newline "") keys)).

Definition pstr (key s : string) : gomap := if nonempty s then [(key, VStr s)] else [].
Definition pint (key : string) (z : Z) : gomap := if (0 <? z)%Z then [(key, VInt z)] else [].

(** The devices that are attached, in order. *)
Definition attached (l : list HostPCISpec) : list HostPCISpec :=
  filter (λ h, ¬ (h_Device h = "" ∧ h_Mapping h = "")) l.

Definition cloud_init_params (ci : CloudInitSpec) : gomap :=
  [("ciupgrade", VInt (if default false (ci_PackageUpgrade ci) then 1 else 0))] ++ pstr "ciuser" (ci_User ci) ++
  pstr "cipassword" (ci_Password ci) ++
  (match ci_SSHKeys ci with [] => [] | l => [("sshkeys", VStr (encode_keys l))] end) ++
  pstr "searchdomain" (ci_SearchDomain ci) ++
  (match ci_Nameservers ci with [] => [] | l => [("nameserver", VStr (join " " l))] end) ++
  omap (λ p, (λ s, ("ipconfig" +:+ trim_prefix "net" p.1, VStr s)) <$> ip_string p.2) (ci_IPConfig ci).

(** What is assigned to the parameters, in order. *)
Definition assignments (s : VMSpec) : gomap :=
  (match v_CPU s with
   | Some c => pint "cores" (Cores c) ++ pint "sockets" (Sockets c) ++ pstr "cpu" (CPUType c)
   | None => []
   end) ++
  pint "memory" (default 0%Z (v_Memory s)) ++ pstr "ostype" (v_OSType s) ++ pstr "bios" (v_BIOS s) ++ pstr "machine" (v_Machine s) ++
  (if default false (v_Agent s) then [("agent", VStr "1")] else []) ++
  (match v_EFIDisk s with
   | Some e => if nonempty (e_Storage e) then [("efidisk0", VStr (efi_string e))] else []
   | None => []
   end) ++
  imap (λ i h, ("hostpci" +:+ pretty i, VStr (hostpci_string h))) (attached (v_HostPCI s)) ++
  map (λ n, (n_Name n, VStr (network_string n))) (v_Networks s) ++
  (match v_CloudInit s with Some ci => cloud_init_params ci | None => [] end).

(** [ToProxmoxConfig]: a later assignment of one key wins. *)
Definition ToProxmoxConfig (s : VMSpec) : gomap := foldl (λ m p, assoc_set p.1 p.2 m) [] (assignments s).

(** ** The observation *)

(** [configParts]: the text before the first comma, and the options; the last value
    of a key wins. *)
Definition configParts (v : string) : string * list (string * string) :=
  let parts := split_on "," v in
  (default "" (head parts), foldl (λ m p, match cut_byte "=" p with Some (k, x) => assoc_set k x m | None => m end) [] parts).

(** [configFlag] *)
Fixpoint enabled_part (parts : list string) : option string :=
  match parts with
  | [] => None
  | p :: parts' => match cut_prefix "enabled=" p with Some e => Some e | None => enabled_part parts' end
  end.

Definition configFlag (v : string) (fallback : bool) : bool :=
  if decide (v = "") then fallback
  else let head := default (default "" (head (split_on "," v))) (enabled_part (split_on "," v)) in
       bool_decide (head ∈ ["1"; "on"; "yes"; "true"]).

(** The digits at the end of a key; the reversed text is split. *)
Fixpoint digits_suffix (s : string) : string * string :=
  match s with
  | EmptyString => (EmptyString, EmptyString)
  | String c s' =>
      let '(p, d) := digits_suffix s' in
      if nonempty p then (String c p, d) else if is_digit c then (EmptyString, String c d) else (String c EmptyString, d)
  end.

(** [n, _ := strconv.Atoi(s)]: zero for what is no number, the nearest number for
    one that is out of range. *)
Definition atoi_lax (s : string) : Z :=
  let '(sign, ds) := match s with
                     | String c s' => if decide (c = "-"%char) then ((-1)%Z, s') else if decide (c = "+"%char) then (1%Z, s') else (1%Z, s)
                     | EmptyString => (1%Z, s)
                     end in
  match ds with
  | EmptyString => 0%Z
  | _ => match digits_value 0 ds with Some v => Z.max int64_min (Z.min (sign * v) int64_max) | None => 0%Z end
  end.

(** [slotIndex] *)
Definition slotIndex (key : string) : string * Z := let '(p, d) := digits_suffix key in (p, atoi_lax d).

(** [numberedSlot] *)
Definition numberedSlot (key : string) (prefixes : list string) : bool :=
  let p := (slotIndex key).1 in if decide (p = key) then false else bool_decide (p ∈ prefixes).

(** [config.Raw] and the typed fields *)
Record vm_config : Type := MkVMConfig {
  vc_Cores : Z; vc_Sockets : Z; vc_Memory : Z; vc_OSType : string; vc_SCSI0 : string; vc_Net0 : string; vc_IDE2 : string;
  vc_IPConfig0 : string; vc_CIUser : string; vc_SSHKeys : string; Raw : gomap }.

(** [url.PathUnescape]; [None] for a bad escape. *)
Definition unhex (c : ascii) : option nat :=
  let n := nat_of_ascii c in
  if (48 <=? n) && (n <=? 57) then Some (n - 48)
  else if (97 <=? n) && (n <=? 102) then Some (n - 87)
  else if (65 <=? n) && (n <=? 70) then Some (n - 55) else None.
Fixpoint PathUnescape (s : string) : option string :=
  match s with
  | EmptyString => Some EmptyString
  | String c s' =>
      if decide (c = "%"%char) then
        match s' with
        | String a (String b s'') =>
            x ← unhex a; y ← unhex b; r ← PathUnescape s''; Some (String (ascii_of_nat (16 * x + y)) r)
        | _ => None
        end
      else r ← PathUnescape s'; Some (String c r)
  end.

(** The prefixes of the slots that are read. *)
Definition slot_prefixes : list string := ["scsi"; "sata"; "ide"; "virtio"; "net"; "ipconfig"; "hostpci"].

Definition raw_slots (raw : gomap) : list (string * string) :=
  omap (λ p,
    if numberedSlot p.1 slot_prefixes || bool_decide (p.1 = "efidisk0")
    then match p.2 with VStr s => Some (p.1, s) | _ => None end else None) raw.

(** A typed field counts where the raw configuration has no such slot. *)
Definition slots (config : vm_config) : list (string * string) :=
  let raw := raw_slots (Raw config) in
  raw ++ filter (λ p, p.2 ≠ "" ∧ p.1 ∉ raw.*1)
    [("scsi0", vc_SCSI0 config); ("net0", vc_Net0 config); ("ide2", vc_IDE2 config); ("ipconfig0", vc_IPConfig0 config)].

Definition slot_compare (a b : string * string) : comparison :=
  pair_compare String.compare Z.compare (slotIndex a.1) (slotIndex b.1).

(** What a slot contributes. *)
Inductive contribution : Type :=
| CNetwork (m : gomap)
| CAddress (iface : string) (m : gomap)
| CHostPCI (index : Z) (m : gomap)
| CEFIDisk (m : gomap)
| CDisk (m : gomap)
| CNothing.

#[export] Instance contribution_eq_dec : EqDecision contribution.
Proof. solve_decision. Defined.

Definition opt_of (key : string) (opts : list (string * string)) : string := default "" (assoc key opts).

(** [strings.Cut(s, sep)]: the parts before and after, the second one empty if there
    is no separator. *)
Definition Cut (sep : ascii) (s : string) : string * string := default (s, "") (cut_byte sep s).

Definition read_network (key head : string) (opts : list (string * string)) : gomap :=
  let '(model, mac) := Cut "=" head in
  [("name", VStr key); ("model", VStr model); ("macAddress", VStr mac); ("bridge", VStr (opt_of "bridge" opts));
   ("vlan", VInt (atoi_lax (opt_of "tag" opts))); ("firewall", VBool (configFlag (opt_of "firewall" opts) false))].

Definition read_hostpci (head : string) (opts : list (string * string)) : gomap :=
  [("device", VStr (if contains "=" head then opt_of "host" opts else head)); ("mapping", VStr (opt_of "mapping" opts));
   ("pcie", VBool (configFlag (opt_of "pcie" opts) false)); ("primaryGPU", VBool (configFlag (opt_of "x-vga" opts) false));
   ("rombar", VBool (configFlag (opt_of "rombar" opts) true)); ("mdev", VStr (opt_of "mdev" opts));
   ("romfile", VStr (opt_of "romfile" opts))].

Definition read_efi (head : string) (opts : list (string * string)) : gomap :=
  [("storage", VStr (Cut ":" (trim_prefix "file=" head)).1);
   ("type", VStr (if nonempty (opt_of "efitype" opts) then opt_of "efitype" opts else "2m"));
   ("preEnrolledKeys", VBool (configFlag (opt_of "pre-enrolled-keys" opts) false))].

Definition read_disk (key head : string) (opts : list (string * string)) : gomap :=
  [("name", VStr key); ("storage", VStr (Cut ":" head).1); ("ssd", VBool (configFlag (opt_of "ssd" opts) false));
   ("discard", VBool (configFlag (opt_of "discard" opts) false)); ("iothread", VBool (configFlag (opt_of "iothread" opts) false));
   ("backup", VBool (configFlag (opt_of "backup" opts) true));
   ("cache", VStr (if nonempty (opt_of "cache" opts) then opt_of "cache" opts else "none"))] ++
  (match assoc "size" opts with Some size => [("size", VStr size)] | None => [] end).

(** The body of the loop over the slots. *)
Definition read_slot (p : string * string) : contribution :=
  let '(key, text) := p in
  let '(head, opts) := configParts text in
  if numberedSlot key ["net"] then CNetwork (read_network key head opts)
  else if numberedSlot key ["ipconfig"] then
    CAddress ("net" +:+ trim_prefix "ipconfig" key) [("ip", VStr (opt_of "ip" opts)); ("gateway", VStr (opt_of "gw" opts))]
  else if numberedSlot key ["hostpci"] then CHostPCI (slotIndex key).2 (read_hostpci head opts)
  else if decide (key = "efidisk0") then CEFIDisk (read_efi head opts)
  else
    let head := trim_prefix "file=" head in
    if bool_decide (opt_of "media" opts = "cdrom") || contains "cloudinit" head || bool_decide (head = "none") then CNothing
    else CDisk (read_disk key head opts).

(** [for len(pci) <= index { pci = append(pci, nil) }; pci[index] = m] *)
Definition pci_set (index : Z) (m : gomap) (pci : list value) : list value :=
  let i := Z.to_nat index in <[i := VMap m]> (pci ++ replicate (S i - length pci) VNull)%list.

Definition read_slots (config : vm_config) : list contribution := map read_slot (sort_func slot_compare (slots config)).

Definition observed_networks (l : list contribution) : list value :=
  omap (λ c, match c with CNetwork m => Some (VMap m) | _ => None end) l.
Definition observed_disks (l : list contribution) : list value :=
  omap (λ c, match c with CDisk m => Some (VMap m) | _ => None end) l.
Definition observed_pci (l : list contribution) : list value :=
  foldl (λ pci c, match c with CHostPCI i m => pci_set i m pci | _ => pci end) [] l.
Definition observed_ips (l : list contribution) : gomap :=
  foldl (λ ips c, match c with CAddress i m => assoc_set i (VMap m) ips | _ => ips end) [] l.
Definition observed_efi (l : list contribution) : option gomap :=
  foldl (λ e c, match c with CEFIDisk m => Some m | _ => e end) None l.

Section observe.
Context (float_v : spec_float → string).

(** [text] *)
Definition raw_text (config : vm_config) (key fallback : string) : string :=
  match assoc key (Raw config) with
  | Some (VStr s) => s
  | Some v => sprint_v float_v v
  | None => fallback
  end.

Definition or_default (z d : Z) : Z := if decide (z = 0%Z) then d else z.

(** The authorized keys; a text with a bad escape is kept as it is. *)
Definition observed_keys (config : vm_config) : list value :=
  let text := raw_text config "sshkeys" (vc_SSHKeys config) in
  let decoded := default text (PathUnescape text) in
  map VStr (filter (λ k, k ≠ "") (map trim_space (split_on newline decoded))).

Definition observed_cloud_init (config : vm_config) (l : list contribution) : gomap :=
  let user := raw_text config "ciuser" (vc_CIUser config) in
  [("ipConfig", VMap (observed_ips l)); ("packageUpgrade", VBool (configFlag (raw_text config "ciupgrade" "1") true))] ++
  pstr "user" user ++
  [("sshKeys", VList (observed_keys config)); ("searchDomain", VStr (raw_text config "searchdomain" ""));
   ("nameservers", VList (map VStr (Fields (raw_text config "nameserver" ""))))].

(** [observeVMConfig], on a spec that holds the node. *)
Definition observeVMConfig (node : string) (config : vm_config) : gomap :=
  let l := read_slots config in
  let cpu := trim_prefix "cputype=" (configParts (raw_text config "cpu" "kvm64")).1 in
  let os := raw_text config "ostype" (vc_OSType config) in
  [("node", VStr node);
   ("cpu", VMap [("cores", VInt (or_default (vc_Cores config) 1)); ("sockets", VInt (or_default (vc_Sockets config) 1));
                 ("type", VStr cpu)]);
   ("memory", VMap [("size", VInt (or_default (vc_Memory config) 512))]);
   ("agent", VMap [("enabled", VBool (configFlag (raw_text config "agent" "0") false))]);
   ("osType", VStr (if nonempty os then os else "other")); ("bios", VStr (raw_text config "bios" "seabios"));
   ("machine", VStr (raw_text config "machine" "pc"))] ++
  (match observed_efi l with Some m => [("efiDisk", VMap m)] | None => [] end) ++
  [("disks", VList (observed_disks l)); ("networks", VList (observed_networks l)); ("hostPCI", VList (observed_pci l));
   ("cloudInit", VMap (observed_cloud_init config l))].
End observe.

(** ** Laws of texts *)

Lemma replace_byte_cons c new x s :
  replace_all (String c "") new (String x s) = (if decide (c = x) then new else String x "") +:+ replace_all (String c "") new s.
Proof.
  unfold replace_all. cbn [replace_from]. assert (has_prefix (String c "") (String x s) = bool_decide (c = x)) as ->.
  { unfold has_prefix. simpl. destruct (Ascii.ascii_dec c x); [by rewrite bool_decide_true; destruct s|by rewrite bool_decide_false]. }
  case_bool_decide; by case_decide.
Qed.

(** A one-byte pattern is replaced byte by byte. *)
Lemma replace_byte_app c new a b :
  replace_all (String c "") new (a +:+ b) = replace_all (String c "") new a +:+ replace_all (String c "") new b.
Proof. induction a as [|x a IH]; [done|]. by rewrite str_app_cons, !replace_byte_cons, IH, str_app_assoc. Qed.

(** The escape of a byte as it is sent. *)
Definition path_byte (c : ascii) : string := replace_all "+" "%20" (escape_byte c).

(** What unescaping the escape of a byte meets. *)
Definition path_check (c : ascii) : bool :=
  match path_byte c with
  | String p (String a (String b EmptyString)) =>
      bool_decide (p = "%"%char) &&
      match unhex a, unhex b with Some x, Some y => bool_decide (ascii_of_nat (16 * x + y) = c) | _, _ => false end
  | String d EmptyString => bool_decide (d = c) && negb (bool_decide (c = "%"%char))
  | _ => false
  end.

Lemma path_check_all c : path_check c = true.
Proof. destruct c as [[] [] [] [] [] [] [] []]; vm_compute; reflexivity. Qed.

Lemma path_byte_cases c :
  (∃ a b x y, path_byte c = String "%" (String a (String b "")) ∧ unhex a = Some x ∧ unhex b = Some y ∧ ascii_of_nat (16 * x + y) = c) ∨
  (path_byte c = String c "" ∧ c ≠ "%"%char).
Proof.
  pose proof (path_check_all c) as H. unfold path_check in H. destruct (path_byte c) as [|p [|a [|b [|]]]]; try done.
  - apply andb_true_iff in H as [->%bool_decide_eq_true H]. right. split; [done|]. by apply negb_true_iff, bool_decide_eq_false in H.
  - apply andb_true_iff in H as [->%bool_decide_eq_true H]. destruct (unhex a) as [x|] eqn:Ha, (unhex b) as [y|] eqn:Hb; try done.
    apply bool_decide_eq_true in H. left. by exists a, b, x, y.
Qed.

Lemma PathUnescape_byte c s : PathUnescape (path_byte c +:+ s) = (String c) <$> PathUnescape s.
Proof.
  destruct (path_byte_cases c) as [(a & b & x & y & -> & Ha & Hb & Hc)|[-> Hc]]; rewrite !str_app_cons; change ("" +:+ s) with s.
  - simpl. rewrite Ha, Hb. simpl. rewrite <- Hc. by destruct (PathUnescape s).
  - simpl. rewrite decide_False by done. by destruct (PathUnescape s).
Qed.

(** Escaping and unescaping a text. *)
Lemma PathUnescape_QueryEscape s : PathUnescape (replace_all "+" "%20" (QueryEscape s)) = Some s.
Proof.
  induction s as [|c s IH]; [done|]. simpl. rewrite replace_byte_app. fold (path_byte c). by rewrite PathUnescape_byte, IH.
Qed.

Lemma digits_suffix_app p d :
  (match p with EmptyString => False | _ => True end) → (∃ q c, p = q +:+ String c "" ∧ is_digit c = false) →
  all_digits d = true → digits_suffix (p +:+ d) = (p, d).
Proof.
  intros _ (q & c & -> & Hc) Hd.
  assert (digits_suffix d = ("", d)) as Hdd.
  { induction d as [|x d IH]; [done|]. simpl in *. apply andb_true_iff in Hd as [Hx Hd]. rewrite IH by done. simpl. by rewrite Hx. }
  induction q as [|x q IH].
  - change ("" +:+ String c "") with (String c ""). rewrite str_app_cons. change ("" +:+ d) with d. simpl. rewrite Hdd. simpl.
    by rewrite Hc.
  - rewrite !str_app_cons. simpl. rewrite IH. unfold nonempty. rewrite bool_decide_true; [done|]. by destruct q.
Qed.

Lemma slotIndex_pretty q c (i : nat) :
  is_digit c = false → (Z.of_nat i ≤ int64_max)%Z →
  slotIndex ((q +:+ String c "") +:+ pretty i) = (q +:+ String c "", Z.of_nat i).
Proof.
  intros Hc Hi. unfold slotIndex. rewrite digits_suffix_app; [|by destruct q|by exists q, c|by apply pretty_nat_digits].
  f_equal. assert (pretty i = pretty (Z.of_nat i)) as -> by by destruct i.
  destruct (pretty_Z_nonempty (Z.of_nat i)) as (x & s & Hs & Hx); [lia|]. unfold atoi_lax. rewrite Hs.
  destruct (is_digit_not_blank x Hx) as (_ & H1 & H2). rewrite !decide_False by done. rewrite <- Hs, digits_value_pretty by lia.
  unfold int64_min. lia.
Qed.

Lemma numberedSlot_pretty q c (i : nat) prefixes :
  is_digit c = false → (Z.of_nat i ≤ int64_max)%Z →
  numberedSlot ((q +:+ String c "") +:+ pretty i) prefixes = bool_decide (q +:+ String c "" ∈ prefixes).
Proof.
  intros Hc Hi. unfold numberedSlot. rewrite slotIndex_pretty by done. simpl. rewrite decide_False; [done|].
  intros E. apply (f_equal String.length) in E. rewrite (str_length_app (q +:+ String c "")) in E.
  destruct (pretty_Z_nonempty (Z.of_nat i)) as (x & s & Hs & _); [lia|].
  assert (pretty i = pretty (Z.of_nat i)) as Hp by by destruct i. rewrite Hp, Hs in E. simpl in E. lia.
Qed.

(** ** Laws of slots *)

(** A text that is one option's value. *)
Definition option_text (s : string) : Prop := no_byte "," s ∧ no_byte "=" s.

Definition render_opt (p : string * string) : string := p.1 +:+ "=" +:+ p.2.

Lemma cut_render_opt k x : no_byte "=" k → cut_byte "=" (render_opt (k, x)) = Some (k, x).
Proof. intros Hk. exact (cut_byte_app "=" k x Hk). Qed.

Definition set_all (m : list (string * string)) (l : list (string * string)) : list (string * string) :=
  foldl (λ m p, assoc_set p.1 p.2 m) m l.

Lemma assoc_set_all {V} k (l : list (string * V)) m :
  assoc k (foldl (λ m p, assoc_set p.1 p.2 m) m l) = match assoc k (reverse l) with Some v => Some v | None => assoc k m end.
Proof.
  induction l as [|[j v] l IH] using rev_ind; [done|]. rewrite foldl_app, reverse_app. simpl.
  destruct (decide (k = j)) as [->|Hne]; [by rewrite assoc_set_eq|by rewrite assoc_set_ne by done].
Qed.

Lemma configParts_render head opts :
  no_byte "," head → Forall (λ p, option_text p.1 ∧ no_byte "," p.2) opts →
  configParts (join "," (head :: map render_opt opts)) =
    (head, set_all (match cut_byte "=" head with Some p => [p] | None => [] end) opts).
Proof.
  intros Hh Ho. unfold configParts. rewrite split_on_join; [|done|].
  - simpl. f_equal. assert (∀ m, foldl (λ m p, match cut_byte "=" p with Some (k, x) => assoc_set k x m | None => m end) m
      (map render_opt opts) = set_all m opts) as ->.
    { unfold set_all. induction Ho as [|[k x] l [[_ Hk] _] _ IH]; intros m; [done|].
      cbn [map foldl]. rewrite (cut_render_opt k x Hk). apply IH. }
    by destruct (cut_byte "=" head) as [[]|].
  - constructor; [done|]. induction Ho as [|[k x] l [[Hk _] Hx] _ IH]; constructor; [|done].
    unfold render_opt. simpl. rewrite !no_byte_app. split_and!; [done|by_decide|done].
Qed.

(** Looking an option up. *)
Lemma opt_of_set_all k m l : NoDup l.*1 → opt_of k (set_all m l) = default (opt_of k m) (assoc k l).
Proof.
  intros Hnd. unfold opt_of, set_all. rewrite assoc_set_all. rewrite (assoc_Permutation k (reverse l) l).
  - by destruct (assoc k l).
  - rewrite fmap_reverse. by rewrite reverse_Permutation.
  - apply reverse_Permutation.
Qed.

Lemma contains_byte c s : no_byte c s → contains (String c "") s = false.
Proof.
  induction s as [|x s IH]; [done|]. intros [Hx Hs]. simpl. rewrite IH by done. rewrite orb_false_r.
  unfold has_prefix. simpl. destruct (Ascii.ascii_dec c x); [congruence|done].
Qed.

Lemma contains_byte_app c a b : contains (String c "") (a +:+ String c b) = true.
Proof.
  induction a as [|x a IH].
  - change ("" +:+ String c b) with (String c b). simpl. apply orb_true_iff. left. exact (has_prefix_app (String c "") b).
  - rewrite str_app_cons. simpl. rewrite IH. apply orb_true_r.
Qed.

(** What is read back of a host PCI device: with a mapping its device is not
    written. *)
Definition expected_pci (h : HostPCISpec) : gomap :=
  [("device", VStr (if nonempty (h_Mapping h) then "" else h_Device h)); ("mapping", VStr (h_Mapping h)); ("pcie", VBool (h_PCIE h));
   ("primaryGPU", VBool (h_PrimaryGPU h)); ("rombar", VBool (default true (h_ROMBAR h))); ("mdev", VStr (h_MDev h));
   ("romfile", VStr (h_ROMFile h))].

Definition pci_texts (h : HostPCISpec) : Prop :=
  option_text (h_Device h) ∧ no_byte "," (h_Mapping h) ∧ no_byte "," (h_MDev h) ∧ no_byte "," (h_ROMFile h).

Definition opt_if (b : bool) (p : string * string) : list (string * string) := if b then [p] else [].

Definition pci_opts (h : HostPCISpec) : list (string * string) :=
  opt_if (h_PCIE h) ("pcie", "1") ++ opt_if (h_PrimaryGPU h) ("x-vga", "1") ++
  opt_if (negb (default true (h_ROMBAR h))) ("rombar", "0") ++ opt_if (nonempty (h_MDev h)) ("mdev", h_MDev h) ++
  opt_if (nonempty (h_ROMFile h)) ("romfile", h_ROMFile h).

Lemma nonempty_cases s : (nonempty s = true ∧ s ≠ "") ∨ (nonempty s = false ∧ s = "").
Proof. destruct (decide (s = "")) as [->|H]; [by right|]. left. unfold nonempty. by rewrite bool_decide_true. Qed.

(** Options that are present or not. *)
Lemma assoc_opt_if k b p l :
  assoc k (opt_if b p ++ l) = if decide (k = p.1) then if b then Some p.2 else assoc k l else assoc k l.
Proof. destruct p, b; simpl; by case_decide. Qed.

Lemma NoDup_opt_if b p l : p.1 ∉ l.*1 → NoDup l.*1 → NoDup (opt_if b p ++ l).*1.
Proof. intros Hp Hl. destruct b; [|done]. by apply NoDup_cons. Qed.

Lemma pci_opts_keys h : NoDup (pci_opts h).*1.
Proof.
  unfold pci_opts. rewrite <- (app_nil_r (opt_if (nonempty (h_ROMFile h)) _)).
  repeat (apply NoDup_opt_if; [unfold opt_if; simpl; repeat case_match; by_decide|]). constructor.
Qed.

Lemma pci_opts_assoc k h :
  assoc k (pci_opts h) =
    if decide (k = "pcie") then if h_PCIE h then Some "1" else None
    else if decide (k = "x-vga") then if h_PrimaryGPU h then Some "1" else None
    else if decide (k = "rombar") then if default true (h_ROMBAR h) then None else Some "0"
    else if decide (k = "mdev") then if nonempty (h_MDev h) then Some (h_MDev h) else None
    else if decide (k = "romfile") then if nonempty (h_ROMFile h) then Some (h_ROMFile h) else None
    else None.
Proof.
  unfold pci_opts. rewrite <- (app_nil_r (opt_if (nonempty (h_ROMFile h)) _)), !assoc_opt_if. simpl.
  repeat (case_decide; [by subst; repeat case_match|]). done.
Qed.

Lemma default_nonempty s : default "" (if nonempty s then Some s else None) = s.
Proof. destruct (decide (s = "")) as [->|H]; [done|]. unfold nonempty. by rewrite bool_decide_true. Qed.

Lemma read_hostpci_string i h :
  (Z.of_nat i ≤ int64_max)%Z → pci_texts h →
  read_slot ("hostpci" +:+ pretty i, hostpci_string h) = CHostPCI (Z.of_nat i) (expected_pci h).
Proof.
  intros Hi (Hd & Hm & Hv & Hr).
  assert (hostpci_string h = join "," ((if nonempty (h_Mapping h) then "mapping=" +:+ h_Mapping h else h_Device h) ::
    map render_opt (pci_opts h))) as ->.
  { unfold hostpci_string, pci_opts, flag, opt, opt_if. do 2 f_equal.
    by destruct (h_PCIE h), (h_PrimaryGPU h), (negb _), (nonempty (h_MDev h)), (nonempty (h_ROMFile h)). }
  unfold read_slot. rewrite configParts_render.
  - pose proof (slotIndex_pretty "hostpc" "i" i eq_refl Hi) as Hslot.
    pose proof (λ ps, numberedSlot_pretty "hostpc" "i" i ps eq_refl Hi) as Hnum.
    change ("hostpc" +:+ String "i" "") with "hostpci" in Hslot, Hnum. rewrite !Hnum, Hslot. simpl. f_equal.
    unfold read_hostpci, expected_pci. rewrite !opt_of_set_all by apply pci_opts_keys.
    assert (∀ b : bool, configFlag (default "" (if b then Some "1" else None)) false = b) as Hflag by (intros b; by destruct b).
    assert (configFlag (default "" (if default true (h_ROMBAR h) then None else Some "0")) true = default true (h_ROMBAR h)) as Hrom
      by (by destruct (default true (h_ROMBAR h))).
    destruct (nonempty_cases (h_Mapping h)) as [[-> _]|[-> ->]].
    + assert (cut_byte "=" ("mapping=" +:+ h_Mapping h) = Some ("mapping", h_Mapping h)) as ->
        by (apply (cut_byte_app "=" "mapping"); by_decide).
      assert (contains "=" ("mapping=" +:+ h_Mapping h) = true) as -> by apply (contains_byte_app "=" "mapping").
      rewrite !pci_opts_assoc. simpl. unfold opt_of. simpl. by rewrite !Hflag, Hrom, !default_nonempty.
    + destruct Hd as [_ Hd]. rewrite (proj2 (cut_byte_None "=" (h_Device h)) Hd), (contains_byte "=" (h_Device h) Hd).
      rewrite !pci_opts_assoc. simpl. unfold opt_of. simpl. by rewrite !Hflag, Hrom, !default_nonempty.
  - destruct Hd as [Hd _]. destruct (nonempty (h_Mapping h)); [|done]. apply no_byte_app. split; [by_decide|done].
  - unfold pci_opts, opt_if. repeat case_match; repeat (constructor; [split; [by_decide|simpl; by_decide || done]|]); constructor.
Qed.

(** What is read back of a network device. *)
Definition network_model (n : NetworkSpec) : string := if nonempty (n_Model n) then n_Model n else "virtio".
Definition expected_network (n : NetworkSpec) : gomap :=
  [("name", VStr (n_Name n)); ("model", VStr (network_model n)); ("macAddress", VStr (n_MACAddress n));
   ("bridge", VStr (n_Bridge n)); ("vlan", VInt (Z.max 0 (n_VLAN n))); ("firewall", VBool (n_Firewall n))].

Definition network_texts (n : NetworkSpec) : Prop :=
  option_text (n_Model n) ∧ (n_Model n ∉ ["bridge"; "tag"; "firewall"]) ∧ no_byte "," (n_MACAddress n) ∧ no_byte "," (n_Bridge n) ∧
  (n_VLAN n ≤ int64_max)%Z.

Definition network_opts (n : NetworkSpec) : list (string * string) :=
  opt_if true ("bridge", n_Bridge n) ++ opt_if (0 <? n_VLAN n)%Z ("tag", pretty (n_VLAN n)) ++ opt_if (n_Firewall n) ("firewall", "1").

Lemma network_opts_keys n : NoDup (network_opts n).*1.
Proof.
  unfold network_opts. rewrite <- (app_nil_r (opt_if (n_Firewall n) _)).
  repeat (apply NoDup_opt_if; [unfold opt_if; simpl; repeat case_match; by_decide|]). constructor.
Qed.

Lemma network_opts_assoc k n :
  assoc k (network_opts n) =
    if decide (k = "bridge") then Some (n_Bridge n)
    else if decide (k = "tag") then if (0 <? n_VLAN n)%Z then Some (pretty (n_VLAN n)) else None
    else if decide (k = "firewall") then if n_Firewall n then Some "1" else None
    else None.
Proof.
  unfold network_opts. rewrite <- (app_nil_r (opt_if (n_Firewall n) _)), !assoc_opt_if. simpl.
  repeat (case_decide; [by subst; repeat case_match|]). done.
Qed.

Lemma atoi_lax_pretty z : (0 ≤ z ≤ int64_max)%Z → atoi_lax (pretty z) = z.
Proof.
  intros Hz. destruct (pretty_Z_nonempty z) as (x & s & Hs & Hx); [lia|]. unfold atoi_lax. rewrite Hs.
  destruct (is_digit_not_blank x Hx) as (_ & H1 & H2). rewrite !decide_False by done. rewrite <- Hs, digits_value_pretty by lia.
  unfold int64_min. lia.
Qed.

Lemma network_model_text n : network_texts n →
  option_text (network_model n) ∧ (network_model n ∉ ["bridge"; "tag"; "firewall"]).
Proof.
  intros (Hm & Hk & _). unfold network_model. destruct (nonempty (n_Model n)); [done|]. split; [by_decide|by_decide].
Qed.

Lemma read_network_string i n :
  (Z.of_nat i ≤ int64_max)%Z → n_Name n = "net" +:+ pretty i → network_texts n →
  read_slot (n_Name n, network_string n) = CNetwork (expected_network n).
Proof.
  intros Hi Hname Ht. destruct (network_model_text n Ht) as [[Hmc Hme] Hmk]. destruct Ht as (_ & _ & Hmac & Hb & Hv).
  set (head := if nonempty (n_MACAddress n) then network_model n +:+ "=" +:+ n_MACAddress n else network_model n).
  assert (network_string n = join "," (head :: map render_opt (network_opts n))) as ->.
  { unfold network_string, network_opts, flag, opt_if. fold (network_model n). fold head. do 2 f_equal.
    by destruct (0 <? n_VLAN n)%Z, (n_Firewall n). }
  unfold read_slot. rewrite configParts_render.
  - pose proof (numberedSlot_pretty "ne" "t" i ["net"] eq_refl Hi) as Hnum. change ("ne" +:+ String "t" "") with "net" in Hnum.
    rewrite Hname at 1. rewrite Hnum. rewrite bool_decide_true by by_decide. f_equal.
    unfold read_network, expected_network.
    assert (Cut "=" head = (network_model n, n_MACAddress n)) as ->.
    { unfold Cut, head. destruct (nonempty_cases (n_MACAddress n)) as [[-> _]|[-> ->]].
      - change ("=" +:+ n_MACAddress n) with (String "=" (n_MACAddress n)). by rewrite cut_byte_app.
      - by rewrite (proj2 (cut_byte_None "=" (network_model n)) Hme). }
    assert (∀ k, k ∈ ["bridge"; "tag"; "firewall"] →
      opt_of k match cut_byte "=" head with Some p => [p] | None => [] end = "") as Hopt.
    { intros k Hk. unfold opt_of, head. destruct (nonempty (n_MACAddress n)).
      - change ("=" +:+ n_MACAddress n) with (String "=" (n_MACAddress n)). rewrite cut_byte_app by done. simpl.
        rewrite decide_False; [done|]. by intros ->.
      - by rewrite (proj2 (cut_byte_None "=" (network_model n)) Hme). }
    rewrite !opt_of_set_all, !network_opts_assoc, !Hopt by (by_decide || apply network_opts_keys). simpl.
    repeat f_equal.
    + destruct (Z.ltb_spec 0 (n_VLAN n)); simpl; [rewrite atoi_lax_pretty by lia; lia|]. change (atoi_lax "") with 0%Z. lia.
    + by destruct (n_Firewall n).
  - unfold head. destruct (nonempty _); [|done]. rewrite !no_byte_app. split_and!; [done|by_decide|done].
  - unfold network_opts, opt_if. pose proof (pretty_Z_digits (n_VLAN n)) as Hd.
    destruct (Z.ltb_spec 0 (n_VLAN n)), (n_Firewall n);
      repeat (constructor; [split; [by_decide|simpl; done || by_decide || (apply all_digits_no_byte; [done|apply Hd; lia])]|]); constructor.
Qed.

(** ** The whole configuration *)

Lemma assoc_unique {V} k (v : V) l : (k, v) ∈ l → (∀ v', (k, v') ∈ l → v' = v) → assoc k l = Some v.
Proof.
  induction l as [|[j w] l IH]; intros Hin Hu; [by apply elem_of_nil in Hin|]. simpl. case_decide as Hk.
  - subst. f_equal. apply Hu. left.
  - apply IH; [|intros v' Hv'; apply Hu; by right]. apply elem_of_cons in Hin as [[= -> _]|]; [by destruct Hk|done].
Qed.

Lemma elem_assoc_set {V} k (v : V) j w m : (k, v) ∈ assoc_set j w m → (k, v) = (j, w) ∨ (k, v) ∈ m.
Proof.
  induction m as [|[i u] m IH]; simpl.
  - rewrite list_elem_of_singleton. auto.
  - case_decide; rewrite !elem_of_cons; naive_solver.
Qed.

Lemma ToProxmoxConfig_elem s k v : (k, v) ∈ ToProxmoxConfig s → (k, v) ∈ assignments s.
Proof.
  unfold ToProxmoxConfig. assert (∀ l m, (k, v) ∈ foldl (λ m p, assoc_set p.1 p.2 m) m l → (k, v) ∈ m ∨ (k, v) ∈ l) as H.
  { induction l as [|[j w] l IH]; intros m Hin; [by left|]. simpl in Hin. apply IH in Hin as [Hin|Hin]; [|by right; right].
    apply elem_assoc_set in Hin as [->|]; [right; left|by left]. }
  intros Hin. apply H in Hin as [Hin|]; [by apply elem_of_nil in Hin|done].
Qed.

Lemma ToProxmoxConfig_assoc s k v :
  (k, v) ∈ assignments s → (∀ v', (k, v') ∈ assignments s → v' = v) → assoc k (ToProxmoxConfig s) = Some v.
Proof.
  intros Hin Hu. unfold ToProxmoxConfig. rewrite assoc_set_all. rewrite (assoc_unique k v); [done| |].
  - by apply elem_of_reverse.
  - intros v' Hv'. apply Hu. by apply elem_of_reverse.
Qed.

(** A declaration whose devices have the names and texts that Proxmox takes. *)
Record vm_texts (s : VMSpec) : Prop := {
  vt_networks : ∀ n, n ∈ v_Networks s → network_texts n ∧ ∃ i : nat, n_Name n = "net" +:+ pretty i ∧ (Z.of_nat i ≤ int64_max)%Z;
  vt_names : NoDup (map n_Name (v_Networks s));
  vt_pci : ∀ h, h ∈ attached (v_HostPCI s) → pci_texts h;
  vt_count : (Z.of_nat (length (v_HostPCI s)) ≤ int64_max)%Z;
}.

Lemma digits_suffix_cons q c x :
  is_digit c = false → digits_suffix (q +:+ String c x) = (q +:+ String c (digits_suffix x).1, (digits_suffix x).2).
Proof.
  intros Hc. assert (digits_suffix (String c x) = (String c (digits_suffix x).1, (digits_suffix x).2)) as H.
  { simpl. destruct (digits_suffix x) as [p d]. simpl. destruct (nonempty_cases p) as [[-> _]|[-> ->]]; [done|]. by rewrite Hc. }
  induction q as [|a q IH]; [done|]. rewrite !str_app_cons. simpl. rewrite IH. unfold nonempty.
  rewrite bool_decide_true; [done|]. by destruct q.
Qed.

(** The keys of the other parameters are neither slots of network devices nor of
    host PCI devices. *)
Definition plain_key (k : string) : Prop := numberedSlot k ["net"] = false ∧ numberedSlot k ["hostpci"] = false.

Lemma ipconfig_plain x : plain_key ("ipconfig" +:+ x).
Proof.
  assert (∀ p, p ∈ ["net"; "hostpci"] → numberedSlot ("ipconfig" +:+ x) [p] = false) as H; [|split; apply H; by_decide].
  intros p Hp. unfold numberedSlot, slotIndex. pose proof (digits_suffix_cons "ipconfi" "g" x eq_refl) as Hd.
  change ("ipconfi" +:+ String "g" x) with ("ipconfig" +:+ x) in Hd. rewrite Hd. simpl. case_decide; [done|].
  apply bool_decide_eq_false. rewrite list_elem_of_singleton. rewrite !elem_of_cons, elem_of_nil in Hp. by destruct Hp as [->|[->|[]]].
Qed.

Lemma pstr_key k v key s : (k, v) ∈ pstr key s → k = key ∧ v = VStr s.
Proof. unfold pstr. destruct (nonempty s); rewrite ?list_elem_of_singleton, ?elem_of_nil; naive_solver. Qed.
Lemma pint_key k v key z : (k, v) ∈ pint key z → k = key.
Proof. unfold pint. destruct (0 <? z)%Z; rewrite ?list_elem_of_singleton, ?elem_of_nil; naive_solver. Qed.

Definition plain_keys : list string :=
  ["cores"; "sockets"; "cpu"; "memory"; "ostype"; "bios"; "machine"; "agent"; "efidisk0"; "ciupgrade"; "ciuser"; "cipassword";
   "searchdomain"; "nameserver"].

Lemma cloud_init_cases ci k v :
  (k, v) ∈ cloud_init_params ci →
  k ∈ plain_keys ∨ (∃ x, k = "ipconfig" +:+ x) ∨ (k = "sshkeys" ∧ v = VStr (encode_keys (ci_SSHKeys ci))).
Proof.
  unfold cloud_init_params. rewrite !elem_of_app. intros [H|[H|[H|[H|[H|[H|H]]]]]].
  - apply list_elem_of_singleton in H as [= -> _]. left. by_decide.
  - apply pstr_key in H as [-> _]. left. by_decide.
  - apply pstr_key in H as [-> _]. left. by_decide.
  - right. right. destruct (ci_SSHKeys ci); [by apply elem_of_nil in H|]. by apply list_elem_of_singleton in H as [= -> ->].
  - apply pstr_key in H as [-> _]. left. by_decide.
  - left. destruct (ci_Nameservers ci); [by apply elem_of_nil in H|]. apply list_elem_of_singleton in H as [= -> _]. by_decide.
  - right. left. apply list_elem_of_omap in H as ([iface c] & _ & Hs). simpl in Hs.
    apply fmap_Some in Hs as (t & _ & [= -> _]). by eexists.
Qed.

(** Where an assignment comes from. *)
Lemma assignment_cases s k v :
  (k, v) ∈ assignments s →
  (∃ i h, attached (v_HostPCI s) !! i = Some h ∧ k = "hostpci" +:+ pretty i ∧ v = VStr (hostpci_string h)) ∨
  (∃ n, n ∈ v_Networks s ∧ k = n_Name n ∧ v = VStr (network_string n)) ∨
  (k ∈ plain_keys ∨ (∃ x, k = "ipconfig" +:+ x)) ∨
  (∃ ci, v_CloudInit s = Some ci ∧ k = "sshkeys" ∧ v = VStr (encode_keys (ci_SSHKeys ci))).
Proof.
  unfold assignments. rewrite !elem_of_app. intros [H|[H|[H|[H|[H|[H|[H|[H|[H|H]]]]]]]]].
  - right. right. left. left. destruct (v_CPU s) as [c|]; [|by apply elem_of_nil in H].
    rewrite !elem_of_app in H. destruct H as [H|[H|H]]; [apply pint_key in H as ->|apply pint_key in H as ->|apply pstr_key in H as [-> _]];
      by_decide.
  - right. right. left. left. apply pint_key in H as ->. by_decide.
  - right. right. left. left. apply pstr_key in H as [-> _]. by_decide.
  - right. right. left. left. apply pstr_key in H as [-> _]. by_decide.
  - right. right. left. left. apply pstr_key in H as [-> _]. by_decide.
  - right. right. left. left. destruct (default false (v_Agent s)); [|by apply elem_of_nil in H].
    apply list_elem_of_singleton in H as [= -> _]. by_decide.
  - right. right. left. left. destruct (v_EFIDisk s) as [e|]; [|by apply elem_of_nil in H].
    destruct (nonempty _); [|by apply elem_of_nil in H]. apply list_elem_of_singleton in H as [= -> _]. by_decide.
  - left. apply elem_of_lookup_imap_1 in H as (i & h & [= -> ->] & Hi). by exists i, h.
  - right. left. apply list_elem_of_fmap in H as (n & [= -> ->] & Hn). by exists n.
  - destruct (v_CloudInit s) as [ci|]; [|by apply elem_of_nil in H]. apply cloud_init_cases in H as [H|[H|[-> ->]]].
    + right. right. left. by left.
    + right. right. left. by right.
    + right. right. right. by exists ci.
Qed.

Lemma plain_keys_plain k : k ∈ plain_keys → plain_key k.
Proof.
  assert (Forall (λ k, numberedSlot k ["net"] = false ∧ numberedSlot k ["hostpci"] = false) plain_keys) as H by by_decide.
  rewrite Forall_forall in H. apply H.
Qed.

Lemma net_slot (i : nat) :
  (Z.of_nat i ≤ int64_max)%Z →
  numberedSlot ("net" +:+ pretty i) ["net"] = true ∧ numberedSlot ("net" +:+ pretty i) ["hostpci"] = false.
Proof. intros Hi. pose proof (λ ps, numberedSlot_pretty "ne" "t" i ps eq_refl Hi) as H. split; exact (H _). Qed.

Lemma pci_slot (i : nat) :
  (Z.of_nat i ≤ int64_max)%Z →
  numberedSlot ("hostpci" +:+ pretty i) ["net"] = false ∧ numberedSlot ("hostpci" +:+ pretty i) ["hostpci"] = true.
Proof. intros Hi. pose proof (λ ps, numberedSlot_pretty "hostpc" "i" i ps eq_refl Hi) as H. split; exact (H _). Qed.

(** A configuration that keeps the parameters that were sent. *)
Record gives_back (sent raw : gomap) : Prop := {
  gb_sent : ∀ k v, assoc k sent = Some v → assoc k raw = Some v;
  gb_pci : ∀ k v, (k, v) ∈ raw → numberedSlot k ["hostpci"] = true → (k, v) ∈ sent;
}.

Section roundtrip.
Context (s : VMSpec) (Hs : vm_texts s).

Lemma attached_bound i h : attached (v_HostPCI s) !! i = Some h → (Z.of_nat i ≤ int64_max)%Z.
Proof.
  intros Hi%lookup_lt_Some. pose proof (vt_count s Hs). pose proof (length_filter (λ h, ¬ (h_Device h = "" ∧ h_Mapping h = "")) (v_HostPCI s)).
  unfold attached in Hi. lia.
Qed.

(** An assignment of a plain key, of neither kind of slot. *)
Lemma plain_assignment k :
  (k ∈ plain_keys ∨ (∃ x, k = "ipconfig" +:+ x)) ∨ (∃ ci, v_CloudInit s = Some ci ∧ k = "sshkeys") → plain_key k.
Proof. intros [[H|[x ->]]|(ci & _ & ->)]; [by apply plain_keys_plain|apply ipconfig_plain|by split]. Qed.

Lemma network_assignment n v : n ∈ v_Networks s → (n_Name n, v) ∈ assignments s → v = VStr (network_string n).
Proof.
  intros Hn Hin. destruct (vt_networks s Hs n Hn) as (_ & j & Hj & Hb). destruct (net_slot j Hb) as [Hslot _].
  rewrite <- Hj in Hslot.
  apply assignment_cases in Hin as [(i & h & Hi & E & _)|[(n' & Hn' & E & ->)|[H|(ci & Hc & E & _)]]].
  - destruct (pci_slot i (attached_bound i h Hi)). congruence.
  - apply list_elem_of_lookup in Hn as [a Ha], Hn' as [b Hb']. pose proof (vt_names s Hs) as Hnd.
    assert (a = b) as <-; [|by simplify_eq]. eapply (NoDup_lookup _ _ _ (n_Name n) Hnd); rewrite list_lookup_fmap.
    + by rewrite Ha.
    + by rewrite Hb', E.
  - destruct (plain_assignment (n_Name n)) as [Hp _]; [by left|congruence].
  - destruct (plain_assignment (n_Name n)) as [Hp _]; [right; by exists ci|congruence].
Qed.

Lemma pci_assignment (i : nat) v :
  (Z.of_nat i ≤ int64_max)%Z → ("hostpci" +:+ pretty i, v) ∈ assignments s →
  ∃ h, attached (v_HostPCI s) !! i = Some h ∧ v = VStr (hostpci_string h).
Proof.
  intros Hb Hin. destruct (pci_slot i Hb) as [_ Hslot].
  apply assignment_cases in Hin as [(j & h & Hj & E & ->)|[(n & Hn & E & _)|[H|(ci & Hc & E & _)]]].
  - apply (inj (String.append "hostpci")) in E. apply (inj pretty) in E as ->. by exists h.
  - destruct (vt_networks s Hs n Hn) as (_ & j & Hj & Hbj). destruct (net_slot j Hbj). congruence.
  - destruct (plain_assignment ("hostpci" +:+ pretty i)) as [_ Hp]; [by left|congruence].
  - destruct (plain_assignment ("hostpci" +:+ pretty i)) as [_ Hp]; [right; by exists ci|congruence].
Qed.

(** A numbered host PCI slot of the configuration is one of the devices'. *)
Lemma pci_slot_inv k v :
  (k, v) ∈ assignments s → numberedSlot k ["hostpci"] = true →
  ∃ i h, attached (v_HostPCI s) !! i = Some h ∧ k = "hostpci" +:+ pretty i ∧ v = VStr (hostpci_string h).
Proof.
  intros Hin Hslot. apply assignment_cases in Hin as [H|[(n & Hn & -> & _)|[H|(ci & Hc & -> & _)]]]; [done| | |].
  - destruct (vt_networks s Hs n Hn) as (_ & j & Hj & Hb). destruct (net_slot j Hb). congruence.
  - destruct (plain_assignment k) as [_ Hp]; [by left|congruence].
  - done.
Qed.

(** The configuration that Proxmox gives back: it holds the parameters as they were sent, and
    may hold others of its own, but no host PCI device; the typed fields repeat slots of the
    raw configuration. *)
Context (config : vm_config) (Hraw : gives_back (ToProxmoxConfig s) (Raw config)).
Context (Htyped : ∀ k v, (k, v) ∈ [("scsi0", vc_SCSI0 config); ("net0", vc_Net0 config); ("ide2", vc_IDE2 config);
  ("ipconfig0", vc_IPConfig0 config)] → v ≠ "" → k ∈ (raw_slots (Raw config)).*1).

Lemma read_slots_elem c : c ∈ read_slots config ↔ ∃ p, p ∈ raw_slots (Raw config) ∧ c = read_slot p.
Proof.
  unfold read_slots. assert (slots config = raw_slots (Raw config)) as ->.
  { unfold slots. cbv zeta. rewrite (filter_none _ [_; _; _; _]); [by rewrite app_nil_r|].
    apply Forall_forall. intros [k v] Hin [Hv Hk]. by apply Hk, (Htyped k v). }
  split.
  - intros (p & -> & Hp)%list_elem_of_fmap. exists p. split; [|done]. by rewrite sort_func_perm in Hp.
  - intros (p & Hp & ->). apply list_elem_of_fmap. exists p. split; [done|]. by rewrite sort_func_perm.
Qed.

Lemma raw_slots_elem k t :
  (k, t) ∈ raw_slots (Raw config) ↔
  (k, VStr t) ∈ Raw config ∧ numberedSlot k slot_prefixes || bool_decide (k = "efidisk0") = true.
Proof.
  unfold raw_slots. rewrite list_elem_of_omap. split.
  - intros ([j v] & Hin & Hv). simpl in Hv. destruct (_ || _) eqn:Hslot; [|done]. destruct v; try done. by injection Hv as -> ->.
  - intros [Hin Hslot]. exists (k, VStr t). split; [done|]. simpl. by rewrite Hslot.
Qed.

(** A text parameter that is a slot is read. *)
Lemma read_slots_assoc k t :
  assoc k (ToProxmoxConfig s) = Some (VStr t) → numberedSlot k slot_prefixes = true → read_slot (k, t) ∈ read_slots config.
Proof.
  intros Hk Hslot. apply read_slots_elem. exists (k, t). split; [|done]. apply raw_slots_elem.
  split; [by apply assoc_elem, (gb_sent _ _ Hraw)|by rewrite Hslot].
Qed.

(** A host PCI device that is read is one of the attached ones. *)
Lemma read_pci_inv j m :
  CHostPCI j m ∈ read_slots config → ∃ i h, attached (v_HostPCI s) !! i = Some h ∧ j = Z.of_nat i ∧ m = expected_pci h.
Proof.
  intros ([k t] & Hin & Hc)%read_slots_elem. apply raw_slots_elem in Hin as [Hin _].
  destruct (numberedSlot k ["hostpci"]) eqn:Hslot.
  - apply (gb_pci _ _ Hraw) in Hin; [|done]. apply ToProxmoxConfig_elem in Hin.
    destruct (pci_slot_inv k _ Hin Hslot) as (i & h & Hi & -> & [= ->]). exists i, h. split; [done|].
    rewrite read_hostpci_string in Hc; [by injection Hc as -> ->|by eapply attached_bound|].
    apply (vt_pci s Hs). by eapply list_elem_of_lookup_2.
  - unfold read_slot in Hc. destruct (configParts t). rewrite Hslot in Hc. by repeat case_match.
Qed.
End roundtrip.

Lemma pci_set_eq i m pci : pci_set (Z.of_nat i) m pci !! i = Some (VMap m).
Proof.
  unfold pci_set. rewrite Nat2Z.id. apply list_lookup_insert_eq. rewrite length_app, length_replicate. lia.
Qed.

Lemma pci_set_keep j m pci i x : Z.to_nat j ≠ i → pci !! i = Some x → pci_set j m pci !! i = Some x.
Proof. intros Hne Hi. unfold pci_set. rewrite list_lookup_insert_ne by done. by apply lookup_app_l_Some. Qed.

Lemma observed_pci_lookup l i m :
  CHostPCI (Z.of_nat i) m ∈ l → (∀ j m', CHostPCI j m' ∈ l → Z.to_nat j = i → j = Z.of_nat i ∧ m' = m) →
  observed_pci l !! i = Some (VMap m).
Proof.
  unfold observed_pci. induction l as [|c l IH] using rev_ind; intros Hin Hu; [by apply elem_of_nil in Hin|].
  rewrite foldl_app. simpl. rewrite elem_of_app, list_elem_of_singleton in Hin.
  assert (∀ j m', CHostPCI j m' ∈ l → Z.to_nat j = i → j = Z.of_nat i ∧ m' = m) as Hu'
    by (intros j m' Hj; apply Hu; rewrite elem_of_app; by left).
  destruct (decide (CHostPCI (Z.of_nat i) m ∈ l)) as [Hl|Hl].
  - specialize (IH Hl Hu'). destruct c as [| |j m'| | |]; try done. destruct (decide (Z.to_nat j = i)) as [Hj|Hj].
    + destruct (Hu j m') as [-> ->]; [rewrite elem_of_app, list_elem_of_singleton; by right|done|]. apply pci_set_eq.
    + by apply pci_set_keep.
  - destruct Hin as [Hin|<-]; [done|]. apply pci_set_eq.
Qed.

(** A key as it is listed: not empty, without blanks around it, on one line. *)
Definition key_text (k : string) : Prop := k ≠ "" ∧ trim_space k = k ∧ no_byte newline k.

Lemma sshkeys_assoc s ci :
  vm_texts s → v_CloudInit s = Some ci → ci_SSHKeys ci ≠ [] →
  assoc "sshkeys" (ToProxmoxConfig s) = Some (VStr (encode_keys (ci_SSHKeys ci))).
Proof.
  intros Hs Hci Hne. apply ToProxmoxConfig_assoc.
  - unfold assignments. rewrite !elem_of_app, Hci. do 9 right. unfold cloud_init_params. rewrite !elem_of_app. do 3 right. left.
    destruct (ci_SSHKeys ci); [done|]. by apply list_elem_of_singleton.
  - intros v [(i & h & _ & E & _)|[(n & Hn & E & _)|[[Hk|[x E]]|(ci' & Hci' & _ & ->)]]]%assignment_cases.
    + discriminate E.
    + destruct (vt_networks s Hs n Hn) as (_ & j & Hj & _). rewrite Hj in E. discriminate E.
    + assert ("sshkeys" ∉ plain_keys) as Hno by by_decide. by destruct (Hno Hk).
    + discriminate E.
    + by simplify_eq.
Qed.

Lemma observed_keys_encoded float_v config keys :
  assoc "sshkeys" (Raw config) = Some (VStr (encode_keys keys)) → keys ≠ [] → Forall key_text keys →
  observed_keys float_v config = map VStr keys.
Proof.
  intros Hraw Hne Hk. unfold observed_keys, raw_text. rewrite Hraw. unfold encode_keys. rewrite PathUnescape_QueryEscape. simpl.
  rewrite split_on_join; [|done|eapply Forall_impl; [exact Hk|]; by intros k (_ & _ & ?)]. f_equal. clear Hraw Hne.
  induction Hk as [|k l (Hk & Ht & _) _ IH]; [done|]. simpl. rewrite filter_cons, Ht, decide_True by done. by rewrite IH.
Qed.


(** ** Witness *)

Definition ex_decl : gomap :=
  [("cpu", VMap [("cores", VFloat (f64_of_Z 4))]);
   ("networks", VList [VMap [("name", VStr "net1"); ("bridge", VStr "vmbr1"); ("vlan", VFloat (f64_of_Z 20))];
                       VMap [("name", VStr "net0"); ("bridge", VStr "vmbr0"); ("macAddress", VStr "aa:bb:cc:dd:ee:ff")]]);
   ("hostPCI", VList [VMap [("mapping", VStr "gpu"); ("rombar", VBool false)]; VMap [("device", VStr "01:00.0"); ("pcie", VBool true)]]);
   ("cloudInit", VMap [("sshKeys", VList [VStr "ssh-ed25519 A+B/c= me@h"; VStr "second"])])].
Definition ex_vm : VMSpec := ParseVMSpec ex_decl.
Definition ex_config : vm_config := MkVMConfig 4 0 0 "" "" "" "" "" "" "" (("digest", VStr "4f1c") :: ToProxmoxConfig ex_vm).

