(* ===== verification/Effects.v ===== *)
(** Programs that talk to their environment, as trees of requests.

    A program asks and goes on with the answer; what is asked depends on the
    answers, and no environment is fixed. [run] executes a program against an
    environment that keeps a state of its own, [behaves] relates it to every
    conversation it can have, and [safe] is a program logic for the two: what a
    program asks is justified by what it was answered before. *)
From S2P Require Import Prelude.

Section effects.
Context {Q R : Type}.

(** ** Programs *)

Inductive prog (E A : Type) : Type :=
| Ret (a : A)
| Fail (e : E)
| Call (q : Q) (k : R → prog E A).
Arguments Ret {E A} a.
Arguments Fail {E A} e.
Arguments Call {E A} q k.

#[global] Instance prog_ret E : MRet (prog E) := @Ret E.
#[global] Instance prog_bind E : MBind (prog E) := λ A B f,
  fix bind (p : prog E A) : prog E B :=
    match p with
    | Ret a => f a
    | Fail e => Fail e
    | Call q k => Call q (λ r, bind (k r))
    end.

Definition call {E} (q : Q) : prog E R := Call q Ret.
Definition lift {E A} (r : result E A) : prog E A := match r with Ok a => Ret a | Err e => Fail e end.

(** [x, err := p]: the error is a value. *)
Fixpoint try {E F A} (p : prog E A) : prog F (result E A) :=
  match p with
  | Ret a => Ret (Ok a)
  | Fail e => Ret (Err e)
  | Call q k => Call q (λ r, try (k r))
  end.

(** [fmt.Errorf("...: %w", err)] *)
Fixpoint wrap {E F A} (f : E → F) (p : prog E A) : prog F A :=
  match p with
  | Ret a => Ret a
  | Fail e => Fail (f e)
  | Call q k => Call q (λ r, wrap f (k r))
  end.

(** [for _, x := range l { if err := f(x); err != nil { return err } }] *)
Fixpoint forP_ {E A} (f : A → prog E unit) (l : list A) : prog E unit :=
  match l with
  | [] => Ret tt
  | x :: l => _ ← f x; forP_ f l
  end.

(** ** Conversations *)

Abbreviation event := (Q * R)%type.
Abbreviation history := (list (Q * R)).

(** What was asked and answered, and what was returned. *)
Inductive behaves {E A} : prog E A → history → result E A → Prop :=
| behaves_ret a : behaves (Ret a) [] (Ok a)
| behaves_fail e : behaves (Fail e) [] (Err e)
| behaves_call q k r t x : behaves (k r) t x → behaves (Call q k) ((q, r) :: t) x.

(** Execution against an environment. *)
Fixpoint run {S E A} (serve : Q → S → R * S) (p : prog E A) (s : S) : result E A * history * S :=
  match p with
  | Ret a => (Ok a, [], s)
  | Fail e => (Err e, [], s)
  | Call q k =>
      let '(r, s') := serve q s in
      let '(x, t, s'') := run serve (k r) s' in (x, (q, r) :: t, s'')
  end.

Lemma run_behaves {S E A} (serve : Q → S → R * S) (p : prog E A) s :
  behaves p (run serve p s).1.2 (run serve p s).1.1.
Proof.
  revert s. induction p as [a|e|q k IH]; intros s; simpl; [constructor..|]. destruct (serve q s) as [r s'] eqn:Hr.
  specialize (IH r s'). destruct (run serve (k r) s') as [[x t] s''] eqn:Ht. by constructor.
Qed.

(** Executions compose. *)
Definition then_run {S E A B} (o : result E A * history * S) (f : A → S → result E B * history * S) : result E B * history * S :=
  let '(x, t, s) := o in
  match x with Ok a => let '(y, t', s') := f a s in (y, t ++ t', s') | Err e => (Err e, t, s) end.

Lemma run_bind {S E A B} (serve : Q → S → R * S) (p : prog E A) (f : A → prog E B) s :
  run serve (p ≫= f) s = then_run (run serve p s) (λ a, run serve (f a)).
Proof.
  revert s. induction p as [a|e|q k IH]; intros s; simpl; [by destruct (run serve (f a) s) as [[]]|done|].
  destruct (serve q s) as [r s1]. change (prog_bind E A B f (k r)) with (k r ≫= f). rewrite IH.
  destruct (run serve (k r) s1) as [[[a|e] t] s2]; simpl; [|done]. by destruct (run serve (f a) s2) as [[y t'] s3].
Qed.

Lemma run_try {S E F A} (serve : Q → S → R * S) (p : prog E A) s :
  run serve (try (F := F) p) s = let '(x, t, s') := run serve p s in (Ok x, t, s').
Proof.
  revert s. induction p as [a|e|q k IH]; intros s; simpl; [done..|].
  destruct (serve q s) as [r s1]. rewrite IH. by destruct (run serve (k r) s1) as [[]].
Qed.

Lemma run_wrap {S E F A} (serve : Q → S → R * S) (g : E → F) (p : prog E A) s :
  run serve (wrap g p) s = let '(x, t, s') := run serve p s in (map_err g x, t, s').
Proof.
  revert s. induction p as [a|e|q k IH]; intros s; simpl; [done..|].
  destruct (serve q s) as [r s1]. rewrite IH. by destruct (run serve (k r) s1) as [[]].
Qed.

(** ** A logic of conversations *)

Section logic.
(** What the environment promises, and what the program may ask, given what was said. *)
Context (rely : history → Q → R → Prop) (guar : history → Q → Prop).

Fixpoint safe {E A} (h : history) (p : prog E A) (post : history → result E A → Prop) : Prop :=
  match p with
  | Ret a => post h (Ok a)
  | Fail e => post h (Err e)
  | Call q k => guar h q ∧ ∀ r, rely h q r → safe (h ++ [(q, r)]) (k r) post
  end.

Lemma safe_ret {E A} h (a : A) (post : history → result E A → Prop) : post h (Ok a) → safe h (Ret a) post.
Proof. done. Qed.

Lemma safe_mono {E A} h (p : prog E A) (post post' : history → result E A → Prop) :
  safe h p post → (∀ h' x, post h' x → post' h' x) → safe h p post'.
Proof.
  intros Hp Himp. revert h Hp. induction p as [a|e|q k IH]; intros h; simpl; [apply Himp..|].
  intros [Hg Hk]. split; [done|]. intros r Hr. by apply IH, Hk.
Qed.

Lemma safe_bind {E A B} h (p : prog E A) (f : A → prog E B) post :
  safe h p (λ h' x, match x with Ok a => safe h' (f a) post | Err e => post h' (Err e) end) → safe h (p ≫= f) post.
Proof.
  revert h. induction p as [a|e|q k IH]; intros h; simpl; [done..|]. intros [Hg Hk]. split; [done|].
  intros r Hr. apply IH. by apply Hk.
Qed.

Lemma safe_try {E F A} h (p : prog E A) (post : history → result F (result E A) → Prop) :
  safe h p (λ h' x, post h' (Ok x)) → safe h (try p) post.
Proof.
  revert h. induction p as [a|e|q k IH]; intros h; simpl; [done..|]. intros [Hg Hk]. split; [done|].
  intros r Hr. apply IH. by apply Hk.
Qed.

Lemma safe_wrap {E F A} h (g : E → F) (p : prog E A) post :
  safe h p (λ h' x, post h' (map_err g x)) → safe h (wrap g p) post.
Proof.
  revert h. induction p as [a|e|q k IH]; intros h; simpl; [done..|]. intros [Hg Hk]. split; [done|].
  intros r Hr. apply IH. by apply Hk.
Qed.

Lemma safe_lift {E A} h (r : result E A) post : post h r → safe h (lift r) post.
Proof. by destruct r. Qed.

(** A loop with an invariant of the conversation. *)
Lemma safe_forP {E A} (inv : history → Prop) h (f : A → prog E unit) l post :
  inv h → (∀ h' x, x ∈ l → inv h' → safe h' (f x) (λ h'' r, match r with Ok _ => inv h'' | Err e => post h'' (Err e) end)) →
  (∀ h', inv h' → post h' (Ok tt)) → safe h (forP_ f l) post.
Proof.
  intros Hi Hf Hpost. revert h Hi. induction l as [|x l IH]; intros h Hi; [by apply Hpost|].
  simpl. apply safe_bind. eapply safe_mono; [apply Hf; [left|done]|]. intros h' [[]|e] Hx; [|done].
  apply IH; [|done]. intros h'' y Hy. apply Hf. by right.
Qed.

(** Where every request is justified, a program is safe. *)
Lemma safe_free {E A} h (p : prog E A) : (∀ t q, guar (h ++ t) q) → safe h p (λ _ _, True).
Proof.
  revert h. induction p as [a|e|q k IH]; intros h H; simpl; [done..|]. split.
  - specialize (H [] q). by rewrite app_nil_r in H.
  - intros r _. apply IH. intros t q'. rewrite <- app_assoc. apply H.
Qed.

(** What was said stays said. *)
Lemma safe_prefix {E A} h (p : prog E A) post :
  safe h p post → safe h p (λ h' x, post h' x ∧ h `prefix_of` h').
Proof.
  intros Hp. assert (∀ h0, h0 `prefix_of` h → safe h p (λ h' x, post h' x ∧ h0 `prefix_of` h')) as H; [|by apply H].
  revert h Hp. induction p as [a|e|q k IH]; intros h; simpl; [done..|]. intros [Hg Hk] h0 H0. split; [done|].
  intros r Hr. apply IH; [by apply Hk|]. etrans; [done|]. by eexists.
Qed.

(** A loop that leaves something for each of its elements, which nothing said later
    takes back. *)
Lemma safe_forP_all {E A} (inv : history → Prop) (each : A → history → Prop) h (f : A → prog E unit) l
    (post : history → result E unit → Prop) :
  inv h → (∀ x h1 h2, each x h1 → h1 `prefix_of` h2 → each x h2) →
  (∀ h' x, x ∈ l → inv h' →
    safe h' (f x) (λ h'' r, match r with Ok _ => inv h'' ∧ each x h'' | Err e => post h'' (Err e) end)) →
  safe h (forP_ f l) (λ h' r, match r with Ok _ => inv h' ∧ ∀ x, x ∈ l → each x h' | Err e => post h' (Err e) end).
Proof.
  intros Hi Hmono. revert h Hi. induction l as [|x l IH]; intros h Hi Hf.
  { split; [done|]. by intros x ?%elem_of_nil. }
  simpl. apply safe_bind. eapply safe_mono; [apply Hf; [left|done]|]. intros h' [[]|e] Hx; [|done]. destruct Hx as [Hi' Hx].
  assert (∀ h'' y, y ∈ l → inv h'' →
    safe h'' (f y) (λ h3 r, match r with Ok _ => inv h3 ∧ each y h3 | Err e => post h3 (Err e) end)) as Hf' by (intros; apply Hf; [by right|done]).
  eapply safe_mono; [apply safe_prefix, (IH h' Hi' Hf')|]. intros h'' [[]|e] [Hy Hpre]; [|done]. destruct Hy as [Hi'' Hy].
  split; [done|]. intros y [->|Hin]%elem_of_cons; [by eapply Hmono|by apply Hy].
Qed.

(** The answers of a conversation keep the promises. *)
Definition kept (h t : history) : Prop := ∀ i q r, t !! i = Some (q, r) → rely (h ++ take i t) q r.

Lemma kept_cons h q r t : kept h ((q, r) :: t) ↔ rely h q r ∧ kept (h ++ [(q, r)]) t.
Proof.
  unfold kept. split.
  - intros H. split; [specialize (H 0 q r eq_refl); by rewrite app_nil_r in H|].
    intros i q' r' Hi. specialize (H (S i) q' r' Hi). simpl in H. by rewrite <- app_assoc.
  - intros [H1 H2] [|i] q' r' Hi; simpl in *; [simplify_eq; by rewrite app_nil_r|].
    specialize (H2 i q' r' Hi). by rewrite <- app_assoc in H2.
Qed.

(** An environment that keeps the promises, whatever was said. *)
Lemma run_kept {S E A} (serve : Q → S → R * S) (inv : history → S → Prop) :
  (∀ h s q, inv h s → rely h q (serve q s).1 ∧ inv (h ++ [(q, (serve q s).1)]) (serve q s).2) →
  ∀ (p : prog E A) h s, inv h s → kept h (run serve p s).1.2.
Proof.
  intros Hs p. induction p as [a|e|q k IH]; intros h s Hi; simpl; [intros i q r Hl; by rewrite lookup_nil in Hl..|].
  destruct (Hs h s q Hi) as [Hr Hi']. destruct (serve q s) as [r s'] eqn:Hq. specialize (IH r _ s' Hi').
  destruct (run serve (k r) s') as [[x t] s'']. by apply kept_cons.
Qed.

(** Soundness: every request of every conversation is justified, and so is the
    result. *)
Lemma safe_sound {E A} h (p : prog E A) post t x :
  safe h p post → behaves p t x → kept h t →
  (∀ i q r, t !! i = Some (q, r) → guar (h ++ take i t) q) ∧ post (h ++ t) x.
Proof.
  intros Hs Hb. revert h Hs. induction Hb as [a|e|q k r t x Hb IH]; intros h Hs Hk.
  - rewrite app_nil_r. split; [intros i q r Hi; by rewrite lookup_nil in Hi|done].
  - rewrite app_nil_r. split; [intros i q r Hi; by rewrite lookup_nil in Hi|done].
  - destruct Hs as [Hg Hs]. apply kept_cons in Hk as [Hr Hk].
    destruct (IH _ (Hs r Hr) Hk) as [H1 H2]. split.
    + intros [|i] q' r' Hi; simpl in *; [simplify_eq; by rewrite app_nil_r|].
      specialize (H1 i q' r' Hi). by rewrite <- app_assoc in H1.
    + by rewrite <- app_assoc in H2.
Qed.
End logic.
(** ** What a program may ask at all *)

Section asks.
Context (P : Q → Prop).

Fixpoint asks {E A} (p : prog E A) : Prop :=
  match p with Call q k => P q ∧ ∀ r, asks (k r) | _ => True end.

Lemma asks_bind {E A B} (p : prog E A) (f : A → prog E B) : asks p → (∀ a, asks (f a)) → asks (p ≫= f).
Proof. intros Hp Hf. induction p as [a|e|q k IH]; simpl in *; [by apply Hf|done|]. naive_solver. Qed.

Lemma asks_try {E F A} (p : prog E A) : asks p → asks (try (F := F) p).
Proof. intros Hp. induction p as [a|e|q k IH]; simpl in *; naive_solver. Qed.

Lemma asks_wrap {E F A} (f : E → F) (p : prog E A) : asks p → asks (wrap f p).
Proof. intros Hp. induction p as [a|e|q k IH]; simpl in *; naive_solver. Qed.

Lemma asks_lift {E A} (r : result E A) : asks (lift r).
Proof. by destruct r. Qed.

Lemma asks_call {E} q : P q → asks (call (E := E) q).
Proof. done. Qed.

Lemma asks_forP {E A} (f : A → prog E unit) l : (∀ x, asks (f x)) → asks (forP_ f l).
Proof. intros Hf. induction l as [|x l IH]; [done|]. by apply asks_bind. Qed.

Lemma asks_safe {E A} rely (guar : history → Q → Prop) h (p : prog E A) :
  asks p → (∀ h' q, P q → guar h' q) → safe rely guar h p (λ _ _, True).
Proof.
  intros Hp Hg. revert h Hp. induction p as [a|e|q k IH]; intros h; simpl; [done..|]. intros [Hq Hk].
  split; [by apply Hg|]. intros r _. by apply IH.
Qed.

Lemma asks_behaves {E A} (p : prog E A) t x : asks p → behaves p t x → Forall (λ e, P e.1) t.
Proof. intros Hp Hb. induction Hb as [| |q k r t x Hb IH]; simpl in Hp; constructor; [apply Hp|apply IH, Hp]. Qed.
End asks.

Lemma asks_weaken {E A} (P P' : Q → Prop) (p : prog E A) : asks P p → (∀ q, P q → P' q) → asks P' p.
Proof. intros Hp Hq. induction p as [a|e|q k IH]; simpl in *; naive_solver. Qed.

(** ** What a program can return *)

Fixpoint ends {E A} (P : A → Prop) (p : prog E A) : Prop :=
  match p with Ret a => P a | Fail _ => True | Call q k => ∀ r, ends P (k r) end.

Lemma ends_mono {E A} (P P' : A → Prop) (p : prog E A) : ends P p → (∀ a, P a → P' a) → ends P' p.
Proof. intros Hp HP. induction p as [a|e|q k IH]; simpl in *; [by apply HP|done|]. intros r. by apply IH. Qed.

Lemma ends_any {E A} (P : A → Prop) (p : prog E A) : (∀ a, P a) → ends P p.
Proof. intros HP. by induction p as [a|e|q k IH]; simpl. Qed.

Lemma ends_bind {E A B} (P : B → Prop) (p : prog E A) (f : A → prog E B) : ends (λ a, ends P (f a)) p → ends P (p ≫= f).
Proof. intros Hp. induction p as [a|e|q k IH]; simpl in *; [done..|]. intros r. by apply IH. Qed.

Lemma ends_try {E F A} (P : result E A → Prop) (p : prog E A) :
  ends (λ a, P (Ok a)) p → (∀ e, P (Err e)) → ends P (try (F := F) p).
Proof. intros Hp He. induction p as [a|e|q k IH]; simpl in *; [done..|]. intros r. by apply IH. Qed.

Lemma ends_behaves {E A} (P : A → Prop) (p : prog E A) t a : ends P p → behaves p t (Ok a) → P a.
Proof.
  intros Hp Hb. remember (Ok a : result E A) as x eqn:Hx. revert Hp. induction Hb as [b|e|q k r t x Hb IH]; simpl; intros Hp; [by simplify_eq|done|].
  by apply IH.
Qed.

Lemma ends_safe {E A} rely (P : A → Prop) (p : prog E A) h :
  ends P p → safe rely (λ _ _, True) h p (λ _ x, match x with Ok a => P a | Err _ => True end).
Proof. revert h. induction p as [a|e|q k IH]; intros h Hp; simpl in *; [done..|]. split; [done|]. intros r _. by apply IH. Qed.

(** Requests that leave the environment as it is. *)
Lemma run_pure {S E A} (serve : Q → S → R * S) (p : prog E A) s :
  asks (λ q, (serve q s).2 = s) p → (run serve p s).2 = s.
Proof.
  induction p as [a|e|q k IH]; simpl; [done..|]. intros [Hq Hk]. destruct (serve q s) as [r s'] eqn:Hr. simpl in Hq. subst s'.
  specialize (IH r (Hk r)). by destruct (run serve (k r) s) as [[]].
Qed.

(** ** Runs against an environment that keeps a promise *)

Section wp.
Context {S : Type} (serve : Q → S → R * S).

(** What a run returns and the state that it leaves. *)
Definition wp {E A} (p : prog E A) (s : S) (post : result E A → S → Prop) : Prop :=
  let '(x, _, s') := run serve p s in post x s'.

Lemma wp_mono {E A} (p : prog E A) s (post post' : result E A → S → Prop) :
  wp p s post → (∀ x s', post x s' → post' x s') → wp p s post'.
Proof. unfold wp. destruct (run serve p s) as [[x t] s']. eauto. Qed.
Lemma wp_bind {E A B} (p : prog E A) (f : A → prog E B) s post :
  wp p s (λ x s', match x with Ok a => wp (f a) s' post | Err e => post (Err e) s' end) → wp (p ≫= f) s post.
Proof.
  unfold wp. rewrite run_bind. destruct (run serve p s) as [[[a|e] t] s']; simpl; [|done]. by destruct (run serve (f a) s') as [[]].
Qed.
Lemma wp_call {E A} q (k : R → prog E A) s post : (let '(r, s') := serve q s in wp (k r) s' post) → wp (Call q k) s post.
Proof. unfold wp. simpl. destruct (serve q s) as [r s']. by destruct (run serve (k r) s') as [[]]. Qed.
Lemma wp_lift {E A} (r : result E A) s (post : result E A → S → Prop) : post r s → wp (lift r) s post.
Proof. by destruct r. Qed.
Lemma wp_forP {E A} (f : A → prog E unit) l s (inv : list A → S → Prop) (post : result E unit → S → Prop) :
  inv l s → (∀ s', inv [] s' → post (Ok tt) s') →
  (∀ x l' s', inv (x :: l') s' → wp (f x) s' (λ y s'', match y with Ok _ => inv l' s'' | Err e => post (Err e) s'' end)) →
  wp (forP_ f l) s post.
Proof.
  intros Hi Hend Hstep. revert s Hi. induction l as [|x l IH]; intros s Hi; [by apply Hend|]. simpl. apply wp_bind.
  eapply wp_mono; [by apply Hstep|]. intros [[]|e] s'; simpl; [apply IH|done].
Qed.
End wp.
End effects.

Arguments prog Q R E A : clear implicits.
Arguments Ret {Q R E A} a.
Arguments Fail {Q R E A} e.
Arguments Call {Q R E A} q k.

(** Go through a program, whatever it was answered; the requests are left. *)
Ltac asks_step :=
  match goal with
  | |- asks _ (Ret _) => exact I
  | |- asks _ (Fail _) => exact I
  | |- asks _ (mret _) => exact I
  | |- asks _ (lift _) => apply asks_lift
  | |- asks _ (mbind _ _) => apply asks_bind; [|intros ?]
  | |- asks _ (try _) => apply asks_try
  | |- asks _ (wrap _ _) => apply asks_wrap
  | |- asks _ (forP_ _ _) => apply asks_forP; intros ?
  | |- asks _ (call _) => apply asks_call
  | |- asks _ (match ?x with _ => _ end) => destruct x
  | |- asks _ (let '_ := ?x in _) => destruct x
  end.
