(* ===== verification/Json.v ===== *)
(** Decoding a JSON document into a typed value, as encoding/json does for the
    clients of REST services.

    A document is a [value] in which a whole literal is a [VInt] and any other number
    a [VFloat]; an object keeps its entries in the order of the text. A field is found
    by its name whatever the case of ASCII letters, a null leaves it as it is, the
    last entry of a name counts, and a value of another type fails the decoding. *)
From S2P Require Import Prelude GoStrings GoValue.
From Stdlib Require Import Ascii.
From Corelib Require Import Floats.SpecFloat.

(** Decoding into a variable that has a value. *)
Definition decoder (A : Type) : Type := value → A → option A.

Definition dec_str : decoder string := λ v s,
  match v with VStr t => Some t | VNull => Some s | _ => None end.

Definition in_int64 (z : Z) : bool := (int64_min <=? z)%Z && (z <=? int64_max)%Z.

Definition dec_int : decoder Z := λ v z,
  match v with VInt n => if in_int64 n then Some n else None | VNull => Some z | _ => None end.

Definition dec_float : decoder spec_float := λ v x,
  match v with
  | VInt n => match f64_of_Z n with S754_infinity _ => None | f => Some f end
  | VFloat f => Some f
  | VNull => Some x
  | _ => None
  end.

(** [json.RawMessage] *)
Definition dec_raw : decoder (option value) := λ v _, Some (Some v).

(** A slice; an element starts at its zero value. *)
Definition dec_list {A} (d : value → option A) : decoder (list A) := λ v _,
  match v with VList l => mapM d l | VNull => Some [] | _ => None end.

(** [map[string]any]; null is the nil map. *)
Definition read_map (m : gomap) : gomap := foldl (λ o p, assoc_set p.1 (json_read p.2) o) [] m.
Definition dec_map : decoder (option gomap) := λ v _,
  match v with VMap m => Some (Some (read_map m)) | VNull => Some None | _ => None end.

(** A field of a struct. *)
Definition jfield {A} (key : string) (d : decoder A) (init : A) (m : gomap) : option A :=
  foldl (λ acc p, acc ≫= λ a, if decide (ToLower p.1 = key) then d p.2 a else Some a) (Some init) m.

(** [json.Unmarshal] whose error is ignored: what has the wrong type is left as it is. *)
Definition lfield {A} (key : string) (d : decoder A) (init : A) (m : gomap) : A :=
  foldl (λ a p, if decide (ToLower p.1 = key) then default a (d p.2 a) else a) init m.
Definition object (v : option value) : gomap := match v with Some (VMap m) => m | _ => [] end.

(** A struct that is not null. *)
Definition dec_object {A} (f : gomap → option A) : value → option A := λ v, match v with VMap m => f m | _ => None end.

(** [var result struct { Data T }] *)
Definition dec_data {A} (d : decoder A) (zero : A) (doc : value) : option A :=
  match doc with VMap m => jfield "data" d zero m | VNull => Some zero | _ => None end.

(** Entries of other names do not matter. *)
Lemma jfield_other {A} key (d : decoder A) init m :
  Forall (λ p, ToLower p.1 ≠ key) m → jfield key d init m = Some init.
Proof.
  unfold jfield. generalize (Some init). induction m as [|[k v] m IH]; intros o Hm; [done|].
  apply Forall_cons in Hm as [Hk Hm]. simpl in *. rewrite IH by done. destruct o; simpl; [by rewrite decide_False|done].
Qed.

(** ** Writing structs *)

(** Fields with [omitempty]. *)
Definition omit_str (key s : string) : gomap := if decide (s = "") then [] else [(key, VStr s)].
Definition omit_map (key : string) (m : gomap) : gomap := match m with [] => [] | _ => [(key, VMap m)] end.
Definition omit_list (key : string) (l : list value) : gomap := match l with [] => [] | _ => [(key, VList l)] end.

Definition omit_raw (key : string) (o : option value) : gomap := match o with Some v => [(key, v)] | None => [] end.
Definition omit_bool (key : string) (b : bool) : gomap := if b then [(key, VBool true)] else [].
Definition dec_bool : decoder bool := λ v b, match v with VBool b => Some b | VNull => Some b | _ => None end.

(** [[]string] *)
Definition enc_strs (l : list string) : list value := map VStr l.
Definition dec_strs : decoder (list string) := dec_list (λ v, dec_str v "").

(** [map[string]string] *)
Definition enc_strmap (m : list (string * string)) : gomap := map (λ p, (p.1, VStr p.2)) m.
Definition dec_strmap : decoder (list (string * string)) := λ v o,
  match v with
  | VMap m => foldl (λ acc p, acc ≫= λ o, s ← dec_str p.2 ""; Some (assoc_set p.1 s o)) (Some o) m
  | VNull => Some []
  | _ => None
  end.

(** A pointer; null is nil. *)
Definition dec_ptr {A} (zero : A) (d : decoder A) : decoder (option A) := λ v o,
  match v with VNull => Some None | _ => Some <$> d v (default zero o) end.

(** A struct. *)
Definition dec_struct {A} (f : gomap → A → option A) : decoder A := λ v a,
  match v with VMap m => f m a | VNull => Some a | _ => None end.

(** ** Resources (pkg/protocol/resource.go) *)

Definition enc_metadata (md : resource_metadata) : value :=
  VMap ([("name", VStr (md_name md))] ++ omit_str "namespace" (md_namespace md) ++ omit_map "labels" (enc_strmap (md_labels md)) ++
    omit_map "annotations" (enc_strmap (md_annotations md)) ++ omit_str "uid" (md_uid md) ++ omit_str "createdAt" (md_created_at md)).
Definition dec_metadata : decoder resource_metadata := dec_struct (λ m md,
  n ← jfield "name" dec_str (md_name md) m; ns ← jfield "namespace" dec_str (md_namespace md) m;
  l ← jfield "labels" dec_strmap (md_labels md) m; a ← jfield "annotations" dec_strmap (md_annotations md) m;
  u ← jfield "uid" dec_str (md_uid md) m; c ← jfield "createdat" dec_str (md_created_at md) m;
  Some (ResourceMetadata n ns l a u c)).

Definition zero_resource : resource := Resource "" "" (ResourceMetadata "" "" [] [] "" "") None None.
(** [json.Marshal] of a resource fails on a number that JSON does not have. *)
Definition enc_resource (r : resource) : option value :=
  if json_ok (VMap (fields (r_spec r))) && json_ok (VMap (fields (r_status r))) then
    Some (VMap ([("apiVersion", VStr (r_apiVersion r)); ("kind", VStr (r_kind r)); ("metadata", enc_metadata (r_metadata r))] ++
      omit_map "spec" (fields (r_spec r)) ++ omit_map "status" (fields (r_status r))))
  else None.
Definition dec_resource : decoder resource := dec_struct (λ m r,
  v ← jfield "apiversion" dec_str (r_apiVersion r) m; k ← jfield "kind" dec_str (r_kind r) m;
  md ← jfield "metadata" dec_metadata (r_metadata r) m; s ← jfield "spec" dec_map (r_spec r) m;
  st ← jfield "status" dec_map (r_status r) m; Some (Resource v k md s st)).

(** The maps of a resource have no repeated keys. *)
Definition maps_ok (r : resource) : Prop :=
  NoDup (r_labels r).*1 ∧ NoDup (r_annotations r).*1 ∧ NoDup (fields (r_spec r)).*1 ∧ NoDup (fields (r_status r)).*1.

Lemma foldl_assoc_set {A B} (f : A → B) (m : list (string * A)) (acc : list (string * B)) :
  NoDup m.*1 → (∀ k, k ∈ m.*1 → k ∉ acc.*1) →
  foldl (λ o p, assoc_set p.1 (f p.2) o) acc m = acc ++ map (λ p, (p.1, f p.2)) m.
Proof.
  revert acc. induction m as [|[k v] m IH]; intros acc Hn Hd; [by rewrite app_nil_r|]. csimpl in *. apply NoDup_cons in Hn as [Hk Hn].
  rewrite assoc_set_fresh by (apply assoc_None, Hd; left). rewrite IH; [by rewrite <- app_assoc|done|].
  intros k' Hk'. rewrite fmap_app, not_elem_of_app. split; [apply Hd; by right|]. simpl. rewrite list_elem_of_singleton. by intros ->.
Qed.

Lemma read_map_id m : NoDup m.*1 → read_map m = json_read_map m.
Proof. intros Hn. unfold read_map. rewrite foldl_assoc_set; [done|done|]. intros k _. by intros ?%elem_of_nil. Qed.

Lemma dec_strmap_enc m : NoDup m.*1 → dec_strmap (VMap (enc_strmap m)) [] = Some m.
Proof.
  intros Hn. unfold dec_strmap, enc_strmap.
  assert (∀ acc, NoDup m.*1 → (∀ k, k ∈ m.*1 → k ∉ acc.*1) →
    foldl (λ o (p : string * value), o ≫= λ o, s ← dec_str p.2 ""; Some (assoc_set p.1 s o)) (Some acc) (map (λ p, (p.1, VStr p.2)) m) =
    Some (acc ++ m)) as H; [|by apply (H []); [|intros k _ ?%elem_of_nil]].
  clear Hn. induction m as [|[k v] m IH]; intros acc Hn Hd; [by rewrite app_nil_r|]. csimpl in *. apply NoDup_cons in Hn as [Hk Hn].
  rewrite assoc_set_fresh by (apply assoc_None, Hd; left). rewrite IH; [by rewrite <- app_assoc|done|].
  intros k' Hk'. rewrite fmap_app, not_elem_of_app. split; [apply Hd; by right|]. simpl. rewrite list_elem_of_singleton. by intros ->.
Qed.

(** ** Reading back what was written *)

(** No entry of that name. *)
Definition lacks (key : string) (m : gomap) : Prop := Forall (λ p, ToLower p.1 ≠ key) m.

Lemma lacks_nil key : lacks key [].
Proof. constructor. Qed.
Lemma lacks_cons key k v m : ToLower k ≠ key → lacks key m → lacks key ((k, v) :: m).
Proof. by constructor. Qed.
Lemma lacks_app key m m' : lacks key m → lacks key m' → lacks key (m ++ m').
Proof. intros H H'. by apply Forall_app. Qed.
Lemma lacks_omit_str key k s : ToLower k ≠ key → lacks key (omit_str k s).
Proof. intros H. unfold omit_str. case_decide; by repeat constructor. Qed.
Lemma lacks_omit_map key k m : ToLower k ≠ key → lacks key (omit_map k m).
Proof. intros H. destruct m; by repeat constructor. Qed.
Lemma lacks_omit_list key k l : ToLower k ≠ key → lacks key (omit_list k l).
Proof. intros H. destruct l; by repeat constructor. Qed.
Lemma lacks_omit_bool key k b : ToLower k ≠ key → lacks key (omit_bool k b).
Proof. intros H. destruct b; by repeat constructor. Qed.
Lemma lacks_omit_raw key k o : ToLower k ≠ key → lacks key (omit_raw k o).
Proof. intros H. destruct o; by repeat constructor. Qed.

Section fields.
Context {A : Type} (key : string) (d : decoder A) (init : A).

Lemma jfield_lacks m : lacks key m → jfield key d init m = Some init.
Proof. apply jfield_other. Qed.
Lemma jfield_skip m m' : lacks key m → jfield key d init (m ++ m') = jfield key d init m'.
Proof. intros H. unfold jfield. rewrite foldl_app. fold (jfield key d init m). by rewrite jfield_other. Qed.
Lemma jfield_hit k v m : ToLower k = key → lacks key m → jfield key d init ([(k, v)] ++ m) = d v init.
Proof.
  intros Hk Hm. unfold jfield. rewrite foldl_app. simpl. rewrite decide_True by done. destruct (d v init) as [a|].
  - fold (jfield key d a m). by rewrite jfield_other.
  - clear Hm. by induction m.
Qed.
End fields.

(** The field that is there, by the way it was written. *)
Lemma jfield_str key k s m : ToLower k = key → lacks key m → jfield key dec_str "" ([(k, VStr s)] ++ m) = Some s.
Proof. intros Hk Hm. by rewrite jfield_hit. Qed.
Lemma jfield_omit_str key k s m : ToLower k = key → lacks key m → jfield key dec_str "" (omit_str k s ++ m) = Some s.
Proof. intros Hk Hm. unfold omit_str. case_decide; [subst; by rewrite jfield_lacks|by rewrite jfield_hit]. Qed.
Lemma jfield_omit_strmap key k l m :
  ToLower k = key → lacks key m → NoDup l.*1 → jfield key dec_strmap [] (omit_map k (enc_strmap l) ++ m) = Some l.
Proof.
  intros Hk Hm Hn. destruct l as [|p l]; [by rewrite jfield_lacks|]. change (omit_map k _) with [(k, VMap (enc_strmap (p :: l)))].
  rewrite jfield_hit by done. by apply dec_strmap_enc.
Qed.
Lemma jfield_omit_map key k o m :
  ToLower k = key → lacks key m → NoDup (fields o).*1 →
  jfield key dec_map None (omit_map k (fields o) ++ m) = Some (json_read_map <$> omit_empty o).
Proof.
  intros Hk Hm Hn. destruct o as [[|p l]|]; simpl; [by rewrite jfield_lacks| |by rewrite jfield_lacks].
  change ((k, VMap (p :: l)) :: m) with ([(k, VMap (p :: l))] ++ m). rewrite jfield_hit by done. unfold dec_map. by rewrite read_map_id.
Qed.
Lemma jfield_omit_raw key k o m : ToLower k = key → lacks key m → jfield key dec_raw None (omit_raw k o ++ m) = Some o.
Proof. intros Hk Hm. destruct o as [v|]; [|by apply jfield_lacks]. change (omit_raw k (Some v)) with [(k, v)]. by rewrite jfield_hit. Qed.
Lemma jfield_omit_bool key k b m : ToLower k = key → lacks key m → jfield key dec_bool false (omit_bool k b ++ m) = Some b.
Proof. intros Hk Hm. destruct b; [|by apply jfield_lacks]. change (omit_bool k true) with [(k, VBool true)]. by rewrite jfield_hit. Qed.
Lemma dec_list_enc {A} (enc : A → value) (d : value → option A) l : (∀ a, d (enc a) = Some a) → dec_list d (VList (map enc l)) [] = Some l.
Proof. intros He. simpl. induction l as [|a l IH]; [done|]. simpl. by rewrite He, IH. Qed.
Lemma jfield_omit_list {A} key k (enc : A → value) d l m :
  ToLower k = key → lacks key m → (∀ a, d (enc a) = Some a) → jfield key (dec_list d) [] (omit_list k (map enc l) ++ m) = Some l.
Proof.
  intros Hk Hm He. destruct l as [|a l]; [by rewrite jfield_lacks|]. change (omit_list k _) with [(k, VList (map enc (a :: l)))].
  rewrite jfield_hit by done. by apply dec_list_enc.
Qed.
Lemma jfield_omit_strs key k l m : ToLower k = key → lacks key m → jfield key dec_strs [] (omit_list k (enc_strs l) ++ m) = Some l.
Proof. intros Hk Hm. by apply (jfield_omit_list key k VStr (λ v, dec_str v "")). Qed.

(** A document that is well-formed is read alike by the two. *)
Lemma lfield_jfield {A} key (d : decoder A) init m a : jfield key d init m = Some a → lfield key d init m = a.
Proof.
  unfold jfield, lfield. revert init. induction m as [|p m IH]; intros init; simpl; [by intros [= ->]|]. case_decide as Hk; [|apply IH].
  destruct (d p.2 init) as [x|] eqn:Hx; simpl; [apply IH|]. intros H. exfalso. clear -H. induction m as [|p' m IH]; [done|]. by apply IH.
Qed.

Lemma tail_nil {A} (l : list A) : l ++ [] = l.
Proof. apply app_nil_r. Qed.

(** Decide by computing names; go to the field that is read. *)
Ltac differ := vm_compute; discriminate.
Ltac lacks_tac :=
  repeat first [ apply lacks_nil | apply lacks_app | apply lacks_omit_str; differ | apply lacks_omit_map; differ
               | apply lacks_omit_list; differ | apply lacks_omit_raw; differ | apply lacks_omit_bool; differ | apply lacks_cons; [differ|] ].
Ltac read_field :=
  repeat (rewrite jfield_skip by (lacks_tac; fail));
  first [ rewrite jfield_str by (reflexivity || lacks_tac) | rewrite jfield_omit_str by (reflexivity || lacks_tac)
        | rewrite jfield_omit_strmap by (reflexivity || lacks_tac || assumption)
        | rewrite jfield_omit_map by (reflexivity || lacks_tac || assumption)
        | rewrite jfield_omit_raw by (reflexivity || lacks_tac) | rewrite jfield_omit_bool by (reflexivity || lacks_tac)
        | rewrite jfield_omit_strs by (reflexivity || lacks_tac) | rewrite jfield_hit by (reflexivity || lacks_tac) ];
  cbn [mbind option_bind].

Lemma dec_metadata_enc md :
  NoDup (md_labels md).*1 → NoDup (md_annotations md).*1 → dec_metadata (enc_metadata md) (r_metadata zero_resource) = Some md.
Proof.
  intros Hl Ha. unfold enc_metadata, dec_metadata, dec_struct.
  cbn [md_name md_namespace md_labels md_annotations md_uid md_created_at r_metadata zero_resource].
  rewrite <- (tail_nil (omit_str "createdAt" _)).
  repeat read_field. by destruct md.
Qed.

(** A resource that is written and read is the one of [json_resource]. *)
Lemma dec_resource_enc r : maps_ok r → enc_resource r ≫= (λ v, dec_resource v zero_resource) = json_resource r.
Proof.
  intros (Hl & Ha & Hs & Hst). unfold enc_resource, json_resource. destruct (_ && _); [|done]. cbn [mbind option_bind].
  unfold dec_resource, dec_struct. rewrite <- (tail_nil (omit_map "status" _)). change [?a; ?b; ?c] with ([a] ++ [b] ++ [c]). rewrite <- !app_assoc.
  cbn [r_apiVersion r_kind r_metadata r_spec r_status zero_resource].
  do 2 read_field. rewrite !jfield_skip by lacks_tac. rewrite jfield_hit by (reflexivity || lacks_tac).
  rewrite dec_metadata_enc by done. cbn [mbind option_bind]. repeat read_field. done.
Qed.
