(* ===== verification/ProxmoxClient.v ===== *)
(** The Proxmox REST client: src/pkg/proxmox/client/.

    A request goes to an endpoint with the client's token; its answer is a status and
    a body, or nothing when it cannot be sent or read. Waiting and the upload of a
    snippet over ssh are requests too. JSON decodes texts into documents; the number
    of polls a timeout leaves time for is an argument. *)
From S2P Require Import Prelude GoStrings GoValue Json Effects Drift ClusterSpec ClusterPlan NodeAgent VMConfig.
From Stdlib Require Import Ascii.
From Corelib Require Import Floats.SpecFloat.

(** ** Image checksums *)

(** [ImageChecksum]; the zero value has no algorithm. *)
Record ImageChecksum : Type := MkChecksum { algorithm : string; digest : string }.

Inductive checksum_error : Type :=
| ErrFormat
| ErrAlgorithm (a : string)
| ErrLength (a : string) (n : nat)
| ErrHex (a : string).

Definition digest_length (a : string) : option nat :=
  assoc a [("md5", 32); ("sha1", 40); ("sha224", 56); ("sha256", 64); ("sha384", 96); ("sha512", 128)].

Definition is_hex (c : ascii) : bool :=
  let n := nat_of_ascii c in
  ((48 <=? n) && (n <=? 57)) || ((97 <=? n) && (n <=? 102)) || ((65 <=? n) && (n <=? 70)).

Fixpoint all_bytes (f : ascii → bool) (s : string) : bool :=
  match s with EmptyString => true | String c s => f c && all_bytes f s end.

(** [ParseImageChecksum] *)
Definition ParseImageChecksum (v : string) : result checksum_error ImageChecksum :=
  if decide (v = "") then Ok (MkChecksum "" "")
  else match cut_byte ":" v with
  | None => Err ErrFormat
  | Some (a, d) =>
      match digest_length a with
      | None => Err (ErrAlgorithm a)
      | Some n =>
          if decide (String.length d ≠ n) then Err (ErrLength a n)
          else if all_bytes is_hex d then Ok (MkChecksum a (ToLower d)) else Err (ErrHex a)
      end
  end.

(** [TemplateTag] *)
Definition TemplateTag (c : ImageChecksum) : string :=
  if decide (algorithm c = "") then "" else "openctl-image-" +:+ algorithm c +:+ "-" +:+ digest c.

(** ** Requests *)

Inductive verb : Type := GET | POST | PUT | DELETE.

(** The paths below /api2/json. *)
Inductive path : Type :=
| PNodes
| PNodeStorages (node : string)
| PNodeBridges (node : string)
| PQemu (node : string)
| PVM (node : string) (vmid : Z)
| PConfig (node : string) (vmid : Z)
| PClone (node : string) (vmid : Z)
| PResize (node : string) (vmid : Z)
| PStatus (node : string) (vmid : Z) (action : string)
| PToTemplate (node : string) (vmid : Z)
| PCloudInit (node : string) (vmid : Z)
| PAgent (node : string) (vmid : Z)
| PTask (node upid : string)
| PContent (node storage content : string)
| PDownload (node storage : string)
| PStorage (storage : string)
| PNextID.

Definition node_path (node : string) : string := "/api2/json/nodes/" +:+ node.
Definition vm_path (node : string) (vmid : Z) : string := node_path node +:+ "/qemu/" +:+ pretty vmid.

(** The path of a request, in which [escape] is [url.PathEscape]. *)
Definition render_path (escape : string → string) (p : path) : string :=
  match p with
  | PNodes => "/api2/json/nodes"
  | PNodeStorages n => node_path n +:+ "/storage"
  | PNodeBridges n => node_path n +:+ "/network?type=bridge"
  | PQemu n => node_path n +:+ "/qemu"
  | PVM n i => vm_path n i
  | PConfig n i => vm_path n i +:+ "/config"
  | PClone n i => vm_path n i +:+ "/clone"
  | PResize n i => vm_path n i +:+ "/resize"
  | PStatus n i a => vm_path n i +:+ "/status/" +:+ a
  | PToTemplate n i => vm_path n i +:+ "/template"
  | PCloudInit n i => vm_path n i +:+ "/cloudinit"
  | PAgent n i => vm_path n i +:+ "/agent/network-get-interfaces"
  | PTask n u => node_path n +:+ "/tasks/" +:+ escape u +:+ "/status"
  | PContent n s c => node_path n +:+ "/storage/" +:+ s +:+ "/content" +:+ (if nonempty c then "?content=" +:+ c else "")
  | PDownload n s => node_path n +:+ "/storage/" +:+ s +:+ "/download-url"
  | PStorage s => "/api2/json/storage/" +:+ s
  | PNextID => "/api2/json/cluster/nextid"
  end.

(** A form is encoded with its keys in order. *)
Abbreviation form := (list (string * string)).

Inductive request : Type :=
| Http (endpoint : string) (v : verb) (p : path) (params : option form)
| Ssh (args : list string) (input : string)
| Sleep (seconds : Z).

(** A status and a body; [None] for a request that fails, for a command that does, and
    for a sleep that is cut short because the context is cancelled. *)
Abbreviation answer := (option (Z * string)).

Inductive px_error : Type :=
| ErrRequest
| ErrStatus (status : Z) (body : string)
| ErrDecode (what : string)
| ErrNoConfig
| ErrNotFound (what name : string)
| ErrVMID (data : string)
| ErrNoDisk (disk : string) (vmid : Z)
| ErrTask (upid exitstatus : string)
| ErrTaskTimeout
| ErrCancelled
| ErrNoUPID
| ErrNoIPv4
| ErrIPTimeout
| ErrSnippetNode (node : string)
| ErrSnippetHost (node : string)
| ErrSnippetUser
| ErrSnippetStorage (storage : string)
| ErrSnippetName (name : string)
| ErrUpload (node : string)
| ErrYaml
| ErrNoSnippets (node : string)
| ErrUnverified (template : string)
| ErrSize (size : string)
| ErrShrink (disk : string) (current : Z) (size : string)
| ErrIn (context : string) (e : px_error).

#[export] Instance px_error_eq_dec : EqDecision px_error.
Proof. solve_decision. Defined.

(** [errors.Is(err, ErrNotFound)] *)
Fixpoint is_not_found (e : px_error) : bool :=
  match e with ErrNotFound _ _ => true | ErrIn _ e => is_not_found e | _ => false end.

(** ** Pure parts *)

Record NodeStorage : Type := MkNodeStorage { ns_Storage : string; ns_Type : string; ns_Content : string; ns_Active : Z }.

(** [storageSupportsSnippets] *)
Definition storageSupportsSnippets (s : NodeStorage) : bool :=
  existsb (λ c, bool_decide (trim_space c = "snippets")) (split_on "," (ns_Content s)).

(** [PickSnippetsStorage] *)
Definition PickSnippetsStorage (storages : list NodeStorage) (preferred : string) : option string :=
  let capable := ns_Storage <$> filter (λ s, storageSupportsSnippets s = true) storages in
  if decide (preferred ∈ capable) then Some preferred else head (sort_strings capable).

(** [MergeDiskOptions]: an option is what has an equals sign. *)
Definition disk_options (parts : list string) : list (string * string) :=
  foldl (λ m p, match cut_byte "=" p with Some (k, x) => assoc_set k x m | None => m end) [] parts.

Definition MergeDiskOptions (existing : string) (overrides : list (string * string)) : string :=
  let parts := split_on "," existing in
  let merged := foldl (λ m p, assoc_set p.1 p.2 m) (disk_options (tail parts)) overrides in
  join "," (default "" (head parts) :: map (λ p, p.1 +:+ "=" +:+ p.2) (sort_entries merged)).

(** [shellQuote] *)
Definition dquote (s : string) : string := String "034" (s +:+ String "034" "").
Definition shellQuote (v : string) : string := "'" +:+ replace_all "'" ("'" +:+ dquote "'" +:+ "'") v +:+ "'".

Definition alphanumeric (c : ascii) : bool :=
  let n := nat_of_ascii c in
  ((97 <=? n) && (n <=? 122)) || ((65 <=? n) && (n <=? 90)) || ((48 <=? n) && (n <=? 57)).

(** [safeSnippetComponent] *)
Definition safeSnippetComponent (v : string) (dots : bool) : bool :=
  match v with
  | EmptyString => false
  | String c _ =>
      negb (bool_decide (c ∈ ["-"; "."]%char)) &&
      all_bytes (λ c, alphanumeric c || bool_decide (c ∈ ["_"; "-"]%char) || (dots && bool_decide (c = "."%char))) v
  end.

(** [safeSnippetSSHHost] *)
Definition safeSnippetSSHHost (h : string) : bool :=
  match h with
  | EmptyString => false
  | String c _ =>
      negb (bool_decide (c = "-"%char)) &&
      all_bytes (λ c, alphanumeric c || bool_decide (c ∈ ["."; "-"; "_"; ":"; "["; "]"; "%"]%char)) h
  end.

(** [snippetUploadScript] *)
Definition lines (l : list string) : string := foldr (λ s t, s +:+ String newline t) "" l.
Definition snippetUploadScript : string := lines
  ["set -eu"; "volid=$1"; "expected=$2"; "path=$(pvesm path " +:+ dquote "$volid" +:+ ")";
   "case " +:+ dquote "$path" +:+ " in"; "  /*) ;;";
   "  *) printf '%s\n' 'pvesm returned a non-absolute snippet path' >&2; exit 1 ;;"; "esac"; "dir=${path%/*}";
   "mkdir -p -m 0755 -- " +:+ dquote "$dir"; "umask 077"; "tmp=$(mktemp " +:+ dquote "$dir/.openctl-snippet.XXXXXXXXXX" +:+ ")";
   "trap 'rm -f -- " +:+ dquote "$tmp" +:+ "' EXIT"; "trap 'exit 1' HUP INT TERM"; "cat > " +:+ dquote "$tmp";
   "actual=$(wc -c < " +:+ dquote "$tmp" +:+ ")"; "if ! [ " +:+ dquote "$actual" +:+ " -eq " +:+ dquote "$expected" +:+ " ]; then";
   "  printf '%s\n' 'incomplete snippet input' >&2"; "  exit 1"; "fi"; "chmod 0644 -- " +:+ dquote "$tmp";
   "mv -fT -- " +:+ dquote "$tmp" +:+ " " +:+ dquote "$path"].

(** [VendorSnippetName], [QemuAgentSnippetName], [QemuAgentSnippetContent] *)
Definition VendorSnippetName (vmid : Z) : string := "openctl-vendor-" +:+ pretty vmid +:+ ".yaml".
Definition QemuAgentSnippetName : string := "openctl-qemu-agent.yaml".
Definition QemuAgentSnippetContent : string := lines
  ["#cloud-config"; "# This snippet enables qemu-guest-agent for IP detection"; "# Created by openctl"; "runcmd:";
   "  - systemctl enable qemu-guest-agent"; "  - systemctl start qemu-guest-agent"].
Definition agentRunCmds : list string := ["systemctl enable qemu-guest-agent"; "systemctl start qemu-guest-agent"].

(** ** Answers *)

Record VM : Type := MkVM {
  vm_VMID : Z; vm_Name : string; vm_Status : string; vm_Mem : Z; vm_MaxMem : Z; vm_CPU : spec_float; vm_CPUs : Z;
  vm_Uptime : Z; vm_Node : string; vm_Template : Z }.

(** The other numbers of a machine are decoded and not used. *)
Definition decode_vm : value → option VM := dec_object (λ m,
  id ← jfield "vmid" dec_int 0%Z m; name ← jfield "name" dec_str "" m; status ← jfield "status" dec_str "" m;
  mem ← jfield "mem" dec_int 0%Z m; maxmem ← jfield "maxmem" dec_int 0%Z m;
  _ ← mapM (λ k, jfield k dec_int 0%Z m) ["disk"; "maxdisk"; "netin"; "netout"; "diskread"; "diskwrite"];
  cpu ← jfield "cpu" dec_float (S754_zero false) m; cpus ← jfield "cpus" dec_int 0%Z m;
  uptime ← jfield "uptime" dec_int 0%Z m; node ← jfield "node" dec_str "" m; tpl ← jfield "template" dec_int 0%Z m;
  Some (MkVM id name status mem maxmem cpu cpus uptime node tpl)).

Definition on_node (node : string) (v : VM) : VM :=
  MkVM (vm_VMID v) (vm_Name v) (vm_Status v) (vm_Mem v) (vm_MaxMem v) (vm_CPU v) (vm_CPUs v) (vm_Uptime v) node (vm_Template v).

Record Node : Type := MkNode {
  nd_Node : string; nd_Status : string; nd_CPU : spec_float; nd_MaxCPU : Z; nd_Mem : Z; nd_MaxMem : Z; nd_Disk : Z;
  nd_MaxDisk : Z; nd_Uptime : Z; nd_Level : string }.

Definition decode_node : value → option Node := dec_object (λ m,
  node ← jfield "node" dec_str "" m; status ← jfield "status" dec_str "" m; cpu ← jfield "cpu" dec_float (S754_zero false) m;
  maxcpu ← jfield "maxcpu" dec_int 0%Z m; mem ← jfield "mem" dec_int 0%Z m; maxmem ← jfield "maxmem" dec_int 0%Z m;
  disk ← jfield "disk" dec_int 0%Z m; maxdisk ← jfield "maxdisk" dec_int 0%Z m; uptime ← jfield "uptime" dec_int 0%Z m;
  level ← jfield "level" dec_str "" m;
  Some (MkNode node status cpu maxcpu mem maxmem disk maxdisk uptime level)).

Definition decode_storage : value → option NodeStorage := dec_object (λ m,
  s ← jfield "storage" dec_str "" m; t ← jfield "type" dec_str "" m; c ← jfield "content" dec_str "" m;
  a ← jfield "active" dec_int 0%Z m; Some (MkNodeStorage s t c a)).

Record NodeBridge : Type := MkBridge { br_Iface : string; br_Active : Z }.
Definition decode_bridge : value → option NodeBridge := dec_object (λ m,
  i ← jfield "iface" dec_str "" m; a ← jfield "active" dec_int 0%Z m; Some (MkBridge i a)).

(** A whole number, or a text that is one. *)
Definition config_int (o : option value) : option Z :=
  match o with
  | None => Some 0%Z
  | Some (VInt z) => if in_int64 z then Some z else None
  | Some (VStr s) => atoi s
  | Some _ => None
  end.

(** [VMConfig.UnmarshalJSON] *)
Definition decode_config : value → option vm_config := dec_object (λ m,
  _ ← mapM (λ k, jfield k dec_str "" m) ["name"; "boot"]; os ← jfield "ostype" dec_str "" m;
  scsi0 ← jfield "scsi0" dec_str "" m; net0 ← jfield "net0" dec_str "" m; ide2 ← jfield "ide2" dec_str "" m;
  ip0 ← jfield "ipconfig0" dec_str "" m; user ← jfield "ciuser" dec_str "" m; keys ← jfield "sshkeys" dec_str "" m;
  cores ← jfield "cores" dec_raw None m ≫= config_int;
  sockets ← jfield "sockets" dec_raw None m ≫= config_int; memory ← jfield "memory" dec_raw None m ≫= config_int;
  Some (MkVMConfig cores sockets memory os scsi0 net0 ide2 ip0 user keys (read_map m))).

(** A pointer to a configuration; null is nil. *)
Definition dec_config : decoder (option vm_config) := λ v _,
  match v with VNull => Some None | _ => Some <$> decode_config v end.

Record task_status : Type := MkTask { tk_Status : string; tk_Exit : string }.
Definition dec_task : decoder task_status := λ v t,
  match v with
  | VMap m => s ← jfield "status" dec_str (tk_Status t) m; e ← jfield "exitstatus" dec_str (tk_Exit t) m; Some (MkTask s e)
  | VNull => Some t
  | _ => None
  end.

Record StorageInfo : Type := MkStorageInfo { si_Content : string }.
Definition dec_storage_info : decoder StorageInfo := λ v i,
  match v with
  | VMap m => _ ← mapM (λ k, jfield k dec_str "" m) ["storage"; "type"; "path"]; c ← jfield "content" dec_str (si_Content i) m;
              Some (MkStorageInfo c)
  | VNull => Some i
  | _ => None
  end.

Definition decode_volid : value → option string := dec_object (λ m,
  v ← jfield "volid" dec_str "" m; _ ← mapM (λ k, jfield k dec_str "" m) ["format"; "content"]; _ ← jfield "size" dec_int 0%Z m;
  Some v).

Record AgentIPAddress : Type := MkAgentIP { ai_Type : string; ai_Address : string }.
Definition decode_agent_ip : value → option AgentIPAddress := dec_object (λ m,
  t ← jfield "ip-address-type" dec_str "" m; a ← jfield "ip-address" dec_str "" m; _ ← jfield "prefix" dec_int 0%Z m;
  Some (MkAgentIP t a)).
Record AgentNetworkInterface : Type := MkAgentIface { an_Name : string; an_IPAddresses : list AgentIPAddress }.
Definition decode_agent_iface : value → option AgentNetworkInterface := dec_object (λ m,
  n ← jfield "name" dec_str "" m; _ ← jfield "hardware-address" dec_str "" m;
  ips ← jfield "ip-addresses" (dec_list decode_agent_ip) [] m; Some (MkAgentIface n ips)).
Definition dec_agent : decoder (list AgentNetworkInterface) := λ v l,
  match v with VMap m => jfield "result" (dec_list decode_agent_iface) l m | VNull => Some l | _ => None end.

(** The first IPv4 address that is not of the loopback. *)
Definition first_ipv4 (l : list AgentNetworkInterface) : option string :=
  head (ai_Address <$> filter (λ a, ai_Type a = "ipv4" ∧ has_prefix "127." (ai_Address a) = false)
    (concat (an_IPAddresses <$> filter (λ i, an_Name i ≠ "lo") l))).

(** ** Calls *)

(** [Client], and where snippets go; the token is part of every request. *)
Record Client : Type := MkClient {
  c_endpoint : string; snippetSSHHosts : list (string * string); snippetSSHUser : string; snippetSSHIdentityFile : string }.

(** [New] and [SetSnippetSSH] *)
Definition New (endpoint : string) : Client := MkClient (trim_suffix "/" endpoint) [] "" "".
Definition SetSnippetSSH (hosts : list (string * string)) (user identity : string) (c : Client) : Client :=
  MkClient (c_endpoint c) hosts user identity.

Abbreviation P := (prog request answer px_error).

Section client.
Context (Json : string → option value) (float_v : spec_float → string).
(** How often one can look, two or five seconds apart, before a timeout. *)
Context (polls : Z → nat).
(** [yaml.Marshal] of a vendor configuration *)
Context (yaml_vendor : bool → list string → list string → option string).

(** [values.Set(k, fmt.Sprintf("%v", v))]; the encoding orders the keys. *)
Definition form_of (params : gomap) : form := sort_entries (map (λ p, (p.1, sprint_v float_v p.2)) params).

(** [doRequest] *)
Definition doRequest (c : Client) (v : verb) (p : path) (params : option gomap) : P string :=
  r ← call (Http (c_endpoint c) v p (form_of <$> params));
  match r with
  | None => Fail ErrRequest
  | Some (status, body) => if (400 <=? status)%Z then Fail (ErrStatus status body) else Ret body
  end.

Definition get (c : Client) (p : path) : P string := doRequest c GET p None.
Definition post (c : Client) (p : path) (params : option gomap) : P string := doRequest c POST p params.
Definition put (c : Client) (p : path) (params : option gomap) : P string := doRequest c PUT p params.
Definition delete (c : Client) (p : path) : P string := doRequest c DELETE p None.

(** [json.Unmarshal] of the data of an answer *)
Definition decode_data {A} (d : decoder A) (zero : A) (body : string) : option A := Json body ≫= dec_data d zero.
Definition unmarshal {A} (what : string) (d : decoder A) (zero : A) (body : string) : P A :=
  match decode_data d zero body with Some a => Ret a | None => Fail (ErrDecode what) end.

(** The task of an answer, or nothing. *)
Definition task_id (body : string) : string := default "" (decode_data dec_str "" body).

(** [ListNodes], [GetNode], [listNodes] *)
Definition ListNodes (c : Client) : P (list Node) :=
  body ← get c PNodes; unmarshal "nodes" (dec_list decode_node) [] body.
Definition GetNode (c : Client) (name : string) : P Node :=
  nodes ← ListNodes c;
  match head (filter (λ n, nd_Node n = name) nodes) with Some n => Ret n | None => Fail (ErrNotFound "node" name) end.
Definition listNodes (c : Client) : P (list string) := nodes ← ListNodes c; Ret (map nd_Node nodes).

(** [ListNodeStorages], [ListNodeBridges] *)
Definition ListNodeStorages (c : Client) (node : string) : P (list NodeStorage) :=
  body ← get c (PNodeStorages node); l ← unmarshal "node storage" (dec_list decode_storage) [] body;
  Ret (filter (λ s, ns_Active s ≠ 0%Z) l).
Definition ListNodeBridges (c : Client) (node : string) : P (list NodeBridge) :=
  body ← get c (PNodeBridges node); unmarshal "node bridges" (dec_list decode_bridge) [] body.

(** [listNodeVMs] *)
Definition listNodeVMs (c : Client) (node : string) : P (list VM) :=
  body ← get c (PQemu node); unmarshal "VMs" (dec_list decode_vm) [] body.

(** The loop of [ListVMs]: a node that fails is left out. *)
Fixpoint vms_of_nodes (c : Client) (nodes : list string) : P (list VM) :=
  match nodes with
  | [] => Ret []
  | node :: nodes =>
      r ← try (listNodeVMs c node); rest ← vms_of_nodes c nodes;
      Ret (match r with Ok vms => map (on_node node) vms ++ rest | Err _ => rest end)
  end.

(** [ListVMs], [GetVM] *)
Definition ListVMs (c : Client) : P (list VM) := nodes ← listNodes c; vms_of_nodes c nodes.
Definition find_vm (name : string) (l : list VM) : option VM := head (filter (λ v, vm_Name v = name) l).
Definition GetVM (c : Client) (name : string) : P VM :=
  vms ← ListVMs c; match find_vm name vms with Some v => Ret v | None => Fail (ErrNotFound "VM" name) end.

(** [ListTemplates], [GetTemplate]; a template is shown as its machine. *)
Definition is_template (v : VM) : bool := bool_decide (vm_Template v = 1%Z).
Definition ListTemplates (c : Client) : P (list VM) := vms ← ListVMs c; Ret (filter (λ v, is_template v = true) vms).
Definition GetTemplate (c : Client) (name : string) : P VM :=
  l ← ListTemplates c; match find_vm name l with Some v => Ret v | None => Fail (ErrNotFound "template" name) end.

(** [GetVMConfig], [GetVMConfigRaw] *)
Definition GetVMConfig (c : Client) (node : string) (vmid : Z) : P vm_config :=
  body ← get c (PConfig node vmid); o ← unmarshal "VM config" dec_config None body;
  match o with Some config => Ret config | None => Fail ErrNoConfig end.
Definition GetVMConfigRaw (c : Client) (node : string) (vmid : Z) : P (option gomap) :=
  body ← get c (PConfig node vmid); unmarshal "VM config" dec_map None body.

(** [getNextVMID] *)
Definition getNextVMID (c : Client) : P Z :=
  body ← get c PNextID; data ← unmarshal "next VMID" dec_str "" body;
  match scan_int data with Some (id, _) => Ret id | None => Fail (ErrVMID data) end.

(** [getTaskStatus], [WaitForTask] *)
Definition getTaskStatus (c : Client) (node upid : string) : P string :=
  body ← get c (PTask node upid); t ← unmarshal "task" dec_task (MkTask "" "") body;
  if decide (tk_Status t = "stopped" ∧ tk_Exit t ≠ "OK") then Fail (ErrTask upid (tk_Exit t)) else Ret (tk_Status t).

Fixpoint wait_task (n : nat) (c : Client) (node upid : string) : P unit :=
  match n with
  | 0 => Fail ErrTaskTimeout
  | S n =>
      status ← getTaskStatus c node upid;
      if decide (status = "stopped") then Ret tt
      else r ← call (Sleep 2);
           match r with Some _ => wait_task n c node upid | None => Fail ErrCancelled end
  end.
Definition WaitForTask (c : Client) (node upid : string) (seconds : Z) : P unit := wait_task (polls seconds) c node upid.

(** [ConfigureVM], [ResizeVMDisk], [ConvertToTemplate], [AddCloudInitDrive], [SetCloudInitConfig], [RegenerateCloudInit] *)
Definition ConfigureVM (c : Client) (node : string) (vmid : Z) (params : gomap) : P unit :=
  _ ← put c (PConfig node vmid) (Some params); Ret tt.
Definition ResizeVMDisk (c : Client) (node : string) (vmid : Z) (disk size : string) : P unit :=
  _ ← put c (PResize node vmid) (Some [("disk", VStr disk); ("size", VStr size)]); Ret tt.
Definition ConvertToTemplate (c : Client) (node : string) (vmid : Z) : P unit :=
  _ ← post c (PToTemplate node vmid) None; Ret tt.
Definition AddCloudInitDrive (c : Client) (node : string) (vmid : Z) (storage : string) : P unit :=
  ConfigureVM c node vmid [("ide2", VStr (storage +:+ ":cloudinit"))].
Definition SetCloudInitConfig (c : Client) (node : string) (vmid : Z) (config : gomap) : P unit := ConfigureVM c node vmid config.
Definition RegenerateCloudInit (c : Client) (node : string) (vmid : Z) : P unit :=
  _ ← put c (PCloudInit node vmid) None; Ret tt.

(** [StartVM], [StopVM], [ShutdownVM], [RebootVM] *)
Definition power (action : string) (c : Client) (node : string) (vmid : Z) : P string :=
  body ← post c (PStatus node vmid action) None; Ret (task_id body).
Definition StartVM : Client → string → Z → P string := power "start".
Definition StopVM : Client → string → Z → P string := power "stop".
Definition ShutdownVM : Client → string → Z → P string := power "shutdown".
Definition RebootVM : Client → string → Z → P string := power "reboot".

(** [DeleteVM] *)
Definition DeleteVM (c : Client) (node : string) (vmid : Z) : P unit :=
  body ← delete c (PVM node vmid);
  if decide (task_id body = "") then Ret tt else wrap (ErrIn "destroy task") (WaitForTask c node (task_id body) 120).

(** [CreateVM], [CloneVM] *)
Definition CreateVM (c : Client) (node : string) (params : gomap) : P Z :=
  id ← getNextVMID c; _ ← post c (PQemu node) (Some (assoc_set "vmid" (VInt id) params)); Ret id.
Definition CloneVM (c : Client) (node : string) (templateID : Z) (name : string) (params : gomap) : P (Z * string) :=
  id ← getNextVMID c;
  body ← post c (PClone node templateID)
    (Some (foldl (λ m p, assoc_set p.1 p.2 m) [("newid", VInt id); ("name", VStr name); ("full", VInt 1)] params));
  Ret (id, task_id body).

(** The volume that a disk is imported from. *)
Definition import_path (storage file contentType : string) : string :=
  if has_prefix "/" file || contains ":" file then file
  else storage +:+ ":" +:+ (if nonempty contentType then contentType else "iso") +:+ "/" +:+ file.

(** [CreateVMFromImage] *)
Definition image_params (id : Z) (name : string) (params : gomap) : gomap :=
  let m := foldl (λ m p, assoc_set p.1 p.2 m) [("vmid", VInt id); ("name", VStr name)]
    (filter (λ p, p.1 ∉ ["scsi0"; "sata0"; "ide0"; "virtio0"]) params) in
  match assoc "scsihw" m with Some _ => m | None => assoc_set "scsihw" (VStr "virtio-scsi-pci") m end.

Definition CreateVMFromImage (c : Client) (node name storage file contentType target : string) (params : gomap) : P (Z * string) :=
  id ← getNextVMID c;
  _ ← wrap (ErrIn "create VM") (post c (PQemu node) (Some (image_params id name params)));
  let disk := (if nonempty target then target else storage) +:+ ":0,import-from=" +:+ import_path storage file contentType in
  r ← try (post c (PConfig node id) (Some [("scsi0", VStr disk)]));
  match r with
  | Err e => _ ← try (F := px_error) (DeleteVM c node id); Fail (ErrIn "import disk" e)
  | Ok body => _ ← try (F := px_error) (put c (PConfig node id) (Some [("boot", VStr "order=scsi0")])); Ret (id, task_id body)
  end.

(** [SetDiskOptions] *)
Definition SetDiskOptions (c : Client) (node : string) (vmid : Z) (disk : string) (opts : list (string * string)) : P unit :=
  match opts with
  | [] => Ret tt
  | _ =>
      cfg ← wrap (ErrIn "read VM config") (GetVMConfigRaw c node vmid);
      match as_str (assoc disk (fields cfg)) with
      | None | Some EmptyString => Fail (ErrNoDisk disk vmid)
      | Some raw =>
          let merged := MergeDiskOptions raw opts in
          if decide (merged = raw) then Ret tt else ConfigureVM c node vmid [(disk, VStr merged)]
      end
  end.

(** [GetStorageInfo], [ListStorageContent], [SnippetExists] *)
Definition GetStorageInfo (c : Client) (storage : string) : P StorageInfo :=
  body ← get c (PStorage storage); unmarshal "storage info" dec_storage_info (MkStorageInfo "") body.
Definition ListStorageContent (c : Client) (node storage content : string) : P (list string) :=
  body ← get c (PContent node storage content); unmarshal "storage content" (dec_list decode_volid) [] body.
Definition SnippetExists (c : Client) (node storage filename : string) : P bool :=
  l ← ListStorageContent c node storage "snippets"; Ret (bool_decide (storage +:+ ":snippets/" +:+ filename ∈ l)).

(** [DownloadToStorage] *)
Definition DownloadToStorage (c : Client) (node storage url filename content : string) (checksum : ImageChecksum) : P string :=
  let sum := if decide (algorithm checksum = "") then []
             else [("checksum-algorithm", VStr (algorithm checksum)); ("checksum", VStr (digest checksum))] in
  body ← wrap (ErrIn "start download") (post c (PDownload node storage)
    (Some ([("url", VStr url); ("filename", VStr filename); ("content", VStr content)] ++ sum)));
  upid ← unmarshal "download task" dec_str "" body;
  if decide (upid = "") then Fail ErrNoUPID else Ret upid.

(** [GetVMIPAddress], [WaitForVMIP] *)
Definition GetVMIPAddress (c : Client) (node : string) (vmid : Z) : P string :=
  body ← wrap (ErrIn "agent") (get c (PAgent node vmid)); l ← unmarshal "agent" dec_agent [] body;
  match first_ipv4 l with Some ip => Ret ip | None => Fail ErrNoIPv4 end.

Fixpoint wait_ip (n : nat) (c : Client) (node : string) (vmid : Z) : P string :=
  match n with
  | 0 => Fail ErrIPTimeout
  | S n =>
      r ← try (GetVMIPAddress c node vmid);
      let again := s ← call (Sleep 5); match s with Some _ => wait_ip n c node vmid | None => Fail ErrCancelled end in
      match r with Ok ip => if nonempty ip then Ret ip else again | Err _ => again end
  end.
Definition WaitForVMIP (c : Client) (node : string) (vmid seconds : Z) : P string := wait_ip (polls seconds) c node vmid.

(** [UploadSnippet] *)
Definition UploadSnippet (c : Client) (node storage filename content : string) : P unit :=
  let host := default "" (assoc node (snippetSSHHosts c)) in
  let user := if nonempty (snippetSSHUser c) then snippetSSHUser c else "root" in
  if decide (host = "") then Fail (ErrSnippetNode node)
  else if negb (safeSnippetSSHHost host) then Fail (ErrSnippetHost node)
  else if negb (safeSnippetComponent user true) then Fail ErrSnippetUser
  else if negb (safeSnippetComponent storage false) then Fail (ErrSnippetStorage storage)
  else if negb (safeSnippetComponent filename true) then Fail (ErrSnippetName filename)
  else
    let args := ["-o"; "BatchMode=yes"; "-o"; "StrictHostKeyChecking=yes"; "-o"; "ConnectTimeout=10"; "-l"; user] ++
      (if nonempty (snippetSSHIdentityFile c) then ["-i"; snippetSSHIdentityFile c] else []) in
    let command := "sh -c " +:+ shellQuote snippetUploadScript +:+ " sh " +:+ shellQuote (storage +:+ ":snippets/" +:+ filename) +:+
      " " +:+ pretty (String.length content) in
    r ← call (Ssh (args ++ ["--"; host; command]) content);
    match r with Some _ => Ret tt | None => Fail (ErrUpload node) end.

(** [EnsureQemuAgentSnippet], [RenderVendorData] *)
Definition EnsureQemuAgentSnippet (c : Client) (node storage : string) : P unit :=
  r ← try (SnippetExists c node storage QemuAgentSnippetName);
  if ok_or r false then Ret tt else UploadSnippet c node storage QemuAgentSnippetName QemuAgentSnippetContent.
Definition RenderVendorData (packages runcmd : list string) : result px_error string :=
  match yaml_vendor (bool_decide (packages ≠ [])) packages (agentRunCmds ++ runcmd) with
  | Some out => Ok (lines ["#cloud-config"; "# Created by openctl"] +:+ out)
  | None => Err ErrYaml
  end.
End client.

(** ** What was answered *)

(** The body of an answer, as [doRequest] returns it. *)
Definition body_of (r : answer) : result px_error string :=
  match r with
  | None => Err ErrRequest
  | Some (status, body) => if (400 <=? status)%Z then Err (ErrStatus status body) else Ok body
  end.

(** What was answered stays answered. *)
Lemma asked_prefix h h' (q : string → request) nodes (rs : list answer) :
  h `prefix_of` h' → Forall2 (λ n r, (q n, r) ∈ h) nodes rs → Forall2 (λ n r, (q n, r) ∈ h') nodes rs.
Proof. intros [k ->] H. eapply Forall2_impl; [exact H|]. intros n r. rewrite elem_of_app. tauto. Qed.

Lemma find_vm_Some name l v : find_vm name l = Some v → v ∈ l ∧ vm_Name v = name.
Proof.
  unfold find_vm. intros H. assert (v ∈ filter (λ v, vm_Name v = name) l) as Hv.
  { destruct (filter _ l); [done|]. simplify_eq/=. left. }
  by apply list_elem_of_filter in Hv as [? ?].
Qed.

Lemma find_vm_None name l : find_vm name l = None ↔ ∀ v, v ∈ l → vm_Name v ≠ name.
Proof.
  unfold find_vm. split.
  - intros H v Hv Hn. assert (v ∈ filter (λ v, vm_Name v = name) l) as Hf by by apply list_elem_of_filter.
    destruct (filter _ l); [by apply elem_of_nil in Hf|done].
  - intros H. rewrite filter_none; [done|]. by apply Forall_forall.
Qed.

Section answers.
Context (Json : string → option value).

(** The data of an answer; nothing when it failed or cannot be decoded. *)
Definition answered {A} (d : decoder A) (zero : A) (r : answer) : option A :=
  match body_of r with Ok body => decode_data Json d zero body | Err _ => None end.

(** The machines of a node, from the answer to a listing. *)
Definition listed (node : string) (r : answer) : list VM := map (on_node node) (default [] (answered (dec_list decode_vm) [] r)).

Definition nodes_request (c : Client) : request := Http (c_endpoint c) GET PNodes None.
Definition vms_request (c : Client) (node : string) : request := Http (c_endpoint c) GET (PQemu node) None.
Definition config_request (c : Client) (node : string) (vmid : Z) : request := Http (c_endpoint c) GET (PConfig node vmid) None.

(** The inventory that a conversation gives: the nodes, and an answer for each. *)
Definition inventory (c : Client) (h : list (request * answer)) (nodes : list string) (rs : list answer) : Prop :=
  (∃ r, (nodes_request c, r) ∈ h ∧ map nd_Node <$> answered (dec_list decode_node) [] r = Some nodes) ∧
  Forall2 (λ n r, (vms_request c n, r) ∈ h) nodes rs.

Definition inventory_vms (nodes : list string) (rs : list answer) : list VM := concat (zip_with listed nodes rs).

Section logic.
Context (float_v : spec_float → string) (polls : Z → nat).
Context (rely : list (request * answer) → request → answer → Prop) (guar : list (request * answer) → request → Prop).
Local Abbreviation safe := (safe rely guar).

Lemma doRequest_safe h c v p params post :
  guar h (Http (c_endpoint c) v p (form_of float_v <$> params)) →
  (∀ r, rely h (Http (c_endpoint c) v p (form_of float_v <$> params)) r →
     post (h ++ [(Http (c_endpoint c) v p (form_of float_v <$> params), r)]) (body_of r)) →
  safe h (doRequest float_v c v p params) post.
Proof.
  intros Hg Hpost. split; [done|]. intros r Hr. specialize (Hpost r Hr). destruct r as [[status body]|]; [|done].
  simpl in *. by destruct (400 <=? status)%Z.
Qed.

Lemma unmarshal_safe {A} h what (d : decoder A) zero body post :
  post h (match decode_data Json d zero body with Some a => Ok a | None => Err (ErrDecode what) end) →
  safe h (unmarshal Json what d zero body) post.
Proof. unfold unmarshal. by destruct (decode_data _ _ _ _). Qed.

(** Reading a document. *)
Lemma read_safe {A} h c p what (d : decoder A) zero post :
  guar h (Http (c_endpoint c) GET p None) →
  (∀ r, rely h (Http (c_endpoint c) GET p None) r →
     match answered d zero r with
     | Some a => post (h ++ [(Http (c_endpoint c) GET p None, r)]) (Ok a)
     | None => ∀ e, is_not_found e = false → post (h ++ [(Http (c_endpoint c) GET p None, r)]) (Err e)
     end) →
  safe h (body ← get float_v c p; unmarshal Json what d zero body) post.
Proof.
  intros Hg Hpost. apply safe_bind, doRequest_safe; [done|]. intros r Hr. specialize (Hpost r Hr). unfold answered in Hpost.
  destruct r as [[status body]|]; [|by apply Hpost]. simpl in *. destruct (400 <=? status)%Z; simpl in *; [by apply Hpost|].
  apply unmarshal_safe. destruct (decode_data _ _ _ _); [done|by apply Hpost].
Qed.

(** Reading a document and going on with it. *)
Lemma read_bind_safe {A B} h c p what (d : decoder A) zero (f : A → P B) post :
  guar h (Http (c_endpoint c) GET p None) →
  (∀ r, rely h (Http (c_endpoint c) GET p None) r →
     match answered d zero r with
     | Some a => safe (h ++ [(Http (c_endpoint c) GET p None, r)]) (f a) post
     | None => ∀ e, is_not_found e = false → post (h ++ [(Http (c_endpoint c) GET p None, r)]) (Err e)
     end) →
  safe h (body ← get float_v c p; a ← unmarshal Json what d zero body; f a) post.
Proof.
  intros Hg Hpost. apply safe_bind, doRequest_safe; [done|]. intros r Hr. specialize (Hpost r Hr). unfold answered in Hpost.
  destruct r as [[status body]|]; [|by apply Hpost]. simpl in *. destruct (400 <=? status)%Z; simpl in *; [by apply Hpost|].
  apply safe_bind, unmarshal_safe. destruct (decode_data _ _ _ _); [done|by apply Hpost].
Qed.

(** From here on, reading is free. *)
Context (Hread : ∀ h ep p, guar h (Http ep GET p None)).

(** The loop over the nodes returns what those that answered list. *)
Lemma vms_of_nodes_safe c nodes h post :
  (∀ h' rs, h `prefix_of` h' → Forall2 (λ n r, (vms_request c n, r) ∈ h') nodes rs → post h' (Ok (inventory_vms nodes rs))) →
  safe h (vms_of_nodes Json float_v c nodes) post.
Proof.
  revert h post. induction nodes as [|n nodes IH]; intros h post Hpost; [by apply (Hpost h [])|].
  cbn [vms_of_nodes]. apply safe_bind, safe_try. apply read_safe; [apply Hread|]. intros r _. set (h1 := h ++ [_]).
  assert (h `prefix_of` h1 ∧ (vms_request c n, r) ∈ h1) as [Hp1 Hr1].
  { split; [by eexists|]. unfold h1. rewrite elem_of_app, list_elem_of_singleton. by right. }
  assert (∀ l, l = listed n r → safe h1 (rest ← vms_of_nodes Json float_v c nodes; Ret (l ++ rest)) post) as Hrest.
  { intros l ->. apply safe_bind, IH. intros h' rs Hp Hrs. simpl. apply (Hpost h' (r :: rs)); [by etrans|].
    constructor; [|done]. destruct Hp as [k ->]. rewrite elem_of_app. by left. }
  unfold listed in Hrest. destruct (answered _ _ r) as [vms|]; [by apply Hrest|]. intros e _. by apply (Hrest []).
Qed.

(** Listing the machines: an inventory was taken, and its machines are returned, or
    the nodes could not be listed. *)
Lemma ListVMs_safe c h post :
  (∀ h' nodes rs, h `prefix_of` h' → inventory c h' nodes rs → post h' (Ok (inventory_vms nodes rs))) →
  (∀ h' e, h `prefix_of` h' → is_not_found e = false → post h' (Err e)) →
  safe h (ListVMs Json float_v c) post.
Proof.
  intros Hok Herr. unfold ListVMs, listNodes, ListNodes. apply safe_bind, safe_bind, read_safe; [apply Hread|].
  intros r _. destruct (answered _ _ r) as [nodes|] eqn:Hn; [|intros e He; apply Herr; [by eexists|done]].
  apply vms_of_nodes_safe. intros h' rs Hp Hrs. apply Hok; [etrans; [by eexists|exact Hp]|]. split; [|done].
  exists r. rewrite Hn. split; [|done]. destruct Hp as [k ->]. rewrite !elem_of_app, list_elem_of_singleton. left. by right.
Qed.

(** Looking for a machine: the first of the inventory with the name. *)
Lemma find_safe {A} (p : P (list VM)) what name (f : VM → P A) h post :
  safe h p (λ h' x, match x with
                    | Ok vms => match find_vm name vms with Some v => safe h' (f v) post | None => post h' (Err (ErrNotFound what name)) end
                    | Err e => post h' (Err e)
                    end) →
  safe h (vms ← p; match find_vm name vms with Some v => f v | None => Fail (ErrNotFound what name) end) post.
Proof.
  intros Hp. apply safe_bind. eapply safe_mono; [exact Hp|]. intros h' [vms|e]; [|done]. by destruct (find_vm name vms).
Qed.

Lemma GetVM_safe c name h post :
  (∀ h' nodes rs, h `prefix_of` h' → inventory c h' nodes rs →
     post h' (match find_vm name (inventory_vms nodes rs) with Some v => Ok v | None => Err (ErrNotFound "VM" name) end)) →
  (∀ h' e, h `prefix_of` h' → is_not_found e = false → post h' (Err e)) →
  safe h (GetVM Json float_v c name) post.
Proof.
  intros Hok Herr. apply find_safe, ListVMs_safe; [|done]. intros h' nodes rs Hp Hi. specialize (Hok h' nodes rs Hp Hi).
  by destruct (find_vm name _).
Qed.

Lemma GetTemplate_safe c name h post :
  (∀ h' nodes rs, h `prefix_of` h' → inventory c h' nodes rs →
     post h' (match find_vm name (filter (λ v, is_template v = true) (inventory_vms nodes rs)) with
              | Some v => Ok v | None => Err (ErrNotFound "template" name) end)) →
  (∀ h' e, h `prefix_of` h' → is_not_found e = false → post h' (Err e)) →
  safe h (GetTemplate Json float_v c name) post.
Proof.
  intros Hok Herr. apply find_safe. unfold ListTemplates. apply safe_bind, ListVMs_safe; [|done].
  intros h' nodes rs Hp Hi. specialize (Hok h' nodes rs Hp Hi). simpl. by destruct (find_vm name _).
Qed.

Lemma inventory_vms_elem nodes rs v :
  v ∈ inventory_vms nodes rs ↔ ∃ i n r, nodes !! i = Some n ∧ rs !! i = Some r ∧ v ∈ listed n r.
Proof.
  unfold inventory_vms. rewrite elem_of_concat. split.
  - intros (l & Hv & Hl). apply list_elem_of_lookup in Hl as [i Hi]. apply lookup_zip_with_Some in Hi as (n & r & -> & Hn & Hr).
    by exists i, n, r.
  - intros (i & n & r & Hn & Hr & Hv). exists (listed n r). split; [done|]. apply list_elem_of_lookup. exists i.
    apply lookup_zip_with_Some. by exists n, r.
Qed.
End logic.
End answers.

(** ** A world that is only read *)

Section reading.
Context (Json : string → option value) (float_v : spec_float → string).
Context {W : Type} (serve : request → W → answer * W) (w : W) (c : Client).
Context (Hpure : ∀ p, (serve (Http (c_endpoint c) GET p None) w).2 = w).

(** What the endpoint answers to a reading. *)
Definition ask (p : path) : answer := (serve (Http (c_endpoint c) GET p None) w).1.
Definition heard (p : path) : request * answer := (Http (c_endpoint c) GET p None, ask p).

Lemma run_read {A} p what (d : decoder A) zero :
  run serve (body ← get float_v c p; unmarshal Json what d zero body) w =
    (match body_of (ask p) with
     | Ok body => match decode_data Json d zero body with Some a => Ok a | None => Err (ErrDecode what) end
     | Err e => Err e
     end, [heard p], w).
Proof.
  unfold heard, ask. pose proof (Hpure p) as Hp. simpl. destruct (serve (Http (c_endpoint c) GET p None) w) as [[[status body]|] w'];
    simpl in *; subst w'; [|done]. destruct (400 <=? status)%Z; simpl; [done|]. unfold unmarshal. by destruct (decode_data _ _ _ _).
Qed.

Definition world_vms (nodes : list string) : list VM := inventory_vms Json nodes (map (λ n, ask (PQemu n)) nodes).

Lemma run_vms_of_nodes nodes :
  run serve (vms_of_nodes Json float_v c nodes) w = (Ok (world_vms nodes), map (λ n, heard (PQemu n)) nodes, w).
Proof.
  induction nodes as [|n nodes IH]; [done|]. cbn [vms_of_nodes]. rewrite run_bind, run_try. unfold listNodeVMs.
  rewrite run_read. simpl. rewrite run_bind, IH. simpl. rewrite app_nil_r. unfold world_vms, inventory_vms, listed, answered. simpl.
  destruct (body_of (ask (PQemu n))) as [body|e]; simpl; [|done]. by destruct (decode_data _ _ _ _).
Qed.

(** The nodes of the world. *)
Definition world_nodes : option (list string) := map nd_Node <$> answered Json (dec_list decode_node) [] (ask PNodes).

Definition look (nodes : list string) : list (request * answer) := heard PNodes :: map (λ n, heard (PQemu n)) nodes.

Lemma run_ListVMs nodes :
  world_nodes = Some nodes → run serve (ListVMs Json float_v c) w = (Ok (world_vms nodes), look nodes, w).
Proof.
  unfold world_nodes, answered. intros Hn. unfold ListVMs, listNodes, ListNodes. rewrite run_bind, run_bind, run_read.
  destruct (body_of (ask PNodes)) as [body|e]; [|done]. destruct (decode_data _ _ _ _) as [l|]; [|done]. simplify_eq/=.
  rewrite run_vms_of_nodes. done.
Qed.

(** A machine is found among those of the nodes that answer. *)
Lemma run_GetVM nodes name :
  world_nodes = Some nodes →
  run serve (GetVM Json float_v c name) w =
    (match find_vm name (world_vms nodes) with Some v => Ok v | None => Err (ErrNotFound "VM" name) end, look nodes, w).
Proof.
  intros Hn. unfold GetVM. rewrite run_bind, (run_ListVMs nodes) by done. simpl.
  destruct (find_vm name (world_vms nodes)); simpl; by rewrite app_nil_r.
Qed.
End reading.
