(* ===== verification/ProxmoxHandler.v ===== *)
(** Creating, updating and deleting Proxmox virtual machines:
    src/pkg/proxmox/handler/, and the resources it answers with
    (src/pkg/proxmox/resources/vm.go, node.go).

    A handler answers a request with a response or fails; the message of a success is
    left out. *)
From S2P Require Import Prelude GoStrings GoValue Json Effects Drift ClusterSpec ClusterPlan NodeAgent VMConfig ProxmoxClient.
From Stdlib Require Import Ascii.
From Corelib Require Import Floats.SpecFloat.

(** ** Resources *)

Definition apiVersion : string := "proxmox.openctl.io/v1".
Definition named_resource (kind name : string) (spec status : gomap) : resource :=
  Resource apiVersion kind (ResourceMetadata name "" [] [] "" "") (Some spec) (Some status).

(** [VMToResourceWithIP] *)
Definition VMToResourceWithIP (float_v : spec_float → string) (v : VM) (config : option vm_config) (ip : string) : resource :=
  named_resource "VirtualMachine" (vm_Name v)
    (match config with
     | Some config => observeVMConfig float_v (vm_Node v) config
     | None => [("node", VStr (vm_Node v)); ("cpu", VMap [("cores", VInt (vm_CPUs v))]);
                ("memory", VMap [("size", VInt (Z.quot (Z.quot (vm_MaxMem v) 1024) 1024))])]
     end)
    ([("vmid", VInt (vm_VMID v)); ("state", VStr (vm_Status v)); ("uptime", VInt (vm_Uptime v)); ("cpuUsed", VFloat (vm_CPU v));
      ("memUsed", VInt (vm_Mem v))] ++ pstr "ip" ip).

(** [TemplateToResource] *)
Definition TemplateToResource (t : VM) : resource :=
  named_resource "Template" (vm_Name t) [("node", VStr (vm_Node t)); ("vmid", VInt (vm_VMID t))] [("state", VStr (vm_Status t))].

(** [NodeToResource] *)
Definition node_status (n : Node) : gomap :=
  [("state", VStr (nd_Status n)); ("uptime", VInt (nd_Uptime n)); ("level", VStr (nd_Level n));
   ("cpu", VMap [("cores", VInt (nd_MaxCPU n)); ("used", VFloat (nd_CPU n))]);
   ("memory", VMap [("total", VInt (nd_MaxMem n)); ("used", VInt (nd_Mem n))]);
   ("storage", VMap [("total", VInt (nd_MaxDisk n)); ("used", VInt (nd_Disk n))])].
Definition NodeToResource (n : Node) : resource := named_resource "ProxmoxNode" (nd_Node n) [] (node_status n).

(** ** Sizes of disks *)

Definition size_unit (c : ascii) : option Z :=
  if decide (c ∈ ["T"; "t"]%char) then Some 40%Z else if decide (c ∈ ["G"; "g"]%char) then Some 30%Z
  else if decide (c ∈ ["M"; "m"]%char) then Some 20%Z else if decide (c ∈ ["K"; "k"]%char) then Some 10%Z else None.

(** The text without its last byte, and that byte. *)
Fixpoint unsnoc (s : string) : option (string * ascii) :=
  match s with
  | EmptyString => None
  | String c s' => match unsnoc s' with None => Some (EmptyString, c) | Some (t, d) => Some (String c t, d) end
  end.

(** [parseProxmoxSize]: the product is a 64-bit one. *)
Definition parseProxmoxSize (s : string) : option Z :=
  let s := trim_space s in
  match unsnoc s with
  | None => None
  | Some (t, c) =>
      let '(digits, shift) := match size_unit c with Some k => (t, k) | None => (s, 0%Z) end in
      match atoi (trim_space digits) with
      | None => None
      | Some n => if (n <? 0)%Z then None else Some (wrap64 (n * 2 ^ shift))
      end
  end.

(** The size option of a disk; the first one counts. *)
Fixpoint size_part (parts : list string) : option string :=
  match parts with
  | [] => None
  | p :: parts => match cut_prefix "size=" p with Some x => Some x | None => size_part parts end
  end.

(** [currentDiskSize] *)
Definition currentDiskSize (raw : gomap) (disk : string) : option Z :=
  line ← as_str (assoc disk raw); x ← size_part (split_on "," line); parseProxmoxSize x.

(** ** Names of images *)

(** [extractFilenameFromURL], [normalizeImageExtension], [generateTemplateNameFromURL] *)
Definition extractFilenameFromURL (url : string) : string := default "cloud-image.img" (last (split_on "/" url)).
Definition normalizeImageExtension (filename : string) : string :=
  if has_suffix ".qcow2" filename || has_suffix ".raw" filename then filename
  else default filename (cut_suffix ".img" filename) +:+ ".qcow2".
Definition generateTemplateNameFromURL (url : string) : string :=
  "tpl-" +:+ replace_all "_" "-" (trim_suffix ".raw" (trim_suffix ".qcow2" (trim_suffix ".img" (extractFilenameFromURL url)))).

(** [primaryDiskStorage] *)
Definition primaryDiskStorage (spec : VMSpec) : string := default "" (head (filter (λ s, s ≠ "") (map d_Storage (v_Disks spec)))).

(** ** The handler *)

(** [protocol.ProviderConfig] and its client *)
Record Handler : Type := MkHandler { h_Endpoint : string; h_Node : string; h_Defaults : list (string * string); h_client : Client }.

(** [New] *)
Definition NewHandler (endpoint node : string) (defaults : list (string * string)) (ssh : option (list (string * string) * string * string)) :
    Handler :=
  MkHandler endpoint node defaults
    (match ssh with Some (hosts, user, id) => SetSnippetSSH hosts user id (New endpoint) | None => New endpoint end).

Inductive rejection : Type :=
| NotFoundR (what name : string)
| UnknownType (t : string)
| UnknownAction (action : string)
| NodeRequired
| SourceRequired
| FieldRequired (field : string)
| BadChecksum (e : checksum_error)
| NoDiskImages (storage : string).

(** [protocol.Response] *)
Inductive response : Type :=
| Rejected (r : rejection)
| Success (res : option resource) (items : list resource).

Definition done : response := Success None [].

(** [errors.Is(err, client.ErrNotFound)]: the response for it, or the error. *)
Definition or_not_found {A} (p : P A) (what name : string) (f : A → P response) : P response :=
  r ← try p;
  match r with
  | Ok a => f a
  | Err e => if is_not_found e then Ret (Rejected (NotFoundR what name)) else Fail e
  end.

Section handler.
Context (Json : string → option value) (float_v : spec_float → string) (polls : Z → nat).
Context (yaml_vendor : bool → list string → list string → option string).
Context (h : Handler).
Local Abbreviation c := (h_client h).

(** [enrichNodeOptions] *)
Definition option_names {A} (key : string) (name : A → string) (r : result px_error (list A)) (st : gomap) : gomap :=
  match r with Ok l => assoc_set key (VList (map (λ a, VStr (name a)) l)) st | Err _ => st end.
Definition enrichNodeOptions (name : string) (n : Node) : P resource :=
  s ← try (ListNodeStorages Json float_v c name); b ← try (ListNodeBridges Json float_v c name);
  Ret (with_status (NodeToResource n) (Some (option_names "bridges" br_Iface b (option_names "storages" ns_Storage s (node_status n))))).

(** [listProxmoxNodes], [getProxmoxNode] *)
Definition listProxmoxNodes : P response := l ← ListNodes Json float_v c; Ret (Success None (map NodeToResource l)).
Definition getProxmoxNode (name : string) : P response :=
  or_not_found (GetNode Json float_v c name) "node" name (λ n, res ← enrichNodeOptions name n; Ret (Success (Some res) [])).

(** [listTemplates], [getTemplate] *)
Definition listTemplates : P response := l ← ListTemplates Json float_v c; Ret (Success None (map TemplateToResource l)).
Definition getTemplate (name : string) : P response :=
  or_not_found (GetTemplate Json float_v c name) "template" name (λ t, Ret (Success (Some (TemplateToResource t)) [])).

(** [listVMs] *)
Fixpoint observe_vms (l : list VM) : P (list resource) :=
  match l with
  | [] => Ret []
  | v :: l =>
      if is_template v then observe_vms l
      else config ← wrap (ErrIn "read VM config") (GetVMConfig Json float_v c (vm_Node v) (vm_VMID v));
           rest ← observe_vms l; Ret (VMToResourceWithIP float_v v (Some config) "" :: rest)
  end.
Definition listVMs : P response := l ← ListVMs Json float_v c; items ← observe_vms l; Ret (Success None items).

(** [getVM] *)
Definition observe_vm (v : VM) : P response :=
  config ← wrap (ErrIn "read VM config") (GetVMConfig Json float_v c (vm_Node v) (vm_VMID v));
  ip ← (if decide (vm_Status v = "running") then r ← try (GetVMIPAddress Json float_v c (vm_Node v) (vm_VMID v)); Ret (ok_or r "")
        else Ret "");
  Ret (Success (Some (VMToResourceWithIP float_v v (Some config) ip)) []).
Definition getVM (name : string) : P response := or_not_found (GetVM Json float_v c name) "VM" name observe_vm.

(** [applyCloudInitVendorSnippet]: what fails matters when packages or commands were asked for. *)
Definition custom_snippet (ci : option CloudInitSpec) : bool :=
  match ci with Some ci => bool_decide (ci_Packages ci ≠ [] ∨ ci_RunCmd ci ≠ []) | None => false end.
Definition put_snippet (node storage : string) (vmid : Z) (ci : option CloudInitSpec) : P string :=
  match ci with
  | Some ci =>
      if custom_snippet (Some ci) then
        content ← lift (RenderVendorData yaml_vendor (ci_Packages ci) (ci_RunCmd ci));
        _ ← UploadSnippet c node storage (VendorSnippetName vmid) content; Ret (VendorSnippetName vmid)
      else _ ← EnsureQemuAgentSnippet Json float_v c node storage; Ret QemuAgentSnippetName
  | None => _ ← EnsureQemuAgentSnippet Json float_v c node storage; Ret QemuAgentSnippetName
  end.
Definition attach_snippet (node : string) (vmid : Z) (preferred : string) (ci : option CloudInitSpec) : P unit :=
  storages ← ListNodeStorages Json float_v c node;
  match PickSnippetsStorage storages preferred with
  | None => Fail (ErrNoSnippets node)
  | Some storage =>
      name ← put_snippet node storage vmid ci;
      ConfigureVM float_v c node vmid [("cicustom", VStr ("vendor=" +:+ storage +:+ ":snippets/" +:+ name))]
  end.
Definition applyCloudInitVendorSnippet (node : string) (vmid : Z) (preferred : string) (ci : option CloudInitSpec) : P unit :=
  if custom_snippet ci then wrap (ErrIn "cloud-init") (attach_snippet node vmid preferred ci)
  else _ ← try (F := px_error) (attach_snippet node vmid preferred ci); Ret tt.

(** The steps that follow a clone. *)
Definition configure (node : string) (vmid : Z) (spec : VMSpec) : P unit :=
  match ToProxmoxConfig spec with
  | [] => Ret tt
  | params => wrap (ErrIn "configure VM") (ConfigureVM float_v c node vmid params)
  end.
Definition wait_if (node upid what : string) (seconds : Z) : P unit :=
  if decide (upid = "") then Ret tt else wrap (ErrIn what) (WaitForTask Json float_v polls c node upid seconds).
Definition resize_disk (node : string) (vmid : Z) (d : DiskSpec) : P unit :=
  wrap (ErrIn ("resize disk " +:+ d_Name d)) (ResizeVMDisk float_v c node vmid (d_Name d) (d_Size d)).
Definition set_options (node : string) (vmid : Z) (d : DiskSpec) : P unit :=
  match Options d with
  | [] => Ret tt
  | opts => wrap (ErrIn ("set options on disk " +:+ d_Name d)) (SetDiskOptions Json float_v c node vmid (d_Name d) opts)
  end.
Definition start_if (node : string) (vmid : Z) (spec : VMSpec) : P unit :=
  if v_StartOnCreate spec then _ ← wrap (ErrIn "start VM") (StartVM Json float_v c node vmid); Ret tt else Ret tt.

(** [createVMFromTemplate] *)
Definition find_template (node : string) (t : TemplateRef) : P (option (Z * string)) :=
  if decide (t_VMID t = 0%Z ∧ t_Name t ≠ "") then
    r ← try (GetTemplate Json float_v c (t_Name t));
    match r with
    | Ok v => Ret (Some (vm_VMID v, vm_Node v))
    | Err e => if is_not_found e then Ret None else Fail (ErrIn "look up template" e)
    end
  else Ret (Some (t_VMID t, node)).

Definition snippet_default : string :=
  match assoc "storage" (h_Defaults h) with Some s => if nonempty s then s else "local" | None => "local" end.

Definition createVMFromTemplate (name node : string) (spec : VMSpec) (t : TemplateRef) : P response :=
  o ← find_template node t;
  match o with
  | None => Ret (Rejected (NotFoundR "template" (t_Name t)))
  | Some (templateID, templateNode) =>
      let params := (if decide (node = templateNode) then [] else [("target", VStr node)]) ++
                    pstr "storage" (primaryDiskStorage spec) in
      cl ← CloneVM Json float_v c templateNode templateID name params;
      let '(vmid, upid) := cl in
      _ ← wait_if templateNode upid "clone task" 300; _ ← configure node vmid spec;
      _ ← forP_ (λ d, _ ← (if nonempty (d_Size d) then resize_disk node vmid d else Ret tt); set_options node vmid d) (v_Disks spec);
      _ ← (match v_CloudInit spec with
           | Some ci => applyCloudInitVendorSnippet node vmid snippet_default (Some ci)
           | None => Ret tt
           end);
      _ ← start_if node vmid spec; Ret done
  end.

(** [createCloudImageTemplate] *)
Definition or_delete {A} (node : string) (vmid : Z) (what : string) (p : P A) : P A :=
  r ← try p;
  match r with Ok a => Ret a | Err e => _ ← try (F := px_error) (DeleteVM Json float_v polls c node vmid); Fail (ErrIn what e) end.

Definition disk_storage (ci : CloudImageRef) : string := if nonempty (c_DiskStorage ci) then c_DiskStorage ci else c_Storage ci.

Definition createCloudImageTemplate (node templateName : string) (ci : CloudImageRef) (checksum : ImageChecksum) : P Z :=
  let filename := normalizeImageExtension (extractFilenameFromURL (c_URL ci)) in
  upid ← wrap (ErrIn "download") (DownloadToStorage Json float_v c node (c_Storage ci) (c_URL ci) filename "import" checksum);
  _ ← wrap (ErrIn "download task") (WaitForTask Json float_v polls c node upid 1800);
  id ← wrap (ErrIn "create template VM") (CreateVM Json float_v c node
    ([("name", VStr templateName); ("ostype", VStr "l26"); ("scsihw", VStr "virtio-scsi-pci"); ("boot", VStr "order=scsi0");
      ("agent", VStr "1")] ++ pstr "tags" (TemplateTag checksum)));
  _ ← or_delete node id "import disk" (ConfigureVM float_v c node id
    [("scsi0", VStr (disk_storage ci +:+ ":0,import-from=" +:+ c_Storage ci +:+ ":import/" +:+ filename))]);
  _ ← call (Sleep 5);
  _ ← or_delete node id "cloud-init drive" (AddCloudInitDrive float_v c node id (disk_storage ci));
  _ ← or_delete node id "convert to template" (ConvertToTemplate float_v c node id);
  Ret id.

(** The template that [createVMFromCloudImage] clones. *)
Definition verified_by (tag : string) (config : vm_config) : bool :=
  bool_decide (tag ∈ split_on ";" (str_field "tags" (Raw config))).

Definition image_template (node templateName : string) (ci : CloudImageRef) (checksum : ImageChecksum) : P Z :=
  r ← try (GetTemplate Json float_v c templateName);
  match r with
  | Ok t =>
      if decide (TemplateTag checksum = "") then Ret (vm_VMID t)
      else config ← wrap (ErrIn "check cached template") (GetVMConfig Json float_v c (vm_Node t) (vm_VMID t));
           if verified_by (TemplateTag checksum) config then Ret (vm_VMID t) else Fail (ErrUnverified templateName)
  | Err e =>
      if is_not_found e then wrap (ErrIn "create cloud image template") (createCloudImageTemplate node templateName ci checksum)
      else Fail (ErrIn "check existing template" e)
  end.

Definition template_name (ci : CloudImageRef) : string :=
  if nonempty (c_TemplateName ci) then c_TemplateName ci else generateTemplateNameFromURL (c_URL ci).

(** [createVMFromCloudImage] *)
Definition createVMFromCloudImage (name node : string) (spec : VMSpec) (ci : CloudImageRef) : P response :=
  if decide (c_URL ci = "") then Ret (Rejected (FieldRequired "cloudImage.url"))
  else if decide (c_Storage ci = "") then Ret (Rejected (FieldRequired "cloudImage.storage"))
  else match ParseImageChecksum (c_Checksum ci) with
  | Err e => Ret (Rejected (BadChecksum e))
  | Ok checksum =>
      templateVMID ← image_template node (template_name ci) ci checksum;
      cl ← wrap (ErrIn "clone template")
        (CloneVM Json float_v c node templateVMID name [("full", VInt 1); ("storage", VStr (disk_storage ci))]);
      let '(vmid, upid) := cl in
      _ ← wait_if node upid "clone task" 600; _ ← configure node vmid spec;
      _ ← forP_ (λ d, _ ← (if nonempty (d_Size d) && nonempty (d_Name d) then resize_disk node vmid d else Ret tt);
                      set_options node vmid d) (v_Disks spec);
      _ ← applyCloudInitVendorSnippet node vmid (c_Storage ci) (v_CloudInit spec);
      _ ← (match v_CloudInit spec with
           | Some _ => _ ← try (F := px_error) (RegenerateCloudInit float_v c node vmid); Ret tt
           | None => Ret tt
           end);
      _ ← start_if node vmid spec; Ret done
  end.

(** [createVMFromImage] *)
Definition holds_images (info : result px_error StorageInfo) : bool :=
  match info with Ok i => contains "images" (si_Content i) || contains "import" (si_Content i) | Err _ => true end.

Definition createVMFromImage (name node : string) (spec : VMSpec) (i : ImageRef) : P response :=
  if decide (i_Storage i = "") then Ret (Rejected (FieldRequired "image.storage"))
  else if decide (i_File i = "") then Ret (Rejected (FieldRequired "image.file"))
  else
    ok ← (if has_prefix "/" (i_File i) || contains ":" (i_File i) then Ret true
          else r ← try (GetStorageInfo Json float_v c (i_Storage i)); Ret (holds_images r));
    if negb ok then Ret (Rejected (NoDiskImages (i_Storage i)))
    else
      let config := ToProxmoxConfig spec in
      let config := match assoc "ostype" config with Some _ => config | None => assoc_set "ostype" (VStr "l26") config end in
      cr ← wrap (ErrIn "create VM from image") (CreateVMFromImage Json float_v polls c node name (i_Storage i) (i_File i)
        (i_ContentType i) (i_TargetStorage i) config);
      let '(vmid, upid) := cr in
      _ ← wait_if node upid "import task" 600;
      _ ← forP_ (λ d, if nonempty (d_Size d) && nonempty (d_Name d) then resize_disk node vmid d else Ret tt) (v_Disks spec);
      _ ← start_if node vmid spec; Ret done.

(** [createVM] *)
Definition createVM (manifest : resource) : P response :=
  let spec := ParseVMSpec (fields (r_spec manifest)) in
  let node := if nonempty (v_Node spec) then v_Node spec else h_Node h in
  if decide (node = "") then Ret (Rejected NodeRequired)
  else match v_Template spec, v_CloudImage spec, v_Image spec with
  | Some t, _, _ => createVMFromTemplate (r_name manifest) node spec t
  | None, Some ci, _ => createVMFromCloudImage (r_name manifest) node spec ci
  | None, None, Some i => createVMFromImage (r_name manifest) node spec i
  | None, None, None => Ret (Rejected SourceRequired)
  end.

(** [resizeDisks]: the configuration is read for the first disk that has a size, and
    again as long as it is nil. *)
Fixpoint resizeDisks (v : VM) (raw : option gomap) (disks : list DiskSpec) : P unit :=
  match disks with
  | [] => Ret tt
  | d :: disks =>
      if decide (d_Size d = "") then resizeDisks v raw disks
      else match parseProxmoxSize (d_Size d) with
      | None => Fail (ErrIn ("disk " +:+ d_Name d) (ErrSize (d_Size d)))
      | Some desired =>
          raw ← (match raw with
                 | Some _ => Ret raw
                 | None => wrap (ErrIn "read VM config for disk resize") (GetVMConfigRaw Json float_v c (vm_Node v) (vm_VMID v))
                 end);
          let grow := _ ← wrap (ErrIn "grow disk") (ResizeVMDisk float_v c (vm_Node v) (vm_VMID v) (d_Name d) (d_Size d));
                      resizeDisks v raw disks in
          match currentDiskSize (fields raw) (d_Name d) with
          | Some cur => if decide (desired = cur) then resizeDisks v raw disks
                        else if (desired <? cur)%Z then Fail (ErrShrink (d_Name d) cur (d_Size d)) else grow
          | None => grow
          end
      end
  end.

(** [resizeVM] *)
Definition resize_params (spec : VMSpec) : gomap :=
  pint "memory" (default 0%Z (v_Memory spec)) ++
  (match v_CPU spec with Some cpu => pint "cores" (Cores cpu) ++ pint "sockets" (Sockets cpu) | None => [] end).
Definition resizeVM (v : VM) (spec : VMSpec) : P unit :=
  _ ← (match resize_params spec with
       | [] => Ret tt
       | params => wrap (ErrIn "update VM config") (ConfigureVM float_v c (vm_Node v) (vm_VMID v) params)
       end);
  resizeDisks v None (v_Disks spec).

(** [applyVM] *)
Definition applyVM (manifest : resource) : P response :=
  r ← try (GetVM Json float_v c (r_name manifest));
  match r with
  | Err e => if is_not_found e then createVM manifest else Fail (ErrIn "check existing VM" e)
  | Ok v => _ ← resizeVM v (ParseVMSpec (fields (r_spec manifest))); getVM (r_name manifest)
  end.

(** [deleteVM] *)
Definition deleteVM (name : string) : P response :=
  or_not_found (GetVM Json float_v c name) "VM" name (λ v,
    _ ← (if decide (vm_Status v = "running") then
           _ ← wrap (ErrIn "stop VM") (StopVM Json float_v c (vm_Node v) (vm_VMID v)); _ ← call (Sleep 5); Ret tt
         else Ret tt);
    _ ← DeleteVM Json float_v polls c (vm_Node v) (vm_VMID v); Ret done).

(** [Handle], [handleVM], [handleTemplate], [handleNode]; a manifest goes with the actions that need one. *)
Inductive action : Type :=
| ActionList | ActionGet (name : string) | ActionCreate (m : resource) | ActionDelete (name : string) | ActionApply (m : resource)
| OtherAction (a : string).

Definition action_name (a : action) : string :=
  match a with
  | ActionList => "list" | ActionGet _ => "get" | ActionCreate _ => "create" | ActionDelete _ => "delete" | ActionApply _ => "apply"
  | OtherAction a => a
  end.

Definition handleVM (a : action) : P response :=
  match a with
  | ActionList => listVMs
  | ActionGet name => getVM name
  | ActionCreate m => createVM m
  | ActionDelete name => deleteVM name
  | ActionApply m => applyVM m
  | OtherAction _ => Ret (Rejected (UnknownAction (action_name a)))
  end.
Definition handleTemplate (a : action) : P response :=
  match a with
  | ActionList => listTemplates
  | ActionGet name => getTemplate name
  | _ => Ret (Rejected (UnknownAction (action_name a)))
  end.
Definition handleNode (a : action) : P response :=
  match a with
  | ActionList => listProxmoxNodes
  | ActionGet name => getProxmoxNode name
  | _ => Ret (Rejected (UnknownAction (action_name a)))
  end.
Definition Handle (kind : string) (a : action) : P response :=
  if decide (kind = "VirtualMachine") then handleVM a
  else if decide (kind = "Template") then handleTemplate a
  else if decide (kind = "ProxmoxNode") then handleNode a
  else Ret (Rejected (UnknownType kind)).
End handler.

(** ** What is asked for *)

(** Go through a program of the client, down to its requests. *)
Ltac px_unfold :=
  progress unfold get, post, put, delete, unmarshal, listNodeVMs, ListVMs, listNodes, ListNodes, ListTemplates, GetVM, GetNode, GetTemplate,
    ListNodeStorages, ListNodeBridges, GetVMConfig, GetVMConfigRaw, getNextVMID, getTaskStatus, WaitForTask, ConfigureVM, ResizeVMDisk,
    ConvertToTemplate, AddCloudInitDrive, RegenerateCloudInit, StartVM, StopVM, power, DeleteVM, CreateVM, CloneVM, CreateVMFromImage,
    SetDiskOptions, GetStorageInfo, ListStorageContent, SnippetExists, DownloadToStorage, GetVMIPAddress, UploadSnippet,
    EnsureQemuAgentSnippet.

Section asked.
Context (Json : string → option value) (float_v : spec_float → string) (polls : Z → nat).
Context (yaml_vendor : bool → list string → list string → option string).
Context (h : Handler) (P : request → Prop).
Local Abbreviation c := (h_client h).

Lemma asks_doRequest v p params :
  P (Http (c_endpoint c) v p (form_of float_v <$> params)) → asks P (doRequest float_v c v p params).
Proof. intros H. unfold doRequest. by repeat asks_step. Qed.

Section reads.
Context (Hget : ∀ p, P (Http (c_endpoint c) GET p None)).

Lemma asks_read p : asks P (doRequest float_v c GET p None).
Proof. apply asks_doRequest, Hget. Qed.

Lemma asks_vms_of_nodes nodes : asks P (vms_of_nodes Json float_v c nodes).
Proof. induction nodes as [|n nodes IH]; [done|]. cbn [vms_of_nodes]. repeat (asks_step || px_unfold || apply asks_read); done. Qed.

Lemma asks_observe_vms l : asks P (observe_vms Json float_v h l).
Proof.
  induction l as [|v l IH]; [done|]. cbn [observe_vms]. repeat (asks_step || px_unfold || apply asks_read); done.
Qed.

(** Programs that only read. *)
Ltac asks_reads := repeat (asks_step || px_unfold || apply asks_read || apply asks_vms_of_nodes || apply asks_observe_vms); try done.

Lemma asks_getVM name : asks P (getVM Json float_v h name).
Proof. unfold getVM, or_not_found, observe_vm. asks_reads. Qed.

Lemma asks_GetVM name : asks P (GetVM Json float_v c name).
Proof. asks_reads. Qed.

Lemma asks_GetTemplate name : asks P (GetTemplate Json float_v c name).
Proof. asks_reads. Qed.

Lemma asks_GetVMConfig node vmid : asks P (GetVMConfig Json float_v c node vmid).
Proof. asks_reads. Qed.

Lemma asks_wait_task n node upid : P (Sleep 2) → asks P (wait_task Json float_v n c node upid).
Proof. intros Hs. induction n as [|n IH]; [done|]. cbn [wait_task]. asks_reads. Qed.

Lemma asks_reading kind : asks P (Handle Json float_v polls yaml_vendor h kind ActionList).
Proof.
  unfold Handle, handleVM, handleTemplate, handleNode, listVMs, listTemplates, listProxmoxNodes. asks_reads.
Qed.

Lemma asks_get_any kind name : asks P (Handle Json float_v polls yaml_vendor h kind (ActionGet name)).
Proof.
  unfold Handle, handleVM, handleTemplate, handleNode, getVM, getTemplate, getProxmoxNode, or_not_found, observe_vm, enrichNodeOptions.
  asks_reads.
Qed.
End reads.
End asked.

(** The requests to one endpoint; snippets and waiting apart. *)
Definition own (ep : string) (q : request) : Prop := match q with Http ep' _ _ _ => ep' = ep | _ => True end.

Section own.
Context (Json : string → option value) (float_v : spec_float → string) (polls : Z → nat).
Context (yaml_vendor : bool → list string → list string → option string).
Context (h : Handler).
Local Abbreviation c := (h_client h).

Ltac asks_own :=
  repeat (asks_step || px_unfold || (apply asks_doRequest; done) || (apply asks_wait_task; done) || (apply asks_vms_of_nodes; done));
  try done.

Lemma asks_own_resizeDisks v raw disks : asks (own (c_endpoint c)) (resizeDisks Json float_v h v raw disks).
Proof. induction disks as [|d disks IH] in raw |- *; [done|]. cbn [resizeDisks]. cbv zeta. asks_own; apply IH. Qed.

Lemma asks_own_createVM m : asks (own (c_endpoint c)) (createVM Json float_v polls yaml_vendor h m).
Proof.
  unfold createVM, createVMFromTemplate, createVMFromCloudImage, createVMFromImage, find_template, wait_if, configure, resize_disk,
    set_options, start_if, applyCloudInitVendorSnippet, attach_snippet, put_snippet, image_template, createCloudImageTemplate, or_delete.
  asks_own.
Qed.

(** Everything a handler asks over REST goes to its own endpoint. *)
Lemma asks_own_apply m : asks (own (c_endpoint c)) (applyVM Json float_v polls yaml_vendor h m).
Proof.
  unfold applyVM, resizeVM, getVM, or_not_found, observe_vm.
  asks_own; (apply asks_own_createVM || apply asks_own_resizeDisks).
Qed.

Lemma asks_own_delete name : asks (own (c_endpoint c)) (deleteVM Json float_v polls h name).
Proof. unfold deleteVM, or_not_found. asks_own. Qed.
End own.

(** ** Creating *)

(** The requests that make a new machine. *)
Definition creates (q : request) : bool :=
  match q with Http _ POST (PClone _ _) _ | Http _ POST (PQemu _) _ => true | _ => false end.

(** A complete look at an endpoint, as far as its nodes answered, without a machine of
    that name. *)
Definition seen_missing (Json : string → option value) (c : Client) (name : string) (t : list (request * answer)) : Prop :=
  ∃ nodes rs, inventory Json c t nodes rs ∧ ∀ v, v ∈ inventory_vms Json nodes rs → vm_Name v ≠ name.

Lemma inventory_prefix Json c t t' nodes rs : t `prefix_of` t' → inventory Json c t nodes rs → inventory Json c t' nodes rs.
Proof.
  intros Hp [(r & Hr & Hn) Hrs]. split; [|exact (asked_prefix t t' (vms_request c) nodes rs Hp Hrs)].
  exists r. split; [|done]. destruct Hp as [k ->]. rewrite elem_of_app. by left.
Qed.

Section creating.
Context (Json : string → option value) (float_v : spec_float → string) (polls : Z → nat).
Context (yaml_vendor : bool → list string → list string → option string).
Context (h : Handler).
Local Abbreviation c := (h_client h).

(** The requests that update a machine in place. *)
Definition updates (q : request) : bool :=
  match q with Http _ GET _ _ | Http _ PUT (PConfig _ _) _ | Http _ PUT (PResize _ _) _ => true | _ => false end.

Lemma asks_updates_resizeVM v spec : asks (λ q, updates q = true) (resizeVM Json float_v h v spec).
Proof.
  unfold resizeVM. repeat (asks_step || px_unfold || (apply asks_doRequest; done)); try done.
  generalize (@None gomap). induction (v_Disks spec) as [|d disks IH]; intros raw; [done|]. cbn [resizeDisks]. cbv zeta.
  repeat (asks_step || px_unfold || (apply asks_doRequest; done)); try apply IH; done.
Qed.

(** C26: A machine is created only when it was not found. Whatever the endpoint
    answers, every request of an apply that makes a new machine comes after a list of
    the nodes and a listing of each of them, and no listing that was answered has a
    machine of that name. *)
Theorem apply_creates_only_missing m t x :
  behaves (applyVM Json float_v polls yaml_vendor h m) t x →
  ∀ i q r, t !! i = Some (q, r) → creates q = true → seen_missing Json c (r_name m) (take i t).
Proof.
  intros Hb i q r Hi Hq.
  assert (safe (λ _ _ _, True) (λ t q, creates q = true → seen_missing Json c (r_name m) t) []
    (applyVM Json float_v polls yaml_vendor h m) (λ _ _, True)) as Hs.
  { unfold applyVM. apply safe_bind, safe_try, GetVM_safe; [by intros|..].
    - intros h' nodes rs _ Hinv. destruct (find_vm _ _) as [v|] eqn:Hv; simpl.
      + apply (asks_safe (λ q, updates q = true)).
        * apply asks_bind; [apply asks_updates_resizeVM|intros _; by apply asks_getVM].
        * intros h'' [? [] [] ?| |]; done.
      + apply safe_free. intros t' q' _. exists nodes, rs. split; [|by apply find_vm_None].
        eapply inventory_prefix; [|done]. by eexists.
    - intros h' e _ He. simpl. by rewrite He. }
  destruct (safe_sound _ _ [] _ _ t x Hs Hb) as [Hg _]; [done|]. specialize (Hg i q r Hi Hq). done.
Qed.
End creating.

Lemma elem_form float_v k v (params : gomap) : (k, v) ∈ params → (k, sprint_v float_v v) ∈ form_of float_v params.
Proof.
  intros H. unfold form_of. rewrite sort_entries_perm. apply list_elem_of_fmap. by exists (k, v).
Qed.

(** What a bind has asked. *)
Lemma trace_then {S E A B} (o : result E A * list (request * answer) * S) (f : A → S → result E B * list (request * answer) * S) e :
  e ∈ o.1.2 ∨ (∃ a, o.1.1 = Ok a ∧ e ∈ (f a o.2).1.2) → e ∈ (then_run o f).1.2.
Proof.
  destruct o as [[[a|x] t] s]; simpl.
  - destruct (f a s) as [[y t'] s'] eqn:Hf. simpl. rewrite elem_of_app. intros [H|(b & [= <-] & H)]; [by left|].
    rewrite Hf in H. by right.
  - intros [H|(b & ? & _)]; done.
Qed.

Section unreachable.
Context (Json : string → option value) (float_v : spec_float → string) (polls : Z → nat).
Context (yaml_vendor : bool → list string → list string → option string).
Context {W : Type} (serve : request → W → answer * W) (w : W) (h : Handler).
Local Abbreviation c := (h_client h).

(** A clone is asked for once an id was given. *)
Lemma CloneVM_asks node id name params newid v rest :
  (∀ p, (serve (Http (c_endpoint c) GET p None) w).2 = w) →
  answered Json dec_str "" (ask serve w c PNextID) = Some newid → scan_int newid = Some (v, rest) →
  (∀ k, k ∈ params.*1 → k ∈ ["target"; "storage"]) →
  ∃ form r, (Http (c_endpoint c) POST (PClone node id) (Some form), r) ∈ (run serve (CloneVM Json float_v c node id name params) w).1.2 ∧
    ("name", name) ∈ form.
Proof.
  intros Hpure Hid Hv Hk. unfold CloneVM, getNextVMID.
  set (form := foldl (λ m p, assoc_set p.1 p.2 m) [("newid", VInt v); ("name", VStr name); ("full", VInt 1)] params).
  assert (("name", VStr name) ∈ form) as Hname.
  { apply assoc_elem. unfold form. rewrite assoc_set_all. replace (assoc "name" (reverse params)) with (@None value); [done|].
    symmetry. apply assoc_None. rewrite fmap_reverse, elem_of_reverse. intros H. apply Hk in H. revert H. by_decide. }
  exists (form_of float_v form). destruct (serve (Http (c_endpoint c) POST (PClone node id) (Some (form_of float_v form))) w) as [r w'] eqn:Hr.
  exists r. split; [|by apply (elem_form float_v "name" (VStr name))].
  rewrite run_bind. apply trace_then. right. exists v.
  assert (run serve (body ← get float_v c PNextID; data ← unmarshal Json "next VMID" dec_str "" body;
    match scan_int data with Some (id, _) => Ret id | None => Fail (ErrVMID data) end) w = (Ok v, [heard serve w c PNextID], w)) as ->.
  { unfold heard, ask, answered in *. pose proof (Hpure PNextID) as Hp. simpl.
    destruct (serve (Http (c_endpoint c) GET PNextID None) w) as [[[status body]|] w1]; simpl in *; subst w1; [|done].
    destruct (400 <=? status)%Z; simpl in *; [done|]. unfold unmarshal. rewrite Hid. simpl. by rewrite Hv. }
  split; [done|]. simpl. fold form. rewrite Hr. by destruct (run serve _ w') as [[]]; left.
Qed.

(** A machine on a node that does not answer is taken for a missing one. A node
    whose listing fails is passed over, so when no node that answers lists the name,
    deleting it finds nothing to delete, and applying its manifest clones a second
    machine of that name, although the comment of applyVM says that an outage is
    never mistaken for a missing machine. *)
Theorem unreachable_node_duplicates nodes m tpl newid v rest :
  (∀ p, (serve (Http (c_endpoint c) GET p None) w).2 = w) →
  world_nodes Json serve w c = Some nodes →
  (∀ n u, n ∈ nodes → u ∈ listed Json n (ask serve w c (PQemu n)) → vm_Name u ≠ r_name m) →
  (run serve (deleteVM Json float_v polls h (r_name m)) w).1.1 = Ok (Rejected (NotFoundR "VM" (r_name m))) ∧
  (let spec := ParseVMSpec (fields (r_spec m)) in
   v_Template spec = Some tpl → t_VMID tpl ≠ 0%Z → v_Node spec ≠ "" →
   answered Json dec_str "" (ask serve w c PNextID) = Some newid → scan_int newid = Some (v, rest) →
   ∃ form r,
     (Http (c_endpoint c) POST (PClone (v_Node spec) (t_VMID tpl)) (Some form), r) ∈
       (run serve (applyVM Json float_v polls yaml_vendor h m) w).1.2 ∧
     ("name", r_name m) ∈ form).
Proof.
  intros Hpure Hn Hnone.
  assert (find_vm (r_name m) (world_vms Json serve w c nodes) = None) as Hfind.
  { apply find_vm_None. intros u (i & n & r & Hi & Hr & Hu)%inventory_vms_elem.
    rewrite list_lookup_fmap, Hi in Hr. simplify_eq/=. apply (Hnone n); [by eapply list_elem_of_lookup_2|done]. }
  split.
  - unfold deleteVM, or_not_found. rewrite run_bind, run_try, (run_GetVM _ _ _ _ _ Hpure nodes) by done. by rewrite Hfind.
  - intros spec Ht Hid Hnode Hnext Hv.
    destruct (CloneVM_asks (v_Node spec) (t_VMID tpl) (r_name m) (pstr "storage" (primaryDiskStorage spec)) newid v rest)
      as (form & r & Hin & Hname); [done..| |].
    { unfold pstr. destruct (nonempty _); simpl; [|by intros k ?%elem_of_nil]. intros k ->%list_elem_of_singleton. by_decide. }
    exists form, r. split; [|done]. unfold applyVM. rewrite run_bind, run_try, (run_GetVM _ _ _ _ _ Hpure nodes) by done.
    rewrite Hfind. apply trace_then. right. eexists. split; [done|]. simpl. unfold createVM. fold spec.
    assert (nonempty (v_Node spec) = true) as -> by by apply bool_decide_eq_true. rewrite decide_False, Ht by done.
    unfold createVMFromTemplate, find_template. rewrite run_bind. apply trace_then. right. eexists.
    rewrite decide_False by tauto. split; [done|]. cbv beta iota zeta. cbn [snd fst run]. rewrite decide_True by done. rewrite run_bind. apply trace_then. by left.
Qed.
End unreachable.

(** ** Updating *)

Section updating.
Context (Json : string → option value) (float_v : spec_float → string) (polls : Z → nat).
Context (yaml_vendor : bool → list string → list string → option string).
Context (h : Handler).
Local Abbreviation c := (h_client h).

(** The configuration of a machine that a conversation has shown. *)
Definition shown (v : VM) (t : list (request * answer)) (raw : option gomap) : Prop :=
  ∃ r, (config_request c (vm_Node v) (vm_VMID v), r) ∈ t ∧ answered Json dec_map None r = Some raw.

(** An update in place: memory, cores and sockets, and disks that grow as far as their
    size is known. *)
Definition in_place (v : VM) (spec : VMSpec) (t : list (request * answer)) (q : request) : Prop :=
  match q with
  | Http _ PUT (PConfig n i) (Some form) =>
      n = vm_Node v ∧ i = vm_VMID v ∧ ∀ k, k ∈ form.*1 → k ∈ ["memory"; "cores"; "sockets"]
  | Http _ PUT (PResize n i) (Some form) =>
      n = vm_Node v ∧ i = vm_VMID v ∧
      ∃ d want raw, d ∈ v_Disks spec ∧ form = [("disk", d_Name d); ("size", d_Size d)] ∧ parseProxmoxSize (d_Size d) = Some want ∧
        shown v t raw ∧ ∀ cur, currentDiskSize (fields raw) (d_Name d) = Some cur → (cur < want)%Z
  | _ => False
  end.

Lemma shown_prefix v t t' raw : t `prefix_of` t' → shown v t raw → shown v t' raw.
Proof. intros [k ->] (r & Hr & Ha). exists r. rewrite elem_of_app. tauto. Qed.

Section guarded.
Context (rely : list (request * answer) → request → answer → Prop) (guar : list (request * answer) → request → Prop).
Context (v : VM) (spec : VMSpec) (t0 : list (request * answer)).
Context (Hread : ∀ t ep p, guar t (Http ep GET p None)).
Context (Hguar : ∀ t q, t0 `prefix_of` t → in_place v spec t q → guar t q).

Lemma put_safe t p params post :
  guar t (Http (c_endpoint c) PUT p (Some (form_of float_v params))) →
  (∀ t' (x : result px_error string), t `prefix_of` t' → post t' (match x with Ok _ => Ok tt | Err e => Err e end)) →
  safe rely guar t (_ ← put float_v c p (Some params); Ret tt) post.
Proof.
  intros Hg Hpost. apply safe_bind, doRequest_safe; [done|]. intros r _.
  destruct (body_of r) as [b|e]; [apply (Hpost _ (Ok b))|apply (Hpost _ (Err e))]; by eexists.
Qed.

Lemma resizeDisks_safe disks raw t :
  t0 `prefix_of` t → (∀ d, d ∈ disks → d ∈ v_Disks spec) → (∀ m, raw = Some m → shown v t raw) →
  safe rely guar t (resizeDisks Json float_v h v raw disks) (λ t' _, t `prefix_of` t').
Proof.
  revert raw t. induction disks as [|d disks IH]; intros raw t Ht Hd Hraw; [by simpl|]. cbn [resizeDisks].
  assert (∀ d, d ∈ disks → d ∈ v_Disks spec) as Hd' by (intros d' ?; apply Hd; by right).
  case_decide; [by apply IH|]. destruct (parseProxmoxSize (d_Size d)) as [want|] eqn:Hwant; [|by simpl].
  assert (∀ raw t1, t `prefix_of` t1 → shown v t1 raw → safe rely guar t1
    (match currentDiskSize (fields raw) (d_Name d) with
     | Some cur => if decide (want = cur) then resizeDisks Json float_v h v raw disks
                   else if (want <? cur)%Z then Fail (ErrShrink (d_Name d) cur (d_Size d))
                   else _ ← wrap (ErrIn "grow disk") (ResizeVMDisk float_v c (vm_Node v) (vm_VMID v) (d_Name d) (d_Size d));
                        resizeDisks Json float_v h v raw disks
     | None => _ ← wrap (ErrIn "grow disk") (ResizeVMDisk float_v c (vm_Node v) (vm_VMID v) (d_Name d) (d_Size d));
               resizeDisks Json float_v h v raw disks
     end) (λ t' _, t `prefix_of` t')) as Hrest.
  { intros raw1 t1 Ht1 Hshown.
    assert (safe rely guar t1 (resizeDisks Json float_v h v raw1 disks) (λ t' _, t `prefix_of` t')) as Hnext.
    { eapply safe_mono; [apply IH; [by etrans|done|done]|]. intros t' x Hp. simpl. by etrans. }
    assert ((∀ cur, currentDiskSize (fields raw1) (d_Name d) = Some cur → (cur < want)%Z) → safe rely guar t1
      (_ ← wrap (ErrIn "grow disk") (ResizeVMDisk float_v c (vm_Node v) (vm_VMID v) (d_Name d) (d_Size d));
       resizeDisks Json float_v h v raw1 disks) (λ t' _, t `prefix_of` t')) as Hgrow.
    { intros Hcur. apply safe_bind, safe_wrap, put_safe.
      - apply Hguar; [by etrans|]. split_and!; [done..|]. exists d, want, raw1. split_and!; [apply Hd; left|done..].
      - intros t' x Ht'. destruct x; simpl; [|by etrans]. eapply safe_mono; [apply IH; [by do 2 etrans|done|]|].
        + intros m _. by eapply shown_prefix.
        + intros t'' y Hp. simpl. by do 2 etrans. }
    destruct (currentDiskSize _ _) as [cur|]; [|by apply Hgrow]. case_decide; [done|].
    destruct (Z.ltb_spec want cur); [by simpl|]. apply Hgrow. intros cur' [= <-]. lia. }
  cbv zeta. destruct raw as [m|].
  - apply (Hrest (Some m) t); [done|by apply (Hraw m)].
  - apply safe_bind, safe_wrap, read_safe; [apply Hread|]. intros r _.
    destruct (answered Json dec_map None r) as [raw|] eqn:Hr; simpl; [|intros e _; by eexists].
    apply Hrest; [by eexists|]. exists r. split; [|done]. rewrite elem_of_app. right. by apply list_elem_of_singleton.
Qed.
End guarded.

Lemma form_keys (params : gomap) k : k ∈ (form_of float_v params).*1 → k ∈ params.*1.
Proof.
  unfold form_of. rewrite sort_entries_perm, <- list_fmap_compose. by intros (p & -> & Hp)%list_elem_of_fmap; apply list_elem_of_fmap_2.
Qed.

Lemma resize_params_keys spec k : k ∈ (resize_params spec).*1 → k ∈ ["memory"; "cores"; "sockets"].
Proof.
  intros ([k' x] & -> & Hp)%list_elem_of_fmap. unfold resize_params in Hp. rewrite !elem_of_app in Hp.
  destruct Hp as [->%pint_key|Hp]; [by_decide|]. destruct (v_CPU spec) as [cpu|]; [|by apply elem_of_nil in Hp].
  rewrite elem_of_app in Hp. destruct Hp as [->%pint_key| ->%pint_key]; by_decide.
Qed.

(** A machine that an inventory shows first under a name. *)
Definition seen_machine (name : string) (t : list (request * answer)) (v : VM) : Prop :=
  ∃ nodes rs, inventory Json c t nodes rs ∧ find_vm name (inventory_vms Json nodes rs) = Some v.

(** A machine that exists is updated in place, and nothing else. Every request of
    an apply that is not a reading comes either after a complete look without a
    machine of that name, or concerns the machine that was found: it sets memory,
    cores and sockets only, or grows a declared disk whose size in the configuration
    just read is smaller or not known. So a machine whose creation failed halfway is
    never configured later. *)
Theorem apply_updates_in_place m t x :
  behaves (applyVM Json float_v polls yaml_vendor h m) t x →
  ∀ i ep v p params r, t !! i = Some (Http ep v p params, r) → v ≠ GET →
    seen_missing Json c (r_name m) (take i t) ∨
    ∃ u, seen_machine (r_name m) (take i t) u ∧ in_place u (ParseVMSpec (fields (r_spec m))) (take i t) (Http ep v p params).
Proof.
  intros Hb i ep v p params r Hi Hv. set (spec := ParseVMSpec (fields (r_spec m))).
  set (guar := λ t q, match q with
    | Http _ v _ _ => v ≠ GET → seen_missing Json c (r_name m) t ∨ ∃ u, seen_machine (r_name m) t u ∧ in_place u spec t q
    | _ => True end).
  assert (∀ t ep p, guar t (Http ep GET p None)) as Hread by (intros ??? []; done).
  assert (safe (λ _ _ _, True) guar [] (applyVM Json float_v polls yaml_vendor h m) (λ _ _, True)) as Hs.
  { unfold applyVM. apply safe_bind, safe_try, GetVM_safe; [done|..].
    - intros h' nodes rs _ Hinv. destruct (find_vm _ _) as [u|] eqn:Hu; simpl.
      + assert (∀ t q, h' `prefix_of` t → in_place u spec t q → guar t q) as Hin.
        { intros t' [] Ht Hq; try done. intros _. right. exists u. split; [|done]. exists nodes, rs. split; [|done].
          by eapply inventory_prefix. }
        assert (∀ t1, h' `prefix_of` t1 → safe (λ _ _ _, True) guar t1 (resizeDisks Json float_v h u None (v_Disks spec))
          (λ t2 y, match y with Ok _ => safe (λ _ _ _, True) guar t2 (getVM Json float_v h (r_name m)) (λ _ _, True) | Err _ => True end))
          as Hdisks.
        { intros t1 Ht1. eapply safe_mono; [by apply (resizeDisks_safe _ _ u spec h')|]. intros t2 [] _; [|done].
          apply (asks_safe (λ q, match q with Http _ v _ _ => v = GET | _ => False end)); [by apply asks_getVM|].
          intros ? [? v' ? ?| |] Hq; [|done..]. by intros []. }
        unfold resizeVM. fold spec. apply safe_bind, safe_bind.
        destruct (resize_params spec) as [|x0 l] eqn:Hp; [by apply Hdisks|]. apply safe_wrap, put_safe.
        * apply Hin; [done|]. split_and!; [done..|]. intros k Hk%form_keys. apply (resize_params_keys spec). by rewrite Hp.
        * intros t1 y Ht1. destruct y; simpl; [by apply Hdisks|done].
      + apply safe_free. intros t' [] ; try done. intros _. left. exists nodes, rs. split; [|by apply find_vm_None].
        eapply inventory_prefix; [|done]. by eexists.
    - intros h' e _ He. simpl. by rewrite He. }
  destruct (safe_sound _ _ [] _ _ t x Hs Hb) as [Hg _]; [done|]. exact (Hg i _ r Hi Hv).
Qed.
End updating.

(** ** Verified images *)

Section images.
Context (Json : string → option value) (float_v : spec_float → string) (polls : Z → nat).
Context (yaml_vendor : bool → list string → list string → option string).
Context (h : Handler).
Local Abbreviation c := (h_client h).
Local Abbreviation conversation := (list (request * answer)).

(** A configuration was read that has the tag of the checksum. *)
Definition tagged (ck : ImageChecksum) (t : conversation) (id : Z) : Prop :=
  ∃ n r config, (config_request c n id, r) ∈ t ∧ answered Json dec_config None r = Some (Some config) ∧
    verified_by (TemplateTag ck) config = true.

(** An image was downloaded with the checksum, and its task ended well. *)
Definition downloaded (ck : ImageChecksum) (node storage file : string) (t : conversation) : Prop :=
  ∃ form r upid r', (Http (c_endpoint c) POST (PDownload node storage) (Some form), r) ∈ t ∧
    ("checksum-algorithm", algorithm ck) ∈ form ∧ ("checksum", digest ck) ∈ form ∧ ("filename", file) ∈ form ∧
    answered Json dec_str "" r = Some upid ∧ (Http (c_endpoint c) GET (PTask node upid) None, r') ∈ t ∧
    answered Json dec_task (MkTask "" "") r' = Some (MkTask "stopped" "OK").

(** A machine was made whose disk is the image. *)
Definition imported (node storage file target : string) (t : conversation) (id : Z) : Prop :=
  ∃ r, (Http (c_endpoint c) PUT (PConfig node id)
          (Some [("scsi0", target +:+ ":0,import-from=" +:+ storage +:+ ":import/" +:+ file)]), r) ∈ t ∧ is_ok (body_of r) = true.

Definition image_verified (ck : ImageChecksum) (t : conversation) (id : Z) : Prop :=
  tagged ck t id ∨ ∃ node storage file target, downloaded ck node storage file t ∧ imported node storage file target t id.

Lemma tagged_prefix ck t t' id : t `prefix_of` t' → tagged ck t id → tagged ck t' id.
Proof. intros [k ->] (n & r & config & Hr & Ha). exists n, r, config. rewrite elem_of_app. tauto. Qed.

Lemma downloaded_prefix ck node storage file t t' :
  t `prefix_of` t' → downloaded ck node storage file t → downloaded ck node storage file t'.
Proof.
  intros [k ->] (form & r & upid & r' & H1 & H2 & H3 & H4 & H5 & H6 & H7). exists form, r, upid, r'. rewrite !elem_of_app. tauto.
Qed.

Lemma imported_prefix node storage file target t t' id :
  t `prefix_of` t' → imported node storage file target t id → imported node storage file target t' id.
Proof. intros [k ->] (r & Hr & Ha). exists r. rewrite elem_of_app. tauto. Qed.

Lemma image_verified_prefix ck t t' id : t `prefix_of` t' → image_verified ck t id → image_verified ck t' id.
Proof.
  intros Hp [H|(n & s & f & g & H1 & H2)]; [left; by eapply tagged_prefix|]. right. exists n, s, f, g.
  split; [by eapply downloaded_prefix|by eapply imported_prefix].
Qed.

Section guarded.
Context (guar : conversation → request → Prop).
Local Abbreviation safe := (safe (λ _ _ _, True) guar).
(** Only clones need a reason. *)
Definition clones (q : request) : bool := match q with Http _ POST (PClone _ _) _ => true | _ => false end.
Context (Hfree : ∀ t q, clones q = false → guar t q).

Lemma free_safe {E A} t (p : prog request answer E A) :
  asks (λ q, clones q = false) p → safe t p (λ t' _, t `prefix_of` t').
Proof.
  intros Hp. eapply safe_mono; [apply safe_prefix; by apply (asks_safe _ _ _ _ _ Hp)|]. by intros t' x [_ ?].
Qed.

Lemma call_safe {E} t q (post : conversation → result E answer → Prop) :
  clones q = false → (∀ r, post (t ++ [(q, r)]) (Ok r)) → safe t (call q) post.
Proof. intros Hq Hpost. split; [by apply Hfree|]. intros r _. apply Hpost. Qed.

Lemma wait_task_safe n t node upid :
  safe t (wait_task Json float_v n c node upid) (λ t' x, t `prefix_of` t' ∧
    (x = Ok tt → ∃ r, (Http (c_endpoint c) GET (PTask node upid) None, r) ∈ t' ∧
       answered Json dec_task (MkTask "" "") r = Some (MkTask "stopped" "OK"))).
Proof.
  induction n as [|n IH] in t |- *; [by simpl|]. cbn [wait_task]. apply safe_bind. unfold getTaskStatus.
  apply read_bind_safe; [by apply Hfree|]. intros r _. set (t1 := t ++ [_]). assert (t `prefix_of` t1) as Ht1 by by eexists.
  destruct (answered Json dec_task _ r) as [[s e]|] eqn:Hr; [|intros e _; by split].
  case_decide as Hbad; [by split|]. simpl in *. case_decide as Hs.
  - split; [done|]. intros _. exists r. split; [unfold t1; rewrite elem_of_app, list_elem_of_singleton; by right|].
    rewrite Hr. subst s. destruct (decide (e = "OK")) as [->|]; [done|tauto].
  - split; [by apply Hfree|]. intros [a|] _; [|split; [etrans; [done|by eexists]|done]].
    eapply safe_mono; [apply IH|]. intros t2 x [Ht2 Hx]. split; [|done]. etrans; [|exact Ht2]. etrans; [done|by eexists].
Qed.

(** A change of a configuration that succeeds was answered. *)
Lemma configure_safe t node id params :
  safe t (ConfigureVM float_v c node id params) (λ t' x, t `prefix_of` t' ∧
    (x = Ok tt → ∃ r, (Http (c_endpoint c) PUT (PConfig node id) (Some (form_of float_v params)), r) ∈ t' ∧ is_ok (body_of r) = true)).
Proof.
  apply safe_bind, doRequest_safe; [by apply Hfree|]. intros r _. destruct (body_of r) as [b|e] eqn:Hr; (split; [by eexists|]); [|done].
  intros _. exists r. rewrite elem_of_app, list_elem_of_singleton, Hr. split; [by right|done].
Qed.

Lemma download_safe t node storage url file ck :
  algorithm ck ≠ "" →
  safe t (DownloadToStorage Json float_v c node storage url file "import" ck) (λ t' x, t `prefix_of` t' ∧
    ∀ upid, x = Ok upid → ∃ form r, (Http (c_endpoint c) POST (PDownload node storage) (Some form), r) ∈ t' ∧
      ("checksum-algorithm", algorithm ck) ∈ form ∧ ("checksum", digest ck) ∈ form ∧ ("filename", file) ∈ form ∧
      answered Json dec_str "" r = Some upid).
Proof.
  intros Hck. unfold DownloadToStorage. rewrite decide_False by done. set (params := [_; _; _] ++ [_; _]).
  apply safe_bind, safe_wrap, doRequest_safe; [by apply Hfree|]. intros r _. set (t1 := t ++ [_]).
  assert (t `prefix_of` t1) as Ht1 by by eexists. destruct (body_of r) as [body|e] eqn:Hr; [|by split]. simpl.
  apply safe_bind, unmarshal_safe. destruct (decode_data Json dec_str "" body) as [upid|] eqn:Hd; [|by split].
  case_decide as Hu; [by split|]. split; [done|]. intros upid' [= <-]. exists (form_of float_v params), r.
  split; [unfold t1; rewrite elem_of_app, list_elem_of_singleton; by right|].
  split_and!; [apply (elem_form float_v _ (VStr _)); unfold params; set_solver..|]. unfold answered. by rewrite Hr.
Qed.

Lemma or_delete_safe {A} t node id what (p : P A) (post : conversation → A → Prop) :
  safe t p (λ t' x, t `prefix_of` t' ∧ ∀ a, x = Ok a → post t' a) →
  safe t (or_delete Json float_v polls h node id what p) (λ t' x, t `prefix_of` t' ∧ ∀ a, x = Ok a → post t' a).
Proof.
  intros Hp. apply safe_bind, safe_try. eapply safe_mono; [exact Hp|]. intros t1 [a|e] [Ht1 Ha]; cbv beta iota; [by split; [|apply Ha]|].
  apply safe_bind. eapply safe_mono.
  - apply free_safe. repeat (asks_step || px_unfold || (apply asks_doRequest; done) || (apply asks_wait_task; done)); done.
  - intros t2 x Ht2. destruct x; (split; [by etrans|done]).
Qed.

Ltac asks_free := repeat (asks_step || px_unfold || (apply asks_doRequest; done) || (apply asks_wait_task; done)); done.

(** Going on after a step that keeps what was established. *)
Lemma safe_step {E A B} t t0 (p : prog request answer E A) (f : A → prog request answer E B) (Q : conversation → A → Prop)
    (R : conversation → B → Prop) :
  t0 `prefix_of` t → safe t p (λ t' x, t `prefix_of` t' ∧ ∀ a, x = Ok a → Q t' a) →
  (∀ t' a, t `prefix_of` t' → Q t' a → safe t' (f a) (λ t'' x, t0 `prefix_of` t'' ∧ ∀ b, x = Ok b → R t'' b)) →
  safe t (p ≫= f) (λ t'' x, t0 `prefix_of` t'' ∧ ∀ b, x = Ok b → R t'' b).
Proof.
  intros Ht Hp Hf. apply safe_bind. eapply safe_mono; [exact Hp|]. intros t' [a|e] [Ht' Ha]; [by apply Hf, Ha|].
  split; [by etrans|done].
Qed.

Lemma safe_step_wrap {E F A} t (g : E → F) (p : prog request answer E A) (Q : conversation → A → Prop) :
  safe t p (λ t' x, t `prefix_of` t' ∧ ∀ a, x = Ok a → Q t' a) →
  safe t (wrap g p) (λ t' x, t `prefix_of` t' ∧ ∀ a, x = Ok a → Q t' a).
Proof.
  intros Hp. apply safe_wrap. eapply safe_mono; [exact Hp|]. intros t' [a|e] [Ht Ha]; (split; [done|]); [|done].
  intros a' [= <-]. by apply Ha.
Qed.

Lemma free_step {E A} t (p : prog request answer E A) :
  asks (λ q, clones q = false) p → safe t p (λ t' x, t `prefix_of` t' ∧ ∀ a, x = Ok a → True).
Proof. intros Hp. eapply safe_mono; [by apply free_safe|]. by intros. Qed.

Lemma template_safe t node name ci ck :
  algorithm ck ≠ "" →
  safe t (createCloudImageTemplate Json float_v polls h node name ci ck) (λ t' x, t `prefix_of` t' ∧
    ∀ id, x = Ok id → image_verified ck t' id).
Proof.
  intros Hck. unfold createCloudImageTemplate. set (file := normalizeImageExtension _). cbv zeta.
  eapply safe_step; [done|apply safe_step_wrap, download_safe, Hck|]. intros t1 upid Ht1 (form & r & Hin & Ha & Hd & Hf & Hr).
  eapply (safe_step _ _ _ _ (λ t' _, downloaded ck node (c_Storage ci) file t')); [done| |].
  { apply safe_step_wrap. eapply safe_mono; [apply wait_task_safe|]. intros t2 x [Ht2 Hx]. split; [done|]. intros [] ->.
    destruct (Hx eq_refl) as (r' & Hr' & Htask). exists form, r, upid, r'. split_and!; try done.
    destruct Ht2 as [k ->]. rewrite elem_of_app. by left. }
  intros t2 [] Ht2 Hdown. eapply (safe_step _ _ _ _ (λ _ _, True)); [by etrans|apply safe_step_wrap, free_step; asks_free|].
  intros t3 id Ht3 _.
  eapply (safe_step _ _ _ _ (λ t' _, image_verified ck t' id)); [by do 2 etrans| |].
  { apply (or_delete_safe _ _ _ _ _ (λ t' _, image_verified ck t' id)). eapply safe_mono; [apply configure_safe|].
    intros t4 x [Ht4 Hx]. split; [done|]. intros [] ->. destruct (Hx eq_refl) as (r4 & Hr4 & Hok). right.
    exists node, (c_Storage ci), file, (disk_storage ci). split; [eapply downloaded_prefix; [|exact Hdown]; by etrans|]. by exists r4. }
  intros t4 [] Ht4 Hver. assert (t `prefix_of` t4) as H4 by (do 3 (etrans; [eassumption|]); done).
  eapply (safe_step _ _ _ _ (λ t' _, t4 `prefix_of` t')); [done| |].
  { eapply safe_mono; [by apply free_safe|]. intros t5 x H5. by split. }
  intros t5 _ _ H5.
  do 2 (eapply (safe_step _ _ _ _ (λ t' _, t4 `prefix_of` t')); [etrans; [exact H4|done]| |];
    [eapply safe_mono; [apply free_safe; unfold or_delete; asks_free|]; intros ? x ?; split; [done|]; intros; etrans; [exact H5|done]|];
    clear H5; intros ? _ _ H5).
  split; [etrans; [exact H4|done]|]. intros id' [= <-]. by eapply image_verified_prefix.
Qed.

Lemma GetVMConfig_safe t node id :
  safe t (GetVMConfig Json float_v c node id) (λ t' x, t `prefix_of` t' ∧ ∀ config, x = Ok config →
    ∃ r, (config_request c node id, r) ∈ t' ∧ answered Json dec_config None r = Some (Some config)).
Proof.
  apply read_bind_safe; [by apply Hfree|]. intros r _. destruct (answered Json dec_config None r) as [[config|]|] eqn:Hr; simpl.
  - split; [by eexists|]. intros ? [= <-]. exists r. rewrite elem_of_app, list_elem_of_singleton. split; [by right|done].
  - split; [by eexists|done].
  - intros e _. split; [by eexists|done].
Qed.

(** The template that is cloned is a verified one. *)
Lemma image_template_safe t node name ci ck :
  TemplateTag ck ≠ "" →
  safe t (image_template Json float_v polls h node name ci ck) (λ t' x, t `prefix_of` t' ∧ ∀ id, x = Ok id → image_verified ck t' id).
Proof.
  intros Htag. unfold image_template. apply safe_bind, safe_try.
  eapply safe_mono; [apply free_safe, asks_GetTemplate; done|]. intros t1 [v|e] Ht1; cbv beta iota.
  - rewrite decide_False by done. eapply safe_step; [done|apply safe_step_wrap, GetVMConfig_safe|].
    intros t2 config Ht2 (r & Hr & Ha). destruct (verified_by _ config) eqn:Hv; (split; [by etrans|]); [|done].
    intros id [= <-]. left. by exists (vm_Node v), r, config.
  - destruct (is_not_found e); [|by split]. eapply safe_mono.
    + apply safe_step_wrap, template_safe. intros E. apply Htag. unfold TemplateTag. by rewrite decide_True.
    + intros t2 x [Ht2 Hx]. split; [by etrans|done].
Qed.
End guarded.

(** The requests that follow a clone. *)
Lemma asks_finish node vmid upid spec (cont : P response) seconds (disks : DiskSpec → P unit) (snippet : P unit) :
  (∀ d, asks (λ q, clones q = false) (disks d)) → asks (λ q, clones q = false) snippet → asks (λ q, clones q = false) cont →
  asks (λ q, clones q = false)
    (_ ← wait_if Json float_v polls h node upid "clone task" seconds; _ ← configure float_v h node vmid spec;
     _ ← forP_ disks (v_Disks spec); _ ← snippet; cont).
Proof.
  intros Hd Hs Hc. unfold wait_if, configure.
  repeat (asks_step || px_unfold || (apply asks_doRequest; done) || (apply asks_wait_task; done)); done.
Qed.

Lemma ParseImageChecksum_tag v ck : ParseImageChecksum v = Ok ck → v ≠ "" → TemplateTag ck ≠ "".
Proof.
  unfold ParseImageChecksum. intros H Hv. rewrite decide_False in H by done. destruct (cut_byte ":" v) as [[a d]|]; [|done].
  destruct (digest_length a) as [n|] eqn:Ha; [|done]. case_decide; [done|]. destruct (all_bytes is_hex d); simplify_eq/=.
  unfold TemplateTag. simpl. case_decide; [|done]. by subst.
Qed.

(** C27: A pinned image is never used unverified. When a manifest pins the checksum of
    its cloud image, every clone that an apply asks for is of a template whose
    configuration was read and has the tag of that checksum, or of one made in this
    apply from a file that the endpoint downloaded with that checksum, after the
    download task ended with success. *)
Theorem pinned_image_verified m ci ck t x :
  let spec := ParseVMSpec (fields (r_spec m)) in
  v_Template spec = None → v_CloudImage spec = Some ci → c_Checksum ci ≠ "" → ParseImageChecksum (c_Checksum ci) = Ok ck →
  behaves (applyVM Json float_v polls yaml_vendor h m) t x →
  ∀ i ep n id form r, t !! i = Some (Http ep POST (PClone n id) form, r) → image_verified ck (take i t) id.
Proof.
  intros spec Ht Hci Hne Hck Hb i ep n id form r Hi.
  pose proof (ParseImageChecksum_tag _ _ Hck Hne) as Htag.
  set (guar := λ t q, match q with Http _ POST (PClone _ id) _ => image_verified ck t id | _ => True end).
  assert (∀ t q, clones q = false → guar t q) as Hfree by by intros t' [? [] [] ?| |].
  assert (safe (λ _ _ _, True) guar [] (applyVM Json float_v polls yaml_vendor h m) (λ _ _, True)) as Hs.
  { unfold applyVM. apply safe_bind, safe_try.
    eapply safe_mono; [by apply (free_safe guar Hfree), asks_GetVM|]. intros t1 [v|e] _; cbv beta iota.
    - apply (asks_safe (λ q, clones q = false)); [|done]. apply asks_bind; [|intros _; by apply asks_getVM].
      eapply asks_weaken; [apply asks_updates_resizeVM|]. by intros [? [] []| |].
    - destruct (is_not_found e); [|done]. unfold createVM. fold spec. rewrite Ht, Hci. case_decide; [done|].
      unfold createVMFromCloudImage. case_decide; [done|]. case_decide; [done|]. rewrite Hck.
      apply safe_bind. eapply safe_mono; [by apply (image_template_safe guar Hfree)|]. intros t2 [tid|e2] [Ht2 Hv]; [|done].
      apply safe_bind, safe_wrap. unfold CloneVM. apply safe_bind.
      eapply safe_mono; [apply (free_safe guar Hfree); repeat (asks_step || px_unfold || (apply asks_doRequest; done)); done|].
      intros t3 [newid|e3] Ht3; cbv beta iota; [|done]. apply safe_bind, doRequest_safe.
      { simpl. eapply image_verified_prefix; [exact Ht3|]. by apply Hv. }
      intros r1 _. destruct (body_of r1) as [b|e4]; [|done]. cbn [map_err safe mret prog_ret].
      apply (asks_safe (λ q, clones q = false)); [|done]. apply asks_finish.
      + intros d. unfold resize_disk, set_options. repeat (asks_step || px_unfold || (apply asks_doRequest; done)); done.
      + unfold applyCloudInitVendorSnippet, attach_snippet, put_snippet.
        repeat (asks_step || px_unfold || (apply asks_doRequest; done)); done.
      + unfold start_if. repeat (asks_step || px_unfold || (apply asks_doRequest; done)); done. }
  destruct (safe_sound _ _ [] _ _ t x Hs Hb) as [Hg _]; [done|]. exact (Hg i _ r Hi).
Qed.
End images.

(** ** Witnesses *)

(** A cluster of two nodes; [place] is what the listing of a node says, and a node that
    is down fails. *)
Definition ex_data (v : value) : option value := Some (VMap [("data", v)]).
Definition ex_json (body : string) : option value :=
  if decide (body = "nodes") then ex_data (VList [VMap [("node", VStr "a")]; VMap [("node", VStr "b")]])
  else if decide (body = "none") then ex_data (VList [])
  else if decide (body = "web") then
    ex_data (VList [VMap [("vmid", VInt 101); ("name", VStr "web"); ("status", VStr "running")]])
  else if decide (body = "template") then
    ex_data (VList [VMap [("vmid", VInt 9000); ("name", VStr "tpl-jammy"); ("template", VInt 1)]])
  else if decide (body = "id") then ex_data (VStr "102")
  else if decide (body = "task") then ex_data (VStr "UPID:1")
  else if decide (body = "stopped") then ex_data (VMap [("status", VStr "stopped"); ("exitstatus", VStr "OK")])
  else if decide (body = "config") then
    ex_data (VMap [("scsi0", VStr "local-lvm:vm-101-disk-0,size=10G"); ("smbios1", VStr "uuid=u-1");
                   ("tags", VStr "k3s;openctl-image-md5-d41d8cd98f00b204e9800998ecf8427e")])
  else None.
Definition ex_serve (down : list string) (place : string → string) (q : request) (w : unit) : answer * unit :=
  (match q with
   | Http _ GET PNodes _ => Some (200%Z, "nodes")
   | Http _ GET (PQemu n) _ => if decide (n ∈ down) then Some (500%Z, "") else Some (200%Z, place n)
   | Http _ GET PNextID _ => Some (200%Z, "id")
   | Http _ GET (PTask _ _) _ => Some (200%Z, "stopped")
   | Http _ GET (PConfig _ _) _ => Some (200%Z, "config")
   | Http _ POST _ _ => Some (200%Z, "task")
   | _ => Some (200%Z, "null")
   end, tt).

Definition ex_polls (seconds : Z) : nat := 3.
Definition ex_float (f : spec_float) : string := "".
Definition ex_yaml (update : bool) (packages cmds : list string) : option string := Some "".
Definition ex_handler : Handler := NewHandler "https://pve" "a" [] None.
Definition ex_machine (spec : gomap) : resource := Resource apiVersion "VirtualMachine" (ResourceMetadata "web" "" [] [] "" "") (Some spec) None.
Definition ex_clone : resource :=
  ex_machine [("node", VStr "a"); ("template", VMap [("vmid", VFloat (f64_of_Z 9000))]); ("memory", VMap [("size", VFloat (f64_of_Z 2048))]);
              ("disks", VList [VMap [("name", VStr "scsi0"); ("size", VStr "50G")]])].
Definition ex_apply (down : list string) (place : string → string) (m : resource) : result px_error response * list (request * answer) * unit :=
  run (ex_serve down place) (applyVM ex_json ex_float ex_polls ex_yaml ex_handler m) tt.
Definition ex_on_b (n : string) : string := if decide (n = "b") then "web" else "none".

Lemma apply_creates_only_missing_witness :
  ∃ q r, (ex_apply [] (λ _, "none") ex_clone).1.2 !! 4 = Some (q, r) ∧ creates q = true ∧
    seen_missing ex_json (h_client ex_handler) "web" (take 4 (ex_apply [] (λ _, "none") ex_clone).1.2).
Proof.
  eexists _, _. split; [vm_compute; reflexivity|]. split; [reflexivity|].
  eapply (apply_creates_only_missing ex_json ex_float ex_polls ex_yaml ex_handler ex_clone _ _ (run_behaves (ex_serve [] (λ _, "none")) _ tt) 4);
    [vm_compute; reflexivity|reflexivity].
Defined.

Lemma unreachable_node_duplicates_witness :
  listed ex_json "b" (ask (ex_serve [] ex_on_b) tt (h_client ex_handler) (PQemu "b")) ≠ [] ∧
  forallb (λ e, negb (creates e.1)) (ex_apply [] ex_on_b ex_clone).1.2 = true ∧
  ∃ form r, (Http "https://pve" POST (PClone "a" 9000) (Some form), r) ∈ (ex_apply ["b"] ex_on_b ex_clone).1.2 ∧ ("name", "web") ∈ form.
Proof.
  split; [vm_compute; discriminate|]. split; [vm_compute; reflexivity|].
  destruct (unreachable_node_duplicates ex_json ex_float ex_polls ex_yaml (ex_serve ["b"] ex_on_b) tt ex_handler ["a"; "b"] ex_clone
    (MkTemplateRef "" 9000) "102" 102 "") as [_ H]; [done|vm_compute; reflexivity| |].
  - intros n u Hn Hu. rewrite !elem_of_cons, elem_of_nil in Hn. destruct Hn as [->|[->|[]]]; vm_compute in Hu; by apply elem_of_nil in Hu.
  - apply H; [vm_compute; reflexivity|vm_compute; discriminate|vm_compute; discriminate|vm_compute; reflexivity..].
Defined.

Definition ex_image : resource :=
  ex_machine [("node", VStr "a"); ("cloudImage", VMap [("url", VStr "https://x/jammy.img"); ("storage", VStr "local");
    ("checksum", VStr "md5:D41D8CD98F00B204E9800998ECF8427E")])].
Definition ex_ref : CloudImageRef := MkCloudImageRef "https://x/jammy.img" "local" "md5:D41D8CD98F00B204E9800998ECF8427E" "" "".
Definition ex_sum : ImageChecksum := MkChecksum "md5" "d41d8cd98f00b204e9800998ecf8427e".
Definition ex_pinned : list (request * answer) := (ex_apply [] (λ n, if decide (n = "b") then "template" else "none") ex_image).1.2.

Lemma pinned_image_verified_witness :
  ∃ form r, ex_pinned !! 8 = Some (Http "https://pve" POST (PClone "a" 9000) form, r) ∧
    image_verified ex_json ex_handler ex_sum (take 8 ex_pinned) 9000.
Proof.
  eexists _, _. split; [vm_compute; reflexivity|].
  eapply (pinned_image_verified ex_json ex_float ex_polls ex_yaml ex_handler ex_image ex_ref ex_sum ex_pinned _);
    [reflexivity|reflexivity|discriminate|vm_compute; reflexivity|apply (run_behaves (ex_serve [] (λ n, if decide (n = "b") then "template" else "none")) _ tt)|].
  vm_compute. reflexivity.
Defined.

Lemma apply_updates_in_place_witness :
  ∃ form r, (ex_apply [] ex_on_b ex_clone).1.2 !! 5 = Some (Http "https://pve" PUT (PResize "b" 101) form, r) ∧
    (seen_missing ex_json (h_client ex_handler) "web" (take 5 (ex_apply [] ex_on_b ex_clone).1.2) ∨
     ∃ u, seen_machine ex_json ex_handler "web" (take 5 (ex_apply [] ex_on_b ex_clone).1.2) u ∧
       in_place ex_json ex_handler u (ParseVMSpec (fields (r_spec ex_clone))) (take 5 (ex_apply [] ex_on_b ex_clone).1.2)
         (Http "https://pve" PUT (PResize "b" 101) form)).
Proof.
  eexists _, _. split; [vm_compute; reflexivity|].
  eapply (apply_updates_in_place ex_json ex_float ex_polls ex_yaml ex_handler ex_clone _ _ (run_behaves (ex_serve [] ex_on_b) _ tt) 5);
    [vm_compute; reflexivity|discriminate].
Defined.
