(* ===== verification/ProxmoxProvider.v ===== *)
(** The Proxmox provider over several endpoints:
    src/internal/controller/providers/proxmox/provider.go and migration.go.

    Its state is the index from the name of a machine to the context that had it
    last. An operation is a program whose result comes with the new index, whether it
    fails or not. *)
From S2P Require Import Prelude GoStrings GoValue Effects Registry NodeAgent VMCompare VMConfig Json ProxmoxClient ProxmoxHandler.
From Stdlib Require Import Ascii.
From Corelib Require Import Floats.SpecFloat.

Definition kindVM : string := "VirtualMachine".
Definition kindNode : string := "ProxmoxNode".

Inductive migration_error : Type := ErrUnnamed | ErrAmbiguous | ErrTemplate | ErrWrongNode | ErrDuplicateUUID | ErrUUID.

Inductive pv_error : Type :=
| ErrPx (e : px_error)
| ErrRejected (r : rejection)
| ErrNoContext (name : string)
| ErrObservedOnly (kind : string)
| ErrKind (kind : string)
| ErrAbsent (kind name : string)
| ErrLocate (name : string) (e : pv_error)
| ErrNoActions (kind : string)
| ErrUnknownAction (action : string)
| ErrMigration (e : migration_error).

(** [Provider]; the contexts are in order. *)
Record Provider : Type := MkProvider { handlers : list (string * Handler); order : list string; defaultCtx : string }.

(** [NewMulti], [New] *)
Definition NewMulti (configs : list (string * Handler)) (defaultContext : string) : Provider :=
  let order := sort_strings configs.*1 in
  MkProvider configs order
    (match order with [sole] => if decide (defaultContext = "") then sole else defaultContext | _ => defaultContext end).
Definition NewSingle (h : Handler) : Provider := NewMulti [("", h)] "".

(** [handlerForContext] *)
Definition handlerForContext (p : Provider) (name : string) : result pv_error (Handler * string) :=
  let name := if decide (name = "") then defaultCtx p else name in
  match assoc name (handlers p) with Some h => Ok (h, name) | None => Err (ErrNoContext name) end.

(** [Actions] *)
Definition Actions (kind : string) : list string :=
  if decide (kind = kindVM) then ["start"; "shutdown"; "stop"; "reboot"; "console"] else [].

(** [requireKindVM], [requireKnownKind] *)
Definition requireKindVM (kind : string) : result pv_error unit := if decide (kind = kindVM) then Ok tt else Err (ErrKind kind).
Definition requireKnownKind (kind : string) : result pv_error unit :=
  if decide (kind = kindVM ∨ kind = kindNode) then Ok tt else Err (ErrKind kind).

(** [DriftSpecs] *)
Definition projectDrift (kind : string) (desired observed : gomap) : gomap * gomap :=
  if decide (kind = kindVM) then ComparableVMSpecs desired observed else (desired, observed).

Abbreviation index := (gmap string string).

(** Operations on the index that talk to the endpoints. *)
Definition M (A : Type) : Type := index → prog request answer Empty_set (result pv_error A * index).
#[export] Instance M_ret : MRet M := λ A a i, Ret (Ok a, i).
#[export] Instance M_fmap : FMap M := λ A B f m i, r ← m i; Ret (match r.1 with Ok a => Ok (f a) | Err e => Err e end, r.2).
#[export] Instance M_bind : MBind M := λ A B f m i,
  r ← m i; match r.1 with Ok a => f a r.2 | Err e => Ret (Err e, r.2) end.
Definition fail {A} (e : pv_error) : M A := λ i, Ret (Err e, i).
Definition of_result {A} (r : result pv_error A) : M A := λ i, Ret (r, i).
(** A program that does not see the index; its error is a value. *)
Definition attempt {A} (p : prog request answer pv_error A) : M (result pv_error A) := λ i, r ← try p; Ret (Ok r, i).
Definition exec {A} (p : prog request answer pv_error A) : M A := λ i, r ← try p; Ret (r, i).
Definition store (name context : string) : M unit := λ i, Ret (Ok tt, <[name := context]> i).
Definition forget (name : string) : M unit := λ i, Ret (Ok tt, base.delete name i).
Definition cached (name : string) : M (option string) := λ i, Ret (Ok (i !! name), i).

Section provider.
Context (Json : string → option value) (float_v : spec_float → string) (polls : Z → nat).
Context (yaml_vendor : bool → list string → list string → option string).
(** [uuid.Parse], in canonical form *)
Context (uuid_Parse : string → option string).
Context (p : Provider).

Definition handle (h : Handler) (kind : string) (a : action) : prog request answer pv_error response :=
  wrap ErrPx (Handle Json float_v polls yaml_vendor h kind a).

(** [getFrom] *)
Definition getFrom (h : Handler) (kind name : string) : prog request answer pv_error (option resource) :=
  resp ← handle h kind (ActionGet name);
  match resp with
  | Rejected (NotFoundR _ _) => Ret None
  | Rejected r => Fail (ErrRejected r)
  | Success res _ => Ret res
  end.

(** The scan of [locate]: the first error counts when no endpoint has the resource. *)
Fixpoint scan (kind name : string) (contexts : list string) (firstErr : option pv_error) : M (option (Handler * resource)) :=
  match contexts with
  | [] => match firstErr with Some e => fail e | None => mret None end
  | c :: contexts =>
      match assoc c (handlers p) with
      | None => scan kind name contexts firstErr
      | Some h =>
          r ← attempt (getFrom h kind name);
          match r with
          | Err e => scan kind name contexts (match firstErr with Some e0 => Some e0 | None => Some e end)
          | Ok None => scan kind name contexts firstErr
          | Ok (Some res) => _ ← store name c; mret (Some (h, res))
          end
      end
  end.

(** [locate] *)
Definition from_index (kind name : string) : M (option (Handler * resource)) :=
  o ← cached name;
  match o ≫= λ c, assoc c (handlers p) with
  | None => mret None
  | Some h =>
      r ← attempt (getFrom h kind name);
      mret (match r with Ok (Some res) => Some (h, res) | _ => None end)
  end.
Definition locate (kind name : string) : M (option (Handler * resource)) :=
  o ← from_index kind name;
  match o with Some hit => mret (Some hit) | None => scan kind name (order p) None end.

(** [Get] *)
Definition Get (kind name : string) : M resource :=
  _ ← of_result (requireKnownKind kind); o ← locate kind name;
  match o with Some (_, res) => mret res | None => fail (ErrAbsent kind name) end.

(** [List] *)
Fixpoint store_all (c : string) (items : list resource) : M unit :=
  match items with [] => mret tt | r :: items => _ ← store (r_name r) c; store_all c items end.
Fixpoint list_contexts (kind : string) (contexts : list string) : M (list resource) :=
  match contexts with
  | [] => mret []
  | c :: contexts =>
      match assoc c (handlers p) with
      | None => list_contexts kind contexts
      | Some h =>
          resp ← exec (handle h kind ActionList);
          match resp with
          | Rejected r => fail (ErrRejected r)
          | Success _ items =>
              _ ← (if decide (kind = kindVM) then store_all c items else mret tt);
              rest ← list_contexts kind contexts; mret (items ++ rest)
          end
      end
  end.
Definition List (kind : string) : M (list resource) := _ ← of_result (requireKnownKind kind); list_contexts kind (order p).

(** [Apply]: what is observed, or what was applied. *)
Definition applied (manifest : resource) : resource :=
  Resource (r_apiVersion manifest) kindVM (ResourceMetadata (r_name manifest) "" [] [] "" "") (r_spec manifest) None.
Definition Apply (manifest : resource) : M resource :=
  if decide (r_kind manifest = kindNode) then fail (ErrObservedOnly kindNode)
  else
    _ ← of_result (requireKindVM (r_kind manifest));
    hc ← of_result (handlerForContext p (str_field "context" (fields (r_spec manifest))));
    resp ← exec (handle hc.1 (r_kind manifest) (ActionApply manifest));
    match resp with
    | Rejected r => fail (ErrRejected r)
    | Success res _ =>
        _ ← store (r_name manifest) hc.2;
        observed ← attempt (getFrom hc.1 kindVM (r_name manifest));
        mret (match observed with
              | Ok (Some r) => r
              | _ => match res with Some r => r | None => applied manifest end
              end)
    end.

(** [Delete] *)
Definition Delete (kind name : string) : M unit :=
  if decide (kind = kindNode) then fail (ErrObservedOnly kindNode)
  else
    _ ← of_result (requireKindVM kind); o ← locate kindVM name;
    match o with
    | None => mret tt
    | Some (h, _) =>
        resp ← exec (handle h kind (ActionDelete name)); _ ← forget name;
        match resp with
        | Rejected (NotFoundR _ _) | Success _ _ => mret tt
        | Rejected r => fail (ErrRejected r)
        end
    end.

(** [DoAction] *)
Definition action_result (message url : string) : ActionResult := MkActionResult message url "" "".
Definition console_url (h : Handler) (v : VM) : string :=
  h_Endpoint h +:+ "/?console=kvm&novnc=1&vmid=" +:+ pretty (vm_VMID v) +:+ "&node=" +:+ vm_Node v.
Definition DoAction (kind name action : string) : M ActionResult :=
  if negb (bool_decide (kind = kindVM)) then fail (ErrNoActions kind)
  else
    o ← (λ i, r ← locate kindVM name i; Ret (map_err (ErrLocate name) r.1, r.2) : prog _ _ Empty_set _);
    match o with
    | None => fail (ErrAbsent kindVM name)
    | Some (h, _) =>
        v ← exec (wrap ErrPx (GetVM Json float_v (h_client h) name));
        let power a := upid ← exec (wrap ErrPx (power Json float_v a (h_client h) (vm_Node v) (vm_VMID v)));
                       mret (action_result upid "") in
        if decide (action ∈ ["start"; "stop"; "shutdown"; "reboot"]) then power action
        else if decide (action = "console") then mret (action_result "Opening Proxmox noVNC console…" (console_url h v))
        else fail (ErrUnknownAction action)
    end.

(** [ChildrenOf] *)
Definition ChildrenOf (kind name : string) : M (list ResourceRef) :=
  if negb (bool_decide (kind = kindNode)) then mret []
  else λ i, r ← List kindVM i;
    Ret (Ok (map (λ v, MkResourceRef apiVersion kindVM (r_name v))
               (filter (λ v, str_field "node" (fields (r_spec v)) = name) (ok_or r.1 []))), r.2).

(** [MigrationIdentity] *)
Fixpoint smbios_uuid (parts : list string) (seen : string) : result migration_error string :=
  match parts with
  | [] => Ok seen
  | part :: parts =>
      match cut_byte "=" (trim_space part) with
      | Some ("uuid", v) => if decide (seen = "") then smbios_uuid parts v else Err ErrDuplicateUUID
      | _ => smbios_uuid parts seen
      end
  end.
Definition nil_uuid : string := "00000000-0000-0000-0000-000000000000".
Definition config_uuid (config : gomap) : result migration_error string :=
  raw ← smbios_uuid (split_on "," (str_field "smbios1" config)) "";
  match uuid_Parse raw with Some id => if decide (id = nil_uuid) then Err ErrUUID else Ok id | None => Err ErrUUID end.

Definition MigrationIdentity (manifest : resource) : M string :=
  if decide (r_kind manifest ≠ kindVM ∨ r_name manifest = "") then fail (ErrMigration ErrUnnamed)
  else
    let spec := fields (r_spec manifest) in
    hc ← of_result (handlerForContext p (str_field "context" spec));
    vms ← exec (wrap ErrPx (ListVMs Json float_v (h_client hc.1)));
    match filter (λ v, vm_Name v = r_name manifest) vms with
    | [] => fail (ErrAbsent kindVM (r_name manifest))
    | _ :: _ :: _ => fail (ErrMigration ErrAmbiguous)
    | [v] =>
        if decide (vm_Template v ≠ 0 ∨ vm_VMID v ≤ 0 ∨ vm_Node v = "")%Z then fail (ErrMigration ErrTemplate)
        else if decide (str_field "node" spec = "" ∨ str_field "node" spec ≠ vm_Node v) then fail (ErrMigration ErrWrongNode)
        else
          config ← exec (wrap ErrPx (GetVMConfigRaw Json float_v (h_client hc.1) (vm_Node v) (vm_VMID v)));
          id ← of_result (map_err ErrMigration (config_uuid (fields config)));
          _ ← store (r_name manifest) hc.2;
          mret ("proxmox:" +:+ vm_Node v +:+ ":" +:+ pretty (vm_VMID v) +:+ ":" +:+ id)
    end.

(** ** As a provider of the registry *)

Section registry.
(** The endpoints answer from a state of their own; the controller's tables are next to
    it. *)
Context {D W : Type} (serve : request → W → answer * W).

Definition perform {A} (m : M A) (s : index * W) : result pv_error A * (index * W) :=
  match run serve (m s.1) s.2 with
  | (Ok (r, i), _, w) => (r, (i, w))
  | (Err e, _, w) => match e with end
  end.

(** An operation after another. *)
Lemma perform_bind {A B} (m : M A) (f : A → M B) s :
  perform (m ≫= f) s = let '(r, s') := perform m s in match r with Ok a => perform (f a) s' | Err e => (Err e, s') end.
Proof.
  unfold perform, mbind, M_bind. rewrite run_bind.
  destruct (run serve (m s.1) s.2) as [[[[[a|e] i]|[]] t] w]; simpl; [|done]. by destruct (run serve (f a i) w) as [[[]]].
Qed.

Lemma perform_exec {A} (q : prog request answer pv_error A) s :
  perform (exec q) s = let '(x, _, w) := run serve q s.2 in (x, (s.1, w)).
Proof.
  unfold perform, exec. rewrite run_bind, run_try. by destruct (run serve q s.2) as [[x t] w].
Qed.

(** Next to the tables; what is only read leaves no trace. *)
Definition beside {A} (m : M A) (s : D * (index * W)) : result pv_error A * (D * (index * W)) :=
  let '(r, s') := perform m s.2 in (r, (s.1, s')).
Definition peek {A} (m : M A) (s : D * (index * W)) : result pv_error A := (perform m s.2).1.

(** The children of a node are those of the present state. *)
Definition proxmox (now : D * (index * W)) : Registry.Provider (D * (index * W)) pv_error := {|
  p_Name := "proxmox";
  p_Kinds := [kindVM; kindNode];
  p_Apply := λ m, beside (Some <$> Apply m);
  p_Get := λ kind name, peek (Some <$> Get kind name);
  p_List := λ kind, peek (List kind);
  p_Delete := λ kind name, beside (Delete kind name);
  p_DriftProjector := Some (λ kind d o, let '(d', o') := projectDrift kind (fields d) (fields o) in (Some d', Some o'));
  p_Plan := None;
  p_DryRun := None;
  p_AdvancedKinds := None;
  p_OwnerOf := None;
  p_ChildrenOf := Some (λ kind name, ok_or (peek (ChildrenOf kind name) now) []);
  p_Actioner := Some {|
    act_Actions := Actions;
    act_DoAction := λ kind name a, beside (DoAction kind name a);
    act_DoActionWithParams := None;
    act_ActionSpecs := None |};
  p_ObservedOnlyKinds := Some [kindNode];
  p_MigrationIdentity := Some (λ m, peek (MigrationIdentity m));
|}.
End registry.
End provider.

(** ** Where a resource is *)

Section located.
Context (Json : string → option value) (float_v : spec_float → string) (polls : Z → nat).
Context (yaml_vendor : bool → list string → list string → option string).
Context (p : Provider) {W : Type} (serve : request → W → answer * W) (w : W).
(** The endpoints are only read. *)
Context (Hpure : ∀ ep q, (serve (Http ep GET q None) w).2 = w).

(** What an endpoint has. *)
Definition got (kind name : string) (h : Handler) : result pv_error (option resource) :=
  (run serve (getFrom Json float_v polls yaml_vendor h kind name) w).1.1.

Definition has (kind name : string) (h : Handler) : bool :=
  match got kind name h with Ok (Some _) => true | _ => false end.

(** The answer that does not depend on what was seen before: the first endpoint that
    has the resource, else the first error. *)
Definition spec_locate (kind name : string) : result pv_error (option (Handler * resource)) :=
  let hs := omap (λ c, assoc c (handlers p)) (order p) in
  match head (omap (λ h, match got kind name h with Ok (Some r) => Some (h, r) | _ => None end) hs) with
  | Some hit => Ok (Some hit)
  | None => match head (omap (λ h, match got kind name h with Err e => Some e | Ok _ => None end) hs) with
            | Some e => Err e
            | None => Ok None
            end
  end.

Lemma perform_attempt h kind name i :
  perform serve (attempt (getFrom Json float_v polls yaml_vendor h kind name)) (i, w) = (Ok (got kind name h), (i, w)).
Proof.
  assert ((run serve (getFrom Json float_v polls yaml_vendor h kind name) w).2 = w) as Hw.
  { apply run_pure. unfold getFrom, handle. apply asks_bind.
    - apply asks_wrap, asks_get_any. intros q. apply Hpure.
    - intros resp. by repeat asks_step. }
  unfold perform, attempt, got. cbn [fst snd]. rewrite run_bind, run_try.
  destruct (run serve (getFrom _ _ _ _ h kind name) w) as [[x t] w'] eqn:Hr. simpl in *. by subst w'.
Qed.

Definition hits (kind name : string) (hs : list Handler) : list (Handler * resource) :=
  omap (λ h, match got kind name h with Ok (Some r) => Some (h, r) | _ => None end) hs.
Definition errors (kind name : string) (hs : list Handler) : list pv_error :=
  omap (λ h, match got kind name h with Err e => Some e | Ok _ => None end) hs.
Definition verdict (hs : list (Handler * resource)) (es : list pv_error) : result pv_error (option (Handler * resource)) :=
  match hs, es with hit :: _, _ => Ok (Some hit) | [], e :: _ => Err e | [], [] => Ok None end.

Lemma spec_locate_verdict kind name :
  spec_locate kind name = (let hs := omap (λ c, assoc c (handlers p)) (order p) in verdict (hits kind name hs) (errors kind name hs)).
Proof.
  unfold spec_locate, verdict, hits, errors. cbv zeta.
  destruct (omap _ (omap _ (order p))) as [|hit l]; [|done]. simpl. by destruct (omap _ (omap _ (order p))).
Qed.

Lemma run_scan kind name contexts firstErr i :
  (perform serve (scan Json float_v polls yaml_vendor p kind name contexts firstErr) (i, w)).1 =
    (let hs := omap (λ c, assoc c (handlers p)) contexts in
     verdict (hits kind name hs) (match firstErr with Some e => [e] | None => errors kind name hs end)).
Proof.
  induction contexts as [|cx contexts IH] in firstErr |- *; [by destruct firstErr|]. cbn [scan]. simpl.
  destruct (assoc cx (handlers p)) as [h|]; [|apply IH]. rewrite perform_bind, perform_attempt. unfold hits, errors. simpl.
  destruct (got kind name h) as [[res|]|e]; simpl; [done|apply IH|].
  rewrite IH. by destruct firstErr.
Qed.

(** At most one endpoint has the resource. *)
Definition one_home (kind name : string) : Prop :=
  ∀ c1 c2 h1 h2, assoc c1 (handlers p) = Some h1 → assoc c2 (handlers p) = Some h2 →
    has kind name h1 = true → has kind name h2 = true → h1 = h2.

Lemma hits_one kind name hs h r :
  (∀ h', h' ∈ hs → has kind name h' = true → h' = h) → h ∈ hs → got kind name h = Ok (Some r) → head (hits kind name hs) = Some (h, r).
Proof.
  intros Hone Hin Hr. induction hs as [|h' hs IH]; [by apply elem_of_nil in Hin|]. unfold hits. simpl.
  destruct (got kind name h') as [[r'|]|e] eqn:Hh'; simpl.
  - assert (h' = h) as -> by (apply Hone; [left|unfold has; by rewrite Hh']). rewrite Hr in Hh'. by injection Hh' as ->.
  - apply elem_of_cons in Hin as [->|Hin]; [congruence|]. apply IH; [|done]. intros h'' ? ?. apply Hone; [by right|done].
  - apply elem_of_cons in Hin as [->|Hin]; [congruence|]. apply IH; [|done]. intros h'' ? ?. apply Hone; [by right|done].
Qed.

(** The look-up, where one endpoint at most has the resource. *)
Lemma locate_result kind name i :
  order p = sort_strings (handlers p).*1 → one_home kind name →
  (perform serve (locate Json float_v polls yaml_vendor p kind name) (i, w)).1 = spec_locate kind name.
Proof.
  intros Hord Hone. rewrite spec_locate_verdict.
  assert (perform serve (locate Json float_v polls yaml_vendor p kind name) (i, w) =
    match i !! name ≫= λ c, assoc c (handlers p) with
    | Some h => match got kind name h with
                | Ok (Some res) => (Ok (Some (h, res)), (i, w))
                | _ => perform serve (scan Json float_v polls yaml_vendor p kind name (order p) None) (i, w)
                end
    | None => perform serve (scan Json float_v polls yaml_vendor p kind name (order p) None) (i, w)
    end) as ->.
  { unfold locate, from_index. rewrite !perform_bind.
    change (perform serve (cached name) (i, w)) with (@Ok pv_error _ (i !! name), (i, w)). cbv beta iota.
    destruct (i !! name ≫= _) as [h|]; [|done]. rewrite perform_bind, perform_attempt. by destruct (got kind name h) as [[]|]. }
  destruct (i !! name ≫= _) as [h|] eqn:Hc; [|apply run_scan].
  destruct (got kind name h) as [[r|]|e] eqn:Hg; [|apply run_scan..]. simpl.
  apply bind_Some in Hc as (cx & _ & Hcx).
  set (hs := omap (λ c, assoc c (handlers p)) (order p)).
  assert (head (hits kind name hs) = Some (h, r)) as Hhead.
  { apply hits_one; [|  |done].
    - intros h' Hh' Hhas. unfold hs in Hh'. apply list_elem_of_omap in Hh' as (c' & _ & Hc').
      apply (Hone c' cx); [done..|]. unfold has. by rewrite Hg.
    - unfold hs. apply list_elem_of_omap. exists cx. split; [|done]. rewrite Hord, elem_of_sort_strings.
      apply assoc_elem in Hcx. by apply (list_elem_of_fmap_2 fst) in Hcx. }
  unfold verdict. destruct (hits kind name hs); [done|]. by simplify_eq/=.
Qed.

(** C28: What is found does not depend on the index. Whatever the index of an earlier
    time says, as long as at most one endpoint has the resource, a look-up gives the
    endpoint that has it and what it shows; if none has it, it fails with the first
    error that an endpoint gave, and says that the resource is absent only when all
    of them said so. *)
Theorem locate_refines configs defaultContext kind name i :
  p = NewMulti configs defaultContext → one_home kind name →
  (perform serve (locate Json float_v polls yaml_vendor p kind name) (i, w)).1 = spec_locate kind name.
Proof. intros Hp. apply locate_result. by rewrite Hp. Qed.
End located.

Section operations.
Context (Json : string → option value) (float_v : spec_float → string) (polls : Z → nat).
Context (yaml_vendor : bool → list string → list string → option string) (uuid_Parse : string → option string).
Context (p : Provider).

(** The requests of operations on the index. *)
Lemma asks_M_bind {A B} (P : request → Prop) (m : M A) (f : A → M B) i :
  asks P (m i) → (∀ a i', asks P (f a i')) → asks P ((m ≫= f) i).
Proof. intros Hm Hf. apply asks_bind; [done|]. intros [[a|e] i']; [apply Hf|done]. Qed.

Lemma asks_getFrom (P : request → Prop) h kind name :
  (∀ q, P (Http (c_endpoint (h_client h)) GET q None)) → asks P (getFrom Json float_v polls yaml_vendor h kind name).
Proof. intros HP. apply asks_bind; [by apply asks_wrap, asks_get_any|]. intros resp. by repeat asks_step. Qed.

Lemma asks_scan (P : request → Prop) kind name contexts e i :
  (∀ ep q, P (Http ep GET q None)) → asks P (scan Json float_v polls yaml_vendor p kind name contexts e i).
Proof.
  intros HP. induction contexts as [|c contexts IH] in e, i |- *; [by destruct e|]. cbn [scan].
  destruct (assoc c (handlers p)) as [h|]; [|apply IH]. apply asks_M_bind.
  - apply asks_bind; [by apply asks_try, asks_getFrom|done].
  - intros [[r|]|e'] i'; [done|apply IH..].
Qed.

Lemma asks_locate (P : request → Prop) kind name i :
  (∀ ep q, P (Http ep GET q None)) → asks P (locate Json float_v polls yaml_vendor p kind name i).
Proof.
  intros HP. apply asks_M_bind.
  - apply asks_M_bind; [done|]. intros o i'. destruct (o ≫= _); [|done]. apply asks_M_bind; [|done].
    apply asks_bind; [by apply asks_try, asks_getFrom|done].
  - intros [hit|] i'; [done|by apply asks_scan].
Qed.

(** An apply talks to one endpoint. Every request of an apply goes to the endpoint
    that the manifest's context selects, nothing is asked when that context is not
    configured or the kind is another, and a success is remembered for this name
    only. So the other endpoints are not looked at: a manifest whose context changes
    makes a second machine, and the index forgets the first one. *)
Theorem Apply_single_endpoint m i t r i' :
  behaves (Apply Json float_v polls yaml_vendor p m i) t (Ok (r, i')) →
  match handlerForContext p (str_field "context" (fields (r_spec m))) with
  | Ok (h, ctx) =>
      (r_kind m = kindVM ∨ t = []) ∧ Forall (λ e, own (c_endpoint (h_client h)) e.1) t ∧
      (is_ok r = true → i' = <[r_name m := ctx]> i) ∧ (is_ok r = false → i' = i)
  | Err e => t = [] ∧ is_ok r = false ∧ i' = i
  end.
Proof.
  intros Hb. unfold Apply in Hb.
  destruct (decide (r_kind m = kindNode)) as [Hk|Hk].
  { inversion Hb; subst. destruct (handlerForContext _ _) as [[]|]; split_and!; first [done|by right|by constructor]. }
  unfold requireKindVM in Hb. destruct (decide (r_kind m = kindVM)) as [Hvm|Hvm].
  2:{ inversion Hb; subst. destruct (handlerForContext _ _) as [[]|]; split_and!; first [done|by right|by constructor]. }
  destruct (handlerForContext p _) as [[h ctx]|e] eqn:Hctx; [|by inversion Hb; subst].
  match type of Hb with behaves ?q _ _ => set (prog := q) in Hb end.
  assert (safe (λ _ _ _, True) (λ _ q, own (c_endpoint (h_client h)) q) [] prog (λ _ x,
    ∀ r i', x = Ok (r, i') → (is_ok r = true → i' = <[r_name m := ctx]> i) ∧ (is_ok r = false → i' = i))) as Hs.
  { unfold prog. change (safe (λ _ _ _, True) (λ _ q, own (c_endpoint (h_client h)) q) []
      ((resp ← exec (handle Json float_v polls yaml_vendor h (r_kind m) (ActionApply m));
        match resp with
        | Rejected r => fail (ErrRejected r)
        | Success res _ =>
            _ ← store (r_name m) ctx; observed ← attempt (getFrom Json float_v polls yaml_vendor h kindVM (r_name m));
            mret (match observed with Ok (Some r) => r | _ => match res with Some r => r | None => applied m end end)
        end) i) (λ _ x, ∀ r i', x = Ok (r, i') → (is_ok r = true → i' = <[r_name m := ctx]> i) ∧ (is_ok r = false → i' = i))).
    apply safe_bind, safe_bind, safe_try. unfold handle. rewrite Hvm.
    eapply safe_mono; [apply (asks_safe (own (c_endpoint (h_client h)))); [apply asks_wrap, asks_own_apply|done]|].
    intros t1 x _. destruct x as [[rj|res items]|e]; cbv beta iota; [by intros r1 i1 [= <- <-]| |by intros r1 i1 [= <- <-]].
    apply safe_bind, safe_ret, safe_bind, safe_bind, safe_try.
    eapply safe_mono; [apply (asks_safe (own (c_endpoint (h_client h)))); [by apply asks_getFrom|done]|].
    intros t2 y _. cbn. by intros r1 i1 [= <- <-]. }
  destruct (safe_sound _ _ [] _ _ t _ Hs Hb) as [Hg Hpost]; [done|]. specialize (Hpost r i' eq_refl).
  split_and!; [by left| |apply Hpost..]. apply Forall_lookup. intros j [q a] Hj. exact (Hg j q a Hj).
Qed.
End operations.

Section deleting.
Context (Json : string → option value) (float_v : spec_float → string) (polls : Z → nat).
Context (yaml_vendor : bool → list string → list string → option string).
Context (p : Provider) {W : Type} (serve : request → W → answer * W) (w : W).
Context (Hpure : ∀ ep q, (serve (Http ep GET q None) w).2 = w).
Context (Hord : order p = sort_strings (handlers p).*1).

Lemma perform_locate kind name i :
  one_home Json float_v polls yaml_vendor p serve w kind name →
  ∃ i', perform serve (locate Json float_v polls yaml_vendor p kind name) (i, w) =
    (spec_locate Json float_v polls yaml_vendor p serve w kind name, (i', w)).
Proof.
  intros Hone. pose proof (locate_result Json float_v polls yaml_vendor p serve w Hpure kind name i Hord Hone) as Hl.
  assert ((run serve (locate Json float_v polls yaml_vendor p kind name i) w).2 = w) as Hw by by apply run_pure, asks_locate.
  unfold perform in *. cbn [fst snd] in *.
  destruct (run serve (locate _ _ _ _ _ _ _ _) w) as [[[[r i']|[]] t] w']. simpl in *. subst. by exists i'.
Qed.

(** What a deletion answers for a response. *)
Definition deleted (x : result px_error response) : result pv_error unit :=
  match x with
  | Ok (Rejected (NotFoundR _ _)) | Ok (Success _ _) => Ok tt
  | Ok (Rejected r) => Err (ErrRejected r)
  | Err e => Err (ErrPx e)
  end.

(** The outcome of a deletion. *)
Lemma Delete_result name i :
  one_home Json float_v polls yaml_vendor p serve w kindVM name →
  let '(r, (i', w')) := perform serve (Delete Json float_v polls yaml_vendor p kindVM name) (i, w) in
  match spec_locate Json float_v polls yaml_vendor p serve w kindVM name with
  | Ok None => r = Ok tt ∧ w' = w
  | Err e => r = Err e ∧ w' = w
  | Ok (Some (h, _)) =>
      let '(x, _, w1) := run serve (deleteVM Json float_v polls h name) w in
      w' = w1 ∧ r = deleted x ∧ (is_ok x = true → i' !! name = None)
  end.
Proof.
  intros Hone. destruct (perform_locate kindVM name i Hone) as [i1 Hl].
  assert (Delete Json float_v polls yaml_vendor p kindVM name =
    (o ← locate Json float_v polls yaml_vendor p kindVM name;
     match o with
     | None => mret tt
     | Some (h, _) =>
         resp ← exec (handle Json float_v polls yaml_vendor h kindVM (ActionDelete name)); _ ← forget name;
         match resp with
         | Rejected (NotFoundR _ _) | Success _ _ => mret tt
         | Rejected r => fail (ErrRejected r)
         end
     end)) as -> by done.
  rewrite perform_bind, Hl. destruct (spec_locate _ _ _ _ _ _ _ _ _) as [[[h res]|]|e]; [|done..].
  rewrite perform_bind, perform_exec. cbn [fst snd]. unfold handle. rewrite run_wrap.
  change (Handle Json float_v polls yaml_vendor h kindVM (ActionDelete name)) with (deleteVM Json float_v polls h name).
  destruct (run serve (deleteVM _ _ _ _ _) w) as [[[resp|e] t] w1]; [|done]. simpl.
  rewrite perform_bind. change (perform serve (forget name) (i1, w1)) with (@Ok pv_error _ tt, (base.delete name i1, w1)).
  cbv beta iota. assert (base.delete name i1 !! name = None) as Hd by apply lookup_delete_eq.
  by destruct resp as [[]|].
Qed.
(** A deletion succeeds only when the machine is gone. It succeeds without asking
    for anything when every endpoint says that it has no such machine; it fails,
    again without asking for anything, when no endpoint shows one and one of them
    cannot be read; otherwise its outcome and its effects are those of the deletion
    at the endpoint that has the machine, and the name is forgotten. *)
Theorem Delete_honest name i :
  one_home Json float_v polls yaml_vendor p serve w kindVM name →
  let '(r, (i', w')) := perform serve (Delete Json float_v polls yaml_vendor p kindVM name) (i, w) in
  match spec_locate Json float_v polls yaml_vendor p serve w kindVM name with
  | Ok None => r = Ok tt ∧ w' = w
  | Err e => r = Err e ∧ w' = w
  | Ok (Some (h, _)) =>
      let '(x, _, w1) := run serve (deleteVM Json float_v polls h name) w in
      w' = w1 ∧ r = deleted x ∧ (is_ok x = true → i' !! name = None)
  end.
Proof. exact (Delete_result name i). Qed.
End deleting.

Section identity.
Context (Json : string → option value) (float_v : spec_float → string) (uuid_Parse : string → option string) (p : Provider).

(** The identity of a machine that an endpoint shows. *)
Definition identity (v : VM) (uuid : string) : string :=
  "proxmox:" +:+ vm_Node v +:+ ":" +:+ pretty (vm_VMID v) +:+ ":" +:+ uuid.

Definition reads (q : request) : Prop := match q with Http _ GET _ None => True | _ => False end.

(** An identity is one machine's. A manifest gets an identity only when the
    endpoint of its context, which is only read, lists exactly one machine of its
    name, no template, on the node that the manifest declares; the identity is made
    of that node, the machine's id and the one SMBIOS UUID of its configuration, and
    only then is the machine remembered. *)
Theorem MigrationIdentity_sound m i t id i' :
  behaves (MigrationIdentity Json float_v uuid_Parse p m i) t (Ok (Ok id, i')) →
  Forall (λ e, reads e.1) t ∧
  ∃ h ctx nodes rs v raw uuid,
    handlerForContext p (str_field "context" (fields (r_spec m))) = Ok (h, ctx) ∧ r_kind m = kindVM ∧
    inventory Json (h_client h) t nodes rs ∧ filter (λ u, vm_Name u = r_name m) (inventory_vms Json nodes rs) = [v] ∧
    vm_Template v = 0%Z ∧ (0 < vm_VMID v)%Z ∧ str_field "node" (fields (r_spec m)) = vm_Node v ∧
    shown Json h v t raw ∧ config_uuid uuid_Parse (fields raw) = Ok uuid ∧
    id = identity v uuid ∧ i' = <[r_name m := ctx]> i.
Proof.
  intros Hb. match type of Hb with behaves ?q _ _ => set (prog := q) in Hb end.
  set (post := λ (t : list (request * answer)) (x : result Empty_set (result pv_error string * index)), ∀ id i', x = Ok (Ok id, i') →
    ∃ h ctx nodes rs v raw uuid,
      handlerForContext p (str_field "context" (fields (r_spec m))) = Ok (h, ctx) ∧ r_kind m = kindVM ∧
      inventory Json (h_client h) t nodes rs ∧ filter (λ u, vm_Name u = r_name m) (inventory_vms Json nodes rs) = [v] ∧
      vm_Template v = 0%Z ∧ (0 < vm_VMID v)%Z ∧ str_field "node" (fields (r_spec m)) = vm_Node v ∧
      shown Json h v t raw ∧ config_uuid uuid_Parse (fields raw) = Ok uuid ∧
      id = identity v uuid ∧ i' = <[r_name m := ctx]> i).
  assert (safe (λ _ _ _, True) (λ _ q, reads q) [] prog post) as Hs.
  { unfold prog, MigrationIdentity. case_decide as Hm; [done|]. assert (r_kind m = kindVM) as Hk by (destruct (decide (r_kind m = kindVM)); tauto).
    apply safe_bind. destruct (handlerForContext p _) as [[h ctx]|e] eqn:Hctx; [|done]. apply safe_ret. cbv beta iota.
    apply safe_bind, safe_bind, safe_try, safe_wrap, ListVMs_safe; [done|..].
    2:{ intros t1 e _ _. by apply safe_ret. }
    intros t1 nodes rs _ Hinv. apply safe_ret. cbn [fst snd map_err].
    destruct (filter _ _) as [|v [|? ?]] eqn:Hf; [done| |done]. case_decide as Hv; [done|]. case_decide as Hn; [done|].
    assert (¬ (vm_Template v ≠ 0)%Z ∧ ¬ (vm_VMID v ≤ 0)%Z) as [Hv1 Hv2] by tauto.
    apply safe_bind, safe_bind, safe_try, safe_wrap, read_safe; [done|]. intros r _.
    destruct (answered Json dec_map None r) as [raw|] eqn:Hr; [|by intros e _; apply safe_ret].
    apply safe_ret. cbn [fst snd map_err]. apply safe_bind.
    destruct (config_uuid uuid_Parse (fields raw)) as [uuid|e] eqn:Hu; [|done]. apply safe_ret. cbv beta iota. cbn [fst snd].
    intros id1 i1 [= <- <-]. exists h, ctx, nodes, rs, v, raw, uuid. split_and!; try done.
    - eapply inventory_prefix; [|done]. by eexists.
    - lia.
    - lia.
    - destruct (decide (str_field "node" (fields (r_spec m)) = vm_Node v)); [done|tauto].
    - exists r. rewrite elem_of_app, list_elem_of_singleton. split; [by right|done]. }
  destruct (safe_sound _ _ [] _ _ t _ Hs Hb) as [Hg Hpost]; [done|]. split; [|by apply (Hpost id i')].
  apply Forall_lookup. intros j [q a] Hj. exact (Hg j q a Hj).
Qed.
End identity.

(** ** Witnesses *)

(** Two endpoints; the machine is at the second one. *)
Definition ex_east : Handler := NewHandler "https://east" "a" [] None.
Definition ex_west : Handler := NewHandler "https://west" "a" [] None.
Definition ex_provider : Provider := NewMulti [("west", ex_west); ("east", ex_east)] "east".
Definition ex_place (ep n : string) : string := if decide (ep = "https://west") then ex_on_b n else "none".
Definition ex_world (q : request) (w : unit) : answer * unit :=
  match q with Http ep _ _ _ => ex_serve [] (ex_place ep) q w | _ => (Some (0%Z, ""), tt) end.
Definition ex_locate (i : index) : result pv_error (option (Handler * resource)) :=
  (perform ex_world (locate ex_json ex_float ex_polls ex_yaml ex_provider kindVM "web") (i, tt)).1.

Lemma ex_world_pure ep q : (ex_world (Http ep GET q None) tt).2 = tt.
Proof. by destruct (ex_world _ _) as [? []]. Qed.

Lemma ex_one_home : one_home ex_json ex_float ex_polls ex_yaml ex_provider ex_world tt kindVM "web".
Proof.
  assert (∀ c h, assoc c (handlers ex_provider) = Some h → has ex_json ex_float ex_polls ex_yaml ex_world tt kindVM "web" h = true →
    h = ex_west) as H.
  { intros c h Hc Hh. simpl in Hc. by repeat case_decide; simplify_eq. }
  intros c1 c2 h1 h2 H1 H2 Hh1 Hh2. by rewrite (H c1 h1), (H c2 h2).
Qed.

Lemma locate_refines_witness :
  match ex_locate ∅ with Ok (Some (h, _)) => h_Endpoint h | _ => "" end = "https://west" ∧
  ex_locate {[ "web" := "east" ]} = ex_locate ∅.
Proof.
  split; [vm_compute; reflexivity|]. unfold ex_locate.
  trans (spec_locate ex_json ex_float ex_polls ex_yaml ex_provider ex_world tt kindVM "web").
  - apply (locate_refines ex_json ex_float ex_polls ex_yaml ex_provider ex_world tt ex_world_pure [("west", ex_west); ("east", ex_east)] "east" kindVM "web" _ eq_refl ex_one_home).
  - symmetry. apply (locate_refines ex_json ex_float ex_polls ex_yaml ex_provider ex_world tt ex_world_pure
      [("west", ex_west); ("east", ex_east)] "east" kindVM "web" _ eq_refl ex_one_home).
Defined.

(** The manifest of the machine at the second endpoint, applied to the first. *)
Definition ex_moved : resource :=
  ex_machine [("context", VStr "east"); ("node", VStr "a"); ("template", VMap [("vmid", VFloat (f64_of_Z 9000))])].
Definition ex_moving := run ex_world (Apply ex_json ex_float ex_polls ex_yaml ex_provider ex_moved {[ "web" := "west" ]}) tt.

Lemma Apply_single_endpoint_witness :
  existsb (λ e, creates e.1) ex_moving.1.2 = true ∧ Forall (λ e, own "https://east" e.1) ex_moving.1.2.
Proof.
  split; [vm_compute; reflexivity|].
  pose proof (run_behaves ex_world (Apply ex_json ex_float ex_polls ex_yaml ex_provider ex_moved {[ "web" := "west" ]}) tt) as Hb.
  fold ex_moving in Hb. destruct ex_moving as [[[[r i']|[]] t] w]. simpl in *.
  pose proof (Apply_single_endpoint ex_json ex_float ex_polls ex_yaml ex_provider ex_moved {[ "web" := "west" ]} t r i' Hb) as H.
  change (handlerForContext ex_provider _) with (@Ok pv_error (Handler * string) (ex_east, "east")) in H. apply H.
Defined.

Lemma Delete_honest_witness :
  let '(r, (i', w')) := perform ex_world (Delete ex_json ex_float ex_polls ex_yaml ex_provider kindVM "web") ({[ "web" := "east" ]}, tt) in
  match spec_locate ex_json ex_float ex_polls ex_yaml ex_provider ex_world tt kindVM "web" with
  | Ok None => r = Ok tt ∧ w' = tt
  | Err e => r = Err e ∧ w' = tt
  | Ok (Some (h, _)) =>
      let '(x, _, w1) := run ex_world (deleteVM ex_json ex_float ex_polls h "web") tt in
      w' = w1 ∧ r = deleted x ∧ (is_ok x = true → i' !! "web" = None)
  end.
Proof.
  apply (Delete_honest ex_json ex_float ex_polls ex_yaml ex_provider ex_world tt ex_world_pure eq_refl "web" _ ex_one_home).
Defined.

Definition ex_known : resource := ex_machine [("context", VStr "west"); ("node", VStr "b")].
Definition ex_uuid (s : string) : option string := if decide (s = "") then None else Some s.
Definition ex_identify := run ex_world (MigrationIdentity ex_json ex_float ex_uuid ex_provider ex_known ∅) tt.

Lemma MigrationIdentity_sound_witness :
  ex_identify.1.1 = Ok (Ok "proxmox:b:101:u-1", {[ "web" := "west" ]}) ∧ Forall (λ e, reads e.1) ex_identify.1.2.
Proof.
  assert (ex_identify.1.1 = Ok (Ok "proxmox:b:101:u-1", {[ "web" := "west" ]})) as Hr by (vm_compute; reflexivity).
  split; [exact Hr|].
  pose proof (run_behaves ex_world (MigrationIdentity ex_json ex_float ex_uuid ex_provider ex_known ∅) tt) as Hb.
  fold ex_identify in Hb. rewrite Hr in Hb.
  exact (proj1 (MigrationIdentity_sound ex_json ex_float ex_uuid ex_provider ex_known ∅ _ _ _ Hb)).
Defined.
