(* ===== verification/ProxmoxDisks.v ===== *)
(** Laws of the texts that the Proxmox code reads and writes: sizes and options of
    disks, the choice of a storage for snippets, and the components of a snippet's
    volume. *)
From S2P Require Import Prelude GoStrings GoValue ClusterSpec ClusterPlan NodeAgent VMCompare VMConfig ProxmoxClient ProxmoxHandler.
From Stdlib Require Import Ascii.

(** ** Sizes *)

(** The letters of a size, with what they shift by. *)
Definition size_letters : list (string * Z) :=
  [("", 0); ("K", 10); ("k", 10); ("M", 20); ("m", 20); ("G", 30); ("g", 30); ("T", 40); ("t", 40)]%Z.

Definition unblank (s : string) : bool := all_bytes (λ c, negb (is_space c)) s.

Lemma trim_unblank s : unblank s = true → trim_space s = s.
Proof.
  intros H. unfold trim_space. assert (trim_left_space s = s) as ->.
  { destruct s as [|c s]; [done|]. unfold unblank in *. simpl in *. apply andb_true_iff in H as [Hc _]. apply negb_true_iff in Hc. by rewrite Hc. }
  unfold unblank in *. induction s as [|c s IH]; [done|]. simpl in *. apply andb_true_iff in H as [Hc Hs]. rewrite IH by done.
  apply negb_true_iff in Hc. rewrite Hc. by destruct s.
Qed.

Lemma unblank_app a b : unblank (a +:+ b) = unblank a && unblank b.
Proof.
  unfold unblank. induction a as [|c a IH]; [done|]. rewrite str_app_cons. simpl. by rewrite IH, andb_assoc.
Qed.

Lemma unblank_digits s : all_digits s = true → unblank s = true.
Proof.
  unfold unblank. induction s as [|c s IH]; [done|]. simpl. intros [Hc Hs]%andb_true_iff. rewrite IH by done.
  assert (is_space c = false) as ->; [|done]. clear -Hc. by destruct c as [[] [] [] [] [] [] [] []].
Qed.

Lemma unsnoc_app s c : unsnoc (s +:+ String c "") = Some (s, c).
Proof. induction s as [|d s IH]; [done|]. rewrite str_app_cons. simpl. by rewrite IH. Qed.

Lemma unsnoc_digits s : all_digits s = true → s ≠ "" → ∃ t c, unsnoc s = Some (t, c) ∧ size_unit c = None.
Proof.
  induction s as [|d s IH]; [done|]. simpl. intros [Hd Hs]%andb_true_iff _. destruct (decide (s = "")) as [->|Hne].
  - exists "", d. split; [done|]. clear -Hd. by destruct d as [[] [] [] [] [] [] [] []].
  - destruct IH as (t & c & -> & Hc); [done..|]. by exists (String d t), c.
Qed.

Lemma atoi_pretty z : (0 ≤ z ≤ int64_max)%Z → atoi (pretty z) = Some z.
Proof.
  intros Hz. destruct (pretty_Z_nonempty z) as (c & s & E & Hc); [lia|]. destruct (is_digit_not_blank c Hc) as (_ & Hm & Hp).
  unfold atoi. rewrite E, !decide_False by done. rewrite <- E, digits_value_pretty by lia.
  unfold int64_max in *. rewrite (proj2 (andb_true_iff _ _)); [by rewrite Z.mul_1_l|]. split; apply Z.leb_le; lia.
Qed.

Lemma wrap64_id z : (int64_min ≤ z ≤ int64_max)%Z → wrap64 z = z.
Proof. unfold wrap64, int64_min, int64_max. intros H. rewrite Z.mod_small; lia. Qed.

Lemma parse_size_letter n u k :
  (0 ≤ n ≤ int64_max)%Z → (u, k) ∈ size_letters → parseProxmoxSize (pretty n +:+ u) = Some (wrap64 (n * 2 ^ k)).
Proof.
  intros Hn Hu. pose proof (pretty_Z_digits n ltac:(lia)) as Hd.
  assert (unblank (pretty n) = true) as Hb by by apply unblank_digits.
  assert (∀ c k, size_unit c = Some k → is_space c = false →
    parseProxmoxSize (pretty n +:+ String c "") = Some (wrap64 (n * 2 ^ k))) as Hletter.
  { intros c j Hc Hs. unfold parseProxmoxSize. rewrite trim_unblank; [|rewrite unblank_app, Hb; unfold unblank; simpl; by rewrite Hs].
    rewrite unsnoc_app, Hc, trim_unblank, atoi_pretty by done. destruct (Z.ltb_spec n 0); [lia|done]. }
  unfold size_letters in Hu. rewrite !elem_of_cons, elem_of_nil in Hu.
  destruct Hu as [[= -> ->]|Hu].
  - rewrite str_app_nil_r. unfold parseProxmoxSize. rewrite trim_unblank by done.
    destruct (pretty_Z_nonempty n) as (d & s & E & _); [lia|].
    destruct (unsnoc_digits (pretty n)) as (t & c & -> & ->); [done|by rewrite E|].
    rewrite trim_unblank, atoi_pretty by done. by destruct (Z.ltb_spec n 0); [lia|].
  - destruct_or! Hu; simplify_eq; by apply Hletter.
Qed.

Lemma binary_size_letter n u k :
  (0 ≤ n)%Z → (u, k) ∈ size_letters → binaryDiskSize (pretty n +:+ u) = pretty (n * 2 ^ k)%Z.
Proof.
  intros Hn Hu. pose proof (pretty_Z_digits n Hn) as Hd. destruct (pretty_Z_nonempty n Hn) as (c & s & E & _).
  assert (rat_of (pretty n) = Some (n, 1%Z)) as Hr.
  { unfold rat_of. assert (cut_byte "." (pretty n) = None) as -> by (apply cut_byte_None; by apply all_digits_no_byte).
    rewrite digits_value_pretty by done. by rewrite E. }
  assert (∀ b, ToUpper (pretty n +:+ b) = pretty n +:+ ToUpper b) as Hup.
  { intros b. clear -Hd. generalize dependent (pretty n). intros x Hd. unfold ToUpper. induction x as [|c x IH]; [done|].
    rewrite !str_app_cons. simpl in *. apply andb_true_iff in Hd as [Hc Hx]. rewrite IH by done. f_equal.
    by destruct c as [[] [] [] [] [] [] [] []]. }
  assert (unblank u = true ∧ span_number (ToUpper u) = ("", ToUpper u) ∧ unit_power (ToUpper u) = Some (k / 10)%Z ∧ (10 * (k / 10) = k)%Z)
    as (Hub & Hsp & Hpow & Hk).
  { unfold size_letters in Hu. rewrite !elem_of_cons, elem_of_nil in Hu. destruct_or! Hu; simplify_eq; by vm_compute. }
  rewrite binaryDiskSize_eq. unfold size_of.
  rewrite trim_unblank by (by rewrite unblank_app, Hub, unblank_digits).
  rewrite Hup, span_number_digits by done. rewrite decide_False by (by rewrite E). rewrite Hpow. simpl. rewrite Hr. simpl.
  by rewrite Hk, RatString_whole.
Qed.

(** Growing and comparing agree on sizes. A whole number with one of the letters
    of Proxmox means the same number of bytes where disks are grown and where drift
    is compared, as long as it fits 64 bits; beyond that the comparison is still
    exact, while the parser that guards a growth wraps around, so a size of
    16777217T counts as one terabyte. *)
Theorem disk_sizes_agree n u k :
  (0 ≤ n ≤ int64_max)%Z → (u, k) ∈ size_letters →
  binaryDiskSize (pretty n +:+ u) = pretty (n * 2 ^ k)%Z ∧
  parseProxmoxSize (pretty n +:+ u) = Some (wrap64 (n * 2 ^ k)) ∧
  ((n * 2 ^ k ≤ int64_max)%Z → parseProxmoxSize (pretty n +:+ u) = Some (n * 2 ^ k)%Z).
Proof.
  intros Hn Hu. pose proof (parse_size_letter n u k Hn Hu) as Hp. split_and!; [apply binary_size_letter; [lia|done]|done|].
  intros Hb. rewrite Hp, wrap64_id; [done|]. split; [|done]. assert (0 ≤ k)%Z as Hk.
  { unfold size_letters in Hu. rewrite !elem_of_cons, elem_of_nil in Hu. destruct_or! Hu; simplify_eq; lia. }
  pose proof (Z.pow_nonneg 2 k). unfold int64_min. nia.
Qed.

Lemma disk_sizes_agree_witness :
  parseProxmoxSize "50g" = Some (50 * 2 ^ 30)%Z ∧ parseProxmoxSize "16777217T" = parseProxmoxSize "1T".
Proof.
  split; [by apply (disk_sizes_agree 50 "g" 30); [vm_compute; intuition discriminate|by_decide|vm_compute; discriminate]|].
  destruct (disk_sizes_agree 16777217 "T" 40) as (_ & H & _); [vm_compute; intuition discriminate|by_decide|].
  change (pretty 16777217%Z +:+ "T") with "16777217T" in H. rewrite H. vm_compute. reflexivity.
Defined.

(** ** Options *)

Definition disk_text (vol : string) (opts : list (string * string)) : string := join "," (vol :: map render_opt opts).
Definition options_ok (opts : list (string * string)) : Prop :=
  NoDup opts.*1 ∧ Forall (λ p, option_text p.1 ∧ no_byte "," p.2) opts.

Lemma set_all_ok m l : options_ok m → Forall (λ p, option_text p.1 ∧ no_byte "," p.2) l → options_ok (set_all m l).
Proof.
  unfold set_all. induction l as [|[k v] l IH] in m |- *; [done|]. intros [Hnd Hm] [Hkv Hl]%Forall_cons. simpl. apply IH; [|done].
  split; [by apply assoc_set_NoDup|]. apply Forall_forall. intros p [->|Hp']%assoc_set_elem; [done|]. rewrite Forall_forall in Hm. by apply Hm.
Qed.

Lemma set_all_fresh m l : NoDup (m ++ l).*1 → set_all m l = m ++ l.
Proof.
  unfold set_all. induction l as [|[k v] l IH] in m |- *; [by rewrite app_nil_r|]. intros Hnd. simpl.
  rewrite assoc_set_fresh.
  2:{ apply assoc_None. intros Hk. rewrite fmap_app, NoDup_app in Hnd. destruct Hnd as (_ & H & _). apply (H k Hk). left. }
  rewrite IH; [by rewrite <- app_assoc|]. by rewrite <- app_assoc.
Qed.

Lemma merge_text vol opts over :
  no_byte "," vol → options_ok opts → MergeDiskOptions (disk_text vol opts) over = disk_text vol (sort_entries (set_all opts over)).
Proof.
  intros Hv [Hnd Ho]. unfold MergeDiskOptions, disk_text. rewrite split_on_join; [|done|].
  - cbn [head tail default]. assert (disk_options (map render_opt opts) = opts) as ->; [|done].
    trans (set_all [] opts); [|by apply (set_all_fresh [] opts)]. unfold disk_options, set_all. generalize (@nil (string * string)).
    clear Hnd. induction Ho as [|[k x] l [[_ Hk] _] _ IH]; intros m; [done|]. cbn [map foldl]. rewrite (cut_render_opt k x Hk). apply IH.
  - constructor; [done|]. clear Hnd. induction Ho as [|[k x] l [[Hk _] Hx] _ IH]; constructor; [|done].
    unfold render_opt. simpl. rewrite !no_byte_app. split_and!; [done|by_decide|done].
Qed.

(** Options are merged, and merged once. The text of a disk keeps its volume and
    the options that are not overridden, an override replaces the option or adds it,
    and merging the same options again changes nothing, so nothing is sent. *)
Theorem MergeDiskOptions_spec vol opts over :
  no_byte "," vol → options_ok opts → options_ok over →
  ∃ merged, MergeDiskOptions (disk_text vol opts) over = disk_text vol merged ∧ options_ok merged ∧
    (∀ k, assoc k merged = match assoc k over with Some v => Some v | None => assoc k opts end) ∧
    MergeDiskOptions (disk_text vol merged) over = disk_text vol merged.
Proof.
  intros Hv Ho [Hnd Hov]. set (m := set_all opts over). pose proof (set_all_ok opts over Ho Hov) as Hm. fold m in Hm.
  assert (options_ok (sort_entries m)) as Hs by (unfold options_ok; by rewrite sort_entries_perm).
  assert (∀ k l, options_ok l → assoc k (set_all l over) = match assoc k over with Some v => Some v | None => assoc k l end) as Hassoc.
  { intros k l _. unfold set_all. rewrite assoc_set_all. rewrite (assoc_Permutation k (reverse over) over); [done| |apply reverse_Permutation].
    by rewrite fmap_reverse, reverse_Permutation. }
  assert (∀ k, assoc k (sort_entries m) = assoc k m) as Hsort.
  { intros k. symmetry. apply assoc_Permutation; [apply Hm|]. by rewrite sort_entries_perm. }
  exists (sort_entries m). split_and!; [by apply merge_text|done| |].
  - intros k. rewrite Hsort. by apply Hassoc.
  - rewrite merge_text by done. f_equal. apply sort_entries_unique.
    + apply set_all_ok; done.
    + apply assoc_ext_Permutation; [by apply set_all_ok|apply Hm|]. intros k. rewrite Hassoc, Hsort by done. unfold m. rewrite Hassoc by done.
      by destruct (assoc k over).
Qed.

Lemma MergeDiskOptions_spec_witness :
  MergeDiskOptions "local-lvm:vm-100-disk-0,size=32G,ssd=1" [("ssd", "0"); ("cache", "none")] =
    "local-lvm:vm-100-disk-0,cache=none,size=32G,ssd=0" ∧
  MergeDiskOptions "local-lvm:vm-100-disk-0,cache=none,size=32G,ssd=0" [("ssd", "0"); ("cache", "none")] =
    "local-lvm:vm-100-disk-0,cache=none,size=32G,ssd=0".
Proof.
  destruct (MergeDiskOptions_spec "local-lvm:vm-100-disk-0" [("size", "32G"); ("ssd", "1")] [("ssd", "0"); ("cache", "none")])
    as (m & H1 & _ & _ & H2); [by_decide|split; by_decide..|]. rewrite <- H1 in H2. split; [exact eq_refl|exact H2].
Defined.

(** ** Snippets *)

(** The storage for snippets is one that holds snippets: the preferred one if it
    does, else the first by name, whatever the order in which the node lists them;
    there is none only when no storage holds snippets. *)
Theorem PickSnippetsStorage_spec storages preferred :
  match PickSnippetsStorage storages preferred with
  | Some s =>
      (∃ x, x ∈ storages ∧ storageSupportsSnippets x = true ∧ ns_Storage x = s) ∧
      (s ≠ preferred → ∀ x, x ∈ storages → storageSupportsSnippets x = true → ns_Storage x ≠ preferred ∧ String.le s (ns_Storage x))
  | None => ∀ x, x ∈ storages → storageSupportsSnippets x = false
  end ∧
  (∀ storages', storages ≡ₚ storages' → PickSnippetsStorage storages' preferred = PickSnippetsStorage storages preferred).
Proof.
  split.
  - unfold PickSnippetsStorage. set (capable := ns_Storage <$> _).
    assert (∀ s, s ∈ capable ↔ ∃ x, x ∈ storages ∧ storageSupportsSnippets x = true ∧ ns_Storage x = s) as Hc.
    { intros s. unfold capable. rewrite list_elem_of_fmap. split.
      - intros (x & -> & [Hx Hin]%list_elem_of_filter). by exists x.
      - intros (x & Hin & Hx & <-). exists x. split; [done|]. by apply list_elem_of_filter. }
    case_decide as Hp; [split; [by apply Hc|done]|]. pose proof (sort_strings_sorted capable) as Hs.
    destruct (sort_strings capable) as [|s l] eqn:Hl; cbn [head].
    + intros x Hx. destruct (storageSupportsSnippets x) eqn:E; [|done]. assert (ns_Storage x ∈ sort_strings capable) as Hin.
      { apply elem_of_sort_strings, Hc. by exists x. }
      rewrite Hl in Hin. by apply elem_of_nil in Hin.
    + assert (s ∈ capable) as Hin by (apply elem_of_sort_strings; rewrite Hl; left). split; [by apply Hc|].
      intros _ x Hx E. assert (ns_Storage x ∈ capable) as Hxc by (apply Hc; by exists x). split; [by intros <-|].
      apply (proj2 (elem_of_sort_strings _ _)) in Hxc. rewrite Hl in Hxc. apply elem_of_cons in Hxc as [->|Hxl]; [done|].
      apply StronglySorted_cons in Hs as [Hs _]. rewrite Forall_forall in Hs. by apply Hs.
  - intros storages' Hp. unfold PickSnippetsStorage.
    assert (ns_Storage <$> filter (λ s, storageSupportsSnippets s = true) storages ≡ₚ
      ns_Storage <$> filter (λ s, storageSupportsSnippets s = true) storages') as Hc by by rewrite Hp.
    repeat case_decide; [done|by rewrite Hc in *..|]. f_equal. symmetry. by apply sort_strings_proper.
Qed.
