(* ===== verification/ProxmoxSystem.v ===== *)
(** The Proxmox provider behind the dispatcher: what a node that does not answer does to
    the desired state. *)
From S2P Require Import Prelude GoStrings GoValue Db ManifestStore Registry Dispatcher Effects VMConfig Json ProxmoxClient ProxmoxHandler ProxmoxProvider.

Section system.
Context (Json : string → option value) (float_v : SpecFloat.spec_float → string) (polls : Z → nat).
Context (yaml_vendor : bool → list string → list string → option string) (uuid_Parse : string → option string).
Context {W SE : Type} (serve : request → W → answer * W) (w : W) (h : Handler).
Local Abbreviation c := (h_client h).

Lemma getFrom_missing nodes name :
  (∀ ep p, (serve (Http ep GET p None) w).2 = w) → world_nodes Json serve w c = Some nodes →
  (∀ n u, n ∈ nodes → u ∈ listed Json n (ask serve w c (PQemu n)) → vm_Name u ≠ name) →
  got Json float_v polls yaml_vendor serve w kindVM name h = Ok None.
Proof.
  intros Hpure Hn Hnone.
  assert (find_vm name (world_vms Json serve w c nodes) = None) as Hfind.
  { apply find_vm_None. intros u (i & n & r & Hi & Hr & Hu)%inventory_vms_elem.
    rewrite list_lookup_fmap, Hi in Hr. simplify_eq/=. apply (Hnone n); [by eapply list_elem_of_lookup_2|done]. }
  unfold got, getFrom, handle. rewrite run_bind, run_wrap.
  change (Handle Json float_v polls yaml_vendor h kindVM (ActionGet name)) with (getVM Json float_v h name).
  unfold getVM, or_not_found. rewrite run_bind, run_try, (run_GetVM _ _ _ _ _ (Hpure _) nodes) by done. by rewrite Hfind.
Qed.

(** A machine on a node that does not answer is forgotten. With one endpoint, when
    the listing of the node that runs a machine fails and no other node lists its
    name, deleting its manifest succeeds and removes it from the desired state,
    although nothing was asked but readings and the machine is still there. *)
Theorem unreachable_node_forgotten (now : db * (index * W)) nodes raw d i :
  let p := NewSingle h in
  let registry := [("proxmox", proxmox Json float_v polls yaml_vendor uuid_Parse p serve now)] in
  (∀ ep p, (serve (Http ep GET p None) w).2 = w) → world_nodes Json serve w c = Some nodes →
  (∀ n u, n ∈ nodes → u ∈ listed Json n (ask serve w c (PQemu n)) → vm_Name u ≠ r_name raw) →
  r_apiVersion raw = apiVersion → r_kind raw = kindVM →
  ∃ i', DeleteManifest (PE := pv_error) (SE := SE) registry true raw (d, (i, w)) = (Ok tt, (ManifestStore.Delete (resource_key raw) d, (i', w))).
Proof.
  intros p registry Hpure Hn Hnone Hv Hk. pose proof (getFrom_missing nodes (r_name raw) Hpure Hn Hnone) as Hgot.
  unfold DeleteManifest. rewrite Hv.
  assert (For apiVersion registry = Ok (proxmox Json float_v polls yaml_vendor uuid_Parse p serve now)) as -> by reflexivity.
  cbn [p_Delete proxmox]. rewrite Hk. unfold beside. cbn [fst snd].
  assert (one_home Json float_v polls yaml_vendor p serve w kindVM (r_name raw)) as Hone.
  { intros c1 c2 h1 h2 H1 H2 _ _. simpl in *. by repeat case_decide; simplify_eq. }
  pose proof (Delete_result Json float_v polls yaml_vendor p serve w Hpure eq_refl (r_name raw) i Hone) as Hd.
  assert (spec_locate Json float_v polls yaml_vendor p serve w kindVM (r_name raw) = Ok None) as Hs.
  { rewrite spec_locate_verdict. simpl. unfold hits, errors. simpl. by rewrite Hgot. }
  rewrite Hs in Hd. destruct (perform serve (ProxmoxProvider.Delete _ _ _ _ _ _ _) (i, w)) as [r [i' w']]. destruct Hd as [-> ->].
  by exists i'.
Qed.
End system.

Definition ex_store : db * (index * unit) := (empty_db, ({[ "web" := "default" ]}, tt)).

Lemma unreachable_node_forgotten_witness :
  listed ex_json "b" (ask (ex_serve [] ex_on_b) tt (h_client ex_handler) (PQemu "b")) ≠ [] ∧
  ∃ i', DeleteManifest (PE := pv_error) (SE := unit)
    [("proxmox", proxmox ex_json ex_float ex_polls ex_yaml ex_uuid (NewSingle ex_handler) (ex_serve ["b"] ex_on_b) ex_store)] true ex_clone ex_store =
    (Ok tt, (ManifestStore.Delete (resource_key ex_clone) empty_db, (i', tt))).
Proof.
  split; [vm_compute; discriminate|].
  apply (unreachable_node_forgotten ex_json ex_float ex_polls ex_yaml ex_uuid (ex_serve ["b"] ex_on_b) tt ex_handler ex_store ["a"; "b"] ex_clone empty_db _).
  - intros ep p. by destruct (ex_serve _ _ _ _) as [? []].
  - vm_compute. reflexivity.
  - intros n u [->|[->|[]%elem_of_nil]%elem_of_cons]%elem_of_cons; vm_compute; intros Hu; apply list_elem_of_In in Hu; simpl in Hu; tauto.
  - reflexivity.
  - reflexivity.
Defined.
