(* ===== verification/Config.v ===== *)
(** The configuration file: internal/config/config.go and paths.go, and the RPCs that
    read and write it (internal/controller/server/config.go). The disk is a map from
    paths to contents; YAML is a parameter. A nil pointer inside a map is [None]. *)
From S2P Require Import Prelude GoStrings GoPath.

(** ** Data (pkg/protocol/request.go, config.go) *)

Record SnippetSSHConfig : Type := MkSnippetSSH { ss_Hosts : gmap string string; ss_User : string; ss_IdentityFile : string }.
Record ProviderConfig : Type := MkProviderConfig {
  pc_Endpoint : string; pc_Node : string; pc_TokenID : string; pc_TokenSecret : string;
  pc_Defaults : gmap string string; pc_SnippetSSH : option SnippetSSHConfig }.
Definition empty_provider_config : ProviderConfig := MkProviderConfig "" "" "" "" ∅ None.

Record ProviderContext : Type := MkContext {
  cx_Endpoint : string; cx_Node : string; cx_Credentials : string; cx_SnippetSSH : option SnippetSSHConfig }.
Record Credential : Type := MkCredential { cr_TokenID : string; cr_TokenSecret : string; cr_TokenSecretFile : string }.
Record TerraformResourceMap : Type := MkTFResource { tr_Kind : string; tr_Type : string }.
Record TerraformProvider : Type := MkTF { tf_Command : string; tf_Args : list string; tf_Resources : list TerraformResourceMap }.
Record Provider : Type := MkProvider {
  DefaultContext : string; Contexts : gmap string (option ProviderContext); Credentials : gmap string (option Credential);
  Defaults : gmap string string; p_Command : string; p_Args : list string; p_Terraform : option TerraformProvider }.

Record SecretProviderConfig : Type := MkSecretProvider {
  sp_Name : string; sp_Type : string; sp_Address : string; sp_TokenSecret : string; sp_TokenSecretFile : string;
  sp_Namespace : string; sp_ClientID : string; sp_ProjectID : string; sp_Environment : string }.
Record OIDCConfig : Type := MkOIDC {
  oc_Enabled : bool; oc_Issuer : string; oc_ClientID : string; oc_ClientSecretFile : string; oc_RedirectURL : string;
  oc_RoleClaim : string; oc_RoleMapping : gmap string string; oc_DefaultRole : string; oc_UsernameClaim : string }.
Record ReconcilerBlock : Type := MkReconciler { rb_Enabled : option bool; rb_Interval : string }.

(** The blocks of the file. The directories and the git settings of [manifests] and
    the address of the controller are kept as they are read. *)
Record Config {X : Type} : Type := MkConfig {
  Providers : gmap string (option Provider); Reconciler : option ReconcilerBlock; Operations : option Z;
  ManifestsDir : option string; TemplatesDir : option string; SecretProviders : list SecretProviderConfig;
  OIDC : option OIDCConfig; other_blocks : X }.
Arguments Config X : clear implicits.

Definition DefaultRetainPerResource : Z := 50.

Inductive config_error : Type :=
| NilPointer
| ErrHome
| ErrReadFile (path : string)
| ErrParse
| ErrMarshal
| ErrContextNotFound (context provider : string)
| ErrCredentialsNotFound (credentials provider : string)
| ErrIdentityFile (e : config_error)
| ErrSecretFile (e : config_error)
| ErrResolveContext (context : string) (e : config_error)
| ErrNameRequired
| ErrConfigRequired
| ErrInterval (text : string)
| ErrRetain
| ErrLoad (e : config_error)
| ErrSave (e : config_error).

(** ** Files *)

Abbreviation disk := (gmap string string).

Section config.
Context {X : Type} (no_blocks : X).
(** [os.UserHomeDir], and package yaml on a [Config]. *)
Context (home : option string) (Unmarshal : string → option (Config X)) (Marshal : Config X → option string).

(** [ExpandPath] *)
Definition tilde : Ascii.ascii := Ascii.ascii_of_nat 126.
Definition ExpandPath (path : string) : result config_error string :=
  match path with
  | EmptyString => Ok path
  | String ch rest =>
      if negb (bool_decide (ch = tilde)) then Ok path
      else match home with Some h => Ok (Join [h; rest]) | None => Err ErrHome end
  end.

(** [GetPaths] *)
Definition config_dir : result config_error string :=
  match home with Some h => Ok (Join [h; ".openctl"]) | None => Err ErrHome end.
Definition config_file : result config_error string := d ← config_dir; Ok (Join [d; "config.yaml"]).
Definition manifests_dir : result config_error string := d ← config_dir; Ok (Join [d; "manifests"]).
Definition templates_dir : result config_error string := d ← config_dir; Ok (Join [d; "templates"]).

(** [readSecretFile] *)
Definition readSecretFile (fs : disk) (path : string) : result config_error string :=
  path ← ExpandPath path;
  match fs !! path with Some data => Ok (trim_space data) | None => Err (ErrReadFile path) end.

(** [LoadFromFile], [Load] *)
Definition fresh_config : Config X := MkConfig X ∅ None None None None [] None no_blocks.
Definition LoadFromFile (fs : disk) (path : string) : result config_error (Config X) :=
  match fs !! path with
  | None => Ok fresh_config
  | Some data => match Unmarshal data with Some cfg => Ok cfg | None => Err ErrParse end
  end.
Definition Load (fs : disk) : result config_error (Config X) := path ← config_file; LoadFromFile fs path.

(** [SaveToFile]: the temporary file is written and renamed. [saving] lists what the
    disk can hold when the controller dies before the save returns. *)
Definition renamed (path data : string) (fs : disk) : disk := <[path := data]> (delete (path +:+ ".tmp") fs).
Inductive saving (path data : string) (fs : disk) : disk → Prop :=
| saving_not_begun : saving path data fs fs
| saving_written n : saving path data fs (<[path +:+ ".tmp" := str_take n data]> fs)
| saving_renamed : saving path data fs (renamed path data fs).
Definition SaveToFile (cfg : Config X) (path : string) (fs : disk) : result config_error unit * disk :=
  match Marshal cfg with
  | None => (Err ErrMarshal, fs)
  | Some data => (Ok tt, renamed path data fs)
  end.
Definition Save (cfg : Config X) (fs : disk) : result config_error unit * disk :=
  match config_file with Err e => (Err e, fs) | Ok path => SaveToFile cfg path fs end.

(** ** Resolving a provider *)

(** [GetProviderConfig] *)
Definition with_snippet_ssh (s : option SnippetSSHConfig) : result config_error (option SnippetSSHConfig) :=
  match s with
  | None => Ok None
  | Some s => f ← map_err ErrIdentityFile (ExpandPath (ss_IdentityFile s)); Ok (Some (MkSnippetSSH (ss_Hosts s) (ss_User s) f))
  end.
Definition token_of (fs : disk) (cred : Credential) : result config_error string :=
  if decide (cr_TokenSecret cred ≠ "") then Ok (cr_TokenSecret cred)
  else if decide (cr_TokenSecretFile cred ≠ "") then map_err ErrSecretFile (readSecretFile fs (cr_TokenSecretFile cred))
  else Ok "".
Definition credentials_of (fs : disk) (p : Provider) (name key : string) : result config_error (string * string) :=
  if decide (key = "") then Ok ("", "")
  else match Credentials p !! key with
  | None => Err (ErrCredentialsNotFound key name)
  | Some None => Err NilPointer
  | Some (Some cred) => secret ← token_of fs cred; Ok (cr_TokenID cred, secret)
  end.
Definition GetProviderConfig (fs : disk) (c : Config X) (providerName contextName : string) : result config_error ProviderConfig :=
  match Providers c !! providerName with
  | None => Ok empty_provider_config
  | Some None => Err NilPointer
  | Some (Some p) =>
      let contextName := if decide (contextName = "") then DefaultContext p else contextName in
      if decide (contextName = "") then Ok (MkProviderConfig "" "" "" "" (Defaults p) None)
      else match Contexts p !! contextName with
      | None => Err (ErrContextNotFound contextName providerName)
      | Some None => Err NilPointer
      | Some (Some ctx) =>
          ssh ← with_snippet_ssh (cx_SnippetSSH ctx);
          creds ← credentials_of fs p providerName (cx_Credentials ctx);
          Ok (MkProviderConfig (cx_Endpoint ctx) (cx_Node ctx) creds.1 creds.2 (Defaults p) ssh)
      end
  end.

(** [ProviderContextConfigs], for one order of the contexts. *)
Definition ProviderContextConfigs (fs : disk) (c : Config X) (providerName : string) :
    result config_error (list (string * ProviderConfig) * string) :=
  match Providers c !! providerName with
  | None => Ok ([], "")
  | Some None => Err NilPointer
  | Some (Some p) =>
      out ← mapR (λ name, match GetProviderConfig fs c providerName name with
        | Ok cfg => Ok (name, cfg) | Err e => Err (ErrResolveContext name e) end) (map_to_list (Contexts p)).*1;
      Ok (out, DefaultContext p)
  end.

(** ** The configuration service *)

Record ProviderEntry : Type := MkEntry {
  e_Name : string; e_Endpoint : string; e_TokenId : string; e_HasSecret : bool; e_UsesSecretFile : bool }.

(** [providerEntry] *)
Definition nonempty (s : string) : bool := bool_decide (s ≠ "").
Definition default_context (p : Provider) : option ProviderContext :=
  if decide (DefaultContext p = "") then None else mjoin (Contexts p !! DefaultContext p).
Definition providerEntry (name : string) (p : option Provider) : ProviderEntry :=
  match p ≫= default_context with
  | None => MkEntry name "" "" false false
  | Some ctx =>
      match p ≫= λ p, if decide (cx_Credentials ctx = "") then None else mjoin (Credentials p !! cx_Credentials ctx) with
      | None => MkEntry name (cx_Endpoint ctx) "" false false
      | Some cred => MkEntry name (cx_Endpoint ctx) (cr_TokenID cred)
          (nonempty (cr_TokenSecret cred) || nonempty (cr_TokenSecretFile cred)) (nonempty (cr_TokenSecretFile cred))
      end
  end.

(** [ListProviders] *)
Definition ListProviders (fs : disk) : result config_error (list ProviderEntry) :=
  cfg ← map_err ErrLoad (Load fs); Ok (map (λ e, providerEntry e.1 e.2) (map_to_list (Providers cfg))).

(** The edit of [UpsertProvider]. *)
Record Upsert : Type := MkUpsert { u_Name : string; u_Endpoint : string; u_TokenId : string; u_TokenSecret : string }.
Definition seed_provider : Provider := MkProvider "default" ∅ ∅ ∅ "" [] None.
Definition edit_credential (req : Upsert) (cred : Credential) : Credential :=
  if decide (u_TokenSecret req = "") then MkCredential (u_TokenId req) (cr_TokenSecret cred) (cr_TokenSecretFile cred)
  else MkCredential (u_TokenId req) (u_TokenSecret req) "".
Definition edit_context (req : Upsert) (ctx : ProviderContext) : ProviderContext :=
  MkContext (u_Endpoint req) (cx_Node ctx) (cx_Credentials ctx) (cx_SnippetSSH ctx).
Definition edit_provider (req : Upsert) (p : Provider) : Provider :=
  let ctxName := if decide (DefaultContext p = "") then "default" else DefaultContext p in
  let ctx := default (MkContext "" "" "default" None) (mjoin (Contexts p !! ctxName)) in
  let cred := default (MkCredential "" "" "") (mjoin (Credentials p !! "default")) in
  MkProvider ctxName (<[ctxName := Some (edit_context req ctx)]> (Contexts p))
    (<["default" := Some (edit_credential req cred)]> (Credentials p)) (Defaults p) (p_Command p) (p_Args p) (p_Terraform p).
Definition set_providers (m : gmap string (option Provider)) (c : Config X) : Config X :=
  MkConfig X m (Reconciler c) (Operations c) (ManifestsDir c) (TemplatesDir c) (SecretProviders c) (OIDC c) (other_blocks c).
Definition upsert (req : Upsert) (c : Config X) : Config X * Provider :=
  let p := edit_provider req (default seed_provider (mjoin (Providers c !! u_Name req))) in
  (set_providers (<[u_Name req := Some p]> (Providers c)) c, p).

(** A handler loads the file and saves it; nothing excludes another one in between. *)
Definition load_step (fs : disk) : result config_error (Config X) := map_err ErrLoad (Load fs).
Definition save_step {A} (cfg : Config X) (a : A) (fs : disk) : result config_error A * disk :=
  match Save cfg fs with (Ok _, fs') => (Ok a, fs') | (Err e, fs') => (Err (ErrSave e), fs') end.

(** [UpsertProvider] *)
Definition UpsertProvider (req : Upsert) (fs : disk) : result config_error ProviderEntry * disk :=
  if decide (u_Name req = "") then (Err ErrNameRequired, fs)
  else match load_step fs with
  | Err e => (Err e, fs)
  | Ok cfg => let '(cfg', p) := upsert req cfg in save_step cfg' (providerEntry (u_Name req) (Some p)) fs
  end.

(** [DeleteProvider] *)
Definition DeleteProvider (name : string) (fs : disk) : result config_error unit * disk :=
  if decide (name = "") then (Err ErrNameRequired, fs)
  else match load_step fs with
  | Err e => (Err e, fs)
  | Ok cfg => save_step (set_providers (delete name (Providers cfg)) cfg) tt fs
  end.

(** [controllerConfigEntry], [GetControllerConfig], [UpdateControllerConfig] *)
Record ControllerConfig : Type := MkControllerConfig { cc_Enabled : bool; cc_Interval : string; cc_Retain : Z }.
Definition wrap32 (z : Z) : Z := ((z + 2 ^ 31) mod 2 ^ 32 - 2 ^ 31)%Z.
Definition defaultReconcilerInterval : string := "5m".
Definition controllerConfigEntry (cfg : Config X) : ControllerConfig :=
  MkControllerConfig
    (match Reconciler cfg with Some r => default true (rb_Enabled r) | None => true end)
    (match Reconciler cfg with Some r => if nonempty (rb_Interval r) then rb_Interval r else defaultReconcilerInterval
     | None => defaultReconcilerInterval end)
    (match Operations cfg with Some n => if (0 <? n)%Z then wrap32 n else DefaultRetainPerResource | None => DefaultRetainPerResource end).
Definition GetControllerConfig (fs : disk) : result config_error ControllerConfig :=
  cfg ← load_step fs; Ok (controllerConfigEntry cfg).

(** [time.ParseDuration], in nanoseconds. *)
Context (ParseDuration : string → option Z).

Definition tune (req : ControllerConfig) (c : Config X) : Config X :=
  MkConfig X (Providers c) (Some (MkReconciler (Some (cc_Enabled req)) (cc_Interval req)))
    (if (0 <? cc_Retain req)%Z then Some (cc_Retain req) else None)
    (ManifestsDir c) (TemplatesDir c) (SecretProviders c) (OIDC c) (other_blocks c).
Definition UpdateControllerConfig (req : option ControllerConfig) (fs : disk) : result config_error ControllerConfig * disk :=
  match req with
  | None => (Err ErrConfigRequired, fs)
  | Some req =>
      if decide (cc_Interval req ≠ "" ∧ ParseDuration (cc_Interval req) = None) then (Err (ErrInterval (cc_Interval req)), fs)
      else if (cc_Retain req <? 0)%Z then (Err ErrRetain, fs)
      else match load_step fs with
      | Err e => (Err e, fs)
      | Ok cfg => save_step (tune req cfg) (controllerConfigEntry (tune req cfg)) fs
      end
  end.

(** ** What an edit does *)

Definition opened (fs : disk) (path : string) (cfg : Config X) : Prop := config_file = Ok path ∧ LoadFromFile fs path = Ok cfg.

Lemma load_opened fs path cfg : opened fs path cfg → load_step fs = Ok cfg.
Proof. intros [Hp Hl]. unfold load_step, Load. rewrite Hp. simpl. by rewrite Hl. Qed.

(** A save that returns leaves the new file; one that is cut short leaves the old or
    the new one. *)
Lemma save_opened {A} (a : A) fs path cfg data :
  config_file = Ok path → Marshal cfg = Some data → Unmarshal data = Some cfg →
  save_step cfg a fs = (Ok a, renamed path data fs) ∧ opened (renamed path data fs) path cfg ∧
  (∀ fs', saving path data fs fs' → LoadFromFile fs' path = LoadFromFile fs path ∨ LoadFromFile fs' path = Ok cfg).
Proof.
  intros Hp Hm Hu. assert (LoadFromFile (renamed path data fs) path = Ok cfg) as Hnew.
  { unfold LoadFromFile, renamed. by rewrite lookup_insert_eq, Hu. }
  split_and!; [|done|].
  - unfold save_step, Save, SaveToFile. by rewrite Hp, Hm.
  - intros fs' [|n|]; [by left| |by right]. left. unfold LoadFromFile. rewrite lookup_insert_ne; [done|].
    intros H%(f_equal String.length). rewrite str_length_app in H. simpl in H. lia.
Qed.

(** An edit leaves the other providers as they are. *)
Lemma upsert_others fs req cfg name ctx :
  name ≠ u_Name req → GetProviderConfig fs (upsert req cfg).1 name ctx = GetProviderConfig fs cfg name ctx.
Proof. intros Hn. unfold GetProviderConfig, upsert. simpl. by rewrite lookup_insert_ne. Qed.

(** The provider that an edit starts from. *)
Definition edited (req : Upsert) (cfg : Config X) : Provider := default seed_provider (mjoin (Providers cfg !! u_Name req)).
Definition edited_name (p : Provider) : string := if decide (DefaultContext p = "") then "default" else DefaultContext p.
Definition edited_context (p : Provider) : ProviderContext :=
  default (MkContext "" "" "default" None) (mjoin (Contexts p !! edited_name p)).
Definition edited_credential (p : Provider) : Credential := default (MkCredential "" "" "") (mjoin (Credentials p !! "default")).

Lemma edited_name_nonempty p : edited_name p ≠ "".
Proof. unfold edited_name. by case_decide. Qed.

(** What an edited provider resolves to. *)
Lemma upsert_resolves fs req cfg :
  GetProviderConfig fs (upsert req cfg).1 (u_Name req) "" =
    (let p := edited req cfg in
     ssh ← with_snippet_ssh (cx_SnippetSSH (edited_context p));
     creds ← credentials_of fs (edit_provider req p) (u_Name req) (cx_Credentials (edited_context p));
     Ok (MkProviderConfig (u_Endpoint req) (cx_Node (edited_context p)) creds.1 creds.2 (Defaults p) ssh)).
Proof.
  unfold GetProviderConfig, upsert. simpl. rewrite lookup_insert_eq. fold (edited req cfg). set (p := edited req cfg).
  change (DefaultContext (edit_provider req p)) with (edited_name p).
  rewrite decide_False by apply edited_name_nonempty.
  change (Contexts (edit_provider req p)) with (<[edited_name p := Some (edit_context req (edited_context p))]> (Contexts p)).
  by rewrite lookup_insert_eq.
Qed.

Lemma edited_credentials fs req p name :
  credentials_of fs (edit_provider req p) name "default" =
    (secret ← (if decide (u_TokenSecret req = "") then token_of fs (edited_credential p) else Ok (u_TokenSecret req));
     Ok (u_TokenId req, secret)).
Proof.
  unfold credentials_of. rewrite decide_False by done. simpl. rewrite lookup_insert_eq. fold (edited_credential p).
  unfold edit_credential. case_decide as Hs; [done|]. unfold token_of. simpl. by rewrite decide_True.
Qed.

Lemma other_credentials fs req p name key :
  key ≠ "default" → credentials_of fs (edit_provider req p) name key = credentials_of fs p name key.
Proof. intros Hk. unfold credentials_of. case_decide; [done|]. simpl. by rewrite lookup_insert_ne. Qed.

(** An edit of a provider is saved atomically, changes no other provider, and takes
    effect when the default context of the provider uses the credential that the
    service edits. The controller can die at any time of the save: the next one reads
    the old file or the new one. The other providers resolve as before; the edited
    one gets the endpoint, and, if its context refers to the credential named
    default, the token that was sent, or the one on file when none was sent. When the
    context refers to another credential, the token that was sent is saved and never
    used. *)
Theorem UpsertProvider_effect req fs path cfg data :
  u_Name req ≠ "" → opened fs path cfg →
  Marshal (upsert req cfg).1 = Some data → Unmarshal data = Some (upsert req cfg).1 →
  let p := edited req cfg in let key := cx_Credentials (edited_context p) in
  ∃ entry cfg',
    UpsertProvider req fs = (Ok entry, renamed path data fs) ∧ opened (renamed path data fs) path cfg' ∧
    (∀ fs', saving path data fs fs' → LoadFromFile fs' path = Ok cfg ∨ LoadFromFile fs' path = Ok cfg') ∧
    (∀ disk name ctx, name ≠ u_Name req → GetProviderConfig disk cfg' name ctx = GetProviderConfig disk cfg name ctx) ∧
    (∀ disk, GetProviderConfig disk cfg' (u_Name req) "" =
      (ssh ← with_snippet_ssh (cx_SnippetSSH (edited_context p));
       creds ← (if decide (key = "default") then
                  secret ← (if decide (u_TokenSecret req = "") then token_of disk (edited_credential p) else Ok (u_TokenSecret req));
                  Ok (u_TokenId req, secret)
                else credentials_of disk p (u_Name req) key);
       Ok (MkProviderConfig (u_Endpoint req) (cx_Node (edited_context p)) creds.1 creds.2 (Defaults p) ssh))).
Proof.
  intros Hname Hopen Hm Hu p key. pose proof Hopen as [Hpath Hload].
  pose proof (save_opened (providerEntry (u_Name req) (Some (upsert req cfg).2)) fs path _ data Hpath Hm Hu) as (Hsave & Hnew & Hdie).
  eexists _, (upsert req cfg).1. split_and!.
  - unfold UpsertProvider. rewrite decide_False, (load_opened fs path cfg) by done. simpl. exact Hsave.
  - exact Hnew.
  - intros fs' Hs. rewrite <- Hload. by apply Hdie.
  - intros. by apply upsert_others.
  - intros d. rewrite upsert_resolves. fold p key. unfold key. case_decide as Hk; [by rewrite Hk, edited_credentials|by rewrite other_credentials].
Qed.

(** ** What is shown *)

(** The same configuration with other secrets. *)
Definition other_credential (f : string → string) (c : Credential) : Credential :=
  MkCredential (cr_TokenID c) (f (cr_TokenSecret c)) (f (cr_TokenSecretFile c)).
Definition other_provider (f : string → string) (p : Provider) : Provider :=
  MkProvider (DefaultContext p) (Contexts p) (option_map (other_credential f) <$> Credentials p) (Defaults p) (p_Command p) (p_Args p) (p_Terraform p).
Definition other_secrets (f : string → string) (c : Config X) : Config X := set_providers (option_map (other_provider f) <$> Providers c) c.

Lemma providerEntry_secrets f name p :
  (∀ s, f s = "" ↔ s = "") → providerEntry name (option_map (other_provider f) p) = providerEntry name p.
Proof.
  intros Hf. assert (∀ s, nonempty (f s) = nonempty s) as Hne by (intros s; unfold nonempty; apply bool_decide_ext; by rewrite Hf).
  destruct p as [p|]; [|done]. unfold providerEntry. simpl. change (default_context (other_provider f p)) with (default_context p).
  destruct (default_context p) as [ctx|]; [|done]. case_decide; [done|]. rewrite lookup_fmap.
  destruct (Credentials p !! cx_Credentials ctx) as [[cred|]|]; [|done..]. simpl. by rewrite !Hne.
Qed.

(** No secret is shown. The answer of the service to a listing is the same for two
    files that differ only in what their secrets are, whether inline or in a file. *)
Theorem ListProviders_hides_secrets f fs1 fs2 path cfg :
  (∀ s, f s = "" ↔ s = "") → opened fs1 path cfg → opened fs2 path (other_secrets f cfg) →
  ListProviders fs1 = ListProviders fs2.
Proof.
  intros Hf [Hp H1] [_ H2]. unfold ListProviders, Load. rewrite Hp. simpl. rewrite H1, H2. simpl. f_equal.
  rewrite map_to_list_fmap, map_map. apply map_ext. intros [name p]. simpl. symmetry. by apply providerEntry_secrets.
Qed.
End config.

(** A file with one provider, whose context uses a credential that was not made by the
    service. *)
Definition ex_px : Provider :=
  MkProvider "lab" {["lab" := Some (MkContext "https://old" "pve" "root" None)]}
    {["root" := Some (MkCredential "root@pam!t" "s3cret" "")]} ∅ "" [] None.
Definition ex_config : Config unit := MkConfig unit {["proxmox" := Some ex_px]} None None None None [] None tt.
Definition ex_edit : Upsert := MkUpsert "proxmox" "https://new" "admin@pam!u" "n3w".
Definition ex_home : option string := Some "/root".
Definition ex_decode (text : string) : option (Config unit) :=
  if decide (text = "old") then Some ex_config else if decide (text = "new") then Some (upsert ex_edit ex_config).1 else None.
Definition ex_encode (cfg : Config unit) : option string := Some "new".
Definition ex_disk : disk := {["/root/.openctl/config.yaml" := "old"]}.

Lemma ex_opened : opened tt ex_home ex_decode ex_disk "/root/.openctl/config.yaml" ex_config.
Proof. split; vm_compute; reflexivity. Qed.

Lemma UpsertProvider_effect_witness :
  ∃ entry (cfg' : Config unit), UpsertProvider tt ex_home ex_decode ex_encode ex_edit ex_disk =
      (Ok entry, renamed "/root/.openctl/config.yaml" "new" ex_disk) ∧
    GetProviderConfig ex_home ∅ cfg' "proxmox" "" = Ok (MkProviderConfig "https://new" "pve" "root@pam!t" "s3cret" ∅ None).
Proof.
  destruct (UpsertProvider_effect tt ex_home ex_decode ex_encode ex_edit ex_disk "/root/.openctl/config.yaml" ex_config "new")
    as (entry & cfg' & Hu & _ & _ & _ & Hr); [discriminate|exact ex_opened|reflexivity|reflexivity|].
  exists entry, cfg'. split; [exact Hu|]. rewrite Hr. vm_compute. reflexivity.
Defined.

Definition ex_rot (s : string) : string := if decide (s = "") then "" else "other".
Definition ex_decode_other (text : string) : option (Config unit) :=
  if decide (text = "old") then Some ex_config else Some (other_secrets ex_rot ex_config).
Definition ex_disk_other : disk := {["/root/.openctl/config.yaml" := "other"]}.

Lemma ListProviders_hides_secrets_witness :
  ListProviders tt ex_home ex_decode_other ex_disk = Ok [MkEntry "proxmox" "https://old" "root@pam!t" true false] ∧
  ListProviders tt ex_home ex_decode_other ex_disk = ListProviders tt ex_home ex_decode_other ex_disk_other.
Proof.
  split; [vm_compute; reflexivity|].
  apply (ListProviders_hides_secrets tt ex_home ex_decode_other ex_rot ex_disk ex_disk_other "/root/.openctl/config.yaml" ex_config).
  - intros s. unfold ex_rot. case_decide; [done|]. split; [discriminate|done].
  - split; vm_compute; reflexivity.
  - split; vm_compute; reflexivity.
Defined.
