(* ===== verification/Startup.v ===== *)
(** What the controller builds from its configuration file when it starts:
    cmd/openctl-controller/main.go (the functions that [runServe] calls). *)
From S2P Require Import Prelude GoStrings GoPath Registry Config ProxmoxClient ProxmoxHandler ProxmoxProvider.
From S2P Require Secrets.

Section startup.
Context {X : Type} (no_blocks : X) (home : option string) (Unmarshal : string → option (Config X)).
Local Abbreviation Load := (Config.Load no_blocks home Unmarshal).

(** ** Tunables *)

(** [resolveRetainPerResource] *)
Definition resolveRetainPerResource (fs : disk) : Z :=
  match Load fs with
  | Ok cfg => match Operations cfg with Some n => if (n <=? 0)%Z then DefaultRetainPerResource else n | None => DefaultRetainPerResource end
  | Err _ => DefaultRetainPerResource
  end.

(** [reconciler.DefaultInterval], and the interval of [reconciler.New]. *)
Definition DefaultInterval : Z := 300 * 10 ^ 9.
Definition reconciler_interval (interval : Z) : Z := if (interval <=? 0)%Z then DefaultInterval else interval.

(** [time.ParseDuration] *)
Context (ParseDuration : string → option Z).

(** [parseDurationDefault] *)
Definition parseDurationDefault (s : string) (def : Z) : Z :=
  if decide (s = "") then def else default def (ParseDuration s).

(** [buildReconciler]: the interval it runs with, [None] when it is off. *)
Definition buildReconciler (fs : disk) : option Z :=
  match Load fs with
  | Err _ => Some (reconciler_interval 0)
  | Ok cfg =>
      match Reconciler cfg with
      | None => Some (reconciler_interval 0)
      | Some r =>
          if decide (rb_Enabled r = Some false) then None
          else Some (reconciler_interval
            (if decide (rb_Interval r = "") then DefaultInterval else default DefaultInterval (ParseDuration (rb_Interval r))))
      end
  end.

(** [resolveManifestDir], [resolveTemplatesDir] *)
Definition resolve_dir (dir : option string) (fallback : result config_error string) : result config_error string :=
  match dir with Some d => if decide (d = "") then fallback else ExpandPath home d | None => fallback end.
Definition resolveManifestDir (cfg : option (Config X)) : result config_error string :=
  resolve_dir (cfg ≫= ManifestsDir) (manifests_dir home).
Definition resolveTemplatesDir (cfg : option (Config X)) : result config_error string :=
  resolve_dir (cfg ≫= TemplatesDir) (templates_dir home).

(** ** Front doors and secrets *)

(** [oidcConfig]: the settings and the client secret. *)
Definition ResolveClientSecret (fs : disk) (o : OIDCConfig) : result config_error string :=
  if decide (oc_ClientSecretFile o = "") then Ok "" else readSecretFile home fs (oc_ClientSecretFile o).
Definition oidcConfig (fs : disk) : result config_error (option (OIDCConfig * string)) :=
  match Load fs with
  | Ok cfg =>
      match OIDC cfg with
      | Some o => if oc_Enabled o then secret ← map_err ErrSecretFile (ResolveClientSecret fs o); Ok (Some (o, secret)) else Ok None
      | None => Ok None
      end
  | Err _ => Ok None
  end.

(** [registerConfiguredSecretProviders]; the back ends are HTTP clients. *)
Context {SE : Type} (vault : string → string → string → string → Secrets.SecretProvider SE).
Context (infisical : string → string → string → string → string → string → Secrets.SecretProvider SE).

Inductive secrets_config_error : Type :=
| MissingName
| RequiresAddress (name : string)
| RequiresProject (name : string)
| ErrToken (name : string) (e : config_error)
| UnknownBackend (name type : string).

Definition ResolveToken (fs : disk) (pc : SecretProviderConfig) : result config_error string :=
  if decide (sp_TokenSecretFile pc = "") then Ok (sp_TokenSecret pc) else readSecretFile home fs (sp_TokenSecretFile pc).
Definition secret_backend (fs : disk) (pc : SecretProviderConfig) : result secrets_config_error (Secrets.SecretProvider SE) :=
  if decide (sp_Name pc = "") then Err MissingName
  else if decide (sp_Type pc = "vault") then
    if decide (sp_Address pc = "") then Err (RequiresAddress (sp_Name pc))
    else token ← map_err (ErrToken (sp_Name pc)) (ResolveToken fs pc);
         Ok (vault (sp_Name pc) (sp_Address pc) token (sp_Namespace pc))
  else if decide (sp_Type pc = "infisical") then
    if decide (sp_Address pc = "") then Err (RequiresAddress (sp_Name pc))
    else if decide (sp_ProjectID pc = "" ∨ sp_Environment pc = "") then Err (RequiresProject (sp_Name pc))
    else token ← map_err (ErrToken (sp_Name pc)) (ResolveToken fs pc);
         Ok (infisical (sp_Name pc) (sp_Address pc) (sp_ClientID pc) token (sp_ProjectID pc) (sp_Environment pc))
  else Err (UnknownBackend (sp_Name pc) (sp_Type pc)).
Fixpoint registerConfiguredSecretProviders (fs : disk) (providers : list SecretProviderConfig) (reg : Secrets.Registry SE) :
    result secrets_config_error (Secrets.Registry SE) :=
  match providers with
  | [] => Ok reg
  | pc :: providers =>
      p ← secret_backend fs pc;
      registerConfiguredSecretProviders fs providers (Secrets.Register p reg)
  end.

(** ** The provider registry *)

Context {St PE LE : Type}.
Local Abbreviation provider := (@Registry.Provider St PE).
(** The built-in providers, and loading a plugin: starting its process and asking what
    it is. *)
Context (proxmox : ProxmoxProvider.Provider → provider) (k3s : ProxmoxProvider.Provider → provider).
Context (external_Load : string → list string → ProviderConfig → result LE provider).
Context (tfhost_Load : string → TerraformProvider → result LE provider).

Inductive startup_error : Type :=
| ErrProxmoxConfig (e : config_error)
| NilProvider (name : string)
| DuplicateProvider (name : string).
Inductive load_error : Type :=
| ErrResolveConfig (e : config_error)
| ErrCommandRequired
| ErrMappings
| ErrLoadPlugin (e : LE).

(** One endpoint's client. *)
Definition ssh_of (pc : ProviderConfig) : option (list (string * string) * string * string) :=
  match pc_SnippetSSH pc with Some s => Some (map_to_list (ss_Hosts s), ss_User s, ss_IdentityFile s) | None => None end.
Definition handler_of (pc : ProviderConfig) : Handler :=
  NewHandler (pc_Endpoint pc) (pc_Node pc) (map_to_list (pc_Defaults pc)) (ssh_of pc).

(** The Proxmox part of [buildRegistry]: only contexts with an endpoint count. *)
Definition build_proxmox (fs : disk) (cfg : Config X) : result config_error (option ProxmoxProvider.Provider) :=
  match Providers cfg !! "proxmox" with
  | None => Ok None
  | Some _ =>
      r ← ProviderContextConfigs home fs cfg "proxmox";
      match filter (λ e, pc_Endpoint e.2 ≠ "") r.1 with
      | [] => Ok None
      | valid => Ok (Some (NewMulti (map (λ e, (e.1, handler_of e.2)) valid) r.2))
      end
  end.

(** [loadExternalProvider], [loadTerraformProvider] *)
Definition loadExternalProvider (fs : disk) (cfg : Config X) (name : string) (pc : Config.Provider) : result load_error provider :=
  pcfg ← map_err ErrResolveConfig (GetProviderConfig home fs cfg name "");
  map_err ErrLoadPlugin (external_Load (p_Command pc) (p_Args pc) pcfg).
Definition loadTerraformProvider (name : string) (tf : TerraformProvider) : result load_error provider :=
  if decide (tf_Command tf = "") then Err ErrCommandRequired
  else if existsb (λ r, bool_decide (tr_Kind r = "" ∨ tr_Type r = "")) (tf_Resources tf) then Err ErrMappings
  else map_err ErrLoadPlugin (tfhost_Load name tf).

(** What an entry of the file asks for: [None] to pass it over. *)
Definition load_entry (fs : disk) (cfg : Config X) (name : string) (pc : Config.Provider) : option provider :=
  match p_Terraform pc with
  | Some tf => if decide (p_Command pc ≠ "") then None
               else match loadTerraformProvider name tf with Ok p => Some p | Err _ => None end
  | None => if decide (p_Command pc = "") then None
            else match loadExternalProvider fs cfg name pc with Ok p => Some p | Err _ => None end
  end.

Definition register (p : provider) (reg : list (string * provider)) : result startup_error (list (string * provider)) :=
  match Registry.Register p reg with Some reg => Ok reg | None => Err (DuplicateProvider (p_Name p)) end.

(** The loop over the providers of the file, in one order of the map: names that are
    registered are passed over, but a plugin is registered under the name it reports. *)
Fixpoint register_plugins (fs : disk) (cfg : Config X) (entries : list (string * option Config.Provider))
    (reg : list (string * provider)) : result startup_error (list (string * provider)) :=
  match entries with
  | [] => Ok reg
  | (name, pc) :: entries =>
      if decide (is_Some (assoc name reg)) then register_plugins fs cfg entries reg
      else match pc with
      | None => Err (NilProvider name)
      | Some pc =>
          match load_entry fs cfg name pc with
          | None => register_plugins fs cfg entries reg
          | Some p => reg ← register p reg; register_plugins fs cfg entries reg
          end
      end
  end.

(** [buildRegistry] *)
Definition buildRegistry (fs : disk) (entries : list (string * option Config.Provider)) :
    result startup_error (list (string * provider)) :=
  match Load fs with
  | Err _ => Ok []
  | Ok cfg =>
      pmp ← map_err ErrProxmoxConfig (build_proxmox fs cfg);
      reg ← (match pmp with
             | Some pmp => reg ← register (proxmox pmp) []; register (k3s pmp) reg
             | None => Ok []
             end);
      register_plugins fs cfg entries reg
  end.

(** ** The tunables that are shown are the ones in force *)

Lemma tuned_entry (req : ControllerConfig) (cfg : Config X) :
  (0 ≤ cc_Retain req < 2 ^ 31)%Z →
  controllerConfigEntry (tune req cfg) =
    MkControllerConfig (cc_Enabled req) (if Config.nonempty (cc_Interval req) then cc_Interval req else defaultReconcilerInterval)
      (if (0 <? cc_Retain req)%Z then cc_Retain req else DefaultRetainPerResource).
Proof.
  intros Hr. unfold controllerConfigEntry. simpl. f_equal. destruct (Z.ltb_spec 0 (cc_Retain req)) as [H|H]; [|done].
  rewrite (proj2 (Z.ltb_lt 0 (cc_Retain req)) H). unfold wrap32. rewrite Z.mod_small; lia.
Qed.

(** What a controller that starts with a file that was just tuned runs with. *)
Definition tuned_interval (req : ControllerConfig) : Z :=
  match ParseDuration (cc_Interval req) with
  | Some d => if decide (cc_Interval req = "") then DefaultInterval else if (0 <? d)%Z then d else DefaultInterval
  | None => DefaultInterval
  end.

Lemma tuned_start (req : ControllerConfig) (cfg : Config X) fs path :
  opened no_blocks home Unmarshal fs path (tune req cfg) →
  buildReconciler fs = (if cc_Enabled req then Some (tuned_interval req) else None) ∧
  resolveRetainPerResource fs = if (0 <? cc_Retain req)%Z then cc_Retain req else DefaultRetainPerResource.
Proof.
  intros [Hp Hl]. unfold buildReconciler, resolveRetainPerResource, Config.Load. rewrite Hp. simpl. rewrite Hl. simpl. split.
  - destruct (cc_Enabled req); simpl; [|done]. f_equal. unfold tuned_interval, reconciler_interval.
    case_decide; [by destruct (ParseDuration _)|]. destruct (ParseDuration _) as [d|]; simpl; [|done].
    destruct (Z.ltb_spec 0 d), (Z.leb_spec d 0); [lia|done..|lia].
  - destruct (Z.ltb_spec 0 (cc_Retain req)) as [H|H]; simpl; [|done]. destruct (Z.leb_spec (cc_Retain req) 0); [lia|done].
Qed.

(** The tunables that are shown are the ones in force after the next start. An update
    that is accepted is saved, a read shows it, every provider resolves as before, and
    a controller that starts with the file has its reconciler off exactly when the
    update says so, keeps as many operations as are shown, and reconciles at the
    interval that is shown, provided that it is positive; an interval that parses but
    is not positive is shown as it was sent while the controller uses five minutes. *)
Theorem UpdateControllerConfig_in_force Marshal req fs path cfg data :
  opened no_blocks home Unmarshal fs path cfg →
  Marshal (tune req cfg) = Some data → Unmarshal data = Some (tune req cfg) →
  ParseDuration defaultReconcilerInterval = Some DefaultInterval →
  (0 ≤ cc_Retain req < 2 ^ 31)%Z → (cc_Interval req = "" ∨ is_Some (ParseDuration (cc_Interval req))) →
  ∃ shown, let fs' := renamed path data fs in
    UpdateControllerConfig no_blocks home Unmarshal Marshal ParseDuration (Some req) fs = (Ok shown, fs') ∧
    GetControllerConfig no_blocks home Unmarshal fs' = Ok shown ∧
    (∀ disk name ctx, GetProviderConfig home disk (tune req cfg) name ctx = GetProviderConfig home disk cfg name ctx) ∧
    cc_Enabled shown = bool_decide (is_Some (buildReconciler fs')) ∧ cc_Retain shown = resolveRetainPerResource fs' ∧
    (∀ interval d, buildReconciler fs' = Some interval → ParseDuration (cc_Interval shown) = Some d →
      interval = if (0 <? d)%Z then d else DefaultInterval).
Proof.
  intros Hopen Hm Hu Hdef Hret Hint. pose proof Hopen as [Hp Hl].
  pose proof (save_opened no_blocks home Unmarshal Marshal (controllerConfigEntry (tune req cfg)) fs path _ data Hp Hm Hu) as (Hsave & Hnew & _).
  destruct (tuned_start req cfg _ path Hnew) as [Hrec Hkeep]. rewrite tuned_entry in Hsave by done.
  eexists. split_and!.
  - unfold UpdateControllerConfig. rewrite decide_False; [|intros [H1 H2]; rewrite H2 in Hint; destruct Hint as [|[]]; done].
    rewrite (proj2 (Z.ltb_ge (cc_Retain req) 0)) by lia. rewrite (load_opened no_blocks home Unmarshal fs path cfg), tuned_entry by done. exact Hsave.
  - unfold GetControllerConfig. rewrite (load_opened no_blocks home Unmarshal _ path (tune req cfg)) by done. simpl. by rewrite tuned_entry.
  - done.
  - simpl. rewrite Hrec. by destruct (cc_Enabled req).
  - simpl. by rewrite Hkeep.
  - simpl. rewrite Hrec. intros i d Hi Hd. destruct (cc_Enabled req); [|done]. simplify_eq. unfold tuned_interval.
    destruct (decide (cc_Interval req = "")) as [He|He].
    + rewrite He in Hd. simpl in Hd. rewrite Hdef in Hd. simplify_eq. by destruct (ParseDuration (cc_Interval req)).
    + assert (Config.nonempty (cc_Interval req) = true) as Hne by by apply bool_decide_eq_true. rewrite Hne in Hd. by rewrite Hd.
Qed.

(** ** Who gets registered *)

(** Every plugin that loads reports the name it is configured under. *)
Definition honest (fs : disk) (cfg : Config X) (name : string) (pc : option Config.Provider) : Prop :=
  ∀ p, pc ≫= load_entry fs cfg name = Some p → p_Name p = name.

Lemma register_fresh p reg :
  assoc (p_Name p) reg = None → register p reg = Ok (assoc_set (p_Name p) p reg).
Proof. intros H. unfold register, Registry.Register. by rewrite H. Qed.

Lemma register_plugins_spec fs cfg entries reg :
  NoDup entries.*1 → Forall (λ e, e.2 ≠ None ∧ honest fs cfg e.1 e.2) entries →
  ∃ reg', register_plugins fs cfg entries reg = Ok reg' ∧
    ∀ n, assoc n reg' = match assoc n reg with Some p => Some p | None => assoc n entries ≫= λ pc, pc ≫= load_entry fs cfg n end.
Proof.
  revert reg. induction entries as [|[name pc] entries IH]; intros reg Hnd Hh.
  { exists reg. split; [done|]. intros n. simpl. by destruct (assoc n reg). }
  apply NoDup_cons in Hnd as [Hni Hnd]. apply Forall_cons in Hh as [[Hpc Hh] Hrest]. simpl in *.
  assert (assoc name entries = None) as Hn by by apply assoc_None.
  assert (∀ n, n ≠ name → (if decide (n = name) then Some pc else assoc n entries) = assoc n entries) as Hother
    by (intros n Hne; by rewrite decide_False).
  case_decide as Hreg.
  { destruct (IH reg Hnd Hrest) as (reg' & H1 & H2). exists reg'. split; [done|]. intros n. rewrite H2.
    destruct (decide (n = name)) as [->|Hne]; [by destruct Hreg as [? ->]|done]. }
  rewrite <- eq_None_not_Some in Hreg. destruct pc as [pc|]; [|done].
  destruct (load_entry fs cfg name pc) as [p|] eqn:Hl.
  - specialize (Hh p Hl). rewrite register_fresh; [|by rewrite Hh]. rewrite Hh. simpl.
    destruct (IH (assoc_set name p reg) Hnd Hrest) as (reg' & H1 & H2). exists reg'. split; [done|]. intros n. rewrite H2.
    destruct (decide (n = name)) as [->|Hne]; [by rewrite assoc_set_eq, Hreg|]. by rewrite assoc_set_ne.
  - destruct (IH reg Hnd Hrest) as (reg' & H1 & H2). exists reg'. split; [done|]. intros n. rewrite H2.
    destruct (decide (n = name)) as [->|Hne]; [|done]. rewrite Hreg, Hn. simpl. by rewrite Hl.
Qed.

Lemma assoc_entries {V} (m : gmap string V) entries n :
  entries ≡ₚ map_to_list m → NoDup entries.*1 ∧ assoc n entries = m !! n.
Proof.
  intros Hp. assert (NoDup entries.*1) as Hnd by (rewrite Hp; apply NoDup_fst_map_to_list). split; [done|].
  destruct (m !! n) as [v|] eqn:Hm.
  - apply elem_assoc; [done|]. rewrite Hp. by apply elem_of_map_to_list.
  - apply assoc_None. intros ([n' v] & -> & H)%list_elem_of_fmap. rewrite Hp in H. apply elem_of_map_to_list in H. simpl in *. congruence.
Qed.

(** The registry of the built-in providers. *)
Definition builtin (pmp : option ProxmoxProvider.Provider) (n : string) : option provider :=
  match pmp with
  | Some pmp => if decide (n = "proxmox") then Some (proxmox pmp) else if decide (n = "k3s") then Some (k3s pmp) else None
  | None => None
  end.
Context (proxmox_Name : ∀ pmp, p_Name (proxmox pmp) = "proxmox") (k3s_Name : ∀ pmp, p_Name (k3s pmp) = "k3s").

Lemma builtin_registry pmp :
  ∃ reg, match pmp with
    | Some pmp => reg ← register (proxmox pmp) []; register (k3s pmp) reg
    | None => Ok []
    end = Ok reg ∧ ∀ n, assoc n reg = builtin pmp n.
Proof.
  destruct pmp as [pmp|]; [|by exists []]. rewrite register_fresh by done. simpl. rewrite register_fresh by by rewrite proxmox_Name, k3s_Name.
  eexists. split; [done|]. intros n. unfold builtin. rewrite k3s_Name, proxmox_Name. simpl.
  case_decide; [done|]. by case_decide.
Qed.

Lemma buildRegistry_opened fs path cfg entries pmp :
  opened no_blocks home Unmarshal fs path cfg → build_proxmox fs cfg = Ok pmp →
  ∃ reg, buildRegistry fs entries = register_plugins fs cfg entries reg ∧ ∀ n, assoc n reg = builtin pmp n.
Proof.
  intros [Hp Hl] Hpm. destruct (builtin_registry pmp) as (reg & Hr & Hb). exists reg. split; [|done].
  unfold buildRegistry, Config.Load. rewrite Hp. simpl. rewrite Hl, Hpm. simpl. destruct pmp; simpl in *; [by rewrite Hr|by simplify_eq].
Qed.

(** The registry does not depend on the order of the file. Provided that no entry is
    empty and every plugin that loads reports the name it is configured under, the
    controller starts in whatever order the entries are read, with the built-in
    providers when an endpoint is configured, and with each other entry that has one
    kind of plugin and loads; an entry that cannot be loaded is passed over. *)
Theorem buildRegistry_any_order fs path cfg pmp entries :
  opened no_blocks home Unmarshal fs path cfg → build_proxmox fs cfg = Ok pmp → entries ≡ₚ map_to_list (Providers cfg) →
  (∀ n pc, Providers cfg !! n = Some pc → pc ≠ None ∧ honest fs cfg n pc) →
  ∃ reg, buildRegistry fs entries = Ok reg ∧
    ∀ n, assoc n reg = match builtin pmp n with Some p => Some p | None => mjoin (Providers cfg !! n) ≫= load_entry fs cfg n end.
Proof.
  intros Hopen Hpm Hperm Hh. destruct (buildRegistry_opened fs path cfg entries pmp Hopen Hpm) as (reg0 & -> & Hb).
  destruct (assoc_entries _ entries "" Hperm) as [Hnd _].
  destruct (register_plugins_spec fs cfg entries reg0 Hnd) as (reg & Hr & Hl).
  { apply Forall_forall. intros [n pc] Hin. rewrite Hperm in Hin. apply Hh. by apply elem_of_map_to_list in Hin. }
  exists reg. split; [done|]. intros n. rewrite Hl, Hb. destruct (assoc_entries _ entries n Hperm) as [_ ->].
  destruct (builtin pmp n); [done|]. by destruct (Providers cfg !! n) as [[]|].
Qed.

(** A plugin whose reported name is taken. *)
Lemma register_plugins_taken fs cfg entries reg a pc p :
  NoDup entries.*1 → (a, Some pc) ∈ entries → load_entry fs cfg a pc = Some p →
  assoc a reg = None → is_Some (assoc (p_Name p) reg) →
  Forall (λ e, e.1 = a ∨ honest fs cfg e.1 e.2) entries →
  is_ok (register_plugins fs cfg entries reg) = false.
Proof.
  revert reg. induction entries as [|[name pc'] entries IH]; intros reg Hnd Hin Hl Ha Htaken Hh; [by apply elem_of_nil in Hin|].
  apply NoDup_cons in Hnd as [Hni Hnd]. apply Forall_cons in Hh as [Hx Hh]. simpl in *.
  apply elem_of_cons in Hin as [[= <- <-]|Hin].
  - rewrite decide_False by (rewrite Ha; by intros []). rewrite Hl. unfold register, Registry.Register. by destruct Htaken as [q ->].
  - assert (name ≠ a) as Hne by (intros ->; apply Hni, list_elem_of_fmap; by eexists (_, _)).
    case_decide; [by apply IH|]. destruct pc' as [pc'|]; [|done]. destruct (load_entry fs cfg name pc') as [q|] eqn:Hq; [|by apply IH].
    destruct Hx as [Hx|Hx]; [done|]. specialize (Hx q Hq). unfold register, Registry.Register.
    destruct (assoc (p_Name q) reg) eqn:Hreg; [done|]. simpl. apply IH; try done.
    + rewrite Hx. by rewrite assoc_set_ne.
    + destruct (decide (p_Name q = p_Name p)) as [He|He]; [by rewrite He, assoc_set_eq|by rewrite assoc_set_ne].
Qed.

(** One plugin stops the controller. A plugin that loads and reports the name of a
    provider that is built in makes the start fail, in whatever order the entries are
    read, although a plugin that does not load is passed over and the comments say that
    built-in providers win and that one bad provider must not stop the controller. *)
Theorem plugin_name_stops_startup fs path cfg pmp entries a pc p :
  opened no_blocks home Unmarshal fs path cfg → build_proxmox fs cfg = Ok pmp → entries ≡ₚ map_to_list (Providers cfg) →
  (∀ n x, Providers cfg !! n = Some x → n = a ∨ honest fs cfg n x) →
  Providers cfg !! a = Some (Some pc) → load_entry fs cfg a pc = Some p →
  builtin pmp a = None → is_Some (builtin pmp (p_Name p)) →
  is_ok (buildRegistry fs entries) = false.
Proof.
  intros Hopen Hpm Hperm Hh Ha Hl Hfree Htaken. destruct (buildRegistry_opened fs path cfg entries pmp Hopen Hpm) as (reg0 & -> & Hb).
  destruct (assoc_entries _ entries "" Hperm) as [Hnd _].
  apply (register_plugins_taken fs cfg entries reg0 a pc p); rewrite ?Hb; [done| |done..|].
  - rewrite Hperm. by apply elem_of_map_to_list.
  - apply Forall_forall. intros [n x] Hin. rewrite Hperm in Hin. apply Hh. by apply elem_of_map_to_list in Hin.
Qed.
End startup.

(** ** Examples *)

Definition ex_named (name : string) : @Registry.Provider unit unit :=
  Registry.MkProvider name [] (λ _ s, (Ok None, s)) (λ _ _ _, Err tt) (λ _ _, Ok []) (λ _ _ s, (Ok tt, s))
    None None None None None None None None None.
Definition ex_plugin : Config.Provider := Config.MkProvider "" ∅ ∅ ∅ "openctl-dns" [] None.
Definition ex_start_config : Config unit :=
  MkConfig unit {["proxmox" := Some ex_px; "dns" := Some ex_plugin]} None None None None [] None tt.
Definition ex_start_decode (text : string) : option (Config unit) := Some ex_start_config.
Definition ex_duration (s : string) : option Z := if decide (s = "5m") then Some DefaultInterval else if decide (s = "30s") then Some (30 * 10 ^ 9)%Z else None.

Definition ex_tuned : ControllerConfig := MkControllerConfig true "30s" 7.
Definition ex_tune_decode (text : string) : option (Config unit) :=
  if decide (text = "old") then Some ex_start_config else Some (tune ex_tuned ex_start_config).

Lemma UpdateControllerConfig_in_force_witness :
  ∃ shown, let fs' := renamed "/root/.openctl/config.yaml" "new" ex_disk in
    UpdateControllerConfig tt ex_home ex_tune_decode (λ _, Some "new") ex_duration (Some ex_tuned) ex_disk = (Ok shown, fs') ∧
    cc_Retain shown = resolveRetainPerResource tt ex_home ex_tune_decode fs' ∧
    buildReconciler tt ex_home ex_tune_decode ex_duration fs' = Some (30 * 10 ^ 9)%Z.
Proof.
  destruct (UpdateControllerConfig_in_force tt ex_home ex_tune_decode ex_duration (λ _, Some "new") ex_tuned ex_disk
    "/root/.openctl/config.yaml" ex_start_config "new") as (shown & Hu & _ & _ & _ & Hr & _).
  - split; vm_compute; reflexivity.
  - reflexivity.
  - reflexivity.
  - reflexivity.
  - split; vm_compute; [discriminate|reflexivity].
  - right. vm_compute. by eexists.
  - exists shown. split; [exact Hu|]. split; [exact Hr|]. vm_compute. reflexivity.
Defined.

Definition ex_build (reported : string) (entries : list (string * option Config.Provider)) :=
  buildRegistry (LE := unit) tt ex_home ex_start_decode (λ _, ex_named "proxmox") (λ _, ex_named "k3s")
    (λ _ _ _, Ok (ex_named reported)) (λ _ _, Err tt) ex_disk entries.
Definition ex_pmp : ProxmoxProvider.Provider := NewMulti [("lab", handler_of (MkProviderConfig "https://old" "pve" "root@pam!t" "s3cret" ∅ None))] "lab".

Lemma ex_start_opened : opened tt ex_home ex_start_decode ex_disk "/root/.openctl/config.yaml" ex_start_config.
Proof. split; vm_compute; reflexivity. Qed.

Lemma ex_entries : map_to_list (Providers ex_start_config) = [("dns", Some ex_plugin); ("proxmox", Some ex_px)].
Proof. vm_compute. reflexivity. Qed.

Lemma buildRegistry_any_order_witness :
  ∃ reg, ex_build "dns" [("dns", Some ex_plugin); ("proxmox", Some ex_px)] = Ok reg ∧
    p_Name <$> assoc "dns" reg = Some "dns" ∧ p_Name <$> assoc "k3s" reg = Some "k3s".
Proof.
  destruct (buildRegistry_any_order (LE := unit) tt ex_home ex_start_decode (λ _, ex_named "proxmox") (λ _, ex_named "k3s")
    (λ _ _ _, Ok (ex_named "dns")) (λ _ _, Err tt) (λ _, eq_refl) (λ _, eq_refl) ex_disk "/root/.openctl/config.yaml" ex_start_config
    (Some ex_pmp) [("dns", Some ex_plugin); ("proxmox", Some ex_px)] ex_start_opened) as (reg & Hr & Hl).
  - vm_compute. reflexivity.
  - rewrite ex_entries. reflexivity.
  - intros n pc. unfold ex_start_config. simpl. intros [[<- <-]|[_ [<- <-]%lookup_singleton_Some]]%lookup_insert_Some.
    + split; [done|]. intros p. vm_compute. intros Hp. discriminate Hp.
    + split; [done|]. intros p. vm_compute. by intros [= <-].
  - exists reg. split; [exact Hr|]. rewrite !Hl. vm_compute. split; reflexivity.
Defined.

Lemma plugin_name_stops_startup_witness :
  ex_build "proxmox" [("dns", Some ex_plugin); ("proxmox", Some ex_px)] = Err (DuplicateProvider "proxmox") ∧
  is_ok (ex_build "proxmox" [("proxmox", Some ex_px); ("dns", Some ex_plugin)]) = false.
Proof.
  split; [vm_compute; reflexivity|].
  apply (plugin_name_stops_startup (LE := unit) tt ex_home ex_start_decode (λ _, ex_named "proxmox") (λ _, ex_named "k3s")
    (λ _ _ _, Ok (ex_named "proxmox")) (λ _ _, Err tt) (λ _, eq_refl) (λ _, eq_refl) ex_disk "/root/.openctl/config.yaml" ex_start_config
    (Some ex_pmp) _ "dns" ex_plugin (ex_named "proxmox") ex_start_opened).
  - vm_compute. reflexivity.
  - rewrite ex_entries. apply Permutation_swap.
  - intros n pc. unfold ex_start_config. simpl. intros [[<- <-]|[_ [<- <-]%lookup_singleton_Some]]%lookup_insert_Some.
    + right. intros p. vm_compute. intros Hp. discriminate Hp.
    + by left.
  - vm_compute. reflexivity.
  - vm_compute. reflexivity.
  - reflexivity.
  - by eexists.
Defined.
