(* ===== verification/Plugin.v ===== *)
(** Command-line plugins: the messages of pkg/protocol, the state files of
    internal/state, and internal/plugin (finding plugins, running one, and carrying
    out what it asks of the others). A plugin is a process that answers a request;
    what it answers is chosen by the environment. *)
From S2P Require Import Prelude GoStrings GoValue ClusterDiff ClusterConverge Drift Effects Json Config.
From Corelib Require Import Floats.SpecFloat.

(** ** Messages (pkg/protocol/request.go, response.go, dispatch.go) *)

Definition StatusSuccess : string := "success".
Definition StatusError : string := "error".
Definition ErrorCodeNotFound : string := "NOT_FOUND".
Definition ErrorCodeInvalidRequest : string := "INVALID_REQUEST".
Definition ErrorCodeInternal : string := "INTERNAL".
Definition ActionGet : string := "get".
Definition ActionList : string := "list".
Definition ActionCreate : string := "create".
Definition ActionDelete : string := "delete".

Record Error : Type := MkError { er_Code : string; er_Message : string }.
(** The timeout is in seconds. *)
Record WaitCondition : Type := MkWait { wc_Field : string; wc_Value : string; wc_Timeout : Z }.
Record DispatchRequest : Type := MkDispatch {
  dr_ID : string; dr_Provider : string; dr_Action : string; dr_ResourceType : string; dr_ResourceName : string;
  dr_Manifest : option resource; dr_WaitFor : option WaitCondition }.
Record DispatchResult : Type := MkResult {
  ds_ID : string; ds_Status : string; ds_Resource : option resource; ds_Error : option Error }.
Record StateStatus : Type := MkStateStatus { st_Phase : string; st_Message : string; st_Outputs : gomap }.
Record StateData : Type := MkStateData {
  sd_APIVersion : string; sd_Kind : string; sd_Spec : gomap; sd_Status : option StateStatus; sd_Children : list childRef }.
Record StateUpdate : Type := MkStateUpdate { su_Operation : string; su_Provider : string; su_Name : string; su_State : option StateData }.
Record Request : Type := MkRequest {
  rq_Action : string; rq_ResourceType : string; rq_ResourceName : string; rq_Manifest : option resource; rq_Args : gomap;
  rq_Config : ProviderConfig; rq_DispatchResults : list DispatchResult; rq_ContinuationToken : string }.
Record Response : Type := MkResponse {
  rs_Status : string; rs_Resource : option resource; rs_Resources : list resource; rs_Message : string;
  rs_Error : option Error; rs_StateUpdate : option StateUpdate; rs_DispatchRequests : list DispatchRequest;
  rs_Continuation : option string }.

(** ** State files (internal/state) *)

Record State : Type := MkState {
  s_APIVersion : string; s_Kind : string; s_Name : string; s_Provider : string; s_CreatedAt : string; s_UpdatedAt : string;
  s_Spec : gomap; s_Phase : string; s_Message : string; s_Outputs : gomap; s_Children : list childRef }.

(** The document of a state. *)
Definition state_document (s : State) : gomap :=
  [("apiVersion", VStr (s_APIVersion s)); ("kind", VStr (s_Kind s));
   ("metadata", VMap [("name", VStr (s_Name s)); ("provider", VStr (s_Provider s));
                      ("createdAt", VStr (s_CreatedAt s)); ("updatedAt", VStr (s_UpdatedAt s))])] ++
  omit_map "spec" (s_Spec s) ++
  [("status", VMap ([("phase", VStr (s_Phase s))] ++ omit_str "message" (s_Message s) ++ omit_map "outputs" (s_Outputs s)))] ++
  omit_list "children" (map render_child (s_Children s)).

(** The files of the store by provider and name; each is what decoding it gives. *)
Abbreviation store := (gmap (string * string) (option gomap)).

Inductive store_error : Type := ErrStateName | ErrStateProvider | ErrStateData | ErrStateOperation (op : string).

(** [Store.Save]; the zero time is the empty text. *)
Definition save_state `{Yaml} (now : string) (s : State) (files : store) : result store_error store :=
  if decide (s_Name s = "") then Err ErrStateName
  else if decide (s_Provider s = "") then Err ErrStateProvider
  else
    let created := if decide (s_CreatedAt s = "") then now else s_CreatedAt s in
    let s := MkState (s_APIVersion s) (s_Kind s) (s_Name s) (s_Provider s) created now (s_Spec s) (s_Phase s) (s_Message s)
               (s_Outputs s) (s_Children s) in
    Ok (<[(s_Provider s, s_Name s) := as_map (Some (yaml (VMap (state_document s))))]> files).

(** [Store.Delete], [Store.Exists] *)
Definition delete_state (provider name : string) (files : store) : store := delete (provider, name) files.
Definition Exists (provider name : string) (files : store) : bool := bool_decide (is_Some (files !! (provider, name))).

(** [handleStateUpdate] *)
Definition handleStateUpdate `{Yaml} (now : string) (u : StateUpdate) (files : store) : result store_error store :=
  if decide (su_Operation u = "save") then
    match su_State u with
    | None => Err ErrStateData
    | Some d =>
        let st := default (MkStateStatus "" "" []) (sd_Status d) in
        save_state now (MkState (sd_APIVersion d) (sd_Kind d) (su_Name u) (su_Provider u) "" "" (sd_Spec d)
          (st_Phase st) (st_Message st) (st_Outputs st) (sd_Children d)) files
    end
  else if decide (su_Operation u = "delete") then Ok (delete_state (su_Provider u) (su_Name u) files)
  else Err (ErrStateOperation (su_Operation u)).

(** ** Finding plugins (discovery.go) *)

Record dir_entry : Type := MkEntry { de_Name : string; de_IsDir : bool; de_Executable : bool }.
Record plugin : Type := MkPlugin { pl_Name : string; pl_Dir : string; pl_File : string }.

(** [discoverInDir]; an entry without information is one that is not executable. *)
Definition discoverInDir (dir : string) (entries : list dir_entry) : list plugin :=
  omap (λ e,
    if de_IsDir e then None
    else if negb (has_prefix "openctl-" (de_Name e)) then None
    else if negb (de_Executable e) then None
    else Some (MkPlugin (trim_suffix ".exe" (trim_prefix "openctl-" (de_Name e))) dir (de_Name e))) entries.

(** The loop of [Discover] over the plugin directory and PATH; an unreadable directory
    is passed over. *)
Fixpoint add_plugins (found seen : list plugin) : list plugin :=
  match found with
  | [] => seen
  | p :: found => add_plugins found (if decide (pl_Name p ∈ map pl_Name seen) then seen else seen ++ [p])
  end.
Definition Discover (dirs : list (string * option (list dir_entry))) : list plugin :=
  fold_left (λ seen d, match d.2 with Some entries => add_plugins (discoverInDir d.1 entries) seen | None => seen end) dirs [].

(** [FindPlugin] *)
Definition FindPlugin (dirs : list (string * option (list dir_entry))) (name : string) : option plugin :=
  head (filter (λ p, pl_Name p = name) (Discover dirs)).

(** ** The dispatcher (dispatcher.go) *)

(** What leaves the dispatcher: running a plugin once, the five seconds of its ticker,
    and the state store. *)
Inductive query : Type :=
| Exec (p : plugin) (req : Request)
| Tick
| Update (u : StateUpdate).

Inductive exec_error : Type := ErrTimedOut | ErrExit (stderr : string) | ErrResponse.
Inductive answer : Type :=
| Replied (r : result exec_error Response)
| Ticked
| Cancelled.

Inductive plugin_error : Type :=
| ErrPluginNotFound (name : string)
| ErrExec (e : exec_error)
| ErrConfig (e : config_error)
| ErrCancelled
| ErrWaitTimeout (field value : string)
| ErrRounds.

Abbreviation D := (prog query answer plugin_error).

(** [Executor.Execute] *)
Definition Execute (p : plugin) (req : Request) : D Response :=
  a ← call (Exec p req);
  match a with
  | Replied (Ok r) => Ret r
  | Replied (Err e) => Fail (ErrExec e)
  | Ticked | Cancelled => Fail ErrCancelled
  end.

Section dispatcher.
Context (dirs : list (string * option (list dir_entry))) (float_v : spec_float → string).
(** [GetProviderConfig] of the loaded configuration. *)
Context (provider_config : string → result config_error ProviderConfig).
(** How many ticks fit into a timeout, and the text of an error. *)
Context (polls : Z → nat) (err_text : plugin_error → string).

Definition find (name : string) : D plugin :=
  match FindPlugin dirs name with Some p => Ret p | None => Fail (ErrPluginNotFound name) end.

(** [checkCondition] *)
Fixpoint walk (v : option value) (path : list string) : option (option value) :=
  match path with
  | [] => Some v
  | key :: path => match v with Some (VMap m) => walk (assoc key m) path | _ => None end
  end.
Definition checkCondition (r : resource) (c : WaitCondition) : bool :=
  match split_on (Ascii.ascii_of_nat 46) (wc_Field c) with
  | "metadata" :: rest => match rest with "name" :: _ => bool_decide (r_name r = wc_Value c) | _ => false end
  | root :: rest =>
      let start := if decide (root = "status") then Some (VMap (fields (r_status r)))
                   else if decide (root = "spec") then Some (VMap (fields (r_spec r))) else None in
      match start with
      | None => false
      | Some v =>
          match walk (Some v) rest with
          | Some (Some (VStr s)) => bool_decide (s = wc_Value c)
          | Some (Some (VBool b)) => bool_decide ((if b then "true" else "false") = wc_Value c)
          | Some (Some (VInt z)) => bool_decide (pretty z = wc_Value c)
          | Some (Some (VFloat f)) => bool_decide (float_v f = wc_Value c)
          | _ => false
          end
      end
  | [] => false
  end.

Definition get_request (resourceType name : string) (cfg : ProviderConfig) : Request :=
  MkRequest ActionGet resourceType name None [] cfg [] "".

(** [waitForCondition] *)
Fixpoint wait_loop (n : nat) (p : plugin) (req : Request) (c : WaitCondition) : D unit :=
  match n with
  | 0 => Fail (ErrWaitTimeout (wc_Field c) (wc_Value c))
  | S n =>
      a ← call Tick;
      match a with
      | Ticked =>
          r ← try (F := plugin_error) (Execute p req);
          match r with
          | Ok resp => match rs_Resource resp with
                       | Some res => if checkCondition res c then Ret tt else wait_loop n p req c
                       | None => wait_loop n p req c
                       end
          | Err _ => wait_loop n p req c
          end
      | Cancelled | Replied _ => Fail ErrCancelled
      end
  end.
Definition waitForCondition (provider resourceType name : string) (c : WaitCondition) : D unit :=
  p ← find provider; cfg ← lift (map_err ErrConfig (provider_config provider));
  wait_loop (polls (if decide (wc_Timeout c = 0%Z) then 300 else wc_Timeout c)) p (get_request resourceType name cfg) c.

(** [executeDispatch] *)
Definition failed (id message : string) : DispatchResult :=
  MkResult id StatusError None (Some (MkError ErrorCodeInternal message)).
Definition result_of (id : string) (resp : Response) : DispatchResult :=
  if decide (rs_Status resp = StatusError) then MkResult id (rs_Status resp) None (rs_Error resp)
  else MkResult id (rs_Status resp)
    (match rs_Resource resp with Some r => Some r | None => head (rs_Resources resp) end) None.
Definition target_name (req : DispatchRequest) : string :=
  if decide (dr_ResourceName req = "") then match dr_Manifest req with Some m => r_name m | None => "" end else dr_ResourceName req.
Definition await (p : plugin) (cfg : ProviderConfig) (req : DispatchRequest) (c : WaitCondition) (result : DispatchResult) : D DispatchResult :=
  let name := target_name req in
  if decide (name = "") then Ret (failed (dr_ID req) "cannot wait for condition: no resource name")
  else
    w ← try (F := plugin_error) (waitForCondition (dr_Provider req) (dr_ResourceType req) name c);
    match w with
    | Err e => Ret (failed (dr_ID req) ("wait condition failed: " +:+ err_text e))
    | Ok _ =>
        r ← try (F := plugin_error) (Execute p (get_request (dr_ResourceType req) name cfg));
        match r with
        | Ok resp => match rs_Resource resp with
                     | Some res => Ret (MkResult (ds_ID result) (ds_Status result) (Some res) (ds_Error result))
                     | None => Ret result
                     end
        | Err _ => Ret result
        end
    end.
Definition executeDispatch (req : DispatchRequest) : D DispatchResult :=
  p ← find (dr_Provider req); cfg ← lift (map_err ErrConfig (provider_config (dr_Provider req)));
  resp ← Execute p (MkRequest (dr_Action req) (dr_ResourceType req) (dr_ResourceName req) (dr_Manifest req) [] cfg [] "");
  let result := result_of (dr_ID req) resp in
  match dr_WaitFor req with
  | Some c => if decide (ds_Status result = StatusSuccess) then await p cfg req c result else Ret result
  | None => Ret result
  end.

(** [executeDispatches]: a request that fails is a failed result. *)
Fixpoint executeDispatches (reqs : list DispatchRequest) : D (list DispatchResult) :=
  match reqs with
  | [] => Ret []
  | req :: reqs =>
      r ← try (F := plugin_error) (executeDispatch req);
      rest ← executeDispatches reqs;
      Ret (match r with Ok res => res | Err e => failed (dr_ID req) (err_text e) end :: rest)
  end.

(** The loop of [ExecuteWithDispatch]: the plugin is called again with what the others
    answered, as long as it asks for something and gives a token. [rounds] bounds the
    calls. *)
Definition continued (req : Request) (results : list DispatchResult) (token : string) : Request :=
  MkRequest (rq_Action req) (rq_ResourceType req) (rq_ResourceName req) (rq_Manifest req) (rq_Args req) (rq_Config req) results token.
Fixpoint dispatch_loop (rounds : nat) (p : plugin) (req : Request) (resp : Response) : D Response :=
  match rs_DispatchRequests resp, rs_Continuation resp with
  | _ :: _, Some token =>
      match rounds with
      | 0 => Fail ErrRounds
      | S rounds =>
          results ← executeDispatches (rs_DispatchRequests resp);
          let req := continued req results token in
          resp ← Execute p req;
          dispatch_loop rounds p req resp
      end
  | _, _ => Ret resp
  end.

(** [ExecuteWithDispatch]: only the state update of the last response is carried out,
    and its failure is not reported. *)
Definition ExecuteWithDispatch (rounds : nat) (name : string) (req : Request) : D Response :=
  p ← find name;
  resp ← Execute p req;
  resp ← dispatch_loop rounds p req resp;
  match rs_StateUpdate resp with
  | Some u => _ ← call (Update u); Ret resp
  | None => Ret resp
  end.
End dispatcher.
