(* ===== verification/K3sInstall.v ===== *)
(** Creating and deleting a K3s cluster from the command line: src/pkg/k3s/cluster
    (create.go, delete.go). The machines are requests to another plugin; installing
    k3s on them is a program over ssh, certificates and local files. *)
From S2P Require Import Prelude GoStrings GoPath GoValue ClusterSpec ClusterPlan Effects Config Plugin.

(** ** Requests for machines *)

Inductive k3s_error : Type :=
| NilStaticIPs
| ErrNoControlPlane
| ErrHome
| ErrGenerate
| ErrWriteBundle
| ErrNoIP (node : string)
| ErrConnect (node : string)
| ErrInstall (node : string)
| ErrToken
| ErrKubeconfig
| ErrNoCert (node : string)
| ErrInstallAgent (node : string)
| ErrSaveKubeconfig
| ErrUnreachable (node ip : string).

(** [Creator] *)
Record Creator : Type := MkCreator { cr_name : string; cr_spec : ClusterSpec; cr_config : ProviderConfig; cr_nodeIPs : list (string * string) }.

(** [NewCreator]: an error of the allocation is dropped, and so are the addresses. *)
Definition NewCreator (name : string) (spec : ClusterSpec) (config : ProviderConfig) : Creator :=
  MkCreator name spec config (plan_ips name spec).

(** The spec of a machine before its hardware, placement and image. *)
Definition static_config (spec : ClusterSpec) (ip : option string) : result k3s_error value :=
  if decide (default "" ip ≠ "") then
    match net_StaticIPs (Network spec) with
    | None => Err NilStaticIPs
    | Some s => Ok (VMap [("net0", VMap [("ip", VStr (default "" ip +:+ "/" +:+ Netmask s)); ("gateway", VStr (Gateway s))])])
    end
  else Ok (VMap [("net0", VMap [("ip", VStr "dhcp")])]).
Definition machine_literal (spec : ClusterSpec) (size : DefaultSizeSpec) (ip_config : value) : gomap :=
  [("startOnCreate", VBool true);
   ("agent", VMap [("enabled", VBool true)]);
   ("cpu", VMap [("cores", VInt (CPUs size))]);
   ("memory", VMap [("size", VInt (MemoryMB size))]);
   ("disks", VList [VMap [("name", VStr "scsi0"); ("size", VStr (pretty (DiskGB size) +:+ "G"))]]);
   ("networks", VList [VMap [("name", VStr "net0"); ("bridge", VStr (net_Bridge (Network spec))); ("model", VStr "virtio")]]);
   ("cloudInit", VMap [("user", VStr (User (SSH spec))); ("sshKeys", strings (PublicKeys (SSH spec))); ("ipConfig", ip_config)])].
Definition place (t : PlacementTarget) (s : gomap) : gomap :=
  set_if (nonempty (t_Node t)) "node" (VStr (t_Node t)) (set_if (nonempty (t_Context t)) "context" (VStr (t_Context t)) s).
Definition image_source (img : ImageSpec) (defaults : gmap string string) (s : gomap) : gomap :=
  if nonempty (URL img) then
    let storage := if nonempty (Storage img) then Storage img else default "" (defaults !! "storage") in
    assoc_set "cloudImage" (VMap (set_if (nonempty (DiskStorage img)) "diskStorage" (VStr (DiskStorage img))
      (set_if (nonempty storage) "storage" (VStr storage) [("url", VStr (URL img))]))) s
  else set_if (nonempty (Template img)) "template" (VMap [("name", VStr (Template img))]) s.

(** [nodeRole] *)
Definition nodeRole (index cpCount : Z) : string := if (index <? cpCount)%Z then "control-plane" else "worker".

(** The body of the loop of [GenerateDispatchRequests]. *)
Definition machine_request (c : Creator) (cpCount : Z) (placement : list (string * PlacementTarget)) (i : Z) (node : string) :
    result k3s_error DispatchRequest :=
  let spec := cr_spec c in
  ip_config ← static_config spec (assoc node (cr_nodeIPs c));
  let s := machine_literal spec (sizeForNode i cpCount spec) ip_config in
  let s := ApplyNodePrepToVMSpec (ApplyGPUToVMSpec s (GPUForNode i cpCount spec)) (NodePrepForNode i cpCount spec) in
  let s := place (default (MkTarget "" "") (assoc node placement)) s in
  let s := image_source (c_Image (Compute spec)) (pc_Defaults (cr_config c)) s in
  Ok (MkDispatch ("vm-" +:+ node) (c_Provider (Compute spec)) ActionCreate "VirtualMachine" ""
    (Some (Resource (providerVersion spec) "VirtualMachine"
      (ResourceMetadata node "" [("k3s.openctl.io/cluster", cr_name c); ("k3s.openctl.io/role", nodeRole i cpCount)] [] "" "")
      (Some s) None))
    (Some (MkWait "status.state" "running" 600))).

(** [GenerateDispatchRequests] *)
Definition GenerateDispatchRequests (c : Creator) : result k3s_error (list DispatchRequest) :=
  let cpCount := Z.of_nat (length (NodeNames (cr_name c) (cr_spec c)).1) in
  mapR (λ p, machine_request c cpCount (PlacementTargets (cr_name c) (cr_spec c)) (Z.of_nat p.1) p.2)
    (imap pair (all_nodes (cr_name c) (cr_spec c))).

(** [Deleter]: its requests, and what counts as a failure. *)
Definition delete_requests (name : string) (spec : ClusterSpec) : list DispatchRequest :=
  map (λ node, MkDispatch ("vm-" +:+ node) (c_Provider (Compute spec)) ActionDelete "VirtualMachine" node None None) (all_nodes name spec).
Definition ValidateResults (results : list DispatchResult) : list string :=
  omap (λ r,
    if decide (ds_Status r = StatusSuccess) then None
    else match ds_Error r with
    | Some e => if decide (er_Code e = ErrorCodeNotFound) then None else Some (ds_ID r +:+ ": " +:+ er_Message e)
    | None => None
    end) results.

(** ** Installing *)

Inductive kquery : Type :=
| GenerateBundle (cluster : string) (ids : list (string * string))
| WriteBundle (dir : string)
| WaitForSSH (host user key : string) (seconds : Z)
| RunSudo (host command : string)
| Pause (seconds : Z)
| InstallAgent (host node : string)
| AgentInfo (host : string) (port : Z)
| WriteFile (path content : string).
Inductive kanswer : Type := Done | Output (text : string) | Failed.

Abbreviation K := (prog kquery kanswer k3s_error).

Definition step (q : kquery) (e : k3s_error) : K unit :=
  a ← call q; match a with Failed => Fail e | _ => Ret tt end.
Definition output (q : kquery) (e : k3s_error) : K string :=
  a ← call q; match a with Output text => Ret text | Done => Ret "" | Failed => Fail e end.

Definition agent_port : Z := 9443.

Section install.
Context (home : option string) (polls : Z → nat).

(** [bundleDir], [saveKubeconfig] *)
Definition under_home (parts : list string) : K string :=
  match home with Some h => Ret (Join (h :: ".openctl" :: parts)) | None => Fail ErrHome end.
Definition saveKubeconfig (name kubeconfig : string) : K string :=
  dir ← under_home ["k3s"; name]; let path := Join [dir; "kubeconfig"] in
  _ ← step (WriteFile path kubeconfig) ErrSaveKubeconfig; Ret path.

(** [generateAndSaveCerts]: the nodes that have a certificate, and the directory. *)
Definition generateAndSaveCerts (name : string) (nodeIPs : list (string * string)) : K (list string * string) :=
  let ids := sort_entries nodeIPs in
  _ ← step (GenerateBundle name ids) ErrGenerate;
  dir ← under_home ["state"; "k3s"; name];
  _ ← step (WriteBundle dir) ErrWriteBundle; Ret (ids.*1, dir).

(** [installAgentOn] *)
Definition installAgentOn (certs : list string) (host node : string) : K unit :=
  if decide (node ∈ certs) then step (InstallAgent host node) (ErrInstallAgent node) else Fail (ErrNoCert node).

(** [pollAgentInfo], [verifyAgentsReachable] *)
Fixpoint poll_agent (n : nat) (node host : string) (port : Z) : K unit :=
  match n with
  | 0 => Fail (ErrUnreachable node host)
  | S n => a ← call (AgentInfo host port);
           match a with Failed => _ ← call (Pause 2); poll_agent n node host port | _ => Ret tt end
  end.
Definition verifyAgentsReachable (nodeIPs : list (string * string)) (port : Z) : K unit :=
  forP_ (λ p, poll_agent (polls 30) p.1 p.2 port) nodeIPs.

(** The commands. *)
Definition version_env (k : K3sSpec) : list string :=
  if nonempty (Version k) then ["INSTALL_K3S_VERSION=" +:+ Version k] else [].
Definition get_k3s : string := "curl -sfL https://get.k3s.io | ".
Definition flag_arg (flag v : string) : list string := if nonempty v then [flag +:+ v] else [].
Definition buildServerInstallCommand (k : K3sSpec) : string :=
  let args := (flag_arg "--cluster-cidr=" (ClusterCIDR k) ++ flag_arg "--service-cidr=" (ServiceCIDR k) ++ ExtraArgs k)%list in
  get_k3s +:+ (match version_env k with [] => "" | env => join " " env +:+ " " end) +:+ "sh -s -" +:+
  (match args with [] => "" | _ => " " +:+ join " " args end).
Definition join_env (k : K3sSpec) (serverIP token : string) : list string :=
  (version_env k ++ ["K3S_TOKEN=" +:+ token; "K3S_URL=https://" +:+ serverIP +:+ ":6443"])%list.
Definition buildServerJoinCommand (k : K3sSpec) (serverIP token : string) : string :=
  get_k3s +:+ join " " (join_env k serverIP token) +:+ " sh -s - server".
Definition buildAgentInstallCommand (k : K3sSpec) (serverIP token : string) : string :=
  get_k3s +:+ join " " (join_env k serverIP token) +:+ " sh -s -".

Record InstallResult : Type := MkInstallResult {
  ir_KubeconfigPath : string; ir_ServerIP : string; ir_Token : string; ir_AgentBundleDir : string;
  ir_AgentEndpoints : list (string * string); ir_AgentPort : Z }.

(** One node: its address, a connection, a command, the agent. *)
Definition address (nodeIPs : list (string * string)) (node : string) : K string :=
  let ip := default "" (assoc node nodeIPs) in if decide (ip = "") then Fail (ErrNoIP node) else Ret ip.
Definition connect (ssh : SSHSpec) (node ip : string) : K unit :=
  step (WaitForSSH ip (User ssh) (PrivateKeyPath ssh) 300) (ErrConnect node).
Definition join_node (ssh : SSHSpec) (certs : list string) (nodeIPs : list (string * string)) (command node : string) : K unit :=
  ip ← address nodeIPs node;
  _ ← connect ssh node ip;
  _ ← step (RunSudo ip command) (ErrInstall node);
  installAgentOn certs ip node.

(** [InstallK3s] *)
Definition node_token : string := "cat /var/lib/rancher/k3s/server/node-token".
Definition cat_kubeconfig : string := "cat /etc/rancher/k3s/k3s.yaml".
Definition InstallK3s (c : Creator) (nodeIPs : list (string * string)) : K InstallResult :=
  let spec := cr_spec c in let k := K3s spec in let ssh := SSH spec in
  match NodeNames (cr_name c) spec with
  | ([], _) => Fail ErrNoControlPlane
  | (firstCP :: cps, workers) =>
      b ← generateAndSaveCerts (cr_name c) nodeIPs;
      let '(certs, dir) := b in
      ip ← address nodeIPs firstCP;
      _ ← connect ssh firstCP ip;
      _ ← step (RunSudo ip (buildServerInstallCommand k)) (ErrInstall firstCP);
      _ ← call (Pause 30);
      token ← output (RunSudo ip node_token) ErrToken;
      let token := trim_space token in
      kubeconfig ← output (RunSudo ip cat_kubeconfig) ErrKubeconfig;
      let kubeconfig := replace_all "localhost" ip (replace_all "127.0.0.1" ip kubeconfig) in
      _ ← installAgentOn certs ip firstCP;
      _ ← forP_ (join_node ssh certs nodeIPs (buildServerJoinCommand k ip token)) cps;
      _ ← forP_ (join_node ssh certs nodeIPs (buildAgentInstallCommand k ip token)) workers;
      path ← saveKubeconfig (cr_name c) kubeconfig;
      _ ← verifyAgentsReachable nodeIPs agent_port;
      Ret (MkInstallResult path ip token dir nodeIPs agent_port)
  end.
End install.

(** ** The order of an installation *)

Abbreviation transcript := (list (kquery * kanswer)).

(** What was asked and did not fail; what was answered with a text. *)
Definition said (h : transcript) (q : kquery) : Prop := ∃ r, (q, r) ∈ h ∧ r ≠ Failed.
Definition heard (h : transcript) (q : kquery) (text : string) : Prop :=
  (q, Output text) ∈ h ∨ (text = "" ∧ (q, Done) ∈ h).

Lemma said_prefix h h' q : said h q → h `prefix_of` h' → said h' q.
Proof. intros (r & Hr & Hf) [k ->]. exists r. split; [set_solver|done]. Qed.
Lemma heard_prefix h h' q text : heard h q text → h `prefix_of` h' → heard h' q text.
Proof. intros H [k ->]. unfold heard in *. set_solver. Qed.
Lemma said_last h q r : r ≠ Failed → said (h ++ [(q, r)]) q.
Proof. intros Hr. exists r. split; [set_solver|done]. Qed.
Lemma said_app h q r q' : said h q' → said (h ++ [(q, r)]) q'.
Proof. intros H. eapply said_prefix; [done|by eexists]. Qed.
#[local] Hint Resolve said_last said_app : core.

Section steps.
Context (guar : transcript → kquery → Prop).
Local Abbreviation safely := (safe (λ _ _ _, True) guar).

Lemma safe_ask h q e (post : transcript → result k3s_error unit → Prop) :
  guar h q → (∀ r, r ≠ Failed → post (h ++ [(q, r)]) (Ok tt)) → (∀ h', h `prefix_of` h' → post h' (Err e)) →
  safely h (step q e) post.
Proof.
  intros Hg Hok Herr. unfold step. simpl. split; [done|]. intros [|text|] _; simpl; [by apply Hok..|]. apply Herr. by eexists.
Qed.

Lemma safe_output h q e (post : transcript → result k3s_error string → Prop) :
  guar h q → (∀ h' text, h `prefix_of` h' → heard h' q text → said h' q → post h' (Ok text)) → (∀ h', h `prefix_of` h' → post h' (Err e)) →
  safely h (output q e) post.
Proof.
  intros Hg Hok Herr. unfold output. simpl. split; [done|]. intros [|text|] _; simpl.
  - apply Hok; [by eexists|right; split; [done|set_solver]|by apply said_last].
  - apply Hok; [by eexists|left; set_solver|by apply said_last].
  - apply Herr. by eexists.
Qed.
End steps.

Section order.
Context (home : option string) (polls : Z → nat) (c : Creator) (ips : list (string * string)) (firstCP : string) (cps workers : list string).
Context (Hnodes : NodeNames (cr_name c) (cr_spec c) = (firstCP :: cps, workers)).
Local Abbreviation k := (K3s (cr_spec c)).
Local Abbreviation ssh := (SSH (cr_spec c)).
Local Abbreviation fip := (default "" (assoc firstCP ips)).
Local Abbreviation reach ip := (WaitForSSH ip (User ssh) (PrivateKeyPath ssh) 300).
Local Abbreviation serve := (RunSudo fip (buildServerInstallCommand k)).

(** The first server is up: its command was run, its token read, its agent installed. *)
Definition first_up (h : transcript) (token : string) : Prop :=
  said h serve ∧ (∃ text, heard h (RunSudo fip node_token) text ∧ token = trim_space text) ∧ said h (InstallAgent fip firstCP).

(** A node has joined with a command: it was reached, the command was run, its agent
    installed, at the node's own address. *)
Definition joined (h : transcript) (command node : string) : Prop :=
  ∃ ip, ip ≠ "" ∧ assoc node ips = Some ip ∧ said h (reach ip) ∧ said h (RunSudo ip command) ∧ said h (InstallAgent ip node).

(** Why a request is made. *)
Definition allowed (h : transcript) (q : kquery) : Prop :=
  match q with
  | RunSudo host command =>
      said h (reach host) ∧ host ≠ "" ∧
      ((host = fip ∧ command = buildServerInstallCommand k) ∨
       (host = fip ∧ (command = node_token ∨ command = cat_kubeconfig) ∧ said h serve) ∨
       (∃ node token, assoc node ips = Some host ∧ first_up h token ∧
          ((node ∈ cps ∧ command = buildServerJoinCommand k fip token) ∨
           (node ∈ workers ∧ command = buildAgentInstallCommand k fip token ∧
            ∀ cp, cp ∈ cps → joined h (buildServerJoinCommand k fip token) cp))))
  | InstallAgent host node => assoc node ips = Some host ∧ said h (reach host) ∧ (∃ dir, said h (WriteBundle dir))
  | WriteFile _ _ =>
      ∃ token, first_up h token ∧ (∀ cp, cp ∈ cps → joined h (buildServerJoinCommand k fip token) cp) ∧
        (∀ w, w ∈ workers → joined h (buildAgentInstallCommand k fip token) w)
  | _ => True
  end.
Local Abbreviation safely := (safe (λ _ _ _, True) allowed).

Lemma joined_prefix h h' command node : joined h command node → h `prefix_of` h' → joined h' command node.
Proof. intros (ip & Hne & Ha & H1 & H2 & H3) Hp. exists ip. split_and!; eauto using said_prefix. Qed.
Lemma first_up_prefix h h' token : first_up h token → h `prefix_of` h' → first_up h' token.
Proof. intros (H1 & (text & H2 & ->) & H3) Hp. split_and!; eauto using said_prefix, heard_prefix. Qed.

Lemma safe_address h node (post : transcript → result k3s_error string → Prop) :
  (∀ ip, assoc node ips = Some ip → ip ≠ "" → post h (Ok ip)) → post h (Err (ErrNoIP node)) → safely h (address ips node) post.
Proof.
  intros Hok Herr. unfold address. case_decide as Hip; [done|]. simpl. destruct (assoc node ips) as [ip|] eqn:Ha; [|done]. by apply Hok.
Qed.

(** One node that joins. *)
Lemma safe_join h certs command node (inv : transcript → Prop) :
  inv h → (∀ h1 h2, inv h1 → h1 `prefix_of` h2 → inv h2) → (∃ dir, said h (WriteBundle dir)) →
  (∀ h' ip, h `prefix_of` h' → assoc node ips = Some ip → ip ≠ "" → said h' (reach ip) → allowed h' (RunSudo ip command)) →
  safely h (join_node ssh certs ips command node) (λ h' r, match r with Ok _ => inv h' ∧ joined h' command node | Err _ => True end).
Proof.
  intros Hi Hmono [dir Hdir] Hcmd. unfold join_node. apply safe_bind, safe_address; [|done]. intros ip Ha Hne.
  apply safe_bind. unfold connect. apply safe_ask; [done| |done]. intros r1 Hr1. apply safe_bind. apply safe_ask; [|intros r2 Hr2|done].
  { apply Hcmd; [by eexists|done..|by apply said_last]. }
  unfold installAgentOn. case_decide; [|done]. apply safe_ask; [|intros r3 Hr3|done].
  { split_and!; [done|eauto|eauto]. }
  split; [eapply Hmono; [done|]; rewrite <- !app_assoc; by eexists|]. exists ip. split_and!; eauto.
Qed.

(** All the nodes of a list. *)
Lemma safe_joins h certs command l (inv : transcript → Prop) :
  inv h → (∀ h1 h2, inv h1 → h1 `prefix_of` h2 → inv h2) → (∃ dir, said h (WriteBundle dir)) →
  (∀ h' ip node, node ∈ l → inv h' → assoc node ips = Some ip → ip ≠ "" → said h' (reach ip) → allowed h' (RunSudo ip command)) →
  safely h (forP_ (join_node ssh certs ips command) l)
    (λ h' r, match r with Ok _ => inv h' ∧ ∀ node, node ∈ l → joined h' command node | Err _ => True end).
Proof.
  intros Hi Hmono Hdir Hcmd.
  apply (safe_mono _ _ _ _ (λ h' r, match r with
    | Ok _ => (inv h' ∧ ∃ dir, said h' (WriteBundle dir)) ∧ ∀ node, node ∈ l → joined h' command node | Err _ => True end)).
  2: { intros h' [] H; [|done]. by destruct H as [[H1 _] H2]. }
  apply (safe_forP_all _ _ (λ h', inv h' ∧ ∃ dir, said h' (WriteBundle dir)) (λ node h', joined h' command node) h _ l (λ _ _, True)); [done| |].
  { intros node h1 h2. apply joined_prefix. }
  intros h' node Hin [Hi' Hdir']. apply (safe_mono _ _ _ _ (λ h'' r, match r with
    | Ok _ => (inv h'' ∧ ∃ dir, said h'' (WriteBundle dir)) ∧ joined h'' command node | Err _ => True end)); [|by intros ? []].
  apply (safe_join h' certs command node (λ h'', inv h'' ∧ ∃ dir, said h'' (WriteBundle dir))); [done| |done|].
  - intros h1 h2 [H1 [dir Hd]] Hp. split; [by eapply Hmono|]. exists dir. by eapply said_prefix.
  - intros h'' ip Hp Ha Hne Hr. apply (Hcmd h'' ip node); try done. by eapply Hmono.
Qed.

(** What a success means. *)
Definition installed (h : transcript) (res : InstallResult) : Prop :=
  first_up h (ir_Token res) ∧ ir_ServerIP res = fip ∧
  (∀ cp, cp ∈ cps → joined h (buildServerJoinCommand k fip (ir_Token res)) cp) ∧
  (∀ w, w ∈ workers → joined h (buildAgentInstallCommand k fip (ir_Token res)) w) ∧
  (∃ text, heard h (RunSudo fip cat_kubeconfig) text ∧
    said h (WriteFile (ir_KubeconfigPath res) (replace_all "localhost" fip (replace_all "127.0.0.1" fip text)))).

(** Waiting for the agents asks them only. *)
Lemma safe_verify h : safely h (verifyAgentsReachable polls ips agent_port) (λ h' _, h `prefix_of` h').
Proof.
  eapply safe_mono; [apply safe_prefix|by intros h' x [_ Hp]].
  apply (asks_safe (λ q, match q with AgentInfo _ _ | Pause _ => True | _ => False end)).
  - apply asks_forP. intros [node host]. simpl. induction (polls 30) as [|n IH]; [done|]. simpl. split; [done|]. by intros [].
  - by intros h' [].
Qed.

(** The end of an installation. *)
Lemma safe_finish h token text dir :
  first_up h token → heard h (RunSudo fip cat_kubeconfig) text →
  (∀ cp, cp ∈ cps → joined h (buildServerJoinCommand k fip token) cp) →
  (∀ w, w ∈ workers → joined h (buildAgentInstallCommand k fip token) w) →
  safely h (path ← saveKubeconfig home (cr_name c) (replace_all "localhost" fip (replace_all "127.0.0.1" fip text));
            _ ← verifyAgentsReachable polls ips agent_port;
            Ret (MkInstallResult path fip token dir ips agent_port))
    (λ h' r, match r with Ok res => installed h' res | Err _ => True end).
Proof.
  intros Hfirst Htext Hcps Hws. unfold saveKubeconfig, under_home. destruct home as [hd|]; [|done].
  apply safe_bind, safe_bind, safe_ret, safe_bind, safe_ask; [by exists token| |done]. intros r Hr. apply safe_ret, safe_bind.
  eapply safe_mono; [apply safe_verify|]. intros h' [[]|e] Hp; [|done]. simpl.
  assert (h `prefix_of` h') as Hp' by (etrans; [|exact Hp]; by eexists).
  split_and!; [by eapply first_up_prefix|done|intros; by eapply joined_prefix; [apply Hcps|]|intros; by eapply joined_prefix; [apply Hws|]|].
  exists text. split; [by eapply heard_prefix|]. eapply said_prefix; [|exact Hp]. by apply said_last.
Qed.

Lemma safe_install : safely [] (InstallK3s home polls c ips) (λ h r, match r with Ok res => installed h res | Err _ => True end).
Proof.
  unfold InstallK3s. rewrite Hnodes. apply safe_bind. unfold generateAndSaveCerts.
  apply safe_bind, safe_ask; [done| |done]. intros r1 Hr1. apply safe_bind. unfold under_home. destruct home as [hd|] eqn:Hhome; [|done].
  apply safe_ret, safe_bind, safe_ask; [done| |done]. intros r2 Hr2. apply safe_ret. rewrite <- Hhome.
  set (dir := Join _). set (certs := _.*1). apply safe_bind, safe_address; [|done]. intros ip Ha Hne.
  assert (ip = fip) as Hip by by rewrite Ha. rewrite !Hip in *. clear Hip ip.
  apply safe_bind, safe_ask; [done| |done]. intros r3 Hr3. apply safe_bind, safe_ask; [|intros r4 Hr4|done].
  { split_and!; [by apply said_last|done|by left]. }
  apply safe_bind. split; [done|]. intros a5 _. apply safe_ret, safe_bind, safe_output; [|intros h6 text Hp6 Htext Hs6|done].
  { split_and!; [by eauto|done|]. right; left. split_and!; [done|by left|by eauto]. }
  apply safe_bind, safe_output; [|intros h7 kc Hp7 Hkc Hs7|done].
  { split_and!; [eapply said_prefix; [|exact Hp6]; by eauto|done|]. right; left. split_and!; [done|by right|]. eapply said_prefix; [|exact Hp6]. by eauto. }
  assert (said h7 serve ∧ said h7 (reach fip) ∧ said h7 (WriteBundle dir) ∧ heard h7 (RunSudo fip node_token) text) as (Hserve & Hreach & Hbundle & Htext').
  { split_and!; try (eapply said_prefix; [|exact Hp7]; eapply said_prefix; [|exact Hp6]; by eauto 8). by eapply heard_prefix. }
  apply safe_bind. unfold installAgentOn. case_decide; [|done]. apply safe_ask; [|intros r8 Hr8|done].
  { split_and!; [done|done|by exists dir]. }
  set (h8 := h7 ++ _). assert (h7 `prefix_of` h8) as Hp8 by by eexists.
  assert (first_up h8 (trim_space text)) as Hfirst.
  { split_and!; [by eapply said_prefix|exists text; split; [by eapply heard_prefix|done]|by apply said_last]. }
  assert (heard h8 (RunSudo fip cat_kubeconfig) kc) as Hkc8 by by eapply heard_prefix.
  assert (∃ dir, said h8 (WriteBundle dir)) as Hdir by (exists dir; by eapply said_prefix).
  clearbody h8. set (token := trim_space text) in *.
  apply safe_bind. eapply safe_mono; [apply safe_prefix, (safe_joins h8 certs _ cps (λ h, first_up h token)); [done| |done|]|].
  { intros h1 h2. apply first_up_prefix. }
  { intros h' ip node Hin Hf Hn Hipne Hr. split_and!; [done..|]. right; right. exists node, token. split_and!; [done..|]. by left. }
  intros h9 [[]|e] [H9 Hp9]; [|done]. destruct H9 as [Hf9 Hcps9].
  apply safe_bind. eapply safe_mono;
    [apply safe_prefix, (safe_joins h9 certs _ workers (λ h, first_up h token ∧ ∀ cp, cp ∈ cps → joined h (buildServerJoinCommand k fip token) cp)); [done| | |]|].
  { intros h1 h2 [H1 H2] Hp. split; [by eapply first_up_prefix|]. intros. by eapply joined_prefix; [apply H2|]. }
  { destruct Hdir as [d Hd]. exists d. by eapply said_prefix. }
  { intros h' ip node Hin [Hf Hc] Hn Hipne Hr. split_and!; [done..|]. right; right. exists node, token. split_and!; [done..|]. by right. }
  intros h10 [[]|e] [H10 Hp10]; [|done]. destruct H10 as [[Hf10 Hcps10] Hws10].
  apply safe_finish; try done. do 2 (eapply heard_prefix; [|done]). exact Hkc8.
Qed.

(** A cluster is installed in order, and a success means all of it. Whatever the nodes
    answer: a command is run on a node only over a connection to that node's own address;
    on the first server the install comes first, and its token and kubeconfig are read
    after it; a node is told to join only when the first server is up, has given the
    token that the command carries and runs its agent, a worker only when every other
    control plane has joined; the kubeconfig is written last. When the installation
    succeeds, every node of the cluster was reached, ran its command and got its agent,
    and the kubeconfig that was written is the first server's with its address. *)
Theorem InstallK3s_order t x :
  behaves (InstallK3s home polls c ips) t x →
  (∀ i q r, t !! i = Some (q, r) → allowed (take i t) q) ∧ (∀ res, x = Ok res → installed t res).
Proof.
  intros Hb. destruct (safe_sound _ _ [] _ _ t x safe_install Hb) as [H1 H2]; [by intros i q r _|]. split; [done|]. by intros res ->.
Qed.
End order.

(** One control plane and one worker. *)
Definition ex_spec : ClusterSpec := ex_cluster (ex_pool "" 1) [ex_pool "" 1] (MkNetwork "vmbr0" true None []).
Definition ex_creator : Creator := NewCreator "prod" ex_spec empty_provider_config.
Definition ex_ips : list (string * string) := [("prod-worker-0", "10.0.0.2"); ("prod-cp-0", "10.0.0.1")].
Definition ex_nodes (q : kquery) (w : unit) : kanswer * unit :=
  (match q with
   | RunSudo _ cmd => if decide (cmd = node_token) then Output "T0KEN " else if decide (cmd = cat_kubeconfig) then Output "server: 127.0.0.1" else Output ""
   | _ => Done
   end, tt).
Definition ex_install := run ex_nodes (InstallK3s (Some "/root") (λ _, 3) ex_creator ex_ips) tt.

Lemma InstallK3s_order_witness :
  ∃ res, ex_install.1.1 = Ok res ∧ ir_Token res = "T0KEN" ∧
    installed ex_creator ex_ips "prod-cp-0" [] ["prod-worker-0"] ex_install.1.2 res.
Proof.
  eexists. split; [vm_compute; reflexivity|]. split; [reflexivity|].
  apply (InstallK3s_order (Some "/root") (λ _, 3) ex_creator ex_ips "prod-cp-0" [] ["prod-worker-0"] eq_refl _ _
    (run_behaves ex_nodes (InstallK3s (Some "/root") (λ _, 3) ex_creator ex_ips) tt)). vm_compute. reflexivity.
Defined.
