(* ===== verification/K3sHandler.v ===== *)
(** The k3s command-line plugin: src/pkg/k3s/handler/handler.go. A request is answered
    from the state files and by asking the nodes; creating and deleting a cluster is a
    conversation with the dispatcher of Plugin, one call of the plugin per round. *)
From S2P Require Import Prelude GoStrings GoPath GoValue ClusterDiff ClusterConverge ClusterSpec ClusterPlan Effects Config Plugin K3sInstall.
From Corelib Require Import Floats.SpecFloat.

(** What the texts of responses say. *)
Inductive note : Type :=
| UnknownType (t : string)
| UnknownAction (action : string)
| ClusterNotFound (name : string)
| Required (field : string)
| NoEndpoints
| NodeNotFound (node : string) (nodes : list string)
| SpecifyNode (count : nat) (nodes : list string)
| Logs (text : string)
| LogsFailed (node : string)
| Restarted (node : string)
| RestartFailed (node : string)
| VersionRequired
| Upgraded (node version : string)
| UpgradeFailed (node version : string)
| CreatingVMs (count : nat) (name : string)
| CreationFailed (e : option Error)
| TimedOut (got expected : nat) (retries : Z)
| WaitingForIPs (attempt : Z)
| InstallFailed (e : k3s_error)
| Created (name kubeconfig : string)
| DeletingVMs (count : nat) (name : string)
| DeletionFailed (errors : list string)
| Deleted (name : string)
| PhaseText (text : string).

(** ** Agents *)

Record AgentInfo : Type := MkAgentInfo {
  ai_K3sStatus : string; ai_AgentVersion : string; ai_Arch : string; ai_Init : string; ai_Distro : string; ai_Kernel : string;
  ai_Capabilities : list (string * string) }.
(** [NodeStatus] of a probe; the information of a node that answered, or the error. *)
Record NodeStatus : Type := MkNodeStatus { nd_Name : string; nd_IP : string; nd_Info : result string AgentInfo }.
Record ProbeOptions : Type := MkProbe { po_CAPath : string; po_ClientCertPath : string; po_ClientKeyPath : string; po_Port : Z }.

(** [intField], [argInt] *)
Definition intField (m : gomap) (key : string) : Z :=
  match assoc key m with Some (VInt z) => z | Some (VFloat f) => Z_of_f64 f | _ => 0%Z end.

(** [extractAgentProbeConfig] *)
Definition string_entries (m : gomap) : list (string * string) :=
  omap (λ p, match p.2 with VStr s => Some (p.1, s) | _ => None end) m.
Definition extractAgentProbeConfig (status : gomap) : option (list (string * string) * ProbeOptions) :=
  outputs ← map_field "outputs" status; agent ← map_field "agent" outputs;
  let opts := MkProbe (str_field "caPath" agent) (str_field "clientCertPath" agent) (str_field "clientKeyPath" agent) (intField agent "port") in
  if decide (po_CAPath opts = "" ∨ po_ClientCertPath opts = "" ∨ po_ClientKeyPath opts = "") then None
  else endpoints ← map_field "endpoints" agent;
       match string_entries endpoints with [] => None | l => Some (l, opts) end.

(** ** Effects of the plugin *)

Inductive hquery : Type :=
| Install (q : kquery)
| Probe (opts : ProbeOptions) (endpoints : list (string * string))
| FetchLogs (opts : ProbeOptions) (ip : string) (lines : Z)
| RestartNode (opts : ProbeOptions) (ip : string)
| UpgradeNode (opts : ProbeOptions) (ip version : string)
| Cleanup (dir : string).
Inductive hanswer : Type :=
| Installed (a : kanswer)
| Probed (r : result string (list NodeStatus))
| Text (s : string)
| Ok_
| NoClient
| Failed_.

Inductive handler_error : Type :=
| ErrNoHome
| ErrStateFile (name : string)
| NilPointer
| ErrAgentClient.

Abbreviation H := (prog hquery hanswer handler_error).

(** The steps of an installation, among those of the plugin. *)
Fixpoint installing {A} (p : K A) : H (result k3s_error A) :=
  match p with
  | Ret a => Ret (Ok a)
  | Fail e => Ret (Err e)
  | Call q k => Call (Install q) (λ a, installing (k (match a with Installed a => a | _ => Failed end)))
  end.

Section handler.
Context (home : option string) (polls : Z → nat) (text : note → string) (agent_version : string).

Definition respond (status message : string) (error : option Error) (update : option StateUpdate) : Response :=
  MkResponse status None [] message error update [] None.
Definition success (n : note) : Response := respond StatusSuccess (text n) None None.
Definition refuse (code : string) (n : note) : Response := respond StatusError "" (Some (MkError code (text n))) None.

(** ** Reading clusters *)

(** [setStatusField] *)
Definition setStatusField (r : resource) (key : string) (v : value) : resource :=
  Resource (r_apiVersion r) (r_kind r) (r_metadata r) (r_spec r) (Some (assoc_set key v (fields (r_status r)))).

(** [augmentLiveStatus] *)
Definition node_entry (n : NodeStatus) : value :=
  VMap ([("name", VStr (nd_Name n)); ("ip", VStr (nd_IP n)); ("reachable", VBool (is_ok (nd_Info n)))] ++
    match nd_Info n with
    | Ok i => [("k3sStatus", VStr (ai_K3sStatus i)); ("agentVersion", VStr (ai_AgentVersion i)); ("arch", VStr (ai_Arch i));
               ("init", VStr (ai_Init i)); ("distro", VStr (ai_Distro i)); ("kernel", VStr (ai_Kernel i));
               ("capabilities", VMap (map (λ p, (p.1, VStr p.2)) (ai_Capabilities i)))]
    | Err e => [("error", VStr e)]
    end).
Definition reachable (l : list NodeStatus) : nat := length (filter (λ n, is_ok (nd_Info n) = true) l).
Definition health (l : list NodeStatus) : string :=
  if decide (reachable l = 0) then "down" else if decide (reachable l < length l) then "degraded" else "healthy".
Definition skews (l : list NodeStatus) : list value :=
  omap (λ n, match nd_Info n with
    | Ok i => if decide (ai_AgentVersion i = agent_version) then None else Some (VStr (nd_Name n +:+ " (" +:+ ai_AgentVersion i +:+ ")"))
    | Err _ => None end) l.
Definition with_health (r : resource) (l : list NodeStatus) : resource :=
  let r := setStatusField r "nodes" (VList (map node_entry l)) in
  let r := setStatusField r "health" (VStr (health l)) in
  let r := setStatusField r "healthMessage" (VStr (pretty (reachable l) +:+ "/" +:+ pretty (length l) +:+ " nodes reachable")) in
  match skews l with
  | [] => r
  | s => setStatusField (setStatusField r "agentVersionSkew" (VList s)) "expectedAgentVersion" (VStr agent_version)
  end.
Definition augmentLiveStatus (r : resource) (status : gomap) : H resource :=
  match extractAgentProbeConfig status with
  | None => Ret r
  | Some (endpoints, opts) =>
      a ← call (Probe opts endpoints);
      match a with
      | Probed (Ok l) => Ret (with_health r l)
      | Probed (Err e) =>
          Ret (setStatusField (setStatusField r "health" (VStr "unknown")) "healthMessage" (VStr ("agent probe failed: " +:+ e)))
      | _ => Ret (setStatusField (setStatusField r "health" (VStr "unknown")) "healthMessage" (VStr "agent probe failed: "))
      end
  end.

(** The state files of the plugin by cluster, in directory order where listed. *)
Definition cluster_resource (name : string) (spec status : option gomap) : resource :=
  Resource "k3s.openctl.io/v1" "Cluster" (ResourceMetadata name "" [] [] "" "") spec status.
Definition need_home : H unit := match home with Some _ => Ret tt | None => Fail ErrNoHome end.

(** [listClusters] *)
Fixpoint list_entries (entries : list (string * option gomap)) : H (list resource) :=
  match entries with
  | [] => Ret []
  | (name, None) :: entries => list_entries entries
  | (name, Some state) :: entries =>
      let status := default [] (map_field "status" state) in
      r ← augmentLiveStatus (cluster_resource name None (Some status)) status;
      rest ← list_entries entries; Ret (r :: rest)
  end.
Definition listClusters (entries : list (string * option gomap)) : H Response :=
  _ ← need_home; l ← list_entries entries; Ret (MkResponse StatusSuccess None l "" None None [] None).

(** [getCluster] *)
Definition read_state (files : store) (name : string) : H (option gomap) :=
  _ ← need_home;
  match files !! ("k3s", name) with None => Ret None | Some None => Fail (ErrStateFile name) | Some (Some doc) => Ret (Some doc) end.
Definition getCluster (files : store) (name : string) : H Response :=
  o ← read_state files name;
  match o with
  | None => Ret (refuse ErrorCodeNotFound (ClusterNotFound name))
  | Some doc =>
      r ← augmentLiveStatus (cluster_resource name (map_field "spec" doc) (map_field "status" doc)) (fields (map_field "status" doc));
      Ret (MkResponse StatusSuccess (Some r) [] "" None None [] None)
  end.

(** ** Commands on one node *)

(** [loadClusterStatus], [selectEndpoint], [agentClientForNode] *)
Definition loadClusterStatus (files : store) (name : string) : H (result Response gomap) :=
  if decide (name = "") then Ret (Err (refuse ErrorCodeInvalidRequest (Required "cluster name")))
  else
    o ← read_state files name;
    Ret (match o with None => Err (refuse ErrorCodeNotFound (ClusterNotFound name)) | Some doc => Ok (fields (map_field "status" doc)) end).
Definition selectEndpoint (endpoints : list (string * string)) (node : string) : result Response (string * string) :=
  if decide (node ≠ "") then
    match assoc node endpoints with
    | Some ip => Ok (node, ip)
    | None => Err (refuse ErrorCodeNotFound (NodeNotFound node (sort_strings endpoints.*1)))
    end
  else match endpoints with
  | [p] => Ok p
  | _ => Err (refuse ErrorCodeInvalidRequest (SpecifyNode (length endpoints) (sort_strings endpoints.*1)))
  end.
Definition agentClientForNode (status : gomap) (node : string) : result Response (ProbeOptions * string * string) :=
  match extractAgentProbeConfig status with
  | None => Err (refuse ErrorCodeInvalidRequest NoEndpoints)
  | Some (endpoints, opts) => p ← selectEndpoint endpoints node; Ok (opts, p.1, p.2)
  end.

(** [handleLogs], [handleRestart], [handleUpgrade] *)
Definition on_node (files : store) (args : gomap) (ask : ProbeOptions → string → hquery) (good : string → hanswer → option Response)
    (bad : string → note) : H Response :=
  s ← loadClusterStatus files (str_field "cluster" args);
  match s ≫= λ status, agentClientForNode status (str_field "node" args) with
  | Err r => Ret r
  | Ok (opts, node, ip) =>
      a ← call (ask opts ip);
      match a with
      | NoClient => Fail ErrAgentClient
      | _ => Ret (default (refuse ErrorCodeInternal (bad node)) (good node a))
      end
  end.
Definition handleLogs (files : store) (args : gomap) : H Response :=
  on_node files args (λ opts ip, FetchLogs opts ip (intField args "lines"))
    (λ _ a, match a with Text logs => Some (success (Logs logs)) | _ => None end) LogsFailed.
Definition handleRestart (files : store) (args : gomap) : H Response :=
  on_node files args RestartNode (λ node a, match a with Ok_ => Some (success (Restarted node)) | _ => None end) RestartFailed.
Definition handleUpgrade (files : store) (args : gomap) : H Response :=
  let version := str_field "to" args in
  if decide (version = "") then Ret (refuse ErrorCodeInvalidRequest VersionRequired)
  else on_node files args (λ opts ip, UpgradeNode opts ip version)
    (λ node a, match a with Ok_ => Some (success (Upgraded node version)) | _ => None end) (λ node, UpgradeFailed node version).

(** ** Creating a cluster *)

Definition state_update (name : string) (spec : gomap) (phase : string) (message : note) (outputs : gomap) (children : list childRef) :
    StateUpdate :=
  MkStateUpdate "save" "k3s" name
    (Some (MkStateData "k3s.openctl.io/v1" "Cluster" spec (Some (MkStateStatus phase (text message) outputs)) children)).

(** [extractNodeName], [deduplicateChildren] *)
Definition extractNodeName (id : string) : string :=
  if has_prefix "vm-" id then trim_prefix "vm-" id else if has_prefix "ip-" id then trim_prefix "ip-" id else id.
Fixpoint dedup_from (seen : list string) (l : list childRef) : list childRef :=
  match l with
  | [] => []
  | c :: l =>
      let key := cr_Provider c +:+ "/" +:+ cr_Kind c +:+ "/" +:+ cr_Name c in
      if decide (key ∈ seen) then dedup_from seen l else c :: dedup_from (key :: seen) l
  end.
Definition deduplicateChildren (l : list childRef) : list childRef := dedup_from [] l.

Definition maxIPRetries : Z := 60.
(** The count in a token; [fmt.Sscanf] leaves zero when it does not parse. *)
Definition retry_count (token : string) : Z :=
  match cut_prefix "get-ips:" token with
  | Some rest => match scan_int rest with Some (n, _) => n | None => 0%Z end
  | None => 0%Z
  end.

(** The loop over the results: the failure of a machine, or the children and addresses. *)
Definition address_of (staticIPs : list (string * string)) (node : string) (r : option resource) : option string :=
  if decide (default "" (assoc node staticIPs) ≠ "") then assoc node staticIPs
  else match r ≫= r_status with
  | Some status => let ip := str_field "ip" status in if decide (ip = "") then None else Some ip
  | None => None
  end.
Fixpoint collect (provider : string) (staticIPs : list (string * string)) (results : list DispatchResult)
    (ips : list (string * string)) (children : list childRef) : result (option Error) (list (string * string) * list childRef) :=
  match results with
  | [] => Ok (ips, children)
  | r :: results =>
      if decide (ds_Status r ≠ StatusSuccess) then Err (ds_Error r)
      else
        let node := extractNodeName (ds_ID r) in
        if decide (node = "") then collect provider staticIPs results ips children
        else
          let ips := match address_of staticIPs node (ds_Resource r) with Some ip => assoc_set node ip ips | None => ips end in
          collect provider staticIPs results ips (children ++ [MkChildRef provider "VirtualMachine" node])
  end.
(** What static addresses fill in when some are missing. *)
Definition fill (staticIPs : list (string * string)) (nodes : list string) (ips : list (string * string)) : list (string * string) :=
  if decide (length ips < length nodes) then
    fold_left (λ ips n, match assoc n ips with
      | Some _ => ips
      | None => match assoc n staticIPs with Some ip => assoc_set n ip ips | None => ips end
      end) nodes ips
  else ips.

(** [installK3sOnCluster] *)
Definition agent_outputs (r : InstallResult) : gomap :=
  [("kubeconfigPath", VStr (ir_KubeconfigPath r)); ("serverIP", VStr (ir_ServerIP r))] ++
  (if decide (ir_AgentBundleDir r = "") then []
   else let dir := ir_AgentBundleDir r in
     [("agent", VMap [("bundleDir", VStr dir); ("caPath", VStr (Join [dir; "ca.pem"])); ("clientCertPath", VStr (Join [dir; "client.pem"]));
                      ("clientKeyPath", VStr (Join [dir; "client.key"])); ("port", VInt (ir_AgentPort r));
                      ("endpoints", VMap (map (λ p, (p.1, VStr p.2)) (ir_AgentEndpoints r)))])]).
Definition fail_creation (name : string) (n : note) (children : list childRef) : Response :=
  respond StatusError "" (Some (MkError ErrorCodeInternal (text n))) (Some (state_update name [] "Failed" n [] children)).
Definition installK3sOnCluster (name : string) (spec : ClusterSpec) (config : ProviderConfig) (ips : list (string * string))
    (children : list childRef) : H Response :=
  r ← installing (InstallK3s home polls (NewCreator name spec config) ips);
  Ret (match r with
    | Err e => fail_creation name (InstallFailed e) children
    | Ok res => respond StatusSuccess (text (Created name (ir_KubeconfigPath res))) None
        (Some (state_update name [] "Ready" (PhaseText "Cluster is ready") (agent_outputs res) children))
    end).

(** [handleVMsCreated] *)
Definition ip_request (provider node : string) : DispatchRequest :=
  MkDispatch ("ip-" +:+ node) provider ActionGet "VirtualMachine" node None None.
Definition wait_response (name : string) (spec : ClusterSpec) (retries : Z) (children : list childRef) : Response :=
  let attempt := (retries + 1)%Z in
  MkResponse StatusSuccess None [] (text (WaitingForIPs attempt)) None
    (Some (state_update name [] "Creating" (WaitingForIPs attempt) [] children))
    (map (ip_request (c_Provider (Compute spec))) (all_nodes name spec)) (Some ("get-ips:" +:+ pretty attempt)).
Definition handleVMsCreated (req : Request) (name : string) (spec : ClusterSpec) : H Response :=
  let retries := retry_count (rq_ContinuationToken req) in
  let staticIPs := plan_ips name spec in
  let nodes := all_nodes name spec in
  match collect (c_Provider (Compute spec)) staticIPs (rq_DispatchResults req) [] [] with
  | Err e => Ret (respond StatusError "" (Some (MkError ErrorCodeInternal (text (CreationFailed e))))
      (Some (state_update name [] "Failed" (CreationFailed e) [] [])))
  | Ok (ips, children) =>
      let children := deduplicateChildren children in
      let ips := fill staticIPs nodes ips in
      if decide (length ips < length nodes) then
        if (maxIPRetries <=? retries)%Z then Ret (fail_creation name (TimedOut (length ips) (length nodes) retries) children)
        else Ret (wait_response name spec retries children)
      else installK3sOnCluster name spec (rq_Config req) ips children
  end.

(** [createCluster] *)
Definition with_defaults (spec : ClusterSpec) : ClusterSpec :=
  let cp := ControlPlane spec in
  let cp := if (p_Count cp <? 1)%Z then
      MkPool (p_Name cp) 1 (p_Size cp) (p_Context cp) (p_Nodes cp) (p_Targets cp) (p_GPU cp) (p_NodePrep cp) else cp in
  let ssh := SSH spec in
  MkCluster (Compute spec) cp (Workers spec) (Network spec) (K3s spec)
    (MkSSH (if decide (User ssh = "") then "ubuntu" else User ssh) (PrivateKeyPath ssh) (PublicKeys ssh)).
Definition createCluster (req : Request) (manifest : resource) : H Response :=
  let name := r_name manifest in
  let spec := ParseClusterSpec manifest in
  if decide (c_Provider (Compute spec) = "") then Ret (refuse ErrorCodeInvalidRequest (Required "spec.compute.provider"))
  else if decide (URL (c_Image (Compute spec)) = "" ∧ Template (c_Image (Compute spec)) = "") then
    Ret (refuse ErrorCodeInvalidRequest (Required "spec.compute.image.url or spec.compute.image.template"))
  else
    let spec := with_defaults spec in
    if decide (PrivateKeyPath (SSH spec) = "") then Ret (refuse ErrorCodeInvalidRequest (Required "spec.ssh.privateKeyPath"))
    else if decide (rq_ContinuationToken req = "vms-created" ∨ has_prefix "get-ips" (rq_ContinuationToken req) = true) then
      handleVMsCreated req name spec
    else match GenerateDispatchRequests (NewCreator name spec (rq_Config req)) with
    | Err _ => Fail NilPointer
    | Ok dispatches =>
        Ret (MkResponse StatusSuccess None [] (text (CreatingVMs (length dispatches) name)) None
          (Some (state_update name (fields (r_spec manifest)) "Creating" (PhaseText "Creating VMs") [] []))
          dispatches (Some "vms-created"))
    end.

(** ** Deleting a cluster *)

(** [handleVMsDeleted]; a failing clean-up is a warning. *)
Definition handleVMsDeleted (req : Request) (name : string) : H Response :=
  match ValidateResults (rq_DispatchResults req) with
  | [] =>
      _ ← (match home with Some h => call (Cleanup (Join [h; ".openctl"; "k3s"; name])) | None => Ret Ok_ end);
      Ret (respond StatusSuccess (text (Deleted name)) None (Some (MkStateUpdate "delete" "k3s" name None)))
  | errors => Ret (refuse ErrorCodeInternal (DeletionFailed errors))
  end.

(** [deleteCluster]: the spec of the state file says which machines there are. The file
    is decoded into a struct, whose fields have to fit. *)
Definition typed_state `{Yaml} (doc : gomap) : bool :=
  match assoc "spec" doc with Some (VMap _ | VNull) | None => true | _ => false end &&
  match assoc "children" doc with Some v => bool_decide (is_Some (yaml_children v)) | None => true end.
Definition deleteCluster `{Yaml} (req : Request) (files : store) : H Response :=
  let name := rq_ResourceName req in
  o ← read_state files name;
  match o with
  | None => Ret (refuse ErrorCodeNotFound (ClusterNotFound name))
  | Some doc =>
      let spec := ParseClusterSpec (cluster_resource "" (map_field "spec" doc) None) in
      if negb (typed_state doc) then Fail (ErrStateFile name)
      else if decide (rq_ContinuationToken req = "vms-deleted") then handleVMsDeleted req name
      else
        let dispatches := delete_requests name spec in
        Ret (MkResponse StatusSuccess None [] (text (DeletingVMs (length dispatches) name)) None
          (Some (state_update name [] "Deleting" (PhaseText "Deleting VMs") [] []))
          dispatches (Some "vms-deleted"))
  end.

(** ** The entry point *)

(** The state files of clusters, in the order of their file names. *)
Definition cluster_entries (files : store) : list (string * option gomap) :=
  map snd (sort_entries (map (λ e, (e.1.2 +:+ ".yaml", (e.1.2, e.2))) (filter (λ e, e.1.1 = "k3s") (map_to_list files)))).

(** [handleCluster], [Handle] *)
Definition handleCluster `{Yaml} (req : Request) (files : store) : H Response :=
  if decide (rq_Action req = ActionList) then
    listClusters (cluster_entries files)
  else if decide (rq_Action req = ActionGet) then getCluster files (rq_ResourceName req)
  else if decide (rq_Action req = ActionCreate) then
    match rq_Manifest req with Some m => createCluster req m | None => Fail NilPointer end
  else if decide (rq_Action req = ActionDelete) then deleteCluster req files
  else Ret (refuse ErrorCodeInvalidRequest (UnknownAction (rq_Action req))).
Definition Handle `{Yaml} (req : Request) (files : store) : H Response :=
  if decide (rq_Action req = "logs") then handleLogs files (rq_Args req)
  else if decide (rq_Action req = "restart") then handleRestart files (rq_Args req)
  else if decide (rq_Action req = "upgrade") then handleUpgrade files (rq_Args req)
  else if decide (rq_ResourceType req = "Cluster") then handleCluster req files
  else Ret (refuse ErrorCodeInvalidRequest (UnknownType (rq_ResourceType req))).
End handler.
