(* ===== verification/K3sCli.v ===== *)
(** The command line and the k3s plugin together: a conversation of the dispatcher
    (Plugin) whose k3s plugin is the handler of K3sHandler, run as a process that
    reads one request and writes one response (src/plugins/k3s/cmd/openctl-k3s/main.go).
    The other plugins answer as they like. *)
From S2P Require Import Prelude GoStrings GoPath GoValue ClusterDiff ClusterConverge ClusterSpec ClusterPlan Effects Config Plugin K3sInstall K3sHandler.
From Corelib Require Import Floats.SpecFloat.

(** ** The messages as JSON *)

Definition wire_map (m : gomap) : option gomap := if json_ok (VMap m) then Some (json_read_map m) else None.
Definition wire_opt {A} (f : A → option A) (o : option A) : option (option A) :=
  match o with None => Some None | Some a => Some <$> f a end.
Definition wire_dispatch (d : DispatchRequest) : option DispatchRequest :=
  m ← wire_opt json_resource (dr_Manifest d);
  Some (MkDispatch (dr_ID d) (dr_Provider d) (dr_Action d) (dr_ResourceType d) (dr_ResourceName d) m (dr_WaitFor d)).
Definition wire_result (r : DispatchResult) : option DispatchResult :=
  res ← wire_opt json_resource (ds_Resource r); Some (MkResult (ds_ID r) (ds_Status r) res (ds_Error r)).
Definition wire_status (s : StateStatus) : option StateStatus :=
  outputs ← wire_map (st_Outputs s); Some (MkStateStatus (st_Phase s) (st_Message s) outputs).
Definition wire_state (d : StateData) : option StateData :=
  spec ← wire_map (sd_Spec d); status ← wire_opt wire_status (sd_Status d);
  Some (MkStateData (sd_APIVersion d) (sd_Kind d) spec status (sd_Children d)).
Definition wire_update (u : StateUpdate) : option StateUpdate :=
  d ← wire_opt wire_state (su_State u); Some (MkStateUpdate (su_Operation u) (su_Provider u) (su_Name u) d).
Definition wire_request (r : Request) : option Request :=
  m ← wire_opt json_resource (rq_Manifest r); args ← wire_map (rq_Args r); results ← mapM wire_result (rq_DispatchResults r);
  Some (MkRequest (rq_Action r) (rq_ResourceType r) (rq_ResourceName r) m args (rq_Config r) results (rq_ContinuationToken r)).
Definition wire_response (r : Response) : option Response :=
  res ← wire_opt json_resource (rs_Resource r); l ← mapM json_resource (rs_Resources r);
  update ← wire_opt wire_update (rs_StateUpdate r); dispatches ← mapM wire_dispatch (rs_DispatchRequests r);
  Some (MkResponse (rs_Status r) res l (rs_Message r) (rs_Error r) update dispatches (rs_Continuation r)).

(** ** The process and the environment of the dispatcher *)

Section cli.
Context `{Yml : Yaml} (home : option string) (polls : Z → nat) (text : note → string) (agent_version : string).

(** [handleRequest] of the plugin's main: a response, or an error on stderr. *)
Definition handleRequest (input : Request) (files : store) : H (option Response) :=
  r ← try (F := handler_error) (Handle home polls text agent_version input files);
  Ret (match r with Ok resp => wire_response resp | Err _ => None end).

(** What running the plugin can end in: the response to the request it read, or no
    response (it failed, was killed at its deadline, or the request cannot be written). *)
Inductive k3s_replies (req : Request) (files : store) : answer → Prop :=
| k3s_response input t resp :
    wire_request req = Some input → behaves (handleRequest input files) t (Ok (Some resp)) → k3s_replies req files (Replied (Ok resp))
| k3s_no_response e : k3s_replies req files (Replied (Err e))
| k3s_cancelled : k3s_replies req files Cancelled.

(** The state files after a conversation. *)
Definition updated (now : string) (files : store) (e : query * answer) : store :=
  match e.1 with
  | Update u => match handleStateUpdate now u files with Ok files' => files' | Err _ => files end
  | _ => files
  end.
Definition store_after (now : string) (files : store) (t : list (query * answer)) : store := fold_left (updated now) t files.

(** What the dispatcher can be answered. *)
Definition environment (now : string) (files : store) (h : list (query * answer)) (q : query) (a : answer) : Prop :=
  match q with
  | Exec p req => pl_Name p = "k3s" → k3s_replies req (store_after now files h) a
  | _ => True
  end.

(** ** Deciding by running: an environment to try conversations in *)

Definition serve_k3s {W} (now : string) (nodes : hquery → W → hanswer * W)
    (others : plugin → Request → W → answer * W) (q : query) (s : store * W) : answer * (store * W) :=
  match q with
  | Exec p req =>
      if decide (pl_Name p = "k3s") then
        match wire_request req with
        | None => (Replied (Err ErrResponse), s)
        | Some input =>
            let o := run nodes (handleRequest input s.1) s.2 in
            (Replied (match o.1.1 with Ok (Some resp) => Ok resp | _ => Err (ErrExit "") end), (s.1, o.2))
        end
      else let '(a, w) := others p req s.2 in (a, (s.1, w))
  | Tick => (Ticked, s)
  | Update _ => (Ticked, (updated now s.1 (q, Ticked), s.2))
  end.

Lemma serve_k3s_kept {W} (now : string) (nodes : hquery → W → hanswer * W) (others : plugin → Request → W → answer * W) (files : store)
    (h : list (query * answer)) (s : store * W) (q : query) :
  s.1 = store_after now files h →
  environment now files h q (serve_k3s now nodes others q s).1 ∧
  (serve_k3s now nodes others q s).2.1 = store_after now files (h ++ [(q, (serve_k3s now nodes others q s).1)]).
Proof.
  intros Hs. unfold store_after. rewrite fold_left_app. fold (store_after now files h). rewrite <- Hs. destruct q as [p req| |u]; simpl; [|done|done].
  case_decide as Hp.
  - destruct (wire_request req) as [input|] eqn:Hw; [|by repeat constructor]. simpl. split; [|done]. intros _.
    pose proof (run_behaves nodes (handleRequest input s.1) s.2) as Hb. destruct (run nodes _ s.2) as [[[[resp|]|e] t] w]; simpl in *; rewrite <- Hs; econstructor; eauto.
  - destruct (others p req s.2) as [a w]. done.
Qed.
End cli.

(** ** What is asked for next *)

Section rounds.
Context `{Yml : Yaml} (home : option string) (polls : Z → nat) (text : note → string) (agent_version : string).

(** How often a plugin called with a token can ask for more. *)
Definition asks_left (action token : string) : nat :=
  if decide (action = ActionDelete) then if decide (token = "vms-deleted") then 0 else 1
  else if decide (token = "vms-created" ∨ has_prefix "get-ips" token = true) then Z.to_nat (maxIPRetries - retry_count token)
  else 61.

(** A token that is given asks for less. *)
Definition shrinks (req : Request) (token : string) : Prop :=
  (0 ≤ retry_count token)%Z ∧ asks_left (rq_Action req) token < asks_left (rq_Action req) (rq_ContinuationToken req).

Definition asking (req : Request) (resp : Response) : Prop := ∀ token, rs_Continuation resp = Some token → shrinks req token.
Definition quiet (resp : Response) : Prop := rs_Continuation resp = None.

Lemma quiet_asking req resp : quiet resp → asking req resp.
Proof. intros Hr token. by rewrite Hr. Qed.

Lemma on_node_quiet files args ask good bad :
  (∀ node a resp, good node a = Some resp → quiet resp) → ends quiet (on_node home text files args ask good bad).
Proof.
  intros Hg. unfold on_node. apply ends_bind.
  eapply ends_mono with (P := λ s, match s with Err resp => quiet resp | Ok _ => True end).
  { unfold loadClusterStatus. case_decide; [done|]. apply ends_bind, ends_any. by intros [doc|]. }
  intros s Hs. destruct (s ≫= _) as [[[opts node] ip]|resp] eqn:Hr.
  - intros [] ; simpl; try done; match goal with |- context [good ?n ?a] => destruct (good n a) eqn:Hga end; try done; by eapply Hg.
  - destruct s as [status|r0]; simpl in Hr; [|by simplify_eq]. unfold agentClientForNode in Hr.
    destruct (extractAgentProbeConfig status) as [[endpoints opts]|]; [|by simplify_eq].
    destruct (selectEndpoint text endpoints _) as [p|r0] eqn:Hsel; [by destruct p|]. simpl in Hr. simplify_eq.
    unfold selectEndpoint in Hsel. case_decide; [destruct (assoc _ endpoints)|destruct endpoints as [|? [|]]]; by simplify_eq.
Qed.

Lemma quiet_asks req (p : H Response) : ends quiet p → ends (asking req) p.
Proof. intros Hp. eapply ends_mono; [done|]. intros resp. apply quiet_asking. Qed.

Lemma retry_count_next (n : Z) : (0 ≤ n < maxIPRetries)%Z → retry_count ("get-ips:" +:+ pretty (n + 1)%Z) = (n + 1)%Z.
Proof.
  intros Hn. unfold retry_count. rewrite (proj2 (cut_prefix_Some _ _ _) eq_refl). rewrite <- (str_app_nil_r (pretty _)).
  rewrite scan_int_pretty; [done|unfold maxIPRetries, int64_max in *; lia|done].
Qed.

Lemma create_asking req m :
  rq_Action req = ActionCreate → (0 ≤ retry_count (rq_ContinuationToken req))%Z → ends (asking req) (createCluster home polls text req m).
Proof.
  intros Ha H0. unfold createCluster. repeat (case_decide; [by apply quiet_asks|]). case_decide as Hc.
  - unfold handleVMsCreated. destruct (collect _ _ _ _ _) as [[ips children]|e]; [|done].
    case_decide; [|apply ends_bind, ends_any; by intros [res|e]].
    destruct (Z.leb_spec maxIPRetries (retry_count (rq_ContinuationToken req))) as [|Hlt]; [done|]. intros token [= <-].
    unfold shrinks. rewrite retry_count_next by done. split; [lia|]. unfold asks_left. rewrite Ha, retry_count_next by done.
    rewrite decide_False by done. rewrite decide_True by by right. rewrite decide_False by done. rewrite decide_True by done. lia.
  - destruct (GenerateDispatchRequests _) as [l|e]; [|done]. intros token [= <-]. split; [done|]. unfold asks_left.
    rewrite Ha. simpl. rewrite decide_False by done. vm_compute; lia.
Qed.

Lemma delete_asking req files : rq_Action req = ActionDelete → ends (asking req) (deleteCluster home text req files).
Proof.
  intros Ha. unfold deleteCluster. apply ends_bind, ends_any. intros [doc|]; [|done].
  destruct (typed_state doc); simpl; [|done]. case_decide as Hc.
  - unfold handleVMsDeleted. destruct (ValidateResults _); [|done]. by apply ends_bind, ends_any.
  - intros token [= <-]. split; [done|]. unfold asks_left. rewrite Ha. simpl. rewrite decide_False by done. lia.
Qed.

Lemma Handle_asking req files : (0 ≤ retry_count (rq_ContinuationToken req))%Z → ends (asking req) (Handle home polls text agent_version req files).
Proof.
  intros H0. unfold Handle. case_decide; [by apply quiet_asks, on_node_quiet; intros ? [] ? ?; simplify_eq|].
  case_decide; [by apply quiet_asks, on_node_quiet; intros ? [] ? ?; simplify_eq|].
  case_decide; [unfold handleUpgrade; case_decide; [done|]; by apply quiet_asks, on_node_quiet; intros ? [] ? ?; simplify_eq|].
  case_decide; [|done]. unfold handleCluster. case_decide.
  { do 2 (apply ends_bind, ends_any; intros ?). done. }
  case_decide. { apply ends_bind, ends_any. intros [doc|]; [|done]. by apply ends_bind, ends_any. }
  case_decide; [destruct (rq_Manifest req); [by apply create_asking|done]|]. case_decide; [by apply delete_asking|done].
Qed.

(** The process answers for the request it was given. *)
Lemma wire_request_same req input : wire_request req = Some input →
  rq_Action input = rq_Action req ∧ rq_ResourceType input = rq_ResourceType req ∧ rq_ResourceName input = rq_ResourceName req ∧
  rq_ContinuationToken input = rq_ContinuationToken req ∧ wire_opt json_resource (rq_Manifest req) = Some (rq_Manifest input).
Proof.
  unfold wire_request. destruct (wire_opt json_resource _) as [m|]; [|done]. destruct (wire_map _) as [args|]; [|done]. simpl.
  destruct (mapM wire_result _) as [l|]; [|done]. by intros [= <-].
Qed.

Lemma wire_response_same resp resp' : wire_response resp = Some resp' →
  rs_Status resp' = rs_Status resp ∧ rs_Message resp' = rs_Message resp ∧ rs_Continuation resp' = rs_Continuation resp ∧
  wire_opt wire_update (rs_StateUpdate resp) = Some (rs_StateUpdate resp') ∧
  mapM wire_dispatch (rs_DispatchRequests resp) = Some (rs_DispatchRequests resp').
Proof.
  unfold wire_response. destruct (wire_opt json_resource _) as [r|]; [|done]. simpl. destruct (mapM json_resource _) as [l|]; [|done]. simpl.
  destruct (wire_opt wire_update _) as [u|]; [|done]. simpl. destruct (mapM wire_dispatch _) as [d|]; [|done]. simpl. by intros [= <-].
Qed.

(** What the handler returns is what the dispatcher reads, through the wire. *)
Lemma k3s_replies_ends (P : Response → Prop) req files resp :
  (∀ input, wire_request req = Some input → ends (λ r, ∀ r', wire_response r = Some r' → P r') (Handle home polls text agent_version input files)) →
  k3s_replies home polls text agent_version req files (Replied (Ok resp)) → P resp.
Proof.
  intros HP Hr. inversion Hr as [input t r Hw Hb| |]; subst. specialize (HP _ Hw).
  assert (ends (λ o, ∀ r, o = Some r → P r) (handleRequest home polls text agent_version input files)) as He.
  { apply ends_bind, ends_try; [|done]. eapply ends_mono; [exact HP|]. intros r Hr' r' Hw'. by apply Hr'. }
  by apply (ends_behaves _ _ _ _ He Hb).
Qed.
End rounds.

(** ** The conversation ends *)

Section conversation.
Context `{Yml : Yaml} (home : option string) (polls : Z → nat) (text : note → string) (agent_version : string).
Context (dirs : list (string * option (list dir_entry))) (float_v : spec_float → string).
Context (provider_config : string → result config_error ProviderConfig) (ticks : Z → nat) (err_text : plugin_error → string).
Context (now : string) (files : store).

Abbreviation env := (environment home polls text agent_version now files).
Abbreviation speak h := (safe env (λ _ _, True) h).

Lemma FindPlugin_name name p : FindPlugin dirs name = Some p → pl_Name p = name.
Proof.
  unfold FindPlugin. intros Hh. destruct (filter _ _) as [|q l] eqn:Hf; [done|]. simpl in Hh. simplify_eq.
  assert (p ∈ filter (λ p, pl_Name p = name) (Discover dirs)) as Hin by (rewrite Hf; left). by apply list_elem_of_filter in Hin as [? _].
Qed.

Lemma executeDispatch_id req :
  ends (λ r, ds_ID r = dr_ID req) (executeDispatch dirs float_v provider_config ticks err_text req).
Proof.
  unfold executeDispatch, find. apply ends_bind. destruct (FindPlugin dirs _) as [p|]; [|done]. simpl.
  destruct (provider_config _) as [cfg|]; [|done]. simpl. intros [[resp|]| |]; simpl; try done.
  assert (ds_ID (result_of (dr_ID req) resp) = dr_ID req) as Hid by (unfold result_of; by case_decide).
  destruct (dr_WaitFor req) as [c|]; [|done]. case_decide; [|done]. unfold await. case_decide; [done|].
  apply ends_bind, ends_any. intros [u|e]; [|done]. intros [[r|]| |]; simpl; try done. by destruct (rs_Resource r).
Qed.

(** A result for each request, in their order, whatever the plugins answer. *)
Lemma executeDispatches_ids rely h reqs :
  safe rely (λ _ _, True) h (executeDispatches dirs float_v provider_config ticks err_text reqs)
    (λ _ x, ∃ l, x = Ok l ∧ map ds_ID l = map dr_ID reqs).
Proof.
  revert h. induction reqs as [|req reqs IH]; intros h; [by exists []|]. simpl.
  apply safe_bind, safe_try. eapply safe_mono; [apply ends_safe, executeDispatch_id|]. intros h1 x Hx. simpl.
  apply safe_bind. eapply safe_mono; [apply IH|]. intros h2 y (l & -> & Hl). simpl. eexists. split; [done|]. simpl. rewrite Hl. f_equal.
  by destruct x.
Qed.

Lemma Execute_asking h p req :
  pl_Name p = "k3s" → (0 ≤ retry_count (rq_ContinuationToken req))%Z →
  speak h (Execute p req) (λ _ x, match x with Ok resp => asking req resp | Err e => e ≠ ErrRounds end).
Proof.
  intros Hp H0. unfold Execute. simpl. split; [done|]. intros a Ha. specialize (Ha Hp). destruct a as [[resp|e]| |]; simpl; try done.
  apply (k3s_replies_ends _ _ _ _ (asking req) _ _ _) in Ha; [done|]. intros input Hw.
  apply wire_request_same in Hw as (Hact & _ & _ & Htok & _). eapply ends_mono; [apply Handle_asking; by rewrite Htok|].
  intros r Hr r' Hw'. apply wire_response_same in Hw' as (_ & _ & Hc & _). unfold asking, shrinks in *. by rewrite Hc, <- Hact, <- Htok.
Qed.

Lemma loop_ends rounds h p req resp :
  pl_Name p = "k3s" → asking req resp → asks_left (rq_Action req) (rq_ContinuationToken req) ≤ rounds →
  speak h (dispatch_loop dirs float_v provider_config ticks err_text rounds p req resp) (λ _ x, x ≠ Err ErrRounds).
Proof.
  intros Hp. revert h req resp. induction rounds as [|rounds IH]; intros h req resp Ha Hr; cbn [dispatch_loop].
  all: destruct (rs_DispatchRequests resp) as [|d ds] eqn:Hd; [done|]; destruct (rs_Continuation resp) as [token|] eqn:Ht; [|done];
    destruct (Ha _ Ht) as [H0 Hlt]; [try lia].
  rewrite <- Hd. apply safe_bind. eapply safe_mono; [apply executeDispatches_ids|]. intros h1 x (l & -> & _). cbv beta iota.
  apply safe_bind. eapply safe_mono; [by apply Execute_asking|]. intros h2 [resp'|e] Hx; [|by intros [= ->]].
  apply IH; [done|]. simpl. lia.
Qed.

Lemma speak_ends rounds name h req :
  name = "k3s" → 61 ≤ rounds → rq_ContinuationToken req = "" →
  speak h (ExecuteWithDispatch dirs float_v provider_config ticks err_text rounds name req) (λ _ x, x ≠ Err ErrRounds).
Proof.
  intros -> Hr Ht. unfold ExecuteWithDispatch. apply safe_bind. unfold find. destruct (FindPlugin dirs "k3s") as [p|] eqn:Hp; [|done].
  apply FindPlugin_name in Hp. apply safe_ret. cbv beta iota. apply safe_bind. eapply safe_mono; [apply Execute_asking; [done|by rewrite Ht]|].
  intros h1 [resp|e] Hx; [|by intros [= ->]]. apply safe_bind. eapply safe_mono; [apply loop_ends; [done..|]|].
  { rewrite Ht. etrans; [|exact Hr]. unfold asks_left. repeat case_decide; try lia. by destruct H0. }
  intros h2 [resp'|e] Hx'; [|done]. by destruct (rs_StateUpdate resp').
Qed.

(** C29: A command of the k3s plugin ends, whatever the user asked for and whatever the other
    plugins and the nodes answer, and in whatever way the plugin's own processes
    fail: the dispatcher calls the plugin at most 61 times after its first answer
    (creating a cluster: once for the machines and sixty times for their addresses; the
    dispatcher itself sets no limit). *)
Theorem create_terminates req t x :
  rq_ContinuationToken req = "" →
  behaves (ExecuteWithDispatch dirs float_v provider_config ticks err_text 61 "k3s" req) t x →
  kept (environment home polls text agent_version now files) [] t → x ≠ Err ErrRounds.
Proof.
  intros Ht Hb Hk. apply (safe_sound _ _ [] _ _ t x (speak_ends 61 "k3s" [] req eq_refl (Nat.le_refl _) Ht) Hb Hk).
Qed.
End conversation.

(** ** Deleting what was created *)

Section leak.
Context `{Yml : Yaml} (home : option string) (polls : Z → nat) (text : note → string) (agent_version : string).
Context (dirs : list (string * option (list dir_entry))) (float_v : spec_float → string).
Context (provider_config : string → result config_error ProviderConfig) (ticks : Z → nat) (err_text : plugin_error → string).

(** A response that saves a state without a spec. *)
Definition saves_nothing (name : string) (resp : Response) : Prop :=
  ∃ d, rs_StateUpdate resp = Some (MkStateUpdate "save" "k3s" name (Some d)) ∧ sd_Spec d = [].
(** The last answer of a creation, when it is a success. *)
Definition done_without_spec (name : string) (resp : Response) : Prop :=
  rs_Status resp = StatusSuccess → rs_DispatchRequests resp = [] ∨ rs_Continuation resp = None → saves_nothing name resp.
(** The file of a cluster holds no spec. *)
Definition forgotten (name : string) (files : store) : Prop := ∃ doc, files !! ("k3s", name) = Some (Some doc) ∧ assoc "spec" doc = None.

(** There is a control plane once the defaults are applied. *)
Lemma with_defaults_nodes name spec : all_nodes name (with_defaults spec) ≠ [].
Proof.
  unfold all_nodes, NodeNames, with_defaults, pool_nodes, loop_to. simpl. intros Ha. apply app_eq_nil in Ha as [Ha _].
  apply map_eq_nil in Ha. destruct (Z.ltb_spec (p_Count (ControlPlane spec)) 1); simpl in Ha; [done|].
  destruct (Z.to_nat _) eqn:Hn; [lia|done].
Qed.

Lemma create_done req m : ends (done_without_spec (r_name m)) (createCluster home polls text req m).
Proof.
  unfold createCluster. repeat (case_decide; [by intros [=]|]). case_decide.
  - unfold handleVMsCreated. destruct (collect _ _ _ _ _) as [[ips children]|e]; [|by intros [=]]. case_decide as Hl.
    + destruct (_ <=? _)%Z; [by intros [=]|]. intros _ [Hd|[=]]. simpl in Hd. apply map_eq_nil in Hd. rewrite Hd in Hl. simpl in Hl. lia.
    + apply ends_bind, ends_any. intros [res|e] Hs Hd; [|done]. by eexists.
  - destruct (GenerateDispatchRequests _) as [l|e] eqn:Hg; [|done]. intros _ [Hd|[=]]. simpl in Hd. subst l.
    apply mapR_Ok, Forall2_length in Hg. simpl in Hg. rewrite length_imap in Hg. exfalso. apply (with_defaults_nodes (r_name m) (ParseClusterSpec m)).
    by apply length_zero_iff_nil.
Qed.

(** The same of the process, for a creation. *)
Lemma wire_update_nothing name resp resp' : wire_response resp = Some resp' → saves_nothing name resp → saves_nothing name resp'.
Proof.
  intros (_ & _ & _ & Hu & _)%wire_response_same (d & Hd & Hspec). rewrite Hd in Hu. simpl in Hu. unfold wire_update, wire_state in Hu.
  destruct d as [v k spec status children]. simpl in *. subst spec. simpl in Hu.
  destruct (wire_opt wire_status status) as [st|]; [|done]. simpl in Hu. injection Hu as Hu. eexists. by split; [symmetry; exact Hu|].
Qed.

Lemma k3s_create_done req files m resp :
  rq_Action req = ActionCreate → rq_ResourceType req = "Cluster" → rq_Manifest req = Some m →
  k3s_replies home polls text agent_version req files (Replied (Ok resp)) → done_without_spec (r_name m) resp.
Proof.
  intros Ha Ht Hm. apply k3s_replies_ends. intros input (Hai & Hti & _ & _ & Hmi)%wire_request_same. rewrite Hm in Hmi. simpl in Hmi.
  destruct (json_resource m) as [m'|] eqn:Hj; [|done]. simpl in Hmi. injection Hmi as Hmi. symmetry in Hmi.
  assert (r_name m' = r_name m) as <-. { unfold json_resource in Hj. destruct (_ && _); by simplify_eq. }
  unfold Handle. rewrite Hai, Ha, Hti, Ht. simpl. unfold handleCluster. rewrite Hai, Ha, Hmi. simpl.
  eapply ends_mono; [apply create_done|]. intros r Hr r' Hw. pose proof (wire_response_same _ _ Hw) as (Hs & _ & Hc & _ & Hd). unfold done_without_spec.
  rewrite Hs, Hc. intros Hs' Hd'. eapply wire_update_nothing; [done|]. apply Hr; [done|]. destruct Hd' as [Hd'|]; [left|by right].
  rewrite Hd' in Hd. apply mapM_Some, Forall2_length in Hd. by apply length_zero_iff_nil.
Qed.

(** A cluster whose file holds no spec has no machines to delete. *)
Definition deletes_nothing (name : string) (resp : Response) : Prop :=
  rs_Status resp = StatusSuccess ∧ rs_Message resp = text (DeletingVMs 0 name) ∧ rs_DispatchRequests resp = [] ∧ saves_nothing name resp.

Lemma delete_forgotten req files :
  rq_ContinuationToken req = "" → forgotten (rq_ResourceName req) files →
  ends (deletes_nothing (rq_ResourceName req)) (deleteCluster home text req files).
Proof.
  intros Ht (doc & Hf & Hs). unfold deleteCluster, read_state, need_home. destruct home as [hd|]; [|done]. rewrite Hf. simpl.
  destruct (typed_state doc); simpl; [|done]. simpl. rewrite Ht. simpl. assert (map_field "spec" doc = None) as -> by (unfold map_field; by rewrite Hs). split_and!; try done. by eexists.
Qed.

Lemma k3s_delete_forgotten req files resp :
  rq_Action req = ActionDelete → rq_ResourceType req = "Cluster" → rq_ContinuationToken req = "" → forgotten (rq_ResourceName req) files →
  k3s_replies home polls text agent_version req files (Replied (Ok resp)) → deletes_nothing (rq_ResourceName req) resp.
Proof.
  intros Ha Ht Htok Hf. apply k3s_replies_ends. intros input (Hai & Hti & Hn & Htoki & _)%wire_request_same.
  unfold Handle. rewrite Hai, Ha, Hti, Ht. simpl. unfold handleCluster. rewrite Hai, Ha. simpl. rewrite <- Hn.
  eapply ends_mono; [apply delete_forgotten; congruence|]. intros r (H1 & H2 & H3 & H4) r' Hw.
  pose proof (wire_response_same _ _ Hw) as (Hs & Hm & _ & _ & Hd). unfold deletes_nothing. rewrite Hs, Hm. split_and!; [done..| |].
  - rewrite H3 in Hd. by injection Hd as <-.
  - by eapply wire_update_nothing.
Qed.

(** Saving such a state leaves a file without a spec. *)
Lemma save_forgets `{!YamlLaws} now name resp files a :
  name ≠ "" → saves_nothing name resp → ∃ u, rs_StateUpdate resp = Some u ∧ forgotten name (updated now files (Update u, a)).
Proof.
  intros Hn (d & Hu & Hs). eexists. split; [exact Hu|]. unfold updated, handleStateUpdate, save_state. simpl. rewrite decide_False by done.
  eexists. rewrite lookup_insert_eq. split; [by rewrite yaml_map|]. rewrite assoc_yaml_map. unfold state_document. simpl. rewrite Hs. simpl.
  by destruct (map render_child _).
Qed.

Section conversations.
Context `{!YamlLaws} (now : string) (files : store).
Abbreviation env := (environment home polls text agent_version now files).
Abbreviation execute := (ExecuteWithDispatch dirs float_v provider_config ticks err_text).

(** Ending a conversation with a state that holds no spec. *)
Lemma ends_forgotten guar h name resp :
  name ≠ "" → saves_nothing name resp → (∀ u, guar h (Update u)) →
  safe env guar h (match rs_StateUpdate resp with Some u => _ ← call (Update u); Ret resp | None => Ret resp end : D Response)
    (λ h' x, x = Ok resp ∧ forgotten name (store_after now files h')).
Proof.
  intros Hn Hs Hg. destruct (save_forgets now name resp (store_after now files h) Ticked Hn Hs) as (u & Hu & _). rewrite Hu.
  split; [done|]. intros a _. split; [done|]. unfold store_after. rewrite fold_left_app.
  destruct (save_forgets now name resp (store_after now files h) a Hn Hs) as (u' & Hu' & Hf). rewrite Hu in Hu'. by injection Hu' as <-.
Qed.

Lemma create_loop h rounds p req m resp :
  pl_Name p = "k3s" → rq_Action req = ActionCreate → rq_ResourceType req = "Cluster" → rq_Manifest req = Some m →
  done_without_spec (r_name m) resp →
  safe env (λ _ _, True) h (dispatch_loop dirs float_v provider_config ticks err_text rounds p req resp)
    (λ _ x, match x with Ok r => rs_Status r = StatusSuccess → saves_nothing (r_name m) r | Err _ => True end).
Proof.
  intros Hp Ha Ht Hm. revert h req Ha Ht Hm resp. induction rounds as [|rounds IH]; intros h req Ha Ht Hm resp Hd; cbn [dispatch_loop].
  all: destruct (rs_DispatchRequests resp) as [|d ds] eqn:Hds; [intros Hs; apply Hd; [done|by left]|];
    destruct (rs_Continuation resp) as [token|] eqn:Hc; [|intros Hs; apply Hd; [done|by right]].
  { done. }
  rewrite <- Hds. apply safe_bind. eapply safe_mono; [apply safe_free; done|]. intros h1 [l|e] _; [|done].
  apply safe_bind. split; [done|]. intros [[r|e]| |] Hr; try done. apply IH; [done..|].
  eapply (k3s_create_done (continued req l token)); [done..|]. by apply Hr.
Qed.

Lemma create_conversation rounds req m :
  rq_Action req = ActionCreate → rq_ResourceType req = "Cluster" → rq_Manifest req = Some m → r_name m ≠ "" →
  safe env (λ _ _, True) [] (execute rounds "k3s" req)
    (λ h x, match x with Ok r => rs_Status r = StatusSuccess → forgotten (r_name m) (store_after now files h) | Err _ => True end).
Proof.
  intros Ha Ht Hm Hn. unfold ExecuteWithDispatch. apply safe_bind. unfold find. destruct (FindPlugin dirs "k3s") as [p|] eqn:Hp; [|done].
  apply FindPlugin_name in Hp. apply safe_ret. cbv beta iota. apply safe_bind. split; [done|]. intros [[r|e]| |] Hr; try done. simpl.
  apply safe_bind. eapply safe_mono; [apply (create_loop _ rounds p req m r Hp Ha Ht Hm)|].
  { eapply (k3s_create_done req); [done..|]. by apply Hr. }
  intros h [r'|e] Hs; [|done]. destruct (decide (rs_Status r' = StatusSuccess)) as [Hok|Hok].
  - eapply safe_mono; [by apply ends_forgotten; [|apply Hs|]|]. by intros h' x [-> Hf].
  - destruct (rs_StateUpdate r'); simpl; [|done]. by split.
Qed.

(** All that the deletion asks for: the plugin itself, once, and the state file. *)
Definition only_asks (p : plugin) (req : Request) (h : list (query * answer)) (q : query) : Prop :=
  match q with Exec p' req' => h = [] ∧ p' = p ∧ req' = req | Update _ => True | Tick => False end.

Lemma delete_conversation rounds req p :
  rq_Action req = ActionDelete → rq_ResourceType req = "Cluster" → rq_ContinuationToken req = "" → rq_ResourceName req ≠ "" →
  forgotten (rq_ResourceName req) files → FindPlugin dirs "k3s" = Some p →
  safe env (only_asks p req) [] (execute rounds "k3s" req)
    (λ h x, match x with
      | Ok r => rs_Status r = StatusSuccess ∧ rs_Message r = text (DeletingVMs 0 (rq_ResourceName req)) ∧
                forgotten (rq_ResourceName req) (store_after now files h)
      | Err _ => True end).
Proof.
  intros Ha Ht Htok Hn Hf Hp. unfold ExecuteWithDispatch, find. rewrite Hp. apply safe_bind, safe_ret. cbv beta iota.
  apply FindPlugin_name in Hp. apply safe_bind. split; [done|]. intros [[r|e]| |] Hr; try done. simpl.
  specialize (Hr Hp). apply k3s_delete_forgotten in Hr as (H1 & H2 & H3 & H4); [|done..].
  apply safe_bind. destruct rounds as [|rounds]; cbn [dispatch_loop]; rewrite H3.
  all: apply safe_ret; cbv beta iota; (eapply safe_mono; [by apply ends_forgotten|]); by intros h x [-> ?].
Qed.
End conversations.

(** A deletion of the cluster [name] that is answered, carried out on the state files. *)
Definition answered_deletion `{!Yaml} (name : string) (files files' : store) : Prop :=
  ∃ rounds req now t r, rq_Action req = ActionDelete ∧ rq_ResourceType req = "Cluster" ∧ rq_ResourceName req = name ∧
    rq_ContinuationToken req = "" ∧
    behaves (ExecuteWithDispatch dirs float_v provider_config ticks err_text rounds "k3s" req) t (Ok r) ∧
    kept (environment home polls text agent_version now files) [] t ∧ files' = store_after now files t.

Lemma deletions_forgotten `{!YamlLaws} name p files files' :
  name ≠ "" → FindPlugin dirs "k3s" = Some p → forgotten name files → rtc (answered_deletion name) files files' → forgotten name files'.
Proof.
  intros Hn Hp Hf Hr. induction Hr as [|f1 f2 f3 Hd _ IH]; [done|]. apply IH.
  destruct Hd as (rounds & req & now & t & r & Ha & Ht & <- & Htok & Hb & Hk & ->).
  by destruct (safe_sound _ _ [] _ _ t _ (delete_conversation now _ rounds req p Ha Ht Htok Hn Hf Hp) Hb Hk) as [_ (_ & _ & ?)].
Qed.

(** C30: Deleting a cluster that was created through the CLI deletes none of its machines. The creation
    ends by saving a state without the spec of the cluster (only the last of its state
    updates is carried out, and only the first has the spec), so a deletion finds no
    machine to delete: it reports success without asking any other plugin, and saves a state
    that again has no spec. So do the first deletion after the creation and every later one. *)
Theorem create_then_delete_leaks `{!YamlLaws} rounds req m rounds' req' p now now' files files1 files' t t' r r' :
  rq_Action req = ActionCreate → rq_ResourceType req = "Cluster" → rq_Manifest req = Some m → r_name m ≠ "" →
  rq_Action req' = ActionDelete → rq_ResourceType req' = "Cluster" → rq_ResourceName req' = r_name m → rq_ContinuationToken req' = "" →
  FindPlugin dirs "k3s" = Some p →
  behaves (ExecuteWithDispatch dirs float_v provider_config ticks err_text rounds "k3s" req) t (Ok r) →
  kept (environment home polls text agent_version now files) [] t →
  rs_Status r = StatusSuccess →
  files1 = store_after now files t →
  rtc (answered_deletion (r_name m)) files1 files' →
  behaves (ExecuteWithDispatch dirs float_v provider_config ticks err_text rounds' "k3s" req') t' (Ok r') →
  kept (environment home polls text agent_version now' files') [] t' →
  rs_Status r' = StatusSuccess ∧ rs_Message r' = text (DeletingVMs 0 (r_name m)) ∧
  (∀ i q a, t' !! i = Some (q, a) → only_asks p req' (take i t') q) ∧
  forgotten (r_name m) (store_after now' files' t').
Proof.
  intros Ha Ht Hm Hn Ha' Ht' Hn' Htok' Hp Hb Hk Hs -> Hdels Hb' Hk'.
  destruct (safe_sound _ _ [] _ _ t _ (create_conversation now files rounds req m Ha Ht Hm Hn) Hb Hk) as [_ Hf]. specialize (Hf Hs).
  assert (rq_ResourceName req' ≠ "") as Hne by by rewrite Hn'.
  apply (deletions_forgotten _ p _ _ Hn Hp Hf) in Hdels. rewrite <- Hn' in *.
  destruct (safe_sound _ _ [] _ _ t' _ (delete_conversation now' _ rounds' req' p Ha' Ht' Htok' Hne Hdels Hp) Hb' Hk') as [Hasks (H1 & H2 & H3)].
  by split_and!.
Qed.
End leak.

(** ** Examples *)

#[local] Existing Instance ex_yaml.
#[local] Existing Instance ex_yaml_laws.

(** A cluster of one control plane on machines of the proxmox plugin. *)
Definition ex_manifest : resource :=
  Resource "k3s.openctl.io/v1" "Cluster" (ResourceMetadata "prod" "" [] [] "" "")
    (Some [("compute", VMap [("provider", VStr "proxmox"); ("image", VMap [("template", VStr "jammy")])]);
           ("nodes", VMap [("controlPlane", VMap [("count", VInt 1)])]);
           ("ssh", VMap [("privateKeyPath", VStr "~/.ssh/id")])]) None.
Definition ex_create : Request := MkRequest ActionCreate "Cluster" "" (Some ex_manifest) [] empty_provider_config [] "".
Definition ex_delete : Request := MkRequest ActionDelete "Cluster" "prod" None [] empty_provider_config [] "".
Definition ex_dirs : list (string * option (list dir_entry)) :=
  [("/usr/local/bin", Some [MkEntry "openctl-k3s" false true; MkEntry "openctl-proxmox" false true])].
Definition ex_text (n : note) : string :=
  match n with
  | CreatingVMs count name => "Creating " +:+ pretty count +:+ " VMs for cluster " +:+ name
  | DeletingVMs count name => "Deleting " +:+ pretty count +:+ " VMs for cluster " +:+ name
  | Created name _ => "Created " +:+ name
  | _ => "?"
  end.
(** Every machine runs, and has an address when [answers]. *)
Definition ex_machine (answers : bool) (p : plugin) (req : Request) (w : unit) : answer * unit :=
  (Replied (Ok (MkResponse StatusSuccess
    (Some (Resource "proxmox.openctl.io/v1" "VirtualMachine" (ResourceMetadata "prod-cp-0" "" [] [] "" "") None
      (Some (("state", VStr "running") :: if answers then [("ip", VStr "10.0.0.1")] else [])))) [] "" None None [] None)), tt).
Definition ex_hosts (q : hquery) (w : unit) : hanswer * unit :=
  match q with Install q => (Installed (ex_nodes q w).1, tt) | _ => (Ok_, tt) end.
Definition ex_talk (answers : bool) (req : Request) (files : store) :=
  run (serve_k3s (Some "/root") (λ _, 3) ex_text "v1" "t0" ex_hosts (ex_machine answers))
    (ExecuteWithDispatch ex_dirs (λ _, "0") (λ _, Ok empty_provider_config) (λ _, 2) (λ _, "error") 61 "k3s" req) (files, tt).

Lemma ex_talk_kept answers req files :
  kept (environment (Some "/root") (λ _, 3) ex_text "v1" "t0" files) [] (ex_talk answers req files).1.2.
Proof.
  unfold ex_talk. apply (run_kept _ _ (λ h s, s.1 = store_after "t0" files h)); [|done]. intros h s q Hs. by apply serve_k3s_kept.
Qed.

Lemma ex_talk_behaves answers req files x :
  (ex_talk answers req files).1.1 = x →
  behaves (ExecuteWithDispatch ex_dirs (λ _, "0") (λ _, Ok empty_provider_config) (λ _, 2) (λ _, "error") 61 "k3s" req)
    (ex_talk answers req files).1.2 x.
Proof. intros <-. apply run_behaves. Qed.

Definition calls_k3s (e : query * answer) : bool := match e.1 with Exec p _ => bool_decide (pl_Name p = "k3s") | _ => false end.

(** A machine that never gets an address: all the rounds are used. *)
Lemma create_terminates_witness :
  length (List.filter calls_k3s (ex_talk false ex_create ∅).1.2) = 62 ∧
  (ex_talk false ex_create ∅).1.1 ≠ Err ErrRounds.
Proof.
  split; [vm_compute; reflexivity|].
  eapply (create_terminates (Some "/root") (λ _, 3) ex_text "v1" ex_dirs (λ _, "0") (λ _, Ok empty_provider_config) (λ _, 2) (λ _, "error")
    "t0" ∅ ex_create); [reflexivity|by apply ex_talk_behaves|apply ex_talk_kept].
Defined.

Definition ex_plugin : plugin := MkPlugin "k3s" "/usr/local/bin" "openctl-k3s".
Definition ex_created : store := store_after "t0" ∅ (ex_talk true ex_create ∅).1.2.

Lemma create_then_delete_leaks_witness :
  ∃ r r', (ex_talk true ex_create ∅).1.1 = Ok r ∧ rs_Message r = "Created prod" ∧
    (ex_talk true ex_delete ex_created).1.1 = Ok r' ∧ rs_Message r' = "Deleting 0 VMs for cluster prod" ∧
    forgotten "prod" (store_after "t0" ex_created (ex_talk true ex_delete ex_created).1.2).
Proof.
  eexists _, _. split; [vm_compute; reflexivity|]. split; [reflexivity|]. split; [vm_compute; reflexivity|]. split; [reflexivity|].
  edestruct (create_then_delete_leaks (Some "/root") (λ _, 3) ex_text "v1" ex_dirs (λ _, "0") (λ _, Ok empty_provider_config) (λ _, 2) (λ _, "error")
    61 ex_create ex_manifest 61 ex_delete ex_plugin "t0" "t0" ∅ ex_created ex_created (ex_talk true ex_create ∅).1.2 (ex_talk true ex_delete ex_created).1.2)
    as (_ & _ & _ & Hf);
    [reflexivity|reflexivity|reflexivity|discriminate|reflexivity|reflexivity|reflexivity|reflexivity|vm_compute; reflexivity
    |apply ex_talk_behaves; vm_compute; reflexivity|apply ex_talk_kept|reflexivity|reflexivity|apply rtc_refl
    |apply ex_talk_behaves; vm_compute; reflexivity|apply ex_talk_kept|exact Hf].
Defined.
