(* ===== verification/PluginProto.v ===== *)
(** The protocol of external providers: src/pkg/pluginproto. What is written on the
    pipe is a sequence of messages; parameters and results are JSON documents
    ([value]), written by the encoders and read by the decoders below. *)
From S2P Require Import Prelude GoStrings GoValue Json Registry.

(** ** Messages (protocol.go) *)

Definition ProtocolVersion : string := "2.0".
Definition MethodHandshake : string := "handshake".
Definition MethodConfigure : string := "configure".
Definition MethodApply : string := "apply".
Definition MethodGet : string := "get".
Definition MethodList : string := "list".
Definition MethodDelete : string := "delete".
Definition MethodPlan : string := "plan".
Definition MethodDryRun : string := "dryRun".
Definition MethodDoAction : string := "doAction".
Definition MethodOwnerOf : string := "ownerOf".
Definition MethodChildrenOf : string := "childrenOf".
Definition MethodShutdown : string := "shutdown".

Definition CapabilityPlan : string := "plan".
Definition CapabilityDryRun : string := "dryRun".
Definition CapabilityChildren : string := "children".
Definition CapabilityOwnership : string := "ownership".
Definition CapabilityState : string := "state".

Definition CodeNotFound : string := "NOT_FOUND".
Definition CodeInvalid : string := "INVALID".
Definition CodeUnsupported : string := "UNSUPPORTED".
Definition CodeInternal : string := "INTERNAL".

Record Error : Type := MkError { er_Code : string; er_Message : string }.
Record Message : Type := MkMessage {
  m_ID : nat; m_Method : string; m_Params : option value; m_Result : option value; m_Error : option Error }.

Record KindInfo : Type := MkKind {
  ki_Kind : string; ki_Schema : string; ki_Actions : list string; ki_Observed : bool; ki_OwnerKind : string; ki_AdvancedNote : string }.
Record HandshakeResult : Type := MkHandshake {
  hs_ProviderName : string; hs_ProtocolVersion : string; hs_Kinds : list KindInfo; hs_Capabilities : list string }.
Record ApplyParams : Type := MkApplyParams { ap_Manifest : option resource; ap_State : option value; ap_Private : option value }.
Record ApplyResult : Type := MkApplyResult { ar_Resource : option resource; ar_State : option value; ar_Private : option value }.
Record GetParams : Type := MkGetParams { gp_Kind : string; gp_Name : string; gp_State : option value }.
Record GetResult : Type := MkGetResult { gr_Resource : option resource; gr_State : option value }.
Record DeleteParams : Type := MkDeleteParams { dp_Kind : string; dp_Name : string; dp_State : option value; dp_Private : option value }.
Record DoActionParams : Type := MkDoActionParams { da_Kind : string; da_Name : string; da_Action : string }.
Record RefParams : Type := MkRefParams { rp_Kind : string; rp_Name : string; rp_State : option value }.

(** ** Writing *)

Definition enc_ptr {A} (f : A → option value) (o : option A) : option value := match o with Some a => f a | None => Some VNull end.

Definition enc_kind (k : KindInfo) : value :=
  VMap ([("kind", VStr (ki_Kind k))] ++ omit_str "schema" (ki_Schema k) ++ omit_list "actions" (enc_strs (ki_Actions k)) ++
    omit_bool "observed" (ki_Observed k) ++ omit_str "ownerKind" (ki_OwnerKind k) ++ omit_str "advancedNote" (ki_AdvancedNote k)).
Definition enc_handshake (h : HandshakeResult) : value :=
  VMap ([("providerName", VStr (hs_ProviderName h))] ++ [("protocolVersion", VStr (hs_ProtocolVersion h))] ++
    [("kinds", VList (map enc_kind (hs_Kinds h)))] ++ omit_list "capabilities" (enc_strs (hs_Capabilities h))).
Definition enc_configure (config : option value) : value := VMap (omit_raw "config" config).
Definition enc_apply_params (p : ApplyParams) : option value :=
  m ← enc_ptr enc_resource (ap_Manifest p);
  Some (VMap ([("manifest", m)] ++ omit_raw "state" (ap_State p) ++ omit_raw "private" (ap_Private p))).
Definition enc_apply_result (r : ApplyResult) : option value :=
  m ← enc_ptr enc_resource (ar_Resource r);
  Some (VMap ([("resource", m)] ++ omit_raw "state" (ar_State r) ++ omit_raw "private" (ar_Private r))).
Definition enc_get_params (p : GetParams) : value :=
  VMap ([("kind", VStr (gp_Kind p))] ++ [("name", VStr (gp_Name p))] ++ omit_raw "state" (gp_State p)).
Definition enc_get_result (r : GetResult) : option value :=
  m ← enc_ptr enc_resource (gr_Resource r); Some (VMap ([("resource", m)] ++ omit_raw "state" (gr_State r))).
Definition enc_list_params (kind : string) : value := VMap [("kind", VStr kind)].
Definition enc_resources (key : string) (l : list (option resource)) : option value :=
  l ← mapM (enc_ptr enc_resource) l; Some (VMap [(key, VList l)]).
Definition enc_delete_params (p : DeleteParams) : value :=
  VMap ([("kind", VStr (dp_Kind p))] ++ [("name", VStr (dp_Name p))] ++ omit_raw "state" (dp_State p) ++ omit_raw "private" (dp_Private p)).
Definition enc_manifest (m : option resource) : option value := m ← enc_ptr enc_resource m; Some (VMap [("manifest", m)]).
Definition enc_child (c : ChildAction) : value :=
  VMap ([("verb", VStr (ca_Verb c))] ++ [("kind", VStr (ca_Kind c))] ++ [("name", VStr (ca_Name c))] ++ omit_str "detail" (ca_Detail c)).
Definition enc_dry_run (r : DryRunResult) : value :=
  VMap (omit_list "children" (map enc_child (dr_Children r)) ++ omit_list "requiredGates" (enc_strs (dr_RequiredGates r)) ++
    omit_str "summary" (dr_Summary r)).
Definition enc_action_params (p : DoActionParams) : value :=
  VMap [("kind", VStr (da_Kind p)); ("name", VStr (da_Name p)); ("action", VStr (da_Action p))].
Definition enc_action_result (r : ActionResult) : value :=
  VMap (omit_str "message" (ar_Message r) ++ omit_str "url" (ar_URL r) ++ omit_str "downloadContent" (ar_DownloadContent r) ++
    omit_str "downloadFilename" (ar_DownloadFilename r)).
Definition enc_ref_params (p : RefParams) : value :=
  VMap ([("kind", VStr (rp_Kind p))] ++ [("name", VStr (rp_Name p))] ++ omit_raw "state" (rp_State p)).
(** [OwnerOfResult]: the owner, if the resource is owned. *)
Record OwnerOfResult : Type := MkOwner { oo_Kind : string; oo_Name : string; oo_Owned : bool }.
Definition enc_owner (o : OwnerOfResult) : value :=
  VMap (omit_str "ownerKind" (oo_Kind o) ++ omit_str "ownerName" (oo_Name o) ++ [("owned", VBool (oo_Owned o))]).
Definition enc_ref (r : ResourceRef) : value :=
  VMap [("apiVersion", VStr (rr_APIVersion r)); ("kind", VStr (rr_Kind r)); ("name", VStr (rr_Name r))].
Definition enc_children (l : list ResourceRef) : value := VMap (omit_list "children" (map enc_ref l)).

(** ** Reading *)

Definition dec_kind : decoder KindInfo := dec_struct (λ m k,
  n ← jfield "kind" dec_str (ki_Kind k) m; s ← jfield "schema" dec_str (ki_Schema k) m; a ← jfield "actions" dec_strs (ki_Actions k) m;
  o ← jfield "observed" dec_bool (ki_Observed k) m; ok ← jfield "ownerkind" dec_str (ki_OwnerKind k) m;
  note ← jfield "advancednote" dec_str (ki_AdvancedNote k) m; Some (MkKind n s a o ok note)).
Definition dec_handshake : decoder HandshakeResult := dec_struct (λ m h,
  n ← jfield "providername" dec_str (hs_ProviderName h) m; v ← jfield "protocolversion" dec_str (hs_ProtocolVersion h) m;
  k ← jfield "kinds" (dec_list (λ v, dec_kind v (MkKind "" "" [] false "" ""))) (hs_Kinds h) m;
  c ← jfield "capabilities" dec_strs (hs_Capabilities h) m; Some (MkHandshake n v k c)).
Definition dec_res : decoder (option resource) := dec_ptr zero_resource dec_resource.
Definition dec_configure : decoder (option value) := dec_struct (λ m c, jfield "config" dec_raw c m).
Definition dec_apply_params : decoder ApplyParams := dec_struct (λ m p,
  r ← jfield "manifest" dec_res (ap_Manifest p) m; s ← jfield "state" dec_raw (ap_State p) m; v ← jfield "private" dec_raw (ap_Private p) m;
  Some (MkApplyParams r s v)).
Definition dec_apply_result : decoder ApplyResult := dec_struct (λ m p,
  r ← jfield "resource" dec_res (ar_Resource p) m; s ← jfield "state" dec_raw (ar_State p) m; v ← jfield "private" dec_raw (ar_Private p) m;
  Some (MkApplyResult r s v)).
Definition dec_get_params : decoder GetParams := dec_struct (λ m p,
  k ← jfield "kind" dec_str (gp_Kind p) m; n ← jfield "name" dec_str (gp_Name p) m; s ← jfield "state" dec_raw (gp_State p) m;
  Some (MkGetParams k n s)).
Definition dec_get_result : decoder GetResult := dec_struct (λ m p,
  r ← jfield "resource" dec_res (gr_Resource p) m; s ← jfield "state" dec_raw (gr_State p) m; Some (MkGetResult r s)).
Definition dec_list_params : decoder string := dec_struct (λ m k, jfield "kind" dec_str k m).
Definition dec_resources (key : string) : decoder (list (option resource)) := dec_struct (λ m l,
  jfield key (dec_list (λ v, dec_res v None)) l m).
Definition dec_delete_params : decoder DeleteParams := dec_struct (λ m p,
  k ← jfield "kind" dec_str (dp_Kind p) m; n ← jfield "name" dec_str (dp_Name p) m; s ← jfield "state" dec_raw (dp_State p) m;
  v ← jfield "private" dec_raw (dp_Private p) m; Some (MkDeleteParams k n s v)).
Definition dec_manifest : decoder (option resource) := dec_struct (λ m r, jfield "manifest" dec_res r m).
Definition dec_child : decoder ChildAction := dec_struct (λ m c,
  v ← jfield "verb" dec_str (ca_Verb c) m; k ← jfield "kind" dec_str (ca_Kind c) m; n ← jfield "name" dec_str (ca_Name c) m;
  d ← jfield "detail" dec_str (ca_Detail c) m; Some (MkChildAction v k n d)).
Definition dec_dry_run : decoder DryRunResult := dec_struct (λ m r,
  c ← jfield "children" (dec_list (λ v, dec_child v (MkChildAction "" "" "" ""))) (dr_Children r) m;
  g ← jfield "requiredgates" dec_strs (dr_RequiredGates r) m; s ← jfield "summary" dec_str (dr_Summary r) m; Some (MkDryRunResult c g s)).
Definition dec_action_params : decoder DoActionParams := dec_struct (λ m p,
  k ← jfield "kind" dec_str (da_Kind p) m; n ← jfield "name" dec_str (da_Name p) m; a ← jfield "action" dec_str (da_Action p) m;
  Some (MkDoActionParams k n a)).
Definition dec_action_result : decoder ActionResult := dec_struct (λ m r,
  t ← jfield "message" dec_str (ar_Message r) m; u ← jfield "url" dec_str (ar_URL r) m;
  c ← jfield "downloadcontent" dec_str (ar_DownloadContent r) m; f ← jfield "downloadfilename" dec_str (ar_DownloadFilename r) m;
  Some (MkActionResult t u c f)).
Definition dec_ref_params : decoder RefParams := dec_struct (λ m p,
  k ← jfield "kind" dec_str (rp_Kind p) m; n ← jfield "name" dec_str (rp_Name p) m; s ← jfield "state" dec_raw (rp_State p) m;
  Some (MkRefParams k n s)).
Definition dec_owner : decoder OwnerOfResult := dec_struct (λ m o,
  k ← jfield "ownerkind" dec_str (oo_Kind o) m; n ← jfield "ownername" dec_str (oo_Name o) m; b ← jfield "owned" dec_bool (oo_Owned o) m;
  Some (MkOwner k n b)).
Definition dec_ref : decoder ResourceRef := dec_struct (λ m r,
  a ← jfield "apiversion" dec_str (rr_APIVersion r) m; k ← jfield "kind" dec_str (rr_Kind r) m; n ← jfield "name" dec_str (rr_Name r) m;
  Some (MkResourceRef a k n)).
Definition dec_children : decoder (list ResourceRef) := dec_struct (λ m l,
  jfield "children" (dec_list (λ v, dec_ref v (MkResourceRef "" "" ""))) l m).

(** ** The server (server.go) *)

(** A handler's error: one of the protocol, or any other with its text. *)
Inductive herror : Type := Wire (e : Error) | Other (text : string).
Definition NotFound (msg : string) : Error := MkError CodeNotFound msg.
Definition Unsupported (msg : string) : Error := MkError CodeUnsupported msg.
Definition toWireError (e : herror) : Error := match e with Wire e => e | Other text => MkError CodeInternal text end.

Section server.
Context {S : Type}.

(** [Handler], on the plugin's state; a nil pointer is [None]. *)
Record Handler : Type := MkHandler {
  h_Handshake : S → result herror (option HandshakeResult) * S;
  h_Configure : option value → S → result herror unit * S;
  h_Apply : ApplyParams → S → result herror (option ApplyResult) * S;
  h_Get : GetParams → S → result herror (option GetResult) * S;
  h_List : string → S → result herror (list (option resource)) * S;
  h_Delete : DeleteParams → S → result herror unit * S;
  h_Plan : option resource → S → result herror (option (list (option resource))) * S;
  h_DryRun : option resource → S → result herror (option DryRunResult) * S;
  h_DoAction : DoActionParams → S → result herror (option ActionResult) * S;
  h_OwnerOf : RefParams → S → result herror (option OwnerOfResult) * S;
  h_ChildrenOf : RefParams → S → result herror (list ResourceRef) * S }.

(** [UnimplementedHandler]: what a plugin gets that embeds it. *)
Definition Unimplemented (hs : S → result herror (option HandshakeResult) * S)
    (apply : ApplyParams → S → result herror (option ApplyResult) * S) (get : GetParams → S → result herror (option GetResult) * S)
    (list : string → S → result herror (list (option resource)) * S) (delete : DeleteParams → S → result herror unit * S) : Handler :=
  MkHandler hs (λ _ s, (Ok tt, s)) apply get list delete
    (λ _ s, (Err (Wire (Unsupported "plan not supported")), s)) (λ _ s, (Err (Wire (Unsupported "dryRun not supported")), s))
    (λ _ s, (Err (Wire (Unsupported "actions not supported")), s)) (λ _ s, (Ok (Some (MkOwner "" "" false)), s)) (λ _ s, (Ok [], s)).

(** What [dispatch] hands back to be marshalled: nothing, or a value; marshalling may
    fail. *)
Inductive reply : Type := NoResult | Result (doc : option value).

(** [decodeParams] *)
Definition decodeParams {A} (d : decoder A) (zero : A) (raw : option value) : result herror A :=
  match raw with
  | None => Ok zero
  | Some v => match d v zero with Some a => Ok a | None => Err (Wire (MkError CodeInvalid "decode params: ")) end
  end.
Definition handled {A B} (p : result herror A) (f : A → S → result herror B * S) (r : B → reply) (s : S) : result herror reply * S :=
  match p with Err e => (Err e, s) | Ok a => let '(b, s') := f a s in (r <$> b, s') end.
Definition pointer {A} (enc : A → option value) (o : option A) : reply := Result (enc_ptr enc o).

(** [dispatch] *)
Definition dispatch (h : Handler) (req : Message) (s : S) : result herror reply * S :=
  let raw := m_Params req in
  if decide (m_Method req = MethodHandshake) then handled (Ok tt) (λ _, h_Handshake h) (pointer (λ h, Some (enc_handshake h))) s
  else if decide (m_Method req = MethodConfigure) then handled (decodeParams dec_configure None raw) (h_Configure h) (λ _, NoResult) s
  else if decide (m_Method req = MethodApply) then
    handled (decodeParams dec_apply_params (MkApplyParams None None None) raw) (h_Apply h) (pointer enc_apply_result) s
  else if decide (m_Method req = MethodGet) then
    handled (decodeParams dec_get_params (MkGetParams "" "" None) raw) (h_Get h) (pointer enc_get_result) s
  else if decide (m_Method req = MethodList) then
    handled (decodeParams dec_list_params "" raw) (h_List h) (λ l, Result (enc_resources "resources" l)) s
  else if decide (m_Method req = MethodDelete) then
    handled (decodeParams dec_delete_params (MkDeleteParams "" "" None None) raw) (h_Delete h) (λ _, NoResult) s
  else if decide (m_Method req = MethodPlan) then
    handled (decodeParams dec_manifest None raw) (h_Plan h) (pointer (enc_resources "children")) s
  else if decide (m_Method req = MethodDryRun) then
    handled (decodeParams dec_manifest None raw) (h_DryRun h) (pointer (λ r, Some (enc_dry_run r))) s
  else if decide (m_Method req = MethodDoAction) then
    handled (decodeParams dec_action_params (MkDoActionParams "" "" "") raw) (h_DoAction h) (pointer (λ r, Some (enc_action_result r))) s
  else if decide (m_Method req = MethodOwnerOf) then
    handled (decodeParams dec_ref_params (MkRefParams "" "" None) raw) (h_OwnerOf h) (pointer (λ o, Some (enc_owner o))) s
  else if decide (m_Method req = MethodChildrenOf) then
    handled (decodeParams dec_ref_params (MkRefParams "" "" None) raw) (h_ChildrenOf h) (λ l, Result (Some (enc_children l))) s
  else (Err (Wire (MkError CodeInvalid ("unknown method: " +:+ m_Method req))), s).

(** One turn of [ServeConn]: the answer, and whether it goes on. *)
Definition respond (id : nat) (result : option value) (error : option Error) : Message := MkMessage id "" None result error.
Definition serve_one (h : Handler) (req : Message) (s : S) : Message * S :=
  if decide (m_Method req = MethodShutdown) then (respond (m_ID req) None None, s)
  else
    let '(r, s') := dispatch h req s in
    (match r with
     | Err e => respond (m_ID req) None (Some (toWireError e))
     | Ok NoResult => respond (m_ID req) None None
     | Ok (Result (Some doc)) => respond (m_ID req) (Some doc) None
     | Ok (Result None) => respond (m_ID req) None (Some (MkError CodeInternal "marshal result: "))
     end, s').

(** [ServeConn] on what it reads until the stream ends; [None] is no JSON. *)
Fixpoint ServeConn (h : Handler) (input : list (option Message)) (s : S) : list Message * S :=
  match input with
  | [] | None :: _ => ([], s)
  | Some req :: input =>
      let '(resp, s') := serve_one h req s in
      if decide (m_Method req = MethodShutdown) then ([resp], s')
      else let '(l, s'') := ServeConn h input s' in (resp :: l, s'')
  end.
End server.
Arguments Handler S : clear implicits.

(** ** The client's methods (client.go) *)

Inductive call_error : Type :=
| ErrMarshal (method : string)
| ErrClosed (e : Error)
| ErrWrite (method : string)
| ErrCancelled
| ErrRemote (e : Error)
| ErrDecode (method : string).

(** What [call] makes of the message that answers it. *)
Definition accept {A} (method : string) (d : decoder A) (zero : A) (msg : Message) : result call_error A :=
  match m_Error msg with
  | Some e => Err (ErrRemote e)
  | None => match m_Result msg with
            | None => Ok zero
            | Some v => match d v zero with Some a => Ok a | None => Err (ErrDecode method) end
            end
  end.

Section client.
(** A round trip on the connection: the message that answers, or why there is none. *)
Context {W : Type} (roundtrip : string → option value → W → result call_error Message * W).

Definition call {A} (method : string) (params : option value) (d : decoder A) (zero : A) (w : W) : result call_error A * W :=
  let '(r, w') := roundtrip method params w in (r ≫= accept method d zero, w').
(** Parameters that cannot be marshalled are not sent. *)
Definition call_with {A} (method : string) (params : option value) (d : decoder A) (zero : A) (w : W) : result call_error A * W :=
  match params with None => (Err (ErrMarshal method), w) | Some v => call method (Some v) d zero w end.
Definition dec_nothing : decoder unit := λ _ _, Some tt.

Definition Handshake : W → result call_error HandshakeResult * W := call MethodHandshake None dec_handshake (MkHandshake "" "" [] []).
Definition Configure (config : option value) : W → result call_error unit * W :=
  call_with MethodConfigure (Some (enc_configure config)) dec_nothing tt.
Definition Apply (p : ApplyParams) : W → result call_error ApplyResult * W :=
  call_with MethodApply (enc_apply_params p) dec_apply_result (MkApplyResult None None None).
Definition Get (p : GetParams) : W → result call_error GetResult * W :=
  call_with MethodGet (Some (enc_get_params p)) dec_get_result (MkGetResult None None).
Definition List (kind : string) : W → result call_error (list (option resource)) * W :=
  call_with MethodList (Some (enc_list_params kind)) (dec_resources "resources") [].
Definition Delete (p : DeleteParams) : W → result call_error unit * W := call_with MethodDelete (Some (enc_delete_params p)) dec_nothing tt.
Definition Plan (m : option resource) : W → result call_error (list (option resource)) * W :=
  call_with MethodPlan (enc_manifest m) (dec_resources "children") [].
Definition DryRun (m : option resource) : W → result call_error DryRunResult * W :=
  call_with MethodDryRun (enc_manifest m) dec_dry_run (MkDryRunResult [] [] "").
Definition DoAction (p : DoActionParams) : W → result call_error ActionResult * W :=
  call_with MethodDoAction (Some (enc_action_params p)) dec_action_result (MkActionResult "" "" "" "").
Definition OwnerOf (p : RefParams) : W → result call_error OwnerOfResult * W :=
  call_with MethodOwnerOf (Some (enc_ref_params p)) dec_owner (MkOwner "" "" false).
Definition ChildrenOf (p : RefParams) : W → result call_error (list ResourceRef) * W :=
  call_with MethodChildrenOf (Some (enc_ref_params p)) dec_children [].
End client.

(** ** What is written is what is read *)

(** A resource through the pipe; nil stays nil. *)
Definition wire (o : option resource) : option (option resource) := match o with None => Some None | Some r => Some <$> json_resource r end.
Definition carried (o : option resource) : Prop := match o with Some r => maps_ok r | None => True end.

Lemma enc_resource_object r v : enc_resource r = Some v → ∃ m, v = VMap m.
Proof. unfold enc_resource. destruct (_ && _); [|done]. intros [= <-]. by eexists. Qed.

Lemma dec_res_enc o init : carried o → default zero_resource init = zero_resource → enc_ptr enc_resource o ≫= (λ v, dec_res v init) = wire o.
Proof.
  intros Hc Hi. destruct o as [r|]; [|done]. simpl in *. pose proof (dec_resource_enc r Hc) as Hd.
  destruct (enc_resource r) as [v|] eqn:He; simpl in *; [|by rewrite <- Hd]. destruct (enc_resource_object _ _ He) as [m ->].
  unfold dec_res, dec_ptr. by rewrite Hi, Hd.
Qed.

Ltac read_pipe tail := rewrite <- (tail_nil tail); unfold dec_struct; cbn -[app jfield]; repeat read_field.

Lemma dec_apply_params_enc p :
  carried (ap_Manifest p) →
  enc_apply_params p ≫= (λ v, dec_apply_params v (MkApplyParams None None None)) =
    (r ← wire (ap_Manifest p); Some (MkApplyParams r (ap_State p) (ap_Private p))).
Proof.
  intros Hc. unfold enc_apply_params. pose proof (dec_res_enc (ap_Manifest p) None Hc eq_refl) as Hd.
  destruct (enc_ptr enc_resource _) as [m|]; cbn [mbind option_bind] in *; [|by rewrite <- Hd].
  unfold dec_apply_params. read_pipe (omit_raw "private" (ap_Private p)).
  rewrite Hd. destruct (wire _); [|done]. cbn [mbind option_bind]. by repeat read_field.
Qed.
Lemma dec_apply_result_enc r :
  carried (ar_Resource r) →
  enc_apply_result r ≫= (λ v, dec_apply_result v (MkApplyResult None None None)) =
    (o ← wire (ar_Resource r); Some (MkApplyResult o (ar_State r) (ar_Private r))).
Proof.
  intros Hc. unfold enc_apply_result. pose proof (dec_res_enc (ar_Resource r) None Hc eq_refl) as Hd.
  destruct (enc_ptr enc_resource _) as [m|]; cbn [mbind option_bind] in *; [|by rewrite <- Hd].
  unfold dec_apply_result. read_pipe (omit_raw "private" (ar_Private r)).
  rewrite Hd. destruct (wire _); [|done]. cbn [mbind option_bind]. by repeat read_field.
Qed.
Lemma dec_get_result_enc r :
  carried (gr_Resource r) →
  enc_get_result r ≫= (λ v, dec_get_result v (MkGetResult None None)) = (o ← wire (gr_Resource r); Some (MkGetResult o (gr_State r))).
Proof.
  intros Hc. unfold enc_get_result. pose proof (dec_res_enc (gr_Resource r) None Hc eq_refl) as Hd.
  destruct (enc_ptr enc_resource _) as [m|]; cbn [mbind option_bind] in *; [|by rewrite <- Hd].
  unfold dec_get_result. read_pipe (omit_raw "state" (gr_State r)).
  rewrite Hd. destruct (wire _); [|done]. cbn [mbind option_bind]. by repeat read_field.
Qed.
Lemma dec_get_params_enc p : dec_get_params (enc_get_params p) (MkGetParams "" "" None) = Some p.
Proof. unfold enc_get_params, dec_get_params. read_pipe (omit_raw "state" (gp_State p)). by destruct p. Qed.
Lemma dec_delete_params_enc p : dec_delete_params (enc_delete_params p) (MkDeleteParams "" "" None None) = Some p.
Proof. unfold enc_delete_params, dec_delete_params. read_pipe (omit_raw "private" (dp_Private p)). by destruct p. Qed.
Lemma dec_ref_params_enc p : dec_ref_params (enc_ref_params p) (MkRefParams "" "" None) = Some p.
Proof. unfold enc_ref_params, dec_ref_params. read_pipe (omit_raw "state" (rp_State p)). by destruct p. Qed.
Lemma dec_action_params_enc p : dec_action_params (enc_action_params p) (MkDoActionParams "" "" "") = Some p.
Proof. by destruct p. Qed.
Lemma dec_action_result_enc r : dec_action_result (enc_action_result r) (MkActionResult "" "" "" "") = Some r.
Proof. unfold enc_action_result, dec_action_result. read_pipe (omit_str "downloadFilename" (ar_DownloadFilename r)). by destruct r. Qed.
Lemma dec_owner_enc o : dec_owner (enc_owner o) (MkOwner "" "" false) = Some o.
Proof. unfold enc_owner, dec_owner. read_pipe [("owned", VBool (oo_Owned o))]. by destruct o. Qed.

Lemma dec_ref_enc r : dec_ref (enc_ref r) (MkResourceRef "" "" "") = Some r.
Proof. by destruct r. Qed.
Lemma dec_children_enc l : dec_children (enc_children l) [] = Some l.
Proof. unfold enc_children, dec_children, dec_struct. rewrite <- (tail_nil (omit_list _ _)). by apply jfield_omit_list; [|lacks_tac|apply dec_ref_enc]. Qed.
Lemma dec_child_enc c : dec_child (enc_child c) (MkChildAction "" "" "" "") = Some c.
Proof. unfold enc_child, dec_child. read_pipe (omit_str "detail" (ca_Detail c)). by destruct c. Qed.
Lemma dec_dry_run_enc r : dec_dry_run (enc_dry_run r) (MkDryRunResult [] [] "") = Some r.
Proof.
  unfold enc_dry_run, dec_dry_run, dec_struct. rewrite <- (tail_nil (omit_str "summary" _)). cbn [dr_Children dr_RequiredGates dr_Summary].
  rewrite jfield_omit_list by (reflexivity || lacks_tac || apply dec_child_enc). cbn [mbind option_bind].
  repeat read_field. by destruct r.
Qed.
Lemma dec_kind_enc k : dec_kind (enc_kind k) (MkKind "" "" [] false "" "") = Some k.
Proof.
  unfold enc_kind, dec_kind, dec_struct. rewrite <- (tail_nil (omit_str "advancedNote" _)).
  cbn [ki_Kind ki_Schema ki_Actions ki_Observed ki_OwnerKind ki_AdvancedNote]. repeat read_field. by destruct k.
Qed.
Lemma dec_handshake_enc h : dec_handshake (enc_handshake h) (MkHandshake "" "" [] []) = Some h.
Proof.
  unfold enc_handshake, dec_handshake, dec_struct. rewrite <- (tail_nil (omit_list "capabilities" _)).
  cbn [hs_ProviderName hs_ProtocolVersion hs_Kinds hs_Capabilities]. repeat read_field. rewrite dec_list_enc by apply dec_kind_enc.
  cbn [mbind option_bind]. repeat read_field. by destruct h.
Qed.
Lemma dec_resources_enc key l :
  ToLower key = key → Forall carried l → enc_resources key l ≫= (λ v, dec_resources key v []) = mapM wire l.
Proof.
  intros Hk Hc. unfold enc_resources, dec_resources, dec_struct.
  assert (mapM (enc_ptr enc_resource) l ≫= (λ l, dec_list (λ v, dec_res v None) (VList l) []) = mapM wire l) as Hl.
  { induction Hc as [|o l Ho _ IH]; [done|]. simpl in *. pose proof (dec_res_enc o None Ho eq_refl) as Hd.
    destruct (enc_ptr enc_resource o) as [v|]; simpl in *; [|by rewrite <- Hd]. rewrite <- IH, <- Hd.
    destruct (mapM (enc_ptr enc_resource) l) as [vs|]; simpl; [done|]. by destruct (dec_res v None). }
  rewrite <- Hl. destruct (mapM (enc_ptr enc_resource) l) as [vs|]; [|done]. cbn [mbind option_bind].
  change [?a] with ([a] ++ [] : gomap). by rewrite jfield_hit by (done || constructor).
Qed.
Lemma dec_manifest_enc o : carried o → enc_manifest o ≫= (λ v, dec_manifest v None) = wire o.
Proof.
  intros Hc. unfold enc_manifest, dec_manifest, dec_struct. pose proof (dec_res_enc o None Hc eq_refl) as Hd.
  destruct (enc_ptr enc_resource o) as [v|]; cbn [mbind option_bind] in *; [|by rewrite <- Hd].
  change [?a] with ([a] ++ [] : gomap). by rewrite jfield_hit by (done || constructor).
Qed.
Lemma dec_configure_enc c : dec_configure (enc_configure c) None = Some c.
Proof. by destruct c. Qed.

(** ** A client connected to a server *)

Section direct.
Context {S : Type} (h : Handler S).

(** A round trip with nobody else on the connection. *)
Definition direct (method : string) (params : option value) (s : S) : result call_error Message * S :=
  let '(msg, s') := serve_one h (MkMessage 0 method params None None) s in (Ok msg, s').

(** What the caller gets of a handler's result: an error of the protocol as it is, any
    other one as an internal error with its text, or the value through the pipe, if it
    can be written. *)
Definition reported (e : herror) : Error := match e with Wire e => MkError (er_Code e) (er_Message e) | Other text => MkError "INTERNAL" text end.
Lemma toWireError_reported e : toWireError e = reported e.
Proof. by destruct e as [[]|]. Qed.
Definition relayed {A B} (f : A → option B) (r : result herror A) : result call_error B :=
  match r with
  | Err e => Err (ErrRemote (reported e))
  | Ok a => match f a with Some b => Ok b | None => Err (ErrRemote (MkError CodeInternal "marshal result: ")) end
  end.
Definition after {A B} (p : result herror A * S) (f : A → option B) : result call_error B * S := (relayed f p.1, p.2).
Definition or_zero {A} (zero : A) (f : A → option A) (o : option A) : option A := match o with Some a => f a | None => Some zero end.

(** One call, given what the parameters and the result are read as. *)
Lemma call_direct {A B C} method (params : option value) (d : decoder C) zero (p : result herror A)
    (f : A → S → result herror B * S) (r : B → reply) (g : B → option C) s :
  method ≠ MethodShutdown →
  dispatch h (MkMessage 0 method params None None) s = handled p f r s →
  (∀ a b s', p = Ok a → f a s = (Ok b, s') →
    match r b with NoResult => g b = Some zero | Result o => o ≫= (λ v, d v zero) = g b ∧ (is_Some o → is_Some (g b)) end) →
  call direct method params d zero s = match p with Ok a => after (f a s) g | Err e => (Err (ErrRemote (toWireError e)), s) end.
Proof.
  intros Hm Hd Hr. unfold call, direct, serve_one. cbn [m_Method m_ID]. rewrite decide_False by done. rewrite Hd. unfold handled.
  destruct p as [a|e]; [|done]. unfold after. destruct (f a s) as [[b|e] s'] eqn:Hf; [|simpl; by rewrite toWireError_reported]. simpl. specialize (Hr a b s' eq_refl Hf).
  destruct (r b) as [|[v|]]; simpl in *; [by rewrite Hr| |].
  - destruct Hr as [Hr Hv]. destruct Hv as [c Hc]; [by eexists|]. unfold accept. simpl. by rewrite Hr, Hc.
  - destruct Hr as [<- _]. done.
Qed.

Lemma enc_wire o : is_Some (enc_ptr enc_resource o) ↔ is_Some (wire o).
Proof.
  destruct o as [r|]; simpl; [|by split; eexists]. unfold enc_resource, json_resource. destruct (_ && _); simpl; [by split; eexists|].
  by split; intros [? ?].
Qed.

(** The resources that the handler hands out have no repeated keys. *)
Record handler_ok : Prop := {
  ok_Apply p s r s' : h_Apply h p s = (Ok (Some r), s') → carried (ar_Resource r);
  ok_Get p s r s' : h_Get h p s = (Ok (Some r), s') → carried (gr_Resource r);
  ok_List k s l s' : h_List h k s = (Ok l, s') → Forall carried l;
  ok_Plan m s l s' : h_Plan h m s = (Ok (Some l), s') → Forall carried l }.

Definition wired_apply (r : ApplyResult) : option ApplyResult := o ← wire (ar_Resource r); Some (MkApplyResult o (ar_State r) (ar_Private r)).
Definition wired_get (r : GetResult) : option GetResult := o ← wire (gr_Resource r); Some (MkGetResult o (gr_State r)).

Lemma Apply_direct p s :
  handler_ok → carried (ap_Manifest p) →
  Apply direct p s = match wire (ap_Manifest p) with
    | None => (Err (ErrMarshal MethodApply), s)
    | Some m => after (h_Apply h (MkApplyParams m (ap_State p) (ap_Private p)) s) (or_zero (MkApplyResult None None None) wired_apply)
    end.
Proof.
  intros Hok Hc. unfold Apply, call_with. pose proof (dec_apply_params_enc p Hc) as Hd.
  assert (is_Some (enc_apply_params p) ↔ is_Some (wire (ap_Manifest p))) as He.
  { rewrite <- enc_wire. unfold enc_apply_params. destruct (enc_ptr _ _); simpl; [by split; eexists|]. by split; intros [? ?]. }
  destruct (enc_apply_params p) as [v|], (wire (ap_Manifest p)) as [m|]; simpl in Hd.
  2: by destruct (proj1 He (ex_intro _ v eq_refl)). 2: by destruct (proj2 He (ex_intro _ m eq_refl)). 2: done.
  erewrite call_direct with (p := Ok (MkApplyParams m (ap_State p) (ap_Private p))) (f := h_Apply h) (r := pointer enc_apply_result);
    [reflexivity|done| |].
  - unfold dispatch. simpl. by rewrite Hd.
  - intros a b s' _ Hb. unfold pointer. destruct b as [b|]; simpl; [|split; [done|by eexists]]. specialize (Hok.(ok_Apply) _ _ _ _ Hb) as Hcb.
    rewrite (dec_apply_result_enc b Hcb). split; [done|]. unfold enc_apply_result, wired_apply. pose proof (enc_wire (ar_Resource b)) as Hw.
    destruct (enc_ptr _ _); simpl; [|by intros [? ?]]. intros _. destruct (proj1 Hw) as [x ->]; by eexists.
Qed.
Lemma Get_direct p s :
  handler_ok → Get direct p s = after (h_Get h p s) (or_zero (MkGetResult None None) wired_get).
Proof.
  intros Hok. unfold Get, call_with.
  erewrite call_direct with (p := Ok p) (f := h_Get h) (r := pointer enc_get_result); [reflexivity|done| |].
  - unfold dispatch, decodeParams. cbn [m_Method m_Params]. by rewrite dec_get_params_enc.
  - intros a b s' _ Hb. unfold pointer. destruct b as [b|]; simpl; [|split; [done|by eexists]]. specialize (Hok.(ok_Get) _ _ _ _ Hb) as Hcb.
    rewrite (dec_get_result_enc b Hcb). split; [done|]. unfold enc_get_result, wired_get. pose proof (enc_wire (gr_Resource b)) as Hw.
    destruct (enc_ptr _ _); simpl; [|by intros [? ?]]. intros _. destruct (proj1 Hw) as [x ->]; by eexists.
Qed.

Lemma enc_wires key l : is_Some (enc_resources key l) → is_Some (mapM wire l).
Proof.
  unfold enc_resources. destruct (mapM (enc_ptr enc_resource) l) as [vs|] eqn:Hm; [|by intros [? ?]]. intros _.
  assert (is_Some (mapM (enc_ptr enc_resource) l)) as Hs%mapM_is_Some by by eexists.
  apply mapM_is_Some. eapply Forall_impl; [exact Hs|]. intros o. apply enc_wire.
Qed.
Lemma List_direct kind s : handler_ok → List direct kind s = after (h_List h kind s) (mapM wire).
Proof.
  intros Hok. unfold List, call_with.
  erewrite call_direct with (p := Ok kind) (f := h_List h) (r := λ l, Result (enc_resources "resources" l)) (g := mapM wire); [reflexivity|done|done|].
  intros a b s' _ Hb. split; [apply dec_resources_enc; [done|by eapply ok_List]|]. apply enc_wires.
Qed.
Lemma Delete_direct p s : Delete direct p s = after (h_Delete h p s) (λ _, Some tt).
Proof.
  unfold Delete, call_with.
  erewrite call_direct with (p := Ok p) (f := h_Delete h) (r := λ _, NoResult) (g := λ _, Some tt); [reflexivity|done| |done].
  unfold dispatch, decodeParams. cbn [m_Method m_Params]. by rewrite dec_delete_params_enc.
Qed.
Lemma Configure_direct c s : Configure direct c s = after (h_Configure h c s) (λ _, Some tt).
Proof.
  unfold Configure, call_with.
  erewrite call_direct with (p := Ok c) (f := h_Configure h) (r := λ _, NoResult) (g := λ _, Some tt); [reflexivity|done| |done].
  unfold dispatch, decodeParams. cbn [m_Method m_Params]. by rewrite dec_configure_enc.
Qed.
Lemma Handshake_direct s : Handshake direct s = after (h_Handshake h s) (or_zero (MkHandshake "" "" [] []) Some).
Proof.
  unfold Handshake.
  erewrite call_direct with (p := Ok tt) (f := λ _, h_Handshake h) (r := pointer (λ h, Some (enc_handshake h)));
    [reflexivity|done|done|].
  intros a b s' _ _. destruct b as [b|]; [|split; [done|by eexists]]. split; [exact (dec_handshake_enc b)|by eexists].
Qed.
Lemma manifest_direct {B C} method (d : decoder C) zero f (r : option B → reply) g m s :
  carried m → method ≠ MethodShutdown →
  (∀ raw, dispatch h (MkMessage 0 method raw None None) s = handled (decodeParams dec_manifest None raw) f r s) →
  (∀ a b s', f a s = (Ok b, s') → match r b with NoResult => g b = Some zero | Result o => o ≫= (λ v, d v zero) = g b ∧ (is_Some o → is_Some (g b)) end) →
  call_with direct method (enc_manifest m) d zero s = match wire m with None => (Err (ErrMarshal method), s) | Some m => after (f m s) g end.
Proof.
  intros Hc Hm Hd Hr. pose proof (dec_manifest_enc m Hc) as He.
  assert (is_Some (enc_manifest m) ↔ is_Some (wire m)) as Hw.
  { rewrite <- enc_wire. unfold enc_manifest. destruct (enc_ptr _ _); simpl; [by split; eexists|]. by split; intros [? ?]. }
  unfold call_with. destruct (enc_manifest m) as [v|], (wire m) as [m'|]; simpl in He.
  2: by destruct (proj1 Hw (ex_intro _ v eq_refl)). 2: by destruct (proj2 Hw (ex_intro _ m' eq_refl)). 2: done.
  erewrite call_direct with (p := Ok m') (f := f) (r := r) (g := g); [reflexivity|done| |by intros a b s' [= <-]; apply Hr].
  rewrite Hd. unfold decodeParams. by rewrite He.
Qed.
Lemma Plan_direct m s :
  handler_ok → carried m →
  Plan direct m s = match wire m with None => (Err (ErrMarshal MethodPlan), s) | Some m => after (h_Plan h m s) (or_zero (A := _) [] (mapM wire)) end.
Proof.
  intros Hok Hc. apply (manifest_direct _ _ _ _ (pointer (enc_resources "children"))); [done|done|done|].
  intros a b s' Hb. destruct b as [b|]; simpl; [|split; [done|by eexists]]. split; [apply dec_resources_enc; [done|by eapply ok_Plan]|apply enc_wires].
Qed.
Lemma DryRun_direct m s :
  carried m →
  DryRun direct m s = match wire m with None => (Err (ErrMarshal MethodDryRun), s)
    | Some m => after (h_DryRun h m s) (or_zero (MkDryRunResult [] [] "") Some) end.
Proof.
  intros Hc. apply (manifest_direct _ _ _ _ (pointer (λ r, Some (enc_dry_run r)))); [done|done|done|].
  intros a b s' _. destruct b as [b|]; [|split; [done|by eexists]]. split; [exact (dec_dry_run_enc b)|by eexists].
Qed.
Lemma DoAction_direct p s : DoAction direct p s = after (h_DoAction h p s) (or_zero (MkActionResult "" "" "" "") Some).
Proof.
  unfold DoAction, call_with.
  erewrite call_direct with (p := Ok p) (f := h_DoAction h) (r := pointer (λ r, Some (enc_action_result r))); [reflexivity|done| |].
  - unfold dispatch. simpl. by destruct p.
  - intros a b s' _ _. destruct b as [b|]; [|split; [done|by eexists]]. split; [exact (dec_action_result_enc b)|by eexists].
Qed.
Lemma OwnerOf_direct p s : OwnerOf direct p s = after (h_OwnerOf h p s) (or_zero (MkOwner "" "" false) Some).
Proof.
  unfold OwnerOf, call_with.
  erewrite call_direct with (p := Ok p) (f := h_OwnerOf h) (r := pointer (λ o, Some (enc_owner o))); [reflexivity|done| |].
  - unfold dispatch, decodeParams. cbn [m_Method m_Params]. by rewrite dec_ref_params_enc.
  - intros a b s' _ _. destruct b as [b|]; [|split; [done|by eexists]]. split; [exact (dec_owner_enc b)|by eexists].
Qed.
Lemma ChildrenOf_direct p s : ChildrenOf direct p s = after (h_ChildrenOf h p s) Some.
Proof.
  unfold ChildrenOf, call_with.
  erewrite call_direct with (p := Ok p) (f := h_ChildrenOf h) (r := λ l, Result (Some (enc_children l))) (g := Some); [reflexivity|done| |].
  - unfold dispatch, decodeParams. cbn [m_Method m_Params]. by rewrite dec_ref_params_enc.
  - intros a b s' _ _. split; [exact (dec_children_enc b)|by eexists].
Qed.
End direct.
