(* ===== verification/PluginConn.v ===== *)
(** Concurrent calls on one connection: the client of src/pkg/pluginproto/client.go,
    whose callers share a pipe and a reader, and a plugin that serves at the other end
    (PluginProto). Each step is one of the critical sections of the client, one turn of
    the plugin or a failure; their order is arbitrary. *)
From stdpp Require Import gmap.
From S2P Require Import Prelude GoValue Json PluginProto.

Section connection.
Context {S : Type} (h : Handler S) (init : S).

(** Where a call is: registered but not written, waiting in its [select], returned. *)
Inductive phase : Type :=
| ToWrite
| Waiting
| Done (r : result call_error Message).

(** The client: [nextID], [pending] and [closed]; [mailbox] holds the one message that a
    call's channel can hold. The pipes, and the plugin while it runs. [args] and [log]
    are not in the code: what each call asked for, and what the plugin answered. *)
Record system : Type := MkSystem {
  nextID : nat; pending : gset nat; closed : option Error; mailbox : gmap nat Message; phases : gmap nat phase;
  requests : list Message; responses : list Message; plugin : option S;
  args : gmap nat (string * option value); log : list (Message * Message) }.

Definition start : system := MkSystem 0 ∅ None ∅ ∅ [] [] (Some init) ∅ [].
Definition request (id : nat) (a : string * option value) : Message := MkMessage id a.1 a.2 None None.
Definition closing (id : nat) (e : Error) : Message := MkMessage id "" None None (Some e).

(** [failAll]: every pending call gets the error. *)
Definition fail_all (e : Error) (σ : system) : system :=
  MkSystem (nextID σ) ∅ (Some e) (set_to_map (λ id, (id, closing id e)) (pending σ) ∪ mailbox σ) (phases σ)
    (requests σ) (responses σ) (plugin σ) (args σ) (log σ).
(** One message of [readLoop]: a message that no call waits for is dropped. *)
Definition deliver (msg : Message) (rest : list Message) (σ : system) : system :=
  if decide (m_ID msg ∈ pending σ) then
    MkSystem (nextID σ) (pending σ ∖ {[m_ID msg]}) (closed σ) (<[m_ID msg := msg]> (mailbox σ)) (phases σ)
      (requests σ) rest (plugin σ) (args σ) (log σ)
  else MkSystem (nextID σ) (pending σ) (closed σ) (mailbox σ) (phases σ) (requests σ) rest (plugin σ) (args σ) (log σ).
Definition register (a : string * option value) (σ : system) : system :=
  let id := Datatypes.S (nextID σ) in
  MkSystem id ({[id]} ∪ pending σ) (closed σ) (mailbox σ) (<[id := ToWrite]> (phases σ)) (requests σ) (responses σ) (plugin σ)
    (<[id := a]> (args σ)) (log σ).
Definition written (id : nat) (a : string * option value) (σ : system) : system :=
  MkSystem (nextID σ) (pending σ) (closed σ) (mailbox σ) (<[id := Waiting]> (phases σ)) (requests σ ++ [request id a])
    (responses σ) (plugin σ) (args σ) (log σ).
Definition returned (id : nat) (r : result call_error Message) (p : gset nat) (σ : system) : system :=
  MkSystem (nextID σ) p (closed σ) (mailbox σ) (<[id := Done r]> (phases σ)) (requests σ) (responses σ) (plugin σ) (args σ) (log σ).
(** One turn of [ServeConn]; after a shutdown it is the last. *)
Definition served (req : Message) (rest : list Message) (s : S) (σ : system) : system :=
  let '(msg, s') := serve_one h req s in
  MkSystem (nextID σ) (pending σ) (closed σ) (mailbox σ) (phases σ) rest (responses σ ++ [msg])
    (if decide (m_Method req = MethodShutdown) then None else Some s') (args σ) (log σ ++ [(req, msg)]).
Definition crashed (σ : system) : system :=
  MkSystem (nextID σ) (pending σ) (closed σ) (mailbox σ) (phases σ) (requests σ) (responses σ) None (args σ) (log σ).

(** What happens when nothing fails: the plugin serves, the reader reads, a call takes
    its message. *)
Inductive quiet_step (σ : system) : system → Prop :=
| step_serve req rest s : requests σ = req :: rest → plugin σ = Some s → quiet_step σ (served req rest s σ)
| step_read msg rest : closed σ = None → responses σ = msg :: rest → quiet_step σ (deliver msg rest σ)
| step_receive id msg : phases σ !! id = Some Waiting → mailbox σ !! id = Some msg → quiet_step σ (returned id (Ok msg) (pending σ) σ).
(** Everything: calls come and are written, or fail to be, or are cancelled; the plugin
    goes away; the reader meets an error and closes. *)
Inductive conn_step (σ : system) : system → Prop :=
| step_quiet σ' : quiet_step σ σ' → conn_step σ σ'
| step_register a : closed σ = None → conn_step σ (register a σ)
| step_write id a : phases σ !! id = Some ToWrite → args σ !! id = Some a → conn_step σ (written id a σ)
| step_write_error id method : phases σ !! id = Some ToWrite → conn_step σ (returned id (Err (ErrWrite method)) (pending σ ∖ {[id]}) σ)
| step_cancel id : phases σ !! id = Some Waiting → conn_step σ (returned id (Err ErrCancelled) (pending σ ∖ {[id]}) σ)
| step_crash : conn_step σ (crashed σ)
| step_read_error e : closed σ = None → conn_step σ (fail_all e σ).

Definition reachable (σ : system) : Prop := rtc conn_step start σ.
Definition serve_all (reqs : list Message) : S := fold_left (λ s req, (serve_one h req s).2) reqs init.

(** ** The invariants *)

(** Identifiers: a request on its way or served is the one its call asked for, and
    there is one of each. *)
Record identified (σ : system) : Prop := {
  id_fresh id a : args σ !! id = Some a → id ≤ nextID σ;
  id_args id p : phases σ !! id = Some p → is_Some (args σ !! id);
  id_sent req : req ∈ (log σ).*1 ++ requests σ →
    phases σ !! m_ID req ≠ Some ToWrite ∧ ∃ a, args σ !! m_ID req = Some a ∧ req = request (m_ID req) a;
  id_once : NoDup (map m_ID ((log σ).*1 ++ requests σ)) }.

(** Answers: what the plugin wrote is what its handler says at that point, and a call is
    given the answer to its own request, or the error of the closed connection. *)
Definition answered (σ : system) (req msg : Message) : Prop :=
  ∃ l l', (log σ).*1 = l ++ req :: l' ∧ msg = (serve_one h req (serve_all l)).1.
Definition belongs (σ : system) (id : nat) (msg : Message) : Prop :=
  (∃ e, closed σ = Some e ∧ msg = closing id e) ∨ (∃ a, args σ !! id = Some a ∧ answered σ (request id a) msg).
Record correlated (σ : system) : Prop := {
  co_plugin s : plugin σ = Some s → s = serve_all (log σ).*1;
  co_responses msg : msg ∈ responses σ → ∃ req, req ∈ (log σ).*1 ∧ m_ID req = m_ID msg ∧ answered σ req msg;
  co_mailbox id msg : mailbox σ !! id = Some msg → belongs σ id msg;
  co_done id msg : phases σ !! id = Some (Done (Ok msg)) → belongs σ id msg }.

(** Progress: a call that has not returned is pending or has its message; one that is
    pending after its request was written still has it or its answer in a pipe, unless
    the plugin went away. *)
Record lively (σ : system) : Prop := {
  li_closed id : id ∈ pending σ → closed σ = None;
  li_alive id p : phases σ !! id = Some p → p = ToWrite ∨ p = Waiting → id ∈ pending σ ∨ is_Some (mailbox σ !! id);
  li_waiting id : id ∈ pending σ → phases σ !! id = Some Waiting →
    id ∈ map m_ID (requests σ) ∨ id ∈ map m_ID (responses σ) ∨ plugin σ = None }.

Lemma serve_one_id req s : m_ID (serve_one h req s).1 = m_ID req.
Proof. unfold serve_one. case_decide; [done|]. destruct (dispatch h req s) as [[[|[|]]|] ?]; done. Qed.
Lemma serve_all_snoc l req : serve_all (l ++ [req]) = (serve_one h req (serve_all l)).2.
Proof. unfold serve_all. by rewrite fold_left_app. Qed.

(** A connection only gains: what belongs to a call keeps belonging to it. *)
Definition grows (σ σ' : system) : Prop :=
  args σ ⊆ args σ' ∧ (log σ).*1 `prefix_of` (log σ').*1 ∧ (closed σ = None ∨ closed σ = closed σ').
Lemma answered_grows σ σ' req msg : grows σ σ' → answered σ req msg → answered σ' req msg.
Proof. intros (_ & [k Hk] & _) (l & l' & Hl & Hm). exists l, (l' ++ k). by rewrite Hk, Hl, <- app_assoc. Qed.
Lemma belongs_grows σ σ' id msg : grows σ σ' → belongs σ id msg → belongs σ' id msg.
Proof.
  intros Hg [(e & He & Hm)|(a & Ha & Hm)].
  - destruct Hg as (_ & _ & [Hn|Hc]); [congruence|]. left. exists e. by rewrite <- Hc.
  - right. exists a. split; [|by eapply answered_grows]. destruct Hg as [Ha' _]. by eapply lookup_weaken.
Qed.

Lemma step_grows σ σ' : identified σ → conn_step σ σ' → grows σ σ'.
Proof.
  intros Hi Hs. destruct Hs as [σ' Hs|a|id a|id m|id| |e]; [destruct Hs as [req rest s|msg rest|id msg]|..];
    unfold grows, served, deliver; try case_decide; try destruct (serve_one _ _ _); simpl; rewrite ?fmap_app;
    split_and!; try done; try (by right); try (by left); try (by exists [req]).
  - apply insert_subseteq. destruct (args σ !! Datatypes.S (nextID σ)) as [b|] eqn:Hb; [|done].
    apply (id_fresh _ Hi) in Hb. lia.
Qed.

Lemma returned_identified id r p σ : identified σ → is_Some (phases σ !! id) → identified (returned id r p σ).
Proof.
  intros [Hf Ha Hs Ho] [q Hq]. split; simpl; [done| | |done].
  - intros id' p' Hp. apply lookup_insert_Some in Hp as [[<- _]|[_ Hp]]; eauto.
  - intros req Hr. destruct (Hs _ Hr) as [Hn Hx]. split; [|done]. intros Hp. by apply lookup_insert_Some in Hp as [[_ ?]|[_ Hp]].
Qed.
Lemma identified_step σ σ' : identified σ → conn_step σ σ' → identified σ'.
Proof.
  intros Hi Hs. destruct Hs as [σ' Hs|a _|id a Hp Ha|id m Hp|id Hp| |e _]; [destruct Hs as [req rest s Hr _|msg rest _ _|id msg Hp _]|..];
    try (by apply returned_identified; [|eexists]); destruct Hi as [Hf Hg Hs Ho].
  - unfold served. destruct (serve_one h req s) as [msg s']. 
    assert ((log σ ++ [(req, msg)]).*1 ++ rest = (log σ).*1 ++ requests σ) as Hl by (by rewrite fmap_app, <- app_assoc, Hr).
    split; cbn [log requests args phases nextID]; try rewrite Hl; done.
  - unfold deliver. case_decide; by split.
  - split; simpl; [| | |done].
    + intros id b Hb. apply lookup_insert_Some in Hb as [[<- _]|[_ Hb]]; [lia|]. apply Hf in Hb. lia.
    + intros id p Hp. destruct (decide (id = Datatypes.S (nextID σ))) as [->|Hn]; [rewrite lookup_insert_eq; by eexists|].
      rewrite lookup_insert_ne in Hp by done. rewrite lookup_insert_ne by done. by eapply Hg.
    + intros req Hr. destruct (Hs _ Hr) as (Hn & b & Hb & He). assert (m_ID req ≠ Datatypes.S (nextID σ)) as Hne by (apply Hf in Hb; lia).
      rewrite !lookup_insert_ne by done. eauto.
  - split; simpl; [done| | |].
    + intros id' p Hp'. apply lookup_insert_Some in Hp' as [[<- _]|[_ Hp']]; [by eexists|eauto].
    + intros req. rewrite app_assoc. intros [Hr|Hr]%elem_of_app.
      * destruct (Hs _ Hr) as [Hn Hx]. split; [|done]. intros Hq. by apply lookup_insert_Some in Hq as [[_ ?]|[_ ?]].
      * apply list_elem_of_singleton in Hr as ->. simpl. rewrite lookup_insert_eq. eauto.
    + rewrite app_assoc, map_app. apply NoDup_app. split; [done|]. split; [|apply NoDup_singleton].
      intros x Hx ->%list_elem_of_singleton. simpl in Hx. apply list_elem_of_fmap in Hx as (req & -> & Hr). by destruct (Hs _ Hr).
  - by split.
  - by split.
Qed.

Lemma returned_correlated id r p σ :
  correlated σ → (∀ msg, r = Ok msg → belongs σ id msg) → correlated (returned id r p σ).
Proof.
  intros [Hp Hr Hm Hd] Hb. split; simpl; [done..|].
  intros id' msg Hx. apply lookup_insert_Some in Hx as [[<- [= Hx]]|[_ Hx]]; [by apply Hb|by apply Hd].
Qed.
Lemma served_correlated req rest s σ :
  identified σ → correlated σ → requests σ = req :: rest → plugin σ = Some s → correlated (served req rest s σ).
Proof.
  intros Hi Hc Hq Hs. assert (grows σ (served req rest s σ)) as Hg by (by eapply step_grows, step_quiet, step_serve).
  destruct Hc as [Hp Hr Hm Hd]. pose proof (Hp _ Hs) as ->. pose proof (serve_all_snoc (log σ).*1 req) as Hsn.
  pose proof (serve_one_id req (serve_all (log σ).*1)) as Hid. revert Hg. unfold served.
  destruct (serve_one h req _) as [msg s'] eqn:He. simpl in Hid, Hsn. intros Hg.
  split; simpl; rewrite ?fmap_app.
  - intros x. case_decide; [done|]. intros [= <-]. simpl. by rewrite Hsn.
  - intros m [Hx| ->%list_elem_of_singleton]%elem_of_app.
    + destruct (Hr _ Hx) as (q & Hl & Hm' & Ha). exists q. split; [set_solver|]. split; [done|]. by eapply answered_grows.
    + exists req. split; [set_solver|]. split; [done|]. exists (log σ).*1, []. simpl. by rewrite fmap_app, He.
  - intros id m Hx. eapply belongs_grows; [exact Hg|eauto].
  - intros id m Hx. eapply belongs_grows; [exact Hg|eauto].
Qed.
Lemma delivered_correlated msg rest σ :
  identified σ → correlated σ → responses σ = msg :: rest → correlated (deliver msg rest σ).
Proof.
  intros Hi [Hp Hr Hm Hd] Hq. assert (∀ m, m ∈ rest → m ∈ responses σ) as Hsub by (rewrite Hq; set_solver).
  destruct (Hr msg) as (req & Hl & Hid & Ha); [rewrite Hq; set_solver|].
  unfold deliver. case_decide; split; simpl; eauto. intros id m Hx. apply lookup_insert_Some in Hx as [[<- <-]|[_ Hx]]; [|eauto].
  destruct (id_sent _ Hi req) as (_ & a & Hx & He); [set_solver|]. right. exists a. rewrite <- Hid. split; [done|]. by rewrite <- He.
Qed.
Lemma correlated_step σ σ' : identified σ → correlated σ → conn_step σ σ' → correlated σ'.
Proof.
  intros Hi Hc Hs. pose proof (step_grows _ _ Hi Hs) as Hg. assert (∀ id msg, belongs σ id msg → belongs σ' id msg) as Hb
    by (by intros; eapply belongs_grows).
  destruct Hs as [σ' [req rest s Hr Hp|msg rest _ Hr|id msg Hp Hm]|a _|id a Hp Ha|id m Hp|id Hp| |e Hn];
    try (by apply returned_correlated); [by apply served_correlated|by apply delivered_correlated| | | | |].
  - apply returned_correlated; [done|]. intros m [= <-]. by apply Hc.
  - destruct Hc as [Hp Hr Hm Hd]. split; simpl; [done|done|eauto|].
    intros id msg Hx. apply lookup_insert_Some in Hx as [[_ ?]|[_ Hx]]; [done|eauto].
  - destruct Hc as [Hpl Hr Hm Hd]. split; simpl; [done|done|eauto|].
    intros id' msg Hx. apply lookup_insert_Some in Hx as [[_ ?]|[_ Hx]]; [done|eauto].
  - destruct Hc as [Hpl Hr Hm Hd]. by split.
  - destruct Hc as [Hpl Hr Hm Hd]. split; simpl; [done|done| |eauto].
    intros id msg Hx. apply lookup_union_Some_raw in Hx as [Hx|[_ Hx]]; [|eauto].
    apply lookup_set_to_map in Hx as (id' & _ & [= -> <-]); [|done]. left. by exists e.
Qed.

Lemma returned_lively id r p σ :
  lively σ → p ⊆ pending σ → (∀ x, x ∈ pending σ → x ≠ id → x ∈ p) → lively (returned id r p σ).
Proof.
  intros [Hc Ha Hw] Hp Hx. split; simpl.
  - intros x Hin. by eapply Hc, Hp.
  - intros x q Hq Ho. apply lookup_insert_Some in Hq as [[_ <-]|[Hn Hq]]; [by destruct Ho|].
    destruct (Ha _ _ Hq Ho) as [Hi|?]; [left; by apply Hx|by right].
  - intros x Hin Hq. apply lookup_insert_Some in Hq as [[_ ?]|[_ Hq]]; [done|]. by apply Hw; [apply Hp|].
Qed.
Lemma delivered_lively msg rest σ : lively σ → responses σ = msg :: rest → lively (deliver msg rest σ).
Proof.
  intros [Hc Ha Hw] Hr. unfold deliver. case_decide as Hd; split; simpl.
  - set_solver.
  - intros id p Hp Ho. destruct (decide (id = m_ID msg)) as [->|Hn]; [right; rewrite lookup_insert_eq; by eexists|].
    rewrite lookup_insert_ne by done. destruct (Ha _ _ Hp Ho); [left; set_solver|by right].
  - intros id [Hin Hn]%elem_of_difference Hp. rewrite Hr in Hw. specialize (Hw _ Hin Hp). set_solver.
  - done.
  - done.
  - intros id Hin Hp. rewrite Hr in Hw. specialize (Hw _ Hin Hp). set_solver.
Qed.
Lemma lively_step σ σ' : lively σ → conn_step σ σ' → lively σ'.
Proof.
  intros Hl Hs. destruct Hs as [σ' [req rest s Hr Hp|msg rest _ Hr|id msg Hp Hm]|a Hn|id a Hp Ha|id m Hp|id Hp| |e Hn];
    try (by apply returned_lively; [done|set_solver..]); [|by apply delivered_lively|..]; destruct Hl as [Hc Hal Hw].
  - pose proof (serve_one_id req s) as Hid. unfold served. destruct (serve_one h req s) as [msg s']. simpl in Hid. split; simpl; [done|done|].
    intros id Hin Hq. rewrite map_app. destruct (Hw _ Hin Hq) as [Hx|[Hx|Hx]]; [|set_solver|congruence].
    rewrite Hr in Hx. set_solver.
  - split; simpl; [done| |].
    + intros id p Hp Ho. apply lookup_insert_Some in Hp as [[<- _]|[_ Hp]]; [left; set_solver|].
      destruct (Hal _ _ Hp Ho); [left; set_solver|by right].
    + intros id Hin Hp. apply lookup_insert_Some in Hp as [[_ ?]|[Hne Hp]]; [done|]. apply Hw; [set_solver|done].
  - split; simpl; [done| |].
    + intros id' p Hp' Ho. apply lookup_insert_Some in Hp' as [[<- _]|[_ Hp']]; [by eapply Hal; [|left]|eauto].
    + intros id' Hin Hp'. rewrite map_app. apply lookup_insert_Some in Hp' as [[<- _]|[_ Hp']]; [set_solver|].
      destruct (Hw _ Hin Hp'); set_solver.
  - split; simpl; [done|done|]. by right; right.
  - split; simpl; [set_solver| |set_solver]. intros id p Hp Ho. right. apply lookup_union_is_Some.
    destruct (Hal _ _ Hp Ho) as [Hin|?]; [left|by right]. exists (closing id e). apply lookup_set_to_map; [done|]. by exists id.
Qed.

Lemma reachable_ok σ : reachable σ → identified σ ∧ correlated σ ∧ lively σ.
Proof.
  intros Hr. apply (rtc_ind_r (λ σ, identified σ ∧ correlated σ ∧ lively σ) start) in Hr; [done| |].
  - split_and!; split; simpl; try done; try set_solver. apply NoDup_nil_2.
  - intros σ1 σ2 _ Hs (Hi & Hc & Hl). split_and!; [by eapply identified_step|by eapply correlated_step|by eapply lively_step].
Qed.

(** ** The theorems *)

Lemma accept_alone {A} id a (d : decoder A) zero s :
  accept a.1 d zero (serve_one h (request id a) s).1 = (call (direct h) a.1 a.2 d zero s).1.
Proof.
  unfold call, direct, serve_one, request. cbn [m_Method m_ID]. case_decide; [done|].
  change (dispatch h (MkMessage id a.1 a.2 None None) s) with (dispatch h (MkMessage 0 a.1 a.2 None None) s).
  by destruct (dispatch h _ s) as [[[|[|]]|] ?].
Qed.

(** C32: calls that share a connection do not get each other's answers: whatever the
    order of writes, answers, cancellations and failures, a call that returns a message
    has the error of the closed connection, or the plugin served its request, exactly
    once, and the caller is told what it would be told with the connection to itself,
    by the plugin in the state that the requests served before have left. *)
Theorem call_correlation σ id a msg :
  reachable σ → args σ !! id = Some a → phases σ !! id = Some (Done (Ok msg)) →
  (∃ e, closed σ = Some e ∧ msg = closing id e) ∨
  ∃ before later, (log σ).*1 = before ++ request id a :: later ∧ (id ∉ map m_ID (before ++ later)) ∧
    ∀ A (d : decoder A) zero, accept a.1 d zero msg = (call (direct h) a.1 a.2 d zero (serve_all before)).1.
Proof.
  intros Hr Ha Hp. destruct (reachable_ok _ Hr) as (Hi & Hc & _).
  destruct (co_done _ Hc _ _ Hp) as [He|(b & Hb & l & l' & Hl & Hm)]; [by left|]. right. simplify_eq.
  exists l, l'. split; [done|]. split; [|by intros; apply accept_alone].
  pose proof (id_once _ Hi) as Hn. rewrite Hl, map_app in Hn. apply NoDup_app in Hn as (Hn & _ & _).
  rewrite map_app in Hn. simpl in Hn. rewrite map_app. apply NoDup_app in Hn as (_ & Hn1 & [Hn2 _]%NoDup_cons).
  intros [Hx|Hx]%elem_of_app; [|done]. apply (Hn1 _ Hx). simpl. by left.
Qed.

Lemma serve_everything reqs σ :
  requests σ = reqs → is_Some (plugin σ) → Forall (λ req, m_Method req ≠ MethodShutdown) reqs →
  ∃ σ', rtc quiet_step σ σ' ∧ requests σ' = [] ∧ is_Some (plugin σ') ∧ closed σ' = closed σ ∧ phases σ' = phases σ.
Proof.
  revert σ. induction reqs as [|req reqs IH]; intros σ Hr [s Hs] Hf; [exists σ; split; [done|]; by rewrite Hs; eauto|].
  apply Forall_cons in Hf as [Hf Hfs]. pose proof (step_serve σ _ _ _ Hr Hs) as Hst. revert Hst. unfold served.
  destruct (serve_one h req s) as [msg s']. rewrite decide_False by done. intros Hst.
  match type of Hst with quiet_step _ ?τ => destruct (IH τ eq_refl (ex_intro _ s' eq_refl) Hfs) as (σ' & Hrt & Hx) end. exists σ'. split; [by eapply rtc_l|done].
Qed.
Lemma read_everything resps σ :
  responses σ = resps → closed σ = None →
  ∃ σ', rtc quiet_step σ σ' ∧ responses σ' = [] ∧ closed σ' = None ∧ requests σ' = requests σ ∧ plugin σ' = plugin σ ∧ phases σ' = phases σ.
Proof.
  revert σ. induction resps as [|msg resps IH]; intros σ Hr Hc; [by exists σ|].
  destruct (IH (deliver msg resps σ)) as (σ' & Hrt & Hx).
  - unfold deliver. by case_decide.
  - unfold deliver. by case_decide.
  - exists σ'. split; [by eapply rtc_l; [apply step_read|]|]. revert Hx. unfold deliver. by case_decide.
Qed.
Lemma quiet_reachable σ σ' : reachable σ → rtc quiet_step σ σ' → reachable σ'.
Proof. intros Hr Hq. unfold reachable in *. etrans; [exact Hr|]. eapply rtc_subrel; [|exact Hq]. intros ? ? ?. by apply step_quiet. Qed.

(** C33: no caller blocks for ever: a call that waits gets its message by the steps of
    the plugin and of the reader alone, when the plugin runs and has not been told to shut
    down; when the connection was closed, its message is already there. *)
Theorem waiting_call_returns σ id :
  reachable σ → phases σ !! id = Some Waiting →
  is_Some (closed σ) ∨ is_Some (plugin σ) ∧ Forall (λ req, m_Method req ≠ MethodShutdown) (requests σ) →
  ∃ σ' msg, rtc quiet_step σ σ' ∧ closed σ' = closed σ ∧ phases σ' !! id = Some (Done (Ok msg)).
Proof.
  intros Hr Hp Hc.
  assert (∀ σ0, rtc quiet_step σ σ0 → closed σ0 = closed σ → phases σ0 = phases σ → is_Some (mailbox σ0 !! id) →
    ∃ σ' msg, rtc quiet_step σ σ' ∧ closed σ' = closed σ ∧ phases σ' !! id = Some (Done (Ok msg))) as Hfin.
  { intros σ0 Hq Hcl Hph [msg Hm]. exists (returned id (Ok msg) (pending σ0) σ0), msg. split; [|split; [done|by apply lookup_insert_eq]].
    eapply rtc_r; [exact Hq|]. apply step_receive; [by rewrite Hph|done]. }
  destruct (closed σ) as [e|] eqn:Hcl.
  - apply (Hfin σ); [done..|]. destruct (reachable_ok _ Hr) as (_ & _ & Hl).
    destruct (li_alive _ Hl _ _ Hp) as [Hin|?]; [by right| |done]. apply (li_closed _ Hl) in Hin. congruence.
  - destruct Hc as [[? ?]|[Hpl Hf]]; [done|]. destruct (serve_everything _ _ eq_refl Hpl Hf) as (σ1 & H1 & Hq1 & Hp1 & Hc1 & Hph1).
    destruct (read_everything _ σ1 eq_refl) as (σ2 & H2 & Hr2 & Hc2 & Hq2 & Hp2 & Hph2); [congruence|].
    assert (rtc quiet_step σ σ2) as H12 by (by etrans).
    apply (Hfin σ2); [done|congruence|congruence|]. destruct (reachable_ok _ (quiet_reachable _ _ Hr H12)) as (_ & _ & Hl).
    assert (phases σ2 !! id = Some Waiting) as Hw by congruence.
    destruct (li_alive _ Hl _ _ Hw) as [Hin|?]; [by right| |done].
    destruct (li_waiting _ Hl _ Hin Hw) as [Hx|[Hx|Hx]].
    + rewrite Hq2, Hq1 in Hx. by apply elem_of_nil in Hx.
    + rewrite Hr2 in Hx. by apply elem_of_nil in Hx.
    + rewrite Hp2 in Hx. destruct Hp1. congruence.
Qed.
End connection.

(** ** Two calls that cross on a connection *)

Definition counting : Handler nat :=
  Unimplemented (λ n, (Ok (Some (MkHandshake "counting" ProtocolVersion [] [])), n)) (λ _ n, (Ok None, n))
    (λ p n, (Ok (Some (MkGetResult None (Some (VList [VStr (gp_Name p); VInt (Z.of_nat n)])))), Datatypes.S n)) (λ _ n, (Ok [], n)) (λ _ n, (Ok tt, n)).
Definition asks (name : string) : string * option value := (MethodGet, Some (enc_get_params (MkGetParams "VM" name None))).
(** The second call is written first. *)
Definition crossing : @system nat :=
  served counting (request 2 (asks "b")) [request 1 (asks "a")] 0
    (written 1 (asks "a") (written 2 (asks "b") (register (asks "b") (register (asks "a") (start 0))))).
Lemma crossing_reachable : reachable counting 0 crossing.
Proof.
  eapply rtc_l; [by apply (step_register _ _ (asks "a"))|]. eapply rtc_l; [by apply (step_register _ _ (asks "b"))|].
  eapply rtc_l; [by apply (step_write _ _ 2 (asks "b"))|]. eapply rtc_l; [by apply (step_write _ _ 1 (asks "a"))|].
  eapply rtc_l; [by apply step_quiet, (step_serve counting _ (request 2 (asks "b")) [request 1 (asks "a")] 0)|]. apply rtc_refl.
Qed.
Lemma waiting_call_returns_witness :
  ∃ σ' msg, rtc (quiet_step counting) crossing σ' ∧ closed σ' = None ∧ phases σ' !! 1 = Some (Done (Ok msg)).
Proof.
  apply (waiting_call_returns counting 0 crossing 1 crossing_reachable); [reflexivity|]. right.
  split; [by exists 1|]. by repeat constructor.
Defined.
Definition crossed : @system nat :=
  let answer := (serve_one counting (request 2 (asks "b")) 0).1 in
  let σ := deliver answer [] crossing in returned 2 (Ok answer) (pending σ) σ.
Lemma crossed_reachable : reachable counting 0 crossed.
Proof.
  unfold reachable. etrans; [exact crossing_reachable|].
  eapply rtc_l; [apply step_quiet, (step_read counting _ (serve_one counting (request 2 (asks "b")) 0).1 []); reflexivity|].
  apply rtc_once, step_quiet. apply (step_receive counting (deliver _ [] crossing) 2); vm_compute; reflexivity.
Qed.
Lemma call_correlation_witness :
  ∃ before later, (log crossed).*1 = before ++ request 2 (asks "b") :: later ∧
    (call (direct counting) MethodGet (asks "b").2 dec_get_result (MkGetResult None None) (serve_all counting 0 before)).1 =
      Ok (MkGetResult None (Some (VList [VStr "b"; VInt 0]))).
Proof.
  destruct (call_correlation counting 0 crossed 2 (asks "b") (serve_one counting (request 2 (asks "b")) 0).1 crossed_reachable)
    as [(e & He & _)|(l & l' & Hl & _ & Hc)]; [vm_compute; reflexivity|vm_compute; reflexivity|discriminate|].
  exists l, l'. split; [exact Hl|]. exact (eq_sym (Hc _ dec_get_result (MkGetResult None None))).
Defined.
