(* ===== verification/JsonCode.v ===== *)
(** Texts of JSON documents, for the witnesses that need a reader and a writer of
    them: a document as a numeral. *)
From stdpp Require Import countable.
From Stdlib Require Import Ascii.
From Corelib Require Import Floats.SpecFloat.
From S2P Require Import Prelude GoValue.

#[local] Instance spec_float_countable : Countable spec_float.
Proof.
  apply (inj_countable' (λ f, match f with S754_zero b => inl (inl b) | S754_infinity b => inl (inr b) | S754_nan => inr None
      | S754_finite b m e => inr (Some (b, m, e)) end)
    (λ x : (bool + bool) + option (bool * positive * Z), match x with inl (inl b) => S754_zero b | inl (inr b) => S754_infinity b
      | inr None => S754_nan | inr (Some (b, m, e)) => S754_finite b m e end)). by intros [].
Defined.
Definition leaf : Type := unit + bool + Z + spec_float + string.
Fixpoint to_tree (v : value) : gen_tree leaf :=
  match v with
  | VNull => GenLeaf (inl (inl (inl (inl tt))))
  | VBool b => GenLeaf (inl (inl (inl (inr b))))
  | VInt z => GenLeaf (inl (inl (inr z)))
  | VFloat f => GenLeaf (inl (inr f))
  | VStr s => GenLeaf (inr s)
  | VList l => GenNode 0 (map to_tree l)
  | VMap m => GenNode 1 (map (λ p, GenNode 2 [GenLeaf (inr p.1); to_tree p.2]) m)
  end.
Fixpoint of_tree (t : gen_tree leaf) : value :=
  match t with
  | GenLeaf (inl (inl (inl (inl _)))) => VNull
  | GenLeaf (inl (inl (inl (inr b)))) => VBool b
  | GenLeaf (inl (inl (inr z))) => VInt z
  | GenLeaf (inl (inr f)) => VFloat f
  | GenLeaf (inr s) => VStr s
  | GenNode 0 l => VList (map of_tree l)
  | GenNode _ l => VMap (map (λ t, match t with GenNode _ [GenLeaf (inr k); v] => (k, of_tree v) | _ => ("", VNull) end) l)
  end.
Lemma of_to_tree v : of_tree (to_tree v) = v.
Proof.
  induction v as [ |b|z|f|s|l IH|m IH] using value_ind'; simpl; try done; f_equal.
  - induction IH as [|v l Hv _ IHl]; simpl; [done|]. by rewrite Hv, IHl.
  - induction IH as [|[k v] m Hv _ IHm]; simpl in *; [done|]. by rewrite Hv, IHm.
Qed.
Fixpoint digits (n : positive) : string := match n with xH => "1" | xO n => String "0" (digits n) | xI n => String "1" (digits n) end.
Fixpoint number (s : string) : option positive :=
  match s with
  | EmptyString => None
  | String c EmptyString => if decide (c = "1"%char) then Some xH else None
  | String c s => n ← number s; Some (if decide (c = "1"%char) then xI n else xO n)
  end.
Lemma number_digits n : number (digits n) = Some n.
Proof. induction n as [n IH|n IH|]; simpl; [|by rewrite IH; destruct (digits n) eqn:Hd; [by destruct n|]|done]. destruct (digits n) eqn:Hd; [by destruct n|]. by rewrite IH. Qed.

Definition text_of (v : value) : string := digits (encode (to_tree v)).
Definition value_of (s : string) : option value := n ← number s; of_tree <$> decode n.
Lemma value_of_text v : value_of (text_of v) = Some v.
Proof. unfold value_of, text_of. rewrite number_digits. simpl. rewrite decode_encode. simpl. by rewrite of_to_tree. Qed.
Lemma text_nonempty_string v : text_of v ≠ "".
Proof. unfold text_of. by destruct (encode _). Qed.

#[global] Opaque text_of value_of.
