(* ===== verification/External.v ===== *)
(** External providers: src/internal/controller/providers/external. The adapter makes a
    plugin process look like a provider of the controller, and keeps the opaque state
    of a stateful plugin in the table of ManifestStore. *)
From S2P Require Import Prelude GoStrings GoValue Json JsonCode Db ManifestStore Registry PluginProto.

(** The text of a JSON document ([json.RawMessage] when it is stored), and reading it. *)
Class JsonText : Type := { json_text : value → list Byte.byte; json_parse : list Byte.byte → option value }.
Class JsonTextLaws `{JsonText} : Prop := {
  parse_text v : json_parse (json_text v) = Some v;
  text_nonempty v : json_text v ≠ [] }.

(** [Provider], as [New] fills it from the handshake. *)
Record Provider : Type := MkExternal {
  x_name : string; x_kinds : list string; x_observed : list string; x_actions : list (string * list string);
  x_advanced : list AdvancedKind; x_caps : list string; x_store : bool }.

Definition has_cap (c : string) (p : Provider) : bool := bool_decide (c ∈ x_caps p).
Definition New (hs : HandshakeResult) (store : bool) : Provider :=
  let kinds := hs_Kinds hs in
  MkExternal (hs_ProviderName hs) (map ki_Kind kinds) (map ki_Kind (filter (λ k, ki_Observed k = true) kinds))
    (fold_left (λ m k, if decide (ki_Actions k = []) then m else assoc_set (ki_Kind k) (ki_Actions k) m) kinds [])
    (omap (λ k, if decide (ki_OwnerKind k = "") then None else Some (MkAdvancedKind (ki_Kind k) (ki_OwnerKind k) (ki_AdvancedNote k))) kinds)
    (hs_Capabilities hs) store.
Definition apiVersion (p : Provider) : string := x_name p +:+ ".openctl.io/v1".
Definition stateful (p : Provider) : bool := x_store p && has_cap CapabilityState p.
(** Whether [New] returns a [plannerProvider]. *)
Definition is_planner (p : Provider) : bool := has_cap CapabilityPlan p.
Definition Actions (p : Provider) (kind : string) : list string := default [] (assoc kind (x_actions p)).
Definition ObservedOnlyKinds (p : Provider) : list string := x_observed p.
Definition AdvancedKinds (p : Provider) : list AdvancedKind := x_advanced p.

Inductive external_error : Type :=
| ErrCall (e : call_error)
| ErrNotFound (kind name : string)
| ErrPersist
| ErrPersistRefreshed.

Section external.
Context `{JsonText} {W : Type} (roundtrip : string → option value → W → result call_error Message * W).
Context (p : Provider) (now : string).

Definition key (kind name : string) : rkey := (apiVersion p, kind, name).
(** A stored blob as a field of the parameters: an empty one is left out, and one that
    is no JSON cannot be marshalled. *)
Definition raw (method : string) (b : option (list Byte.byte)) : result external_error (option value) :=
  match b with
  | None | Some [] => Ok None
  | Some b => match json_parse b with Some v => Ok (Some v) | None => Err (ErrCall (ErrMarshal method)) end
  end.
Definition loaded (method kind name : string) (d : db) : result external_error (option value * option value) :=
  if stateful p then
    let '(state, private, _) := LoadState (key kind name) d in
    s ← raw method state; v ← raw method private; Ok (s, v)
  else Ok (None, None).
Definition save (kind name : string) (state private : option value) (e : external_error) (d : db) : result external_error unit * db :=
  if stateful p then
    match SaveState (key kind name) (json_text <$> state) (json_text <$> private) 0 now d with
    | Some d' => (Ok tt, d')
    | None => (Err e, d)
    end
  else (Ok tt, d).

(** [Apply] *)
Definition Apply (m : resource) (st : db * W) : result external_error (option resource) * (db * W) :=
  let '(d, w) := st in
  match loaded MethodApply (r_kind m) (r_name m) d with
  | Err e => (Err e, (d, w))
  | Ok (state, private) =>
      match PluginProto.Apply roundtrip (MkApplyParams (Some m) state private) w with
      | (Err e, w') => (Err (ErrCall e), (d, w'))
      | (Ok res, w') =>
          let '(r, d') := save (r_kind m) (r_name m) (ar_State res) (ar_Private res) ErrPersist d in
          (match r with Ok _ => Ok (ar_Resource res) | Err e => Err e end, (d', w'))
      end
  end.

(** [mapErr], [Get]: a refreshed state is saved, without a private blob. *)
Definition mapErr (kind name : string) (e : call_error) : external_error :=
  match e with ErrRemote w => if decide (er_Code w = CodeNotFound) then ErrNotFound kind name else ErrCall e | _ => ErrCall e end.
Definition Get (kind name : string) (st : db * W) : result external_error (option resource) * (db * W) :=
  let '(d, w) := st in
  match (if stateful p then raw MethodGet (LoadState (key kind name) d).1.1 else Ok None) with
  | Err e => (Err e, (d, w))
  | Ok state =>
      match PluginProto.Get roundtrip (MkGetParams kind name state) w with
      | (Err e, w') => (Err (mapErr kind name e), (d, w'))
      | (Ok res, w') =>
          let '(r, d') := match gr_State res with
            | Some s => save kind name (Some s) None ErrPersistRefreshed d
            | None => (Ok tt, d)
            end in
          (match r with Ok _ => Ok (gr_Resource res) | Err e => Err e end, (d', w'))
      end
  end.

(** [List], [Delete] *)
Definition List (kind : string) (st : db * W) : result external_error (list (option resource)) * (db * W) :=
  let '(d, w) := st in let '(r, w') := PluginProto.List roundtrip kind w in (map_err ErrCall r, (d, w')).
Definition Delete (kind name : string) (st : db * W) : result external_error unit * (db * W) :=
  let '(d, w) := st in
  match loaded MethodDelete kind name d with
  | Err e => (Err e, (d, w))
  | Ok (state, private) =>
      match PluginProto.Delete roundtrip (MkDeleteParams kind name state private) w with
      | (Err e, w') => (Err (ErrCall e), (d, w'))
      | (Ok _, w') => (Ok tt, (if stateful p then DeleteState (key kind name) d else d, w'))
      end
  end.

(** [OwnerOf], [ChildrenOf]: an error is no answer. *)
Definition OwnerOf (kind name : string) (st : db * W) : option (string * string) * (db * W) :=
  let '(d, w) := st in
  if has_cap CapabilityOwnership p then
    match PluginProto.OwnerOf roundtrip (MkRefParams kind name None) w with
    | (Ok o, w') => (if oo_Owned o then Some (oo_Kind o, oo_Name o) else None, (d, w'))
    | (Err _, w') => (None, (d, w'))
    end
  else (None, st).
Definition ChildrenOf (kind name : string) (st : db * W) : list ResourceRef * (db * W) :=
  let '(d, w) := st in
  if has_cap CapabilityChildren p then
    match (if stateful p then raw MethodChildrenOf (LoadState (key kind name) d).1.1 else Ok None) with
    | Err _ => ([], st)
    | Ok state =>
        match PluginProto.ChildrenOf roundtrip (MkRefParams kind name state) w with
        | (Ok l, w') => (l, (d, w'))
        | (Err _, w') => ([], (d, w'))
        end
    end
  else ([], st).

(** [DoAction], [DryRun], [Plan] *)
Definition DoAction (kind name action : string) (st : db * W) : result external_error ActionResult * (db * W) :=
  let '(d, w) := st in
  let '(r, w') := PluginProto.DoAction roundtrip (MkDoActionParams kind name action) w in (map_err ErrCall r, (d, w')).
Definition DryRun (m : resource) (st : db * W) : result external_error (option DryRunResult) * (db * W) :=
  let '(d, w) := st in
  if has_cap CapabilityDryRun p then
    let '(r, w') := PluginProto.DryRun roundtrip (Some m) w in (map_err ErrCall (Some <$> r), (d, w'))
  else (Ok None, st).
Definition Plan (m : resource) (st : db * W) : result external_error (list (option resource)) * (db * W) :=
  let '(d, w) := st in let '(r, w') := PluginProto.Plan roundtrip (Some m) w in (map_err ErrCall r, (d, w')).

(** ** Loading (loader.go) *)

Inductive load_error : Type :=
| ErrHandshake (e : call_error)
| ErrVersion (version : string)
| ErrEmptyName
| ErrConfigure (name : string) (e : call_error).

(** [Load] once the process runs; the configuration is [None] when it is nil. *)
Definition Load (config : option value) (store : bool) (w : W) : result load_error Provider * W :=
  match Handshake roundtrip w with
  | (Err e, w') => (Err (ErrHandshake e), w')
  | (Ok hs, w') =>
      if decide (hs_ProtocolVersion hs ≠ ProtocolVersion) then (Err (ErrVersion (hs_ProtocolVersion hs)), w')
      else if decide (hs_ProviderName hs = "") then (Err ErrEmptyName, w')
      else match config with
      | None => (Ok (New hs store), w')
      | Some c =>
          match Configure roundtrip (Some c) w' with
          | (Err e, w'') => (Err (ErrConfigure (hs_ProviderName hs) e), w'')
          | (Ok _, w'') => (Ok (New hs store), w'')
          end
      end
  end.
End external.

(** ** A plugin behind the pipe is a provider with a memory *)

(** The calls that a controller makes. *)
Inductive op : Type :=
| OApply (m : resource)
| OGet (kind name : string)
| OList (kind : string)
| ODelete (kind name : string).
Inductive output : Type :=
| OutResource (r : result external_error (option resource))
| OutList (r : result external_error (list (option resource)))
| OutUnit (r : result external_error unit).

Section refinement.
Context `{JsonTextLaws} {S : Type} (h : Handler S) (p : Provider) (now : string).

Definition perform (o : op) (st : db * S) : output * (db * S) :=
  match o with
  | OApply m => let '(r, st') := Apply (direct h) p now m st in (OutResource r, st')
  | OGet kind name => let '(r, st') := Get (direct h) p now kind name st in (OutResource r, st')
  | OList kind => let '(r, st') := List (direct h) kind st in (OutList r, st')
  | ODelete kind name => let '(r, st') := Delete (direct h) p kind name st in (OutUnit r, st')
  end.

(** The handler in the controller's own process: what it returned last for a resource
    is handed to it at the next call, as it is. *)
Abbreviation memory := (gmap (string * string) (option value * option value)).
Definition remembered (kind name : string) (mem : memory) : option value * option value := default (None, None) (mem !! (kind, name)).
Definition remember (kind name : string) (v : option value * option value) (e : external_error) (mem : memory) : result external_error unit * memory :=
  if decide (kind = "" ∨ name = "") then (Err e, mem) else (Ok tt, <[(kind, name) := v]> mem).
Definition local (o : op) (st : memory * S) : output * (memory * S) :=
  let '(mem, s) := st in
  match o with
  | OApply m =>
      match json_resource m with
      | None => (OutResource (Err (ErrCall (ErrMarshal MethodApply))), st)
      | Some m' =>
          let '(state, private) := remembered (r_kind m) (r_name m) mem in
          match after (h_Apply h (MkApplyParams (Some m') state private) s) (or_zero (MkApplyResult None None None) wired_apply) with
          | (Err e, s') => (OutResource (Err (ErrCall e)), (mem, s'))
          | (Ok res, s') =>
              let '(r, mem') := remember (r_kind m) (r_name m) (ar_State res, ar_Private res) ErrPersist mem in
              (OutResource (match r with Ok _ => Ok (ar_Resource res) | Err e => Err e end), (mem', s'))
          end
      end
  | OGet kind name =>
      match after (h_Get h (MkGetParams kind name (remembered kind name mem).1) s) (or_zero (MkGetResult None None) wired_get) with
      | (Err e, s') => (OutResource (Err (mapErr kind name e)), (mem, s'))
      | (Ok res, s') =>
          let '(r, mem') := match gr_State res with
            | Some v => remember kind name (Some v, None) ErrPersistRefreshed mem
            | None => (Ok tt, mem)
            end in
          (OutResource (match r with Ok _ => Ok (gr_Resource res) | Err e => Err e end), (mem', s'))
      end
  | OList kind => let '(r, s') := after (h_List h kind s) (mapM wire) in (OutList (map_err ErrCall r), (mem, s'))
  | ODelete kind name =>
      let '(state, private) := remembered kind name mem in
      match after (h_Delete h (MkDeleteParams kind name state private) s) (λ _, Some tt) with
      | (Err e, s') => (OutUnit (Err (ErrCall e)), (mem, s'))
      | (Ok _, s') => (OutUnit (Ok tt), (delete (kind, name) mem, s'))
      end
  end.

Fixpoint outputs {St} (step : op → St → output * St) (ops : list op) (st : St) : list output * St :=
  match ops with
  | [] => ([], st)
  | o :: ops => let '(x, st') := step o st in let '(l, st'') := outputs step ops st' in (x :: l, st'')
  end.

(** The rows of the table are the memory. *)
Definition stores (d : db) (mem : memory) : Prop := ∀ kind name,
  match mem !! (kind, name) with
  | None => db_state d !! key p kind name = None
  | Some (s, v) => ∃ row, db_state d !! key p kind name = Some row ∧ sr_state row = json_text <$> s ∧ sr_private row = json_text <$> v
  end.

Hypothesis Hstateful : stateful p = true.

Lemma raw_text method o : raw method (json_text <$> o) = Ok o.
Proof.
  destruct o as [v|]; [|done]. simpl. pose proof (text_nonempty v) as Hn. destruct (json_text v) eqn:Ht; [done|]. rewrite <- Ht. by rewrite parse_text.
Qed.

Lemma loaded_remembered method kind name d mem :
  stores d mem → loaded p method kind name d = Ok (remembered kind name mem) ∧
    raw method (LoadState (key p kind name) d).1.1 = Ok (remembered kind name mem).1.
Proof.
  intros Hs. specialize (Hs kind name). unfold loaded, LoadState, remembered. rewrite Hstateful.
  destruct (mem !! (kind, name)) as [[s v]|].
  - destruct Hs as (row & -> & -> & ->). simpl. by rewrite !raw_text.
  - by rewrite Hs.
Qed.

Lemma apiVersion_nonempty : apiVersion p ≠ "".
Proof. unfold apiVersion. intros Hv%(f_equal String.length). rewrite str_length_app in Hv. simpl in Hv. lia. Qed.

Lemma nilIfEmpty_text o : nilIfEmpty (json_text <$> o) = json_text <$> o.
Proof. destruct o as [v|]; [|done]. simpl. pose proof (text_nonempty v). by destruct (json_text v). Qed.

Lemma save_remember kind name s v e d mem :
  stores d mem →
  (save p now kind name s v e d).1 = (remember kind name (s, v) e mem).1 ∧
  stores (save p now kind name s v e d).2 (remember kind name (s, v) e mem).2.
Proof.
  intros Hs. unfold save, remember, SaveState. rewrite Hstateful. cbn [key fst snd]. pose proof apiVersion_nonempty as Hv.
  case_decide as Hk; case_decide as Hk'; [by split|naive_solver|naive_solver|]. split; [done|]. cbn [snd].
  intros kind' name'. unfold set_state. cbn [db_state]. destruct (decide ((kind', name') = (kind, name))) as [[= -> ->]|Hne].
  - rewrite !lookup_insert_eq. eexists. split; [done|]. simpl. by rewrite !nilIfEmpty_text.
  - rewrite !lookup_insert_ne by (unfold key; congruence). apply Hs.
Qed.

Lemma delete_forget kind name d mem : stores d mem → stores (DeleteState (key p kind name) d) (delete (kind, name) mem).
Proof.
  intros Hs kind' name'. unfold DeleteState, set_state. cbn [db_state]. destruct (decide ((kind', name') = (kind, name))) as [[= -> ->]|Hne].
  - by rewrite !lookup_delete_eq.
  - rewrite !lookup_delete_ne by (unfold key; congruence). apply Hs.
Qed.

(** What the controller hands to the plugin has no repeated keys. *)
Definition sent_ok (o : op) : Prop := match o with OApply m => maps_ok m | _ => True end.

Lemma perform_local o d mem s :
  handler_ok h → sent_ok o → stores d mem →
  (perform o (d, s)).1 = (local o (mem, s)).1 ∧ (perform o (d, s)).2.2 = (local o (mem, s)).2.2 ∧
  stores (perform o (d, s)).2.1 (local o (mem, s)).2.1.
Proof.
  intros Hok Ho Hs. destruct o as [m|kind name|kind|kind name]; simpl.
  - destruct (loaded_remembered MethodApply (r_kind m) (r_name m) d mem Hs) as [-> _].
    destruct (remembered _ _ mem) as [state private]. rewrite (Apply_direct h (MkApplyParams (Some m) state private)) by done. simpl.
    destruct (json_resource m) as [m'|]; simpl; [|done].
    match goal with |- context [relayed ?f ?r] => destruct (relayed f r) as [res|e] end; simpl; [|done].
    destruct (save_remember (r_kind m) (r_name m) (ar_State res) (ar_Private res) ErrPersist d mem Hs) as [Hr Hd].
    destruct (save _ _ _ _ _ _ _ _) as [r d']. destruct (remember _ _ _ _ _) as [r' mem']. simpl in *. subst r'. by destruct r.
  - rewrite Hstateful. destruct (loaded_remembered MethodGet kind name d mem Hs) as [_ ->]. rewrite Get_direct by done. unfold remembered, after. simpl.
    match goal with |- context [relayed ?f ?r] => destruct (relayed f r) as [res|e] end; simpl; [|done]. destruct (gr_State res) as [v|]; [|done].
    destruct (save_remember kind name (Some v) None ErrPersistRefreshed d mem Hs) as [Hr Hd].
    destruct (save _ _ _ _ _ _ _ _) as [r d']. destruct (remember _ _ _ _ _) as [r' mem']. simpl in *. subst r'. by destruct r.
  - rewrite List_direct by done. done.
  - destruct (loaded_remembered MethodDelete kind name d mem Hs) as [-> _].
    destruct (remembered _ _ mem) as [state private]. rewrite Delete_direct, Hstateful. unfold after. simpl.
    match goal with |- context [relayed ?f ?r] => destruct (relayed f r) as [u|e] end; simpl; [|done].
    split_and!; [done..|]. by apply delete_forget.
Qed.

Lemma outputs_local ops d mem s :
  handler_ok h → Forall sent_ok ops → stores d mem →
  (outputs perform ops (d, s)).1 = (outputs local ops (mem, s)).1 ∧
  (outputs perform ops (d, s)).2.2 = (outputs local ops (mem, s)).2.2 ∧
  stores (outputs perform ops (d, s)).2.1 (outputs local ops (mem, s)).2.1.
Proof.
  intros Hok Ho. revert d mem s. induction Ho as [|o ops Ho _ IH]; intros d mem s Hs; [done|]. cbn [outputs].
  destruct (perform_local o d mem s Hok Ho Hs) as (H1 & H2 & H3).
  destruct (perform o (d, s)) as [x [d' s1]], (local o (mem, s)) as [y [mem' s2]]. cbn [fst snd] in *. subst y s2.
  destruct (IH d' mem' s1 H3) as (H4 & H5 & H6).
  destruct (outputs perform ops (d', s1)) as [l st], (outputs local ops (mem', s1)) as [l' st']. cbn [fst snd] in *. split_and!; [by f_equal|done|done].
Qed.

(** C31: A stateful plugin behind its pipe is a provider in the controller's process that
    remembers. For every handler and every sequence of applies, reads, lists and
    deletions that starts with an empty table, what the controller gets is what the
    handler's own methods return, each resource as JSON reads it back and each error
    under its code, when the handler is given, at every call for a resource, exactly the
    state that it returned last for that resource; the handler ends in the same state,
    and the table of states is that memory. *)
Theorem external_refines ops d s :
  handler_ok h → Forall sent_ok ops → (∀ kind name, db_state d !! key p kind name = None) →
  (outputs perform ops (d, s)).1 = (outputs local ops (∅, s)).1 ∧
  (outputs perform ops (d, s)).2.2 = (outputs local ops (∅, s)).2.2 ∧
  stores (outputs perform ops (d, s)).2.1 (outputs local ops (∅, s)).2.1.
Proof. intros Hok Ho Hd. apply outputs_local; [done..|]. intros kind name. rewrite lookup_empty. apply Hd. Qed.

(** A read that refreshes the state loses the private blob: the deletion that follows
    has none, whatever the last apply returned. *)
Lemma refresh_drops_private kind name d mem s r v s1 :
  handler_ok h → stores d mem → kind ≠ "" → name ≠ "" →
  h_Get h (MkGetParams kind name (remembered kind name mem).1) s = (Ok (Some r), s1) → gr_State r = Some v → is_Some (wire (gr_Resource r)) →
  (outputs perform [OGet kind name; ODelete kind name] (d, s)).2.2 = (h_Delete h (MkDeleteParams kind name (Some v) None) s1).2.
Proof.
  intros Hok Hs Hk Hn Hg Hv [o Ho].
  assert (Forall sent_ok [OGet kind name; ODelete kind name]) as Hsent by by repeat constructor.
  destruct (outputs_local _ d mem s Hok Hsent Hs) as (_ & -> & _). cbn [outputs local]. unfold after at 1. rewrite Hg. simpl. unfold wired_get. rewrite Ho. simpl. rewrite Hv.
  unfold remember. rewrite decide_False by naive_solver. simpl. unfold remembered at 1. rewrite lookup_insert_eq. simpl. unfold after.
  by destruct (relayed _ _).
Qed.
End refinement.

(** ** Examples *)

(** A stored blob is the text of its document. *)
#[local] Instance ex_json : JsonText :=
  {| json_text v := String.list_byte_of_string (text_of v); json_parse l := value_of (String.string_of_list_byte l) |}.
#[local] Instance ex_json_laws : JsonTextLaws.
Proof.
  split.
  - intros v. simpl. by rewrite String.string_of_list_byte_of_string, value_of_text.
  - intros v. simpl. pose proof (text_nonempty_string v) as Hn. by destruct (text_of v).
Qed.

(** A plugin that counts the applies of a resource in its state, and keeps a secret
    beside it. *)
Definition ex_seen (kind name : string) (n : Z) : resource :=
  Resource "demo.openctl.io/v1" kind (ResourceMetadata name "" [] [] "" "") None (Some [("applies", VInt n)]).
Definition ex_apply (q : ApplyParams) (s : list DeleteParams) : result herror (option ApplyResult) * list DeleteParams :=
  let n := match ap_State q with Some (VInt n) => n | _ => 0%Z end in
  (Ok (Some (MkApplyResult (Some (ex_seen "Thing" "a" (n + 1))) (Some (VInt (n + 1))) (Some (VStr "secret")))), s).
Definition ex_get (q : GetParams) (s : list DeleteParams) : result herror (option GetResult) * list DeleteParams :=
  match gp_State q with
  | None => (Err (Wire (NotFound "no such thing")), s)
  | Some v => (Ok (Some (MkGetResult (Some (ex_seen (gp_Kind q) (gp_Name q) 0)) (Some v))), s)
  end.
Definition ex_handler : Handler (list DeleteParams) :=
  Unimplemented (λ s, (Ok (Some (MkHandshake "demo" ProtocolVersion [] [CapabilityState])), s)) ex_apply ex_get
    (λ _ s, (Ok [], s)) (λ q s, (Ok tt, q :: s)).
Definition ex_provider : Provider := New (MkHandshake "demo" ProtocolVersion [] [CapabilityState]) true.
Definition ex_thing : resource := Resource "demo.openctl.io/v1" "Thing" (ResourceMetadata "a" "" [] [] "" "") (Some [("size", VInt 3)]) None.
Definition ex_ops : list op := [OGet "Thing" "a"; OApply ex_thing; OApply ex_thing; OGet "Thing" "a"; ODelete "Thing" "a"; OGet "Thing" "a"].

Lemma ex_seen_ok kind name n : maps_ok (ex_seen kind name n).
Proof. split_and!; repeat constructor; set_solver. Qed.
Lemma ex_handler_ok : handler_ok ex_handler.
Proof.
  split.
  - intros q s r s'. simpl. intros [= <- _]. apply ex_seen_ok.
  - intros q s r s'. simpl. unfold ex_get. destruct (gp_State q); [|done]. intros [= <- _]. apply ex_seen_ok.
  - intros k s l s'. simpl. by intros [= <- _].
  - done.
Qed.
Definition ex_db : db := MkDb [] ∅ ∅ ∅ ∅.
Definition ex_run := outputs (perform ex_handler ex_provider "t0") ex_ops (ex_db, []).

Lemma external_refines_witness :
  ex_run.1 = (outputs (local ex_handler) ex_ops (∅, [])).1 ∧
  map (λ o, match o with OutResource r => is_ok r | OutList r => is_ok r | OutUnit r => is_ok r end) ex_run.1 =
    [false; true; true; true; true; false] ∧
  ex_run.2.2 = [MkDeleteParams "Thing" "a" (Some (VInt 2)) None].
Proof.
  assert (maps_ok ex_thing) as Ht by (split_and!; repeat constructor; set_solver).
  destruct (external_refines ex_handler ex_provider "t0" eq_refl ex_ops ex_db []) as (Hl & _ & _);
    [exact ex_handler_ok|by repeat (apply Forall_cons; split; [done|])|intros; apply lookup_empty|].
  split; [exact Hl|]. split; vm_compute; reflexivity.
Defined.
