(* ===== verification/Cloudflare.v ===== *)
(** The Cloudflare plugin: src/plugins/cloudflare. A handler of the plugin protocol
    (PluginProto) that talks to the REST API of Cloudflare: a program per method
    (Effects), and the handler that runs them against an environment. *)
From S2P Require Import Prelude GoStrings GoValue Json Registry PluginProto Effects.
From Stdlib Require Import Ascii.

(** ** The client (client.go) *)

Definition defaultEndpoint : string := "https://api.cloudflare.com/client/v4".

(** [cfClient] *)
Record cfClient : Type := MkCf { cf_endpoint : string; cf_token : string }.
Definition newClient (endpoint token : string) : cfClient :=
  MkCf (trim_right "/" (if decide (endpoint = "") then defaultEndpoint else endpoint)) token.

(** A request with its body as a document, and an answer: a status and what can be
    read of the body, or nothing when the request cannot be built or sent. *)
Record request : Type := MkRequest {
  q_client : cfClient; q_method : string; q_path : string; q_query : list (string * string); q_body : option value }.
Abbreviation answer := (option (Z * string)).

Record cfAPIError : Type := MkApiError { ae_Code : Z; ae_Message : string }.
Record cfEnvelope : Type := MkEnvelope { en_Success : bool; en_Errors : list cfAPIError; en_Result : option value }.

Definition dec_error : decoder cfAPIError := λ v _,
  let m := object (Some v) in Some (MkApiError (lfield "code" dec_int 0%Z m) (lfield "message" dec_str "" m)).
Definition envelope (doc : option value) : cfEnvelope :=
  let m := object doc in
  MkEnvelope (lfield "success" dec_bool false m) (lfield "errors" (dec_list (λ v, dec_error v (MkApiError 0 ""))) [] m)
    (lfield "result" dec_raw None m).

Definition notFoundCodes : list Z := [81044; 1049; 7003]%Z.

(** [envError] *)
Definition envError (env : cfEnvelope) (status : Z) : string :=
  match en_Errors env with
  | [] => "HTTP " +:+ pretty status +:+ " (no error detail)"
  | l => join "; " (map (λ e, pretty (ae_Code e) +:+ ": " +:+ ae_Message e) l)
  end.

(** The errors of the provider; [NotFoundAt] is [errNotFound]. *)
Inductive cf_error : Type :=
| NotFoundAt
| ErrSend (method path : string)
| ErrApi (method path detail : string)
| ErrDecodeResult
| ErrText (text : string)
| ErrWire (e : Error).

Abbreviation P := (prog request answer cf_error).
(** A rule of an ingress, as the API has it. *)
Abbreviation rule := gomap.

Section client.
Context (JsonDoc : string → option value).

(** [do]: a result that is missing or null leaves [out] as it was. *)
Definition accepted {A} (method path : string) (d : decoder A) (zero : A) (r : answer) : result cf_error A :=
  match r with
  | None => Err (ErrSend method path)
  | Some (status, data) =>
      if decide (status = 404)%Z then Err NotFoundAt
      else
        let env := envelope (JsonDoc data) in
        if (status <? 200)%Z || (300 <=? status)%Z || negb (en_Success env) then
          if existsb (λ e, bool_decide (ae_Code e ∈ notFoundCodes)) (en_Errors env) then Err NotFoundAt
          else Err (ErrApi method path (envError env status))
        else match en_Result env with
             | None | Some VNull => Ok zero
             | Some v => match d v zero with Some a => Ok a | None => Err ErrDecodeResult end
             end
  end.
Definition do {A} (c : cfClient) (method path : string) (query : list (string * string)) (body : option value) (d : decoder A) (zero : A) : P A :=
  r ← call (MkRequest c method path query body); lift (accepted method path d zero r).
Definition dec_ignored : decoder unit := λ _ _, Some tt.

(** [if errors.Is(err, errNotFound) { err = ... }] *)
Definition or_else {A} (p q : P A) : P A :=
  r ← try p; match r with Ok a => Ret a | Err NotFoundAt => q | Err e => Fail e end.
(** [if errors.Is(err, errNotFound) { return ... }] *)
Definition missing_as {A} (e : cf_error) (p : P A) : P A := wrap (λ e', match e' with NotFoundAt => e | _ => e' end) p.

(** ** Configuration (provider.go) *)

(** [cfConfig] and the client, of a plugin that is configured. *)
Record cfConfig : Type := MkCfConfig { cc_Endpoint : string; cc_TokenSecret : string; cc_Defaults : list (string * string) }.
Record plugin : Type := MkPlugin { cfg : cfConfig; client : cfClient }.

Definition lenient_strmap : decoder (list (string * string)) := λ v o,
  match v with
  | VMap m => Some (foldl (λ o p, assoc_set p.1 (default "" (dec_str p.2 "")) o) o m)
  | VNull => Some []
  | _ => None
  end.
Definition lenient_config (doc : option value) (c : cfConfig) : cfConfig :=
  let m := object doc in
  MkCfConfig (lfield "endpoint" dec_str (cc_Endpoint c) m) (lfield "tokensecret" dec_str (cc_TokenSecret c) m)
    (lfield "defaults" lenient_strmap (cc_Defaults c) m).
Definition dec_config : decoder cfConfig := dec_struct (λ m c,
  e ← jfield "endpoint" dec_str (cc_Endpoint c) m; t ← jfield "tokensecret" dec_str (cc_TokenSecret c) m;
  d ← jfield "defaults" dec_strmap (cc_Defaults c) m; Some (MkCfConfig e t d)).

Definition errNoToken : string := "cloudflare: no API token — set a credential with tokenSecretFile in the provider config".
(** [Configure]: the configuration it leaves, and the client if there is no error. *)
Definition Configure (raw : option value) (c : cfConfig) : cfConfig * result herror cfClient :=
  let c' := match raw with None => c | Some _ => lenient_config raw c end in
  let bad := match raw with None => false | Some v => bool_decide (dec_config v c = None) end in
  (c', if bad then Err (Wire (Unsupported "bad config: "))
       else if decide (cc_TokenSecret c' = "") then Err (Other errNoToken)
       else Ok (newClient (cc_Endpoint c') (cc_TokenSecret c'))).

(** ** Specs *)

Definition specString (spec : gomap) (key : string) : string := match assoc key spec with Some (VStr s) => s | _ => "" end.
Definition specInt (spec : gomap) (key : string) : option Z :=
  match assoc key spec with Some (VFloat f) => Some (Z_of_f64 f) | Some (VInt z) => Some z | _ => None end.
Definition specBool (spec : gomap) (key : string) : option bool := match assoc key spec with Some (VBool b) => Some b | _ => None end.

Definition default_of (key : string) (p : plugin) : string := default "" (assoc key (cc_Defaults (cfg p))).
Definition spec_of (m : resource) : gomap := fields (r_spec m).
Definition apiVersion : string := "cloudflare.openctl.io/v1".
Definition kindDNSRecord : string := "DNSRecord".
Definition kindTunnel : string := "Tunnel".
Definition kindTunnelRoute : string := "TunnelRoute".
Definition observed (kind name : string) (spec : option gomap) (status : gomap) : resource :=
  Resource apiVersion kind (ResourceMetadata name "" [] [] "" "") spec (Some status).

Context (quote : string → string).

(** ** DNS records (dns.go) *)

Record dnsState : Type := MkDnsState { ds_RecordID : string; ds_ZoneID : string }.
Definition enc_dns_state (s : dnsState) : value := VMap [("recordId", VStr (ds_RecordID s)); ("zoneId", VStr (ds_ZoneID s))].
Definition read_dns_state (state : option value) : dnsState :=
  let m := object state in MkDnsState (lfield "recordid" dec_str "" m) (lfield "zoneid" dec_str "" m).

Record cfDNSRecord : Type := MkDns {
  dn_ID : string; dn_Type : string; dn_Name : string; dn_Content : string; dn_TTL : Z; dn_Proxied : option bool; dn_Priority : option Z;
  dn_Comment : string; dn_CreatedOn : string; dn_ModifiedOn : string }.
Definition zero_dns : cfDNSRecord := MkDns "" "" "" "" 0 None None "" "" "".
Definition omit_int (key : string) (z : Z) : gomap := if decide (z = 0)%Z then [] else [(key, VInt z)].
Definition omit_ptr {A} (f : A → value) (key : string) (o : option A) : gomap := match o with Some a => [(key, f a)] | None => [] end.
Definition enc_dns (r : cfDNSRecord) : value :=
  VMap (omit_str "id" (dn_ID r) ++ [("type", VStr (dn_Type r))] ++ [("name", VStr (dn_Name r))] ++ [("content", VStr (dn_Content r))] ++
    omit_int "ttl" (dn_TTL r) ++ omit_ptr VBool "proxied" (dn_Proxied r) ++ omit_ptr VInt "priority" (dn_Priority r) ++
    omit_str "comment" (dn_Comment r) ++ omit_str "created_on" (dn_CreatedOn r) ++ omit_str "modified_on" (dn_ModifiedOn r)).
Definition dec_dns : decoder cfDNSRecord := dec_struct (λ m r,
  i ← jfield "id" dec_str (dn_ID r) m; t ← jfield "type" dec_str (dn_Type r) m; n ← jfield "name" dec_str (dn_Name r) m;
  c ← jfield "content" dec_str (dn_Content r) m; l ← jfield "ttl" dec_int (dn_TTL r) m;
  p ← jfield "proxied" (dec_ptr false dec_bool) (dn_Proxied r) m; o ← jfield "priority" (dec_ptr 0%Z dec_int) (dn_Priority r) m;
  k ← jfield "comment" dec_str (dn_Comment r) m; a ← jfield "created_on" dec_str (dn_CreatedOn r) m;
  b ← jfield "modified_on" dec_str (dn_ModifiedOn r) m; Some (MkDns i t n c l p o k a b)).

(** [dnsRecordFromSpec] *)
Definition dnsRecordFromSpec (p : plugin) (spec : gomap) : result cf_error (cfDNSRecord * string) :=
  let t := specString spec "type" in let n := specString spec "name" in
  if decide (t = "" ∨ n = "") then Err (ErrText "spec.type and spec.name are required for a DNSRecord")
  else
    let rec := MkDns "" t n (specString spec "content") (default 0%Z (specInt spec "ttl")) (specBool spec "proxied") (specInt spec "priority")
      (specString spec "comment") "" "" in
    let zone := specString spec "zoneId" in
    Ok (rec, if decide (zone = "") then default_of "zoneId" p else zone).

(** [dnsObserved] *)
Definition dns_spec (rec : cfDNSRecord) (zoneID : string) : gomap :=
  [("zoneId", VStr zoneID); ("type", VStr (dn_Type rec)); ("name", VStr (dn_Name rec)); ("content", VStr (dn_Content rec))] ++
  omit_int "ttl" (dn_TTL rec) ++ omit_ptr VBool "proxied" (dn_Proxied rec) ++ omit_ptr VInt "priority" (dn_Priority rec).
Definition dnsObserved (name : string) (rec : cfDNSRecord) (zoneID : string) : resource :=
  observed kindDNSRecord name (Some (dns_spec rec zoneID))
    ([("id", VStr (dn_ID rec)); ("zoneId", VStr zoneID)] ++ omit_str "createdOn" (dn_CreatedOn rec) ++ omit_str "modifiedOn" (dn_ModifiedOn rec)).

Definition zone_records (zone : string) : string := "/zones/" +:+ zone +:+ "/dns_records".
Definition zone_record (zone id : string) : string := zone_records zone +:+ "/" +:+ id.

(** [applyDNSRecord] *)
Definition applyDNSRecord (p : plugin) (m : resource) (state : option value) : P ApplyResult :=
  rz ← lift (dnsRecordFromSpec p (spec_of m));
  let '(rec, zone) := rz in
  if decide (zone = "") then Fail (ErrText ("no zone for DNSRecord " +:+ quote (r_name m) +:+ " (set spec.zoneId or provider defaults.zoneId)"))
  else
    let st := read_dns_state state in
    let create := do (client p) "POST" (zone_records zone) [] (Some (enc_dns rec)) dec_dns zero_dns in
    out ← (if decide (ds_RecordID st = "") then create
           else or_else (do (client p) "PUT" (zone_record zone (ds_RecordID st)) [] (Some (enc_dns rec)) dec_dns zero_dns) create);
    Ret (MkApplyResult (Some (dnsObserved (r_name m) out zone)) (Some (enc_dns_state (MkDnsState (dn_ID out) zone))) None).

(** [getDNSRecord] *)
Definition no_prior_state (kind name : string) : cf_error := ErrWire (NotFound (kind +:+ " " +:+ quote name +:+ " has no prior state")).
Definition not_in_cloudflare (kind name : string) : cf_error := ErrWire (NotFound (kind +:+ " " +:+ quote name +:+ " not found in Cloudflare")).
Definition getDNSRecord (p : plugin) (name : string) (state : option value) : P GetResult :=
  let st := read_dns_state state in
  if decide (ds_RecordID st = "" ∨ ds_ZoneID st = "") then Fail (no_prior_state kindDNSRecord name)
  else
    out ← missing_as (not_in_cloudflare kindDNSRecord name)
      (do (client p) "GET" (zone_record (ds_ZoneID st) (ds_RecordID st)) [] None dec_dns zero_dns);
    Ret (MkGetResult (Some (dnsObserved name out (ds_ZoneID st))) (Some (enc_dns_state (MkDnsState (dn_ID out) (ds_ZoneID st))))).

(** [listDNSRecords] *)
Definition listDNSRecords (p : plugin) : P (list (option resource)) :=
  let zone := default_of "zoneId" p in
  if decide (zone = "") then Ret []
  else
    recs ← do (client p) "GET" (zone_records zone) [("per_page", "100")] None (dec_list (λ v, dec_dns v zero_dns)) [];
    Ret (map (λ r, Some (dnsObserved (dn_ID r) r zone)) recs).

(** [deleteDNSRecord]: what is already gone is deleted. *)
Definition deleteDNSRecord (p : plugin) (state : option value) : P unit :=
  let st := read_dns_state state in
  if decide (ds_RecordID st = "" ∨ ds_ZoneID st = "") then Ret tt
  else or_else (do (client p) "DELETE" (zone_record (ds_ZoneID st) (ds_RecordID st)) [] None dec_ignored tt) (Ret tt).

(** ** Tunnels (tunnel.go) *)

Record tunnelState : Type := MkTunnelState { ts_TunnelID : string; ts_AccountID : string }.
Definition enc_tunnel_state (s : tunnelState) : value := VMap [("tunnelId", VStr (ts_TunnelID s)); ("accountId", VStr (ts_AccountID s))].
Definition read_tunnel_state (state : option value) : tunnelState :=
  let m := object state in MkTunnelState (lfield "tunnelid" dec_str "" m) (lfield "accountid" dec_str "" m).

Record cfTunnel : Type := MkTunnel {
  tn_ID : string; tn_Name : string; tn_Status : string; tn_ConfigSrc : string; tn_CreatedAt : string; tn_DeletedAt : string }.
Definition zero_tunnel : cfTunnel := MkTunnel "" "" "" "" "" "".
Definition dec_tunnel : decoder cfTunnel := dec_struct (λ m t,
  i ← jfield "id" dec_str (tn_ID t) m; n ← jfield "name" dec_str (tn_Name t) m; s ← jfield "status" dec_str (tn_Status t) m;
  c ← jfield "config_src" dec_str (tn_ConfigSrc t) m; a ← jfield "created_at" dec_str (tn_CreatedAt t) m;
  d ← jfield "deleted_at" dec_str (tn_DeletedAt t) m; Some (MkTunnel i n s c a d)).

(** [tunnelAccount] *)
Definition tunnelAccount (p : plugin) (spec : gomap) : string :=
  let acct := specString spec "accountId" in if decide (acct = "") then default_of "accountId" p else acct.

Definition catch_all : rule := [("service", VStr "http_status:404")].
Definition hostname_of (r : rule) : string := specString r "hostname".

(** [tunnelIngress] *)
Definition ingress_rule (item : value) : option rule :=
  match item with
  | VMap m =>
      let service := specString m "service" in
      if decide (service = "") then None
      else Some ([("service", VStr service)] ++ omit_str "hostname" (specString m "hostname") ++ omit_str "path" (specString m "path"))
  | _ => None
  end.
Definition tunnelIngress (spec : gomap) : list rule :=
  let out := omap ingress_rule (match assoc "ingress" spec with Some (VList l) => l | _ => [] end) in
  match last out with
  | None => []
  | Some r => if decide (assoc "hostname" r = None) then out else out ++ [catch_all]
  end.

(** [tunnelObserved] *)
Definition tunnelObserved (name : string) (t : cfTunnel) (acct : string) : resource :=
  observed kindTunnel name (Some [("accountId", VStr acct)])
    ([("id", VStr (tn_ID t)); ("name", VStr (tn_Name t))] ++
     (if decide (tn_ID t = "") then [] else [("cnameTarget", VStr (tn_ID t +:+ ".cfargotunnel.com"))]) ++
     omit_str "connectionStatus" (tn_Status t) ++ omit_str "createdAt" (tn_CreatedAt t)).

Definition tunnels (acct : string) : string := "/accounts/" +:+ acct +:+ "/cfd_tunnel".
Definition tunnel (acct id : string) : string := tunnels acct +:+ "/" +:+ id.
Definition configurations (acct id : string) : string := tunnel acct id +:+ "/configurations".
Definition ingress_body (l : list rule) : value := VMap [("config", VMap [("ingress", VList (map VMap l))])].

(** [writeTunnelIngress] (tunnelroute.go) *)
Definition writeTunnelIngress (p : plugin) (acct id : string) (l : list rule) : P unit :=
  do (client p) "PUT" (configurations acct id) [] (Some (ingress_body l)) dec_ignored tt.

(** [applyTunnel] *)
Definition applyTunnel (p : plugin) (m : resource) (state : option value) : P ApplyResult :=
  let acct := tunnelAccount p (spec_of m) in
  if decide (acct = "") then Fail (ErrText ("no account for Tunnel " +:+ quote (r_name m) +:+ " (set spec.accountId or provider defaults.accountId)"))
  else
    let st := read_tunnel_state state in
    let body := VMap [("name", VStr (r_name m)); ("config_src", VStr "cloudflare")] in
    let create := do (client p) "POST" (tunnels acct) [] (Some body) dec_tunnel zero_tunnel in
    t ← (if decide (ts_TunnelID st = "") then create
         else or_else (do (client p) "GET" (tunnel acct (ts_TunnelID st)) [] None dec_tunnel zero_tunnel) create);
    _ ← match tunnelIngress (spec_of m) with [] => Ret tt | l => writeTunnelIngress p acct (tn_ID t) l end;
    Ret (MkApplyResult (Some (tunnelObserved (r_name m) t acct)) (Some (enc_tunnel_state (MkTunnelState (tn_ID t) acct))) None).

(** [getTunnel] *)
Definition getTunnel (p : plugin) (name : string) (state : option value) : P GetResult :=
  let st := read_tunnel_state state in
  if decide (ts_TunnelID st = "" ∨ ts_AccountID st = "") then Fail (no_prior_state kindTunnel name)
  else
    t ← missing_as (not_in_cloudflare kindTunnel name) (do (client p) "GET" (tunnel (ts_AccountID st) (ts_TunnelID st)) [] None dec_tunnel zero_tunnel);
    if decide (tn_DeletedAt t = "") then Ret (MkGetResult (Some (tunnelObserved name t (ts_AccountID st))) state)
    else Fail (ErrWire (NotFound ("Tunnel " +:+ quote name +:+ " is deleted"))).

(** [listTunnels] *)
Definition listTunnels (p : plugin) : P (list (option resource)) :=
  let acct := default_of "accountId" p in
  if decide (acct = "") then Ret []
  else
    l ← do (client p) "GET" (tunnels acct) [("is_deleted", "false"); ("per_page", "100")] None (dec_list (λ v, dec_tunnel v zero_tunnel)) [];
    Ret (map (λ t, Some (tunnelObserved (tn_Name t) t acct)) l).

(** [deleteTunnel]: dropping the connections is tried, whatever comes of it. *)
Definition deleteTunnel (p : plugin) (state : option value) : P unit :=
  let st := read_tunnel_state state in
  if decide (ts_TunnelID st = "" ∨ ts_AccountID st = "") then Ret tt
  else
    let path := tunnel (ts_AccountID st) (ts_TunnelID st) in
    _ ← try (F := cf_error) (do (client p) "DELETE" (path +:+ "/connections") [] None dec_ignored tt);
    or_else (do (client p) "DELETE" path [] None dec_ignored tt) (Ret tt).

(** [findTunnelID] *)
Definition findTunnelID (p : plugin) (acct name : string) : P string :=
  l ← do (client p) "GET" (tunnels acct) [("name", name); ("is_deleted", "false")] None (dec_list (λ v, dec_tunnel v zero_tunnel)) [];
  match head (filter (λ t, tn_Name t = name) l) with Some t => Ret (tn_ID t) | None => Fail (not_in_cloudflare kindTunnel name) end.

(** [tunnelToken] *)
Definition tunnelToken (p : plugin) (name : string) : P ActionResult :=
  let acct := default_of "accountId" p in
  if decide (acct = "") then Fail (ErrText ("get-token for Tunnel " +:+ quote name +:+ ": no accountId in provider defaults"))
  else
    id ← findTunnelID p acct name;
    token ← do (client p) "GET" (tunnel acct id +:+ "/token") [] None dec_str "";
    Ret (MkActionResult ("Run token for tunnel " +:+ quote name +:+ " — cloudflared tunnel run --token <downloaded>") "" token (name +:+ "-tunnel.token")).

(** ** Routes of a tunnel (tunnelroute.go) *)

Record tunnelRouteState : Type := MkRouteState { rs_AccountID : string; rs_TunnelID : string; rs_TunnelName : string; rs_Hostname : string }.
Definition enc_route_state (s : tunnelRouteState) : value :=
  VMap [("accountId", VStr (rs_AccountID s)); ("tunnelId", VStr (rs_TunnelID s)); ("tunnelName", VStr (rs_TunnelName s)); ("hostname", VStr (rs_Hostname s))].
Definition read_route_state (state : option value) : tunnelRouteState :=
  let m := object state in
  MkRouteState (lfield "accountid" dec_str "" m) (lfield "tunnelid" dec_str "" m) (lfield "tunnelname" dec_str "" m) (lfield "hostname" dec_str "" m).

(** [mergeIngressRule], [removeIngressRule] *)
Definition other_rules (existing : list rule) (hostname : string) : list rule :=
  filter (λ r, hostname_of r ≠ "" ∧ hostname_of r ≠ hostname) existing.
Definition route_rule (hostname service path : string) : rule :=
  [("hostname", VStr hostname); ("service", VStr service)] ++ omit_str "path" path.
Definition mergeIngressRule (existing : list rule) (hostname service path : string) : list rule :=
  other_rules existing hostname ++ [route_rule hostname service path; catch_all].
Definition removeIngressRule (existing : list rule) (hostname : string) : list rule := other_rules existing hostname ++ [catch_all].

(** [cfTunnelConfig], [readTunnelIngress]; a rule that is null is a nil map. *)
Definition dec_ingress : decoder (list rule) := dec_struct (λ m l,
  jfield "config" (dec_struct (λ m l, jfield "ingress" (dec_list (λ v, fields <$> dec_map v None)) l m)) l m).
Definition readTunnelIngress (p : plugin) (acct id : string) : P (list rule) :=
  or_else (do (client p) "GET" (configurations acct id) [] None dec_ingress []) (Ret []).

(** [tunnelRouteObserved] *)
Definition tunnelRouteObserved (m : resource) (id : string) : resource :=
  observed kindTunnelRoute (r_name m) (Some (spec_of m))
    [("tunnelId", VStr id); ("hostname", VStr (specString (spec_of m) "hostname")); ("phase", VStr "Ready")].

(** [applyTunnelRoute] *)
Definition applyTunnelRoute (p : plugin) (m : resource) : P ApplyResult :=
  let spec := spec_of m in
  let acct := tunnelAccount p spec in
  let name := specString spec "tunnel" in let hostname := specString spec "hostname" in let service := specString spec "service" in
  if decide (acct = "") then Fail (ErrText ("no account for TunnelRoute " +:+ quote (r_name m) +:+ " (set spec.accountId or provider defaults.accountId)"))
  else if decide (name = "" ∨ hostname = "" ∨ service = "") then
    Fail (ErrText ("TunnelRoute " +:+ quote (r_name m) +:+ " requires spec.tunnel, spec.hostname and spec.service"))
  else
    id ← findTunnelID p acct name;
    ingress ← readTunnelIngress p acct id;
    _ ← writeTunnelIngress p acct id (mergeIngressRule ingress hostname service (specString spec "path"));
    Ret (MkApplyResult (Some (tunnelRouteObserved m id)) (Some (enc_route_state (MkRouteState acct id name hostname))) None).

Definition no_route_state (st : tunnelRouteState) : Prop := rs_TunnelID st = "" ∨ rs_AccountID st = "" ∨ rs_Hostname st = "".
#[export] Instance no_route_state_dec st : Decision (no_route_state st).
Proof. unfold no_route_state. apply _. Defined.
(** [getTunnelRoute] *)
Definition getTunnelRoute (p : plugin) (name : string) (state : option value) : P GetResult :=
  let st := read_route_state state in
  if decide (no_route_state st) then Fail (no_prior_state kindTunnelRoute name)
  else
    ingress ← missing_as (ErrWire (NotFound ("TunnelRoute " +:+ quote name +:+ ": tunnel config gone"))) (readTunnelIngress p (rs_AccountID st) (rs_TunnelID st));
    if existsb (λ r, bool_decide (hostname_of r = rs_Hostname st)) ingress then
      Ret (MkGetResult (Some (observed kindTunnelRoute name None
        [("tunnelId", VStr (rs_TunnelID st)); ("hostname", VStr (rs_Hostname st)); ("phase", VStr "Ready")])) state)
    else Fail (ErrWire (NotFound ("TunnelRoute " +:+ quote name +:+ ": no rule for " +:+ rs_Hostname st +:+ " in tunnel " +:+ rs_TunnelName st))).

(** [deleteTunnelRoute]: without a configuration [readTunnelIngress] returns no rules. *)
Definition deleteTunnelRoute (p : plugin) (state : option value) : P unit :=
  let st := read_route_state state in
  if decide (no_route_state st) then Ret tt
  else
    r ← try (readTunnelIngress p (rs_AccountID st) (rs_TunnelID st));
    match r with
    | Ok ingress => writeTunnelIngress p (rs_AccountID st) (rs_TunnelID st) (removeIngressRule ingress (rs_Hostname st))
    | Err NotFoundAt => Ret tt
    | Err e => Fail e
    end.

(** ** The handler (provider.go) *)

Definition not_handled (kind : string) : cf_error := ErrWire (Unsupported ("cloudflare handles DNSRecord, Tunnel and TunnelRoute, not " +:+ kind)).
Definition Apply (p : plugin) (q : ApplyParams) : P ApplyResult :=
  match ap_Manifest q with
  | None => Fail (ErrWire (Unsupported "apply: nil manifest"))
  | Some m =>
      if decide (r_kind m = kindDNSRecord) then applyDNSRecord p m (ap_State q)
      else if decide (r_kind m = kindTunnel) then applyTunnel p m (ap_State q)
      else if decide (r_kind m = kindTunnelRoute) then applyTunnelRoute p m
      else Fail (not_handled (r_kind m))
  end.
Definition Get (p : plugin) (q : GetParams) : P GetResult :=
  if decide (gp_Kind q = kindDNSRecord) then getDNSRecord p (gp_Name q) (gp_State q)
  else if decide (gp_Kind q = kindTunnel) then getTunnel p (gp_Name q) (gp_State q)
  else if decide (gp_Kind q = kindTunnelRoute) then getTunnelRoute p (gp_Name q) (gp_State q)
  else Fail (not_handled (gp_Kind q)).
Definition List (p : plugin) (kind : string) : P (list (option resource)) :=
  if decide (kind = kindDNSRecord) then listDNSRecords p else if decide (kind = kindTunnel) then listTunnels p else Ret [].
Definition Delete (p : plugin) (q : DeleteParams) : P unit :=
  if decide (dp_Kind q = kindDNSRecord) then deleteDNSRecord p (dp_State q)
  else if decide (dp_Kind q = kindTunnel) then deleteTunnel p (dp_State q)
  else if decide (dp_Kind q = kindTunnelRoute) then deleteTunnelRoute p (dp_State q)
  else Ret tt.
Definition actionGetToken : string := "get-token".
Definition DoAction (p : plugin) (q : DoActionParams) : P ActionResult :=
  if decide (da_Kind q = kindTunnel ∧ da_Action q = actionGetToken) then tunnelToken p (da_Name q)
  else Fail (ErrWire (Unsupported ("unknown action " +:+ quote (da_Action q) +:+ " for " +:+ da_Kind q))).

(** What an error is on the wire; the text of a failed transport or decoding is cut. *)
Definition handler_error (e : cf_error) : herror :=
  match e with
  | NotFoundAt => Other "cloudflare: not found"
  | ErrSend m p => Other ("cloudflare " +:+ m +:+ " " +:+ p +:+ ": ")
  | ErrApi m p d => Other ("cloudflare " +:+ m +:+ " " +:+ p +:+ ": " +:+ d)
  | ErrDecodeResult => Other "decode result: "
  | ErrText t => Other t
  | ErrWire e => Wire e
  end.

(** The plugin with its environment; the schemas of schema.go are arguments. *)
Context (dnsRecordSchema tunnelSchema tunnelRouteSchema : string).
Definition Handshake : HandshakeResult :=
  MkHandshake "cloudflare" ProtocolVersion
    [MkKind kindDNSRecord dnsRecordSchema [] false "" ""; MkKind kindTunnel tunnelSchema [actionGetToken] false "" "";
     MkKind kindTunnelRoute tunnelRouteSchema [] false "" ""]
    ["schema"; CapabilityState; "actions"].

Context {W : Type} (serve : request → W → answer * W).
Definition performed {A B} (f : A → B) (prog : plugin → P A) (s : plugin * W) : result herror B * (plugin * W) :=
  let '(x, _, w) := run serve (prog s.1) s.2 in (f <$> map_err handler_error x, (s.1, w)).
(** [provider], once it is configured: before that its client is nil. *)
Definition handler : Handler (plugin * W) :=
  let base := Unimplemented (λ s, (Ok (Some Handshake), s)) (λ q, performed Some (λ p, Apply p q)) (λ q, performed Some (λ p, Get p q))
    (λ k, performed id (λ p, List p k)) (λ q, performed id (λ p, Delete p q)) in
  MkHandler (h_Handshake base)
    (λ raw s, let '(c, r) := Configure raw (cfg s.1) in
       match r with Err e => (Err e, (MkPlugin c (client s.1), s.2)) | Ok cl => (Ok tt, (MkPlugin c cl, s.2)) end)
    (h_Apply base) (h_Get base) (h_List base) (h_Delete base) (h_Plan base) (h_DryRun base)
    (λ q, performed Some (λ p, DoAction p q)) (h_OwnerOf base) (h_ChildrenOf base).
End client.
