(* ===== verification/CloudflareRoutes.v ===== *)
(** Routes of Cloudflare tunnels: many resources share the ingress of one tunnel. The
    rules of a tunnel are a map from hostnames, of which the methods of TunnelRoute are
    the operations; an apply of the Tunnel itself replaces the map. *)
From stdpp Require Import gmap.
From S2P Require Import Prelude GoStrings GoValue Json Registry PluginProto Effects Cloudflare JsonCode.

(** ** An ingress as a map *)

Definition routes (l : list rule) : gmap string rule := list_to_map ((λ r, (hostname_of r, r)) <$> filter (λ r, hostname_of r ≠ "") l).
(** Rules of hosts, and one rule for the rest at the end. *)
Definition sealed (l : list rule) : Prop := ∃ l', l = l' ++ [catch_all] ∧ Forall (λ r, hostname_of r ≠ "") l'.

Lemma routes_lookup l h : routes l !! h = if decide (h = "") then None else head (filter (λ r, hostname_of r = h) l).
Proof.
  unfold routes. induction l as [|r l IH]; [by destruct (decide _)|]. rewrite !filter_cons.
  destruct (decide (hostname_of r ≠ "")) as [Hr|Hr]; csimpl.
  - destruct (decide (hostname_of r = h)) as [<-|Hh]; [by rewrite lookup_insert_eq, decide_False|].
    by rewrite lookup_insert_ne.
  - rewrite IH. destruct (decide (h = "")) as [|Hh]; [done|]. destruct (decide (hostname_of r = h)) as [<-|]; [|done].
    by destruct Hr.
Qed.
Lemma filter_other l h h' : h ≠ "" → h ≠ h' → filter (λ r, hostname_of r = h) (other_rules l h') = filter (λ r, hostname_of r = h) l.
Proof.
  intros H0 Hne. unfold other_rules. induction l as [|r l IH]; [done|]. rewrite !filter_cons.
  destruct (decide (hostname_of r ≠ "" ∧ hostname_of r ≠ h')) as [_|Hn]; [by rewrite filter_cons, IH|].
  destruct (decide (hostname_of r = h)) as [<-|]; [by destruct Hn|done].
Qed.
Lemma filter_same l h : filter (λ r, hostname_of r = h) (other_rules l h) = [].
Proof.
  unfold other_rules. induction l as [|r l IH]; [done|]. rewrite filter_cons. case_decide as Hr; [|done].
  rewrite filter_cons, decide_False by tauto. done.
Qed.
Lemma route_rule_hostname h s p : hostname_of (route_rule h s p) = h.
Proof. done. Qed.

Lemma routes_merge l h s p : h ≠ "" → routes (mergeIngressRule l h s p) = <[h := route_rule h s p]> (routes l).
Proof.
  intros Hh. apply map_eq. intros k. rewrite routes_lookup. unfold mergeIngressRule. rewrite filter_app.
  destruct (decide (k = h)) as [->|Hk].
  - rewrite decide_False by done. rewrite lookup_insert_eq, filter_same, filter_cons, decide_True by done. done.
  - rewrite lookup_insert_ne, routes_lookup by done. destruct (decide (k = "")) as [|H0]; [done|].
    rewrite filter_other by done. rewrite !filter_cons, decide_False by (rewrite route_rule_hostname; congruence).
    rewrite decide_False by (intros Hc; by apply H0). by rewrite app_nil_r.
Qed.
Lemma routes_remove l h : routes (removeIngressRule l h) = delete h (routes l).
Proof.
  apply map_eq. intros k. rewrite routes_lookup. unfold removeIngressRule. rewrite filter_app.
  destruct (decide (k = h)) as [->|Hk].
  - rewrite lookup_delete_eq. destruct (decide (h = "")) as [|H0]; [done|].
    rewrite filter_same, filter_cons, decide_False by (intros Hc; by apply H0). done.
  - rewrite lookup_delete_ne, routes_lookup by done. destruct (decide (k = "")) as [|H0]; [done|].
    rewrite filter_other by done. rewrite filter_cons, decide_False by (intros Hc; by apply H0). by rewrite app_nil_r.
Qed.
Lemma other_rules_hosts l h : Forall (λ r, hostname_of r ≠ "") (other_rules l h).
Proof. apply Forall_forall. by intros r [[? _] _]%list_elem_of_filter. Qed.
Lemma merge_sealed l h s p : h ≠ "" → sealed (mergeIngressRule l h s p).
Proof.
  intros Hh. exists (other_rules l h ++ [route_rule h s p]). unfold mergeIngressRule. rewrite <- app_assoc. split; [done|].
  apply Forall_app. split; [apply other_rules_hosts|by repeat constructor].
Qed.
Lemma remove_sealed l h : sealed (removeIngressRule l h).
Proof. exists (other_rules l h). split; [done|apply other_rules_hosts]. Qed.

(** ** The API as a store of configurations *)

(** A rule as the API returns it: what JSON makes of it is itself. *)
Definition normal (r : rule) : Prop := read_map r = r.
Lemma route_rule_normal h s p : normal (route_rule h s p).
Proof. unfold normal, route_rule, omit_str. by case_decide. Qed.
Lemma other_normal l h : Forall normal l → Forall normal (other_rules l h).
Proof. intros Hl. apply Forall_forall. intros r [_ Hr]%list_elem_of_filter. by eapply Forall_forall in Hl. Qed.
Lemma merge_normal l h s p : Forall normal l → Forall normal (mergeIngressRule l h s p).
Proof.
  intros Hl. apply Forall_app. split; [by apply other_normal|]. constructor; [apply route_rule_normal|by repeat constructor].
Qed.
Lemma remove_normal l h : Forall normal l → Forall normal (removeIngressRule l h).
Proof. intros Hl. apply Forall_app. split; [by apply other_normal|by repeat constructor]. Qed.

(** What is read is normal. *)
Lemma read_map_normal m : normal (read_map m).
Proof.
  unfold normal. assert (NoDup (read_map m).*1 ∧ Forall (λ p, json_read p.2 = p.2) (read_map m)) as [Hn Hv].
  { unfold read_map. assert (NoDup ([] : gomap).*1 ∧ Forall (λ p, json_read p.2 = p.2) ([] : gomap)) as H by (by split; constructor).
    revert H. generalize ([] : gomap). induction m as [|[k v] m IH]; intros acc [Hn Hv]; [done|]. apply IH. split; [by apply assoc_set_NoDup|].
    apply Forall_forall. intros p [->|Hp]%assoc_set_elem; [apply json_read_idemp|]. by eapply Forall_forall in Hv. }
  rewrite read_map_id by done. unfold json_read_map. induction Hv as [|[k v] l Hx _ IH]; [done|]. simpl in *. apply NoDup_cons in Hn as [_ Hn].
  by rewrite Hx, IH.
Qed.
Lemma jfield_ind {A} (Q : A → Prop) key (d : decoder A) init m a :
  Q init → (∀ v x y, Q x → d v x = Some y → Q y) → jfield key d init m = Some a → Q a.
Proof.
  intros Hi Hd. unfold jfield. revert init Hi. induction m as [|[k v] m IH]; intros init Hi; simpl; [by intros [= <-]|].
  destruct (decide _); [|by apply IH]. destruct (d v init) as [b|] eqn:Hb; [by eapply IH, Hd|].
  clear. induction m as [|? ? IH]; [done|]. simpl. exact IH.
Qed.
Lemma dec_ingress_normal v l : dec_ingress v [] = Some l → Forall normal l.
Proof.
  unfold dec_ingress, dec_struct. destruct v as [| | | | | |m]; [intros [= <-]; constructor|done..|].
  apply jfield_ind; [constructor|]. intros v x y Hx. destruct v as [| | | | | |m']; [by intros [= <-]|done..|].
  apply jfield_ind; [done|]. intros v z u _. destruct v as [| | | | |rs|]; [by intros [= <-]|done..| |done]. simpl.
  revert u. induction rs as [|r rs IH]; intros u; simpl; [by intros [= <-]|].
  destruct r as [| | | | | |m'']; simpl; try done.
  - destruct (mapM _ rs) as [us|]; [|done]. intros [= <-]. constructor; [done|by apply IH].
  - destruct (mapM _ rs) as [us|]; [|done]. intros [= <-]. constructor; [apply read_map_normal|by apply IH].
Qed.
Lemma accepted_ingress_normal JsonDoc method path a l : accepted JsonDoc method path dec_ingress [] a = Ok l → Forall normal l.
Proof.
  unfold accepted. destruct a as [[status data]|]; [|done]. case_decide; [done|]. case_match; [by case_match|].
  destruct (en_Result _) as [v|]; [|intros [= <-]; constructor]. intros Hd. assert (v ≠ VNull → dec_ingress v [] = Some l) as Hv.
  { intros Hn. destruct v; [done|..]; by destruct (dec_ingress _ _); simplify_eq. }
  destruct (decide (v = VNull)) as [->|Hn]; [simplify_eq; constructor|]. by eapply dec_ingress_normal, Hv.
Qed.

(** A list that ends in a rule for every hostname. *)
Definition ends_open (l : list rule) : Prop := ∃ l' r, l = l' ++ [r] ∧ hostname_of r = "".
Lemma sealed_open l : sealed l → ends_open l.
Proof. intros (l' & -> & _). by exists l', catch_all. Qed.
Lemma tunnelIngress_open spec : tunnelIngress spec ≠ [] → ends_open (tunnelIngress spec).
Proof.
  unfold tunnelIngress. cbn zeta.
  match goal with |- context [last ?o] => set (out := o) end. destruct (last out) as [r|] eqn:Hl; [|done]. intros _.
  case_decide as Hd; [|by exists out, catch_all]. apply last_Some in Hl as [l' ->]. exists l', r. split; [done|].
  unfold hostname_of, specString. by rewrite Hd.
Qed.

(** What the API has of an account: its tunnels, and the ingress that was last put for
    each of them. It need only take lists that end in the rule for everything else. *)
Class ConfigStore (W : Type) : Type := { tunnel_named : string → option string; ingress_of : W → string → option (list rule) }.
Definition known {W} `{ConfigStore W} (id : string) : Prop := ∃ name, tunnel_named name = Some id.
Class ConfigStoreLaws {W} `{ConfigStore W} (JsonDoc : string → option value) (serve : request → W → answer * W) (p : plugin) (acct : string) : Prop := {
  finds name w :
    (serve (MkRequest (client p) "GET" (tunnels acct) [("name", name); ("is_deleted", "false")] None) w).2 = w ∧
    ∃ l, accepted JsonDoc "GET" (tunnels acct) (dec_list (λ v, dec_tunnel v zero_tunnel)) []
           (serve (MkRequest (client p) "GET" (tunnels acct) [("name", name); ("is_deleted", "false")] None) w).1 = Ok l ∧
         tn_ID <$> head (filter (λ t, tn_Name t = name) l) = tunnel_named name;
  reads id w :
    known id →
    (serve (MkRequest (client p) "GET" (configurations acct id) [] None) w).2 = w ∧
    accepted JsonDoc "GET" (configurations acct id) dec_ingress [] (serve (MkRequest (client p) "GET" (configurations acct id) [] None) w).1 =
      match ingress_of w id with Some l => Ok l | None => Err NotFoundAt end;
  writes id l w :
    known id → Forall normal l → ends_open l →
    accepted JsonDoc "PUT" (configurations acct id) dec_ignored tt
      (serve (MkRequest (client p) "PUT" (configurations acct id) [] (Some (ingress_body l))) w).1 = Ok tt ∧
    ∀ id', ingress_of (serve (MkRequest (client p) "PUT" (configurations acct id) [] (Some (ingress_body l))) w).2 id' =
      if decide (id' = id) then Some l else ingress_of w id' }.

Lemma run_do {W A} JsonDoc (serve : request → W → answer * W) c method path query body (d : decoder A) zero w :
  run serve (do JsonDoc c method path query body d zero) w =
    let q := MkRequest c method path query body in
    (accepted JsonDoc method path d zero (serve q w).1, [(q, (serve q w).1)], (serve q w).2).
Proof. unfold do. simpl. destruct (serve _ w) as [r w']. simpl. by destruct (accepted _ _ _ _ _ r). Qed.
Lemma run_ret {W E A} (serve : request → W → answer * W) (a : A) w : run serve (Ret a : prog request answer E A) w = (Ok a, [], w).
Proof. done. Qed.

(** ** The operations *)

Inductive route_op : Type :=
| RApply (m : resource)
| RGet (name : string) (st : tunnelRouteState)
| RDelete (st : tunnelRouteState).

Section routes.
Context {W : Type} (JsonDoc : string → option value) (quote : string → string) (serve : request → W → answer * W).
Context (p : plugin) (acct : string) `{Hlaws : ConfigStoreLaws W JsonDoc serve p acct}.

(** The state that an operation returns. *)
Definition route_step (op : route_op) (w : W) : result cf_error (option value) * W :=
  match op with
  | RApply m => let '(x, _, w') := run serve (applyTunnelRoute JsonDoc quote p m) w in (ar_State <$> x, w')
  | RGet name st => let '(x, _, w') := run serve (getTunnelRoute JsonDoc quote p name (Some (enc_route_state st))) w in (gr_State <$> x, w')
  | RDelete st => let '(x, _, w') := run serve (deleteTunnelRoute JsonDoc p (Some (enc_route_state st))) w in ((λ _, None) <$> x, w')
  end.
(** A map of hostnames per tunnel. *)
Definition spec_field (m : resource) (key : string) : string := specString (spec_of m) key.
Definition route_id (m : resource) : string := default "" (tunnel_named (spec_field m "tunnel")).
Definition spec_step (op : route_op) (σ : string → gmap string rule) : result cf_error (option value) * (string → gmap string rule) :=
  match op with
  | RApply m =>
      let h := spec_field m "hostname" in
      (Ok (Some (enc_route_state (MkRouteState acct (route_id m) (spec_field m "tunnel") h))),
       λ id, if decide (id = route_id m) then <[h := route_rule h (spec_field m "service") (spec_field m "path")]> (σ id) else σ id)
  | RGet name st =>
      (match σ (rs_TunnelID st) !! rs_Hostname st with
       | Some _ => Ok (Some (enc_route_state st))
       | None => Err (ErrWire (NotFound ("TunnelRoute " +:+ quote name +:+ ": no rule for " +:+ rs_Hostname st +:+ " in tunnel " +:+ rs_TunnelName st)))
       end, σ)
  | RDelete st => (Ok None, λ id, if decide (id = rs_TunnelID st) then delete (rs_Hostname st) (σ id) else σ id)
  end.
Fixpoint route_run {St} (step : route_op → St → result cf_error (option value) * St) (ops : list route_op) (st : St) :
    list (result cf_error (option value)) * St :=
  match ops with
  | [] => ([], st)
  | o :: ops => let '(x, st') := step o st in let '(l, st'') := route_run step ops st' in (x :: l, st'')
  end.

Definition route_op_ok (op : route_op) : Prop :=
  match op with
  | RApply m => tunnelAccount p (spec_of m) = acct ∧ is_Some (tunnel_named (spec_field m "tunnel")) ∧
      spec_field m "tunnel" ≠ "" ∧ spec_field m "hostname" ≠ "" ∧ spec_field m "service" ≠ ""
  | RGet _ st | RDelete st => rs_AccountID st = acct ∧ known (rs_TunnelID st) ∧ ¬ no_route_state st
  end.
Definition ingress (w : W) (id : string) : list rule := default [] (ingress_of w id).
Definition shows (w : W) (σ : string → gmap string rule) : Prop := ∀ id, routes (ingress w id) = σ id.

Lemma read_route_enc st : read_route_state (Some (enc_route_state st)) = st.
Proof. by destruct st. Qed.
Lemma ingress_normal w id : known id → Forall normal (ingress w id).
Proof.
  intros Hk. unfold ingress. destruct (ingress_of w id) as [l|] eqn:Hl; [|constructor]. destruct (reads id w Hk) as [_ Ha]. rewrite Hl in Ha.
  by eapply accepted_ingress_normal.
Qed.

Lemma run_read_ingress id w : known id → ∃ t, run serve (readTunnelIngress JsonDoc p acct id) w = (Ok (ingress w id), t, w).
Proof.
  intros Hk. unfold readTunnelIngress, or_else. rewrite run_bind, run_try, run_do. destruct (reads id w Hk) as [Hw Ha]. simpl. rewrite Hw, Ha.
  unfold ingress. destruct (ingress_of w id); by eexists.
Qed.
Lemma run_write id l w :
  known id → Forall normal l → ends_open l → ∃ t w', run serve (writeTunnelIngress JsonDoc p acct id l) w = (Ok tt, t, w') ∧
    ∀ id', ingress_of w' id' = if decide (id' = id) then Some l else ingress_of w id'.
Proof.
  intros Hk Hl Hsl. unfold writeTunnelIngress. rewrite run_do. destruct (writes id l w Hk Hl Hsl) as [Ha Hw]. simpl. rewrite Ha. by eexists _, _.
Qed.
Lemma run_find name id w : tunnel_named name = Some id → ∃ t, run serve (findTunnelID JsonDoc quote p acct name) w = (Ok id, t, w).
Proof.
  intros Hn. unfold findTunnelID. rewrite run_bind, run_do. destruct (finds name w) as (Hw & l & Ha & Hl). simpl. rewrite Hw, Ha. simpl.
  rewrite Hn in Hl. destruct (head _) as [t|]; [|done]. simpl in *. simplify_eq. by eexists.
Qed.

Hypothesis Hacct : acct ≠ "".

Lemma apply_runs m id w :
  route_op_ok (RApply m) → tunnel_named (spec_field m "tunnel") = Some id →
  ∃ w', route_step (RApply m) w = (Ok (Some (enc_route_state (MkRouteState acct id (spec_field m "tunnel") (spec_field m "hostname")))), w') ∧
    ∀ id', ingress_of w' id' = if decide (id' = id) then
      Some (mergeIngressRule (ingress w id) (spec_field m "hostname") (spec_field m "service") (spec_field m "path")) else ingress_of w id'.
Proof.
  intros (Ha & _ & Hn & Hh & Hs) Hid. assert (known id) as Hk by (by eexists). simpl. unfold applyTunnelRoute. rewrite Ha. fold (spec_field m "tunnel") (spec_field m "hostname") (spec_field m "service") (spec_field m "path").
  rewrite decide_False by done. rewrite decide_False by tauto.
  destruct (run_find _ _ w Hid) as [t1 H1]. rewrite run_bind, H1. cbn [then_run].
  destruct (run_read_ingress id w Hk) as [t2 H2]. rewrite run_bind, H2. cbn [then_run].
  destruct (run_write id (mergeIngressRule (ingress w id) (spec_field m "hostname") (spec_field m "service") (spec_field m "path")) w Hk) as (t3 & w' & H3 & Hw).
  { by apply merge_normal, ingress_normal. }
  { by apply sealed_open, merge_sealed. }
  rewrite run_bind, H3. cbn [then_run]. by exists w'.
Qed.
Lemma get_runs name st w :
  route_op_ok (RGet name st) →
  route_step (RGet name st) w =
    (if existsb (λ r, bool_decide (hostname_of r = rs_Hostname st)) (ingress w (rs_TunnelID st)) then Ok (Some (enc_route_state st))
     else Err (ErrWire (NotFound ("TunnelRoute " +:+ quote name +:+ ": no rule for " +:+ rs_Hostname st +:+ " in tunnel " +:+ rs_TunnelName st))), w).
Proof.
  intros (Ha & Hk & Hst). cbn [route_step]. unfold getTunnelRoute. rewrite read_route_enc. rewrite decide_False by done. rewrite Ha.
  destruct (run_read_ingress (rs_TunnelID st) w Hk) as [t Hrd]. rewrite run_bind. unfold missing_as. rewrite run_wrap, Hrd. cbn [then_run map_err].
  by destruct (existsb _ _).
Qed.
Lemma delete_runs st w :
  route_op_ok (RDelete st) →
  ∃ w', route_step (RDelete st) w = (Ok None, w') ∧
    ∀ id', ingress_of w' id' = if decide (id' = rs_TunnelID st) then
      Some (removeIngressRule (ingress w (rs_TunnelID st)) (rs_Hostname st)) else ingress_of w id'.
Proof.
  intros (Ha & Hk & Hst). cbn [route_step]. unfold deleteTunnelRoute. rewrite read_route_enc. rewrite decide_False by done. rewrite Ha.
  destruct (run_read_ingress (rs_TunnelID st) w Hk) as [t Hrd]. rewrite run_bind, run_try, Hrd. cbn [then_run].
  destruct (run_write (rs_TunnelID st) (removeIngressRule (ingress w (rs_TunnelID st)) (rs_Hostname st)) w Hk) as (t3 & w' & H3 & Hw).
  { by apply remove_normal, ingress_normal. }
  { by apply sealed_open, remove_sealed. }
  rewrite H3. by exists w'.
Qed.

Lemma existsb_routes l h : h ≠ "" → existsb (λ r, bool_decide (hostname_of r = h)) l = bool_decide (is_Some (routes l !! h)).
Proof.
  intros Hh. rewrite routes_lookup, decide_False by done. induction l as [|r l IH]; [done|]. simpl. rewrite filter_cons.
  case_decide as Hr; simpl; [|by rewrite bool_decide_eq_false_2].
  rewrite (bool_decide_eq_true_2 (hostname_of r = h)) by done. done.
Qed.

(** One operation: the result, the map, and the form of what was written. *)
Lemma route_step_ok op w σ :
  route_op_ok op → shows w σ →
  (route_step op w).1 = (spec_step op σ).1 ∧ shows (route_step op w).2 (spec_step op σ).2 ∧
  ∀ id, ingress_of (route_step op w).2 id = ingress_of w id ∨ sealed (ingress (route_step op w).2 id).
Proof.
  intros Hok Hs. destruct op as [m|name st|st].
  - destruct (proj1 (proj2 Hok)) as [id Hid]. destruct (apply_runs m id w Hok Hid) as (w' & -> & Hw). destruct Hok as (_ & _ & _ & Hh & _).
    unfold spec_step, route_id. rewrite Hid. simpl. split; [done|]. split.
    + intros k. unfold ingress. rewrite Hw. case_decide; [|apply Hs]. subst k. simpl. rewrite routes_merge by done. by rewrite Hs.
    + intros k. unfold ingress at 1. rewrite Hw. case_decide; [right; by apply merge_sealed|by left].
  - rewrite get_runs by done. destruct Hok as (_ & _ & Hst). unfold no_route_state in Hst. rewrite existsb_routes by tauto. rewrite Hs. cbn [spec_step fst snd].
    split; [|split; [done|by left]]. case_bool_decide as Hx; [destruct Hx as [? ->]; done|]. apply eq_None_not_Some in Hx. by rewrite Hx.
  - destruct (delete_runs st w Hok) as (w' & -> & Hw). simpl. split; [done|]. split.
    + intros k. unfold ingress. rewrite Hw. case_decide; [|apply Hs]. subst k. simpl. rewrite routes_remove. by rewrite Hs.
    + intros k. unfold ingress at 1. rewrite Hw. case_decide; [right; by apply remove_sealed|by left].
Qed.

(** C34: many routes share a tunnel. Against an API that keeps the configuration that was
    put last, the methods of TunnelRoute, in whatever order and for however many
    resources and tunnels, are the operations of a map from hostnames to rules: an apply
    inserts its rule, a deletion removes the rule of its hostname, a read finds exactly
    what is in the map, and none of them touches the rule of another hostname. What is
    written always ends in the one rule that has no hostname. *)
Theorem routes_refine ops w σ :
  Forall route_op_ok ops → shows w σ →
  (route_run route_step ops w).1 = (route_run spec_step ops σ).1 ∧
  shows (route_run route_step ops w).2 (route_run spec_step ops σ).2 ∧
  ∀ id, ingress_of (route_run route_step ops w).2 id = ingress_of w id ∨ sealed (ingress (route_run route_step ops w).2 id).
Proof.
  intros Hok. revert w σ. induction Hok as [|o ops Ho Hops IH]; intros w σ Hs; [by split_and!; [|apply Hs|left]|].
  destruct (route_step_ok o w σ Ho Hs) as (H1 & H2 & H3). simpl.
  destruct (route_step o w) as [x w1], (spec_step o σ) as [y σ1]. cbn [fst snd] in *. subst y.
  destruct (IH w1 σ1 H2) as (H4 & H5 & H6).
  destruct (route_run route_step ops w1) as [l w2], (route_run spec_step ops σ1) as [l' σ2]. cbn [fst snd] in *.
  split_and!; [by f_equal|done|]. intros id. destruct (H6 id) as [H7|H7]; [|by right]. destruct (H3 id) as [H8|H8]; [left; by rewrite H7|right].
  unfold ingress in *. by rewrite H7.
Qed.

(** ** The Tunnel itself *)

Lemma ingress_rule_normal item r : ingress_rule item = Some r → normal r.
Proof.
  destruct item as [| | | | | |m]; [done..|]. cbn [ingress_rule]. case_decide; [done|]. intros [= <-]. unfold normal, omit_str. by repeat case_decide.
Qed.
Lemma tunnelIngress_normal spec : Forall normal (tunnelIngress spec).
Proof.
  unfold tunnelIngress. set (l := match assoc _ _ with Some (VList l) => l | _ => [] end).
  assert (Forall normal (omap ingress_rule l)) as Hl.
  { apply Forall_forall. intros r (v & _ & Hr)%list_elem_of_omap. by eapply ingress_rule_normal. }
  destruct (last _); [|constructor]. case_decide; [done|]. apply Forall_app. split; [done|by repeat constructor].
Qed.

(** a Tunnel that declares an ingress takes the routes of other resources away: its
    apply, the first as much as a repeated one, puts the rules of its own spec in the
    place of all that is there, and a TunnelRoute whose hostname is not among them, whose
    apply had succeeded, is not found afterwards. *)
Theorem tunnel_apply_drops_routes m state w x t w' :
  tunnelAccount p (spec_of m) = acct → tunnelIngress (spec_of m) ≠ [] →
  run serve (applyTunnel JsonDoc quote p m state) w = (Ok x, t, w') →
  ∃ id, ar_State x = Some (enc_tunnel_state (MkTunnelState id acct)) ∧ (known id → ingress_of w' id = Some (tunnelIngress (spec_of m))) ∧
    ∀ name st, route_op_ok (RGet name st) → rs_TunnelID st = id → rs_Hostname st ∉ map hostname_of (tunnelIngress (spec_of m)) →
      ∃ text, (route_step (RGet name st) w').1 = Err (ErrWire (NotFound text)).
Proof.
  intros Ha Hne Hrun. unfold applyTunnel in Hrun. rewrite Ha, decide_False in Hrun by done. rewrite run_bind in Hrun.
  destruct (run serve (if decide _ then _ else _) w) as [[[tn|e] t1] w1]; [|done]. cbn [then_run] in Hrun.
  assert (known (tn_ID tn) → ar_State x = Some (enc_tunnel_state (MkTunnelState (tn_ID tn) acct)) ∧
    ingress_of w' (tn_ID tn) = Some (tunnelIngress (spec_of m))) as Hput.
  { intros Hk. destruct (run_write (tn_ID tn) (tunnelIngress (spec_of m)) w1 Hk (tunnelIngress_normal _) (tunnelIngress_open _ Hne)) as (t2 & w2 & Hw & Hi).
    destruct (tunnelIngress (spec_of m)) as [|r l] eqn:Hl; [done|]. rewrite run_bind, Hw in Hrun. simpl in Hrun. simplify_eq.
    split; [done|]. by rewrite Hi, decide_True. }
  exists (tn_ID tn). split.
  { destruct (tunnelIngress (spec_of m)) as [|r l] eqn:Hl; [done|]. rewrite run_bind in Hrun.
    destruct (run serve (writeTunnelIngress _ _ _ _ _) w1) as [[[[]|e] t2] w2]; [|done]. simpl in Hrun. by simplify_eq. }
  split; [apply Hput|]. intros name st Hst Hid Hh. rewrite get_runs by done. cbn [fst]. destruct Hst as (_ & Hk & _). rewrite Hid in Hk.
  destruct (Hput Hk) as [_ Hi].
  assert (existsb (λ r, bool_decide (hostname_of r = rs_Hostname st)) (ingress w' (rs_TunnelID st)) = false) as ->; [|by eexists].
  unfold ingress. rewrite Hid, Hi. cbn [default from_option]. apply not_true_iff_false. intros (r' & Hr & Hx%bool_decide_eq_true)%existsb_exists.
  apply Hh. rewrite <- Hx. apply list_elem_of_fmap. exists r'. split; [done|]. by apply list_elem_of_In.
Qed.
End routes.

(** ** An account with two tunnels *)

(** The ingress of each tunnel; any other request is not found. *)
Definition ex_json_doc : string → option value := value_of.
Definition ex_answer (result : value) : answer := Some (200%Z, text_of (VMap [("success", VBool true); ("errors", VList []); ("result", result)])).
Definition ex_tunnel (name id : string) : value := VMap [("id", VStr id); ("name", VStr name)].
Definition ex_config (l : list rule) : value := VMap [("config", VMap [("ingress", VList (map VMap l))])].
Definition ex_body_rules (body : option value) : list rule :=
  match body with Some v => default [] (dec_ingress v []) | None => [] end.
Definition ex_plugin : plugin := MkPlugin (MkCfConfig "" "token" [("accountId", "acct")]) (newClient "" "token").
Definition ex_id (path : string) : option string :=
  if decide (path = configurations "acct" "t1") then Some "t1" else if decide (path = configurations "acct" "t2") then Some "t2" else None.
Abbreviation config := (list (string * list rule)).
Definition ex_serve (q : request) (w : config) : answer * config :=
  if decide (q_path q = tunnels "acct") then (ex_answer (VList [ex_tunnel "edge" "t1"; ex_tunnel "lab" "t2"]), w)
  else match ex_id (q_path q) with
       | Some id =>
           if decide (q_method q = "PUT") then (ex_answer VNull, assoc_set id (ex_body_rules (q_body q)) w)
           else match assoc id w with Some l => (ex_answer (ex_config l), w) | None => (Some (404%Z, ""), w) end
       | None =>
           if decide (q_path q = tunnel "acct" "t1") then (ex_answer (ex_tunnel "edge" "t1"), w) else (Some (404%Z, ""), w)
       end.
#[local] Instance ex_store : ConfigStore config :=
  {| tunnel_named n := if decide (n = "edge") then Some "t1" else if decide (n = "lab") then Some "t2" else None;
     ingress_of w id := map read_map <$> assoc id w |}.
Lemma ex_config_read l : dec_ingress (ex_config l) [] = Some (map read_map l).
Proof.
  unfold dec_ingress, ex_config, dec_struct, jfield. simpl. assert (mapM (λ v, fields <$> dec_map v None) (map VMap l) = Some (map read_map l)) as ->; [|done].
  induction l as [|r l IH]; [done|]. simpl in *. by rewrite IH.
Qed.
Lemma map_read_map l : Forall normal l → map read_map l = l.
Proof. induction 1 as [|r l Hr _ IH]; [done|]. simpl. by rewrite Hr, IH. Qed.

Lemma ex_accepted {A} m path (d : decoder A) zero v a :
  v ≠ VNull → d v zero = Some a → accepted ex_json_doc m path d zero (ex_answer v) = Ok a.
Proof.
  intros Hn Hd. unfold accepted, ex_answer, ex_json_doc. rewrite decide_False by done. rewrite value_of_text. simpl. by destruct v; rewrite ?Hd.
Qed.
Lemma ex_known id : known id → id = "t1" ∨ id = "t2".
Proof. intros [name Hn]. simpl in Hn. repeat case_decide; naive_solver. Qed.
#[local] Instance ex_laws : ConfigStoreLaws ex_json_doc ex_serve ex_plugin "acct".
Proof.
  split.
  - intros name w. unfold ex_serve. cbn [q_path]. rewrite decide_True by done. split; [done|].
    exists [MkTunnel "t1" "edge" "" "" "" ""; MkTunnel "t2" "lab" "" "" "" ""]. split; [by apply ex_accepted|].
    rewrite !filter_cons. simpl. by repeat case_decide; simplify_eq.
  - intros id w Hk. assert (ex_id (configurations "acct" id) = Some id) as Hid by (by destruct (ex_known _ Hk) as [->| ->]).
    unfold ex_serve. cbn [q_path q_method]. rewrite decide_False by (by destruct (ex_known _ Hk) as [->| ->]). rewrite Hid, decide_False by done.
    simpl. destruct (assoc id w) as [l|]; simpl; [|done]. split; [done|]. apply ex_accepted; [done|]. apply ex_config_read.
  - intros id l w Hk Hl. assert (ex_id (configurations "acct" id) = Some id) as Hid by (by destruct (ex_known _ Hk) as [->| ->]).
    unfold ex_serve. cbn [q_path q_method]. rewrite decide_False by (by destruct (ex_known _ Hk) as [->| ->]). rewrite Hid, decide_True by done.
    split; [done|]. intros id'. cbn [snd q_body]. change (ex_body_rules _) with (default [] (dec_ingress (ex_config l) [])).
    rewrite (ex_config_read l). rewrite (map_read_map l Hl). simpl.
    case_decide as Hd; [subst; by rewrite assoc_set_eq; simpl; rewrite map_read_map|]. by rewrite assoc_set_ne.
Qed.

Definition ex_route (tunnel hostname service : string) : resource :=
  Resource apiVersion kindTunnelRoute (ResourceMetadata hostname "" [] [] "" "")
    (Some [("tunnel", VStr tunnel); ("hostname", VStr hostname); ("service", VStr service)]) None.
Definition ex_state (id name hostname : string) : tunnelRouteState := MkRouteState "acct" id name hostname.
Definition ex_route_ops : list route_op :=
  [RApply (ex_route "edge" "a.org" "http://a"); RApply (ex_route "edge" "b.org" "http://b"); RApply (ex_route "lab" "a.org" "http://c");
   RDelete (ex_state "t1" "edge" "a.org"); RGet "b.org" (ex_state "t1" "edge" "b.org"); RGet "a.org" (ex_state "t1" "edge" "a.org")].
Lemma ex_route_ops_ok : Forall (route_op_ok ex_plugin "acct") ex_route_ops.
Proof.
  assert (known "t1") as H1 by (by exists "edge").
  repeat constructor; try done; try (by eexists); by intros [|[|]].
Qed.
Definition ex_route_run := route_run (route_step ex_json_doc id ex_serve ex_plugin) ex_route_ops [].
Lemma routes_refine_witness :
  map is_ok ex_route_run.1 = [true; true; true; true; true; false] ∧
  routes (ingress ex_route_run.2 "t1") = {["b.org" := route_rule "b.org" "http://b" ""]} ∧
  routes (ingress ex_route_run.2 "t2") = {["a.org" := route_rule "a.org" "http://c" ""]}.
Proof.
  destruct (routes_refine ex_json_doc id ex_serve ex_plugin "acct" ltac:(done) ex_route_ops [] (λ _, ∅) ex_route_ops_ok (λ _, eq_refl)) as (H1 & H2 & _).
  change (route_run _ ex_route_ops []) with ex_route_run in H1, H2. rewrite H1. split; [vm_compute; reflexivity|]. split.
  - rewrite (H2 "t1"). vm_compute. reflexivity.
  - rewrite (H2 "t2"). vm_compute. reflexivity.
Defined.

(** A Tunnel with a rule of its own, applied after the routes. *)
Definition ex_edge : resource :=
  Resource apiVersion kindTunnel (ResourceMetadata "edge" "" [] [] "" "")
    (Some [("ingress", VList [VMap [("hostname", VStr "home.org"); ("service", VStr "http://home")]])]) None.
Definition ex_before : config := [("t1", mergeIngressRule [] "a.org" "http://a" "")].
Definition ex_edge_run : result cf_error ApplyResult * list (request * answer) * config :=
  run ex_serve (applyTunnel ex_json_doc (λ s, s) ex_plugin ex_edge (Some (enc_tunnel_state (MkTunnelState "t1" "acct")))) ex_before.
Lemma tunnel_apply_drops_routes_witness :
  route_step ex_json_doc (λ s, s) ex_serve ex_plugin (RGet "a.org" (ex_state "t1" "edge" "a.org")) ex_before =
    (Ok (Some (enc_route_state (ex_state "t1" "edge" "a.org"))), ex_before) ∧
  ∃ text, (route_step ex_json_doc (λ s, s) ex_serve ex_plugin (RGet "a.org" (ex_state "t1" "edge" "a.org")) ex_edge_run.2).1 =
    Err (ErrWire (NotFound text)).
Proof.
  split; [vm_compute; reflexivity|].
  assert (ar_State <$> ex_edge_run.1.1 = Ok (Some (enc_tunnel_state (MkTunnelState "t1" "acct")))) as Hst by (vm_compute; reflexivity).
  destruct ex_edge_run as [[[x|e] t] w'] eqn:Hrun; [|discriminate]. simpl in Hst.
  unfold ex_edge_run in Hrun.
  destruct (tunnel_apply_drops_routes ex_json_doc (λ s, s) ex_serve ex_plugin "acct" ltac:(discriminate) ex_edge _ _ _ _ _
    ltac:(reflexivity) ltac:(vm_compute; discriminate) Hrun) as (i & Hi & _ & Hget).
  apply Hget.
  - split; [reflexivity|]. split; [by exists "edge"|]. by intros [|[|]].
  - rewrite Hi in Hst. simpl in *. unfold enc_tunnel_state in Hst. simpl in Hst. congruence.
  - apply (bool_decide_unpack _). vm_compute. exact I.
Defined.
