(* ===== verification/CloudflareDns.v ===== *)
(** Records, and what is gone: the life of a DNSRecord of the Cloudflare plugin against
    an API that keeps records; deleting what is no longer there; and how the three kinds
    fare in the comparison of specs (Drift). *)
From stdpp Require Import gmap.
From Corelib Require Import Floats.SpecFloat.
From S2P Require Import Prelude GoStrings GoValue Json Drift Registry PluginProto Effects Cloudflare CloudflareRoutes JsonCode.

#[local] Arguments zone_record : simpl never.
#[local] Arguments zone_records : simpl never.
#[local] Arguments enc_dns : simpl never.
#[local] Arguments read_dns_state : simpl never.

(** ** The API as a store of records *)

(** The zones of the token, their records by identifier, and which records the API takes in
    a zone, as a new one or in the place of one: it refuses invalid ones, and ones that are
    identical to or conflict with others of the zone. *)
Class RecordStore (W : Type) : Type := {
  zone_ok : string → Prop; records : W → string → gmap string cfDNSRecord;
  takes : W → string → option string → cfDNSRecord → bool }.
(** An answer that refuses: an error other than that nothing is there. *)
Definition refuses {A} (x : result cf_error A) : Prop := ∃ e, x = Err e ∧ e ≠ NotFoundAt.
Definition zoned {W} `{RecordStore W} (w w' : W) (zone : string) (r : gmap string cfDNSRecord) : Prop :=
  ∀ z, records w' z = if decide (z = zone) then r else records w z.
(** A record whose numbers fit: it is read as it was written. *)
Definition sendable (rec : cfDNSRecord) : Prop := dec_dns (enc_dns rec) zero_dns = Some rec.
Class RecordStoreLaws {W} `{RecordStore W} (JsonDoc : string → option value) (serve : request → W → answer * W) (c : cfClient) : Prop := {
  creates zone rec w :
    zone_ok zone → sendable rec →
    let q := MkRequest c "POST" (zone_records zone) [] (Some (enc_dns rec)) in
    if takes w zone None rec then ∃ out, accepted JsonDoc "POST" (zone_records zone) dec_dns zero_dns (serve q w).1 = Ok out ∧ dn_ID out ≠ "" ∧
      (∀ z, records w z !! dn_ID out = None) ∧ zoned w (serve q w).2 zone (<[dn_ID out := rec]> (records w zone))
    else refuses (accepted JsonDoc "POST" (zone_records zone) dec_dns zero_dns (serve q w).1) ∧ (serve q w).2 = w;
  updates zone id rec w :
    zone_ok zone → sendable rec →
    let q := MkRequest c "PUT" (zone_record zone id) [] (Some (enc_dns rec)) in
    match records w zone !! id with
    | Some _ =>
        if takes w zone (Some id) rec then ∃ out, accepted JsonDoc "PUT" (zone_record zone id) dec_dns zero_dns (serve q w).1 = Ok out ∧ dn_ID out = id ∧
          zoned w (serve q w).2 zone (<[id := rec]> (records w zone))
        else refuses (accepted JsonDoc "PUT" (zone_record zone id) dec_dns zero_dns (serve q w).1) ∧ (serve q w).2 = w
    | None => accepted JsonDoc "PUT" (zone_record zone id) dec_dns zero_dns (serve q w).1 = Err NotFoundAt ∧ (serve q w).2 = w
    end;
  shows_record zone id w :
    zone_ok zone →
    let q := MkRequest c "GET" (zone_record zone id) [] None in
    (serve q w).2 = w ∧
    match records w zone !! id with
    | Some _ => ∃ out, accepted JsonDoc "GET" (zone_record zone id) dec_dns zero_dns (serve q w).1 = Ok out ∧ dn_ID out = id
    | None => accepted JsonDoc "GET" (zone_record zone id) dec_dns zero_dns (serve q w).1 = Err NotFoundAt
    end;
  removes zone id w :
    zone_ok zone →
    let q := MkRequest c "DELETE" (zone_record zone id) [] None in
    match records w zone !! id with
    | Some _ => accepted JsonDoc "DELETE" (zone_record zone id) dec_ignored tt (serve q w).1 = Ok tt ∧
        zoned w (serve q w).2 zone (delete id (records w zone))
    | None => accepted JsonDoc "DELETE" (zone_record zone id) dec_ignored tt (serve q w).1 = Err NotFoundAt ∧ (serve q w).2 = w
    end }.

Section records.
Context {W : Type} (JsonDoc : string → option value) (quote : string → string) (serve : request → W → answer * W).
Context (p : plugin) `{Hlaws : RecordStoreLaws W JsonDoc serve (client p)}.

Lemma read_dns_enc st : read_dns_state (Some (enc_dns_state st)) = st.
Proof. by destruct st. Qed.

(** Runs of the methods. *)
Definition apply_run m state w := let '(x, _, w') := run serve (applyDNSRecord JsonDoc quote p m state) w in (x, w').
Definition delete_run state w := let '(x, _, w') := run serve (deleteDNSRecord JsonDoc p state) w in (x, w').
Definition get_run name state w := let '(x, _, w') := run serve (getDNSRecord JsonDoc quote p name state) w in (x, w').
Definition state_of (zone id : string) : option value := Some (enc_dns_state (MkDnsState id zone)).

Lemma run_or_else {A} (a b : P A) w :
  run serve (or_else a b) w = let '(x, t, w') := run serve a w in
    match x with Err NotFoundAt => let '(y, t', w'') := run serve b w' in (y, t ++ t', w'') | _ => (x, t, w') end.
Proof.
  unfold or_else. rewrite run_bind, run_try. destruct (run serve a w) as [[[x|[]] t] w']; simpl; rewrite ?app_nil_r; try done.
Qed.

Context (zone : string) (Hzone : zone ≠ "") (Hok : zone_ok zone).
(** A manifest of that zone, and the record it asks for. *)
Definition asks_for (m : resource) (rec : cfDNSRecord) : Prop := dnsRecordFromSpec p (spec_of m) = Ok (rec, zone) ∧ sendable rec.

(** Without a recorded identifier, or when the recorded one is gone, a record is
    created; otherwise it is updated; unless the API refuses it. *)
Lemma apply_creates m rec state id0 w :
  asks_for m rec → ds_RecordID (read_dns_state state) = id0 → id0 = "" ∨ records w zone !! id0 = None →
  if takes w zone None rec then
    ∃ id r w', apply_run m state w = (Ok r, w') ∧ ar_State r = state_of zone id ∧ id ≠ "" ∧
      (∀ z, records w z !! id = None) ∧ zoned w w' zone (<[id := rec]> (records w zone))
  else ∃ e, apply_run m state w = (Err e, w).
Proof.
  intros [Hspec Hsend] Hid0 Hs. unfold apply_run, applyDNSRecord. cbn zeta. rewrite Hspec, Hid0. simpl. rewrite decide_False by done.
  pose proof (creates zone rec w Hok Hsend) as Hc. cbn zeta in Hc.
  assert (id0 ≠ "" → accepted JsonDoc "PUT" (zone_record zone id0) dec_dns zero_dns
      (serve (MkRequest (client p) "PUT" (zone_record zone id0) [] (Some (enc_dns rec))) w).1 = Err NotFoundAt ∧
      (serve (MkRequest (client p) "PUT" (zone_record zone id0) [] (Some (enc_dns rec))) w).2 = w) as Hgone.
  { intros Hd. destruct Hs as [?|Hs]; [done|]. pose proof (updates zone id0 rec w Hok Hsend) as Hu. cbn zeta in Hu. by rewrite Hs in Hu. }
  destruct (takes w zone None rec).
  - destruct Hc as (out & Ha & Hid & Hfresh & Hw). destruct (decide (id0 = "")) as [Hd|Hd].
    + rewrite run_bind, run_do. cbn zeta. rewrite Ha. simpl. by eexists _, _, _.
    + destruct (Hgone Hd) as [Hu Hw']. rewrite run_bind, run_or_else, run_do. cbn zeta. rewrite Hu, Hw', run_do. cbn zeta. rewrite Ha. simpl.
      by eexists _, _, _.
  - destruct Hc as [(e & Ha & _) Hw]. exists e. destruct (decide (id0 = "")) as [Hd|Hd].
    + rewrite run_bind, run_do. cbn zeta. rewrite Ha, Hw. done.
    + destruct (Hgone Hd) as [Hu Hw']. rewrite run_bind, run_or_else, run_do. cbn zeta. rewrite Hu, Hw', run_do. cbn zeta. by rewrite Ha, Hw.
Qed.
Lemma apply_updates m rec state id w :
  asks_for m rec → ds_RecordID (read_dns_state state) = id → id ≠ "" → is_Some (records w zone !! id) →
  if takes w zone (Some id) rec then
    ∃ r w', apply_run m state w = (Ok r, w') ∧ ar_State r = state_of zone id ∧ zoned w w' zone (<[id := rec]> (records w zone))
  else ∃ e, apply_run m state w = (Err e, w).
Proof.
  intros [Hspec Hsend] Hid Hne [old Ho]. unfold apply_run, applyDNSRecord. cbn zeta. rewrite Hspec, Hid. simpl. rewrite !decide_False by done.
  pose proof (updates zone id rec w Hok Hsend) as Hu. cbn zeta in Hu. rewrite Ho in Hu. destruct (takes w zone (Some id) rec).
  - destruct Hu as (out & Hu & Hi & Hw).
    rewrite run_bind, run_or_else, run_do. cbn zeta. rewrite Hu. simpl. rewrite Hi. by eexists _, _.
  - destruct Hu as [(e & Hu & Hne') Hw]. exists e. rewrite run_bind, run_or_else, run_do. cbn zeta. rewrite Hu, Hw. by destruct e.
Qed.

(** ** The life of a record *)

(** What happens to a DNSRecord: it is applied, read, deleted, or somebody else deletes
    the record. The state is kept as the adapter of External keeps it. *)
Inductive dns_op : Type :=
| DApply (m : resource)
| DGet (name : string)
| DDelete
| DGone.
Definition life_step (op : dns_op) (s : W * option value) : bool * (W * option value) :=
  let '(w, state) := s in
  match op with
  | DApply m => let '(x, w') := apply_run m state w in (is_ok x, (w', match x with Ok r => ar_State r | Err _ => state end))
  | DGet name =>
      let '(x, w') := get_run name state w in
      (is_ok x, (w', match x with Ok r => match gr_State r with Some v => Some v | None => state end | Err _ => state end))
  | DDelete => let '(x, w') := delete_run state w in (is_ok x, (w', if is_ok x then None else state))
  | DGone =>
      let id := ds_RecordID (read_dns_state state) in
      (true, (if decide (id = "") then w else (serve (MkRequest (client p) "DELETE" (zone_record zone id) [] None) w).2, state))
  end.
(** The record of the resource, with its identifier: whether there is one, what each operation
    reports and what it makes of it. An apply updates the record in place when there is
    one, and makes one under a new identifier when there is none; when the API does not take the
    record that is asked for, it fails and leaves things as they are. *)
Definition record_of (m : resource) : option cfDNSRecord := match dnsRecordFromSpec p (spec_of m) with Ok (rec, _) => Some rec | Err _ => None end.
Definition life_spec (w : W) (op : dns_op) (σ : option (string * cfDNSRecord)) (ok : bool) (σ' : option (string * cfDNSRecord)) : Prop :=
  match op with
  | DApply m => ∃ rec, record_of m = Some rec ∧ ok = takes w zone (fst <$> σ) rec ∧
      if ok then ∃ id, σ' = Some (id, rec) ∧ match σ with Some (id0, _) => id = id0 | None => ∀ z, records w z !! id = None end
      else σ' = σ
  | DGet _ => ok = bool_decide (is_Some σ) ∧ σ' = σ
  | DDelete => ok = true ∧ σ' = None
  | DGone => ok = true ∧ σ' = None
  end.
(** The zone is as it was, and the record; the other zones are as they were. *)
Definition holds (w0 w : W) (σ : option (string * cfDNSRecord)) : Prop :=
  match σ with
  | Some (id, rec) => records w0 zone !! id = None ∧ zoned w0 w zone (<[id := rec]> (records w0 zone))
  | None => zoned w0 w zone (records w0 zone)
  end.
(** A run of operations, with what each reports, against the specification; the API holds at every moment
    what the specification says. *)
Fixpoint lives (w0 : W) (ops : list dns_op) (s : W * option value) (σ : option (string * cfDNSRecord)) (oks : list bool) : Prop :=
  holds w0 s.1 σ ∧
  match ops, oks with
  | [], [] => True
  | op :: ops, ok :: oks => ∃ σ', life_spec s.1 op σ ok σ' ∧ lives w0 ops (life_step op s).2 σ' oks
  | _, _ => False
  end.
Fixpoint lived (ops : list dns_op) (s : W * option value) : list bool :=
  match ops with
  | [] => []
  | o :: ops => let '(x, s') := life_step o s in x :: lived ops s'
  end.
Definition dns_op_ok (op : dns_op) : Prop := match op with DApply m => ∃ rec, asks_for m rec | _ => True end.

(** The state names the record, or one that is gone. *)
Definition alive (w0 : W) (s : W * option value) (σ : option (string * cfDNSRecord)) : Prop :=
  let st := read_dns_state s.2 in
  holds w0 s.1 σ ∧
  match σ with
  | Some (id, _) => ds_RecordID st = id ∧ id ≠ "" ∧ ds_ZoneID st = zone
  | None => s.2 = None ∨ ds_RecordID st ≠ "" ∧ ds_ZoneID st = zone ∧ records w0 zone !! ds_RecordID st = None
  end.

Lemma zoned_trans w0 w w' r r' : zoned w0 w zone r → zoned w w' zone r' → zoned w0 w' zone r'.
Proof. intros H1 H2 z. rewrite H2. case_decide; [done|]. rewrite H1. by rewrite decide_False. Qed.
Lemma zoned_self w0 w r : zoned w0 w zone r → records w zone = r.
Proof. intros Hz. by rewrite Hz, decide_True. Qed.
(** What a method that addresses the record by its state meets. *)
Lemma alive_lookup w0 w state σ :
  alive w0 (w, state) σ → let st := read_dns_state state in
  σ = None ∧ state = None ∨
  ds_RecordID st ≠ "" ∧ ds_ZoneID st = zone ∧ records w zone !! ds_RecordID st = snd <$> σ ∧ records w0 zone !! ds_RecordID st = None ∧
    match σ with Some (id, _) => ds_RecordID st = id | None => True end.
Proof.
  intros [Hh Hs]. cbn [fst snd] in *. cbn zeta. destruct σ as [[id rec]|]; cbn [holds] in Hh.
  - right. destruct Hh as [Hn Hz], Hs as (-> & Hne & Hzn). split_and!; [done..| |done|done].
    by rewrite (zoned_self _ _ _ Hz), lookup_insert_eq.
  - destruct Hs as [->|(Hne & Hzn & Hn)]; [by left|]. right. rewrite (zoned_self _ _ _ Hh). by split_and!.
Qed.
Lemma alive_apply w0 w state σ m rec :
  asks_for m rec → alive w0 (w, state) σ →
  let s' := life_step (DApply m) (w, state) in ∃ σ', life_spec w (DApply m) σ s'.1 σ' ∧ alive w0 s'.2 σ'.
Proof.
  intros Hm Ha. cbn zeta. pose proof Ha as [Hh _]. cbn [fst snd] in Hh.
  assert (record_of m = Some rec) as Hrec by (unfold record_of; by rewrite (proj1 Hm)).
  assert (∀ (e : cf_error), apply_run m state w = (Err e, w) → takes w zone (fst <$> σ) rec = false →
    ∃ σ', life_spec w (DApply m) σ (life_step (DApply m) (w, state)).1 σ' ∧ alive w0 (life_step (DApply m) (w, state)).2 σ') as Hrefused.
  { intros e He Ht. cbn [life_step]. rewrite He. cbn [is_ok fst snd]. exists σ. split; [|exact Ha]. exists rec. by rewrite Ht. }
  assert (ds_RecordID (read_dns_state state) = "" ∨ records w zone !! ds_RecordID (read_dns_state state) = None → σ = None →
    ∃ σ', life_spec w (DApply m) σ (life_step (DApply m) (w, state)).1 σ' ∧ alive w0 (life_step (DApply m) (w, state)).2 σ') as Hnew.
  { intros Hor ->. pose proof (apply_creates m rec state _ w Hm eq_refl Hor) as Hc. destruct (takes w zone None rec) eqn:Ht.
    - destruct Hc as (id & r & w' & Hr & Hs & Hne & Hf & Hw). cbn [life_step]. rewrite Hr. cbn [is_ok fst snd]. exists (Some (id, rec)).
      split; [exists rec; cbn; rewrite Ht; (split; [done|]); (split; [done|]); by exists id|]. unfold alive. cbn [fst snd holds] in *. rewrite Hs.
      change (read_dns_state (state_of zone id)) with (MkDnsState id zone). rewrite <-(zoned_self _ _ _ Hh). split_and!; try done.
      by eapply zoned_trans.
    - destruct Hc as [e He]. by eapply Hrefused. }
  destruct (alive_lookup _ _ _ _ Ha) as [[-> ->]|(Hne & Hz & Hl & Hn & Hid)]; [apply Hnew; [by left|done]|].
  destruct σ as [[id old]|]; [|apply Hnew; [by right|done]]. cbn [fmap option_fmap option_map fst snd] in *. subst id.
  pose proof (apply_updates m rec state _ w Hm eq_refl Hne) as Hu. rewrite Hl in Hu. specialize (Hu ltac:(by eexists)).
  set (id := ds_RecordID (read_dns_state state)) in *. destruct (takes w zone (Some id) rec) eqn:Ht.
  - destruct Hu as (r & w' & Hr & Hs & Hw). cbn [life_step]. rewrite Hr. cbn [is_ok fst snd]. exists (Some (id, rec)).
    split; [exists rec; cbn; rewrite Ht; (split; [done|]); (split; [done|]); by exists id|]. unfold alive. cbn [fst snd holds] in *. rewrite Hs.
    change (read_dns_state (state_of zone id)) with (MkDnsState id zone). destruct Hh as [_ Hh]. split_and!; try done.
    rewrite (zoned_self _ _ _ Hh), insert_insert_eq in Hw. by eapply zoned_trans.
  - destruct Hu as [e He]. by eapply Hrefused.
Qed.
Lemma alive_gone w0 w w' state σ :
  alive w0 (w, state) σ → records w0 zone !! ds_RecordID (read_dns_state state) = None →
  match σ with Some (id, _) => ds_RecordID (read_dns_state state) = id | None => True end →
  zoned w w' zone (delete (ds_RecordID (read_dns_state state)) (records w zone)) → zoned w0 w' zone (records w0 zone).
Proof.
  intros [Hh _] Hn Hid Hw'. cbn [fst snd] in *. destruct σ as [[id rec]|]; cbn [holds] in Hh.
  - destruct Hh as [_ Hh]. rewrite (zoned_self _ _ _ Hh), Hid, delete_insert_eq, delete_id in Hw' by by rewrite <-Hid. by eapply zoned_trans.
  - rewrite (zoned_self _ _ _ Hh), delete_id in Hw' by done. by eapply zoned_trans.
Qed.
Lemma alive_get w0 w state σ name :
  alive w0 (w, state) σ →
  (life_step (DGet name) (w, state)).1 = bool_decide (is_Some σ) ∧ alive w0 (life_step (DGet name) (w, state)).2 σ.
Proof.
  intros Ha. destruct (alive_lookup _ _ _ _ Ha) as [[-> ->]|(Hs & Hz & Hl & Hn & Hid)]; cbn [life_step]; unfold get_run, getDNSRecord; cbn zeta.
  - rewrite decide_True by by left. by split.
  - rewrite decide_False by (intros [?|?]; congruence). rewrite Hz, run_bind. unfold missing_as. rewrite run_wrap, run_do. cbn zeta.
    destruct (shows_record zone (ds_RecordID (read_dns_state state)) w Hok) as [Hw Hg]. rewrite Hw, Hl in *.
    destruct σ as [[id rec]|]; [|by rewrite Hg]. destruct Hg as (out & Hg & Hod). rewrite Hg. cbn [then_run run map_err]. split; [done|].
    cbn [gr_State]. rewrite Hod. destruct Ha as [Hh Ha]. split; [exact Hh|]. cbn [snd].
    change (read_dns_state (Some (enc_dns_state ?s))) with s. cbn [ds_RecordID ds_ZoneID]. by rewrite Hid in *.
Qed.
Lemma alive_delete w0 w state σ :
  alive w0 (w, state) σ → (life_step DDelete (w, state)).1 = true ∧ alive w0 (life_step DDelete (w, state)).2 None.
Proof.
  intros Ha. destruct (alive_lookup _ _ _ _ Ha) as [[-> ->]|(Hs & Hz & Hl & Hn & Hid)]; cbn [life_step]; unfold delete_run, deleteDNSRecord; cbn zeta.
  - rewrite decide_True by by left. split; [done|]. split; [apply Ha|by left].
  - rewrite decide_False by (intros [?|?]; congruence). rewrite Hz, run_or_else, run_do. cbn zeta.
    pose proof (removes zone (ds_RecordID (read_dns_state state)) w Hok) as Hr. cbn zeta in Hr. rewrite Hl in Hr. destruct σ as [[id rec]|]; cbn [fmap option_fmap option_map snd] in Hr.
    + destruct Hr as [Hr Hw]. rewrite Hr. split; [done|]. split; [|by left]. by eapply alive_gone.
    + destruct Hr as [Hr ->]. rewrite Hr. split; [done|]. split; [apply Ha|by left].
Qed.
Lemma alive_step w0 w state σ op :
  dns_op_ok op → alive w0 (w, state) σ →
  ∃ σ', life_spec w op σ (life_step op (w, state)).1 σ' ∧ alive w0 (life_step op (w, state)).2 σ'.
Proof.
  intros Hop Ha. destruct op as [m|name| |].
  - destruct Hop as [rec Hm]. by eapply alive_apply.
  - destruct (alive_get w0 w state σ name Ha) as [H1 H2]. by exists σ.
  - destruct (alive_delete w0 w state σ Ha) as [H1 H2]. by exists None.
  - exists None. split; [done|]. cbn [life_step snd]. cbn zeta. destruct (alive_lookup _ _ _ _ Ha) as [[-> ->]|(Hs & Hz & Hl & Hn & Hid)].
    + rewrite decide_True by done. exact Ha.
    + rewrite decide_False by done. pose proof (removes zone (ds_RecordID (read_dns_state state)) w Hok) as Hr. cbn zeta in Hr. rewrite Hl in Hr.
      split; [|right; by split_and!]. cbn [fst holds]. destruct σ as [[id rec]|]; cbn [fmap option_fmap option_map snd] in Hr; [destruct Hr as [_ Hr]; by eapply alive_gone|].
      destruct Hr as [_ ->]. apply Ha.
Qed.

(** C35: a DNSRecord is one record. Against an API that answers, keeps records, and may refuse
    those it does not take, whatever the order of applies, reads and deletions, and of
    deletions by somebody else, of manifests of one zone, starting without a state: at every moment
    there is at most one record of the resource, and no other record of any zone has changed.
    An apply succeeds exactly when the API takes the record it asks for; then that is the
    record, updated in place under the identifier it has when there is one, and created
    under a new identifier when there is none (never made, deleted, or deleted by somebody else); an
    apply that is refused changes nothing. A read succeeds exactly when the record is there, and a
    deletion always. *)
Theorem record_lifecycle ops w0 :
  Forall dns_op_ok ops → lives w0 ops (w0, None) None (lived ops (w0, None)).
Proof.
  intros Hops. assert (alive w0 (w0, None) None) as Ha by (split; [intros z; by case_decide; subst|by left]).
  revert Ha. generalize (w0, None : option value) as s, (None : option (string * cfDNSRecord)) as σ.
  induction Hops as [|o ops Ho Hops IH]; intros [w state] σ Ha; (split; [apply Ha|]); [done|]. cbn [lived].
  destruct (alive_step w0 w state σ o Ho Ha) as (σ' & H1 & H2). destruct (life_step o (w, state)) as [x s1] eqn:E. cbn [fst snd] in *.
  exists σ'. split; [done|]. exact (IH _ _ H2).
Qed.
End records.

(** ** Moving a record to another zone *)

Section moving.
Context {W : Type} (JsonDoc : string → option value) (quote : string → string) (serve : request → W → answer * W).
Context (p : plugin) `{Hlaws : RecordStoreLaws W JsonDoc serve (client p)}.

(** a DNSRecord whose zone is changed leaves its record behind: the update is sent to
    the new zone, where the identifier is not found, so a record is created there and the
    state forgets the old one; the first record is still in its zone after the resource
    was deleted, although every step reports success. *)
Theorem zone_change_leaks m1 m2 rec1 rec2 z1 z2 w0 :
  zone_ok z1 → zone_ok z2 → asks_for p z1 m1 rec1 → asks_for p z2 m2 rec2 → z1 ≠ "" → z2 ≠ "" → z1 ≠ z2 →
  takes w0 z1 None rec1 = true → (∀ w, records w z2 = records w0 z2 → takes w z2 None rec2 = true) →
  ∃ r1 w1 r2 w2 w3, apply_run JsonDoc quote serve p m1 None w0 = (Ok r1, w1) ∧
    apply_run JsonDoc quote serve p m2 (ar_State r1) w1 = (Ok r2, w2) ∧ delete_run JsonDoc serve p (ar_State r2) w2 = (Ok tt, w3) ∧
    ∃ id, records w0 z1 !! id = None ∧ records w3 z1 = <[id := rec1]> (records w0 z1) ∧ records w3 z2 = records w0 z2.
Proof.
  intros Ho1 Ho2 H1 H2 Hz1 Hz2 Hne Ht1 Ht2.
  pose proof (apply_creates JsonDoc quote serve p z1 Hz1 Ho1 m1 rec1 None "" w0 H1 eq_refl ltac:(by left)) as Hc1. rewrite Ht1 in Hc1.
  destruct Hc1 as (id1 & r1 & w1 & Hr1 & Hs1 & Hi1 & Hf1 & Hw1).
  exists r1, w1. assert (records w1 z2 !! id1 = None) as Hn by (rewrite Hw1, decide_False by done; apply Hf1).
  pose proof (apply_creates JsonDoc quote serve p z2 Hz2 Ho2 m2 rec2 (ar_State r1) id1 w1 H2 ltac:(by rewrite Hs1) ltac:(by right)) as Hc2.
  rewrite Ht2 in Hc2 by (by rewrite Hw1, decide_False). destruct Hc2 as (id2 & r2 & w2 & Hr2 & Hs2 & Hi2 & Hf2 & Hw2).
  exists r2, w2. assert (records w2 z2 = <[id2 := rec2]> (records w1 z2)) as H2z by (by rewrite Hw2, decide_True).
  pose proof (removes z2 id2 w2 Ho2) as Hd. cbn zeta in Hd. rewrite H2z, lookup_insert_eq in Hd. destruct Hd as [Hd Hw3].
  eexists. split; [done|]. split; [done|]. split.
  { unfold delete_run, deleteDNSRecord. cbn zeta. rewrite Hs2. change (read_dns_state (state_of z2 id2)) with (MkDnsState id2 z2). cbn [ds_RecordID ds_ZoneID].
    rewrite decide_False by tauto. rewrite run_or_else, run_do. cbn zeta. rewrite Hd. done. }
  exists id1. split; [apply Hf1|]. rewrite !Hw3. rewrite decide_False, decide_True by done. rewrite delete_insert_eq, delete_id by apply Hf2.
  rewrite Hw2, decide_False by done. rewrite !Hw1. rewrite decide_True, decide_False by done. done.
Qed.
End moving.

(** ** Deleting what is gone *)

Section gone.
Context {W : Type} (JsonDoc : string → option value) (serve : request → W → answer * W) (p : plugin).
Hypothesis Hgone : ∀ q w, ∃ data, (serve q w).1 = Some (404%Z, data).

Lemma run_do_gone {A} method path query body (d : decoder A) zero w :
  (run serve (do JsonDoc (client p) method path query body d zero) w).1.1 = Err NotFoundAt.
Proof. rewrite run_do. cbn zeta. simpl. destruct (Hgone (MkRequest (client p) method path query body) w) as [data ->]. done. Qed.

(** deleting what is already gone succeeds for a DNSRecord and for a Tunnel, but not
    for a TunnelRoute: where everything is answered with not found, as for a tunnel that
    was deleted first, its configuration counts as empty and is then written, and the
    deletion of the route fails every time. *)
Theorem deletions_of_the_gone state w :
  (run serve (deleteDNSRecord JsonDoc p state) w).1.1 = Ok tt ∧
  (run serve (deleteTunnel JsonDoc p state) w).1.1 = Ok tt ∧
  (¬ no_route_state (read_route_state state) → (run serve (deleteTunnelRoute JsonDoc p state) w).1.1 = Err NotFoundAt).
Proof.
  assert (∀ path (w : W), (run serve (or_else (do JsonDoc (client p) "DELETE" path [] None dec_ignored tt) (Ret tt)) w).1.1 = Ok tt) as Hdel.
  { intros path w'. rewrite run_or_else. pose proof (run_do_gone "DELETE" path [] None dec_ignored tt w') as Hd.
    destruct (run serve (do _ _ _ _ _ _ _ _) w') as [[x t] w1]. simpl in Hd. by subst x. }
  split_and!.
  - unfold deleteDNSRecord. cbn zeta. case_decide; [done|]. apply Hdel.
  - unfold deleteTunnel. cbn zeta. case_decide; [done|]. rewrite run_bind, run_try.
    destruct (run serve (do _ _ _ _ _ _ _ _) w) as [[x t] w1]. cbn [then_run].
    specialize (Hdel (tunnel (ts_AccountID (read_tunnel_state state)) (ts_TunnelID (read_tunnel_state state))) w1).
    destruct (run serve (or_else _ _) w1) as [[y t'] w2]. simpl in *. done.
  - intros Hst. unfold deleteTunnelRoute. cbn zeta. rewrite decide_False by done. rewrite run_bind, run_try. unfold readTunnelIngress. rewrite run_or_else.
    pose proof (run_do_gone "GET" (configurations (rs_AccountID (read_route_state state)) (rs_TunnelID (read_route_state state))) [] None dec_ingress [] w) as Hg.
    destruct (run serve (do _ _ _ _ _ _ _ _) w) as [[x t] w1]. simpl in Hg. subst x. cbn [run then_run].
    unfold writeTunnelIngress. match goal with |- context [run serve (do ?a ?b ?c ?d ?e ?f ?g ?h) w1] => pose proof (run_do_gone c d e f g h w1) as Hp end.
    destruct (run serve (do _ _ _ _ _ _ _ _) w1) as [[x t'] w2]. simpl in *. done.
Qed.
End gone.

(** ** Specs and what is observed *)

Section drift.
Context (float_v : spec_float → string) (p : plugin).

(** A number that a float64 holds. *)
Definition exact (z : Z) : Prop := Z_of_f64 (f64_of_Z z) = z ∧ f64_eqb (f64_of_Z z) (f64_of_Z z) = true.
(** What the schema of a DNSRecord allows, as JSON reads it. *)
Definition field_ok (f : string * value) : Prop :=
  match f.2 with
  | VStr s => f.1 = "type" ∨ f.1 = "name" ∨ f.1 = "content" ∨ f.1 = "comment" ∨ f.1 = "zoneId" ∧ s ≠ ""
  | VBool _ => f.1 = "proxied"
  | VFloat x => ∃ z, x = f64_of_Z z ∧ exact z ∧ (f.1 = "priority" ∨ f.1 = "ttl" ∧ z ≠ 0%Z)
  | _ => False
  end.

Lemma assoc_read_back k m : assoc k (json_read_map m) = json_read <$> assoc k m.
Proof. induction m as [|[k' v] m IH]; [done|]. simpl. by case_decide. Qed.
Lemma specsEqual_in spec obs :
  specsEqual float_v (Some spec) (Some obs) = true ↔ ∀ k v, (k, v) ∈ spec → compareNode float_v v (get_any k obs) = true.
Proof.
  unfold specsEqual, compareNode. simpl. rewrite forallb_forall. split.
  - intros Hf k v Hin. apply (Hf (k, v)). by apply list_elem_of_In.
  - intros Hf [k v] Hin. apply Hf. by apply list_elem_of_In.
Qed.

(** A field of the observed spec. *)
Lemma observed_str spec rec zone k s :
  dnsRecordFromSpec p spec = Ok (rec, zone) → assoc k spec = Some (VStr s) →
  k = "type" ∨ k = "name" ∨ k = "content" ∨ k = "zoneId" ∧ s ≠ "" → assoc k (dns_spec rec zone) = Some (VStr s).
Proof.
  unfold dnsRecordFromSpec. intros Hr Hk Hor. case_decide; [done|]. simplify_eq. unfold dns_spec.
  destruct Hor as [->|[->|[->|[-> Hs]]]]; simpl; unfold specString; rewrite Hk; try done. by rewrite decide_False.
Qed.
Lemma observed_ttl spec rec zone x :
  dnsRecordFromSpec p spec = Ok (rec, zone) → assoc "ttl" spec = Some (VFloat x) → Z_of_f64 x ≠ 0%Z →
  assoc "ttl" (dns_spec rec zone) = Some (VInt (Z_of_f64 x)).
Proof.
  unfold dnsRecordFromSpec. intros Hr Hk Hne. case_decide; [done|]. simplify_eq. unfold dns_spec, omit_int. simpl.
  assert (specInt spec "ttl" = Some (Z_of_f64 x)) as -> by (unfold specInt; by rewrite Hk). simpl. by rewrite decide_False.
Qed.
Lemma observed_flags spec rec zone :
  dnsRecordFromSpec p spec = Ok (rec, zone) →
  (∀ b, assoc "proxied" spec = Some (VBool b) → assoc "proxied" (dns_spec rec zone) = Some (VBool b)) ∧
  (∀ x, assoc "priority" spec = Some (VFloat x) → assoc "priority" (dns_spec rec zone) = Some (VInt (Z_of_f64 x))).
Proof.
  unfold dnsRecordFromSpec. intros Hr. case_decide; [done|]. simplify_eq. unfold dns_spec, omit_int. split.
  - intros b Hb. simpl. assert (specBool spec "proxied" = Some b) as -> by (unfold specBool; by rewrite Hb). by case_decide.
  - intros x Hx. simpl. assert (specInt spec "priority" = Some (Z_of_f64 x)) as -> by (unfold specInt; by rewrite Hx).
    case_decide; simpl; by destruct (specBool spec "proxied").
Qed.
Lemma observed_no_comment rec zone : assoc "comment" (dns_spec rec zone) = None.
Proof. unfold dns_spec, omit_int, omit_ptr. simpl. case_decide; destruct (dn_Proxied rec), (dn_Priority rec); done. Qed.
Lemma scalarEqual_str s : scalarEqual float_v (VStr s) (VStr s) = true.
Proof. unfold scalarEqual. simpl. by rewrite bool_decide_eq_true_2. Qed.
Lemma scalarEqual_exact z : exact z → scalarEqual float_v (VFloat (f64_of_Z z)) (VFloat (f64_of_Z z)) = true.
Proof. intros [_ He]. exact He. Qed.

(** the observed spec of a DNSRecord has no comment. A record that the API keeps as it
    was asked for agrees with its manifest, in every field that the schema has, exactly
    when the manifest has no comment (a text that prints as nil apart); with one, the
    resource counts as drifted after every apply. *)
Theorem dns_drift_iff spec rec zone :
  NoDup spec.*1 → Forall field_ok spec → dnsRecordFromSpec p spec = Ok (rec, zone) →
  specsEqual float_v (Some spec) (Some (json_read_map (dns_spec rec zone))) = true ↔
    assoc "comment" spec = None ∨ assoc "comment" spec = Some (VStr "<nil>").
Proof.
  intros Hn Hf Hr. rewrite specsEqual_in. split.
  - intros Hall. destruct (assoc "comment" spec) as [v|] eqn:Hc; [right|by left]. apply assoc_elem in Hc. specialize (Hall _ _ Hc).
    unfold get_any in Hall. rewrite assoc_read_back, observed_no_comment in Hall. eapply Forall_forall in Hf; [|exact Hc].
    unfold field_ok in Hf; destruct v as [|b| |x|s| |]; cbn [fst snd] in Hf; try done; [destruct Hf as (z & _ & _ & [?|[? _]]); done|].
    revert Hall. unfold compareNode, scalarEqual. simpl. rewrite bool_decide_eq_true. by intros ->.
  - intros Hc k v Hin. pose proof (elem_assoc _ _ _ Hn Hin) as Hk. eapply Forall_forall in Hf; [|exact Hin]. unfold get_any. rewrite assoc_read_back.
    destruct (observed_flags _ _ _ Hr) as [Hb Hp]. unfold compareNode. unfold field_ok in Hf; destruct v as [|b| |x|s| |]; cbn [fst snd] in Hf; try done.
    + subst k. rewrite (Hb _ Hk). by destruct b.
    + destruct Hf as (z & -> & Hz & Hor). pose proof Hz as [HZ _]. destruct Hor as [->|[-> Hne]].
      * rewrite (Hp _ Hk), HZ. by apply scalarEqual_exact.
      * rewrite (observed_ttl _ _ _ _ Hr Hk), HZ by (by rewrite HZ). by apply scalarEqual_exact.
    + destruct (decide (k = "comment")) as [->|Hne].
      * rewrite observed_no_comment. destruct Hc as [?|Hc]; [congruence|]. by simplify_eq.
      * rewrite (observed_str _ _ _ _ _ Hr Hk) by naive_solver. apply scalarEqual_str.
Qed.

(** A Tunnel with an ingress, and a TunnelRoute, never agree with what is observed. *)
Lemma tunnel_drifts spec l name t acct :
  assoc "ingress" spec = Some (VList l) → specsEqual float_v (Some spec) (r_spec (tunnelObserved name t acct)) = false.
Proof.
  intros Hi. apply not_true_iff_false. intros He. apply assoc_elem in Hi. pose proof (proj1 (specsEqual_in _ _) He _ _ Hi) as Hx. done.
Qed.
Lemma route_drifts spec h :
  assoc "hostname" spec = Some (VStr h) → h ≠ "<nil>" → specsEqual float_v (Some spec) None = false.
Proof.
  intros Hi Hh. apply not_true_iff_false. intros He. apply assoc_elem in Hi. pose proof (proj1 (specsEqual_in _ []) He _ _ Hi) as Hx.
  revert Hx. unfold compareNode, scalarEqual, get_any. simpl. by rewrite bool_decide_eq_true.
Qed.
End drift.

(** ** Two zones *)

Fixpoint drop_bytes (n : nat) (s : string) : string :=
  match n, s with S n, String _ s => drop_bytes n s | _, _ => s end.
Definition ex_in (zone path : string) : option string :=
  let prefix := zone_record zone "" in if String.prefix prefix path then Some (drop_bytes (String.length prefix) path) else None.
Definition ex_target (path : string) : option (string * string) :=
  match ex_in "z1" path with Some i => Some ("z1", i) | None => match ex_in "z2" path with Some i => Some ("z2", i) | None => None end end.
Abbreviation zones := (gmap string (gmap string cfDNSRecord)).
Definition ex_records (w : zones) (z : string) : gmap string cfDNSRecord := if decide (z = "z1" ∨ z = "z2") then w !!! z else ∅.
Definition ex_fresh (w : zones) : string := fresh ({[""]} ∪ dom (ex_records w "z1") ∪ dom (ex_records w "z2") : gset string).
Definition ex_sent (body : option value) : cfDNSRecord := default zero_dns (body ≫= λ v, dec_dns v zero_dns).
Definition ex_created (id : string) : answer := ex_answer (VMap [("id", VStr id)]).
(** It takes no record without a content, and none that is identical to another. *)
#[local] Instance cfDNSRecord_eq_dec : EqDecision cfDNSRecord.
Proof. solve_decision. Defined.
Definition ex_takes (w : zones) (z : string) (o : option string) (rec : cfDNSRecord) : bool :=
  bool_decide (dn_Content rec ≠ "" ∧ map_Forall (λ i r, o = Some i ∨ r ≠ rec) (ex_records w z)).
Definition ex_create (z : string) (body : option value) (w : zones) : answer * zones :=
  if negb (ex_takes w z None (ex_sent body)) then (Some (400%Z, ""), w) else
  let id := ex_fresh w in (ex_created id, <[z := <[id := ex_sent body]> (ex_records w z)]> w).
Definition ex_dns_serve (q : request) (w : zones) : answer * zones :=
  if decide (q_path q = zone_records "z1") then ex_create "z1" (q_body q) w
  else if decide (q_path q = zone_records "z2") then ex_create "z2" (q_body q) w
  else match ex_target (q_path q) with
       | None => (Some (404%Z, ""), w)
       | Some (z, id) =>
           match ex_records w z !! id with
           | None => (Some (404%Z, ""), w)
           | Some _ =>
               if decide (q_method q = "PUT") then
                 if negb (ex_takes w z (Some id) (ex_sent (q_body q))) then (Some (400%Z, ""), w)
                 else (ex_created id, <[z := <[id := ex_sent (q_body q)]> (ex_records w z)]> w)
               else if decide (q_method q = "DELETE") then (ex_answer VNull, <[z := delete id (ex_records w z)]> w)
               else (ex_created id, w)
           end
       end.
#[local] Instance ex_dns_store : RecordStore zones := {| zone_ok z := z = "z1" ∨ z = "z2"; records := ex_records; takes := ex_takes |}.

Lemma ex_target_record z i : zone_ok z → ex_target (zone_record z i) = Some (z, i).
Proof. intros [->| ->]; unfold ex_target, ex_in; simpl; by destruct i. Qed.
Lemma ex_path_record z i : zone_ok z → zone_record z i ≠ zone_records "z1" ∧ zone_record z i ≠ zone_records "z2".
Proof. by intros [->| ->]. Qed.
Lemma ex_zoned w z r : zone_ok z → zoned w (<[z := r]> w) z r.
Proof.
  intros Hz z'. simpl in *. unfold ex_records. destruct (decide (z' = z)) as [->|Hn]; [by rewrite decide_True, lookup_total_insert_eq|].
  by rewrite lookup_total_insert_ne.
Qed.
Lemma ex_fresh_ok w : ex_fresh w ≠ "" ∧ ∀ z, ex_records w z !! ex_fresh w = None.
Proof.
  unfold ex_fresh. pose proof (is_fresh ({[""]} ∪ dom (ex_records w "z1") ∪ dom (ex_records w "z2") : gset string)) as Hf.
  apply not_elem_of_union in Hf as [[H0 H1]%not_elem_of_union H2]. split; [by intros He; rewrite He in H0; set_solver|].
  intros z. unfold ex_records at 3. destruct (decide (z = "z1" ∨ z = "z2")) as [[->| ->]|Hz]; [by apply not_elem_of_dom..|apply lookup_empty].
Qed.
Lemma ex_dns_step z i q w :
  zone_ok z → q_path q = zone_record z i →
  ex_dns_serve q w = match ex_records w z !! i with
    | None => (Some (404%Z, ""), w)
    | Some _ =>
        if decide (q_method q = "PUT") then
          if negb (ex_takes w z (Some i) (ex_sent (q_body q))) then (Some (400%Z, ""), w)
          else (ex_created i, <[z := <[i := ex_sent (q_body q)]> (ex_records w z)]> w)
        else if decide (q_method q = "DELETE") then (ex_answer VNull, <[z := delete i (ex_records w z)]> w)
        else (ex_created i, w)
    end.
Proof.
  intros Hz Hq. unfold ex_dns_serve. rewrite Hq. destruct (ex_path_record z i Hz) as [H1 H2]. rewrite !decide_False by done.
  by rewrite (ex_target_record z i Hz).
Qed.
Lemma ex_dns_create z q w : zone_ok z → q_path q = zone_records z → ex_dns_serve q w = ex_create z (q_body q) w.
Proof. intros [->| ->] Hq; unfold ex_dns_serve; by rewrite Hq. Qed.
Lemma ex_accepted_null m path : accepted ex_json_doc m path dec_ignored tt (ex_answer VNull) = Ok tt.
Proof. unfold accepted, ex_answer, ex_json_doc. rewrite decide_False by done. by rewrite value_of_text. Qed.
Lemma ex_not_found {A} m path (d : decoder A) zero : accepted ex_json_doc m path d zero (Some (404%Z, "")) = Err NotFoundAt.
Proof. done. Qed.
Lemma ex_refused {A} m path (d : decoder A) zero : refuses (accepted ex_json_doc m path d zero (Some (400%Z, ""))).
Proof. eexists. split; [reflexivity|discriminate]. Qed.
Lemma ex_sent_ok rec : sendable rec → ex_sent (Some (enc_dns rec)) = rec.
Proof. unfold ex_sent, sendable. intros Hs. cbn [mbind option_bind]. by rewrite Hs. Qed.
#[local] Instance ex_dns_laws c : RecordStoreLaws ex_json_doc ex_dns_serve c.
Proof.
  split; intros z.
  - intros rec w Hz Hs. cbn zeta. rewrite (ex_dns_create z) by done. unfold ex_create. cbn [q_body].
    change (takes w z None rec) with (ex_takes w z None rec). rewrite ex_sent_ok by done.
    destruct (ex_takes w z None rec); cbn [negb fst snd]; [|split; [apply ex_refused|done]].
    exists (MkDns (ex_fresh w) "" "" "" 0 None None "" "" ""). split; [by apply ex_accepted|]. destruct (ex_fresh_ok w) as [H1 H2]. split; [done|]. split; [done|].
    cbn [dn_ID]. by apply ex_zoned.
  - intros i rec w Hz Hs. cbn zeta. rewrite (ex_dns_step z i) by done. cbn [q_body q_method]. change (records w z) with (ex_records w z).
    change (takes w z (Some i) rec) with (ex_takes w z (Some i) rec). rewrite ex_sent_ok by done.
    destruct (ex_records w z !! i) as [old|]; [|by rewrite ex_not_found]. rewrite decide_True by done.
    destruct (ex_takes w z (Some i) rec); cbn [negb fst snd]; [|split; [apply ex_refused|done]].
    exists (MkDns i "" "" "" 0 None None "" "" ""). split; [by apply ex_accepted|]. split; [done|]. by apply ex_zoned.
  - intros i w Hz. cbn zeta. rewrite (ex_dns_step z i) by done. cbn [q_body q_method]. change (records w z) with (ex_records w z).
    destruct (ex_records w z !! i) as [old|]; [|by rewrite ex_not_found]. rewrite !decide_False by done. cbn [fst snd]. split; [done|].
    exists (MkDns i "" "" "" 0 None None "" "" ""). split; [by apply ex_accepted|done].
  - intros i w Hz. cbn zeta. rewrite (ex_dns_step z i) by done. cbn [q_body q_method]. change (records w z) with (ex_records w z).
    destruct (ex_records w z !! i) as [old|]; [|by rewrite ex_not_found]. rewrite decide_False, decide_True by done. cbn [fst snd].
    split; [by apply ex_accepted_null|]. by apply ex_zoned.
Qed.

Definition ex_dns_plugin : plugin := MkPlugin (MkCfConfig "" "token" []) (newClient "" "token").
Definition ex_record (zone content : string) : resource :=
  Resource apiVersion kindDNSRecord (ResourceMetadata "www" "" [] [] "" "")
    (Some [("zoneId", VStr zone); ("type", VStr "A"); ("name", VStr "www.a.org"); ("content", VStr content); ("ttl", VFloat (f64_of_Z 300))]) None.
Definition ex_asked (content : string) : cfDNSRecord := MkDns "" "A" "www.a.org" content 300 None None "" "" "".
Lemma ex_asks zone content : zone ≠ "" → asks_for ex_dns_plugin zone (ex_record zone content) (ex_asked content).
Proof. intros Hz. unfold asks_for, dnsRecordFromSpec, ex_record. simpl. rewrite decide_False by done. by split. Qed.

(** The last apply asks for what is there already under another identifier. *)
Definition ex_life : list dns_op :=
  [DGet "www"; DApply (ex_record "z1" "1.1.1.1"); DApply (ex_record "z1" "2.2.2.2"); DGet "www"; DGone; DGet "www";
   DApply (ex_record "z1" "9.9.9.9"); DApply (ex_record "z1" "3.3.3.3"); DDelete; DDelete; DApply (ex_record "z1" "9.9.9.9")].
Definition ex_others : zones := {[ "z1" := {[ "other" := ex_asked "9.9.9.9" ]} ]}.
Lemma record_lifecycle_witness :
  lived ex_json_doc (λ s, s) ex_dns_serve ex_dns_plugin "z1" ex_life (ex_others, None) =
    [false; true; true; true; true; false; false; true; true; true; false] ∧
  lives ex_json_doc (λ s, s) ex_dns_serve ex_dns_plugin "z1" ex_others ex_life (ex_others, None) None
    [false; true; true; true; true; false; false; true; true; true; false].
Proof.
  assert (lived ex_json_doc (λ s, s) ex_dns_serve ex_dns_plugin "z1" ex_life (ex_others, None) =
    [false; true; true; true; true; false; false; true; true; true; false]) as Hl by (vm_compute; reflexivity).
  split; [exact Hl|]. rewrite <-Hl.
  apply (record_lifecycle ex_json_doc (λ s, s) ex_dns_serve ex_dns_plugin "z1" ltac:(done) ltac:(by left) ex_life ex_others).
  repeat (apply Forall_cons; split); try exact I; [..|apply Forall_nil_2]; eexists; by apply ex_asks.
Defined.
Lemma zone_change_leaks_witness :
  ∃ r1 w1 r2 w2 w3 i, apply_run ex_json_doc (λ s, s) ex_dns_serve ex_dns_plugin (ex_record "z1" "1.1.1.1") None ∅ = (Ok r1, w1) ∧
    apply_run ex_json_doc (λ s, s) ex_dns_serve ex_dns_plugin (ex_record "z2" "1.1.1.1") (ar_State r1) w1 = (Ok r2, w2) ∧
    delete_run ex_json_doc ex_dns_serve ex_dns_plugin (ar_State r2) w2 = (Ok tt, w3) ∧
    ex_records w3 "z1" = {[i := ex_asked "1.1.1.1"]} ∧ ex_records w3 "z2" = ∅.
Proof.
  destruct (zone_change_leaks ex_json_doc (λ s, s) ex_dns_serve ex_dns_plugin (ex_record "z1" "1.1.1.1") (ex_record "z2" "1.1.1.1")
    (ex_asked "1.1.1.1") (ex_asked "1.1.1.1") "z1" "z2" ∅) as (r1 & w1 & r2 & w2 & w3 & H1 & H2 & H3 & i & _ & H4 & H5);
    [by left|by right|by apply ex_asks|by apply ex_asks|done|done|done|by vm_compute|
     intros w Hw; unfold takes, ex_dns_store, ex_takes; change (ex_records w "z2" = ∅) in Hw; rewrite Hw; by vm_compute|].
  exists r1, w1, r2, w2, w3, i. exact (conj H1 (conj H2 (conj H3 (conj H4 H5)))).
Defined.
Lemma deletions_of_the_gone_witness :
  (run (λ _ w, (Some (404%Z, ""), w)) (deleteDNSRecord ex_json_doc ex_dns_plugin (state_of "z1" "r")) tt).1.1 = Ok tt ∧
  (run (λ _ w, (Some (404%Z, ""), w)) (deleteTunnelRoute ex_json_doc ex_dns_plugin (Some (enc_route_state (MkRouteState "acct" "t1" "edge" "a.org")))) tt).1.1 =
    Err NotFoundAt.
Proof.
  pose proof (deletions_of_the_gone ex_json_doc (λ _ (w : unit), (Some (404%Z, ""), w)) ex_dns_plugin (λ q w, ex_intro _ "" eq_refl)) as Hg.
  split; [exact (proj1 (Hg _ tt))|]. refine (proj2 (proj2 (Hg _ tt)) _). by intros [|[|]].
Defined.
Definition ex_plain : gomap := fields (r_spec (ex_record "z1" "1.1.1.1")).
Definition ex_commented : gomap := ex_plain ++ [("comment", VStr "mine")].
Lemma ex_fields_ok : Forall field_ok ex_commented.
Proof.
  unfold ex_commented, ex_plain. simpl. repeat (apply Forall_cons; split); [..|apply Forall_nil_2]; unfold field_ok; cbn [fst snd]; try (by naive_solver).
  exists 300%Z. split; [reflexivity|]. split; [by split; vm_compute|]. by right.
Qed.
Lemma dns_drift_iff_witness :
  specsEqual (λ _, "") (Some ex_plain) (Some (json_read_map (dns_spec (ex_asked "1.1.1.1") "z1"))) = true ∧
  specsEqual (λ _, "") (Some ex_commented)
    (Some (json_read_map (dns_spec (MkDns "" "A" "www.a.org" "1.1.1.1" 300 None None "mine" "" "") "z1"))) ≠ true.
Proof.
  pose proof ex_fields_ok as Hf. split.
  - apply Forall_app in Hf as [Hf _].
    apply (dns_drift_iff (λ _, "") ex_dns_plugin ex_plain (ex_asked "1.1.1.1") "z1"); [by apply (bool_decide_unpack _)|exact Hf|reflexivity|by left].
  - intros He.
    destruct (proj1 (dns_drift_iff (λ _, "") ex_dns_plugin ex_commented (MkDns "" "A" "www.a.org" "1.1.1.1" 300 None None "mine" "" "") "z1"
      ltac:(by apply (bool_decide_unpack _)) Hf ltac:(reflexivity)) He); discriminate.
Defined.
