(* ===== verification/Git.v ===== *)
(** The git repository of the mirror: src/internal/controller/manifests/git.go and
    githook.go, the RPCs of server/repo.go and the wiring of
    cmd/openctl-controller/main.go. A method is a program (Effects) whose requests are
    the lock, git's subcommands and the reconciliation; git itself is not modelled,
    what it promises is the class [GitLaws] of GitOps. *)
From Stdlib Require Import Ascii.
From S2P Require Import Prelude GoStrings GoPath GoValue Hash Db ManifestStore Effects Disk Wire.

(** ** Requests *)

Inductive git_req : Type :=
| QAcquire
| QRelease
| QStat (path : string)
| QMkdirAll (path : string)
| QRun (args : list string)
| QReconcile
| QLog (text : string).

(** What an operation outside the program answers: its output, [fs.ErrNotExist], or an
    error with its text and what was written to stderr. *)
Inductive ans : Type :=
| AOk (out : string)
| ANotExist
| AErr (text stderr : string).

#[export] Instance git_req_eq_dec : EqDecision git_req.
Proof. solve_decision. Defined.
#[export] Instance ans_eq_dec : EqDecision ans.
Proof. solve_decision. Defined.

Definition failed (a : ans) : Prop := match a with AOk _ => False | _ => True end.
#[export] Instance failed_dec a : Decision (failed a).
Proof. destruct a; apply _. Defined.

Inductive git_error : Type :=
| ErrDirRequired
| ErrInterval (s : string)
| ErrCanceled
| ErrStatGit
| ErrCreateDir
| ErrGit (text : string)
| ErrNothingToCommit
| ErrPathNotInCommit
| ErrReconcile.

#[export] Instance git_error_eq_dec : EqDecision git_error.
Proof. solve_decision. Defined.

Abbreviation GP := (prog git_req ans git_error).

(** ** The repository (git.go) *)

Record Repo : Type := MkRepo { r_dir : string; r_branch : string; r_remote : string; r_pushMode : string; r_pushInterval : Z }.
Record RepoOptions : Type := MkRepoOptions {
  o_Dir : string; o_Branch : string; o_Remote : string; o_PushMode : string; o_PushInterval : Z }.

Definition PushModeOnCommit : string := "onCommit".
Definition PushModePeriodic : string := "periodic".
Definition PushModeManual : string := "manual".

Definition NewRepo (opts : RepoOptions) : result git_error Repo :=
  if decide (o_Dir opts = "") then Err ErrDirRequired
  else Ok (MkRepo (o_Dir opts) (if decide (o_Branch opts = "") then "main" else o_Branch opts) (o_Remote opts)
    (if decide (o_PushMode opts = "")
     then (if decide (o_Remote opts ≠ "") then PushModeOnCommit else PushModeManual)
     else o_PushMode opts)
    (o_PushInterval opts)).

(** [chanLock] *)
Definition acquire : GP unit := a ← call QAcquire; match a with AOk _ => Ret tt | _ => Fail ErrCanceled end.
Definition release : GP unit := _ ← call QRelease; Ret tt.
(** [acquire], the rest of a method, and its [defer release()]. *)
Definition locked {A} (p : GP A) : GP A := _ ← acquire; x ← try p; _ ← release; lift x.

(** The text of the error of [run]. *)
Definition git_failure (args : list string) (text stderr : string) : string :=
  "git " +:+ join " " args +:+ ": " +:+ text +:+ " (stderr: " +:+ trim_space stderr +:+ ")".

(** [run] *)
Definition git_answer (args : list string) (a : ans) : result git_error string :=
  match a with
  | AOk out => Ok out
  | ANotExist => Err (ErrGit (git_failure args "file does not exist" ""))
  | AErr text stderr => Err (ErrGit (git_failure args text stderr))
  end.
Definition git (args : list string) : GP string := a ← call (QRun args); lift (git_answer args a).
Definition git_ (args : list string) : GP unit := _ ← git args; Ret tt.

Definition EnsureInit (r : Repo) : GP unit := locked (
  a ← call (QStat (Join [r_dir r; ".git"]));
  match a with
  | AOk _ => Ret tt
  | AErr _ _ => Fail ErrStatGit
  | ANotExist =>
      a ← call (QMkdirAll (r_dir r));
      _ ← match a with AOk _ => Ret tt | _ => Fail ErrCreateDir end;
      _ ← git_ ["init"; "-b"; r_branch r];
      _ ← git_ ["config"; "user.name"; "openctl-controller"];
      _ ← git_ ["config"; "user.email"; "openctl-controller@localhost"];
      if decide (r_remote r ≠ "") then git_ ["remote"; "add"; "origin"; r_remote r] else Ret tt
  end).

Definition CommitAll (r : Repo) (message : string) : GP unit := locked (
  _ ← git_ ["add"; "-A"];
  x ← try (git ["diff"; "--cached"; "--quiet"]);
  match x with
  | Ok _ => Fail ErrNothingToCommit
  | Err _ => git_ ["commit"; "-m"; message]
  end).

Definition Push (r : Repo) : GP unit :=
  if decide (r_remote r = "") then Ret tt else locked (git_ ["push"; "-u"; "origin"; r_branch r]).

Definition Pull (r : Repo) : GP unit :=
  if decide (r_remote r = "") then Ret tt else locked (git_ ["pull"; "--ff-only"]).

Record Status : Type := MkStatus {
  s_Branch : string; s_HeadSHA : string; s_Remote : string; s_Clean : bool; s_DirtyPaths : list string;
  s_Ahead : Z; s_Behind : Z }.

Definition newline_byte : ascii := "010"%char.
(** The lines of the porcelain. *)
Definition dirty_lines (raw : string) : list string :=
  filter (λ l, l ≠ "") (map trim_space (split_on newline_byte raw)).
(** [strconv.Atoi], the default when it fails. *)
Definition count_of (x : result git_error string) (def : Z) : Z :=
  match x with Ok out => default def (atoi (trim_space out)) | Err _ => def end.

Definition GetStatusOf (r : Repo) : GP Status := locked (
  b ← try (git ["rev-parse"; "--abbrev-ref"; "HEAD"]);
  let branch := match b with Ok out => trim_space out | Err _ => "" end in
  let branch := if decide (branch = "" ∨ branch = "HEAD") then r_branch r else branch in
  h ← try (git ["rev-parse"; "--short"; "HEAD"]);
  let sha := match h with Ok out => trim_space out | Err _ => "" end in
  p ← try (git ["status"; "--porcelain"]);
  let '(clean, dirty) :=
    match p with
    | Ok out => let raw := trim_space out in if decide (raw = "") then (true, []) else (false, dirty_lines raw)
    | Err _ => (false, [])
    end in
  if decide (r_remote r ≠ "") then
    a ← try (git ["rev-list"; "--count"; "@{u}..HEAD"]);
    d ← try (git ["rev-list"; "--count"; "HEAD..@{u}"]);
    Ret (MkStatus branch sha (r_remote r) clean dirty (count_of a (-1)) (count_of d (-1)))
  else Ret (MkStatus branch sha (r_remote r) clean dirty (-1) (-1))).

Record CommitInfo : Type := MkCommitInfo { ci_SHA : string; ci_Author : string; ci_CommittedAt : string; ci_Subject : string }.

Definition unit_sep : ascii := "031"%char.
Definition commit_of (line : string) : option CommitInfo :=
  if decide (line = "") then None
  else match split_on unit_sep line with
       | [sha; author; at_; subject] => Some (MkCommitInfo sha author at_ subject)
       | _ => None
       end.
Definition commits_of (out : string) : list CommitInfo := omap commit_of (split_on newline_byte (trim_right newline_byte out)).
Definition log_format : string := "--format=%H%x1f%an%x1f%aI%x1f%s".

Definition LogForPath (r : Repo) (relPath : string) : GP (list CommitInfo) := locked (
  h ← try (git ["rev-parse"; "--verify"; "HEAD"]);
  match h with
  | Err _ => Ret []
  | Ok _ => out ← git ["log"; log_format; "--"; relPath]; Ret (commits_of out)
  end).

Definition absent_text (msg : string) : bool :=
  contains "does not exist" msg || contains "exists on disk, but not in" msg || contains "fatal: path" msg.

Definition ShowAtCommit (r : Repo) (sha relPath : string) : GP string := locked (
  x ← try (git ["show"; sha +:+ ":" +:+ relPath]);
  match x with
  | Ok out => Ret out
  | Err (ErrGit msg) => if absent_text msg then Fail ErrPathNotInCommit else Fail (ErrGit msg)
  | Err e => Fail e
  end).

(** [head]: every error is the empty string. *)
Definition head_of (r : Repo) : GP string :=
  x ← try (locked (git ["rev-parse"; "HEAD"]));
  Ret (match x with Ok out => trim_space out | Err _ => "" end).

(** [PullAndReconcile]; [onChange] and [logf] are given. *)
Definition PullAndReconcile (r : Repo) : GP bool :=
  if decide (r_remote r = "") then Ret false
  else
    before ← head_of r;
    _ ← Pull r;
    after ← head_of r;
    if decide (after = "" ∨ after = before) then Ret false
    else
      _ ← call (QLog "git pull: HEAD advanced, reconciling");
      a ← call QReconcile;
      match a with AOk _ => Ret true | _ => Fail ErrReconcile end.

(** The goroutines of [StartPeriodicPush] and [StartPeriodicPull]: whether they are
    started, and what they do on a tick. *)
Definition periodic_push (r : Repo) : bool :=
  negb (bool_decide (r_pushMode r ≠ PushModePeriodic) || (r_pushInterval r <=? 0)%Z || bool_decide (r_remote r = "")).
Definition push_tick (r : Repo) : GP unit :=
  x ← try (Push r);
  match x with Ok _ => Ret tt | Err _ => _ ← call (QLog "git push (periodic)"); Ret tt end.
Definition periodic_pull (r : Repo) (interval : Z) : bool := negb (bool_decide (r_remote r = "") || (interval <=? 0)%Z).
Definition pull_tick (r : Repo) : GP unit :=
  x ← try (PullAndReconcile r);
  match x with Ok _ => Ret tt | Err _ => _ ← call (QLog "git pull (periodic)"); Ret tt end.

(** ** The hook of the mirror (githook.go) *)

Definition commitMessage (verb kind name source : string) : string :=
  verb +:+ " " +:+ kind +:+ "/" +:+ name +:+ " via " +:+ ToUpper source.

Definition GitHook (r : Repo) (pushAfterCommit : bool) (source kind : string) (x : resource) (verb : string) : GP unit :=
  let source := if decide (source = "") then SourceCLI else source in
  c ← try (CommitAll r (commitMessage verb kind (r_name x) source));
  match c with
  | Err ErrNothingToCommit => Ret tt
  | Err e => Fail e
  | Ok _ =>
      if pushAfterCommit then
        p ← try (Push r);
        match p with Ok _ => Ret tt | Err _ => _ ← call (QLog "git push after commit"); Ret tt end
      else Ret tt
  end.

(** ** Start-up ([buildGitRepo]) *)

Record ManifestsGit : Type := MkManifestsGit {
  mg_Enabled : bool; mg_Branch : string; mg_Remote : string; mg_PushMode : string; mg_PushInterval : string }.

Section startup.
Context (parse_duration : string → option Z).

(** The repository, and whether its hook pushes. *)
Definition buildGitRepo (root : string) (g : option ManifestsGit) : GP (option (Repo * bool)) :=
  match g with
  | None => Ret None
  | Some g =>
      if negb (mg_Enabled g) then Ret None
      else
        interval ← (if decide (mg_PushInterval g = "") then Ret 0%Z
                    else match parse_duration (mg_PushInterval g) with Some d => Ret d | None => Fail (ErrInterval (mg_PushInterval g)) end);
        r ← lift (NewRepo (MkRepoOptions root (mg_Branch g) (mg_Remote g) (mg_PushMode g) interval));
        _ ← EnsureInit r;
        Ret (Some (r, bool_decide (r_pushMode r = PushModeOnCommit)))
  end.
End startup.

(** ** The RPCs (server/repo.go) *)

Definition is_hex (c : ascii) : bool :=
  let n := nat_of_ascii c in ((48 <=? n) && (n <=? 57)) || ((97 <=? n) && (n <=? 102)) || ((65 <=? n) && (n <=? 70)).
Fixpoint all_hex (s : string) : bool := match s with EmptyString => true | String c s' => is_hex c && all_hex s' end.
(** [hexSHA.MatchString] *)
Definition hexSHA (s : string) : bool := all_hex s && (4 <=? String.length s) && (String.length s <=? 64).

Inductive repo_reason : Type :=
| TrackingDisabled
| NoRemote
| KeyRequired
| NotHex
| GitFailed (what : string) (e : git_error).

Record GetRepoStatusResponse : Type := MkRepoStatus {
  rs_Dir : string; rs_Enabled : bool; rs_Remote : string; rs_PushMode : string; rs_Branch : string; rs_HeadSha : string;
  rs_Clean : bool; rs_DirtyPaths : list string; rs_Ahead : Z; rs_Behind : Z }.

(** [repoHandler]: the root of the mirror and the repository, where there is one. *)
Record repoHandler : Type := MkRepoHandler { rh_mirror : option string; rh_repo : option Repo }.
Abbreviation RP := (prog git_req ans (code * repo_reason)).

(** [int32(n)], and -1 for what was not measured. *)
Definition int32 (n : Z) : Z := ((n + 2 ^ 31) mod 2 ^ 32 - 2 ^ 31)%Z.
Definition count32 (n : Z) : Z := if (0 <=? n)%Z then int32 n else (-1)%Z.

Definition internal {A} (what : string) (p : GP A) : RP A := wrap (λ e, (Internal, GitFailed what e)) p.

Definition GetRepoStatus (h : repoHandler) : RP GetRepoStatusResponse :=
  let dir := default "" (rh_mirror h) in
  match rh_repo h with
  | None => Ret (MkRepoStatus dir false "" "" "" "" false [] 0 0)
  | Some r =>
      st ← internal "git status" (GetStatusOf r);
      Ret (MkRepoStatus dir true (r_remote r) (r_pushMode r) (s_Branch st) (s_HeadSHA st) (s_Clean st) (s_DirtyPaths st)
        (count32 (s_Ahead st)) (count32 (s_Behind st)))
  end.

Definition with_remote (h : repoHandler) : RP Repo :=
  match rh_repo h with
  | None => Fail (FailedPrecondition, TrackingDisabled)
  | Some r => if decide (r_remote r = "") then Fail (FailedPrecondition, NoRemote) else Ret r
  end.
Definition PushRepo (h : repoHandler) : RP string :=
  r ← with_remote h; _ ← internal "git push" (Push r); Ret ("pushed to " +:+ r_remote r).
Definition PullRepo (h : repoHandler) : RP string :=
  r ← with_remote h; _ ← internal "git pull" (Pull r); Ret ("pulled from " +:+ r_remote r).

Definition GetResourceHistory (h : repoHandler) (k : rkey) : RP (list CommitInfo) :=
  match rh_repo h with
  | None => Fail (FailedPrecondition, TrackingDisabled)
  | Some r =>
      if decide (k.1.1 = "" ∨ k.1.2 = "" ∨ k.2 = "") then Fail (InvalidArgument, KeyRequired)
      else internal "git log" (LogForPath r (RelPathFor k))
  end.

(** The manifest at a commit; [None] when there was none. *)
Definition GetResourceAtCommit (h : repoHandler) (k : rkey) (sha : string) : RP (option string) :=
  match rh_repo h with
  | None => Fail (FailedPrecondition, TrackingDisabled)
  | Some r =>
      if decide (k.1.1 = "" ∨ k.1.2 = "" ∨ k.2 = "") then Fail (InvalidArgument, KeyRequired)
      else if negb (hexSHA sha) then Fail (InvalidArgument, NotHex)
      else
        x ← try (ShowAtCommit r sha (RelPathFor k));
        match x with
        | Ok data => Ret (Some data)
        | Err ErrPathNotInCommit => Ret None
        | Err e => Fail (Internal, GitFailed "git show" e)
        end
  end.
