(* ===== verification/GitOps.v ===== *)
(** The repository as a source: when a pull is reconciled, and what a fresh controller
    makes of a remote. The methods of Git run among others, whose requests come between
    theirs; git is any state that keeps [GitLaws]. *)
From Stdlib Require Import Ascii.
From S2P Require Import Prelude GoStrings GoPath GoValue Hash Db ManifestStore Effects Disk Wire Git.

Definition pull_args : list string := ["pull"; "--ff-only"].
Definition head_args : list string := ["rev-parse"; "HEAD"].

(** What the methods ask for: most of it does not touch a branch. *)
Inductive quiet : git_req → Prop :=
| quiet_acquire : quiet QAcquire
| quiet_release : quiet QRelease
| quiet_stat p : quiet (QStat p)
| quiet_mkdir p : quiet (QMkdirAll p)
| quiet_reconcile : quiet QReconcile
| quiet_log l : quiet (QLog l)
| quiet_run cmd args : cmd ∈ ["init"; "config"; "remote"; "add"; "diff"; "rev-parse"; "status"; "rev-list"; "log"; "show"] →
    quiet (QRun (cmd :: args)).
Inductive repo_request : git_req → Prop :=
| request_quiet q : quiet q → repo_request q
| request_commit m : repo_request (QRun ["commit"; "-m"; m])
| request_pull : repo_request (QRun pull_args)
| request_push b : repo_request (QRun ["push"; "-u"; "origin"; b]).

Lemma request_run cmd args : cmd ∈ ["init"; "config"; "remote"; "add"; "diff"; "rev-parse"; "status"; "rev-list"; "log"; "show"] →
  repo_request (QRun (cmd :: args)).
Proof. intros Hc. by apply request_quiet, quiet_run. Qed.
#[local] Hint Constructors quiet repo_request : core.
#[local] Hint Extern 1 (repo_request (QRun _)) => (apply request_run; repeat first [apply list_elem_of_here | apply list_elem_of_further]) : core.

Lemma asks_locked {A} (P : git_req → Prop) (p : GP A) : P QAcquire → P QRelease → asks P p → asks P (locked p).
Proof.
  intros H1 H2 Hp. apply asks_bind; [apply asks_bind; [by apply asks_call|by intros []]|intros _].
  apply asks_bind; [by apply asks_try|intros x]. apply asks_bind; [by apply asks_bind; [apply asks_call|]|intros _].
  apply asks_lift.
Qed.
Lemma asks_git (P : git_req → Prop) args : P (QRun args) → asks P (git args).
Proof. intros Ha. apply asks_bind; [by apply asks_call|intros a; apply asks_lift]. Qed.
Lemma asks_git_ (P : git_req → Prop) args : P (QRun args) → asks P (git_ args).
Proof. intros Ha. apply asks_bind; [by apply asks_git|done]. Qed.

(** Go through a method, by what it is made of. *)
Ltac repo_asks := intros; cbv zeta; repeat first
  [ match goal with
    | |- asks _ (locked _) => apply asks_locked; [auto|auto|]
    | |- asks _ (git _) => apply asks_git; auto
    | |- asks _ (git_ _) => apply asks_git_; auto
    end | asks_step | solve [auto] ].

Lemma EnsureInit_asks r : asks repo_request (EnsureInit r).
Proof. unfold EnsureInit. repo_asks. Qed.
Lemma CommitAll_asks r m : asks repo_request (CommitAll r m).
Proof. unfold CommitAll. repo_asks. Qed.
Lemma Push_asks r : asks repo_request (Push r).
Proof. unfold Push. repo_asks. Qed.
Lemma Pull_asks r : asks repo_request (Pull r).
Proof. unfold Pull. repo_asks. Qed.
Lemma PullAndReconcile_asks r : asks repo_request (PullAndReconcile r).
Proof. unfold PullAndReconcile, head_of. repo_asks; apply Pull_asks. Qed.
#[local] Hint Resolve CommitAll_asks Push_asks : core.

(** The methods, the ticks and the hook ask for nothing else. *)
Lemma methods_ask r :
  (asks repo_request (push_tick r) ∧ asks repo_request (pull_tick r)) ∧ asks repo_request (GetStatusOf r) ∧
  (∀ p, asks repo_request (LogForPath r p)) ∧ (∀ sha p, asks repo_request (ShowAtCommit r sha p)) ∧
  (∀ b src k x v, asks repo_request (GitHook r b src k x v)).
Proof.
  split_and!; unfold push_tick, pull_tick, GetStatusOf, LogForPath, ShowAtCommit, GitHook; repo_asks.
  apply PullAndReconcile_asks.
Qed.

(** ** What git promises *)

(** A commit is its id; [anc x y] when [x] is [y] or an ancestor of it. A state of the
    world has the tip of the local branch ([None]: no commit yet), the tip of the
    remote's branch, and whether the branch tracks the remote's. *)
Class GitLaws {S : Type} (serve : git_req → S → ans * S) (anc : string → string → Prop)
    (tip remote : S → option string) (tracks : S → bool) : Prop := {
  anc_order :: PartialOrder anc;
  (** Other subcommands leave the branches alone. *)
  serve_quiet q s : quiet q → tip (serve q s).2 = tip s ∧ remote (serve q s).2 = remote s ∧ tracks (serve q s).2 = tracks s;
  (** [git commit]: a new commit on top of the branch, or nothing. *)
  serve_commit m s : let s' := (serve (QRun ["commit"; "-m"; m]) s).2 in
    remote s' = remote s ∧ tracks s' = tracks s ∧
    (tip s' = tip s ∨
     ∃ c, tip s' = Some c ∧ (∀ x, anc x c ↔ x = c ∨ ∃ l, tip s = Some l ∧ anc x l) ∧
       tip s ≠ Some c ∧ ∀ r, remote s = Some r → ¬ anc c r);
  (** [git pull --ff-only]: fails when the branch tracks nothing; moves the branch
      forward to the remote's, or leaves it where it is. *)
  serve_pull s : let s' := (serve (QRun pull_args) s).2 in
    remote s' = remote s ∧ tracks s' = tracks s ∧
    (tracks s = false → failed (serve (QRun pull_args) s).1) ∧
    (failed (serve (QRun pull_args) s).1 → tip s' = tip s) ∧
    (tip s' = tip s ∨ ∃ r, remote s = Some r ∧ tip s' = Some r ∧ ∀ l, tip s = Some l → anc l r);
  (** [git push -u]: is refused when there is no branch, or when the remote's is not an
      ancestor of it; never moves the local branch. *)
  serve_push b s : let s' := (serve (QRun ["push"; "-u"; "origin"; b]) s).2 in
    tip s' = tip s ∧
    ((∃ l, tip s = Some l ∧ (∀ r, remote s = Some r → anc r l) ∧ (remote s' = remote s ∨ remote s' = tip s)) ∨
     (failed (serve (QRun ["push"; "-u"; "origin"; b]) s).1 ∧ remote s' = remote s ∧ tracks s' = tracks s));
  (** [git rev-parse HEAD] prints the tip. *)
  serve_head s out : (serve (QRun head_args) s).1 = AOk out → tip s = Some (trim_space out) ∧ trim_space out ≠ "" }.

Section world.
Context {S : Type} (serve : git_req → S → ans * S) (anc : string → string → Prop)
  (tip remote : S → option string) (tracks : S → bool) `{!GitLaws serve anc tip remote tracks}.

(** ** Methods among others *)

(** Others push to the remote and edit files; the branch is the controller's. *)
Definition outside (s s' : S) : Prop :=
  tip s' = tip s ∧ tracks s' = tracks s ∧ ∀ r, remote s = Some r → ∃ r', remote s' = Some r' ∧ anc r r'.

Inductive world_step : S → S → Prop :=
| world_request q s : repo_request q → world_step s (serve q s).2
| world_outside s s' : outside s s' → world_step s s'.

(** A turn of a program: the state it found, what it asked, the answer and the state
    it left. *)
Record turn : Type := MkTurn { t_from : S; t_req : git_req; t_ans : ans; t_to : S }.

Inductive among {A : Type} : S → GP A → list turn → result git_error A → S → Prop :=
| among_ret s a : among s (Ret a) [] (Ok a) s
| among_fail s e : among s (Fail e) [] (Err e) s
| among_call s s1 q k a s2 t x s3 :
    rtc world_step s s1 → serve q s1 = (a, s2) → among s2 (k a) t x s3 →
    among s (Call q k) (MkTurn s1 q a s2 :: t) x s3.

Lemma request_tip q s : repo_request q → tip (serve q s).2 = tip s ∨
  ∃ l', tip (serve q s).2 = Some l' ∧ ∀ l, tip s = Some l → anc l l'.
Proof.
  intros [q' Hq|m| |b].
  - left. by apply serve_quiet.
  - destruct (serve_commit m s) as (_ & _ & [Ht|(c & Ht & Hc & _)]); [by left|right]. exists c. split; [done|].
    intros l Hl. apply Hc. right. exists l. by split.
  - destruct (serve_pull s) as (_ & _ & _ & _ & [Ht|(r & _ & Ht & Hr)]); [by left|right; by exists r].
  - left. apply serve_push.
Qed.

Lemma world_tip s s' l : rtc world_step s s' → tip s = Some l → ∃ l', tip s' = Some l' ∧ anc l l'.
Proof.
  intros Hr. revert l. induction Hr as [s|s s1 s' Hs _ IH]; intros l Hl; [by exists l|].
  assert (∃ l1, tip s1 = Some l1 ∧ anc l l1) as (l1 & Hl1 & Ha).
  { destruct Hs as [q s Hq|s s1 [Ht _]]; [|exists l; by rewrite Ht].
    destruct (request_tip q s Hq) as [->|(l' & -> & Ha)]; [by exists l|exists l'; auto]. }
  destruct (IH l1 Hl1) as (l' & Hl' & Ha'). exists l'. split; [done|by etrans].
Qed.

Lemma among_world {A} s (p : GP A) t x s' : asks repo_request p → among s p t x s' → rtc world_step s s'.
Proof.
  intros Hp Ha. induction Ha as [s a|s e|s s1 q k a s2 t x s3 Hr Hq _ IH]; [done..|]. destruct Hp as [Hq' Hk].
  etrans; [done|]. apply (rtc_l _ _ s2); [|by apply IH]. change s2 with (a, s2).2. rewrite <- Hq. by constructor.
Qed.

Lemma among_before {A} s0 s (p : GP A) t x s' : rtc world_step s0 s → among s p t x s' → (∃ u t', t = u :: t') → among s0 p t x s'.
Proof. intros Hr Ha (u & t' & ->). inversion Ha; subst. econstructor; [by etrans|done..]. Qed.

Lemma among_bind {A B} s (p : GP A) (f : A → GP B) t x s' : among s (p ≫= f) t x s' →
  (∃ a t1 t2 s1, among s p t1 (Ok a) s1 ∧ among s1 (f a) t2 x s' ∧ t = t1 ++ t2) ∨
  (∃ e, among s p t (Err e) s' ∧ x = Err e).
Proof.
  revert s t. induction p as [a|e|q k IH]; intros s t H.
  - left. exists a, [], t, s. split_and!; [constructor|done..].
  - right. exists e. inversion H; subst. split; [constructor|done].
  - simpl in H. inversion H as [| |? s1 ? ? a s2 t1 ? ? Hr Hq Hk]; subst. destruct (IH a s2 t1 Hk) as [(b & u1 & u2 & s3 & Hb & Hf & ->)|(e & He & ->)].
    + left. exists b, (MkTurn s1 q a s2 :: u1), u2, s3. split_and!; [by econstructor|done|done].
    + right. exists e. split; [by econstructor|done].
Qed.

Lemma among_try {A} s (p : GP A) t x s' : among s (try p) t x s' → ∃ y, among s p t y s' ∧ x = Ok y.
Proof.
  revert s t. induction p as [a|e|q k IH]; intros s t H; simpl in H.
  - inversion H; subst. exists (Ok a). split; [constructor|done].
  - inversion H; subst. exists (Err e). split; [constructor|done].
  - inversion H as [| |? s1 ? ? a s2 t1 ? ? Hr Hq Hk]; subst. destruct (IH a s2 t1 Hk) as (y & Hy & ->). exists y. split; [by econstructor|done].
Qed.

Lemma among_call1 {A} s q (k : ans → GP A) t x s' : among s (Call q k) t x s' →
  ∃ s1 a s2 t', t = MkTurn s1 q a s2 :: t' ∧ rtc world_step s s1 ∧ serve q s1 = (a, s2) ∧ among s2 (k a) t' x s'.
Proof. intros H. inversion H; subst. eauto 10. Qed.

(** A method: the lock, a request, what is made of the answer. *)
Lemma locked_among {A} s q (k : ans → GP A) (y : ans → result git_error A) t x s' :
  (∀ a, k a = lift (y a)) → repo_request q → among s (locked (Call q k)) t x s' →
  (∃ u, t = [u] ∧ t_req u = QAcquire ∧ failed (t_ans u) ∧ rtc world_step s s' ∧ x = Err ErrCanceled) ∨
  (∃ u a s1 s2 v, t = [u; MkTurn s1 q a s2; v] ∧ t_req u = QAcquire ∧ t_req v = QRelease ∧
    serve q s1 = (a, s2) ∧ rtc world_step s s1 ∧ rtc world_step s2 s' ∧ x = y a).
Proof.
  unfold locked, acquire, release. intros Hk Hrq H. simpl in H.
  apply among_call1 in H as (s1 & a & s2 & t1 & -> & Hr1 & Hq1 & H). destruct a as [out| |tx se]; simpl in H.
  2,3: left; inversion H; subst; eexists; split_and!; [done|done|exact I| |done];
    (etrans; [exact Hr1|]; apply rtc_once; match type of Hq1 with serve ?q ?s = (?a, ?b) => change b with (a, b).2; rewrite <- Hq1 end; by repeat constructor).
  right. apply among_call1 in H as (s3 & a & s4 & t2 & -> & Hr2 & Hq2 & H).
  exists (MkTurn s1 QAcquire (AOk out) s2), a, s3, s4.
  assert (rtc world_step s s3) as Hs3.
  { etrans; [done|]. apply (rtc_l _ _ s2); [|done]. change s2 with (AOk out, s2).2. rewrite <- Hq1. by repeat constructor. }
  rewrite Hk in H. destruct (y a) as [v|e]; simpl in H; apply among_call1 in H as (s5 & b & s6 & t3 & -> & Hr3 & Hq3 & H);
    (assert (rtc world_step s4 s6) as H46;
      [etrans; [done|]; apply rtc_once; change s6 with (b, s6).2; rewrite <- Hq3; by repeat constructor|]);
    inversion H; subst; exists (MkTurn s5 QRelease b s'); split_and!; eauto.
Qed.

(** [head]: the tip that was seen, or nothing when a request failed. *)
Lemma head_among r s t v s' : among s (head_of r) t (Ok v) s' →
  Forall (λ u, t_req u ≠ QReconcile ∧ t_req u ≠ QRun pull_args) t ∧ rtc world_step s s' ∧
  if decide (v = "") then ∃ u, u ∈ t ∧ t_req u ≠ QReconcile ∧ failed (t_ans u)
  else ∃ s1, rtc world_step s s1 ∧ rtc world_step s1 s' ∧ tip s1 = Some v.
Proof.
  assert (repo_request (QRun head_args)) as Hrq by (apply request_run; repeat first [apply list_elem_of_here | apply list_elem_of_further]).
  unfold head_of. intros H. apply among_bind in H as [(y & t1 & t2 & s1 & H & Hv & ->)|(? & ? & [=])].
  inversion Hv; subst. rewrite app_nil_r. apply among_try in H as (y' & H & [= <-]).
  apply (locked_among _ _ _ (git_answer head_args)) in H; [|by intros a|done].
  destruct H as [(u & -> & Hu & Hf & Hw0 & ->)|(u & a & s1 & s2 & w & -> & Hu & Hw & Hq & H1 & H2 & ->)].
  - split; [by repeat constructor; rewrite Hu|]. split; [done|]. simpl. exists u. split; [left|]. by rewrite Hu.
  - assert (rtc world_step s1 s') as H1'.
    { apply (rtc_l _ _ s2); [|done]. change s2 with (a, s2).2. rewrite <- Hq. by constructor. }
    split; [repeat constructor; rewrite ?Hu, ?Hw; done|]. split; [by etrans|].
    destruct a as [out| |tx se]; simpl; [|(eexists; split; [right; left|split; [done|exact I]])..].
    destruct (serve_head s1 out) as [Htip Hne]; [unfold head_args; by rewrite Hq|].
    rewrite decide_False by done. by exists s1.
Qed.

(** A pull: whether it failed, and where the branch was and is. *)
Lemma pull_among r s t x s' : r_remote r ≠ "" → among s (Pull r) t x s' →
  ∃ s1 s2, rtc world_step s s1 ∧ rtc world_step s1 s2 ∧ rtc world_step s2 s' ∧
    Forall (λ u, t_req u ≠ QReconcile) t ∧
    (∀ u, u ∈ t → t_req u = QRun pull_args → u = MkTurn s1 (QRun pull_args) (serve (QRun pull_args) s1).1 s2) ∧
    match x with
    | Ok _ => tracks s1 = true
    | Err _ => (∃ u, u ∈ t ∧ failed (t_ans u)) ∧ tip s2 = tip s1
    end.
Proof.
  intros Hrem H. unfold Pull in H. rewrite decide_False in H by done.
  apply (locked_among _ _ _ (λ a, _ ← git_answer pull_args a; Ok tt)) in H; [|by intros []|apply request_pull].
  destruct H as [(u & -> & Hu & Hf & Hw0 & ->)|(u & a & s1 & s2 & w & -> & Hu & Hw & Hq & H1 & H2 & ->)].
  { exists s', s'. split_and!; [done|done|done|by repeat constructor; rewrite Hu| |exists u; split; [left|done]|done].
    intros v ->%list_elem_of_singleton Hv. congruence. }
  assert (s2 = (serve (QRun pull_args) s1).2) as -> by (unfold pull_args in *; by rewrite Hq).
  exists s1, (serve (QRun pull_args) s1).2. split_and!; [done|apply rtc_once; constructor; apply request_pull|done|..].
  - repeat constructor; simpl; congruence.
  - intros v Hv Hpq. apply elem_of_cons in Hv as [->|Hv]; [congruence|]. apply elem_of_cons in Hv as [->|Hv%list_elem_of_singleton]; [|subst v; congruence].
    f_equal. unfold pull_args in *. by rewrite Hq.
  - destruct (serve_pull s1) as (_ & _ & Htr & Hfa & _). destruct a as [out| |tx se]; simpl.
    + destruct (tracks s1); [done|]. specialize (Htr eq_refl). unfold pull_args in Htr. by rewrite Hq in Htr.
    + split; [eexists; split; [right; left|exact I]|]. apply Hfa. unfold pull_args. by rewrite Hq.
    + split; [eexists; split; [right; left|exact I]|]. apply Hfa. unfold pull_args. by rewrite Hq.
Qed.

Lemma head_total r s t e s' : ¬ among s (head_of r) t (Err e) s'.
Proof.
  unfold head_of. intros H. apply among_bind in H as [(y & t1 & t2 & s1 & _ & H & _)|(e' & H & [= <-])]; [inversion H|].
  by apply among_try in H as (y & _ & [=]).
Qed.

(** A tick, part by part. *)
Definition reconcile_turns (t : list turn) (x : result git_error bool) (s s' : S) : Prop :=
  ∃ u w, t = [u; w] ∧ t_req u ≠ QRun pull_args ∧ t_req w = QReconcile ∧ rtc world_step s (t_from w) ∧ rtc world_step (t_from w) s' ∧
    x = if decide (failed (t_ans w)) then Err ErrReconcile else Ok true.
Lemma tick_among r s t x s' : r_remote r ≠ "" → among s (PullAndReconcile r) t x s' →
  ∃ b t1 s1 y t2 s2, among s (head_of r) t1 (Ok b) s1 ∧ among s1 (Pull r) t2 y s2 ∧
    match y with
    | Err e => x = Err e ∧ t = t1 ++ t2 ∧ s' = s2
    | Ok _ => ∃ a t3 s3 t4, among s2 (head_of r) t3 (Ok a) s3 ∧ t = t1 ++ t2 ++ t3 ++ t4 ∧
        if decide (a = "" ∨ a = b) then x = Ok false ∧ t4 = [] ∧ s' = s3 else reconcile_turns t4 x s3 s'
    end.
Proof.
  intros Hrem H. unfold PullAndReconcile in H. rewrite decide_False in H by done.
  apply among_bind in H as [(b & t1 & t' & s1 & Hb & H & ->)|(e & H & _)]; [|by apply head_total in H].
  apply among_bind in H as [([] & t2 & t'' & s2 & Hp & H & ->)|(e & Hp & ->)].
  2: { exists b, t1, s1, (Err e), t', s'. by split_and!. }
  exists b, t1, s1, (Ok ()), t2, s2. split; [done|]. split; [done|].
  apply among_bind in H as [(a & t3 & t4 & s3 & Ha & H & ->)|(e & H & _)]; [|by apply head_total in H].
  exists a, t3, s3, t4. split; [done|]. split; [done|]. case_decide; [inversion H; by subst|].
  simpl in H. apply among_call1 in H as (s4 & l & s5 & t5 & -> & H34 & Hq4 & H).
  apply among_call1 in H as (s6 & w & s7 & t6 & -> & H56 & Hq6 & H).
  assert (t6 = [] ∧ s' = s7 ∧ x = if decide (failed w) then Err ErrReconcile else Ok true) as (-> & -> & ->).
  { destruct w; inversion H; subst; (split_and!; [done|done|by case_decide]). }
  eexists _, _. split_and!; [done|done|done| | |done]; simpl.
  2: { apply rtc_once. change s7 with (w, s7).2. rewrite <- Hq6. by repeat constructor. }
  etrans; [done|]. apply (rtc_l _ _ s5); [|done].
  change s5 with (l, s5).2. rewrite <- Hq4. by repeat constructor.
Qed.

(** Between two sightings of a tip, it is the tip. *)
Lemma tip_between s0 s1 s2 l : rtc world_step s0 s1 → rtc world_step s1 s2 → tip s0 = Some l → tip s2 = Some l → tip s1 = Some l.
Proof.
  intros H01 H12 H0 H2. destruct (world_tip _ _ _ H01 H0) as (q & Hq & Hlq). destruct (world_tip _ _ _ H12 Hq) as (q' & Hq' & Hqq).
  simplify_eq. rewrite Hq. f_equal. by apply (anti_symm anc).
Qed.

(** C36: ticker, webhook and RPCs together: in every interleaving of a pull-and-reconcile
    with other methods, with pushes of others and with edits, a pull that moves the
    branch is followed by a reconciliation of its own, unless the tip could not be read;
    and when the branch stood still there is none, unless a command of git failed, so that a reconciliation that failed,
    or a move that another method made, is not made up for by a later tick. *)
Theorem reconcile_iff_advance r s t x s' : r_remote r ≠ "" → among s (PullAndReconcile r) t x s' →
  (∀ u, u ∈ t → t_req u = QRun pull_args → tip (t_from u) ≠ tip (t_to u) →
     ((∃ w, last t = Some w ∧ t_req w = QReconcile ∧ rtc world_step (t_to u) (t_from w) ∧
        x = if decide (failed (t_ans w)) then Err ErrReconcile else Ok true) ∨
      (x = Ok false ∧ ∃ w, w ∈ t ∧ t_req w ≠ QReconcile ∧ failed (t_ans w)))) ∧
  (∀ l w, tip s = Some l → tip s' = Some l → w ∈ t → t_req w = QReconcile →
     ∃ v, v ∈ t ∧ t_req v ≠ QReconcile ∧ failed (t_ans v)).
Proof.
  intros Hrem H. apply tick_among in H as (b & t1 & s1 & y & t2 & s2 & Hb & Hp & H); [|done].
  apply head_among in Hb as (Ht1 & Hw1 & Hb). apply pull_among in Hp as (p1 & p2 & Hp1 & Hp12 & Hp2 & Ht2 & Hu & Hy); [|done].
  destruct y as [[]|e].
  2: { destruct H as (-> & -> & ->). destruct Hy as [_ Hy]. split.
    - intros u [Hin|Hin]%elem_of_app Hq Hne; [by eapply Forall_forall in Ht1 as [_ ?]|].
      rewrite (Hu u Hin Hq) in Hne. simpl in Hne. congruence.
    - intros l w _ _ [Hin|Hin]%elem_of_app Hq; [by eapply Forall_forall in Ht1 as [? _]|by eapply Forall_forall in Ht2]. }
  destruct H as (a & t3 & s3 & t4 & Ha & -> & H). apply head_among in Ha as (Ht3 & Hw3 & Ha). split.
  - intros u Hin Hq Hne.
    assert (t_from u = p1 ∧ t_to u = p2) as [E1 E2].
    { rewrite !elem_of_app in Hin. destruct Hin as [Hin|[Hin|[Hin|Hin]]].
      - by eapply Forall_forall in Ht1 as [_ ?].
      - by rewrite (Hu u Hin Hq).
      - by eapply Forall_forall in Ht3 as [_ ?].
      - case_decide; [by destruct H as (_ & -> & _); apply elem_of_nil in Hin|].
        destruct H as (v & w & -> & Hv & Hw & _). apply elem_of_cons in Hin as [->|Hin%list_elem_of_singleton]; [|subst u]; congruence. }
    rewrite E1, E2 in *. case_decide as Hd.
    + right. destruct H as (-> & -> & ->). split; [done|]. destruct (decide (a = "")) as [|Ha0].
      { destruct Ha as (w & Hw & Hwf). exists w. rewrite !elem_of_app. tauto. }
      destruct Hd as [|<-]; [done|]. rewrite decide_False in Hb by done. destruct Hb as (sb & _ & Hb1 & Hb), Ha as (sa & Ha1 & _ & Ha).
      destruct Hne. assert (rtc world_step sb p1) as Hbp by (by etrans). assert (rtc world_step p2 sa) as Hpa by (by etrans).
      rewrite (tip_between sb p1 sa a), (tip_between sb p2 sa a); try done; by etrans.
    + left. destruct H as (v & w & -> & Hv & Hw & H3w & _ & ->). exists w. rewrite !app_assoc, last_app. split_and!; [done|done| |done].
      etrans; [|done]. by etrans.
  - intros l w Hl Hl' Hin Hq. case_decide as Hd.
    { destruct H as (_ & -> & _). rewrite app_nil_r, !elem_of_app in Hin. destruct Hin as [Hin|[Hin|Hin]].
      - by eapply Forall_forall in Ht1 as [? _].
      - by eapply Forall_forall in Ht2.
      - by eapply Forall_forall in Ht3 as [? _]. }
    destruct (decide (b = "")) as [|Hb0].
    { destruct Hb as (v & Hv & Hvf). exists v. rewrite !elem_of_app. tauto. }
    rewrite decide_False in Ha by tauto. destruct Hb as (sb & Hsb & Hb1 & Hb), Ha as (sa & Ha1 & Ha2 & Ha). exfalso. apply Hd. right.
    destruct H as (v & w' & _ & _ & _ & H3w & Hto & _). assert (rtc world_step sa s') as Hend by (do 2 (etrans; [done|]); done).
    assert (rtc world_step sb sa) as Hba by (do 4 (etrans; [done|]); done).
    assert (tip sb = Some l) by (apply (tip_between s sb s'); [done|by etrans|done..]).
    assert (tip sa = Some l) by (apply (tip_between s sa s'); [by etrans|done..]). congruence.
Qed.

(** The hook of the mirror fails only when the commit does: there is nothing to commit,
    or a remote that does not answer, are no failures of an apply. *)
Lemma hook_fails_only_at_commit r b source kind x verb s t e s' : among s (GitHook r b source kind x verb) t (Err e) s' →
  e ≠ ErrNothingToCommit ∧
  among s (CommitAll r (commitMessage verb kind (r_name x) (if decide (source = "") then SourceCLI else source))) t (Err e) s'.
Proof.
  unfold GitHook. intros H. apply among_bind in H as [(y & t1 & t2 & s1 & Hc & H & ->)|(e' & H & _)]; [|by apply among_try in H as (? & _ & [=])].
  apply among_try in Hc as (y' & Hc & [= <-]). destruct y as [[]|e1].
  - exfalso. destruct b; [|inversion H]. apply among_bind in H as [(z & t3 & t4 & s3 & _ & H & ->)|(e' & H & _)]; [|by apply among_try in H as (? & _ & [=])].
    destruct z; [inversion H|]. simpl in H. apply among_call1 in H as (? & ? & ? & ? & _ & _ & _ & H). inversion H.
  - destruct e1; inversion H; subst; rewrite app_nil_r; (split; [discriminate|done]).
Qed.

(** ** A controller pointed at a remote *)

(** The branch tracks nothing, and the remote's is no part of it. *)
Definition stuck (s : S) : Prop := tracks s = false ∧ ∃ r, remote s = Some r ∧ ∀ l, tip s = Some l → ¬ anc r l.

Lemma stuck_step s s' : stuck s → world_step s s' → stuck s'.
Proof.
  intros Hst Hw. destruct Hw as [q s1 Hq|s1 s2 (Ht & Htr' & Hrem)]; destruct Hst as (Htr & r & Hr & Hl).
  2: { destruct (Hrem r Hr) as (r' & Hr' & Ha). split; [congruence|]. exists r'. split; [done|]. intros l Hl1 Ha'.
    rewrite Ht in Hl1. apply (Hl l Hl1). by etrans. }
  destruct Hq as [q Hq|m| |b].
  - destruct (serve_quiet q s1 Hq) as (Ht & Hr' & Htr'). split; [congruence|]. exists r. split; [congruence|]. intros l. rewrite Ht. apply Hl.
  - destruct (serve_commit m s1) as (Hr' & Htr' & Ht). split; [congruence|]. exists r. split; [congruence|].
    destruct Ht as [->|(c & -> & Hc & _ & Hfresh)]; [done|]. intros l [= <-] [<-|(l' & Hl1 & Ha)]%Hc; [by apply (Hfresh r Hr)|by apply (Hl l' Hl1)].
  - destruct (serve_pull s1) as (Hr' & Htr' & Hf & Hk & _). split; [congruence|]. exists r. split; [congruence|]. intros l. rewrite Hk by auto. apply Hl.
  - destruct (serve_push b s1) as (Ht & [(l & Hl1 & Ha & _)|(_ & Hr' & Htr')]); [by destruct (Hl l Hl1); apply Ha|].
    split; [congruence|]. exists r. split; [congruence|]. intros l. rewrite Ht. apply Hl.
Qed.
Lemma stuck_world s s' : rtc world_step s s' → stuck s → stuck s'.
Proof. intros H Hs. induction H as [|s s1 s2 Hstep _ IH]; [done|]. by apply IH, (stuck_step s). Qed.

(** a fresh controller pointed at a remote that has commits never pulls: whatever it
    does (initialise, commit, push, pull, in any interleaving) and whatever others push,
    every pull-and-reconcile fails and reconciles nothing, and every push fails, since
    [EnsureInit] leaves the branch without an upstream and only a push that the remote
    refuses would set one. *)
Theorem fresh_controller_never_pulls s0 s r0 r : tip s0 = None → tracks s0 = false → remote s0 = Some r0 →
  rtc world_step s0 s → r_remote r ≠ "" →
  (∀ t x s', among s (PullAndReconcile r) t x s' → (∃ e, x = Err e) ∧ ∀ u, u ∈ t → t_req u ≠ QReconcile) ∧
  (∀ t x s', among s (Push r) t x s' → ∃ e, x = Err e).
Proof.
  intros H1 H2 H3 Hs Hrem. apply stuck_world in Hs as Hst; [|by split; [done|exists r0; split; [done|by rewrite H1]]]. split; intros t x s' H.
  - apply tick_among in H as (b & t1 & s1 & y & t2 & s2 & Hb & Hp & H); [|done]. apply head_among in Hb as (Ht1 & Hw1 & _).
    apply pull_among in Hp as (p1 & p2 & Hp1 & _ & _ & Ht2 & _ & Hy); [|done].
    assert (tracks p1 = false) as Hno by (apply (stuck_world s p1); [by etrans|done]).
    destruct y as [[]|e]; [congruence|]. destruct H as (-> & -> & _). split; [by exists e|].
    intros u [Hin|Hin]%elem_of_app; [by eapply Forall_forall in Ht1 as [? _]|by eapply Forall_forall in Ht2].
  - unfold Push in H. rewrite decide_False in H by done.
    apply (locked_among _ _ _ (λ a, _ ← git_answer ["push"; "-u"; "origin"; r_branch r] a; Ok tt)) in H; [|by intros []|apply request_push].
    destruct H as [(u & -> & _ & _ & _ & ->)|(u & a & p1 & p2 & w & -> & _ & _ & Hq & Hp1 & _ & ->)]; [by eexists|].
    destruct (stuck_world s p1 Hp1 Hst) as (_ & r1 & Hr1 & Hl). destruct (serve_push (r_branch r) p1) as (_ & [(l & Hl1 & Ha & _)|(Hf & _)]).
    { by destruct (Hl l Hl1); apply Ha. }
    rewrite Hq in Hf. destruct a; [done|by eexists..].
Qed.
End world.

(** ** The RPCs' arguments *)

Lemma hexSHA_no_option sha : hexSHA sha = true → ∃ c s, sha = String c s ∧ is_hex c = true.
Proof.
  unfold hexSHA. intros H. apply andb_true_iff in H as [[Hh Hlen]%andb_true_iff _]. destruct sha as [|c s]; [done|].
  exists c, s. split; [done|]. simpl in Hh. by apply andb_true_iff in Hh as [? _].
Qed.

(** What a reader of the history makes git run: a path comes after [--], and a commit
    starts with a hexadecimal digit, so that neither is taken for an option. *)
Definition history_request (k : rkey) (q : git_req) : Prop :=
  match q with
  | QAcquire | QRelease => True
  | QRun args =>
      args = ["rev-parse"; "--verify"; "HEAD"] ∨ args = ["log"; log_format; "--"; RelPathFor k] ∨
      ∃ c s, args = ["show"; String c s +:+ ":" +:+ RelPathFor k] ∧ is_hex c = true
  | _ => False
  end.
Lemma no_injected_option h k sha :
  asks (history_request k) (GetResourceHistory h k) ∧ asks (history_request k) (GetResourceAtCommit h k sha).
Proof.
  unfold GetResourceHistory, GetResourceAtCommit. split; (destruct (rh_repo h) as [r|]; [|exact I]); (case_decide; [exact I|]).
  - apply asks_wrap. unfold LogForPath. repo_asks; simpl; auto.
  - destruct (hexSHA sha) eqn:Hx; [|exact I]. apply hexSHA_no_option in Hx as (c & s & -> & Hc). simpl negb. cbv iota.
    unfold ShowAtCommit. repo_asks; simpl; eauto 10.
Qed.

(** ** Executions, and a git *)

(** The turns of a program that runs alone. *)
Fixpoint turns {S A} (serve : git_req → S → ans * S) (p : GP A) (s : S) : list (turn (S := S)) :=
  match p with
  | Call q k => let '(a, s') := serve q s in MkTurn s q a s' :: turns serve (k a) s'
  | _ => []
  end.
Lemma run_among {S A} (serve : git_req → S → ans * S) anc tip remote tracks (p : GP A) s :
  among serve anc tip remote tracks s p (turns serve p s) (run serve p s).1.1 (run serve p s).2.
Proof.
  revert s. induction p as [a|e|q k IH]; intros s; simpl; [constructor..|]. destruct (serve q s) as [a s'] eqn:Hq.
  specialize (IH a s'). destruct (run serve (k a) s') as [[x t] s2] eqn:Hr. econstructor; [done|done|]. exact IH.
Qed.

Definition toy_anc (x y : string) : Prop := x = y ∨ (x ≠ "" ∧ has_suffix x y = true).
Record toy : Type := MkToy { y_tip : option string; y_remote : option string; y_tracks : bool; y_dirty : bool }.

(** An id is the ids of its history. *)
#[export] Instance toy_anc_dec x y : Decision (toy_anc x y).
Proof. unfold toy_anc. apply _. Defined.
Definition toy_commit (s : toy) : ans * toy :=
  let c := String "L" (default "" (y_tip s)) in
  if decide (y_tip s ≠ Some "" ∧ from_option (λ r, bool_decide (¬ toy_anc c r)) true (y_remote s) = true)
  then (AOk "", MkToy (Some c) (y_remote s) (y_tracks s) false) else (AErr "exit status 1" "", s).
Definition toy_pull (s : toy) : ans * toy :=
  match y_remote s with
  | Some r =>
      if decide (y_tracks s = true ∧ from_option (λ l, bool_decide (toy_anc l r)) true (y_tip s) = true)
      then (AOk "", MkToy (Some r) (y_remote s) (y_tracks s) (y_dirty s)) else (AErr "exit status 1" "", s)
  | None => (AErr "exit status 1" "", s)
  end.
Definition toy_push (s : toy) : ans * toy :=
  match y_tip s with
  | Some l =>
      if decide (from_option (λ r, bool_decide (toy_anc r l)) true (y_remote s) = true)
      then (AOk "", MkToy (y_tip s) (Some l) true (y_dirty s)) else (AErr "exit status 1" "rejected", s)
  | None => (AErr "exit status 1" "src refspec main does not match any", s)
  end.
Definition toy_ask (args : list string) (s : toy) : ans :=
  if decide (args = head_args) then
    match y_tip s with
    | Some l => if decide (trim_space l = l ∧ l ≠ "") then AOk l else AErr "exit status 128" ""
    | None => AErr "exit status 128" "ambiguous argument 'HEAD'"
    end
  else if decide (args = ["diff"; "--cached"; "--quiet"]) then (if y_dirty s then AErr "exit status 1" "" else AOk "")
  else AOk "".
Definition toy_serve (q : git_req) (s : toy) : ans * toy :=
  match q with
  | QRun args =>
      if decide (args = pull_args) then toy_pull s
      else match args with
           | [a; b; m] => if decide (a = "commit" ∧ b = "-m") then toy_commit s else (toy_ask args s, s)
           | [a; b; c; d] => if decide (a = "push" ∧ b = "-u" ∧ c = "origin") then toy_push s else (toy_ask args s, s)
           | _ => (toy_ask args s, s)
           end
  | _ => (AOk "", s)
  end.

#[export] Instance toy_anc_order : PartialOrder toy_anc.
Proof.
  split; [split|].
  - intros x. by left.
  - intros x y z [->|[Hx (u & ->)%has_suffix_true]]; [done|]. intros [<-|[Hy (v & ->)%has_suffix_true]]; right; (split; [done|]); apply has_suffix_true.
    + by exists u.
    + exists (v +:+ u). exact (eq_sym (str_app_assoc v u x)).
  - intros x y [H|[_ (u & Hu)%has_suffix_true]] [H2|[_ (v & Hv)%has_suffix_true]]; [congruence..|].
    apply (f_equal String.length) in Hu as Hl. apply (f_equal String.length) in Hv as Hl'. rewrite str_length_app in Hl, Hl'.
    destruct u; [by rewrite Hu|]. simpl in Hl. lia.
Qed.

#[export] Instance toy_laws : GitLaws toy_serve toy_anc y_tip y_remote y_tracks.
Proof.
  split.
  - apply _.
  - intros q s [ | | | | | |cmd args Hc]; [done..|]. unfold toy_serve.
    assert (cmd ≠ "commit" ∧ cmd ≠ "push" ∧ cmd ≠ "pull") as (H1 & H2 & H3).
    { repeat (apply elem_of_cons in Hc as [->|Hc]; [done|]). by apply elem_of_nil in Hc. }
    rewrite decide_False by (intros [= -> _]; done). destruct args as [|a [|b [|c [|]]]]; [done|done|..|done].
    + by rewrite decide_False by naive_solver.
    + by rewrite decide_False by naive_solver.
  - intros m s. simpl. unfold toy_commit. case_decide as Hd; [|by auto]. destruct Hd as [H0 Hr]. simpl. split; [done|]. split; [done|].
    right. eexists. split; [done|]. split; [|split].
    + intros x. destruct (y_tip s) as [l|]; simpl.
      * split.
        -- intros [->|[Hx (u & Hu)%has_suffix_true]]; [by left|]. destruct u as [|c u]; [by left|].
           injection Hu as _ Hu. right. exists l. split; [done|]. right. split; [done|]. apply has_suffix_true. by exists u.
        -- intros [->|(l' & [= <-] & [->|[Hx (u & ->)%has_suffix_true]])]; [by left|..]; right.
           ++ split; [congruence|]. apply has_suffix_true. by exists "L".
           ++ split; [done|]. apply has_suffix_true. by exists (String "L" u).
      * split; [|by intros [->|(? & ? & _)]; [left|]]. intros [->|[Hx (u & Hu)%has_suffix_true]]; [by left|].
        destruct u as [|c u]; [by left|]. injection Hu as _ Hu. by destruct u, x.
    + destruct (y_tip s) as [l|]; simpl; [|done]. intros [= Hl]. apply (f_equal String.length) in Hl. simpl in Hl. lia.
    + intros r Hr'. rewrite Hr' in Hr. by apply bool_decide_eq_true in Hr.
  - intros s. simpl. unfold toy_pull. destruct (y_remote s) as [r|] eqn:Hr; [|by split_and!; try done; left]. case_decide as Hd; simpl; [|by split_and!; try done; left].
    destruct Hd as [Ht Hl]. split; [done|]. split; [done|]. split; [congruence|]. split; [done|]. right. exists r. split_and!; [done|done|].
    intros l Hl'. rewrite Hl' in Hl. by apply bool_decide_eq_true in Hl.
  - intros b s. simpl. unfold toy_push. destruct (y_tip s) as [l|] eqn:Hl; [|by split; [|right]]. case_decide as Hd; simpl; [|by split; [|right]].
    split; [done|]. left. exists l. split; [done|]. split; [|by right]. intros r Hr. rewrite Hr in Hd. by apply bool_decide_eq_true in Hd.
  - intros s out. simpl. unfold toy_ask. simpl. destruct (y_tip s) as [l|]; [|done]. case_decide as Hd; [|done]. intros [= <-]. destruct Hd as [-> ?]. done.
Qed.

(** ** Witnesses *)

Definition ex_repo : Repo := MkRepo "/var/manifests" "main" "git@host:infra.git" PushModeManual 0.
Definition ex_behind : toy := MkToy (Some "a") (Some "ba") true false.
Definition ex_tick : list (turn (S := toy)) := turns toy_serve (PullAndReconcile ex_repo) ex_behind.

Lemma reconcile_iff_advance_witness :
  run toy_serve (PullAndReconcile ex_repo) ex_behind = (Ok true, map (λ u, (t_req u, t_ans u)) ex_tick, MkToy (Some "ba") (Some "ba") true false) ∧
  ∃ w, last ex_tick = Some w ∧ t_req w = QReconcile.
Proof.
  split; [vm_compute; reflexivity|].
  destruct (reconcile_iff_advance toy_serve toy_anc y_tip y_remote y_tracks ex_repo ex_behind ex_tick (Ok true) (MkToy (Some "ba") (Some "ba") true false)) as [H _].
  - discriminate.
  - exact (run_among toy_serve toy_anc y_tip y_remote y_tracks (PullAndReconcile ex_repo) ex_behind).
  - destruct (H (MkTurn ex_behind (QRun pull_args) (AOk "") (MkToy (Some "ba") (Some "ba") true false))) as [(w & Hw & Hq & _)|[Hx _]].
    + apply (list_elem_of_lookup_2 _ 4). vm_compute. reflexivity.
    + reflexivity.
    + discriminate.
    + exists w. split; [exact Hw|exact Hq].
    + discriminate.
Defined.

(** A controller whose first resource was applied before it was pointed at the remote's
    manifests. *)
Definition ex_fresh_state : toy := MkToy None (Some "ba") false true.
Definition ex_committed : toy := (run toy_serve (CommitAll ex_repo "apply VirtualMachine/web via CLI") ex_fresh_state).2.

Lemma fresh_controller_never_pulls_witness :
  y_tip ex_committed = Some "L" ∧ (∃ e, (run toy_serve (PullAndReconcile ex_repo) ex_committed).1.1 = Err e) ∧
  ∃ e, (run toy_serve (Push ex_repo) ex_committed).1.1 = Err e.
Proof.
  split; [vm_compute; reflexivity|].
  destruct (fresh_controller_never_pulls toy_serve toy_anc y_tip y_remote y_tracks ex_fresh_state ex_committed "ba" ex_repo) as [H1 H2].
  - reflexivity.
  - reflexivity.
  - reflexivity.
  - eapply among_world; [apply (CommitAll_asks ex_repo "apply VirtualMachine/web via CLI")|].
    apply (run_among toy_serve toy_anc y_tip y_remote y_tracks).
  - discriminate.
  - split.
    + apply (H1 (turns toy_serve (PullAndReconcile ex_repo) ex_committed) _ (run toy_serve (PullAndReconcile ex_repo) ex_committed).2).
      apply (run_among toy_serve toy_anc y_tip y_remote y_tracks).
    + apply (H2 (turns toy_serve (Push ex_repo) ex_committed) _ (run toy_serve (Push ex_repo) ex_committed).2).
      apply (run_among toy_serve toy_anc y_tip y_remote y_tracks).
Defined.

(** The RPC moves the branch; the next tick has nothing to reconcile. *)
Lemma pull_rpc_is_not_reconciled :
  let after := (run toy_serve (PullRepo (MkRepoHandler (Some "/var/manifests") (Some ex_repo))) ex_behind).2 in
  y_tip after = Some "ba" ∧ (run toy_serve (PullAndReconcile ex_repo) after).1.1 = Ok false.
Proof. by vm_compute. Qed.
