(* ===== verification/Gateway.v ===== *)
(** The HTTP front end: src/internal/controller/server/http.go (cookies and the login
    response), oidc_http.go (single sign-on) and webhook_http.go (the push webhook). A
    handler is a function of what it reads of a request; sessions and roles are those of
    Auth, and what is behind a handler (the generated gateway, the exchange with an
    identity provider, HMAC) is an argument. *)
From Stdlib Require Import Ascii.
From S2P Require Import Prelude GoStrings GoValue Auth Git.

(** ** Requests and responses *)

Record http_request : Type := MkHttpRequest {
  h_Method : string; h_Path : string; h_TLS : bool; h_Authorization : string; h_Cookies : list (string * string);
  h_Query : list (string * string); h_Signature : string; h_Body : option string }.

Inductive SameSite : Type := SameSiteStrict | SameSiteLax.
Record Cookie : Type := MkCookie {
  ck_Name : string; ck_Value : string; ck_Path : string; ck_MaxAge : Z; ck_HttpOnly : bool; ck_Secure : bool; ck_SameSite : SameSite }.

(** The cookies that are set, in order, other headers, and the body. *)
Record http_response : Type := MkHttpResponse {
  p_Status : Z; p_Cookies : list Cookie; p_Header : list (string * string); p_Body : string }.

(** [r.Cookie(name)], and the value of a query parameter. *)
Definition req_cookie (name : string) (r : http_request) : option string := assoc name (h_Cookies r).
Definition query (name : string) (r : http_request) : string := default "" (assoc name (h_Query r)).
(** [http.Error] and [http.Redirect], after the cookies that were set; the page that
    goes with a redirect is left out. *)
Definition http_error (cookies : list Cookie) (msg : string) (status : Z) : http_response :=
  MkHttpResponse status cookies [] (msg +:+ String newline_byte "").
Definition redirect (cookies : list Cookie) (url : string) : http_response := MkHttpResponse 302 cookies [("Location", url)] "".

(** ** Cookies (http.go) *)

Definition sessionCookieName : string := "openctl_session".

Definition cookieToBearer (r : http_request) : http_request :=
  if decide (h_Authorization r = "") then
    match req_cookie sessionCookieName r with
    | Some v =>
        if decide (v = "") then r
        else MkHttpRequest (h_Method r) (h_Path r) (h_TLS r) (bearerPrefix +:+ v) (h_Cookies r) (h_Query r) (h_Signature r) (h_Body r)
    | None => r
    end
  else r.

(** [strings.Cut(s, sep)] for a separator of several bytes. *)
Fixpoint cut_sub (sep s : string) : option (string * string) :=
  match cut_prefix sep s with
  | Some rest => Some ("", rest)
  | None =>
      match s with
      | EmptyString => None
      | String c s' => match cut_sub sep s' with Some (a, b) => Some (String c a, b) | None => None end
      end
  end.

Definition quote : ascii := "034"%char.
Definition quoted (s : string) : string := String quote s +:+ String quote "".
Definition extractJSONString (body name : string) : string :=
  match cut_sub (quoted name +:+ String ":" (String quote "")) body with
  | None => ""
  | Some (_, rest) => match cut_byte quote rest with Some (v, _) => v | None => "" end
  end.

(** What a handler wrote: [loginRecorder]. *)
Record loginRecorder : Type := MkRecorder { lr_secure : bool; lr_status : Z; lr_cookies : list Cookie; lr_headers : list (string * string); lr_body : string }.

Definition recorder (secure : bool) : loginRecorder := MkRecorder secure 0 [] [] "".
Definition WriteHeader (code : Z) (r : loginRecorder) : loginRecorder := MkRecorder (lr_secure r) code (lr_cookies r) (lr_headers r) (lr_body r).
Definition Write (b : string) (r : loginRecorder) : loginRecorder :=
  MkRecorder (lr_secure r) (if decide (lr_status r = 0%Z) then 200%Z else lr_status r) (lr_cookies r) (lr_headers r) (lr_body r +:+ b).

Section cookies.
Context (parse_time : string → option Z).

(** [int(d.Seconds())], exact below 2^23 seconds. *)
Definition seconds (d : Z) : Z := Z.quot d Second.

Definition flush (r : loginRecorder) (now : Z) : http_response :=
  let session :=
    if decide (lr_status r = 200%Z) then
      let token := extractJSONString (lr_body r) "token" in
      let expiresAt := extractJSONString (lr_body r) "expiresAt" in
      if decide (token ≠ "") then
        let maxAge := (7 * 24 * 60 * 60)%Z in
        let maxAge :=
          if decide (expiresAt ≠ "") then
            match parse_time expiresAt with
            | Some exp => let d := (exp - now)%Z in if (0 <? d)%Z then seconds d else maxAge
            | None => maxAge
            end
          else maxAge in
        [MkCookie sessionCookieName token "/" maxAge true (lr_secure r) SameSiteStrict]
      else []
    else [] in
  MkHttpResponse (if decide (lr_status r = 0%Z) then 200%Z else lr_status r) (lr_cookies r ++ session) (lr_headers r) (lr_body r).

(** [setCookieOnLogin]; [next] is the recorded handler. *)
Definition is_login (r : http_request) : bool := bool_decide (h_Method r = "POST" ∧ h_Path r = "/v1/session/login").
Definition setCookieOnLogin (next : http_request → loginRecorder → loginRecorder) (r : http_request) (now : Z) : http_response :=
  let rec_ := next r (recorder (h_TLS r)) in
  if is_login r then flush rec_ now
  else MkHttpResponse (if decide (lr_status rec_ = 0%Z) then 200%Z else lr_status rec_) (lr_cookies rec_) (lr_headers rec_) (lr_body rec_).
(** The handler of [/v1/]. *)
Definition api (next : http_request → loginRecorder → loginRecorder) (r : http_request) (now : Z) : http_response :=
  setCookieOnLogin next (cookieToBearer r) now.
End cookies.

(** [uiHandlerFor]: whether the assets are a build. *)
Definition hasContent (entries : list string) : bool :=
  existsb (λ e, negb (bool_decide (e ∈ [".gitkeep"; ".gitignore"; "README.md"]))) entries.

(** ** Single sign-on (oidc_http.go) *)

Definition oidcStateCookie : string := "openctl_oidc_state".
Definition oidcVerifierCookie : string := "openctl_oidc_verifier".
Definition oidcFlowTTL : Z := 10 * 60 * Second.

Record OIDCHandler : Type := MkOIDCHandler { oh_authn : OIDCAuthenticator; oh_secure : bool }.

Definition flowCookie (h : OIDCHandler) (name value : string) : Cookie :=
  MkCookie name value "/auth/oidc/" (seconds oidcFlowTTL) true (oh_secure h) SameSiteLax.
Definition clearFlowCookie (h : OIDCHandler) (name : string) : Cookie :=
  MkCookie name "" "/auth/oidc/" (-1) true (oh_secure h) SameSiteLax.

Definition oidc_enabled : http_response :=
  MkHttpResponse 200 [] [("Content-Type", "application/json")] (String "{" (quoted "enabled" +:+ ":true}")).

Section oidc.
Context (AuthCodeURL : string → string → string) (Exchange : string → string → option gomap).
Context (digest : string → string) (format_time : Z → string).

(** [login]; [state] is what [randToken] returns. *)
Definition oidc_login (h : OIDCHandler) (state : option string) (verifier : string) : http_response :=
  match state with
  | None => http_error [] "internal error" 500
  | Some state =>
      redirect [flowCookie h oidcStateCookie state; flowCookie h oidcVerifierCookie verifier] (AuthCodeURL state verifier)
  end.

Definition retry_text : string := "invalid or expired login state — please retry".
Definition session_cookie (h : OIDCHandler) (token : string) : Cookie :=
  MkCookie sessionCookieName token "/" (seconds DefaultSessionTTL) true (oh_secure h) SameSiteStrict.

(** [callback]; [fresh], [id] and [now] as in [Create]. *)
Definition callback (h : OIDCHandler) (r : http_request) (fresh : option string) (id : string) (now : Z) (tbl : list session_row) :
    http_response * list session_row :=
  let state := default "" (req_cookie oidcStateCookie r) in
  if decide (state = "" ∨ query "state" r ≠ state) then (http_error [] retry_text 400, tbl)
  else
    let verifier := default "" (req_cookie oidcVerifierCookie r) in
    if decide (verifier = "") then (http_error [] retry_text 400, tbl)
    else
      let cleared := [clearFlowCookie h oidcStateCookie; clearFlowCookie h oidcVerifierCookie] in
      if decide (query "error" r ≠ "") then (http_error cleared ("login failed at the identity provider: " +:+ query "error" r) 401, tbl)
      else if decide (query "code" r = "") then (http_error cleared "missing authorization code" 400, tbl)
      else
        match Exchange (query "code" r) verifier with
        | None => (http_error cleared "login failed — could not verify the identity token" 401, tbl)
        | Some claims =>
            match OIDCPrincipal (oh_authn h) claims with
            | Err ErrOIDCDenied => (http_error cleared "your account authenticated but has no role assigned in openctl" 403, tbl)
            | Err _ => (http_error cleared "login failed" 401, tbl)
            | Ok (userID, role) =>
                match Create digest format_time userID userID role DefaultSessionTTL fresh id now tbl with
                | Err _ => (http_error cleared "internal error creating session" 500, tbl)
                | Ok (sess, tbl') => (redirect (cleared ++ [session_cookie h (ss_Token sess)]) "/ui/", tbl')
                end
            end
        end.
End oidc.

(** ** The push webhook (webhook_http.go) *)

Definition defaultWebhookPath : string := "/gitops/webhook".
Definition maxWebhookBody : Z := Z.shiftl 5 20.
(** [io.LimitReader] *)
Definition limited (body : string) : string :=
  if (Z.of_nat (String.length body) <=? maxWebhookBody)%Z then body else str_take (Z.to_nat maxWebhookBody) body.

Record GitOpsWebhook : Type := MkWebhook { wh_path : string; wh_secret : string }.
Definition NewGitOpsWebhook (path secret : string) : GitOpsWebhook :=
  MkWebhook (if decide (path = "") then defaultWebhookPath else path) secret.

(** [hex.DecodeString] *)
Definition hex_val (c : ascii) : option N :=
  let n := N_of_ascii c in
  if (48 <=? n)%N && (n <=? 57)%N then Some (n - 48)%N
  else if (97 <=? n)%N && (n <=? 102)%N then Some (n - 87)%N
  else if (65 <=? n)%N && (n <=? 70)%N then Some (n - 55)%N
  else None.
Fixpoint hex_decode (s : string) : option string :=
  match s with
  | EmptyString => Some EmptyString
  | String a (String b s') =>
      match hex_val a, hex_val b, hex_decode s' with
      | Some x, Some y, Some t => Some (String (ascii_of_N (16 * x + y)) t)
      | _, _, _ => None
      end
  | String _ EmptyString => None
  end.

Section webhook.
Context (hmac : string → string → string).

Definition sha256_prefix : string := "sha256=".
Definition validSignature (secret body header : string) : bool :=
  match cut_prefix sha256_prefix header with
  | None => false
  | Some digest =>
      match hex_decode digest with
      | Some want => bool_decide (hmac secret body = want)
      | None => false
      end
  end.

(** [ServeHTTP]: the response, and whether the reconciliation is started. *)
Definition serve_webhook (h : GitOpsWebhook) (r : http_request) : http_response * bool :=
  if decide (h_Method r ≠ "POST") then (http_error [] "method not allowed" 405, false)
  else match h_Body r with
       | None => (http_error [] "read body" 400, false)
       | Some body =>
           let body := limited body in
           if bool_decide (wh_secret h ≠ "") && negb (validSignature (wh_secret h) body (h_Signature r))
           then (http_error [] "invalid signature" 401, false)
           else (MkHttpResponse 202 [] [] ("reconcile triggered" +:+ String newline_byte ""), true)
       end.
End webhook.

(** ** Facts *)

Lemma cookieToBearer_explicit r : h_Authorization r ≠ "" → cookieToBearer r = r.
Proof. intros H. unfold cookieToBearer. by rewrite decide_False. Qed.
Lemma cookieToBearer_cookie r token : h_Authorization r = "" → req_cookie sessionCookieName r = Some token → token ≠ "" →
  h_Authorization (cookieToBearer r) = bearerPrefix +:+ token.
Proof. intros H Hc Hne. unfold cookieToBearer. by rewrite decide_True, Hc, decide_False. Qed.

(** What follows a separator. *)
Definition after (sep s : string) : option string := snd <$> cut_sub sep s.
Lemma after_cons sep a s : cut_prefix sep (String a s) = None → after sep (String a s) = after sep s.
Proof. intros H. unfold after. cbn [cut_sub]. rewrite H. by destruct (cut_sub sep s) as [[]|]. Qed.
Lemma after_no_byte c n t s : no_byte c t → after (String c n) (t +:+ s) = after (String c n) s.
Proof.
  induction t as [|a t IH]; intros Ht; [done|]. destruct Ht as [Ha Ht]. rewrite str_app_cons, after_cons; [by apply IH|].
  cbn [cut_prefix]. by rewrite decide_False.
Qed.
Lemma after_here sep s rest : cut_prefix sep s = Some rest → after sep s = Some rest.
Proof. intros H. unfold after. destruct s; cbn [cut_sub]; by rewrite H. Qed.
Lemma extract_after body name : extractJSONString body name =
  match after (quoted name +:+ String ":" (String quote "")) body with
  | Some rest => match cut_byte quote rest with Some (v, _) => v | None => "" end
  | None => ""
  end.
Proof. unfold extractJSONString, after. by destruct (cut_sub _ body) as [[]|]. Qed.

(** A value is no member: what follows it is no colon. *)
Lemma after_value name v a s : no_byte quote name → no_byte quote v → a ≠ ":"%char →
  after (quoted name +:+ String ":" (String quote "")) (String quote (v +:+ String quote (String a s))) =
  after (quoted name +:+ String ":" (String quote "")) (String quote (String a s)).
Proof.
  intros Hn Hv Ha. rewrite after_cons.
  - change (quoted name +:+ String ":" (String quote "")) with (String quote ((name +:+ String quote "") +:+ String ":" (String quote ""))).
    by apply after_no_byte.
  - destruct (cut_prefix _ _) as [r|] eqn:E; [|done]. apply cut_prefix_Some in E. unfold quoted in E. rewrite str_app_cons in E.
    injection E as E. rewrite !str_app_assoc, str_app_cons in E. apply (f_equal (cut_byte quote)) in E.
    rewrite !cut_byte_app in E by done. by injection E as _ ->.
Qed.

Lemma str_app_nil_l (s : string) : "" +:+ s = s.
Proof. done. Qed.

(** The body of a login's response, as the generated gateway writes it: members in the
    order of their numbers, with or without a blank after a comma. *)
Definition member (name v : string) : string := quoted name +:+ String ":" (quoted v).
Definition login_body (blank : bool) (token id expires : string) : string :=
  let sep := if blank then ", " else "," in
  String "{" (member "token" token +:+ sep +:+ member "sessionId" id +:+ sep +:+ member "expiresAt" expires +:+ "}").

Lemma extract_login_body blank token id expires : no_byte quote token → no_byte quote id → no_byte quote expires →
  extractJSONString (login_body blank token id expires) "token" = token ∧
  extractJSONString (login_body blank token id expires) "expiresAt" = expires.
Proof.
  intros Ht Hi He. rewrite !extract_after. unfold login_body, member. 
  set (n1 := quoted "token" +:+ String ":" (String quote "")). set (n2 := quoted "expiresAt" +:+ String ":" (String quote "")).
  unfold quoted. repeat first [rewrite str_app_nil_l|rewrite str_app_cons|rewrite str_app_assoc]. split.
  - repeat (rewrite after_cons by reflexivity). erewrite after_here by reflexivity. by rewrite cut_byte_app.
  - destruct blank; repeat first [rewrite str_app_nil_l|rewrite str_app_cons];
      repeat (rewrite after_cons by reflexivity); unfold n2; rewrite after_value by done; fold n2;
      repeat (rewrite after_cons by reflexivity); unfold n2; rewrite after_value by done; fold n2;
      repeat (rewrite after_cons by reflexivity); erewrite after_here by reflexivity; by rewrite cut_byte_app.
Qed.

(** ** Who a browser is *)

Section browser.
Context (Exchange : string → string → option gomap).
Context (digest : string → string) (format_time : Z → string) (parse_time : string → option Z).
(** The generated gateway passes the Authorization header on as metadata. *)
Context (forwarded : http_request → option (list string)).
Hypothesis forwarded_header : ∀ q, h_Authorization q ≠ "" → forwarded q = Some [h_Authorization q].

(** A browser that sends the cookie and no header of its own. *)
Definition sends (token : string) (q : http_request) : Prop :=
  h_Authorization q = "" ∧ req_cookie sessionCookieName q = Some token.
(** A token that is neither the root token nor a user's. *)
Definition session_token (v : Validator) (token : string) : Prop :=
  token ≠ "" ∧ token ≠ v_expected v ∧ (token ∉ (v_users v).*1) ∧ v_sessions v = true.

Lemma sent_bearer q token : sends token q → token ≠ "" → bearer (forwarded (cookieToBearer q)) = Ok token.
Proof.
  intros [Ha Hc] Hne. pose proof (cookieToBearer_cookie q token Ha Hc Hne) as H. rewrite forwarded_header by (by rewrite H). rewrite H.
  unfold bearer. by rewrite (proj2 (cut_prefix_Some _ _ token)).
Qed.
Lemma check_session v q token now tbl : sends token q → session_token v token →
  check digest parse_time v (forwarded (cookieToBearer q)) now tbl =
    match Lookup digest parse_time token now tbl with Some s => Ok (session_principal s) | None => Err ErrInvalidToken end.
Proof.
  intros Hs (Hne & Hroot & Hus & Hv). unfold check. rewrite (sent_bearer q token) by done. simpl. rewrite decide_False by done.
  destruct (list_find _ (v_users v)) as [[i u]|] eqn:E; [|by rewrite Hv].
  apply list_find_Some in E as (Hi & -> & _). destruct Hus. apply list_elem_of_fmap_2. by eapply list_elem_of_lookup_2.
Qed.

(** What a callback that opened a session went through. *)
Record sso (h : OIDCHandler) (r : http_request) (token id : string) (now : Z) (tbl tbl' : list session_row) (user : string) (role : Role) : Prop := {
  sso_state : req_cookie oidcStateCookie r = Some (query "state" r) ∧ query "state" r ≠ "";
  sso_exchange : ∃ verifier claims, req_cookie oidcVerifierCookie r = Some verifier ∧ verifier ≠ "" ∧ query "error" r = "" ∧
    Exchange (query "code" r) verifier = Some claims ∧ OIDCPrincipal (oh_authn h) claims = Ok (user, role);
  sso_created : ∃ s, Create digest format_time user user role DefaultSessionTTL (Some token) id now tbl = Ok (s, tbl') ∧ ss_Token s = token }.

#[local] Ltac refuse := match goal with Herr : ∀ cs m st, _, H : _ = _ |- _ => eapply Herr; [| |exact H]; [solve [auto]|done] end.

Lemma callback_cases h r fresh id now tbl resp tbl' : callback Exchange digest format_time h r fresh id now tbl = (resp, tbl') →
  (tbl' = tbl ∧ p_Status resp ≠ 302%Z ∧ ∀ c, c ∈ p_Cookies resp → ck_Name c ≠ sessionCookieName) ∨
  ∃ token user role, fresh = Some token ∧ sso h r token id now tbl tbl' user role ∧ p_Status resp = 302%Z ∧
    last (p_Cookies resp) = Some (session_cookie h token).
Proof.
  assert (∀ c, c ∈ [clearFlowCookie h oidcStateCookie; clearFlowCookie h oidcVerifierCookie] → ck_Name c ≠ sessionCookieName) as Hcl.
  { intros c [->|[->|?%elem_of_nil]%elem_of_cons]%elem_of_cons; done. }
  assert (∀ cs m st, (∀ c, c ∈ cs → ck_Name c ≠ sessionCookieName) → st ≠ 302%Z → (http_error cs m st, tbl) = (resp, tbl') →
    tbl' = tbl ∧ p_Status resp ≠ 302%Z ∧ ∀ c, c ∈ p_Cookies resp → ck_Name c ≠ sessionCookieName) as Herr by (by intros cs m st H1 H2 [= <- <-]).
  assert (∀ c : Cookie, c ∈ [] → ck_Name c ≠ sessionCookieName) as Hnil by (by intros c ?%elem_of_nil).
  unfold callback. case_decide as Hst; [intros H; left; refuse|]. case_decide as Hv; [intros H; left; refuse|].
  case_decide as He; [intros H; left; refuse|]. case_decide as Hc; [intros H; left; refuse|].
  destruct (Exchange _ _) as [claims|] eqn:Hx; [|intros H; left; refuse].
  destruct (OIDCPrincipal _ claims) as [[user role]|e] eqn:Hp; [|destruct e; intros H; left; refuse].
  destruct (Create _ _ _ _ _ _ _ _ _ _) as [[s tb]|e] eqn:Hcr; [|intros H; left; refuse].
  intros [= <- <-]. right. destruct fresh as [token|]; [|discriminate Hcr].
  assert (ss_Token s = token) as Htok by (unfold Create in Hcr; case_decide; [done|by injection Hcr as <- _]).
  exists token, user, role. split; [done|]. split; [|by rewrite Htok].
  destruct (req_cookie oidcStateCookie r) as [st|] eqn:Es; simpl in Hst; [|tauto]. assert (st ≠ "" ∧ query "state" r = st) as [H1 H2] by (split; [tauto|apply dec_stable; tauto]).
  destruct (req_cookie oidcVerifierCookie r) as [ve|] eqn:Ev; simpl in Hv, Hx; [|done].
  split; [by rewrite H2|by eexists _, _|by exists s].
Qed.

(** C37: single sign-on, end to end. A callback opens a session, and sets a session
    cookie, only for the browser that started the flow (its state cookie is the state in
    the URL) with a code that the identity provider exchanges against its verifier, and
    claims that map to a role; from then until the expiry, and no longer, a request of
    that browser is taken for the user of the claims, with that role; in every other case
    no session is opened and no cookie set. *)
Theorem sso_end_to_end h cfg v r fresh id now tbl resp tbl' : NewOIDCAuthenticator cfg = Ok (oh_authn h) →
  callback Exchange digest format_time h r fresh id now tbl = (resp, tbl') →
  (tbl' = tbl ∧ ∀ c, c ∈ p_Cookies resp → ck_Name c ≠ sessionCookieName) ∨
  ∃ token user role, sso h r token id now tbl tbl' user role ∧ last (p_Cookies resp) = Some (session_cookie h token) ∧
    let expiry := (now + DefaultSessionTTL)%Z in
    ∀ q t, sends token q → session_token v token → parse_time (format_time expiry) = Some expiry →
      check digest parse_time v (forwarded (cookieToBearer q)) t tbl' =
        if (expiry <? t)%Z then Err ErrInvalidToken
        else Ok (MkPrincipal (if decide (user = "") then DefaultUserID else user) role false).
Proof.
  intros Ha H. destruct (callback_cases _ _ _ _ _ _ _ _ H) as [(-> & _ & Hc)|(token & user & role & -> & Hs & _ & Hl)]; [by left|right].
  exists token, user, role. split; [done|]. split; [done|]. intros expiry q t Hq Hv Hp. rewrite (check_session v q token) by done.
  destruct Hs as [_ (ve & claims & _ & _ & _ & _ & Hpr) (s & Hcr & _)].
  destruct (session_lifetime _ _ parse_time _ _ _ _ _ _ _ _ _ _ Hcr) as [Hlk _]; [by destruct Hv|exact Hp|]. rewrite Hlk. fold expiry.
  assert (0 < rank role) as Hr by (eapply OIDCPrincipal_rank; [by eapply NewOIDC_ok|done]).
  unfold expiry. simpl. destruct (_ <? t)%Z; [done|]. unfold session_principal. simpl.
  by rewrite !(decide_False (P := rank role = 0)) by lia.
Qed.

(** A callback is a step of the sessions of Auth. *)
Lemma callback_session_step h v r fresh id now tbl resp tbl' : callback Exchange digest format_time h r fresh id now tbl = (resp, tbl') →
  tbl' = tbl ∨ session_step digest format_time parse_time v (Some (oh_authn h)) tbl tbl'.
Proof.
  intros H. destruct (callback_cases _ _ _ _ _ _ _ _ H) as [(-> & _ & Hc)|(token & user & role & -> & Hs & _ & _)]; [by left|right].
  destruct Hs as [_ (ve & claims & _ & _ & _ & _ & Hpr) (s & Hcr & _)]. by eapply StepOIDC.
Qed.

(** A login over HTTP: the cookie is the session's token, for as long as the session. *)
Lemma login_cookie r now token id expires blank exp :
  no_byte quote token → no_byte quote id → no_byte quote expires → token ≠ "" → expires ≠ "" →
  parse_time expires = Some exp → (now < exp)%Z → is_login r = true →
  p_Cookies (api parse_time (λ _ w, Write (login_body blank token id expires) w) r now) =
    [MkCookie sessionCookieName token "/" (seconds (exp - now)) true (h_TLS r) SameSiteStrict].
Proof.
  intros Ht Hi He Hne Hex Hp Hlt Hlog. unfold api, setCookieOnLogin.
  assert (is_login (cookieToBearer r) = true ∧ h_TLS (cookieToBearer r) = h_TLS r) as [-> ->].
  { unfold cookieToBearer. case_decide; [|done]. destruct (req_cookie _ r); [|done]. by case_decide. }
  unfold flush. simpl. rewrite str_app_nil_l. destruct (extract_login_body blank token id expires Ht Hi He) as [-> ->].
  rewrite !decide_True by done. rewrite Hp. by destruct (0 <? exp - now)%Z eqn:E; [|lia].
Qed.
End browser.

(** ** Who can start a reconciliation *)

(** A push starts a reconciliation exactly when it is a POST that can be read and, where
    a secret is configured, carries its HMAC of the body. *)
Theorem webhook_triggers_iff hmac h r :
  (serve_webhook hmac h r).2 = true ↔
  h_Method r = "POST" ∧ ∃ body, h_Body r = Some body ∧
    (wh_secret h = "" ∨ ∃ hex, h_Signature r = sha256_prefix +:+ hex ∧ hex_decode hex = Some (hmac (wh_secret h) (limited body))).
Proof.
  unfold serve_webhook. case_decide as Hm; simpl; [naive_solver|]. destruct (h_Body r) as [body|]; simpl; [|naive_solver].
  assert (validSignature hmac (wh_secret h) (limited body) (h_Signature r) = true ↔
    ∃ hex, h_Signature r = sha256_prefix +:+ hex ∧ hex_decode hex = Some (hmac (wh_secret h) (limited body))) as Hsig.
  { unfold validSignature. destruct (cut_prefix _ _) as [hex|] eqn:E.
    - apply cut_prefix_Some in E as ->. assert (∀ hx, sha256_prefix +:+ hex = sha256_prefix +:+ hx → hex = hx) as Hinj.
      { intros hx Hx. apply (f_equal (cut_prefix sha256_prefix)) in Hx. rewrite !(proj2 (cut_prefix_Some _ _ _) eq_refl) in Hx. by injection Hx. }
      destruct (hex_decode hex) as [w|] eqn:Ew.
      + rewrite bool_decide_eq_true. split; [intros <-; by exists hex|]. intros (hx & ->%Hinj & Hw). congruence.
      + split; [done|]. intros (hx & ->%Hinj & Hw). congruence.
    - split; [done|]. intros (hx & Hx & _). by rewrite (proj2 (cut_prefix_Some _ _ hx)) in E. }
  destruct (bool_decide (wh_secret h ≠ "")) eqn:Hs; simpl.
  - apply bool_decide_eq_true in Hs. destruct (validSignature _ _ _ _); simpl; naive_solver.
  - apply bool_decide_eq_false in Hs; apply dec_stable in Hs. naive_solver.
Qed.

(** ** Witnesses *)

Definition ex_authn : OIDCAuthenticator := ok_or (NewOIDCAuthenticator ex_oidc_config) (MkOIDC "" [] "" "").
Definition ex_handler : OIDCHandler := MkOIDCHandler ex_authn true.
Definition ex_exchange (code verifier : string) : option gomap :=
  if decide (code = "c0de" ∧ verifier = "verifier-1") then Some ex_claims else None.
Definition ex_callback_request : http_request :=
  MkHttpRequest "GET" "/auth/oidc/callback" true "" [(oidcStateCookie, "state-1"); (oidcVerifierCookie, "verifier-1")]
    [("state", "state-1"); ("code", "c0de")] "" (Some "").
Definition ex_forwarded (q : http_request) : option (list string) := Some [h_Authorization q].
Definition ex_browser_request : http_request :=
  MkHttpRequest "GET" "/v1/operations" true "" [(sessionCookieName, "eve-token")] [] "" (Some "").
Definition ex_validator : Validator := WithSessions (NewValidator "root-token").
Definition ex_callback : http_response * list session_row :=
  callback ex_exchange id pretty ex_handler ex_callback_request (Some "eve-token") "sess-1" 0 [].

Lemma sso_end_to_end_witness :
  p_Status ex_callback.1 = 302%Z ∧
  check id atoi ex_validator (ex_forwarded (cookieToBearer ex_browser_request)) 5 ex_callback.2 = Ok (MkPrincipal "eve@x" RoleEditor false).
Proof.
  split; [vm_compute; reflexivity|].
  destruct (sso_end_to_end ex_exchange id pretty atoi ex_forwarded (λ q _, eq_refl) ex_handler ex_oidc_config ex_validator
    ex_callback_request (Some "eve-token") "sess-1" 0 [] ex_callback.1 ex_callback.2) as [[H _]|(token & user & role & Hs & Hl & H)].
  - vm_compute. reflexivity.
  - vm_compute. reflexivity.
  - vm_compute in H. discriminate H.
  - vm_compute in Hl. injection Hl as Hl. subst token.
    destruct Hs as [_ (ve & claims & Hve & _ & _ & Hx & Hp) _]. vm_compute in Hve. injection Hve as <-.
    vm_compute in Hx. injection Hx as <-. vm_compute in Hp. injection Hp as <- <-.
    rewrite (H ex_browser_request 5%Z); [reflexivity|..].
    + split; reflexivity.
    + split; [discriminate|]. split; [discriminate|]. split; [by apply not_elem_of_nil|reflexivity].
    + vm_compute. reflexivity.
Defined.

Lemma login_cookie_witness :
  p_Cookies (api atoi (λ _ w, Write (login_body true "tok" "sess-2" "3600000000000") w)
    (MkHttpRequest "POST" "/v1/session/login" true "Bearer root-token" [] [] "" (Some "{}")) 0) =
  [MkCookie sessionCookieName "tok" "/" 3600 true true SameSiteStrict].
Proof. vm_compute. reflexivity. Qed.
