(* ===== verification/TfTypes.v ===== *)
(** Terraform types and values: schema.go and values.go of
    src/internal/controller/providers/tfhost. What a schema implies as a type, a spec as
    a value of it, and a value as a spec. *)
From Stdlib Require Import SpecFloat.
From S2P Require Import Prelude GoStrings GoValue Float64.

(** ** Types and values (tftypes) *)

Inductive tftype : Type :=
| TString
| TNumber
| TBool
| TDynamic
| TList (e : tftype)
| TSet (e : tftype)
| TMap (e : tftype)
| TObject (attrs : list (string * tftype)) (optional : list string)
| TTuple (ts : list tftype).

(** A value with its type; a number is an exact binary float ([big.Float]). *)
Inductive tval : Type :=
| TVNull (t : tftype)
| TVUnknown (t : tftype)
| TVStr (s : string)
| TVBool (b : bool)
| TVNum (f : spec_float)
| TVList (t : tftype) (l : list tval)
| TVMap (t : tftype) (m : list (string * tval)).

Inductive tf_error : Type :=
| ErrUnknownPrimitive (s : string)
| ErrNotCtyType
| ErrCtyShort
| ErrCtyKind
| ErrUnknownComposite (kind : string)
| ErrCtyAttrs
| ErrNesting
| ErrNoBlock
| ErrExpected (what : string)
| ErrArity (got want : nat)
| ErrUnsupportedType
| ErrPathAt (name : string) (e : tf_error)
| ErrIndexAt (i : nat) (e : tf_error)
| ErrCodec
(** No error, but the end of the process: [big.NewFloat] of NaN, which nothing recovers. *)
| PanicNaN.

(** Whether it is the end of the process. *)
Fixpoint panics (e : tf_error) : bool :=
  match e with ErrPathAt _ e | ErrIndexAt _ e => panics e | PanicNaN => true | _ => false end.

(** ** cty types (schema.go) *)

Definition primitive (s : string) : result tf_error tftype :=
  if decide (s = "string") then Ok TString
  else if decide (s = "number") then Ok TNumber
  else if decide (s = "bool") then Ok TBool
  else if decide (s = "dynamic") then Ok TDynamic
  else Err (ErrUnknownPrimitive s).

(** [json.Unmarshal] into a string, and into strings: null is the zero value. *)
Definition as_string (v : value) : option string := match v with VStr s => Some s | VNull => Some "" | _ => None end.
Definition as_strings (v : value) : option (list string) :=
  match v with VList l => mapM as_string l | VNull => Some [] | _ => None end.
(** [fmt.Errorf("...: %w", err)] *)
Definition at_path {A} (name : string) (r : result tf_error A) : result tf_error A := map_err (ErrPathAt name) r.

(** [parseCtyType], on the document the bytes hold. *)
Fixpoint parseCtyType (d : value) : result tf_error tftype :=
  match d with
  | VStr s => primitive s
  | VNull => primitive ""
  | VList (k :: x :: rest) =>
      match as_string k with
      | None => Err ErrCtyKind
      | Some kind =>
          if decide (kind = "list") then e ← parseCtyType x; Ok (TList e)
          else if decide (kind = "set") then e ← parseCtyType x; Ok (TSet e)
          else if decide (kind = "map") then e ← parseCtyType x; Ok (TMap e)
          else if decide (kind = "object") then
            attrs ← match x with
              | VMap m => mapR (λ p, t ← at_path p.1 (parseCtyType p.2); Ok (p.1, t)) m
              | VNull => Ok []
              | _ => Err ErrCtyAttrs
              end;
            optional ← match rest with
              | [] => Ok []
              | o :: _ => match as_strings o with Some l => Ok l | None => Err ErrCtyAttrs end
              end;
            Ok (TObject attrs optional)
          else if decide (kind = "tuple") then
            ts ← match x with
              | VList l => mapR parseCtyType l
              | VNull => Ok []
              | _ => Err ErrCtyAttrs
              end;
            Ok (TTuple ts)
          else Err (ErrUnknownComposite kind)
      end
  | VList _ => Err ErrCtyShort
  | _ => Err ErrNotCtyType
  end.

(** ** Schemas *)

Inductive nesting : Type := NSingle | NGroup | NList | NSet | NMap | NInvalid.
#[export] Instance nesting_eq_dec : EqDecision nesting.
Proof. solve_decision. Defined.

(** An attribute: its type as a document ([None]: no JSON), or a nested object. *)
Inductive attribute : Type :=
| MkAttribute (name : string) (typ : option value) (nested : option (list attribute * nesting))
    (description : string) (required optional computed sensitive : bool).
Inductive block : Type :=
| MkBlock (attributes : list attribute) (types : list nested_block) (description : string)
with nested_block : Type :=
| MkNestedBlock (typeName : string) (inner : option block) (mode : nesting) (minItems : Z).
Record Schema : Type := MkSchema { sc_version : Z; sc_block : option block }.

Definition at_name (a : attribute) : string := match a with MkAttribute n _ _ _ _ _ _ _ => n end.
Definition at_typ (a : attribute) : option value := match a with MkAttribute _ t _ _ _ _ _ _ => t end.
Definition at_required (a : attribute) : bool := match a with MkAttribute _ _ _ _ r _ _ _ => r end.
Definition at_optional (a : attribute) : bool := match a with MkAttribute _ _ _ _ _ o _ _ => o end.
Definition at_computed (a : attribute) : bool := match a with MkAttribute _ _ _ _ _ _ c _ => c end.
Definition at_sensitive (a : attribute) : bool := match a with MkAttribute _ _ _ _ _ _ _ s => s end.

(** The bytes of a type, parsed. *)
Definition parse_typ (t : option value) : result tf_error tftype :=
  match t with Some d => parseCtyType d | None => Err ErrNotCtyType end.

Record AttrInfo : Type := MkAttrInfo {
  ai_Name : string; ai_Type : tftype; ai_Required : bool; ai_Optional : bool; ai_Computed : bool; ai_Sensitive : bool }.

Definition attr_info (a : attribute) : result tf_error AttrInfo :=
  t ← at_path (at_name a) (parse_typ (at_typ a));
  Ok (MkAttrInfo (at_name a) t (at_required a) (at_optional a) (at_computed a) (at_sensitive a)).
Definition info_le (a b : AttrInfo) : Prop := String.le (ai_Name a) (ai_Name b).
#[export] Instance info_le_dec : RelDecision info_le.
Proof. intros a b. unfold info_le. apply _. Defined.

Definition SchemaAttributes (s : option Schema) : result tf_error (list AttrInfo) :=
  match s ≫= sc_block with
  | None => Err ErrNoBlock
  | Some (MkBlock attrs _ _) => l ← mapR attr_info attrs; Ok (merge_sort info_le l)
  end.
Definition ObjectTypeForSchema (s : option Schema) : result tf_error tftype :=
  attrs ← SchemaAttributes s;
  Ok (TObject (map (λ a, (ai_Name a, ai_Type a)) attrs) (map ai_Name (filter (λ a, ai_Optional a || ai_Computed a = true) attrs))).
(** [ResourceSchema] *)
Definition ResourceSchema (schemas : list (string * Schema)) (resourceType : string) : option Schema := assoc resourceType schemas.

(** ** The implied type (values.go) *)

Definition wrapNesting (mode : nesting) (t : tftype) : result tf_error tftype :=
  match mode with
  | NSingle | NGroup => Ok t
  | NList => Ok (TList t)
  | NSet => Ok (TSet t)
  | NMap => Ok (TMap t)
  | NInvalid => Err ErrNesting
  end.
Definition wrapObject (mode : nesting) (t : tftype) : result tf_error tftype :=
  match mode with NGroup => Err ErrNesting | _ => wrapNesting mode t end.

(** [attributeType] and [nestedObjectType] *)
Fixpoint attributeType (a : attribute) : result tf_error tftype :=
  match a with
  | MkAttribute _ _ (Some (attrs, mode)) _ _ _ _ _ =>
      ts ← mapR (λ b, t ← at_path (at_name b) (attributeType b); Ok (at_name b, t)) attrs;
      wrapObject mode (TObject ts [])
  | MkAttribute _ t None _ _ _ _ _ => parse_typ t
  end.

Definition put_types (l m : list (string * tftype)) : list (string * tftype) := fold_left (λ m p, assoc_set p.1 p.2 m) l m.
Fixpoint blockType (b : block) : result tf_error tftype :=
  match b with
  | MkBlock attrs types _ =>
      ts ← mapR (λ a, t ← at_path (at_name a) (attributeType a); Ok (at_name a, t)) attrs;
      bs ← mapR nestedType types;
      Ok (TObject (put_types bs (put_types ts [])) [])
  end
with nestedType (n : nested_block) : result tf_error (string * tftype) :=
  match n with
  | MkNestedBlock name inner mode _ =>
      t ← at_path name (match inner with Some b => blockType b | None => Ok (TObject [] []) end);
      w ← at_path name (wrapNesting mode t);
      Ok (name, w)
  end.
Definition schemaType (s : Schema) : result tf_error tftype :=
  match sc_block s with Some b => blockType b | None => Ok (TObject [] []) end.

(** ** From a spec to a value, and back *)

Definition toFloat (raw : value) : result tf_error spec_float :=
  match raw with VFloat f => Ok f | VInt z => Ok (f64_of_Z z) | _ => Err (ErrExpected "number") end.
(** [big.NewFloat] *)
Definition NewFloat (f : spec_float) : result tf_error spec_float := match f with S754_nan => Err PanicNaN | _ => Ok f end.
Definition asStringMap (raw : value) : result tf_error gomap :=
  match raw with VMap m => Ok m | _ => Err (ErrExpected "object/map") end.
Definition as_slice (what : string) (raw : value) : result tf_error (list value) :=
  match raw with VList l => Ok l | _ => Err (ErrExpected what) end.

(** The loop over a slice, with the index in the error. *)
Definition mapI {A B} (f : A → result tf_error B) : nat → list A → result tf_error (list B) :=
  fix go i l :=
    match l with
    | [] => Ok []
    | x :: l' => y ← map_err (ErrIndexAt i) (f x); ys ← go (S i) l'; Ok (y :: ys)
    end.

(** [goToValue]; [nil] is [VNull]. *)
Fixpoint goToValue (typ : tftype) (raw : value) {struct typ} : result tf_error tval :=
  if decide (raw = VNull) then Ok (TVNull typ)
  else
    match typ with
    | TObject attrs _ =>
        m ← asStringMap raw;
        vals ← mapR (λ p : string * tftype, v ← at_path p.1 (goToValue p.2 (default VNull (assoc p.1 m))); Ok (p.1, v)) attrs;
        Ok (TVMap typ vals)
    | TMap e =>
        m ← asStringMap raw;
        vals ← mapR (λ p : string * value, v ← at_path p.1 (goToValue e p.2); Ok (p.1, v)) m;
        Ok (TVMap typ vals)
    | TList e | TSet e =>
        l ← as_slice "list/set" raw;
        vals ← mapI (goToValue e) 0 l;
        Ok (TVList typ vals)
    | TTuple ts =>
        l ← as_slice "tuple/list" raw;
        if decide (length l ≠ length ts) then Err (ErrArity (length l) (length ts))
        else
          vals ← (fix go i ts l := match ts, l with
                  | t :: ts, x :: l => y ← map_err (ErrIndexAt i) (goToValue t x); ys ← go (S i) ts l; Ok (y :: ys)
                  | _, _ => Ok []
                  end) 0 ts l;
          Ok (TVList typ vals)
    | TString => match raw with VStr s => Ok (TVStr s) | _ => Err (ErrExpected "string") end
    | TBool => match raw with VBool b => Ok (TVBool b) | _ => Err (ErrExpected "bool") end
    | TNumber => f ← toFloat raw; n ← NewFloat f; Ok (TVNum n)
    | TDynamic => Err ErrUnsupportedType
    end.

(** [big.Float.Float64]: rounded to the nearest. *)
Definition to_f64 (f : spec_float) : spec_float :=
  match f with S754_finite s m e => binary_normalize f64_prec f64_emax (if s then Zneg m else Zpos m) e s | _ => f end.

Fixpoint valueToGo (v : tval) : value :=
  match v with
  | TVNull _ | TVUnknown _ => VNull
  | TVStr s => VStr s
  | TVBool b => VBool b
  | TVNum f => VFloat (to_f64 f)
  | TVList _ l => VList (map valueToGo l)
  | TVMap _ m => VMap (map (λ p, (p.1, valueToGo p.2)) m)
  end.

(** ** On the wire *)

(** [DynamicValue]: the two encodings. *)
Record DynamicValue : Type := MkDynamicValue { dv_Msgpack : string; dv_Json : string }.
#[export] Instance DynamicValue_eq_dec : EqDecision DynamicValue.
Proof. solve_decision. Defined.

(** terraform-plugin-go's [NewDynamicValue] and [DynamicValue.Unmarshal]. *)
Class TfCodec : Type := { tf_encode : tftype → tval → option DynamicValue; tf_decode : tftype → DynamicValue → option tval }.

Section codec.
Context `{TfCodec}.

Definition encodeConfig (schema : option Schema) (spec : gomap) : result tf_error DynamicValue :=
  match schema with
  | None => Err ErrNoBlock
  | Some s =>
      typ ← schemaType s;
      val ← goToValue typ (VMap spec);
      match tf_encode typ val with Some dv => Ok dv | None => Err ErrCodec end
  end.

(** [decodeState]; [None] for a null or absent value. *)
Definition decodeState (schema : option Schema) (dv : option DynamicValue) : result tf_error (option gomap) :=
  match schema with
  | None => Err ErrNoBlock
  | Some s =>
      match dv with
      | None => Ok None
      | Some dv =>
          if decide (dv_Msgpack dv = "" ∧ dv_Json dv = "") then Ok None
          else
            typ ← schemaType s;
            match tf_decode typ dv with
            | None => Err ErrCodec
            | Some v => match valueToGo v with VNull => Ok None | VMap m => Ok (Some m) | _ => Err (ErrExpected "object") end
            end
      end
  end.
End codec.

(** ** Values of a type *)

Section tftype_ind.
Context (P : tftype → Prop).
Context (Hstr : P TString) (Hnum : P TNumber) (Hbool : P TBool) (Hdyn : P TDynamic).
Context (Hlist : ∀ e, P e → P (TList e)) (Hset : ∀ e, P e → P (TSet e)) (Hmap : ∀ e, P e → P (TMap e)).
Context (Hobj : ∀ attrs opt, Forall (λ p, P p.2) attrs → P (TObject attrs opt)) (Htup : ∀ ts, Forall P ts → P (TTuple ts)).

(** Induction through the nested lists. *)
Fixpoint tftype_ind' (t : tftype) : P t :=
  match t with
  | TString => Hstr
  | TNumber => Hnum
  | TBool => Hbool
  | TDynamic => Hdyn
  | TList e => Hlist e (tftype_ind' e)
  | TSet e => Hset e (tftype_ind' e)
  | TMap e => Hmap e (tftype_ind' e)
  | TObject attrs opt =>
      Hobj attrs opt ((fix go l : Forall (λ p : string * tftype, P p.2) l :=
        match l with [] => Forall_nil_2 _ | p :: l' => Forall_cons_2 _ p l' (tftype_ind' p.2) (go l') end) attrs)
  | TTuple ts =>
      Htup ts ((fix go l : Forall P l :=
        match l with [] => Forall_nil_2 _ | x :: l' => Forall_cons_2 _ x l' (tftype_ind' x) (go l') end) ts)
  end.
End tftype_ind.

(** A value of a type, as tftypes.NewValue insists on: an object has its attributes,
    each null or of its type. *)
Fixpoint of_type (t : tftype) (v : tval) {struct t} : Prop :=
  v = TVNull t ∨
  match t with
  | TString => ∃ s, v = TVStr s
  | TNumber => ∃ f, v = TVNum f ∧ f ≠ S754_nan
  | TBool => ∃ b, v = TVBool b
  | TDynamic => False
  | TList e | TSet e => ∃ l, v = TVList t l ∧ Forall (of_type e) l
  | TMap e => ∃ m, v = TVMap t m ∧ Forall (λ p, of_type e p.2) m
  | TObject attrs _ => ∃ m, v = TVMap t m ∧
      (fix go (ts : list (string * tftype)) (m : list (string * tval)) : Prop :=
         match ts, m with
         | [], [] => True
         | (n, t') :: ts, (n', v') :: m => n' = n ∧ of_type t' v' ∧ go ts m
         | _, _ => False
         end) attrs m
  | TTuple ts => ∃ l, v = TVList t l ∧
      (fix go (ts : list tftype) (l : list tval) : Prop :=
         match ts, l with
         | [], [] => True
         | t' :: ts, v' :: l => of_type t' v' ∧ go ts l
         | _, _ => False
         end) ts l
  end.

(** A number of a spec, as a float64: any but NaN. *)
Definition number (raw got : value) : Prop :=
  match raw with
  | VInt z => got = VFloat (f64_of_Z z)
  | VFloat f => f ≠ S754_nan ∧ (is_f64 f → got = raw)
  | _ => False
  end.
(** What a spec may hold for a type, and what is read back of it: strings and flags as
    they are, numbers as float64, of an object its attributes (null where the spec has
    none), and nothing else. *)
Fixpoint agrees (t : tftype) (raw got : value) {struct t} : Prop :=
  (raw = VNull ∧ got = VNull) ∨
  match t with
  | TString => ∃ s, raw = VStr s ∧ got = raw
  | TBool => ∃ b, raw = VBool b ∧ got = raw
  | TNumber => number raw got
  | TDynamic => False
  | TList e | TSet e => ∃ l l', raw = VList l ∧ got = VList l' ∧ Forall2 (agrees e) l l'
  | TMap e => ∃ m m', raw = VMap m ∧ got = VMap m' ∧ Forall2 (λ p q, q.1 = p.1 ∧ agrees e p.2 q.2) m m'
  | TObject attrs _ => ∃ m m', raw = VMap m ∧ got = VMap m' ∧ m'.*1 = attrs.*1 ∧
      (fix go (ts : list (string * tftype)) (m' : gomap) : Prop :=
         match ts, m' with
         | (n, t') :: ts, (_, v') :: m' => agrees t' (default VNull (assoc n m)) v' ∧ go ts m'
         | _, _ => True
         end) attrs m'
  | TTuple ts => ∃ l l', raw = VList l ∧ got = VList l' ∧
      (fix go (ts : list tftype) (l l' : list value) : Prop :=
         match ts, l, l' with
         | [], [], [] => True
         | t' :: ts, x :: l, y :: l' => agrees t' x y ∧ go ts l l'
         | _, _, _ => False
         end) ts l l'
  end.

Lemma at_path_Ok {A B} name (r : result tf_error A) (f : A → B) q : (v ← at_path name r; Ok (f v)) = Ok q → ∃ v, r = Ok v ∧ q = f v.
Proof. destruct r as [v|e]; [|done]. intros [= <-]. by exists v. Qed.
Lemma mapI_Ok {A B} (f : A → result tf_error B) i l ys : mapI f i l = Ok ys → Forall2 (λ x y, f x = Ok y) l ys.
Proof.
  revert i ys. induction l as [|x l IH]; intros i ys; simpl; [by intros [= <-]|].
  destruct (f x) as [y|e] eqn:Hx; [|done]. simpl. destruct (mapI f (S i) l) as [zs|e] eqn:Hl; [|done].
  intros [= <-]. constructor; [done|]. by apply (IH (S i)).
Qed.

Lemma to_f64_is f : is_f64 f → to_f64 f = f.
Proof. destruct f; [done..|apply round_is_f64]. Qed.
(** Whether a spec holds a NaN. *)
Fixpoint has_nan (v : value) : bool :=
  match v with
  | VFloat S754_nan => true
  | VList l => existsb has_nan l
  | VMap m => existsb (λ p, has_nan p.2) m
  | _ => false
  end.

(** What an accepted spec becomes: a value of the type, which reads back as the spec. A
    spec is refused if it is none of the type; only a NaN ends the process. *)
Definition faithful_value (t : tftype) (raw : value) (v : tval) : Prop := of_type t v ∧ agrees t raw (valueToGo v).
Definition refused (t : tftype) (raw : value) (e : tf_error) : Prop := (∀ got, ¬ agrees t raw got) ∧ (panics e = true → has_nan raw = true).
Definition settles (t : tftype) (raw : value) : Prop :=
  match goToValue t raw with Ok v => faithful_value t raw v | Err e => refused t raw e end.

Lemma settles_Ok t raw v : settles t raw → goToValue t raw = Ok v → faithful_value t raw v.
Proof. unfold settles. by intros H E; rewrite E in H. Qed.
Lemma settles_Err t raw e : settles t raw → goToValue t raw = Err e → refused t raw e.
Proof. unfold settles. by intros H E; rewrite E in H. Qed.

Lemma mapI_Err {A B} (f : A → result tf_error B) i l e : mapI f i l = Err e → ∃ x e', x ∈ l ∧ f x = Err e' ∧ panics e = panics e'.
Proof.
  revert i. induction l as [|x l IH]; intros i; simpl; [done|]. destruct (f x) as [y|e'] eqn:Hx; simpl.
  - destruct (mapI f (S i) l) as [ys|e'] eqn:Hl; [done|]. intros [= <-]. destruct (IH (S i) Hl) as (z & e2 & Hz & Hr). exists z, e2. split; [by right|done].
  - intros [= <-]. exists x, e'. split; [left|done].
Qed.
(** The loops over named parts. *)
Lemma mapR_parts {A} (f : string * A → result tf_error tval) l r :
  mapR (λ p, v ← at_path p.1 (f p); Ok (p.1, v)) l = r →
  match r with
  | Ok ys => Forall2 (λ p q, q.1 = p.1 ∧ f p = Ok q.2) l ys
  | Err e => ∃ p e', p ∈ l ∧ f p = Err e' ∧ panics e = panics e'
  end.
Proof.
  destruct r as [ys|e].
  - intros H%mapR_Ok. eapply Forall2_impl; [exact H|]. intros p q Hpq. by apply at_path_Ok in Hpq as (v & -> & ->).
  - intros (p & Hp & He)%mapR_Err. destruct (f p) as [v|e'] eqn:Hf; [done|]. injection He as <-. by exists p, e'.
Qed.
Lemma list_nan x l : x ∈ l → has_nan x = true → has_nan (VList l) = true.
Proof. intros Hx Hn. apply existsb_exists. exists x. by rewrite <- list_elem_of_In. Qed.
Lemma map_nan n x m : (n, x) ∈ m → has_nan x = true → has_nan (VMap m) = true.
Proof. intros Hx Hn. apply existsb_exists. exists (n, x). by rewrite <- list_elem_of_In. Qed.

Lemma list_faithful e l ys : (∀ raw, settles e raw) → Forall2 (λ x y, goToValue e x = Ok y) l ys →
  Forall (of_type e) ys ∧ Forall2 (agrees e) l (map valueToGo ys).
Proof.
  intros IH H. split.
  - apply Forall_forall. intros y Hy. apply list_elem_of_lookup in Hy as [i Hi]. eapply Forall2_lookup_r in H as (x & _ & Hx); [|exact Hi].
    by destruct (settles_Ok e x y (IH x) Hx).
  - apply Forall2_fmap_r. eapply Forall2_impl; [exact H|]. intros x y Hx. by destruct (settles_Ok e x y (IH x) Hx).
Qed.
Lemma list_settles t e raw : t = TList e ∨ t = TSet e → (∀ raw, settles e raw) → raw ≠ VNull → settles t raw.
Proof.
  intros Ht IH Hn. unfold settles. assert (goToValue t raw = (l ← as_slice "list/set" raw; vals ← mapI (goToValue e) 0 l; Ok (TVList t vals))) as ->.
  { destruct Ht as [-> | ->]; simpl; by rewrite decide_False. }
  assert (∀ got, agrees t raw got ↔ ∃ l l', raw = VList l ∧ got = VList l' ∧ Forall2 (agrees e) l l') as Hag.
  { intros got. destruct Ht as [-> | ->]; simpl; naive_solver. }
  destruct raw as [ | | | | |l|]; try done; try (split; [intros got (? & ? & ? & _)%Hag|]; done). simpl.
  destruct (mapI (goToValue e) 0 l) as [ys|er] eqn:Hl; simpl.
  - apply mapI_Ok in Hl. destruct (list_faithful e l ys IH Hl) as [Hy Ha]. split; [|apply Hag; by eexists _, _].
    destruct Ht as [-> | ->]; right; by eexists.
  - apply mapI_Err in Hl as (x & e' & Hx & He & Hp). destruct (settles_Err e x e' (IH x) He) as [Hno Hnan]. split.
    + intros got (l1 & l' & [= <-] & -> & Hf)%Hag. apply list_elem_of_lookup in Hx as [i Hi]. eapply Forall2_lookup_l in Hf as (y & _ & Hy); [|exact Hi].
      by apply (Hno y).
    + rewrite Hp. intros Hpan. eapply list_nan; [exact Hx|by apply Hnan].
Qed.

Lemma map_settles e m : (∀ raw, settles e raw) → settles (TMap e) (VMap m).
Proof.
  intros IH. unfold settles. simpl. destruct (mapR _ m) as [ys|er] eqn:Hm; apply (mapR_parts (λ p, goToValue e p.2)) in Hm; simpl.
  - split; right.
    + exists ys. split; [done|]. apply Forall_forall. intros y Hy. apply list_elem_of_lookup in Hy as [i Hi].
      eapply Forall2_lookup_r in Hm as (x & _ & _ & Hx); [|exact Hi]. by destruct (settles_Ok e x.2 y.2 (IH _) Hx).
    + eexists _, _. split; [done|]. split; [done|]. apply Forall2_fmap_r. eapply Forall2_impl; [exact Hm|]. intros p q [Hp Hq].
      split; [done|]. by destruct (settles_Ok e p.2 q.2 (IH _) Hq).
  - destruct Hm as ([n x] & e' & Hx & He & Hp). destruct (settles_Err e x e' (IH x) He) as [Hno Hnan]. split.
    + intros got [[? _]|(m1 & m' & [= <-] & -> & Hf)]; [done|]. apply list_elem_of_lookup in Hx as [i Hi].
      eapply Forall2_lookup_l in Hf as (y & _ & _ & Hy); [|exact Hi]. by apply (Hno y.2).
    + rewrite Hp. intros Hpan. eapply map_nan; [exact Hx|by apply Hnan].
Qed.

(** The attributes of an object, one by one. *)
Definition attrs_agree (m : gomap) : list (string * tftype) → gomap → Prop :=
  fix go ts m' :=
    match ts, m' with
    | (n, t') :: ts, (_, v') :: m' => agrees t' (default VNull (assoc n m)) v' ∧ go ts m'
    | _, _ => True
    end.
Lemma attrs_agree_in m ts m' n t : attrs_agree m ts m' → m'.*1 = ts.*1 → (n, t) ∈ ts → ∃ v, agrees t (default VNull (assoc n m)) v.
Proof.
  revert m'. induction ts as [|[n' t'] ts IH]; intros [|[k v] m'] Ha Hk Hin; try done; [by apply elem_of_nil in Hin|].
  destruct Ha as [Hv Ha]. injection Hk as _ Hk. apply elem_of_cons in Hin as [[= -> ->]|Hin]; [by exists v|by apply (IH m')].
Qed.
Lemma object_settles attrs opt m : Forall (λ p : string * tftype, ∀ raw, settles p.2 raw) attrs → settles (TObject attrs opt) (VMap m).
Proof.
  intros IH. unfold settles. simpl. destruct (mapR _ attrs) as [ys|er] eqn:Hm;
    apply (mapR_parts (λ p, goToValue p.2 (default VNull (assoc p.1 m)))) in Hm; simpl.
  - assert (Forall2 (λ p q, q.1 = p.1 ∧ faithful_value p.2 (default VNull (assoc p.1 m)) q.2) attrs ys) as H'.
    { induction Hm as [|p q attrs ys [Hp Hq] _ IHl]; [constructor|]. apply Forall_cons in IH as [Hs IH]. constructor; [|by apply IHl].
      split; [done|]. by apply settles_Ok. }
    clear Hm IH. split; right.
    + exists ys. split; [done|]. induction H' as [|[n t'] [n' v'] attrs ys [Hn [Hv _]] _ IH]; [done|]. by split_and!.
    + eexists _, _. split; [done|]. split; [done|]. split.
      { induction H' as [|[n t'] [n' v'] attrs ys [Hn _] _ IH]; [done|]. simpl in *. by f_equal. }
      induction H' as [|[n t'] [n' v'] attrs ys [Hn [_ Hv]] _ IH]; [done|]. by split.
  - destruct Hm as ([n t] & e' & Hx & He & Hp). rewrite Forall_forall in IH. destruct (settles_Err _ _ _ (IH _ Hx _) He) as [Hno Hnan]. split.
    + intros got [[? _]|(m1 & m' & [= <-] & -> & Hk & Hf)]; [done|]. destruct (attrs_agree_in m attrs m' n t Hf Hk Hx) as [v Hv]. by apply (Hno v).
    + rewrite Hp. intros Hpan. specialize (Hnan Hpan). simpl in Hnan. destruct (assoc n m) as [x|] eqn:Ha; [|done].
      eapply map_nan; [by apply assoc_elem|exact Hnan].
Qed.

(** An attribute that the type does not have makes no difference. *)
Lemma object_drops attrs opt (m : gomap) n x : n ∉ attrs.*1 → goToValue (TObject attrs opt) (VMap (m ++ [(n, x)])) = goToValue (TObject attrs opt) (VMap m).
Proof.
  intros Hn. simpl. rewrite (mapR_ext _ (λ p, v ← at_path p.1 (goToValue p.2 (default VNull (assoc p.1 m))); Ok (p.1, v))); [done|].
  apply Forall_forall. intros [n' t'] Hin. simpl. assert (assoc n' (m ++ [(n, x)]) = assoc n' m) as ->; [|done].
  assert (n' ≠ n) as Hne. { intros ->. apply Hn. by apply (list_elem_of_fmap_2 fst) in Hin. }
  induction m as [|[k v] m IH]; simpl; [by rewrite decide_False|]. by rewrite IH.
Qed.

(** The elements of a tuple. *)
Definition tuple_go : nat → list tftype → list value → result tf_error (list tval) :=
  fix go i ts l :=
    match ts, l with
    | t :: ts, x :: l => y ← map_err (ErrIndexAt i) (goToValue t x); ys ← go (S i) ts l; Ok (y :: ys)
    | _, _ => Ok []
    end.
Fixpoint tuple_type (ts : list tftype) (l : list tval) : Prop :=
  match ts, l with
  | [], [] => True
  | t' :: ts, v' :: l => of_type t' v' ∧ tuple_type ts l
  | _, _ => False
  end.
Fixpoint tuple_agree (ts : list tftype) (l l' : list value) : Prop :=
  match ts, l, l' with
  | [], [], [] => True
  | t' :: ts, x :: l, y :: l' => agrees t' x y ∧ tuple_agree ts l l'
  | _, _, _ => False
  end.
Lemma tuple_go_settles ts l i : Forall (λ t, ∀ raw, settles t raw) ts → length l = length ts →
  match tuple_go i ts l with
  | Ok ys => tuple_type ts ys ∧ tuple_agree ts l (map valueToGo ys)
  | Err e => (∀ l', ¬ tuple_agree ts l l') ∧ (panics e = true → has_nan (VList l) = true)
  end.
Proof.
  intros IH. revert l i. induction IH as [|t ts Ht _ IH]; intros [|x l] i Hlen; try done. simpl.
  specialize (Ht x). unfold settles in Ht. destruct (goToValue t x) as [y|e]; simpl; destruct Ht as [H1 H2].
  - specialize (IH l (S i)). destruct (tuple_go (S i) ts l) as [ys|e]; simpl in *; destruct IH as [H3 H4]; [by injection Hlen|done|by injection Hlen|].
    split; [intros [|y' l'] Ha; [done|by apply (H3 l'), Ha]|]. intros Hp. rewrite (H4 Hp). apply orb_true_r.
  - split; [intros [|y' l'] Ha; [done|by apply (H1 y'), Ha]|]. intros Hp. by rewrite (H2 Hp).
Qed.
Lemma tuple_agree_length ts l l' : tuple_agree ts l l' → length l = length ts.
Proof. revert l l'. induction ts as [|t ts IH]; intros [|x l] [|y l']; simpl; try done. intros [_ H]. f_equal. by eapply IH. Qed.
Lemma tuple_settles ts l : Forall (λ t, ∀ raw, settles t raw) ts → settles (TTuple ts) (VList l).
Proof.
  intros IH. unfold settles, refused, faithful_value. cbn [goToValue]. rewrite decide_False by done. cbn [as_slice mbind result_bind].
  change (agrees (TTuple ts) (VList l)) with (λ got, (VList l = VNull ∧ got = VNull) ∨ ∃ l1 l', VList l = VList l1 ∧ got = VList l' ∧ tuple_agree ts l1 l').
  change (of_type (TTuple ts)) with (λ v, v = TVNull (TTuple ts) ∨ ∃ l, v = TVList (TTuple ts) l ∧ tuple_type ts l). cbv beta.
  case_decide as Hlen.
  { split; [|done]. intros got [[? _]|(l1 & l' & [= <-] & -> & Hf)]; [done|]. by apply tuple_agree_length in Hf. }
  pose proof (tuple_go_settles ts l 0 IH Hlen) as H. fold (tuple_go 0 ts l).
  destruct (tuple_go 0 ts l) as [ys|e]; simpl; destruct H as [H1 H2].
  - split; right; [by eexists|by eexists _, _].
  - split; [|done]. intros got [[? _]|(l1 & l' & [= <-] & -> & Hf)]; [done|]. by apply (H1 l').
Qed.

Lemma number_settles raw : raw ≠ VNull → settles TNumber raw.
Proof.
  intros Hn. unfold settles, refused, faithful_value. cbn [goToValue]. rewrite decide_False by done.
  destruct raw as [ |b|z|f|s|l|m]; try done; try (split; [intros got [[? _]|?]|]; done); simpl.
  - pose proof (f64_of_Z_number z) as Hz. assert (NewFloat (f64_of_Z z) = Ok (f64_of_Z z)) as -> by (by destruct (f64_of_Z z)). simpl.
    split; right; [by eexists|]. by rewrite to_f64_is by apply f64_of_Z_valid.
  - destruct (decide (f = S754_nan)) as [->|Hf].
    { split; [|done]. intros got [[? _]|[? _]]; done. }
    assert (NewFloat f = Ok f) as -> by (by destruct f). split; right; [by eexists|]. split; [done|]. intros H. simpl. by rewrite to_f64_is.
Qed.

(** Every spec settles. *)
Lemma goToValue_settles t raw : settles t raw.
Proof.
  revert raw. induction t as [ | | | |e IH|e IH|e IH|attrs opt IH|ts IH] using tftype_ind'; intros raw.
  all: destruct (decide (raw = VNull)) as [->|Hn]; [split; by left|].
  - destruct raw; try done; unfold settles; simpl; try (split; [by intros got [[? _]|(? & ? & _)]|]; done). split; right; by eexists.
  - by apply number_settles.
  - destruct raw; try done; unfold settles; simpl; try (split; [by intros got [[? _]|(? & ? & _)]|]; done). split; right; by eexists.
  - unfold settles. cbn [goToValue]. rewrite decide_False by done. split; [|done]. by intros got [[? _]|?].
  - eapply list_settles; [by left|done..].
  - eapply list_settles; [by right|done..].
  - destruct raw; try done; first [by apply map_settles|split; [by intros got [[? _]|(? & ? & ? & _)]|done]].
  - destruct raw; try done; first [by apply object_settles|split; [by intros got [[? _]|(? & ? & ? & _)]|done]].
  - destruct raw; try done; first [by apply tuple_settles|split; [by intros got [[? _]|(? & ? & ? & _)]|done]].
Qed.

(** C40: what a spec becomes on its way to a Terraform provider and back. A spec is
    accepted exactly when it holds, for the type that the schema implies, null or what
    the type asks for: a string, a flag, a number but NaN, a list or a map of such
    elements, as many elements as a tuple has, or an object whose attributes are absent
    or fit. What it becomes is a value of that type, which reads back as the spec: strings
    and flags unchanged, numbers as the nearest float64, absent attributes as null, lists
    and maps element by element; attributes that the type does not have are dropped
    without an error. Any other spec is refused, or ends the process, which
    only one with a NaN in it does. *)
Theorem goToValue_faithful t raw :
  match goToValue t raw with
  | Ok v => of_type t v ∧ agrees t raw (valueToGo v)
  | Err e => (∀ got, ¬ agrees t raw got) ∧ (panics e = true → has_nan raw = true)
  end ∧
  ∀ attrs opt m n x, n ∉ attrs.*1 → goToValue (TObject attrs opt) (VMap (m ++ [(n, x)])) = goToValue (TObject attrs opt) (VMap m).
Proof.
  split; [exact (goToValue_settles t raw)|]. intros attrs opt m n x Hn. by apply object_drops.
Qed.

Definition ex_tftype : tftype :=
  TObject [("name", TString); ("disks", TList (TObject [("gb", TNumber); ("label", TString)] [])); ("tags", TMap TString); ("note", TString)] [].
Definition ex_tfspec : value :=
  VMap [("name", VStr "web"); ("disks", VList [VMap [("gb", VInt 8)]]); ("tags", VMap [("env", VStr "lab")]); ("nmae", VStr "typo")].
Definition ex_tfvalue : tval := ok_or (goToValue ex_tftype ex_tfspec) (TVNull TString).

Lemma goToValue_faithful_witness :
  of_type ex_tftype ex_tfvalue ∧ agrees ex_tftype ex_tfspec (valueToGo ex_tfvalue) ∧
  valueToGo ex_tfvalue =
    VMap [("name", VStr "web"); ("disks", VList [VMap [("gb", VFloat (f64_of_Z 8)); ("label", VNull)]]); ("tags", VMap [("env", VStr "lab")]); ("note", VNull)].
Proof.
  destruct (goToValue_faithful ex_tftype ex_tfspec) as [H _].
  assert (goToValue ex_tftype ex_tfspec = Ok ex_tfvalue) as E by (vm_compute; reflexivity). rewrite E in H. destruct H as [Ht Ha].
  split; [exact Ht|]. split; [exact Ha|]. vm_compute. reflexivity.
Defined.

(** A NaN ends the process, wherever a number is asked for. *)
Lemma nan_panics :
  goToValue ex_tftype (VMap [("disks", VList [VMap [("gb", VFloat S754_nan)]])]) = Err (ErrPathAt "disks" (ErrIndexAt 0 (ErrPathAt "gb" PanicNaN))).
Proof. vm_compute. reflexivity. Qed.
