(* ===== verification/TfSchema.v ===== *)
(** The CUE schema of a Terraform resource: schema_cue.go of
    src/internal/controller/providers/tfhost. The text that is registered for a kind;
    CUE itself is not modelled. *)
From Stdlib Require Import Ascii.
From S2P Require Import Prelude GoStrings GoValue TfTypes.

Definition nl : string := String "010"%char "".
Definition tab : string := String "009"%char "".

Definition tabs (n : nat) : string := join "" (replicate n tab).
(** [isComputedOnly] *)
Definition isComputedOnly (a : attribute) : bool := at_computed a && negb (at_optional a) && negb (at_required a).

Record cueField : Type := MkCueField { cf_name : string; cf_optional : bool; cf_expr : string; cf_description : string }.
Definition field_le (a b : cueField) : Prop := String.le (cf_name a) (cf_name b).
#[export] Instance field_le_dec : RelDecision field_le.
Proof. intros a b. unfold field_le. apply _. Defined.

Section cue.
(** [strconv.Quote] *)
Context (Quote : string → string).

Definition cueLabel (name : string) : string := Quote name.
Definition writeDescription (desc : string) (indent : nat) : string :=
  let desc := trim_space desc in
  if decide (desc = "") then ""
  else join "" (map (λ l, tabs indent +:+ "// " +:+ replace_all (String "013"%char "") " " l +:+ nl)
                  (filter (λ l, l ≠ "") (map trim_space (split_on "010"%char desc)))).

(** A struct of fields, and what the code writes for each. *)
Definition write_field (indent : nat) (f : cueField) : string :=
  writeDescription (cf_description f) indent +:+ tabs indent +:+ cueLabel (cf_name f) +:+ (if cf_optional f then "?" else "")
  +:+ ": " +:+ cf_expr f +:+ nl.
Definition write_struct (indent : nat) (fields : list cueField) : string :=
  "{" +:+ nl +:+ join "" (map (write_field indent) (merge_sort field_le fields)) +:+ tabs (indent - 1) +:+ "}".

(** [cueType] and [cueObjectType] *)
Definition wrap_list (expr : string) : string := "[..." +:+ expr +:+ "]".
Definition wrap_map (expr : string) : string := "{[string]: " +:+ expr +:+ "}".
Fixpoint cueType (t : tftype) (indent : nat) : string :=
  match t with
  | TDynamic => "_"
  | TString => "string"
  | TNumber => "number"
  | TBool => "bool"
  | TList e | TSet e => wrap_list (cueType e indent)
  | TMap e => wrap_map (cueType e indent)
  | TTuple ts => "[" +:+ join ", " (map (λ e, cueType e indent) ts) +:+ "]"
  | TObject attrs optional =>
      write_struct indent (map (λ p, MkCueField p.1 (bool_decide (p.1 ∈ optional)) (cueType p.2 (S indent)) "") attrs)
  end.

Definition wrapNestedObject (expr : string) (mode : nesting) : string :=
  match mode with NList | NSet => wrap_list expr | NMap => wrap_map expr | _ => expr end.
Definition wrapBlock (expr : string) (mode : nesting) : string :=
  match mode with NSingle | NGroup => expr | NList | NSet => wrap_list expr | NMap => wrap_map expr | NInvalid => "_" end.
Definition empty_block (indent : nat) : string := "{" +:+ nl +:+ tabs indent +:+ "... " +:+ nl +:+ tabs (indent - 1) +:+ "}".

(** The loop over attributes: those that are only computed have no field. *)
Definition somes {A} : list (option A) → list A := omap id.
Definition at_description (a : attribute) : string := match a with MkAttribute _ _ _ d _ _ _ _ => d end.
Definition attr_fields (typ : attribute → result tf_error string) (attrs : list attribute) : result tf_error (list cueField) :=
  l ← mapR (λ a : attribute, (
        if decide (at_name a = "" ∨ isComputedOnly a = true) then Ok None
        else e ← at_path (at_name a) (typ a); Ok (Some (MkCueField (at_name a) (negb (at_required a)) e (at_description a)))) : result tf_error (option cueField)) attrs;
  Ok (somes l).

(** [attributeCueType] and [objectCue] *)
Fixpoint attributeCueType (a : attribute) (indent : nat) : result tf_error string :=
  match a with
  | MkAttribute _ _ (Some (attrs, mode)) _ _ _ _ _ =>
      fields ← attr_fields (λ b, attributeCueType b (S indent)) attrs;
      Ok (wrapNestedObject (write_struct indent fields) mode)
  | MkAttribute _ t None _ _ _ _ _ => t ← parse_typ t; Ok (cueType t indent)
  end.

(** [blockCue] and [nestedBlockCueType] *)
Fixpoint blockCue (b : block) (indent : nat) : result tf_error string :=
  match b with
  | MkBlock attrs types _ =>
      fields ← attr_fields (λ a, attributeCueType a (S indent)) attrs;
      nested ← mapR (λ n, nestedField n indent) types;
      Ok (write_struct indent (fields ++ somes nested))
  end
with nestedField (n : nested_block) (indent : nat) : result tf_error (option cueField) :=
  match n with
  | MkNestedBlock name inner mode minItems =>
      if decide (name = "") then Ok None
      else
        e ← at_path name (match inner with Some b => blockCue b (S indent) | None => Ok (empty_block (S indent)) end);
        Ok (Some (MkCueField name (bool_decide (minItems = 0%Z)) (wrapBlock e mode)
                    (match inner with Some (MkBlock _ _ d) => d | None => "" end)))
  end.

Inductive cue_error : Type := ErrRequired | ErrSchemaNoBlock | ErrCue (e : tf_error) | ErrTypeNotOffered (typeName kind : string).

Definition SchemaToCUE (apiVersion kind : string) (schema : option Schema) : result cue_error string :=
  if decide (apiVersion = "" ∨ kind = "") then Err ErrRequired
  else match schema ≫= sc_block with
       | None => Err ErrSchemaNoBlock
       | Some b =>
           spec ← map_err ErrCue (blockCue b 1);
           Ok ("#" +:+ kind +:+ ": {" +:+ nl +:+ tab +:+ "apiVersion: " +:+ Quote apiVersion +:+ nl
               +:+ tab +:+ "kind:       " +:+ Quote kind +:+ nl +:+ tab +:+ "metadata: {" +:+ nl +:+ tab +:+ tab +:+ "name: string" +:+ nl
               +:+ tab +:+ tab +:+ "..." +:+ nl +:+ tab +:+ "}" +:+ nl +:+ tab +:+ "spec: " +:+ spec +:+ nl
               +:+ tab +:+ "status?: _" +:+ nl +:+ tab +:+ "..." +:+ nl +:+ "}" +:+ nl)
       end.

(** [RegisterExternalSchemas]: what is registered, kind by kind, before the first error. *)
Fixpoint RegisterExternalSchemas (apiVersion : string) (mappings : list (string * string)) (schemas : list (string * Schema))
    (registered : list (string * string)) : result cue_error unit * list (string * string) :=
  match mappings with
  | [] => (Ok tt, registered)
  | (kind, typeName) :: mappings =>
      match assoc typeName schemas with
      | None => (Err (ErrTypeNotOffered typeName kind), registered)
      | Some s =>
          match SchemaToCUE apiVersion kind (Some s) with
          | Err e => (Err e, registered)
          | Ok source => RegisterExternalSchemas apiVersion mappings schemas (assoc_set kind source registered)
          end
      end
  end.
End cue.

(** The fields of a spec: the attributes that a user may set, and no others. *)
Lemma attr_fields_names typ attrs fields : attr_fields typ attrs = Ok fields →
  map cf_name fields = map at_name (filter (λ a, at_name a ≠ "" ∧ isComputedOnly a = false) attrs) ∧
  Forall (λ f, ∃ a, a ∈ attrs ∧ cf_name f = at_name a ∧ cf_optional f = negb (at_required a)) fields.
Proof.
  unfold attr_fields. destruct (mapR _ attrs) as [l|e] eqn:Hm; [|done]. intros [= <-]. apply mapR_Ok in Hm.
  assert (Forall2 (λ a o, if decide (at_name a = "" ∨ isComputedOnly a = true) then o = None
    else ∃ e, o = Some (MkCueField (at_name a) (negb (at_required a)) e (at_description a))) attrs l) as H.
  { eapply Forall2_impl; [exact Hm|]. intros a o Ha. simpl in Ha. case_decide; [by injection Ha as <-|].
    apply at_path_Ok in Ha as (e & _ & ->). by exists e. }
  clear Hm. induction H as [|a o attrs l Ha _ [IH1 IH2]]; [by split|]. rewrite filter_cons. case_decide as Hd.
  - subst o. rewrite decide_False by (destruct (isComputedOnly a); naive_solver). simpl. split; [done|].
    eapply Forall_impl; [exact IH2|]. intros f (b & Hb & Hf). exists b. split; [by right|done].
  - destruct Ha as [e ->]. rewrite decide_True by (destruct (isComputedOnly a); naive_solver). simpl. split; [by f_equal|].
    constructor; [by exists a; split; [left|]|]. eapply Forall_impl; [exact IH2|]. intros f (b & Hb & Hf). exists b. split; [by right|done].
Qed.

(** The id of a resource is no part of its spec. *)
Definition ex_cue_block : block :=
  MkBlock [MkAttribute "id" (Some (VStr "string")) None "" false false true false;
           MkAttribute "size" (Some (VStr "number")) None "in GB" true false false false;
           MkAttribute "tags" (Some (VList [VStr "map"; VStr "string"])) None "" false true false false]
    [MkNestedBlock "disk" (Some (MkBlock [MkAttribute "gb" (Some (VStr "number")) None "" true false false false] [] "")) NList 0] "".
Lemma SchemaToCUE_example :
  blockCue (λ s, s) ex_cue_block 1 = Ok (
    "{" +:+ nl +:+ tab +:+ "disk?: [...{" +:+ nl +:+ tab +:+ tab +:+ "gb: number" +:+ nl +:+ tab +:+ "}]" +:+ nl
    +:+ tab +:+ "// in GB" +:+ nl +:+ tab +:+ "size: number" +:+ nl +:+ tab +:+ "tags?: {[string]: string}" +:+ nl +:+ "}").
Proof. vm_compute. reflexivity. Qed.
