(* ===== verification/TfHost.v ===== *)
(** Terraform providers: provider.go of src/internal/controller/providers/tfhost (with the
    calls of client.go and client_v5.go). The adapter makes a launched Terraform provider
    look like a provider of the controller, and keeps its opaque state in the table of
    ManifestStore. The process is a record of functions on a state of its own. *)
From S2P Require Import Prelude GoStrings GoValue Db ManifestStore JsonCode TfTypes TfSchema.

(** ** Messages (tfplugin6) *)

Inductive severity : Type := SevInvalid | SevError | SevWarning.
#[export] Instance severity_eq_dec : EqDecision severity.
Proof. solve_decision. Defined.
Record Diagnostic : Type := MkDiagnostic { dg_Severity : severity; dg_Summary : string; dg_Detail : string }.

Abbreviation blob := (option (list Byte.byte)).
Abbreviation dynamic := (option DynamicValue).

Record PlanRequest : Type := MkPlanRequest {
  pq_TypeName : string; pq_PriorState : DynamicValue; pq_ProposedNewState : DynamicValue; pq_Config : DynamicValue; pq_PriorPrivate : blob }.
Record PlanResponse : Type := MkPlanResponse {
  pp_PlannedState : dynamic; pp_PlannedPrivate : blob; pp_RequiresReplace : list string; pp_Diagnostics : list Diagnostic }.
Record ApplyRequest : Type := MkApplyRequest {
  aq_TypeName : string; aq_PriorState : DynamicValue; aq_PlannedState : dynamic; aq_Config : DynamicValue; aq_PlannedPrivate : blob }.
Record ApplyResponse : Type := MkApplyResponse { ap_NewState : dynamic; ap_Private : blob; ap_Diagnostics : list Diagnostic }.
Record ReadRequest : Type := MkReadRequest { rq_TypeName : string; rq_CurrentState : DynamicValue; rq_Private : blob }.
Record ReadResponse : Type := MkReadResponse { rp_NewState : dynamic; rp_Private : blob; rp_Diagnostics : list Diagnostic }.
Record SchemaResponse : Type := MkSchemaResponse {
  gs_Provider : option Schema; gs_ResourceSchemas : list (string * Schema); gs_Diagnostics : list Diagnostic }.

(** [tfProvider]: the calls, each with its failure in transport. *)
Record tfProvider (W : Type) : Type := MkTfProvider {
  GetProviderSchema : W → option SchemaResponse * W;
  ConfigureProvider : string → DynamicValue → W → option (list Diagnostic) * W;
  PlanResourceChange : PlanRequest → W → option PlanResponse * W;
  ApplyResourceChange : ApplyRequest → W → option ApplyResponse * W;
  ReadResource : ReadRequest → W → option ReadResponse * W }.
Arguments GetProviderSchema {W} _ _.
Arguments ConfigureProvider {W} _ _ _ _.
Arguments PlanResourceChange {W} _ _ _.
Arguments ApplyResourceChange {W} _ _ _.
Arguments ReadResource {W} _ _ _.

Inductive host_error : Type :=
| ErrNameRequired
| ErrMappingsRequired
| ErrMappingIncomplete
| ErrNotOffered (typeName kind : string)
| ErrKind (kind : string)
| ErrRpc (rpc : string)
| ErrDiagnostics (rpc text : string)
| ErrValue (e : tf_error)
| ErrStoredValue
| ErrPersistState
| ErrNoResource (kind name : string)
| ErrCannotList
| ErrSchemas (e : cue_error).

(** ** Values *)

Definition nullDynamicValue : DynamicValue := MkDynamicValue "" "null".
Definition isNullDynamicValue (dv : dynamic) : bool :=
  match dv with
  | None => true
  | Some dv =>
      bool_decide (dv_Json dv = "" ∧ dv_Msgpack dv = "") || bool_decide (dv_Json dv = "null")
      || bool_decide (dv_Msgpack dv = String (Ascii.Ascii false false false false false false true true) "")
  end.

(** [diagnosticsError] *)
Definition diag_text (d : Diagnostic) : string :=
  let msg := trim_space (dg_Summary d) in
  let detail := trim_space (dg_Detail d) in
  let msg := if decide (detail ≠ "") then (if decide (msg ≠ "") then msg +:+ ": " else msg) +:+ detail else msg in
  if decide (msg = "") then "unspecified diagnostic" else msg.
Definition diagnosticsError (rpc : string) (diags : list Diagnostic) : result host_error unit :=
  match filter (λ d, dg_Severity d = SevError) diags with
  | [] => Ok tt
  | l => Err (ErrDiagnostics rpc (join "; " (map diag_text l)))
  end.

(** [computedOnlyAttrs] *)
Definition computedOnlyAttrs (schema : option Schema) : list (string * bool) :=
  match SchemaAttributes schema with
  | Ok attrs => fold_left (λ m a, assoc_set (ai_Name a) (ai_Computed a && negb (ai_Optional a) && negb (ai_Required a)) m) attrs []
  | Err _ => []
  end.

Definition cloneMap (m : gomap) : option gomap := match m with [] => None | _ => Some m end.

(** [proto.Marshal] and [proto.Unmarshal] of a DynamicValue. *)
Class ProtoCodec : Type := { dv_marshal : DynamicValue → list Byte.byte; dv_unmarshal : list Byte.byte → option DynamicValue }.

Section values.
Context `{TfCodec} `{ProtoCodec}.

Definition marshalDynamicValue (dv : dynamic) : list Byte.byte := dv_marshal (default nullDynamicValue dv).
Definition storedDynamicValue (b : blob) : result host_error DynamicValue :=
  match b with
  | None | Some [] => Ok nullDynamicValue
  | Some l => match dv_unmarshal l with Some dv => Ok dv | None => Err ErrStoredValue end
  end.

(** [splitState]; a state that cannot be decoded is an entry of the status. *)
Definition splitState (schema : option Schema) (state : dynamic) : gomap * gomap :=
  match decodeState schema state with
  | Err _ => ([], [("state_decode_error", VStr "decode")])
  | Ok None => ([], [])
  | Ok (Some decoded) =>
      let computed := computedOnlyAttrs schema in
      let present := filter (λ p, p.2 ≠ VNull) decoded in
      (filter (λ p, default false (assoc p.1 computed) = false) present, filter (λ p, default false (assoc p.1 computed) = true) present)
  end.
End values.

(** ** The adapter *)

Record ResourceMapping : Type := MkMapping { rm_Kind : string; rm_TypeName : string }.
Record Provider : Type := MkHost { th_name : string; th_types : list (string * (string * Schema)) }.
Definition apiVersion (p : Provider) : string := th_name p +:+ ".openctl.io/v1".
Definition Kinds (p : Provider) : list string := sort_strings (th_types p).*1.

Section host.
Context `{TfCodec} `{ProtoCodec} {W : Type} (c : tfProvider W) (now : string).
(** [strconv.Quote] *)
Context (Quote : string → string).

Definition key (p : Provider) (kind name : string) : rkey := (apiVersion p, kind, name).
Definition lookup_kind (p : Provider) (kind : string) : result host_error (string * Schema) :=
  match assoc kind (th_types p) with Some t => Ok t | None => Err (ErrKind kind) end.
Definition answer {A} (rpc : string) (r : option A) : result host_error A := match r with Some a => Ok a | None => Err (ErrRpc rpc) end.

(** The mappings, in order; a later one of the same kind replaces an earlier one. *)
Fixpoint map_kinds (schemas : list (string * Schema)) (ms : list ResourceMapping) (types : list (string * (string * Schema))) :
    result host_error (list (string * (string * Schema))) :=
  match ms with
  | [] => Ok types
  | m :: ms =>
      if decide (rm_Kind m = "" ∨ rm_TypeName m = "") then Err ErrMappingIncomplete
      else match assoc (rm_TypeName m) schemas with
           | None => Err (ErrNotOffered (rm_TypeName m) (rm_Kind m))
           | Some s => map_kinds schemas ms (assoc_set (rm_Kind m) (rm_TypeName m, s) types)
           end
  end.

(** [NewProvider] *)
Definition NewProvider (name : string) (mappings : list ResourceMapping) (config : gomap) (w : W) : result host_error Provider * W :=
  if decide (name = "") then (Err ErrNameRequired, w)
  else if decide (mappings = []) then (Err ErrMappingsRequired, w)
  else
    let '(resp, w) := GetProviderSchema c w in
    match (resp ← answer "GetProviderSchema" resp; _ ← diagnosticsError "GetProviderSchema" (gs_Diagnostics resp);
           config ← map_err ErrValue (encodeConfig (gs_Provider resp) config); Ok (resp, config)) with
    | Err e => (Err e, w)
    | Ok (resp, config) =>
        let '(configured, w) := ConfigureProvider c "openctl" config w in
        (configured ← answer "ConfigureProvider" configured; _ ← diagnosticsError "ConfigureProvider" configured;
         types ← map_kinds (gs_ResourceSchemas resp) mappings [];
         let p := MkHost name types in
         match (RegisterExternalSchemas Quote (apiVersion p) (map (λ m, (rm_Kind m, rm_TypeName m)) mappings) (gs_ResourceSchemas resp) []).1 with
         | Ok _ => Ok p
         | Err e => Err (ErrSchemas e)
         end, w)
    end.

(** Planning a change of a resource and carrying it out: the two calls that [Apply] and
    [Delete] share. *)
Definition change (label typeName : string) (prior proposed config : DynamicValue) (private : blob) (w : W) : result host_error ApplyResponse * W :=
  let '(plan, w) := PlanResourceChange c (MkPlanRequest typeName prior proposed config private) w in
  match (plan ← answer "PlanResourceChange" plan; _ ← diagnosticsError ("PlanResourceChange" +:+ label) (pp_Diagnostics plan); Ok plan) with
  | Err e => (Err e, w)
  | Ok plan =>
      let '(applied, w) := ApplyResourceChange c (MkApplyRequest typeName prior (pp_PlannedState plan) config (pp_PlannedPrivate plan)) w in
      (applied ← answer "ApplyResourceChange" applied; _ ← diagnosticsError ("ApplyResourceChange" +:+ label) (ap_Diagnostics applied); Ok applied, w)
  end.

Definition observedResource (p : Provider) (kind name : string) (spec : option gomap) (schema : Schema) (state : dynamic) : resource :=
  let '(observed, computed) := splitState (Some schema) state in
  Resource (apiVersion p) kind (ResourceMetadata name "" [] [] "" "")
    (match observed with [] => cloneMap (fields spec) | _ => Some observed end)
    (Some (fold_left (λ m q, assoc_set q.1 q.2 m) computed [("phase", VStr "Ready")])).

(** [Apply] *)
Definition Apply (p : Provider) (m : resource) (st : db * W) : result host_error resource * (db * W) :=
  let '(d, w) := st in
  match (t ← lookup_kind p (r_kind m); config ← map_err ErrValue (encodeConfig (Some t.2) (fields (r_spec m)));
         prior ← storedDynamicValue (LoadState (key p (r_kind m) (r_name m)) d).1.1; Ok (t, config, prior)) with
  | Err e => (Err e, (d, w))
  | Ok ((typeName, schema), config, prior) =>
      match change "" typeName prior config config (LoadState (key p (r_kind m) (r_name m)) d).1.2 w with
      | (Err e, w) => (Err e, (d, w))
      | (Ok applied, w) =>
          match SaveState (key p (r_kind m) (r_name m)) (Some (marshalDynamicValue (ap_NewState applied))) (ap_Private applied) (sc_version schema) now d with
          | None => (Err ErrPersistState, (d, w))
          | Some d => (Ok (observedResource p (r_kind m) (r_name m) (r_spec m) schema (ap_NewState applied)), (d, w))
          end
      end
  end.

(** [Get]: reads through the provider and keeps what it says. *)
Definition Get (p : Provider) (kind name : string) (st : db * W) : result host_error resource * (db * W) :=
  let '(d, w) := st in
  match lookup_kind p kind with
  | Err e => (Err e, (d, w))
  | Ok (typeName, schema) =>
      let '(state, private, _) := LoadState (key p kind name) d in
      match state with
      | None | Some [] => (Err (ErrNoResource kind name), (d, w))
      | Some _ =>
          match storedDynamicValue state with
          | Err e => (Err e, (d, w))
          | Ok current =>
              let '(read, w) := ReadResource c (MkReadRequest typeName current private) w in
              match (read ← answer "ReadResource" read; _ ← diagnosticsError "ReadResource" (rp_Diagnostics read); Ok read) with
              | Err e => (Err e, (d, w))
              | Ok read =>
                  if isNullDynamicValue (rp_NewState read) then (Err (ErrNoResource kind name), (DeleteState (key p kind name) d, w))
                  else match SaveState (key p kind name) (Some (marshalDynamicValue (rp_NewState read))) (rp_Private read) (sc_version schema) now d with
                       | None => (Err ErrPersistState, (d, w))
                       | Some d =>
                           let '(spec, status) := splitState (Some schema) (rp_NewState read) in
                           (Ok (Resource (apiVersion p) kind (ResourceMetadata name "" [] [] "" "") (Some spec)
                                  (Some (assoc_set "phase" (VStr "Ready") status))), (d, w))
                       end
              end
          end
      end
  end.

(** [List] *)
Definition List (p : Provider) (kind : string) (st : db * W) : result host_error (list resource) * (db * W) :=
  (match lookup_kind p kind with Err e => Err e | Ok _ => Err ErrCannotList end, st).

(** [Delete] *)
Definition Delete (p : Provider) (kind name : string) (st : db * W) : result host_error unit * (db * W) :=
  let '(d, w) := st in
  match lookup_kind p kind with
  | Err e => (Err e, (d, w))
  | Ok (typeName, _) =>
      let '(state, private, _) := LoadState (key p kind name) d in
      match state with
      | None | Some [] => (Ok tt, (d, w))
      | Some _ =>
          match storedDynamicValue state with
          | Err e => (Err e, (d, w))
          | Ok prior =>
              match change " delete" typeName prior nullDynamicValue nullDynamicValue private w with
              | (Err e, w) => (Err e, (d, w))
              | (Ok _, w) => (Ok tt, (DeleteState (key p kind name) d, w))
              end
          end
      end
  end.
End host.

(** ** Protocol 5 (client_v5.go) *)

(** An older provider: its messages are the same, but that its attributes have no nested
    type and that what a plan says about replacements is not passed on. *)
Definition v6Attr (a : attribute) : attribute :=
  match a with MkAttribute n t _ d r o c s => MkAttribute n t None d r o c s end.
Fixpoint v6Block (b : block) : block :=
  match b with MkBlock attrs types d => MkBlock (map v6Attr attrs) (map v6NestedBlock types) d end
with v6NestedBlock (n : nested_block) : nested_block :=
  match n with MkNestedBlock name inner mode m => MkNestedBlock name (v6Block <$> inner) mode m end.
Definition v6Schema (s : Schema) : Schema := MkSchema (sc_version s) (v6Block <$> sc_block s).
Definition v5adapter {W} (c : tfProvider W) : tfProvider W :=
  MkTfProvider W
    (λ w, let '(r, w) := GetProviderSchema c w in
          ((λ r, MkSchemaResponse (v6Schema <$> gs_Provider r) (map (λ p, (p.1, v6Schema p.2)) (gs_ResourceSchemas r)) (gs_Diagnostics r)) <$> r, w))
    (ConfigureProvider c)
    (λ q w, let '(r, w) := PlanResourceChange c q w in
            ((λ r, MkPlanResponse (pp_PlannedState r) (pp_PlannedPrivate r) [] (pp_Diagnostics r)) <$> r, w))
    (ApplyResourceChange c)
    (ReadResource c).

(** ** What a provider is given *)

Class ProtoLaws `{ProtoCodec} : Prop := {
  unmarshal_marshal dv : dv_unmarshal (dv_marshal dv) = Some dv;
  marshal_empty dv : dv_marshal dv = [] ↔ dv = MkDynamicValue "" "" }.

Inductive op : Type :=
| OApply (m : resource)
| OGet (kind name : string)
| ODelete (kind name : string).
Inductive output : Type :=
| OutResource (r : result host_error resource)
| OutUnit (r : result host_error unit).

(** A protocol-5 provider and the adapter's view of it: nothing that the adapter does
    depends on what a plan says about replacements. *)
Lemma change_v5 {W} (c : tfProvider W) label typeName prior proposed config private w :
  change (v5adapter c) label typeName prior proposed config private w = change c label typeName prior proposed config private w.
Proof. unfold change. simpl. destruct (PlanResourceChange c _ w) as [[plan|] w1]; simpl; [by destruct (diagnosticsError _ _)|done]. Qed.
Lemma Apply_v5 `{TfCodec} `{ProtoCodec} {W} (c : tfProvider W) now p m st : Apply (v5adapter c) now p m st = Apply c now p m st.
Proof. unfold Apply. destruct st as [d w]. destruct (_ ≫= _) as [[[[tn s] config] prior]|]; [|done]. by rewrite change_v5. Qed.
Lemma Delete_v5 `{ProtoCodec} {W} (c : tfProvider W) p kind name st : Delete (v5adapter c) p kind name st = Delete c p kind name st.
Proof.
  unfold Delete. destruct st as [d w]. destruct (lookup_kind p kind) as [[tn s]|]; [|done]. destruct (LoadState _ d) as [[[[|b l]|] pv] v]; [done| |done].
  destruct (storedDynamicValue _); [|done]. by rewrite change_v5.
Qed.

Section refinement.
Context `{TfCodec} `{ProtoLaws} {W : Type} (c : tfProvider W) (p : Provider) (now : string).

Definition perform (o : op) (st : db * W) : output * (db * W) :=
  match o with
  | OApply m => let '(r, st) := Apply c now p m st in (OutResource r, st)
  | OGet kind name => let '(r, st) := Get c now p kind name st in (OutResource r, st)
  | ODelete kind name => let '(r, st) := Delete c p kind name st in (OutUnit r, st)
  end.

(** *** The protocol, with a memory

    What the calls are to be, written down without the adapter: what the provider returned
    last for a resource, its state and its private blob, is kept as it is. *)
Abbreviation memory := (gmap (string * string) (option DynamicValue * blob)).
Inductive outcome : Type := Failed | Crashed | Gave (r : resource) | Gone.
(** No diagnostic is an error. *)
Definition clean (diags : list Diagnostic) : bool := forallb (λ d, match dg_Severity d with SevError => false | _ => true end) diags.
(** Nothing, in either encoding. *)
Definition is_null (dv : dynamic) : Prop :=
  match dv with
  | None => True
  | Some dv => dv = MkDynamicValue "" "" ∨ dv_Json dv = "null" ∨ dv_Msgpack dv = String (Ascii.ascii_of_nat 192) ""
  end.
#[local] Instance is_null_dec dv : Decision (is_null dv).
Proof. unfold is_null. destruct dv; apply _. Defined.

Definition remembered (kind name : string) (mem : memory) : option DynamicValue * blob := default (None, None) (mem !! (kind, name)).
Definition remember (kind name : string) (state : dynamic) (private : blob) (mem : memory) : option memory :=
  if decide (kind = "" ∨ name = "") then None
  else
    let dv := match state with Some dv => dv | None => MkDynamicValue "" "null" end in
    Some (<[(kind, name) := (if decide (dv = MkDynamicValue "" "") then None else Some dv, match private with Some [] => None | _ => private end)]> mem).

(** A change is planned from the prior state with the private blob kept with it, and carried
    out with the state and the private blob of the plan; [None]: a call failed, or its answer has an error. *)
Definition changed (typeName : string) (prior proposed config : DynamicValue) (private : blob) (w : W) : option ApplyResponse * W :=
  match PlanResourceChange c {| pq_TypeName := typeName; pq_PriorState := prior; pq_ProposedNewState := proposed; pq_Config := config;
                                pq_PriorPrivate := private |} w with
  | (None, w) => (None, w)
  | (Some plan, w) =>
      if negb (clean (pp_Diagnostics plan)) then (None, w)
      else match ApplyResourceChange c {| aq_TypeName := typeName; aq_PriorState := prior; aq_PlannedState := pp_PlannedState plan;
                                          aq_Config := config; aq_PlannedPrivate := pp_PlannedPrivate plan |} w with
           | (Some applied, w) => (if clean (ap_Diagnostics applied) then Some applied else None, w)
           | (None, w) => (None, w)
           end
  end.

Definition local (o : op) (st : memory * W) : outcome * (memory * W) :=
  let '(mem, w) := st in
  let null := MkDynamicValue "" "null" in
  match o with
  | OApply m =>
      match assoc (r_kind m) (th_types p) with
      | None => (Failed, st)
      | Some (typeName, schema) =>
          match encodeConfig (Some schema) (fields (r_spec m)) with
          | Err e => (if panics e then Crashed else Failed, st)
          | Ok config =>
              let '(state, private) := remembered (r_kind m) (r_name m) mem in
              match changed typeName (match state with Some dv => dv | None => null end) config config private w with
              | (None, w) => (Failed, (mem, w))
              | (Some applied, w) =>
                  match remember (r_kind m) (r_name m) (ap_NewState applied) (ap_Private applied) mem with
                  | None => (Failed, (mem, w))
                  | Some mem => (Gave (observedResource p (r_kind m) (r_name m) (r_spec m) schema (ap_NewState applied)), (mem, w))
                  end
              end
          end
      end
  | OGet kind name =>
      match assoc kind (th_types p), remembered kind name mem with
      | Some (typeName, schema), (Some current, private) =>
          match ReadResource c {| rq_TypeName := typeName; rq_CurrentState := current; rq_Private := private |} w with
          | (None, w) => (Failed, (mem, w))
          | (Some read, w) =>
              if negb (clean (rp_Diagnostics read)) then (Failed, (mem, w))
              else if decide (is_null (rp_NewState read)) then (Failed, (delete (kind, name) mem, w))
              else match remember kind name (rp_NewState read) (rp_Private read) mem with
                   | None => (Failed, (mem, w))
                   | Some mem =>
                       let '(spec, status) := splitState (Some schema) (rp_NewState read) in
                       (Gave (Resource (apiVersion p) kind (ResourceMetadata name "" [] [] "" "") (Some spec)
                          (Some (assoc_set "phase" (VStr "Ready") status))), (mem, w))
                   end
          end
      | _, _ => (Failed, st)
      end
  | ODelete kind name =>
      match assoc kind (th_types p), remembered kind name mem with
      | None, _ => (Failed, st)
      | Some _, (None, _) => (Gone, st)
      | Some (typeName, _), (Some prior, private) =>
          match changed typeName prior null null private w with
          | (None, w) => (Failed, (mem, w))
          | (Some _, w) => (Gone, (delete (kind, name) mem, w))
          end
      end
  end.
(** Whether an operation ended the process. *)
Definition crashes (e : host_error) : bool := match e with ErrValue e => panics e | _ => false end.
Definition outcome_of (o : output) : outcome :=
  match o with
  | OutResource (Ok r) => Gave r
  | OutUnit (Ok _) => Gone
  | OutResource (Err e) => if crashes e then Crashed else Failed
  | OutUnit (Err _) => Failed
  end.

Fixpoint outputs {Out St} (step : op → St → Out * St) (ops : list op) (st : St) : list Out * St :=
  match ops with
  | [] => ([], st)
  | o :: ops => let '(x, st) := step o st in let '(l, st) := outputs step ops st in (x :: l, st)
  end.

(** The rows of the table are the memory. *)
Definition stores (d : db) (mem : memory) : Prop := ∀ kind name,
  match mem !! (kind, name) with
  | None => db_state d !! key p kind name = None
  | Some (dv, pv) => dv ≠ Some (MkDynamicValue "" "") ∧
      ∃ row, db_state d !! key p kind name = Some row ∧ sr_state row = dv_marshal <$> dv ∧ sr_private row = pv
  end.

Lemma host_apiVersion_nonempty : apiVersion p ≠ "".
Proof. unfold apiVersion. intros Hv%(f_equal String.length). rewrite str_length_app in Hv. simpl in Hv. lia. Qed.

Lemma load_remembered kind name d mem : stores d mem →
  let '(state, private, _) := LoadState (key p kind name) d in
  state = dv_marshal <$> (remembered kind name mem).1 ∧ private = (remembered kind name mem).2 ∧
  (remembered kind name mem).1 ≠ Some (MkDynamicValue "" "").
Proof.
  intros Hs. specialize (Hs kind name). unfold LoadState, remembered. destruct (mem !! (kind, name)) as [[dv pv]|].
  - destruct Hs as (Hne & row & -> & -> & ->). done.
  - by rewrite Hs.
Qed.
Lemma stored_marshal (o : option DynamicValue) : o ≠ Some (MkDynamicValue "" "") → storedDynamicValue (dv_marshal <$> o) = Ok (default nullDynamicValue o).
Proof.
  destruct o as [dv|]; [|done]. intros Hne. simpl. destruct (dv_marshal dv) as [|b l] eqn:E.
  - apply marshal_empty in E. congruence.
  - by rewrite <- E, unmarshal_marshal.
Qed.

Lemma host_save_remember kind name state private version d mem : stores d mem →
  match SaveState (key p kind name) (Some (marshalDynamicValue state)) private version now d, remember kind name state private mem with
  | Some d', Some mem' => stores d' mem'
  | None, None => True
  | _, _ => False
  end.
Proof.
  intros Hs. unfold SaveState, remember. cbn [key fst snd]. pose proof host_apiVersion_nonempty as Hv.
  case_decide as Hk; case_decide as Hk'; [done|naive_solver|naive_solver|]. intros kind' name'.
  unfold set_state. cbn [db_state]. destruct (decide ((kind', name') = (kind, name))) as [[= -> ->]|Hne].
  - rewrite !lookup_insert_eq. unfold marshalDynamicValue.
    change (match state with Some dv => dv | None => MkDynamicValue "" "null" end) with (default nullDynamicValue state).
    change (match private with Some [] => None | _ => private end) with (nilIfEmpty private).
    set (dv := default nullDynamicValue state). case_decide as Hd.
    + split; [done|]. eexists. split; [done|]. split; [|done]. rewrite Hd. by rewrite (proj2 (marshal_empty _) eq_refl).
    + split; [congruence|]. eexists. split; [done|]. split; [|done]. simpl. destruct (dv_marshal dv) as [|b l] eqn:E; [|done].
      by apply marshal_empty in E.
  - rewrite !lookup_insert_ne by (unfold key; congruence). apply Hs.
Qed.
Lemma host_delete_forget kind name d mem : stores d mem → stores (DeleteState (key p kind name) d) (delete (kind, name) mem).
Proof.
  intros Hs kind' name'. unfold DeleteState, set_state. cbn [db_state]. destruct (decide ((kind', name') = (kind, name))) as [[= -> ->]|Hne].
  - by rewrite !lookup_delete_eq.
  - rewrite !lookup_delete_ne by (unfold key; congruence). apply Hs.
Qed.

(** The adapter's calls are those of the protocol. *)
Lemma diagnostics_clean rpc diags : is_ok (diagnosticsError rpc diags) = clean diags.
Proof.
  unfold diagnosticsError, clean. induction diags as [|d l IH]; [done|]. rewrite filter_cons. simpl.
  destruct (dg_Severity d); simpl; [exact IH|done|exact IH].
Qed.
Lemma diagnostics_quiet rpc diags e : diagnosticsError rpc diags = Err e → crashes e = false.
Proof. unfold diagnosticsError. destruct (filter _ diags); [done|]. by intros [= <-]. Qed.
Lemma change_changed label tn prior proposed config private w :
  match change c label tn prior proposed config private w, changed tn prior proposed config private w with
  | (Ok a, w1), (Some a', w2) => a = a' ∧ w1 = w2
  | (Err e, w1), (None, w2) => w1 = w2 ∧ crashes e = false
  | _, _ => False
  end.
Proof.
  unfold change, changed. destruct (PlanResourceChange c _ w) as [[plan|] w1]; simpl; [|done].
  rewrite <- (diagnostics_clean ("PlanResourceChange" +:+ label)). pose proof (diagnostics_quiet ("PlanResourceChange" +:+ label) (pp_Diagnostics plan)) as Hq.
  destruct (diagnosticsError _ (pp_Diagnostics plan)) as [|e]; simpl; [|by split; [|apply Hq]].
  destruct (ApplyResourceChange c _ w1) as [[applied|] w2]; simpl; [|done].
  rewrite <- (diagnostics_clean ("ApplyResourceChange" +:+ label)). pose proof (diagnostics_quiet ("ApplyResourceChange" +:+ label) (ap_Diagnostics applied)) as Hq'.
  destruct (diagnosticsError _ (ap_Diagnostics applied)) as [|e]; simpl; [done|by split; [|apply Hq']].
Qed.
Lemma isNull_null dv : isNullDynamicValue dv = bool_decide (is_null dv).
Proof.
  destruct dv as [[m j]|]; [|by rewrite bool_decide_eq_true_2]. unfold isNullDynamicValue, is_null. cbn [dv_Json dv_Msgpack].
  change (Ascii.ascii_of_nat 192) with (Ascii.Ascii false false false false false false true true).
  apply eq_true_iff_eq. rewrite !orb_true_iff, !bool_decide_eq_true.
  split; [intros [[[-> ->]|?]|?]; auto|]. intros [[= -> ->]|[?|?]]; auto.
Qed.

Definition simulates (x : output * (db * W)) (y : outcome * (memory * W)) : Prop :=
  outcome_of x.1 = y.1 ∧ x.2.2 = y.2.2 ∧ stores x.2.1 y.2.1.

#[local] Arguments encodeConfig : simpl never.
Lemma apply_local m d mem w : stores d mem → simulates (perform (OApply m) (d, w)) (local (OApply m) (mem, w)).
Proof.
  intros Hs. unfold simulates. cbn [perform local]. unfold Apply, lookup_kind. destruct (assoc (r_kind m) (th_types p)) as [[tn s]|]; [|done]. simpl.
  destruct (encodeConfig (Some s) (fields (r_spec m))) as [config|e]; simpl; [|done].
  pose proof (load_remembered (r_kind m) (r_name m) d mem Hs) as Hl. destruct (LoadState _ d) as [[state private] v].
  destruct (remembered _ _ mem) as [dv pv]. simpl in Hl. destruct Hl as (-> & -> & Hne). simpl. rewrite stored_marshal by done. simpl.
  change (default nullDynamicValue dv) with (match dv with Some dv => dv | None => nullDynamicValue end).
  match goal with |- context [change c "" tn ?a config config pv w] => pose proof (change_changed "" tn a config config pv w) as Hc end.
  change (MkDynamicValue "" "null") with nullDynamicValue.
  destruct (change _ _ _ _ _ _ _ _) as [[applied|e] w'], (changed _ _ _ _ _ _) as [[applied'|] w2]; try done; destruct Hc as [<- Hc]; simpl; [subst w2|by rewrite Hc].
  pose proof (host_save_remember (r_kind m) (r_name m) (ap_NewState applied) (ap_Private applied) (sc_version s) d mem Hs) as Hsr.
  destruct (SaveState _ _ _ _ _ _) as [d'|], (remember _ _ _ _ _) as [mem'|]; done.
Qed.
Lemma get_local kind name d mem w : stores d mem → simulates (perform (OGet kind name) (d, w)) (local (OGet kind name) (mem, w)).
Proof.
  intros Hs. unfold simulates. cbn [perform local]. unfold Get, lookup_kind. destruct (assoc kind (th_types p)) as [[tn s]|]; [|done].
  pose proof (load_remembered kind name d mem Hs) as Hl. destruct (LoadState _ d) as [[state private] v].
  destruct (remembered _ _ mem) as [dv pv]. simpl in Hl. destruct Hl as (-> & -> & Hne). simpl.
  destruct dv as [dv|]; [|done]. simpl. pose proof (stored_marshal (Some dv) Hne) as Hst. simpl in Hst.
  destruct (dv_marshal dv) as [|b l] eqn:E; [apply marshal_empty in E; congruence|]. rewrite Hst.
  destruct (ReadResource c _ w) as [[rd|] w']; simpl; [|done]. rewrite <- (diagnostics_clean "ReadResource").
  pose proof (diagnostics_quiet "ReadResource" (rp_Diagnostics rd)) as Hq. destruct (diagnosticsError _ _) as [|e]; simpl; [|by rewrite (Hq e)]. rewrite isNull_null.
  destruct (decide (is_null (rp_NewState rd))) as [Hn|Hn]; [rewrite bool_decide_eq_true_2 by done|rewrite bool_decide_eq_false_2 by done].
  { split_and!; [done..|by apply host_delete_forget]. }
  pose proof (host_save_remember kind name (rp_NewState rd) (rp_Private rd) (sc_version s) d mem Hs) as Hsr.
  destruct (SaveState _ _ _ _ _ _) as [d'|], (remember _ _ _ _ _) as [mem'|]; try done. by destruct (splitState _ _).
Qed.
Lemma delete_local kind name d mem w : stores d mem → simulates (perform (ODelete kind name) (d, w)) (local (ODelete kind name) (mem, w)).
Proof.
  intros Hs. unfold simulates. cbn [perform local]. unfold Delete, lookup_kind. destruct (assoc kind (th_types p)) as [[tn s]|]; [|done].
  pose proof (load_remembered kind name d mem Hs) as Hl. destruct (LoadState _ d) as [[state private] v].
  destruct (remembered _ _ mem) as [dv pv]. simpl in Hl. destruct Hl as (-> & -> & Hne). simpl.
  destruct dv as [dv|]; [|done]. simpl. pose proof (stored_marshal (Some dv) Hne) as Hst. simpl in Hst.
  destruct (dv_marshal dv) as [|b l] eqn:E; [apply marshal_empty in E; congruence|]. rewrite Hst. simpl.
  pose proof (change_changed " delete" tn dv nullDynamicValue nullDynamicValue pv w) as Hc.
  change (MkDynamicValue "" "null") with nullDynamicValue.
  destruct (change _ _ _ _ _ _ _ _) as [[applied|e] w'], (changed _ _ _ _ _ _) as [[applied'|] w2]; try done; [destruct Hc as [_ <-]|by destruct Hc as [<- _]]. split_and!; [done..|by apply host_delete_forget].
Qed.

(** C38: a Terraform provider keeps nothing itself, and is given what it said. For every
    provider process, an encoding of messages that reads them back as they were, and
    every sequence of applies, reads and deletions that starts with an empty table: at every call for a resource the process is handed exactly the state
    and the private blob that its last successful apply or read returned for that
    resource (null before the first, and after a read that found nothing or a deletion); a change
    is carried out with the planned state and the private blob of its plan, and not at all after a plan with an
    error diagnostic; an operation fails exactly when a call fails or is answered with an error diagnostic, nothing
    is there to read, or the manifest has another kind, cannot be encoded, or has no name, and it ends the controller
    exactly when encoding meets a NaN; and the table of states is that memory.
    In particular what the provider returns together with an error is not kept. *)
Theorem tf_refines ops d w : (∀ kind name, db_state d !! key p kind name = None) →
  map outcome_of (outputs perform ops (d, w)).1 = (outputs local ops (∅, w)).1 ∧
  (outputs perform ops (d, w)).2.2 = (outputs local ops (∅, w)).2.2 ∧
  stores (outputs perform ops (d, w)).2.1 (outputs local ops (∅, w)).2.1.
Proof.
  intros Hd. assert (stores d ∅) as Hs by (intros kind name; rewrite lookup_empty; apply Hd). clear Hd.
  revert d w Hs. generalize (∅ : memory). induction ops as [|o ops IH]; intros mem d w Hs; [done|]. cbn [outputs].
  assert (simulates (perform o (d, w)) (local o (mem, w))) as (E1 & E2 & E3) by (destruct o; [by apply apply_local|by apply get_local|by apply delete_local]).
  destruct (perform o (d, w)) as [x [d' w1]], (local o (mem, w)) as [y [mem' w2]]. cbn [fst snd] in *. subst y w2.
  destruct (IH mem' d' w1 E3) as (E4 & E5 & E6).
  destruct (outputs perform ops (d', w1)) as [l st], (outputs local ops (mem', w1)) as [l' st']. cbn [fst snd map] in *. split_and!; [by f_equal|done|done].
Qed.

(** An apply that the provider reports as failed leaves no trace, whatever the provider
    made before it failed. *)
Lemma failed_apply_is_forgotten m d w e d' w' : Apply c now p m (d, w) = (Err e, (d', w')) → d' = d.
Proof.
  unfold Apply. destruct (_ ≫= _) as [[[[tn s] config] prior]|]; [|by intros [= _ <- _]].
  destruct (change _ _ _ _ _ _ _ _) as [[applied|?] w1]; [|by intros [= _ <- _]]. destruct (SaveState _ _ _ _ _ _); [done|by intros [= _ <- _]].
Qed.
End refinement.

(** Where one attribute has a nested type, every computed attribute is taken for
    configuration. *)
Lemma nested_attribute_spoils_split `{TfCodec} schema attrs types descr a decoded state :
  sc_block schema = Some (MkBlock attrs types descr) → a ∈ attrs → at_typ a = None →
  decodeState (Some schema) state = Ok (Some decoded) →
  splitState (Some schema) state = (filter (λ p, p.2 ≠ VNull) decoded, []).
Proof.
  intros Hb Ha Ht Hd. unfold splitState. rewrite Hd.
  assert (computedOnlyAttrs (Some schema) = []) as ->.
  { unfold computedOnlyAttrs, SchemaAttributes. simpl. rewrite Hb. destruct (mapR attr_info attrs) as [l|e] eqn:Hm; [|done].
    apply mapR_Ok in Hm. apply list_elem_of_lookup in Ha as [i Hi]. eapply Forall2_lookup_l in Hm as (y & _ & Hy); [|exact Hi].
    unfold attr_info in Hy. by rewrite Ht in Hy. }
  simpl. f_equal; [|].
  - rewrite list_filter_filter. apply list_filter_iff. intros x. simpl. tauto.
  - induction (filter _ decoded) as [|x l IH]; [done|]. by rewrite filter_cons.
Qed.

(** ** Examples *)

#[local] Instance ex_tf_codec : TfCodec :=
  {| tf_encode t v := Some (MkDynamicValue "" (text_of (valueToGo v)));
     tf_decode t dv := match value_of (dv_Json dv) with Some d => match goToValue t d with Ok v => Some v | Err _ => None end | None => None end |}.
#[local] Instance ex_proto : ProtoCodec :=
  {| dv_marshal dv := if decide (dv = MkDynamicValue "" "") then [] else String.list_byte_of_string (text_of (VList [VStr (dv_Msgpack dv); VStr (dv_Json dv)]));
     dv_unmarshal l := match value_of (String.string_of_list_byte l) with
       | Some (VList [VStr m; VStr j]) => Some (MkDynamicValue m j)
       | _ => if decide (l = []) then Some (MkDynamicValue "" "") else None end |}.
#[local] Instance ex_proto_laws : ProtoLaws.
Proof.
  split.
  - intros dv. simpl. case_decide as Hd; [by subst dv|]. rewrite String.string_of_list_byte_of_string, value_of_text. by destruct dv.
  - intros dv. simpl. case_decide as Hd; [done|]. split; [|done]. intros Ht. exfalso.
    pose proof (text_nonempty_string (VList [VStr (dv_Msgpack dv); VStr (dv_Json dv)])) as Hn. by destruct (text_of _).
Qed.

(** A provider of machines with an id of its own; the first [fails] creations are
    reported as failed after the machine was made. *)
Record cloud : Type := MkCloud { made : nat; alive : list string; fails : nat }.
Definition ex_schema : Schema :=
  MkSchema 1 (Some (MkBlock [MkAttribute "id" (Some (VStr "string")) None "" false false true false;
                             MkAttribute "size" (Some (VStr "number")) None "" true false false false] [] "")).
Definition ex_state (id : string) : string := text_of (VMap [("id", VStr id); ("size", VInt 3)]).
Definition ex_apply_change (q : ApplyRequest) (w : cloud) : option ApplyResponse * cloud :=
  if decide (aq_Config q = nullDynamicValue) then
    (Some (MkApplyResponse (Some nullDynamicValue) None []), MkCloud (made w) (filter (λ id, ex_state id ≠ dv_Json (aq_PriorState q)) (alive w)) (fails w))
  else if decide (aq_PriorState q = nullDynamicValue) then
    let id := pretty (made w) in
    (Some (MkApplyResponse (Some (MkDynamicValue "" (ex_state id))) None
       (match fails w with 0 => [] | S _ => [MkDiagnostic SevError "timeout" "machine did not become healthy"] end)),
     MkCloud (S (made w)) (alive w ++ [id]) (fails w - 1))
  else (Some (MkApplyResponse (Some (aq_PriorState q)) None []), w).
Definition ex_cloud : tfProvider cloud :=
  MkTfProvider cloud (λ w, (Some (MkSchemaResponse (Some (MkSchema 0 None)) [("demo_machine", ex_schema)] []), w))
    (λ _ _ w, (Some [], w)) (λ q w, (Some (MkPlanResponse (Some (pq_ProposedNewState q)) None [] []), w)) ex_apply_change
    (λ q w, (Some (MkReadResponse (if decide (dv_Json (rq_CurrentState q) ∈ map ex_state (alive w)) then Some (rq_CurrentState q) else None) None []), w)).
Definition ex_host : Provider := MkHost "demo" [("Machine", ("demo_machine", ex_schema))].
Definition ex_machine : resource := Resource "demo.openctl.io/v1" "Machine" (ResourceMetadata "m" "" [] [] "" "") (Some [("size", VInt 3)]) None.
Definition ex_empty : db := MkDb [] ∅ ∅ ∅ ∅.
Definition ex_tf_ops : list op := [OGet "Machine" "m"; OApply ex_machine; OApply ex_machine; OGet "Machine" "m"; ODelete "Machine" "m"; OGet "Machine" "m"].
Definition succeeded (o : output) : bool := match o with OutResource r => is_ok r | OutUnit r => is_ok r end.

Lemma tf_refines_witness :
  let x := outputs (perform ex_cloud ex_host "t0") ex_tf_ops (ex_empty, MkCloud 0 [] 0) in
  map outcome_of x.1 = (outputs (local ex_cloud ex_host) ex_tf_ops (∅, MkCloud 0 [] 0)).1 ∧
  map succeeded x.1 = [false; true; true; true; true; false] ∧ x.2.2 = MkCloud 1 [] 0.
Proof.
  cbv zeta. destruct (tf_refines ex_cloud ex_host "t0" ex_tf_ops ex_empty (MkCloud 0 [] 0)) as (E & _ & _); [intros; apply lookup_empty|].
  split; [exact E|]. split; vm_compute; reflexivity.
Defined.

(** A creation that is reported as failed makes a machine that nobody remembers: the
    next apply makes a second one, and the deletion removes only that. *)
Lemma failed_creation_leaks :
  let x := outputs (perform ex_cloud ex_host "t0") [OApply ex_machine; OApply ex_machine; ODelete "Machine" "m"] (ex_empty, MkCloud 0 [] 1) in
  map succeeded x.1 = [false; true; true] ∧ x.2.2 = MkCloud 2 ["0"] 0.
Proof. split; vm_compute; reflexivity. Qed.

(** What is loaded for the provider: one kind. *)
Lemma NewProvider_example :
  match (NewProvider ex_cloud id "demo" [MkMapping "Machine" "demo_machine"] [] (MkCloud 0 [] 0)).1 with
  | Ok p => Kinds p = ["Machine"]
  | Err _ => False
  end.
Proof. vm_compute. reflexivity. Qed.
