(* ===== verification/K8s.v ===== *)
(** The Kubernetes plugin: src/plugins/k8s/internal/provider. A handler of the plugin
    protocol (PluginProto) that talks to clusters through client-go and Helm: a program
    per method (Effects). The two libraries answer requests; the objects of a manifest
    are documents. *)
From Stdlib Require Import Ascii.
From S2P Require Import Prelude GoStrings GoValue Json Registry PluginProto Effects.

Definition apiVersion : string := "k8s.openctl.io/v1".
Definition kindHelmRelease : string := "HelmRelease".
Definition kindManifest : string := "Manifest".
Definition kindKustomize : string := "Kustomize".
Definition kindPlatform : string := "Platform".
Definition kindArgoApplications : string := "ArgoApplications".

Definition specString (m : gomap) (key : string) : string := match assoc key m with Some (VStr s) => s | _ => "" end.
Definition specBool (m : gomap) (key : string) : bool := match assoc key m with Some (VBool b) => b | _ => false end.
Definition specMap (m : gomap) (key : string) : option gomap := match assoc key m with Some (VMap x) => Some x | _ => None end.

(** ** Objects and releases *)

(** [objectRef] *)
Record objectRef : Type := MkRef {
  or_Group : string; or_Version : string; or_Resource : string; or_Kind : string; or_Namespace : string; or_Name : string }.
#[export] Instance objectRef_eq_dec : EqDecision objectRef.
Proof. solve_decision. Defined.
Definition ref_id (o : objectRef) : string := join "/" [or_Group o; or_Version o; or_Kind o; or_Namespace o; or_Name o].
Definition ref_text (o : objectRef) : string :=
  if decide (or_Namespace o ≠ "") then or_Kind o +:+ " " +:+ or_Namespace o +:+ "/" +:+ or_Name o else or_Kind o +:+ " " +:+ or_Name o.

(** What a REST mapper says of a kind. *)
Record mapping : Type := MkMapping { mp_Group : string; mp_Version : string; mp_Resource : string; mp_Namespaced : bool }.

(** [chartSpec] *)
Record chartSpec : Type := MkChart { ch_Repo : string; ch_Name : string; ch_Version : string }.
Definition isOCI (c : chartSpec) : bool := has_prefix "oci://" (ch_Repo c).
Definition chart_ref (c : chartSpec) : string :=
  if isOCI c then (if decide (ch_Name c = "") then ch_Repo c else trim_right "/" (ch_Repo c) +:+ "/" +:+ ch_Name c) else ch_Name c.
Definition httpRepoURL (c : chartSpec) : string := if isOCI c then "" else ch_Repo c.

(** [releaseOpts]; a timeout in nanoseconds. *)
Record releaseOpts : Type := MkOpts {
  ro_releaseName : string; ro_namespace : string; ro_createNamespace : bool; ro_values : option gomap; ro_wait : bool; ro_timeout : Z }.
(** What is read of a release of Helm. *)
Record release : Type := MkRelease {
  rl_Name : string; rl_Namespace : string; rl_Version : Z; rl_Status : string; rl_Chart : option (string * string * string); rl_Manifest : string }.

(** ** Requests *)

Inductive kreq : Type :=
| QReadFile (path : string)
| QClient (kubeconfig : string)
| QPatch (kubeconfig : string) (ref : objectRef) (obj : gomap)
| QGet (kubeconfig : string) (ref : objectRef)
| QDelete (kubeconfig : string) (ref : objectRef)
| QList (kubeconfig group version resource namespace : string)
| QHelm (kubeconfig namespace : string)
| QChart (kubeconfig namespace repoURL version ref : string)
| QHistory (kubeconfig namespace name : string)
| QInstall (kubeconfig : string) (o : releaseOpts) (chart : string)
| QUpgrade (kubeconfig : string) (o : releaseOpts) (chart : string)
| QRelease (kubeconfig namespace name : string)
| QUninstall (kubeconfig namespace name : string).
(** A client knows the kinds that the cluster had when it was made. *)
Inductive kans : Type :=
| AOk
| ANotFound
| AErr
| AText (text : string)
| AClient (mapper : string → string → string → option mapping)
| AItems (l : list gomap)
| AChart (chart : string)
| ARelease (r : release).

Inductive k_error : Type :=
| ErrReadKubeconfig (path : string)
| ErrNoKubeconfig
| ErrRequired (what : string)
| ErrClient
| ErrDecodeManifest
| ErrNoObjects
| ErrMissingKind
| ErrRestMapping
| ErrNoName (kind : string)
| ErrApply (ref : objectRef)
| ErrPrune (ref : objectRef)
| ErrDelete (ref : objectRef)
| ErrHelm
| ErrChart (ref : string)
| ErrHistory
| ErrInstall
| ErrUpgrade
| ErrUninstall (name : string)
| ErrFile (name : string)
| ErrKustomize
| ErrList
| ErrWire (e : Error).
Abbreviation P := (prog kreq kans k_error).

(** ** What the plugin keeps *)

(** [kubeconfigState] *)
Record kubeconfigState : Type := MkKube { kc_Path : string; kc_Inline : string }.
Definition present (k : kubeconfigState) : bool := bool_decide (kc_Path k ≠ "" ∨ kc_Inline k ≠ "").
Definition kubeconfigStateOf (content path : string) : kubeconfigState :=
  if decide (path ≠ "") then MkKube path "" else MkKube "" content.
Definition enc_kube (k : kubeconfigState) : gomap := omit_str "kubeconfigPath" (kc_Path k) ++ omit_str "kubeconfig" (kc_Inline k).
Definition read_kube (m : gomap) : kubeconfigState := MkKube (lfield "kubeconfigpath" dec_str "" m) (lfield "kubeconfig" dec_str "" m).
Definition read_file (path : string) : P string :=
  r ← call (QReadFile path); match r with AText s => Ret s | _ => Fail (ErrReadKubeconfig path) end.
Definition loadKubeconfig (k : kubeconfigState) : P string :=
  if decide (kc_Path k ≠ "") then read_file (kc_Path k)
  else if decide (kc_Inline k ≠ "") then Ret (kc_Inline k) else Fail ErrNoKubeconfig.

(** [releaseState], [manifestState], [platformState], [argoState] *)
Record releaseState : Type := MkReleaseState { rs_Kube : kubeconfigState; rs_Namespace : string; rs_ReleaseName : string }.
Definition hasCluster (st : releaseState) : bool := bool_decide (rs_ReleaseName st ≠ "") && present (rs_Kube st).
Definition enc_release_state (st : releaseState) : value :=
  VMap (enc_kube (rs_Kube st) ++ [("namespace", VStr (rs_Namespace st)); ("releaseName", VStr (rs_ReleaseName st))]).
Definition read_release_state (v : option value) : releaseState :=
  let m := object v in MkReleaseState (read_kube m) (lfield "namespace" dec_str "" m) (lfield "releasename" dec_str "" m).

Record manifestState : Type := MkManifestState { ms_Kube : kubeconfigState; ms_Objects : list objectRef }.
Definition enc_ref (o : objectRef) : value :=
  VMap ([("group", VStr (or_Group o))] ++ [("version", VStr (or_Version o))] ++ [("resource", VStr (or_Resource o))]
    ++ [("kind", VStr (or_Kind o))] ++ omit_str "namespace" (or_Namespace o) ++ [("name", VStr (or_Name o))]).
Definition read_ref (v : value) : objectRef :=
  let m := object (Some v) in
  MkRef (lfield "group" dec_str "" m) (lfield "version" dec_str "" m) (lfield "resource" dec_str "" m) (lfield "kind" dec_str "" m)
    (lfield "namespace" dec_str "" m) (lfield "name" dec_str "" m).
Definition enc_manifest_state (st : manifestState) : value :=
  VMap (enc_kube (ms_Kube st) ++ omit_list "objects" (map enc_ref (ms_Objects st))).
Definition read_manifest_state (v : option value) : manifestState :=
  let m := object v in MkManifestState (read_kube m) (lfield "objects" (dec_list (λ v, Some (read_ref v))) [] m).

Record releaseCoord : Type := MkCoord { rc_Component : string; rc_Name : string; rc_Namespace : string }.
Record platformState : Type := MkPlatformState { ps_Kube : kubeconfigState; ps_Releases : list releaseCoord }.
Definition enc_coord (c : releaseCoord) : value :=
  VMap [("component", VStr (rc_Component c)); ("name", VStr (rc_Name c)); ("namespace", VStr (rc_Namespace c))].
Definition read_coord (v : value) : releaseCoord :=
  let m := object (Some v) in MkCoord (lfield "component" dec_str "" m) (lfield "name" dec_str "" m) (lfield "namespace" dec_str "" m).
Definition enc_platform_state (st : platformState) : value :=
  VMap (enc_kube (ps_Kube st) ++ omit_list "releases" (map enc_coord (ps_Releases st))).
Definition read_platform_state (v : option value) : platformState :=
  let m := object v in MkPlatformState (read_kube m) (lfield "releases" (dec_list (λ v, Some (read_coord v))) [] m).

Record argoState : Type := MkArgoState { as_Kube : kubeconfigState; as_Namespace : string }.
Definition enc_argo_state (st : argoState) : value := VMap (enc_kube (as_Kube st) ++ [("namespace", VStr (as_Namespace st))]).
Definition read_argo_state (v : option value) : argoState :=
  let m := object v in MkArgoState (read_kube m) (lfield "namespace" dec_str "" m).

(** [kubeconfigFromSpec]: the content, and the path when it is one. *)
Definition kubeconfigFromSpec (s : gomap) : P (string * string) :=
  let p := specString s "kubeconfigPath" in
  if decide (p ≠ "") then b ← read_file p; Ret (b, p)
  else let inline := specString s "kubeconfig" in if decide (inline ≠ "") then Ret (inline, "") else Fail ErrNoKubeconfig.
(** What is echoed of a spec. *)
Definition without_kubeconfig (s : gomap) : gomap := filter (λ p, p.1 ≠ "kubeconfig" ∧ p.1 ≠ "kubeconfigPath") s.
Definition observed_named (kind name : string) (spec : option gomap) (status : gomap) : resource :=
  Resource apiVersion kind (ResourceMetadata name "" [] [] "" "") spec (Some status).

Section k8s.
(** apimachinery's reading of an object: its group, version and kind, its name and
    namespace, its apiVersion as it stands, and a nested string. *)
Context (GroupVersionKind : gomap → string * string * string) (GetName GetNamespace GetAPIVersion GetKind : gomap → string).
Context (NestedString : gomap → list string → string).
(** The documents of a YAML or JSON stream that can be decoded, and whether that is all
    of it; a build of a kustomization; [time.ParseDuration]. *)
Context (YamlStream : string → list gomap * bool) (kustomize_build : list (string * string) → string → option string).
Context (ParseDuration : string → option Z).

(** ** Objects in a cluster (manifest.go) *)

Definition fieldManager : string := "openctl-k8s".
Record kubeClient : Type := MkKubeClient { kubeconfig_of : string; mapper_of : string → string → string → option mapping }.
Definition newKubeClient (kubeconfig : string) : P kubeClient :=
  r ← call (QClient kubeconfig); match r with AClient f => Ret (MkKubeClient kubeconfig f) | _ => Fail ErrClient end.

(** [resourceFor] *)
Definition resourceFor (k : kubeClient) (obj : gomap) : result k_error objectRef :=
  let '(group, version, kind) := GroupVersionKind obj in
  if decide (kind = "" ∨ version = "") then Err ErrMissingKind
  else match mapper_of k group kind version with
       | None => Err ErrRestMapping
       | Some mp =>
           let ns := if mp_Namespaced mp then (if decide (GetNamespace obj = "") then "default" else GetNamespace obj) else "" in
           Ok (MkRef (mp_Group mp) (mp_Version mp) (mp_Resource mp) kind ns (GetName obj))
       end.
(** [apply]; a patch of server-side apply that takes the fields of others over. *)
Definition apply_object (k : kubeClient) (obj : gomap) : P objectRef :=
  ref ← lift (resourceFor k obj);
  if decide (or_Name ref = "") then Fail (ErrNoName (or_Kind ref))
  else r ← call (QPatch (kubeconfig_of k) ref obj); match r with AOk => Ret ref | _ => Fail (ErrApply ref) end.
Definition get_object (k : kubeClient) (ref : objectRef) : P bool :=
  r ← call (QGet (kubeconfig_of k) ref); Ret (match r with AOk => true | _ => false end).
Definition delete_object (e : k_error) (k : kubeClient) (ref : objectRef) : P unit :=
  r ← call (QDelete (kubeconfig_of k) ref); match r with AOk | ANotFound => Ret tt | _ => Fail e end.

Definition parseObjects (manifest : string) : result k_error (list gomap) :=
  let '(docs, all) := YamlStream manifest in
  if negb all then Err ErrDecodeManifest
  else match filter (λ o, o ≠ []) docs with [] => Err ErrNoObjects | l => Ok l end.

Definition prunedRefs (prior current : list objectRef) : list objectRef :=
  filter (λ r, ref_id r ∉ map ref_id current) prior.

(** [for _, x := range l { y, err := f(x); if err != nil { return err }; out = append(out, y) }] *)
Fixpoint mapP {A B} (f : A → P B) (l : list A) : P (list B) :=
  match l with
  | [] => Ret []
  | x :: l => y ← f x; ys ← mapP f l; Ret (y :: ys)
  end.

(** ** Manifest and Kustomize (provider.go, kustomize.go) *)

Definition manifestObserved (m : resource) (refs : list objectRef) (kind : string) : resource :=
  observed_named kind (r_name m) (Some (without_kubeconfig (fields (r_spec m))))
    [("objects", VList (map (λ r, VStr (ref_text r)) refs)); ("applied", VInt (Z.of_nat (length refs))); ("phase", VStr "Ready")].

Definition applyObjectSet (m : resource) (content path manifestYAML kind : string) (prior : option value) : P ApplyResult :=
  objs ← lift (parseObjects manifestYAML);
  kc ← newKubeClient content;
  applied ← mapP (apply_object kc) objs;
  _ ← forP_ (λ ref, delete_object (ErrPrune ref) kc ref) (prunedRefs (ms_Objects (read_manifest_state prior)) applied);
  Ret (MkApplyResult (Some (manifestObserved m applied kind)) (Some (enc_manifest_state (MkManifestState (kubeconfigStateOf content path) applied))) None).

Definition applyManifest (m : resource) (prior : option value) : P ApplyResult :=
  '(content, path) ← kubeconfigFromSpec (fields (r_spec m));
  let yaml := specString (fields (r_spec m)) "manifest" in
  if decide (yaml = "") then Fail (ErrRequired "manifest") else applyObjectSet m content path yaml kindManifest prior.

Definition kustomizeFiles (spec : gomap) : result k_error (list (string * string)) :=
  match specMap spec "files" with
  | None | Some [] => Err (ErrRequired "files")
  | Some raw => mapR (λ p : string * value, match p.2 with VStr s => Ok (p.1, s) | _ => Err (ErrFile p.1) end) raw
  end.
Definition renderKustomization (files : list (string * string)) (buildDir : string) : result k_error string :=
  match kustomize_build files buildDir with Some yaml => Ok yaml | None => Err ErrKustomize end.
Definition applyKustomize (m : resource) (prior : option value) : P ApplyResult :=
  '(content, path) ← kubeconfigFromSpec (fields (r_spec m));
  files ← lift (kustomizeFiles (fields (r_spec m)));
  let dir := specString (fields (r_spec m)) "path" in
  rendered ← lift (renderKustomization files (if decide (dir = "") then "." else dir));
  applyObjectSet m content path rendered kindKustomize prior.

Definition not_found {A} (msg : string) : P A := Fail (ErrWire (NotFound msg)).
Definition getObjectSet (q : GetParams) (kind : string) : P GetResult :=
  let st := read_manifest_state (gp_State q) in
  if decide (ms_Objects st = [] ∨ present (ms_Kube st) = false) then not_found (kind +:+ " " +:+ gp_Name q +:+ " has no prior state")
  else
    kc ← loadKubeconfig (ms_Kube st);
    k ← newKubeClient kc;
    found ← mapP (λ ref, b ← get_object k ref; Ret (ref, b)) (ms_Objects st);
    let names := map fst (filter (λ p, p.2 = true) found) in
    if decide (names = []) then not_found (kind +:+ " " +:+ gp_Name q +:+ " objects not found in cluster")
    else Ret (MkGetResult (Some (observed_named kind (gp_Name q) None
           [("objects", VList (map (λ r, VStr (ref_text r)) names)); ("applied", VInt (Z.of_nat (length names)));
            ("phase", VStr (if decide (length names < length (ms_Objects st)) then "Degraded" else "Ready"))])) (gp_State q)).
Definition deleteManifest (q : DeleteParams) : P unit :=
  let st := read_manifest_state (dp_State q) in
  if decide (ms_Objects st = [] ∨ present (ms_Kube st) = false) then Ret tt
  else
    kc ← loadKubeconfig (ms_Kube st);
    k ← newKubeClient kc;
    forP_ (λ ref, delete_object (ErrDelete ref) k ref) (ms_Objects st).

(** ** Helm (helm.go) *)

Definition newActionConfig (kubeconfig namespace : string) : P unit :=
  r ← call (QHelm kubeconfig namespace); match r with AOk => Ret tt | _ => Fail ErrHelm end.
Definition loadChart (kubeconfig namespace : string) (cs : chartSpec) : P string :=
  r ← call (QChart kubeconfig namespace (httpRepoURL cs) (ch_Version cs) (chart_ref cs));
  match r with AChart c => Ret c | _ => Fail (ErrChart (chart_ref cs)) end.
Definition runInstall (kubeconfig : string) (o : releaseOpts) (chart : string) : P release :=
  r ← call (QInstall kubeconfig o chart); match r with ARelease l => Ret l | _ => Fail ErrInstall end.
Definition runUpgrade (kubeconfig : string) (o : releaseOpts) (chart : string) : P release :=
  r ← call (QUpgrade kubeconfig o chart); match r with ARelease l => Ret l | _ => Fail ErrUpgrade end.
Definition installOrUpgrade (kubeconfig namespace : string) (o : releaseOpts) (chart : string) : P release :=
  r ← call (QHistory kubeconfig namespace (ro_releaseName o));
  match r with ANotFound => runInstall kubeconfig o chart | AOk => runUpgrade kubeconfig o chart | _ => Fail ErrHistory end.
Definition getRelease (kubeconfig namespace name : string) : P (option release) :=
  r ← call (QRelease kubeconfig namespace name); Ret (match r with ARelease l => Some l | _ => None end).
(** A release that is not there is gone; any other failure to read it is ignored. *)
Definition uninstall (kubeconfig namespace name : string) : P unit :=
  r ← call (QRelease kubeconfig namespace name);
  match r with
  | ANotFound => Ret tt
  | _ => r ← call (QUninstall kubeconfig namespace name); match r with AOk => Ret tt | _ => Fail (ErrUninstall name) end
  end.

(** [phaseFor]; the statuses as Helm spells them. *)
Definition phaseFor (r : release) : string :=
  if decide (rl_Status r = "deployed") then "Ready"
  else if decide (rl_Status r = "failed" ∨ rl_Status r = "superseded") then "Failed"
  else if decide (rl_Status r = "uninstalled" ∨ rl_Status r = "uninstalling") then "Deleting" else "Pending".
Definition releaseStatus (r : release) : gomap :=
  [("releaseName", VStr (rl_Name r)); ("namespace", VStr (rl_Namespace r)); ("revision", VInt (rl_Version r));
   ("status", VStr (rl_Status r)); ("phase", VStr (phaseFor r))]
  ++ match rl_Chart r with Some (n, v, a) => [("chart", VStr (n +:+ "-" +:+ v)); ("appVersion", VStr a)] | None => [] end.

(** ** HelmRelease (provider.go) *)

Record helmSpec : Type := MkHelmSpec {
  hs_Content : string; hs_Path : string; hs_Chart : chartSpec; hs_Opts : releaseOpts }.
Definition minutes (n : Z) : Z := (n * 60000000000)%Z.
Definition parseHelmSpec (m : resource) : P helmSpec :=
  let s := fields (r_spec m) in
  '(content, path) ← kubeconfigFromSpec s;
  let ns := if decide (specString s "namespace" = "") then "default" else specString s "namespace" in
  match specMap s "chart" with
  | None => Fail (ErrRequired "chart")
  | Some raw =>
      let chart := MkChart (specString raw "repo") (specString raw "name") (specString raw "version") in
      if decide (ch_Repo chart = "") then Fail (ErrRequired "chart.repo")
      else
        let name := if decide (specString s "releaseName" = "") then r_name m else specString s "releaseName" in
        let t := specString s "timeout" in
        Ret (MkHelmSpec content path chart
               (MkOpts name ns (specBool s "createNamespace") (specMap s "values") (specBool s "wait")
                  (if decide (t = "") then minutes 5 else default (minutes 5) (ParseDuration t))))
  end.

Definition observed (m : resource) (rel : release) : resource :=
  observed_named kindHelmRelease (r_name m) (Some (without_kubeconfig (fields (r_spec m)))) (releaseStatus rel).
Definition observedFromRelease (name : string) (rel : release) : resource := observed_named kindHelmRelease name None (releaseStatus rel).

Definition applyHelmRelease (m : resource) : P ApplyResult :=
  spec ← parseHelmSpec m;
  let ns := ro_namespace (hs_Opts spec) in
  _ ← newActionConfig (hs_Content spec) ns;
  ch ← loadChart (hs_Content spec) ns (hs_Chart spec);
  rel ← installOrUpgrade (hs_Content spec) ns (hs_Opts spec) ch;
  Ret (MkApplyResult (Some (observed m rel))
         (Some (enc_release_state (MkReleaseState (kubeconfigStateOf (hs_Content spec) (hs_Path spec)) ns (ro_releaseName (hs_Opts spec))))) None).
Definition getHelmRelease (q : GetParams) : P GetResult :=
  let st := read_release_state (gp_State q) in
  if negb (hasCluster st) then not_found ("HelmRelease " +:+ gp_Name q +:+ " has no prior state")
  else
    kc ← loadKubeconfig (rs_Kube st);
    _ ← newActionConfig kc (rs_Namespace st);
    rel ← getRelease kc (rs_Namespace st) (rs_ReleaseName st);
    match rel with
    | None => not_found ("HelmRelease " +:+ gp_Name q +:+ " not found")
    | Some rel => Ret (MkGetResult (Some (observedFromRelease (gp_Name q) rel)) (gp_State q))
    end.
Definition deleteHelmRelease (q : DeleteParams) : P unit :=
  let st := read_release_state (dp_State q) in
  if negb (hasCluster st) then Ret tt
  else
    kc ← loadKubeconfig (rs_Kube st);
    _ ← newActionConfig kc (rs_Namespace st);
    uninstall kc (rs_Namespace st) (rs_ReleaseName st).

(** ** Platform (platform.go) *)

Record component : Type := MkComponent { cp_name : string; cp_Repo : string; cp_Chart : string; cp_NS : string }.
Definition platformComponents : list component := [
  MkComponent "traefik" "https://traefik.github.io/charts" "traefik" "traefik";
  MkComponent "cloudflared" "https://cloudflare.github.io/helm-charts" "cloudflare-tunnel-remote" "cloudflared";
  MkComponent "argocd" "https://argoproj.github.io/argo-helm" "argo-cd" "argocd";
  MkComponent "nvidiaDevicePlugin" "https://nvidia.github.io/k8s-device-plugin" "nvidia-device-plugin" "nvidia-device-plugin";
  MkComponent "nfsProvisioner" "https://kubernetes-sigs.github.io/nfs-subdir-external-provisioner" "nfs-subdir-external-provisioner" "nfs-provisioner";
  MkComponent "longhorn" "https://charts.longhorn.io" "longhorn" "longhorn-system"].

(** [componentRelease]: its name, where its chart is, and its options. *)
Record componentRelease : Type := MkComponentRelease { cr_name : string; cr_chart : chartSpec; cr_opts : releaseOpts }.
Definition nonempty (s d : string) : string := if decide (s = "") then d else s.
(** [buildComponentRelease] *)
Definition buildComponentRelease (name : string) (raw : gomap) (def : component) : componentRelease :=
  let ns := nonempty (nonempty (specString raw "namespace") (cp_NS def)) name in
  let chart := match specMap raw "chart" with
    | Some cr => MkChart (nonempty (specString cr "repo") (cp_Repo def)) (nonempty (specString cr "name") (cp_Chart def)) (specString cr "version")
    | None => MkChart (cp_Repo def) (cp_Chart def) ""
    end in
  MkComponentRelease name chart (MkOpts name ns true (specMap raw "values") (specBool raw "wait") (minutes 5)).

(** [enabledComponents]; [put] keeps the slot of a name that is taken. *)
Definition put (out : list componentRelease) (c : componentRelease) : list componentRelease :=
  if decide (cr_name c ∈ map cr_name out) then map (λ x, if decide (cr_name x = cr_name c) then c else x) out else out ++ [c].
Definition preset (spec : gomap) (c : component) : option componentRelease :=
  match specMap spec (cp_name c) with
  | Some raw => if specBool raw "enabled" then Some (buildComponentRelease (cp_name c) raw c) else None
  | None => None
  end.
Definition generic (m : gomap) (name : string) : option componentRelease :=
  match specMap m name with
  | None => None
  | Some raw =>
      if decide (assoc "enabled" raw = Some (VBool false)) then None
      else
        let cr := buildComponentRelease name raw (MkComponent "" "" "" "") in
        if decide (ch_Repo (cr_chart cr) = "" ∨ ch_Name (cr_chart cr) = "") then None else Some cr
  end.
Definition enabledComponents (spec : gomap) : list componentRelease :=
  let out := foldl put [] (omap (preset spec) platformComponents) in
  match specMap spec "components" with
  | Some m => foldl put out (omap (generic m) (sort_strings m.*1))
  | None => out
  end.

Definition prunedReleases (prior current : list releaseCoord) : list releaseCoord :=
  filter (λ r, rc_Component r ∉ map rc_Component current) prior.
Definition coord_of (c : componentRelease) : releaseCoord := MkCoord (cr_name c) (ro_releaseName (cr_opts c)) (ro_namespace (cr_opts c)).
(** One component, and the removal of one. *)
Definition install_component (content : string) (c : componentRelease) : P releaseCoord :=
  let ns := ro_namespace (cr_opts c) in
  _ ← newActionConfig content ns;
  ch ← loadChart content ns (cr_chart c);
  _ ← installOrUpgrade content ns (cr_opts c) ch;
  Ret (coord_of c).
Definition uninstall_component (kubeconfig : string) (rc : releaseCoord) : P unit :=
  _ ← newActionConfig kubeconfig (rc_Namespace rc); uninstall kubeconfig (rc_Namespace rc) (rc_Name rc).

Definition applyPlatform (m : resource) (prior : option value) : P ApplyResult :=
  '(content, path) ← kubeconfigFromSpec (fields (r_spec m));
  installed ← mapP (install_component content) (enabledComponents (fields (r_spec m)));
  _ ← forP_ (uninstall_component content) (prunedReleases (ps_Releases (read_platform_state prior)) installed);
  Ret (MkApplyResult
         (Some (observed_named kindPlatform (r_name m) (Some (without_kubeconfig (fields (r_spec m))))
            [("components", VList (map VStr (sort_strings (map rc_Component installed)))); ("enabled", VInt (Z.of_nat (length installed)));
             ("phase", VStr "Ready")]))
         (Some (enc_platform_state (MkPlatformState (kubeconfigStateOf content path) installed))) None).
Definition getPlatform (q : GetParams) : P GetResult :=
  let st := read_platform_state (gp_State q) in
  if decide (ps_Releases st = [] ∨ present (ps_Kube st) = false) then not_found ("Platform " +:+ gp_Name q +:+ " has no prior state")
  else
    kc ← loadKubeconfig (ps_Kube st);
    rels ← mapP (λ rc, _ ← newActionConfig kc (rc_Namespace rc); rel ← getRelease kc (rc_Namespace rc) (rc_Name rc); Ret (rc_Component rc, rel)) (ps_Releases st);
    let there := filter (λ p, p.2 ≠ None) rels in
    let ready := length (filter (λ p, phaseFor <$> p.2 = Some "Ready") rels) in
    if decide (there = []) then not_found ("Platform " +:+ gp_Name q +:+ " components not found")
    else Ret (MkGetResult (Some (observed_named kindPlatform (gp_Name q) None
           [("components", VList (map (λ p, VStr p.1) there)); ("ready", VInt (Z.of_nat ready)); ("enabled", VInt (Z.of_nat (length (ps_Releases st))));
            ("phase", VStr (if decide (ready < length (ps_Releases st)) then "Degraded" else "Ready"))])) (gp_State q)).
Definition deletePlatform (q : DeleteParams) : P unit :=
  let st := read_platform_state (dp_State q) in
  if decide (ps_Releases st = [] ∨ present (ps_Kube st) = false) then Ret tt
  else kc ← loadKubeconfig (ps_Kube st); forP_ (uninstall_component kc) (ps_Releases st).
Definition platform_child (m : resource) (c : componentRelease) : resource :=
  Resource apiVersion kindHelmRelease
    (ResourceMetadata (r_name m +:+ "-" +:+ cr_name c) "" [("openctl.io/owner-kind", kindPlatform); ("openctl.io/owner-name", r_name m)] [] "" "")
    (Some [("namespace", VStr (ro_namespace (cr_opts c)));
           ("chart", VMap [("repo", VStr (ch_Repo (cr_chart c))); ("name", VStr (ch_Name (cr_chart c))); ("version", VStr (ch_Version (cr_chart c)))])])
    None.
Definition planPlatform (m : resource) : list resource := map (platform_child m) (enabledComponents (fields (r_spec m))).

(** ** ArgoApplications (argo.go) *)

Record argoApp : Type := MkArgoApp { aa_Name : string; aa_Health : string; aa_Sync : string }.
Definition argo_le (a b : argoApp) : Prop := String.le (aa_Name a) (aa_Name b).
#[export] Instance argo_le_dec : RelDecision argo_le.
Proof. intros a b. unfold argo_le. apply _. Defined.
Definition summarizeArgoApp (u : gomap) : argoApp :=
  MkArgoApp (GetName u) (NestedString u ["status"; "health"; "status"]) (NestedString u ["status"; "sync"; "status"]).
Definition argoNamespace (spec : gomap) : string := nonempty (specString spec "namespace") "argocd".
(** [readArgoApps] *)
Definition readArgoApps (kubeconfig namespace : string) : P (list argoApp) :=
  k ← newKubeClient kubeconfig;
  r ← call (QList (kubeconfig_of k) "argoproj.io" "v1alpha1" "applications" namespace);
  match r with AItems l => Ret (merge_sort argo_le (map summarizeArgoApp l)) | _ => Fail ErrList end.
Definition argoObserved (name : string) (spec : option gomap) (apps : list argoApp) : resource :=
  let healthy := length (filter (λ a, aa_Health a = "Healthy") apps) in
  observed_named kindArgoApplications name spec
    [("applications", VList (map (λ a, VMap [("name", VStr (aa_Name a)); ("health", VStr (aa_Health a)); ("sync", VStr (aa_Sync a))]) apps));
     ("count", VInt (Z.of_nat (length apps))); ("healthy", VInt (Z.of_nat healthy));
     ("phase", VStr (if decide (healthy < length apps) then "Degraded" else "Ready"))].
Definition applyArgoApplications (m : resource) : P ApplyResult :=
  '(content, path) ← kubeconfigFromSpec (fields (r_spec m));
  let ns := argoNamespace (fields (r_spec m)) in
  apps ← readArgoApps content ns;
  Ret (MkApplyResult (Some (argoObserved (r_name m) (Some [("namespace", VStr ns)]) apps))
         (Some (enc_argo_state (MkArgoState (kubeconfigStateOf content path) ns))) None).
Definition getArgoApplications (q : GetParams) : P GetResult :=
  let st := read_argo_state (gp_State q) in
  if negb (present (as_Kube st)) then not_found ("ArgoApplications " +:+ gp_Name q +:+ " has no prior state")
  else
    kc ← loadKubeconfig (as_Kube st);
    apps ← readArgoApps kc (nonempty (as_Namespace st) "argocd");
    Ret (MkGetResult (Some (argoObserved (gp_Name q) None apps)) (gp_State q)).

(** ** Children (children.go) *)

Definition apiVersionFor (group version : string) : string := if decide (group = "") then version else group +:+ "/" +:+ version.
Definition refsFromReleaseManifest (manifest : string) : list ResourceRef :=
  match parseObjects manifest with
  | Err _ => []
  | Ok objs => map (λ o, MkResourceRef (GetAPIVersion o) (GetKind o) (GetName o)) (filter (λ o, GetName o ≠ "") objs)
  end.
(** An error on the way is no error: there are no children then. *)
Definition childrenOfHelmRelease (state : option value) : P (list ResourceRef) :=
  let st := read_release_state state in
  if negb (hasCluster st) then Ret []
  else
    r ← try (F := k_error) (kc ← loadKubeconfig (rs_Kube st); _ ← newActionConfig kc (rs_Namespace st); getRelease kc (rs_Namespace st) (rs_ReleaseName st));
    Ret (match r with Ok (Some rel) => refsFromReleaseManifest (rl_Manifest rel) | _ => [] end).
Definition childrenOfManifest (state : option value) : list ResourceRef :=
  map (λ r, MkResourceRef (apiVersionFor (or_Group r) (or_Version r)) (or_Kind r) (or_Name r))
    (filter (λ r, or_Name r ≠ "") (ms_Objects (read_manifest_state state))).
Definition ChildrenOf (q : RefParams) : P (list ResourceRef) :=
  if decide (rp_Kind q = kindHelmRelease) then childrenOfHelmRelease (rp_State q)
  else Ret (if decide (rp_Kind q = kindManifest) then childrenOfManifest (rp_State q) else []).

(** ** The handler (provider.go) *)

Definition not_handled (kind : string) : k_error :=
  ErrWire (Unsupported ("k8s provider handles HelmRelease, Manifest, Kustomize and Platform, not " +:+ kind)).
Definition Apply (q : ApplyParams) : P ApplyResult :=
  match ap_Manifest q with
  | None => Fail (ErrWire (Unsupported "apply: nil manifest"))
  | Some m =>
      if decide (r_kind m = kindHelmRelease) then applyHelmRelease m
      else if decide (r_kind m = kindManifest) then applyManifest m (ap_State q)
      else if decide (r_kind m = kindKustomize) then applyKustomize m (ap_State q)
      else if decide (r_kind m = kindPlatform) then applyPlatform m (ap_State q)
      else if decide (r_kind m = kindArgoApplications) then applyArgoApplications m
      else Fail (not_handled (r_kind m))
  end.
Definition Get (q : GetParams) : P GetResult :=
  if decide (gp_Kind q = kindHelmRelease) then getHelmRelease q
  else if decide (gp_Kind q = kindManifest) then getObjectSet q kindManifest
  else if decide (gp_Kind q = kindKustomize) then getObjectSet q kindKustomize
  else if decide (gp_Kind q = kindPlatform) then getPlatform q
  else if decide (gp_Kind q = kindArgoApplications) then getArgoApplications q
  else Fail (not_handled (gp_Kind q)).
Definition Delete (q : DeleteParams) : P unit :=
  if decide (dp_Kind q = kindHelmRelease) then deleteHelmRelease q
  else if decide (dp_Kind q = kindManifest ∨ dp_Kind q = kindKustomize) then deleteManifest q
  else if decide (dp_Kind q = kindPlatform) then deletePlatform q
  else Ret tt.
Definition Plan (m : option resource) : result herror (list (option resource)) :=
  match m with
  | Some m => if decide (r_kind m = kindPlatform) then Ok (map Some (planPlatform m)) else Err (Wire (Unsupported "only Platform composes"))
  | None => Err (Wire (Unsupported "only Platform composes"))
  end.

(** What an error is on the wire; the texts are cut. *)
Definition handler_error (e : k_error) : herror := match e with ErrWire e => Wire e | _ => Other "k8s" end.

(** The plugin with its environment; the schemas of schema.go are an argument. *)
Context (schema_of : string → string).
Definition Handshake : HandshakeResult :=
  MkHandshake "k8s" ProtocolVersion
    (map (λ k, MkKind k (schema_of k) [] false "" "") [kindHelmRelease; kindManifest; kindKustomize; kindPlatform; kindArgoApplications])
    ["schema"; CapabilityState; CapabilityPlan; CapabilityChildren].

Context {W : Type} (serve : kreq → W → kans * W).
Definition performed {A B} (f : A → B) (p : P A) (w : W) : result herror B * W :=
  let '(x, _, w) := run serve p w in (f <$> map_err handler_error x, w).
Definition handler : Handler W :=
  let base := Unimplemented (λ w, (Ok (Some Handshake), w)) (λ q, performed Some (Apply q)) (λ q, performed Some (Get q))
    (λ _ w, (Ok [], w)) (λ q, performed id (Delete q)) in
  MkHandler (h_Handshake base) (h_Configure base) (h_Apply base) (h_Get base) (h_List base) (h_Delete base)
    (λ m w, (Some <$> Plan m, w)) (h_DryRun base) (h_DoAction base) (h_OwnerOf base) (λ q, performed id (ChildrenOf q)).
End k8s.
