(* ===== verification/K8sCluster.v ===== *)
(** What the Manifest and Kustomize kinds of the Kubernetes plugin ask of a cluster, over
    any sequence of applies, reads and deletions and whatever the cluster answers; and
    what they, and Platform, leave behind. *)
From Stdlib Require Import Ascii.
From S2P Require Import Prelude GoStrings GoValue Json Registry PluginProto Effects JsonCode K8s.

(** ** What a cluster was asked *)

(** An object is stored once, whatever version of its kind it is written in. *)
Definition key_of (r : objectRef) : string * string * string * string := (or_Group r, or_Resource r, or_Namespace r, or_Name r).
Abbreviation okey := (string * string * string * string)%type.
Abbreviation klog := (list (kreq * kans)).

(** A server that writes down what it is asked, and what it answers. *)
Definition logged {V} (serve : kreq → V → kans * V) (q : kreq) (w : V * klog) : kans * (V * klog) :=
  let '(r, v) := serve q w.1 in (r, (v, w.2 ++ [(q, r)])).

(** The last change of an object that the server accepted: a patch, or a deletion (of an
    object that is not there, too). *)
Definition changed (k : okey) (last : option bool) (e : kreq * kans) : option bool :=
  match e with
  | (QPatch _ r _, AOk) => if decide (key_of r = k) then Some true else last
  | (QDelete _ r, AOk) | (QDelete _ r, ANotFound) => if decide (key_of r = k) then Some false else last
  | _ => last
  end.
Definition last_change (log : klog) (k : okey) : option bool := foldl (changed k) None log.

Section requests.
(** Where an object of a manifest belongs. *)
Context (kc : string) (want : gomap → option objectRef).

(** Requests to the cluster that change no object but those of a list, each by a patch
    with an object that belongs there. *)
Definition only (l : list okey) (q : kreq) : Prop :=
  match q with
  | QReadFile _ => True
  | QClient c | QGet c _ => c = kc
  | QPatch c r o => c = kc ∧ want o = Some r ∧ key_of r ∈ l
  | QDelete c r => c = kc ∧ key_of r ∈ l
  | _ => False
  end.
Definition asks_only {V} (l : list okey) (w w' : V * klog) : Prop := ∃ t, w'.2 = w.2 ++ t ∧ Forall (λ e, only l e.1) t.

Context {V : Type}.
Implicit Types w : V * klog.

Lemma only_mono l l' q : only l q → l ⊆ l' → only l' q.
Proof. destruct q; simpl; naive_solver. Qed.
Lemma asks_refl l w : asks_only l w w.
Proof. exists []. by rewrite app_nil_r. Qed.
Lemma asks_mono l l' w w' : asks_only l w w' → l ⊆ l' → asks_only l' w w'.
Proof. intros (t & Ht & Hf) Hl. exists t. split; [done|]. eapply Forall_impl; [exact Hf|]. intros e He. exact (only_mono l l' _ He Hl). Qed.
Lemma asks_in l w1 w2 w3 : asks_only l w1 w2 → asks_only l w2 w3 → asks_only l w1 w3.
Proof. intros (t1 & H1 & F1) (t2 & H2 & F2). exists (t1 ++ t2). rewrite H2, H1, app_assoc. split; [done|]. by apply Forall_app. Qed.
Lemma asks_trans l l' w1 w2 w3 : asks_only l w1 w2 → asks_only l' w2 w3 → asks_only (l ++ l') w1 w3.
Proof. intros H1 H2. eapply asks_in; (eapply asks_mono; [eassumption|set_solver]). Qed.
Lemma asks_one l (serve : kreq → V → kans * V) q w : only l q → asks_only l w (logged serve q w).2.
Proof. intros Hq. unfold logged. destruct (serve q w.1) as [r v]. exists [(q, r)]. split; [done|]. by apply Forall_singleton. Qed.

(** What is not asked for keeps its last change. *)
Lemma asks_last l w w' k : asks_only l w w' → k ∉ l → last_change w'.2 k = last_change w.2 k.
Proof.
  intros (t & -> & Hf) Hk. unfold last_change. rewrite foldl_app. generalize (foldl (changed k) None w.2). induction Hf as [|[q r] t Hq _ IH]; intros last; [done|].
  simpl. rewrite IH. destruct q, r; try done; simpl in *; rewrite decide_False by naive_solver; done.
Qed.
Lemma asks_nil w1 w2 k : asks_only [] w1 w2 → last_change w2.2 k = last_change w1.2 k.
Proof. intros Hs. eapply asks_last; [done|]. apply not_elem_of_nil. Qed.
End requests.

(** ** The state that is kept is read as it was written *)

Lemma read_ref_enc r : read_ref (enc_ref r) = r.
Proof.
  destruct r as [g v rs k n nm]. unfold read_ref, enc_ref, object. cbn [or_Group or_Version or_Resource or_Kind or_Namespace or_Name].
  rewrite <- (tail_nil [("name", VStr nm)]). f_equal; apply lfield_jfield; by read_field.
Qed.
Lemma read_manifest_enc st : read_manifest_state (Some (enc_manifest_state st)) = st.
Proof.
  destruct st as [[p i] l]. unfold read_manifest_state, enc_manifest_state, read_kube, enc_kube, object. cbn [ms_Kube ms_Objects kc_Path kc_Inline].
  rewrite <- (tail_nil (omit_list "objects" _)), <- !app_assoc.
  f_equal; [f_equal; apply lfield_jfield; by read_field|]. apply lfield_jfield. rewrite !jfield_skip by lacks_tac.
  apply jfield_omit_list; [done|lacks_tac|]. intros a. by rewrite read_ref_enc.
Qed.

(** ** One apply, one deletion *)

Section lifecycle.
Context (GroupVersionKind : gomap → string * string * string) (GetName GetNamespace : gomap → string).
Context (NestedString : gomap → list string → string).
Context (YamlStream : string → list gomap * bool) (kustomize_build : list (string * string) → string → option string).
Context (ParseDuration : string → option Z).
(** A server that answers as it likes, and the kinds of one cluster: a kind that is
    served is always served as the same resource, in the same scope. *)
Context {V : Type} (serve : kreq → V → kans * V) (kc : string) (kinds : string → string → string → option mapping).
Definition same_kinds : Prop :=
  ∀ v f, (serve (QClient kc) v).1 = AClient f → ∀ group kind version, f group kind version = None ∨ f group kind version = kinds group kind version.
Context (Hkinds : same_kinds).

#[local] Abbreviation W := (V * klog)%type.
#[local] Abbreviation server := (logged serve).
#[local] Abbreviation resourceFor := (K8s.resourceFor GroupVersionKind GetName GetNamespace).
#[local] Abbreviation apply_object := (K8s.apply_object GroupVersionKind GetName GetNamespace).
#[local] Abbreviation applyObjectSet := (K8s.applyObjectSet GroupVersionKind GetName GetNamespace YamlStream).
#[local] Abbreviation Apply := (K8s.Apply GroupVersionKind GetName GetNamespace NestedString YamlStream kustomize_build ParseDuration).
#[local] Abbreviation Get := (K8s.Get GetName NestedString).
#[local] Abbreviation keys := (map key_of).

(** Where an object belongs: in its own namespace if its kind has namespaces, in the
    one named default if it names none, and in no namespace otherwise. *)
Definition want (o : gomap) : option objectRef :=
  let '(group, version, kind) := GroupVersionKind o in
  if decide (GetName o = "" ∨ kind = "" ∨ version = "") then None
  else place ← kinds group kind version;
       Some {| or_Group := mp_Group place; or_Version := mp_Version place; or_Resource := mp_Resource place; or_Kind := kind;
               or_Namespace := match mp_Namespaced place, GetNamespace o with false, _ => "" | true, EmptyString => "default" | true, ns => ns end;
               or_Name := GetName o |}.
#[local] Abbreviation asks_only := (asks_only kc want).
#[local] Hint Resolve asks_refl : core.

Definition client_here (k : kubeClient) : Prop :=
  kubeconfig_of k = kc ∧ ∀ group kind version, mapper_of k group kind version = None ∨ mapper_of k group kind version = kinds group kind version.
Lemma resource_wanted k o r : client_here k → resourceFor k o = Ok r → or_Name r ≠ "" → want o = Some r.
Proof.
  intros [_ Hk]. unfold K8s.resourceFor, want. destruct (GroupVersionKind o) as [[group version] kind]. case_decide as Hd; [done|].
  destruct (Hk group kind version) as [-> | ->]; [done|]. destruct (kinds group kind version) as [mp|]; [|done]. intros [= <-] Hn. simpl in Hn.
  rewrite decide_False by tauto. simpl. do 2 f_equal. destruct (mp_Namespaced mp); [|done]. by destruct (GetNamespace o).
Qed.
Lemma wp_client w : wp server (newKubeClient kc) w (λ x w', asks_only [] w w' ∧ ∀ k, x = Ok k → client_here k).
Proof.
  apply wp_bind, wp_call. unfold logged. destruct (serve (QClient kc) w.1) as [r v] eqn:Hr. unfold wp.
  assert (asks_only [] w (v, w.2 ++ [(QClient kc, r)])) as Hs by (eexists [_]; split; [done|by apply Forall_singleton]).
  destruct r as [ | | | |f| | | ]; (split; [done|]); try done. intros k [= <-]. split; [done|]. apply (Hkinds w.1). by rewrite Hr.
Qed.
Lemma wp_apply_object k o w : client_here k →
  wp server (apply_object k o) w (λ x w', asks_only (keys (option_list (want o))) w w' ∧
    ∀ r, x = Ok r → want o = Some r ∧ last_change w'.2 (key_of r) = Some true).
Proof.
  intros Hk. unfold apply_object. apply wp_bind, wp_lift. destruct (resourceFor k o) as [r|e] eqn:Hr; [|split; [apply asks_refl|done]].
  destruct (decide (or_Name r = "")) as [Hn|Hn]; [split; [apply asks_refl|done]|]. pose proof (resource_wanted k o r Hk Hr Hn) as Hw.
  destruct Hk as [Hkc _]. apply wp_bind, wp_call. rewrite Hkc.
  assert (asks_only (keys (option_list (want o))) w (server (QPatch kc r o) w).2) as Hs.
  { apply asks_one. simpl. rewrite Hw. simpl. split; [done|]. split; [done|]. by left. }
  unfold logged in *. destruct (serve (QPatch kc r o) w.1) as [a v]. unfold wp. destruct a; (split; [exact Hs|]); try done. intros r' [= <-].
  split; [done|]. unfold last_change. simpl. rewrite foldl_app. simpl. by rewrite decide_True.
Qed.
Lemma wp_apply_objects k objs w : client_here k →
  wp server (mapP (apply_object k) objs) w (λ x w', asks_only (keys (omap want objs)) w w' ∧
    ∀ refs, x = Ok refs → refs = omap want objs ∧ ∀ k, k ∈ keys refs → last_change w'.2 k = Some true).
Proof.
  intros Hc. revert w. induction objs as [|o objs IH]; intros w; simpl.
  { split; [apply asks_refl|]. intros refs [= <-]. split; [done|]. intros k0 []%not_elem_of_nil. }
  apply wp_bind. eapply wp_mono; [by apply wp_apply_object|]. intros [r|e] w1 [Hs Hr].
  - destruct (Hr r eq_refl) as [Hw Hl]. rewrite Hw in Hs |- *. apply wp_bind. eapply wp_mono; [apply IH|]. intros [rs|e] w2 [Hs2 Hrs].
    + destruct (Hrs rs eq_refl) as [-> Hls]. unfold wp. simpl. split.
      { eapply asks_mono; [by eapply asks_trans|]. simpl. set_solver. }
      intros refs [= <-]. split; [done|]. simpl. intros k0 [->|Hk]%elem_of_cons; [|by apply Hls].
      destruct (decide (key_of r ∈ keys (omap want objs))) as [Hin|Hin]; [by apply Hls|]. by rewrite (asks_last _ _ _ _ _ _ Hs2 Hin).
    + split; [|done]. eapply asks_mono; [by eapply asks_trans|]. simpl. set_solver.
  - split; [|done]. eapply asks_mono; [done|]. destruct (want o); simpl; set_solver.
Qed.

(** Deleting a list of objects: the deletions of all of them are accepted, and nothing
    else is asked for. *)
Definition gone (w : W) (k : okey) : Prop := last_change w.2 k = Some false.
Lemma wp_delete_object err k r w : client_here k →
  wp server (delete_object err k r) w (λ x w', asks_only [key_of r] w w' ∧ match x with Ok _ => gone w' (key_of r) | Err _ => True end).
Proof.
  intros [Hkc _]. apply wp_bind, wp_call. rewrite Hkc.
  assert (asks_only [key_of r] w (server (QDelete kc r) w).2) as Hs by (apply asks_one; simpl; split; [done|by left]).
  unfold logged in *. destruct (serve (QDelete kc r) w.1) as [a v].
  destruct a; (split; [exact Hs|]); try done; unfold gone, last_change; simpl; rewrite foldl_app; simpl; by rewrite decide_True.
Qed.
Lemma wp_delete_objects err k (l : list objectRef) w : client_here k →
  wp server (forP_ (λ r, delete_object (err r) k r) l) w (λ x w', asks_only (keys l) w w' ∧
    (x = Ok tt → ∀ k, k ∈ keys l → gone w' k)).
Proof.
  intros Hc. eapply (wp_forP server _ _ _ (λ rest w', ∃ done, l = done ++ rest ∧ asks_only (keys done) w w' ∧ ∀ k, k ∈ keys done → gone w' k)).
  - exists []. split; [done|]. split; [apply asks_refl|]. intros k0 []%not_elem_of_nil.
  - intros w' (before & -> & Hs & Hg). rewrite app_nil_r. eauto.
  - intros r rest w1 (before & Hl & Hs & Hg). eapply wp_mono; [by apply wp_delete_object|]. intros x w2 [Hs2 Hx].
    assert (asks_only (keys (before ++ [r])) w w2) as Hs' by (rewrite map_app; by eapply asks_trans). destruct x as [[]|e].
    + exists (before ++ [r]). rewrite <- app_assoc. split; [done|]. split; [done|]. intros k0. rewrite map_app.
      destruct (decide (k0 = key_of r)) as [->|Hne]; [done|]. intros [Hk|Hk]%elem_of_app; [|by apply list_elem_of_singleton in Hk].
      unfold gone. rewrite (asks_last _ _ _ _ _ _ Hs2); [by apply Hg|]. by intros ?%list_elem_of_singleton.
    + split; [|done]. eapply asks_mono; [done|]. rewrite Hl, !map_app. simpl. set_solver.
Qed.

(** The objects that a manifest asks for, empty documents apart. *)
Definition objects_of (yaml : string) : list objectRef :=
  let '(docs, whole) := YamlStream yaml in if whole then omap want (filter (λ o, o ≠ []) docs) else [].
Lemma objects_parsed yaml objs : parseObjects YamlStream yaml = Ok objs → objects_of yaml = omap want objs.
Proof.
  unfold parseObjects, objects_of. destruct (YamlStream yaml) as [docs []]; [|done]. simpl. destruct (filter (λ o, o ≠ []) docs); [done|]. by intros [= <-].
Qed.
(** What a successful apply asked for. *)
Definition settled (cur new : list objectRef) (w w' : W) : Prop :=
  asks_only (keys (new ++ prunedRefs cur new)) w w' ∧ (∀ k, k ∈ keys (prunedRefs cur new) → gone w' k) ∧
  (∀ k, k ∈ keys new → k ∉ keys (prunedRefs cur new) → last_change w'.2 k = Some true).
Lemma settled_after cur new w w1 w2 : asks_only [] w w1 → settled cur new w1 w2 → settled cur new w w2.
Proof. intros H1 (H2 & Hr). split; [by eapply (asks_trans _ _ [])|done]. Qed.

Lemma wp_object_set m path yaml kind prior w :
  let cur := ms_Objects (read_manifest_state prior) in let new := objects_of yaml in
  wp server (applyObjectSet m kc path yaml kind prior) w (λ x w', asks_only (keys (new ++ cur)) w w' ∧ ∀ r, x = Ok r →
    ar_State r = Some (enc_manifest_state (MkManifestState (kubeconfigStateOf kc path) new)) ∧ settled cur new w w').
Proof.
  intros cur new. unfold applyObjectSet. apply wp_bind, wp_lift. destruct (parseObjects YamlStream yaml) as [objs|e] eqn:Ho; [|split; [apply asks_refl|done]].
  apply objects_parsed in Ho. fold new in Ho. rewrite Ho.
  fold cur. apply wp_bind. eapply wp_mono; [apply wp_client|]. intros [k|e] w1 [Hs1 Hk]; [|split; [by eapply asks_mono; [done|set_solver]|done]].
  specialize (Hk k eq_refl). apply wp_bind. eapply wp_mono; [by apply wp_apply_objects|]. intros [refs|e] w2 [Hs2 Hr].
  2:{ split; [|done]. rewrite map_app. eapply asks_mono; [by eapply asks_trans|]. set_solver. }
  destruct (Hr refs eq_refl) as [-> Hl]. apply wp_bind. eapply wp_mono; [by apply (wp_delete_objects ErrPrune)|]. intros x w3 [Hs3 Hg].
  assert (asks_only (keys (omap want objs ++ prunedRefs cur (omap want objs))) w w3) as Hs.
  { rewrite map_app. eapply asks_mono; [eapply asks_trans; [eapply asks_trans; [exact Hs1|exact Hs2]|exact Hs3]|]. set_solver. }
  assert (asks_only (keys (omap want objs ++ cur)) w w3) as Hs'.
  { eapply asks_mono; [done|]. rewrite !map_app. unfold prunedRefs. intros k0. rewrite !elem_of_app, !list_elem_of_fmap. setoid_rewrite list_elem_of_filter.
    naive_solver. }
  destruct x as [[]|e]; [|done]. unfold wp. simpl. split; [done|]. intros r [= <-]. split; [done|]. split; [done|]. split; [by apply Hg|].
  intros k0 Hk0 Hn. by rewrite (asks_last _ _ _ _ _ _ Hs3 Hn), Hl.
Qed.

(** ** Kubeconfigs that lead to this cluster *)

Definition file_ok (path : string) : Prop := ∀ v c, (serve (QReadFile path) v).1 = AText c → c = kc.
Definition leads (k : kubeconfigState) : Prop := if decide (kc_Path k = "") then kc_Inline k = kc else file_ok (kc_Path k).
Definition spec_leads (s : gomap) : Prop :=
  if decide (specString s "kubeconfigPath" = "") then specString s "kubeconfig" = kc else file_ok (specString s "kubeconfigPath").

Lemma wp_read_file path w : file_ok path →
  wp server (read_file path) w (λ x w', asks_only [] w w' ∧ ∀ c, x = Ok c → c = kc).
Proof.
  intros Hf. apply wp_bind, wp_call. specialize (Hf w.1). pose proof (asks_one kc want [] serve (QReadFile path) w I) as Hs.
  unfold logged in *. destruct (serve (QReadFile path) w.1) as [a v]. unfold wp. simpl in *. destruct a; (split; [exact Hs|]); try done. intros c [= <-]. by apply Hf.
Qed.
Lemma wp_load k w : leads k → wp server (loadKubeconfig k) w (λ x w', asks_only [] w w' ∧ ∀ c, x = Ok c → c = kc).
Proof.
  pose proof (asks_refl kc want [] w) as H0. unfold leads, loadKubeconfig. intros Hk. destruct (decide (kc_Path k = "")) as [Hp|Hp].
  - rewrite decide_False by congruence. case_decide; unfold wp; simpl; [|done]. split; [done|]. intros c [= <-]. done.
  - rewrite decide_True by done. by apply wp_read_file.
Qed.
Lemma wp_from_spec s w : spec_leads s →
  wp server (kubeconfigFromSpec s) w (λ x w', asks_only [] w w' ∧ ∀ c p, x = Ok (c, p) →
    c = kc ∧ present (kubeconfigStateOf kc p) = true ∧ leads (kubeconfigStateOf kc p)).
Proof.
  pose proof (asks_refl kc want [] w) as H0. unfold leads, spec_leads, kubeconfigStateOf, kubeconfigFromSpec, present. destruct (decide (specString s "kubeconfigPath" ≠ "")) as [Hp|Hp]; intros Hk.
  - rewrite decide_False in Hk by done. apply wp_bind. eapply wp_mono; [by apply wp_read_file|].
    intros [b|e] w1 [Hs Hc]; [|done]. unfold wp. simpl. split; [done|]. intros c p [= <- <-]. split; [by apply Hc|]. rewrite decide_True by done.
    cbn [kc_Path kc_Inline]. rewrite decide_False by done. split; [apply bool_decide_eq_true; by left|done].
  - apply dec_stable in Hp. rewrite decide_True in Hk by done. case_decide as Hi; unfold wp; simpl; [|done]. split; [done|].
    intros c p [= <- <-]. rewrite Hk in Hi |- *. split; [done|]. cbn. split; [apply bool_decide_eq_true; by right|done].
Qed.

(** ** A manifest *)

Definition is_set (kind : string) : Prop := kind = kindManifest ∨ kind = kindKustomize.
(** The files that a Kustomize carries: texts by name. *)
Definition files_of (s : gomap) : option (list (string * string)) :=
  raw ← specMap s "files"; mapM (λ p : string * value, match p.2 with VStr t => Some (p.1, t) | _ => None end) raw.
Lemma files_read s files : kustomizeFiles s = Ok files → files_of s = Some files.
Proof.
  unfold kustomizeFiles, files_of. destruct (specMap s "files") as [[|p raw]|]; [done| |done]. intros H%mapR_Ok. apply mapM_Some.
  eapply Forall2_impl; [exact H|]. intros [n v] y. destruct v; simpl; by intros [= <-].
Qed.
Definition yaml_of (m : resource) : option string :=
  let s := fields (r_spec m) in
  if decide (r_kind m = kindManifest) then (if decide (specString s "manifest" = "") then None else Some (specString s "manifest"))
  else files ← files_of s; kustomize_build files (if decide (specString s "path" = "") then "." else specString s "path").
Definition wants (m : resource) : list objectRef := match yaml_of m with Some y => objects_of y | None => [] end.

(** What is kept for a resource: nothing, or the objects of its last successful apply. *)
Definition recorded (state : option value) (cur : list objectRef) : Prop :=
  (state = None ∧ cur = []) ∨
  ∃ k, state = Some (enc_manifest_state (MkManifestState k cur)) ∧ present k = true ∧ leads k.

Lemma wp_apply m cur state w : is_set (r_kind m) → spec_leads (fields (r_spec m)) → recorded state cur →
  wp server (Apply (MkApplyParams (Some m) state None)) w (λ x w', asks_only (keys (wants m ++ cur)) w w' ∧ ∀ r, x = Ok r →
    recorded (ar_State r) (wants m) ∧ settled cur (wants m) w w').
Proof.
  intros Hkind Hleads Hrec.
  assert (ms_Objects (read_manifest_state state) = cur) as Hcur by (destruct Hrec as [[-> ->]|(k & -> & _)]; [done|by rewrite read_manifest_enc]).
  assert (∀ path yaml kind w1, yaml_of m = Some yaml → asks_only [] w w1 → present (kubeconfigStateOf kc path) = true → leads (kubeconfigStateOf kc path) →
    wp server (applyObjectSet m kc path yaml kind state) w1 (λ x w', asks_only (keys (wants m ++ cur)) w w' ∧ ∀ r, x = Ok r →
    recorded (ar_State r) (wants m) ∧ settled cur (wants m) w w')) as Hset.
  { intros path yaml kind w1 Hy Hs Hp Hl. unfold wants. rewrite Hy. eapply wp_mono; [apply wp_object_set|]. rewrite Hcur. intros x w2 [Hs2 Hx].
    split; [by eapply (asks_trans _ _ [])|]. intros r Hr. destruct (Hx r Hr) as (Hst & Hset). split.
    { right. exists (kubeconfigStateOf kc path). by rewrite Hst. }
    by eapply settled_after. }
  unfold Apply. cbn [ap_Manifest ap_State]. rewrite decide_False by (by destruct Hkind as [-> | ->]). destruct (decide (r_kind m = kindManifest)) as [Hm|Hm].
  - unfold applyManifest. apply wp_bind. eapply wp_mono; [by apply wp_from_spec|]. intros [[c p]|e] w1 [Hs Hc].
    + destruct (Hc c p eq_refl) as (-> & Hp & Hl). case_decide as Hy.
      * unfold wp. simpl. split; [|done]. eapply asks_mono; [done|set_solver].
      * apply Hset; try done. unfold yaml_of. by rewrite decide_True, decide_False.
    + split; [|done]. eapply asks_mono; [done|set_solver].
  - destruct Hkind as [?|Hkind]; [done|]. rewrite decide_True by done. unfold applyKustomize. apply wp_bind.
    eapply wp_mono; [by apply wp_from_spec|]. intros [[c p]|e] w1 [Hs Hc]; [|split; [by eapply asks_mono; [done|set_solver]|done]].
    destruct (Hc c p eq_refl) as (-> & Hp & Hl). apply wp_bind, wp_lift. destruct (kustomizeFiles _) as [files|e] eqn:Hf.
    2:{ split; [by eapply asks_mono; [done|set_solver]|done]. }
    apply wp_bind, wp_lift. unfold renderKustomization. destruct (kustomize_build _ _) as [yaml|] eqn:Hy.
    2:{ split; [by eapply asks_mono; [done|set_solver]|done]. }
    apply Hset; try done. unfold yaml_of. by rewrite decide_False, (files_read _ _ Hf).
Qed.

Lemma wp_delete kind name cur state w : is_set kind → recorded state cur →
  wp server (K8s.Delete (MkDeleteParams kind name state None)) w (λ x w', asks_only (keys cur) w w' ∧
    (x = Ok tt → ∀ k, k ∈ keys cur → gone w' k)).
Proof.
  intros Hkind Hrec. unfold Delete. cbn [dp_Kind]. rewrite decide_False by (by destruct Hkind as [-> | ->]). rewrite decide_True by done.
  unfold deleteManifest. cbn [dp_State]. destruct Hrec as [[-> ->]|(k & -> & Hp & Hl)].
  { unfold wp. simpl. split; [done|]. intros _ k' []%not_elem_of_nil. }
  rewrite read_manifest_enc. cbn [ms_Objects ms_Kube]. case_decide as Hd.
  { destruct Hd as [->|?]; [|congruence]. unfold wp. simpl. split; [done|]. intros _ k' []%not_elem_of_nil. }
  apply wp_bind. eapply wp_mono; [by apply wp_load|]. intros [c|e] w1 [Hs Hc]; [|split; [by eapply asks_mono; [done|set_solver]|done]].
  rewrite (Hc c eq_refl). apply wp_bind. eapply wp_mono; [apply wp_client|]. intros [kl|e] w2 [Hs2 Hk].
  2:{ split; [|done]. eapply asks_mono; [by eapply asks_trans|set_solver]. }
  eapply wp_mono; [by apply (wp_delete_objects ErrDelete), Hk|]. intros x w3 [Hs3 Hg]. split; [|done].
  by eapply (asks_trans _ _ []); [eapply (asks_trans _ _ [])|].
Qed.

(** Looking changes nothing. *)
Lemma wp_look k ref w : client_here k →
  wp server (b ← get_object k ref; Ret (ref, b)) w (λ _ w', asks_only [] w w').
Proof.
  intros [Hkc _]. apply wp_bind, wp_bind, wp_call. rewrite Hkc. pose proof (asks_one kc want [] serve (QGet kc ref) w eq_refl) as Hs.
  unfold logged in *. by destruct (serve (QGet kc ref) w.1) as [a v].
Qed.
Lemma wp_mapP {A B} (f : A → P B) l w :
  (∀ x w, wp server (f x) w (λ _ w', asks_only [] w w')) → wp server (mapP f l) w (λ _ w', asks_only [] w w').
Proof.
  intros Hf. revert w. induction l as [|x l IH]; intros w; [exact (asks_refl _ _ _ w)|]. cbn [mapP]. apply wp_bind. eapply wp_mono; [apply Hf|].
  intros [y|e] w1 Hs; [|done]. apply wp_bind. eapply wp_mono; [apply IH|]. intros [ys|e] w2 Hs2; by eapply asks_in.
Qed.
Lemma wp_get kind name cur state w : is_set kind → recorded state cur →
  wp server (Get (MkGetParams kind name state)) w (λ x w', asks_only [] w w' ∧ ∀ r, x = Ok r → gr_State r = state).
Proof.
  intros Hkind Hrec. assert (Get (MkGetParams kind name state) = getObjectSet (MkGetParams kind name state) kind) as ->.
  { unfold K8s.Get. cbn [gp_Kind]. by destruct Hkind as [-> | ->]. }
  unfold getObjectSet. cbn [gp_State]. destruct Hrec as [[-> ->]|(k & -> & Hp & Hl)]; [by split|].
  rewrite read_manifest_enc. cbn [ms_Objects ms_Kube]. case_decide; [by split|].
  apply wp_bind. eapply wp_mono; [by apply wp_load|]. intros [c|e] w1 [Hs Hc]; [|done]. rewrite (Hc c eq_refl).
  apply wp_bind. eapply wp_mono; [apply wp_client|]. intros [kl|e] w2 [Hs2 Hk]; [|by split; [eapply asks_in|]]. specialize (Hk kl eq_refl).
  apply wp_bind. eapply wp_mono; [apply wp_mapP; intros ref w'; by apply wp_look|]. intros [l|e] w3 Hs3; [|split; [by do 2 (eapply asks_in; [eassumption|])|done]].
  assert (asks_only [] w w3) by (eapply asks_in; [eassumption|]; by eapply asks_in).
  case_decide; unfold wp; simpl; (split; [done|]); [done|]. intros r [= <-]. done.
Qed.

(** ** Many of them *)

Inductive kop : Type :=
| KApply (m : resource)
| KGet (kind name : string)
| KDelete (kind name : string).
(** The state is kept as the adapter of External keeps it. *)
Definition kstep (o : kop) (s : W * option value) : bool * (W * option value) :=
  let '(w, state) := s in
  match o with
  | KApply m =>
      let '(x, _, w) := run server (Apply (MkApplyParams (Some m) state None)) w in
      (is_ok x, (w, match x with Ok r => ar_State r | Err _ => state end))
  | KGet kind name =>
      let '(x, _, w) := run server (Get (MkGetParams kind name state)) w in
      (is_ok x, (w, match x with Ok r => match gr_State r with Some v => Some v | None => state end | Err _ => state end))
  | KDelete kind name =>
      let '(x, _, w) := run server (K8s.Delete (MkDeleteParams kind name state None)) w in (is_ok x, (w, if is_ok x then None else state))
  end.
Fixpoint ksteps (ops : list kop) (s : W * option value) : list bool * (W * option value) :=
  match ops with
  | [] => ([], s)
  | o :: ops => let '(b, s) := kstep o s in let '(bs, s) := ksteps ops s in (b :: bs, s)
  end.

Definition kop_ok (o : kop) : Prop :=
  match o with
  | KApply m => is_set (r_kind m) ∧ spec_leads (fields (r_spec m))
  | KGet kind _ | KDelete kind _ => is_set kind
  end.
(** What is asked for by an operation, and what should be there after it. *)
Definition asked (o : kop) : list objectRef := match o with KApply m => wants m | _ => [] end.
Definition due (cur : list objectRef) (o : kop) : list objectRef :=
  match o with KApply m => wants m | KGet _ _ => cur | KDelete _ _ => [] end.
(** Every object is declared under one version and kind, and none has a slash in a name. *)
Definition declared (r : objectRef) : list string := [or_Group r; or_Version r; or_Kind r; or_Namespace r; or_Name r].
Definition one_version (l : list objectRef) : Prop :=
  ∀ r, r ∈ l → Forall (no_byte "/"%char) (declared r) ∧ ∀ r', r' ∈ l → declared r = declared r' ↔ key_of r = key_of r'.
Lemma one_version_id l r r' : one_version l → r ∈ l → r' ∈ l → ref_id r = ref_id r' ↔ key_of r = key_of r'.
Proof.
  intros Hl Hr Hr'. destruct (Hl r Hr) as [Hn Hk], (Hl r' Hr') as [Hn' _]. rewrite <- (Hk r' Hr'). unfold ref_id. split.
  - intros H%(f_equal (split_on "/")). by rewrite !(split_on_join "/") in H.
  - by intros [= -> -> -> -> ->].
Qed.
Lemma one_version_sub l l' : one_version l → l' ⊆ l → one_version l'.
Proof. intros Hl Hs r Hr. destruct (Hl r (Hs r Hr)) as [Hn Hk]. split; [done|]. intros r' Hr'. by apply Hk, Hs. Qed.
Definition changes_succeed (ops : list kop) (bs : list bool) : Prop := Forall2 (λ o b, match o with KGet _ _ => True | _ => b = true end) ops bs.

(** One step: whatever happens, only what it asks for and what is recorded can change. *)
Lemma kstep_spec o w state cur : kop_ok o → recorded state cur →
  let '(b, (w', state')) := kstep o (w, state) in
  ∃ cur', recorded state' cur' ∧ cur' ⊆ asked o ++ cur ∧ asks_only (keys (asked o ++ cur)) w w' ∧
    (changes_succeed [o] [b] → cur' = due cur o ∧
      match o with
      | KApply m => settled cur (wants m) w w'
      | KGet _ _ => asks_only [] w w'
      | KDelete _ _ => ∀ k, k ∈ keys cur → gone w' k
      end).
Proof.
  intros Ho Hrec. destruct o as [m|kind name|kind name]; cbn [kstep asked due].
  - destruct Ho as [Hk Hl]. pose proof (wp_apply m cur state w Hk Hl Hrec) as Hw. unfold wp in Hw.
    destruct (run server _ w) as [[x t] w']. destruct Hw as [Hs Hx]. destruct x as [r|e].
    + destruct (Hx r eq_refl) as (Hr & Hrest). exists (wants m). split; [done|]. split; [set_solver|]. split; [done|]. done.
    + exists cur. split; [done|]. split; [set_solver|]. split; [done|]. intros Hb. by inv Hb.
  - pose proof (wp_get kind name cur state w Ho Hrec) as Hw. unfold wp in Hw. destruct (run server _ w) as [[x t] w']. destruct Hw as [Hs Hx].
    exists cur. split; [|split; [done|split; [by eapply asks_mono; [done|set_solver]|done]]].
    destruct x as [r|e]; [|done]. rewrite (Hx r eq_refl). by destruct state.
  - pose proof (wp_delete kind name cur state w Ho Hrec) as Hw. unfold wp in Hw. destruct (run server _ w) as [[x t] w']. destruct Hw as [Hs Hx].
    destruct x as [[]|e]; simpl.
    + exists []. split; [by left|]. split; [set_solver|]. split; [done|]. intros _. split; [done|by apply Hx].
    + exists cur. split; [done|]. split; [done|]. split; [done|]. intros Hb. by inv Hb.
Qed.

Lemma ksteps_frame ops w state cur : Forall kop_ok ops → recorded state cur →
  let '(bs, (w', state')) := ksteps ops (w, state) in asks_only (keys (concat (map asked ops) ++ cur)) w w'.
Proof.
  intros Hops. revert w state cur. induction Hops as [|o ops Ho _ IH]; intros w state cur Hrec; [apply asks_refl|]. cbn [ksteps].
  pose proof (kstep_spec o w state cur Ho Hrec) as Hstep. destruct (kstep o (w, state)) as [b [w1 state1]].
  destruct Hstep as (cur1 & Hrec1 & Hsub & Hs & _). specialize (IH w1 state1 cur1 Hrec1).
  destruct (ksteps ops (w1, state1)) as [bs [w2 state2]]. eapply asks_mono; [by eapply asks_trans|]. simpl.
  intros k. rewrite !map_app, !elem_of_app. intros [?|[?|Hk]]; [tauto..|]. apply list_elem_of_fmap in Hk as (r & -> & [Hr|Hr]%Hsub%elem_of_app).
  - left. left. by apply list_elem_of_fmap_2.
  - right. by apply list_elem_of_fmap_2.
Qed.

(** What is kept and what is recorded agree as long as changes succeed. *)
Definition in_step (w : W) (seen cur : list objectRef) : Prop :=
  ∀ k, k ∈ keys seen → last_change w.2 k = Some (bool_decide (k ∈ keys cur)).
Lemma pruned_keys cur new k : one_version (cur ++ new) → k ∈ keys (prunedRefs cur new) ↔ k ∈ keys cur ∧ k ∉ keys new.
Proof.
  intros Hv. unfold prunedRefs. rewrite !list_elem_of_fmap. setoid_rewrite list_elem_of_filter. split.
  - intros (r & -> & Hn & Hr). split; [by exists r|]. intros (r' & Hk & Hr'). apply Hn, list_elem_of_fmap. exists r'. split; [|done].
    eapply one_version_id; [exact Hv|set_solver..|done].
  - intros [(r & -> & Hr) Hn]. exists r. split; [done|]. split; [|done]. intros (r' & Hid & Hr')%list_elem_of_fmap. apply Hn. exists r'. split; [|done].
    eapply one_version_id; [exact Hv|set_solver..|done].
Qed.
Lemma kstep_in_step o b w w' state state' seen cur : kop_ok o → recorded state cur → cur ⊆ seen → one_version (seen ++ asked o) →
  kstep o (w, state) = (b, (w', state')) → changes_succeed [o] [b] → in_step w seen cur →
  recorded state' (due cur o) ∧ due cur o ⊆ seen ++ asked o ∧ in_step w' (seen ++ asked o) (due cur o).
Proof.
  intros Ho Hrec Hsub Hv Hk Hb Hin. pose proof (kstep_spec o w state cur Ho Hrec) as Hstep. rewrite Hk in Hstep.
  destruct Hstep as (cur' & Hrec' & Hcur & Hs & Hok). destruct (Hok Hb) as [-> Hlive]. split; [done|]. split.
  { intros r Hr%Hcur. set_solver. }
  intros k Hkk. destruct o as [m|kind name|kind name]; cbn [asked due] in *.
  - destruct Hlive as (Hs' & Hgone & Hthere).
    assert (∀ k, k ∈ keys (prunedRefs cur (wants m)) ↔ k ∈ keys cur ∧ k ∉ keys (wants m)) as Hpr.
    { intros k'. apply pruned_keys. eapply one_version_sub; [exact Hv|]. set_solver. }
    destruct (decide (k ∈ keys (wants m))) as [Hw|Hw].
    { rewrite bool_decide_true by done. apply Hthere; [done|]. rewrite Hpr. tauto. }
    rewrite bool_decide_false by done. rewrite map_app, elem_of_app in Hkk. destruct Hkk as [Hkk|]; [|done].
    destruct (decide (k ∈ keys cur)) as [Hc|Hc]; [by apply Hgone, Hpr|].
    rewrite (asks_last _ _ _ _ _ _ Hs'), (Hin k Hkk); [by rewrite bool_decide_false|]. rewrite map_app, elem_of_app, Hpr. tauto.
  - rewrite app_nil_r in Hkk. rewrite (asks_nil _ _ _ _ _ Hlive). by apply Hin.
  - rewrite app_nil_r in Hkk. rewrite bool_decide_false by apply not_elem_of_nil. destruct (decide (k ∈ keys cur)) as [Hc|Hc]; [by apply Hlive|].
    rewrite (asks_last _ _ _ _ _ _ Hs Hc), (Hin k Hkk). by rewrite bool_decide_false.
Qed.
Lemma ksteps_in_step ops w state seen cur : Forall kop_ok ops → recorded state cur → cur ⊆ seen → one_version (seen ++ concat (map asked ops)) →
  in_step w seen cur →
  let '(bs, (w', state')) := ksteps ops (w, state) in changes_succeed ops bs → in_step w' (seen ++ concat (map asked ops)) (foldl due cur ops).
Proof.
  intros Hops. revert w state seen cur. induction Hops as [|o ops Ho _ IH]; intros w state seen cur Hrec Hsub Hv Hin; cbn [ksteps].
  { intros _. simpl. by rewrite app_nil_r. }
  destruct (kstep o (w, state)) as [b [w1 state1]] eqn:Hk. simpl in Hv.
  specialize (IH w1 state1 (seen ++ asked o) (due cur o)). destruct (ksteps ops (w1, state1)) as [bs [w2 state2]]. intros Hb.
  apply Forall2_cons in Hb as [Hb Hbs]. simpl. rewrite app_assoc in Hv |- *.
  destruct (kstep_in_step o b w w1 state state1 seen cur) as (Hrec1 & Hsub1 & Hin1); try done.
  - eapply one_version_sub; [exact Hv|]. set_solver.
  - by constructor.
  - by apply IH.
Qed.

(** C39: what a Manifest or Kustomize asks of its cluster, whatever the cluster answers.
    Over any sequence of applies, reads and deletions, failed ones included, every
    request goes to the cluster of its kubeconfig and changes only objects that its
    manifests name, each patched at its own kind, namespace and name. And if every apply
    and deletion succeeds, no object is declared under two versions or kinds, and no name
    holds a slash, then the last change that the cluster accepted of an object is a patch if the last
    manifest names it, and its deletion otherwise (every one's, after a deletion). That
    the kubeconfigs lead to this cluster, and that a kind it serves is always served as
    the same resource, is assumed; when an accepted deletion takes effect, and what else
    goes with it, is left to the cluster. *)
Theorem objects_lifecycle ops v : Forall kop_ok ops →
  let '(bs, ((_, log), _)) := ksteps ops ((v, []), None) in let all := concat (map asked ops) in
  Forall (λ e, only kc want (keys all) e.1) log ∧
  (one_version all → changes_succeed ops bs → ∀ k, k ∈ keys all → last_change log k = Some (bool_decide (k ∈ keys (foldl due [] ops)))).
Proof.
  intros Hops. assert (recorded None []) as Hrec by (by left). pose proof (ksteps_frame ops (v, []) None [] Hops Hrec) as Hf.
  pose proof (ksteps_in_step ops (v, []) None [] [] Hops Hrec) as Hi. destruct (ksteps ops ((v, []), None)) as [bs [[v' log] state]]. split.
  - rewrite app_nil_r in Hf. destruct Hf as (t & Ht & Hf). simpl in Ht. by subst log.
  - intros Hv Hb. apply Hi; [done|done| |done]. by intros k ?%not_elem_of_nil.
Qed.
End lifecycle.

(** ** What is shown, and what is planned *)

Section shown.
Context (GroupVersionKind : gomap → string * string * string) (GetName GetNamespace : gomap → string).
Context (NestedString : gomap → list string → string).
Context (YamlStream : string → list gomap * bool) (kustomize_build : list (string * string) → string → option string).
Context (ParseDuration : string → option Z).

(** The kubeconfig of a spec, its path included, is in no resource that an apply returns. *)
Definition hidden (r : ApplyResult) : Prop :=
  match ar_Resource r with Some m => ∀ v, (("kubeconfig", v) ∉ fields (r_spec m)) ∧ ("kubeconfigPath", v) ∉ fields (r_spec m) | None => True end.
Lemma without_kubeconfig_hides s v : (("kubeconfig", v) ∉ without_kubeconfig s) ∧ ("kubeconfigPath", v) ∉ without_kubeconfig s.
Proof. unfold without_kubeconfig. split; intros [[? ?] _]%list_elem_of_filter; done. Qed.
Lemma apply_hides_kubeconfig q :
  ends hidden (K8s.Apply GroupVersionKind GetName GetNamespace NestedString YamlStream kustomize_build ParseDuration q).
Proof.
  assert (∀ m content path yaml kind prior, ends hidden (applyObjectSet GroupVersionKind GetName GetNamespace YamlStream m content path yaml kind prior)) as Hset.
  { intros. unfold applyObjectSet. do 4 (apply ends_bind, ends_any; intros ?). intros v. apply without_kubeconfig_hides. }
  unfold Apply. destruct (ap_Manifest q) as [m|]; [|done]. repeat case_decide; try done.
  - unfold applyHelmRelease. do 4 (apply ends_bind, ends_any; intros ?). intros v. apply without_kubeconfig_hides.
  - unfold applyManifest. apply ends_bind, ends_any. intros [c p]. cbn zeta. case_decide; [done|apply Hset].
  - unfold applyKustomize. apply ends_bind, ends_any. intros [c p]. do 2 (apply ends_bind, ends_any; intros ?). apply Hset.
  - unfold applyPlatform. apply ends_bind, ends_any. intros [c p]. do 2 (apply ends_bind, ends_any; intros ?). intros v. apply without_kubeconfig_hides.
  - unfold applyArgoApplications. apply ends_bind, ends_any. intros [c p]. cbn zeta. apply ends_bind, ends_any. intros apps v. simpl.
    by split; intros [? | ?%not_elem_of_nil]%elem_of_cons.
Qed.

(** A component is enabled once, whatever presets and charts of its name there are. *)
Lemma put_names out c : NoDup (map cr_name out) → NoDup (map cr_name (put out c)).
Proof.
  intros Hn. unfold put. case_decide as Hc.
  - assert (map cr_name (map (λ x, if decide (cr_name x = cr_name c) then c else x) out) = map cr_name out) as ->; [|done].
    rewrite map_map. apply map_ext. intros x. by case_decide.
  - rewrite map_app. apply NoDup_app. split; [done|]. split; [|apply NoDup_singleton]. intros x Hx ->%list_elem_of_singleton. done.
Qed.
Lemma enabledComponents_once spec : NoDup (map cr_name (enabledComponents spec)).
Proof.
  assert (∀ l out, NoDup (map cr_name out) → NoDup (map cr_name (foldl put out l))) as Hf.
  { induction l as [|c l IH]; intros out Ho; [done|]. by apply IH, put_names. }
  unfold enabledComponents. destruct (specMap spec "components"); repeat apply Hf; apply NoDup_nil_2.
Qed.

(** The children of a plan are the releases that an apply installs, by name and in order. *)
Lemma ends_mapP {A B} (f : A → P B) (g : A → B) l : (∀ x, ends (λ y, y = g x) (f x)) → ends (λ ys, ys = map g l) (mapP f l).
Proof.
  intros Hf. induction l as [|x l IH]; [done|]. cbn [mapP]. apply ends_bind. eapply ends_mono; [apply Hf|]. intros y ->.
  apply ends_bind. eapply ends_mono; [exact IH|]. by intros ys ->.
Qed.
Lemma read_platform_enc st : read_platform_state (Some (enc_platform_state st)) = st.
Proof.
  destruct st as [[p i] l]. unfold read_platform_state, enc_platform_state, read_kube, enc_kube, object. cbn [ps_Kube ps_Releases kc_Path kc_Inline].
  rewrite <- (tail_nil (omit_list "releases" _)), <- !app_assoc.
  f_equal; [f_equal; apply lfield_jfield; by read_field|]. apply lfield_jfield. rewrite !jfield_skip by lacks_tac.
  apply jfield_omit_list; [done|lacks_tac|]. by intros [].
Qed.
Lemma plan_is_install m prior :
  ends (λ r, map (λ c, r_name m +:+ "-" +:+ rc_Component c) (ps_Releases (read_platform_state (ar_State r))) = map r_name (planPlatform m))
    (applyPlatform m prior).
Proof.
  unfold applyPlatform. apply ends_bind, ends_any. intros [c p]. apply ends_bind. eapply ends_mono.
  - apply (ends_mapP _ coord_of). intros x. unfold install_component. do 3 (apply ends_bind, ends_any; intros ?). done.
  - intros l ->. apply ends_bind, ends_any. intros []. cbn [ends ar_State]. rewrite read_platform_enc. unfold planPlatform. rewrite !map_map. cbn [ps_Releases]. by rewrite map_map.
Qed.
End shown.

(** ** Examples *)

(** A cluster with deployments and releases; nothing else has a kind there. *)
Record ex_world : Type := MkWorld { ex_objects : list okey; ex_releases : list (string * string) }.
Definition ex_mapper (group kind version : string) : option mapping :=
  if decide (kind = "Deployment") then Some (MkMapping group version "deployments" true) else None.
Definition ex_release (o : releaseOpts) : release := MkRelease (ro_releaseName o) (ro_namespace o) 1 "deployed" None "".
Definition ex_serve (q : kreq) (w : ex_world) : kans * ex_world :=
  match q with
  | QClient _ => (AClient ex_mapper, w)
  | QPatch _ r _ => (AOk, MkWorld (key_of r :: filter (λ k, k ≠ key_of r) (ex_objects w)) (ex_releases w))
  | QGet _ r => (if decide (key_of r ∈ ex_objects w) then AOk else ANotFound, w)
  | QDelete _ r =>
      if decide (key_of r ∈ ex_objects w) then (AOk, MkWorld (filter (λ k, k ≠ key_of r) (ex_objects w)) (ex_releases w)) else (ANotFound, w)
  | QHelm _ _ => (AOk, w)
  | QChart _ _ _ _ ref => (AChart ref, w)
  | QHistory _ ns name => (if decide ((ns, name) ∈ ex_releases w) then AOk else ANotFound, w)
  | QInstall _ o _ => (ARelease (ex_release o), MkWorld (ex_objects w) ((ro_namespace o, ro_releaseName o) :: ex_releases w))
  | QUpgrade _ o _ => (ARelease (ex_release o), w)
  | QRelease _ ns name => (if decide ((ns, name) ∈ ex_releases w) then ARelease (MkRelease name ns 1 "deployed" None "") else ANotFound, w)
  | QUninstall _ ns name => (AOk, MkWorld (ex_objects w) (filter (λ p, p ≠ (ns, name)) (ex_releases w)))
  | _ => (AErr, w)
  end.
Definition ex_str (o : gomap) (key : string) : string := specString o key.
Definition ex_meta (o : gomap) (key : string) : string := match specMap o "metadata" with Some m => specString m key | None => "" end.
Definition ex_gvk (o : gomap) : string * string * string := ("apps", ex_str o "apiVersion", ex_str o "kind").
(** A stream that is one JSON array of objects. *)
Definition ex_stream (s : string) : list gomap * bool :=
  match value_of s with Some (VList l) => (omap (λ v, match v with VMap m => Some m | _ => None end) l, true) | _ => ([], false) end.
Definition ex_object (version kind name : string) : value :=
  VMap [("apiVersion", VStr version); ("kind", VStr kind); ("metadata", VMap [("name", VStr name)])].
Definition ex_manifest (objs : list value) : resource :=
  Resource K8s.apiVersion kindManifest (ResourceMetadata "web" "" [] [] "" "")
    (Some [("kubeconfig", VStr "kc"); ("manifest", VStr (text_of (VList objs)))]) None.
Definition ex_ksteps (ops : list kop) : list bool * ((ex_world * klog) * option value) :=
  ksteps ex_gvk (λ o, ex_meta o "name") (λ o, ex_meta o "namespace") (λ _ _, "") ex_stream (λ _ _, None) (λ _, None) ex_serve ops
    ((MkWorld [("apps", "deployments", "default", "theirs")] [], []), None).
Definition ex_in (namespace : string) (o : value) : value :=
  match o with
  | VMap m => VMap (map (λ p, match p with ("metadata", VMap d) => ("metadata", VMap (("namespace", VStr namespace) :: d)) | _ => p end) m)
  | _ => o
  end.
Definition ex_kops : list kop :=
  [KApply (ex_manifest [ex_object "v1" "Deployment" "a"; ex_in "edge" (ex_object "v1" "Deployment" "b")]);
   KApply (ex_manifest [ex_in "edge" (ex_object "v1" "Deployment" "b"); ex_object "v1" "Deployment" "c"]); KGet kindManifest "web"].
Definition ex_key (namespace name : string) : okey := ("apps", "deployments", namespace, name).

Lemma ex_same_kinds : same_kinds ex_serve "kc" ex_mapper.
Proof. intros w f [= <-] g k v. by right. Qed.
#[local] Ltac computes := apply (bool_decide_unpack _); vm_compute; exact I.
Lemma objects_lifecycle_witness :
  let log := (ex_ksteps ex_kops).2.1.2 in
  (ex_ksteps ex_kops).1 = [true; true; true] ∧ last_change log (ex_key "edge" "b") = Some true ∧
  last_change log (ex_key "default" "a") = Some false ∧
  Forall (λ e, only "kc" (want ex_gvk (λ o, ex_meta o "name") (λ o, ex_meta o "namespace") ex_mapper)
    [ex_key "default" "a"; ex_key "edge" "b"; ex_key "edge" "b"; ex_key "default" "c"] e.1) log.
Proof.
  pose proof (objects_lifecycle ex_gvk (λ o, ex_meta o "name") (λ o, ex_meta o "namespace") (λ _ _, "") ex_stream (λ _ _, None) (λ _, None)
    ex_serve "kc" ex_mapper ex_same_kinds ex_kops (MkWorld [("apps", "deployments", "default", "theirs")] [])) as Hl.
  assert (Forall (kop_ok ex_serve "kc") ex_kops) as Hok by repeat constructor.
  specialize (Hl Hok). fold (ex_ksteps ex_kops) in Hl.
  set (all := concat (map (asked ex_gvk (λ o, ex_meta o "name") (λ o, ex_meta o "namespace") ex_stream (λ _ _, None) ex_mapper) ex_kops)) in Hl.
  assert (all = map (λ p, MkRef "apps" "v1" "deployments" "Deployment" p.1 p.2) [("default", "a"); ("edge", "b"); ("edge", "b"); ("default", "c")]) as Hall
    by (vm_compute; reflexivity).
  destruct (ex_ksteps ex_kops) as [bs [[w' log] st]] eqn:He. destruct Hl as [Honly Hlast].
  assert (bs = [true; true; true]) as -> by (change bs with (bs, ((w', log), st)).1; rewrite <- He; vm_compute; reflexivity).
  assert (one_version all) as Hv.
  { rewrite Hall. intros r (p & -> & Hp)%list_elem_of_fmap. split; [revert p Hp; apply Forall_forall; computes|].
    intros r' (p' & -> & _)%list_elem_of_fmap. destruct p, p'. unfold declared, key_of. simpl. split; [by intros [= -> ->]|by intros [= -> ->]]. }
  assert (changes_succeed ex_kops [true; true; true]) as Hb by repeat constructor.
  rewrite Hall in Honly, Hlast. rewrite Hall in Hv. cbn [fst snd]. split; [done|]. split; [|split; [|exact Honly]].
  - rewrite Hlast; [f_equal; vm_compute; reflexivity|done..|computes].
  - rewrite Hlast; [f_equal; vm_compute; reflexivity|done..|computes].
Defined.

(** An object that is declared in another version of its kind is patched, and then taken
    for one that has left the manifest: the apply that reports it as ready deletes it. *)
Lemma new_version_deletes :
  let x := ex_ksteps [KApply (ex_manifest [ex_object "v1beta1" "Deployment" "a"]); KApply (ex_manifest [ex_object "v1" "Deployment" "a"])] in
  x.1 = [true; true] ∧ ex_objects x.2.1.1 = [ex_key "default" "theirs"].
Proof. split; vm_compute; reflexivity. Qed.
(** What a failed apply made is not recorded: a deletion leaves it. *)
Lemma failed_apply_leaks :
  let x := ex_ksteps [KApply (ex_manifest [ex_object "v1" "Deployment" "a"; ex_object "v1" "Widget" "w"]); KDelete kindManifest "web"] in
  x.1 = [false; true] ∧ ex_objects x.2.1.1 = [ex_key "default" "a"; ex_key "default" "theirs"].
Proof. split; vm_compute; reflexivity. Qed.

(** The releases of a plugin that is driven as the adapter drives it. *)
Definition ex_apply (m : resource) (s : ex_world * option value) : ex_world * option value :=
  let '(x, _, w) := run ex_serve (K8s.Apply ex_gvk (λ o, ex_meta o "name") (λ o, ex_meta o "namespace") (λ _ _, "") ex_stream (λ _ _, None) (λ _, None)
    (MkApplyParams (Some m) s.2 None)) s.1 in
  (w, match x with Ok r => ar_State r | Err _ => s.2 end).
Definition ex_delete (kind : string) (s : ex_world * option value) : ex_world :=
  (run ex_serve (K8s.Delete (MkDeleteParams kind "p" s.2 None)) s.1).2.
Definition ex_resource (kind : string) (spec : gomap) : resource :=
  Resource K8s.apiVersion kind (ResourceMetadata "p" "" [] [] "" "") (Some (("kubeconfig", VStr "kc") :: spec)) None.
Definition ex_traefik (more : gomap) : resource := ex_resource kindPlatform [("traefik", VMap (("enabled", VBool true) :: more))].
Definition ex_helm (name : string) : resource :=
  ex_resource kindHelmRelease [("releaseName", VStr name); ("chart", VMap [("repo", VStr "oci://r/c")])].

(** A component that moves to another namespace is installed there and stays where it
    was: releases are told apart by component alone. *)
Lemma moved_component_leaks :
  let s := ex_apply (ex_traefik [("namespace", VStr "edge")]) (ex_apply (ex_traefik []) (MkWorld [] [], None)) in
  ex_releases s.1 = [("edge", "traefik"); ("traefik", "traefik")] ∧ ex_releases (ex_delete kindPlatform s) = [("traefik", "traefik")].
Proof. split; vm_compute; reflexivity. Qed.
(** A release that is renamed is installed under its new name only for openctl. *)
Lemma renamed_release_leaks :
  let s := ex_apply (ex_helm "two") (ex_apply (ex_helm "one") (MkWorld [] [], None)) in
  ex_releases s.1 = [("default", "two"); ("default", "one")] ∧ ex_releases (ex_delete kindHelmRelease s) = [("default", "one")].
Proof. split; vm_compute; reflexivity. Qed.
(** A component that is disabled is uninstalled. *)
Lemma disabled_component_goes :
  ex_releases (ex_apply (ex_resource kindPlatform []) (ex_apply (ex_traefik []) (MkWorld [] [], None))).1 = [].
Proof. vm_compute. reflexivity. Qed.
